(* ===== verification/_CoqProject ===== *)
-Q . S2P
Prelude.v
Json.v
Text.v
F64.v
Fs.v
Framing.v
Retry.v
Metrics.v
Trace.v
CdpConn.v
AxMerge.v
Snapshot.v
Network.v
Input.v
Actions.v
FrameRing.v
Vision.v
VisionAnalysis.v
Fetcher.v
Privacy.v
Sandbox.v
Clone.v
CloneSpec.v
Merge.v
TermState.v
TermControl.v
WorldModel.v
BrokerSession.v
Wire.v
Router.v
Pump.v
Tabs.v
PageTools.v
Seeds.v
TermTools.v
Native.v
SystemTools.v
NetTools.v
PageSpec.v
Schema.v
Tools.v
ToolArgs.v
Server.v
Mcp.v
