(* ===== verification/Prelude.v ===== *)
(** * one-for-all: a verification development

    ** The program

    one-for-all lets a coding agent drive browsers, terminals and the desktop.
    The agent speaks MCP over stdio to [mcp-server]; [mcp-server] forwards tool
    calls as JSON-RPC lines over a Unix socket to the [broker]; the broker keeps
    one session per agent and drives, per session, a Chromium process
    ([browser-engine] over [cdp-client]), a file-system sandbox ([sandbox]),
    terminals ([terminal-control]), the desktop ([native-control],
    [system-control]) and the screen ([vision], whose frames go through a shared
    memory ring).  [world-model] fuses the event streams into one picture.

    The sources are the crates under src/crates.  The development models the
    parts that carry state, protocols or policy; each file below is one part.

    ** Files and what they model

    - [Prelude]: [result] and its bind, machine integers with saturating and
      wrapping operations, [zlen] for lengths as [usize], bytes, hint and
      rewrite databases.
    - [Json]: the serde_json interface as classes ([JsonCodec], [JsonView]) and
      a tree instance.
    - [Text]: decimal and hexadecimal numbers, UTF-8, [trim], paths, and the
      class [Os] of file-system questions the components ask.
    - [F64]: binary64 values, casts and comparisons, on the Standard Library's
      executable [spec_float].
    - [Fs]: a file-system model (a map from paths to files and directories, an
      error script), its operations as a monad, and Hoare-style rules.
    - [Framing] (cdp-client/src/framing.rs): the NUL-terminated frames of the
      Chromium pipe; decoder state, [feed_into], [encode_frame_into].
    - [Retry] (cdp-client/src/retry.rs, metrics.rs): the retry loop with its
      backoff and metrics, over a script of attempt outcomes.
    - [CdpConn] (cdp-client/src/session.rs, connection.rs): request ids, the
      pending map, oneshots, dispatch of replies and events, the drain at the
      end of a connection, as operations on one connection state and a step
      relation.
    - [Wire] (broker/src/protocol.rs, server.rs writer task,
      mcp-server/src/broker_client.rs): the broker socket, JSON lines and binary
      vision frames, both ends; requests, redial, reader, drain.
    - [Mcp] (mcp-server/src/mcp.rs, main.rs, error.rs): the
      Content-Length-framed stdio loop, requests, cancellation, responses.
    - [Router] (broker/src/router/mod.rs): the method table, what is advertised,
      error values and argument helpers, the frame of [dispatch].
    - [Server] (broker/src/server.rs, router/session.rs, lib.rs, lifecycle.rs):
      connections, registration and unregistration, tool calls and lifecycle
      tasks as one interleaving machine over shared session entries.
    - [Metrics] (observability/src/metrics.rs, latency.rs, cdp.rs): histograms,
      registries and counters.
    - [Trace] (observability/src/trace.rs): recording, redaction, the rotating
      writer and its manifest, over [Fs].
    - [AxMerge] (ax-engine/src/merge.rs, index.rs, iframe.rs and the element
      lists of browser-engine/src/snapshot.rs): accessibility elements, stable
      ids, spliced frames.
    - [Snapshot] (browser-engine/src/snapshot.rs, page.rs, ax-engine/src/
      mutation.rs): full and delta snapshots, the mutation observer in the page.
    - [Network] (browser-engine/src/network.rs): the HAR ring and its dates,
      intercept handlers and the dispatch of paused requests.
    - [Input] (browser-engine/src/input_translation.rs): pointer paths, wheel
      profiles, keys, accelerators, command parameters.
    - [Actions] (browser-engine/src/actions.rs): every action of a page, as a
      program tree ([Actions.Prog]) whose nodes are the events it causes and
      whose branches are the answers.
    - [PageTools] and [PageSpec] (broker/src/router/page.rs,
      browser-engine/src/cookies.rs, emulate.rs): the page tools of the broker
      as programs over [Actions] and the questions they ask of the session and
      the browser; their theorems.
    - [Pump] (browser-engine/src/page.rs, wait.rs): the event pump of a page,
      one event at a time, with its channels, queues and the commands it answers
      with; the waits on it.
    - [Tabs] (browser-engine/src/page.rs, context.rs, browser.rs,
      broker/src/router/tab.rs): setting a page up, navigation and the policy on
      URLs, the registry of tabs, reattaching after a crash, the tab tools.
    - [Seeds] (sandbox/src/v_r1.rs, browser-engine/src/browser.rs): the plan that
      carries the user's cookies and storage into a session, and applying it.
    - [Privacy] (native-control/src/privacy.rs): the policy of a session, blocked
      applications and redaction.
    - [TermTools] (broker/src/router/term.rs): the terminal tools and the
      notifications of terminals, over [TermControl] and [Privacy].
    - [Native] (broker/src/router/native.rs, internal.rs,
      native-control/src/controller.rs, clipboard.rs, scripting.rs, the scripts of
      actions.rs): the tools on native applications in a monad that records the
      calls to the system; the controller of a session, the clipboard ring.
    - [SystemTools] (broker/src/router/system.rs,
      system-control/src/process.rs): the tools on the host system and the
      reading of processes.
    - [NetTools] (broker/src/router/net.rs): the network tools over [Network],
      the tasks that forward what pages observe, the replay of subscriptions.
    - [Schema] (mcp-server/src/schema.rs): the argument types of the tools as
      values of a universe of types, and the JSON values a type takes.
    - [Tools] (mcp-server/src/tools.rs): the tool table, validation, time limits
      and dispatch over [Wire].
    - [ToolArgs]: the published schemas against the arguments the page tools
      read.
    - [Fetcher] (chromium-fetcher): manifest resolution, resumable download,
      verification, extraction, over [Fs].
    - [FrameRing] (vision/src/frame_ring.rs): the shared-memory ring, its atomic
      words as a record per slot, one operation per atomic step, and the step
      relation of any number of producers and readers.
    - [Vision] (vision/src/diff.rs, coords.rs, ocr.rs, api.rs): tiles, their
      hashes and differences, boxes, the text cache and the pipeline.
    - [VisionAnalysis] (vision/src/pixel.rs, layout.rs, scrollbar.rs, icon.rs,
      overlay.rs, text_style.rs, loading.rs, semantic_diff.rs, animation.rs,
      palette.rs, region_classify.rs, types of vlm.rs): what is read off a
      frame, in binary32 and binary64.
    - [TermState] (terminal-control/src/state.rs): the output byte ring, row
      attribute runs, scrollback reading.
    - [TermControl] (terminal-control/src/controller.rs): spawn, the reader
      task, input encoding (mouse, keys), working directory and command
      construction, close with its escalation.
    - [Sandbox] (sandbox/src/inherit.rs, sbpl.rs, spawn.rs and their errors and
      limits): inherit lists, the sandbox profile and its text, prepare.
    - [Clone] and [CloneSpec] (sandbox/src/clone.rs, snapshot.rs): cloning the
      user's files into a session, and the snapshots of a session, over files
      with links and scripts of failures; their theorems.
    - [Merge] (sandbox/src/merge.rs): diff and merge-back of a session.
    - [WorldModel] (world-model/src/model.rs, store.rs): the fused world state.
    - [BrokerSession] (broker/src/registry.rs, recovery.rs, lifecycle.rs, and the
      exit receiver of browser-engine/src/browser.rs): session entries, the
      crash watcher, the idle drain.

    Interfaces: [JsonCodec], [WireCodec], [McpEnv] and [Os] state what a
    component takes from code outside the repository; theorems are proved
    against the class and its laws, and applied at a concrete instance in the
    [...Examples] modules.  Environment behaviour (clocks, I/O results, what
    other tasks do during an await) is an argument of the operation.

    ** What the theorems show

    - Transport: the CDP decoder computes the reference split of the stream at
      NUL bytes under any chunking, within its bounds, and inverts the encoder
      ([Framing]); the broker socket delivers every event once and in order, and
      exactly which binary frames it loses ([Wire]); the stdio framing is read
      back exactly by both readers ([Mcp]).
    - Requests: every reply resolves exactly its request, every request is
      resolved when a connection ends ([CdpConn], [Wire]); the retry loop's
      attempts, delays and accounting ([Retry]).
    - Shared memory: in all reachable states of the ring no writer shares a slot
      with a reader or a writer, references are counted exactly, a reader's
      bytes do not change, a published frame is read back ([FrameRing]); the
      interleaving inside [commit] that breaks this.
    - Terminals: the byte ring refines the output stream with exact loss
      accounting, rows and scrollback are reported exactly ([TermState]); close
      terminates and escalates as stated, ids are fresh, commands and working
      directories are confined, mouse reports read back ([TermControl]).
    - Sandbox: profile text reads back as the policy, whatever the paths
      contain; writes are confined to the rootfs; what prepare leaves on disk
      ([Sandbox]); cloning is complete and confined whichever way it goes,
      snapshots restore what they were taken of, and the copy programs are out
      of reach ([CloneSpec]); the diff is a longest-common-subsequence diff and the merge
      runs only the commands it should ([Merge]).
    - World model: the state is the fused history of its inputs, published one
      generation at a time ([WorldModel]).
    - Sessions: outbound accounting, when a session is drained, what the crash
      watcher does ([BrokerSession]).
    - The broker: every request is answered once and in order on its connection,
      how far the session cap can be passed, a bound session is not drained
      ([Server]); the method table is complete and unambiguous ([Router]).
    - Pages: deltas are exact parts of the mutation history ([Snapshot]), element
      lists are dense and refs distinct ([AxMerge]), the HAR ring refines the
      event stream and dates round-trip ([Network]); every action sends a prefix
      of a script fixed by its arguments and leaves the input devices idle
      ([Actions]), wheel profiles add up exactly and accelerators round-trip
      ([Input]).
    - Tools: a tool call is forwarded under its own name, arguments and time
      limit ([Tools]); what the schemas admit the page tools take ([ToolArgs]);
      a page tool sends a prefix of the script of its action, on elements of a
      snapshot it took, refuses stale refs and, without the capability it needs,
      does nothing ([PageSpec]).
    - The page behind them: what the pump keeps is a function of the events it
      received, whatever was lost; every paused request and challenge is
      answered once; waiting for an idle network ends ([Pump]).  The tab tools
      load only about:blank and http or https URLs, and what a failed opening
      leaves behind ([Tabs]); a seed plan that was applied was applied whole
      ([Seeds]); what pages observe is delivered once and in order, and after a
      crash every subscription moves to the page that takes over ([NetTools]).
    - The desktop: in every reachable state a tool on native applications makes
      only the calls that capabilities, confirmation and the policy in force
      permit, elements are acted on in the application they came from, snapshots
      and clipboard texts are redacted, the clipboard ring is bounded, a terminal
      command stays inside its string literal ([Native]); a tool on the host
      system makes only the calls its capabilities grant ([SystemTools]); a
      terminal tool changes only the terminal it names ([TermTools]).
    - Vision: the pipeline refines the log of decoded frames, a difference lists
      exactly the tiles whose hash changed ([Vision]); the segments, runs, boxes
      and frames the analyses report are those of their definitions
      ([VisionAnalysis]).
    - Observability: histograms tally their samples ([Metrics]); the trace's
      accounting is exact, what is on disk is what was taken, redaction is
      complete ([Trace]).
    - Chromium: downloads are exact or absent and complete when the server
      answers, extraction stays inside its destination ([Fetcher]).

    Some theorems state a behaviour that is not what the code or its comments
    intend; they give the general situation in which it happens.

    ** Bounds and fuel

    Integers are [Z] at their Rust width: saturation and wrap-around are
    written out, and theorems that need a counter not to wrap say so
    (generations, ids and sequence numbers below 2^64).  Recursion is
    structural except: scrollback reading (fuel: the number of lines, enough
    because each round moves the window by at least one line), the diff trace
    (fuel: the sum of both lengths, one line consumed per step), number printing
    (fuel: one more than the binary logarithm), UTF-8 decoding (fuel: the byte
    length), the drain of a closed connection (fuel: the pending requests, one
    per round), the stdin loop (fuel: one more
    than the input length; each frame shortens the input,
    [Mcp.stdin_bodies_fuel]), the wait for an idle network (fuel: one more round
    than the deadline has polls of 50 ms and one to notice it,
    [Pump.network_idle_outcome] shows it enough).  The polls of close are bounded by the code itself
    (sixty).

    ** Not modelled

    Chromium launch and process transport; the calls into the frameworks of the
    operating system behind [native-control], [system-control],
    [focus-manager] and the capture of [vision] (accessibility trees, windows,
    devices, screen, barcodes and faces), whose answers are parameters of the
    tools; the tools of page.rs that measure, print or look at the screen; logging set-up, the live sandbox
    probes, benchmarks and the command line.  Functions of the C library
    without a specified result (sin, cos, powi), hashes, base64, the regex
    engine and the text of injected scripts are parameters.  Memory ordering is
    sequentially consistent: each atomic access of the ring is one step.  Of the
    builds, that of macOS is modelled; elsewhere the native tools answer that
    the platform is not supported.

    The rest of this file is the shared prelude. *)
From stdpp Require Export base list gmap strings.
From Stdlib Require Export ZArith Lia.
From Stdlib Require Strings.Byte.

Declare Scope ofa_scope.
Delimit Scope ofa_scope with ofa.
#[global] Open Scope Z_scope.

(** ** Rust's [Result] *)

Inductive result (A E : Type) : Type :=
| Ok (a : A)
| Err (e : E).
Arguments Ok {A E} a.
Arguments Err {A E} e.

#[export] Instance result_eq_dec {A E} `{EqDecision A, EqDecision E} :
  EqDecision (result A E).
Proof. solve_decision. Defined.

Definition is_ok {A E} (r : result A E) : bool :=
  match r with Ok _ => true | Err _ => false end.

(** [x <-? c ;; k] is Rust's [let x = c?; k]. *)
Notation "x <-? c ;; k" :=
  (match c with Ok x => k | Err err => Err err end)
  (at level 100, c at next level, right associativity) : ofa_scope.
#[global] Open Scope ofa_scope.

(** ** Machine integers

    Unsigned Rust integers are [Z] in range; the operations the sources use
    are written out with their overflow behaviour. *)

Definition u8_max : Z := 2 ^ 8 - 1.
Definition u16_max : Z := 2 ^ 16 - 1.
Definition u32_max : Z := 2 ^ 32 - 1.
Definition u64_max : Z := 2 ^ 64 - 1.

(** [saturating_add], [saturating_sub] at an unsigned width, and the wrapping
    addition and subtraction of [AtomicU*::fetch_add] / [fetch_sub]. *)
Definition sat_add (m a b : Z) : Z := Z.min m (a + b).
Definition sat_sub (a b : Z) : Z := Z.max 0 (a - b).
Definition wrap_add (m a b : Z) : Z := (a + b) mod (m + 1).
Definition wrap_sub (m a b : Z) : Z := (a - b) mod (m + 1).

Definition in_u8 (z : Z) : Prop := 0 <= z <= u8_max.
Definition in_u16 (z : Z) : Prop := 0 <= z <= u16_max.
Definition in_u32 (z : Z) : Prop := 0 <= z <= u32_max.
Definition in_u64 (z : Z) : Prop := 0 <= z <= u64_max.

Lemma sat_add_range m a b : 0 <= a -> 0 <= b -> 0 <= m -> 0 <= sat_add m a b <= m.
Proof. unfold sat_add; lia. Qed.

Lemma sat_add_exact m a b : a + b <= m -> sat_add m a b = a + b.
Proof. unfold sat_add; lia. Qed.

Lemma wrap_add_range m a b : 0 <= m -> 0 <= wrap_add m a b <= m.
Proof. intros. unfold wrap_add. pose proof (Z.mod_pos_bound (a + b) (m + 1)). lia. Qed.

Lemma wrap_add_exact m a b : 0 <= a -> 0 <= b -> a + b <= m -> wrap_add m a b = a + b.
Proof. intros. unfold wrap_add. rewrite Z.mod_small; lia. Qed.

Lemma wrap_sub_exact m a b : 0 <= b <= a -> a <= m -> wrap_sub m a b = a - b.
Proof. intros. unfold wrap_sub. rewrite Z.mod_small; lia. Qed.

Create HintDb ofa discriminated.
Create Rewrite HintDb ofa.
#[export] Hint Resolve sat_add_range wrap_add_range : ofa.
#[export] Hint Rewrite @length_app @length_cons @length_insert @length_replicate
  @length_drop @length_take : ofa.

(** ** Lengths as [usize] values *)

Definition zlen {A} (l : list A) : Z := Z.of_nat (length l).

Lemma zlen_nonneg {A} (l : list A) : 0 <= zlen l.
Proof. unfold zlen; lia. Qed.

Lemma zlen_app {A} (l k : list A) : zlen (l ++ k) = zlen l + zlen k.
Proof. unfold zlen. rewrite length_app. lia. Qed.

Lemma zlen_nil {A} : zlen (@nil A) = 0.
Proof. done. Qed.

Lemma zlen_cons {A} (x : A) l : zlen (x :: l) = 1 + zlen l.
Proof. unfold zlen. simpl. lia. Qed.

Lemma zlen_drop {A} n (l : list A) : zlen (drop n l) = Z.max 0 (zlen l - Z.of_nat n).
Proof. unfold zlen. rewrite length_drop. lia. Qed.

#[export] Hint Resolve zlen_nonneg : ofa.
#[export] Hint Rewrite @zlen_app @zlen_nil @zlen_cons @zlen_drop : ofa.

(** The last [n] of a list. *)
Definition last_n {A} (n : nat) (l : list A) : list A := drop (length l - n) l.
Lemma last_n_snoc {A} n (l : list A) x : (0 < n)%nat ->
  last_n n (l ++ [x]) = (if (n <=? length (last_n n l))%nat then tail (last_n n l) else last_n n l) ++ [x].
Proof.
  intros Hn. unfold last_n. rewrite length_app, length_drop. cbn [length].
  destruct (Nat.leb_spec n (length l - (length l - n))) as [L|L].
  - rewrite drop_app_le by lia. f_equal. replace (length l + 1 - n)%nat with (S (length l - n)) by lia.
    generalize (length l - n)%nat as k. clear. intros k. revert l. induction k as [|k IH]; intros [|y l]; try done. apply (IH l).
  - replace (length l + 1 - n)%nat with 0%nat by lia. replace (length l - n)%nat with 0%nat by lia. now rewrite !drop_0.
Qed.

(** Adding at the end and dropping from the front what is too many. *)
Lemma last_n_push {A} n (l : list A) x : last_n n (last_n n l ++ [x]) = last_n n (l ++ [x]).
Proof.
  unfold last_n. rewrite !length_app, length_drop. cbn [length]. destruct (Nat.le_gt_cases (length l) n).
  - replace (length l - n)%nat with 0%nat by lia. rewrite drop_0. do 2 f_equal. lia.
  - destruct n as [|n]; [rewrite !drop_ge by (rewrite ?length_app, ?length_drop; cbn; lia); done|].
    rewrite !drop_app_le by (rewrite ?length_drop; lia). f_equal. rewrite drop_drop. f_equal. lia.
Qed.

(** One goal per element of a list. *)
Ltac for_all :=
  lazymatch goal with
  | |- Forall _ (_ :: _) => apply List.Forall_cons; [|for_all]
  | |- Forall _ [] => apply List.Forall_nil
  end.

Ltac zlen_solve :=
  autorewrite with ofa in *;
  repeat match goal with
  | |- context [zlen ?l] =>
      lazymatch goal with H : 0 <= zlen l |- _ => fail | _ => pose proof (zlen_nonneg l) end
  | _ : context [zlen ?l] |- _ =>
      lazymatch goal with H : 0 <= zlen l |- _ => fail | _ => pose proof (zlen_nonneg l) end
  end; lia.

(** ** Bytes *)

Abbreviation byte := Byte.byte.
#[export] Instance byte_eq_dec : EqDecision byte := Byte.byte_eq_dec.

Definition byte_val (b : byte) : Z := Z.of_N (Byte.to_N b).
Definition byte_of_Z (z : Z) : byte :=
  match Byte.of_N (Z.to_N (z mod 256)) with Some b => b | None => Byte.x00 end.

Lemma byte_val_range b : 0 <= byte_val b < 256.
Proof. destruct b; unfold byte_val; simpl; lia. Qed.

Lemma byte_of_val b : byte_of_Z (byte_val b) = b.
Proof. destruct b; reflexivity. Qed.

Lemma byte_val_of_Z z : byte_val (byte_of_Z z) = z mod 256.
Proof.
  unfold byte_of_Z, byte_val.
  pose proof (Z.mod_pos_bound z 256 ltac:(lia)).
  destruct (Byte.of_N (Z.to_N (z mod 256))) eqn:E.
  - apply Byte.to_of_N in E. rewrite E. lia.
  - apply Byte.of_N_None_iff in E. lia.
Qed.

(** ** Splitting at a separator *)

Lemma split_at_sep {A} (x : A) (a b c d : list A) : x ∉ a -> x ∉ b ->
  a ++ x :: c = b ++ x :: d -> a = b /\ c = d.
Proof.
  revert b. induction a as [|y a IH]; intros [|z b] Ha Hb E; cbn in E.
  - now injection E.
  - injection E as -> E. exfalso. apply Hb. left.
  - injection E as -> E. exfalso. apply Ha. left.
  - injection E as -> E2. apply not_elem_of_cons in Ha as [_ Ha]. apply not_elem_of_cons in Hb as [_ Hb].
    now destruct (IH b Ha Hb E2) as [-> ->].
Qed.

(** At the last separator, when what follows has none. *)
Lemma split_at_last_sep {A} (x : A) (a b c d : list A) : x ∉ c -> x ∉ d ->
  a ++ x :: c = b ++ x :: d -> a = b /\ c = d.
Proof.
  intros Hc Hd E. apply (f_equal (@reverse A)) in E.
  rewrite !reverse_app, !reverse_cons, <- !(assoc_L (++)) in E. cbn [app] in E.
  apply split_at_sep in E as [E1 E2]; [|now rewrite elem_of_reverse|now rewrite elem_of_reverse].
  split; now apply (inj reverse).
Qed.
