(* ===== verification/Json.v ===== *)
(** * The serde_json interface

    [serde_json] is a dependency, not part of the repository. The components
    that use it take its operations as class parameters: [JsonCodec] for the
    serializer and parser, [JsonView] for the accessors of [Value]. The module
    [JsonTree] is a concrete instance at which theorems stated over the
    classes are applied. *)
From S2P Require Import Prelude.
From Stdlib Require SpecFloat.

(** ** Serializing and parsing *)

Class JsonCodec (Value JsonError : Type) := {
  (** [serde_json::to_writer]: the bytes written and the error, if any. *)
  to_writer : Value -> list byte * option JsonError;
  (** [serde_json::from_slice]. *)
  from_slice : list byte -> result Value JsonError
}.

Class JsonCodecLaws (Value JsonError : Type) `{JsonCodec Value JsonError} := {
  ser_nonempty v b : to_writer v = (b, None) -> b <> [];
  ser_no_nul v b : to_writer v = (b, None) -> Byte.x00 ∉ b
}.

(** [serde_json::to_vec] is [to_writer] into a fresh vector. *)
Definition to_vec {V E} `{JsonCodec V E} (v : V) : result (list byte) E :=
  match to_writer v with
  | (b, None) => Ok b
  | (_, Some e) => Err e
  end.

(** ** Reading a value *)

Class JsonView (V : Type) := {
  (** [Value::get] with a string key. *)
  vget : string -> V -> option V;
  as_str : V -> option string;
  as_bool : V -> option bool;
  as_u64 : V -> option Z;
  as_i64 : V -> option Z;
  as_array : V -> option (list V);
  (** [Value::Null] *)
  vnull : V
}.

(** [v.get(a).and_then(|v| v.get(b))] and the like. *)
Definition vget_str {V} `{JsonView V} (k : string) (v : V) : option string :=
  vget k v ≫= as_str.

(** ** A concrete instance *)
Module JsonTree.

Inductive json : Type :=
| JNull
| JBool (b : bool)
| JNum (z : Z)
| JFloat (x : SpecFloat.spec_float)
| JStr (s : string)
| JArr (l : list json)
| JObj (kvs : list (string * json)).

Fixpoint assoc (k : string) (kvs : list (string * json)) : option json :=
  match kvs with
  | [] => None
  | (k', v) :: kvs' => if bool_decide (k = k') then Some v else assoc k kvs'
  end.

#[export] Instance json_view : JsonView json := {
  vget k v := match v with JObj kvs => assoc k kvs | _ => None end;
  as_str v := match v with JStr s => Some s | _ => None end;
  as_bool v := match v with JBool b => Some b | _ => None end;
  as_u64 v := match v with
              | JNum z => if (0 <=? z) && (z <=? u64_max) then Some z else None
              | _ => None end;
  as_i64 v := match v with
              | JNum z => if (- 2 ^ 63 <=? z) && (z <? 2 ^ 63) then Some z else None
              | _ => None end;
  as_array v := match v with JArr l => Some l | _ => None end;
  vnull := JNull
}.

(** Induction over values. *)
Lemma json_ind_strong (P : json -> Prop) :
  P JNull -> (forall b, P (JBool b)) -> (forall z, P (JNum z)) -> (forall x, P (JFloat x)) ->
  (forall s, P (JStr s)) -> (forall l, Forall P l -> P (JArr l)) ->
  (forall kvs, Forall (fun kv => P (snd kv)) kvs -> P (JObj kvs)) -> forall v, P v.
Proof.
  intros Hn Hb Hz Hf Hs Ha Ho. fix IH 1. intros [| | | | |l|kvs];
    [exact Hn|apply Hb|apply Hz|apply Hf|apply Hs| |].
  - apply Ha. induction l as [|v l IHl]; constructor; [apply IH|exact IHl].
  - apply Ho. induction kvs as [|[k v] l IHl]; constructor; [apply IH|exact IHl].
Qed.

End JsonTree.
