(* ===== verification/Text.v ===== *)
(** * Text: what the sources use of Rust's strings, paths and [format!]

    Positional formatting of unsigned integers ([{}] and [{:x}]) with its
    inverse, UTF-8 encoding of scalar values, [String::from_utf8_lossy],
    [str::trim], and the component view of [std::path::Path] on which
    [starts_with], [join], [strip_prefix] and [file_name] are defined. *)
From Stdlib Require Import Ascii.
From S2P Require Import Prelude.

Module Text.

(** ** Positional notation *)

Fixpoint digits_fuel (fuel : nat) (b n : Z) (acc : list Z) : list Z :=
  match fuel with
  | O => acc
  | S fuel =>
      let acc := (n mod b) :: acc in
      if n / b =? 0 then acc else digits_fuel fuel b (n / b) acc
  end.
Definition digits (b n : Z) : list Z := digits_fuel (S (Z.to_nat (Z.log2 n))) b n [].
Definition undigits (b : Z) (ds : list Z) : Z := foldl (fun a d => a * b + d) 0 ds.

Definition digit_byte (d : Z) : byte := byte_of_Z (if d <? 10 then 48 + d else 87 + d).
Definition byte_digit (c : byte) : Z :=
  let v := byte_val c in if v <? 58 then v - 48 else v - 87.

Definition fmt_radix (b n : Z) : list byte := map digit_byte (digits b n).
Definition fmt_dec : Z -> list byte := fmt_radix 10.
Definition fmt_hex : Z -> list byte := fmt_radix 16.

Lemma digits_fuel_undigits b : 2 <= b ->
  forall fuel n acc, 0 <= n < b ^ Z.of_nat fuel -> fuel <> O ->
  undigits b (digits_fuel fuel b n acc) = foldl (fun a d => a * b + d) n acc.
Proof.
  intros Hb. induction fuel as [|fuel IH]; intros n acc Hn Hf; [done|].
  cbn [digits_fuel]. pose proof (Z.div_mod n b ltac:(lia)).
  destruct (Z.eqb_spec (n / b) 0) as [Hz|Hz].
  - unfold undigits. simpl. f_equal. lia.
  - assert (0 <= n / b) by (apply Z.div_pos; lia).
    assert (n / b < b ^ Z.of_nat fuel).
    { apply Z.div_lt_upper_bound; [lia|].
      rewrite Nat2Z.inj_succ, Z.pow_succ_r in Hn by lia. lia. }
    destruct fuel as [|fuel]; [simpl in *; lia|].
    rewrite IH by done. simpl. f_equal. lia.
Qed.

Lemma digits_undigits b n : 2 <= b -> 0 <= n -> undigits b (digits b n) = n.
Proof.
  intros Hb Hn. unfold digits. rewrite digits_fuel_undigits; [done|done| |done].
  split; [done|]. rewrite Nat2Z.inj_succ, Z2Nat.id by apply Z.log2_nonneg.
  destruct (decide (n = 0)) as [->|].
  - apply Z.pow_pos_nonneg; simpl; lia.
  - pose proof (Z.log2_spec n ltac:(lia)) as [_ Hlt].
    eapply Z.lt_le_trans; [exact Hlt|]. apply Z.pow_le_mono_l. lia.
Qed.

Lemma digits_fuel_range b : 2 <= b -> forall fuel n acc,
  0 <= n -> Forall (fun d => 0 <= d < b) acc ->
  Forall (fun d => 0 <= d < b) (digits_fuel fuel b n acc).
Proof.
  intros Hb. induction fuel as [|fuel IH]; intros n acc Hn Ha; simpl; [done|].
  pose proof (Z.mod_pos_bound n b ltac:(lia)).
  destruct (Z.eqb_spec (n / b) 0); [by constructor|].
  apply IH; [apply Z.div_pos; lia | by constructor].
Qed.

Lemma digits_range b n : 2 <= b -> 0 <= n -> Forall (fun d => 0 <= d < b) (digits b n).
Proof. intros. apply digits_fuel_range; [done|done|constructor]. Qed.

Lemma byte_digit_byte d : 0 <= d < 36 -> byte_digit (digit_byte d) = d.
Proof.
  intros. unfold byte_digit, digit_byte. rewrite byte_val_of_Z.
  destruct (Z.ltb_spec d 10); rewrite Z.mod_small by lia; case_match; lia.
Qed.

Lemma fmt_radix_digits b n : 2 <= b <= 36 -> 0 <= n -> map byte_digit (fmt_radix b n) = digits b n.
Proof.
  intros Hb Hn. unfold fmt_radix. pose proof (digits_range b n ltac:(lia) Hn) as Hr.
  induction Hr as [|d ds Hd _ IH]; simpl; [done|]. rewrite byte_digit_byte by lia. by f_equal.
Qed.

Lemma fmt_radix_roundtrip b n :
  2 <= b <= 36 -> 0 <= n -> undigits b (map byte_digit (fmt_radix b n)) = n.
Proof. intros. rewrite fmt_radix_digits by done. apply digits_undigits; lia. Qed.

Lemma fmt_radix_inj b m n : 2 <= b <= 36 -> 0 <= m -> 0 <= n ->
  fmt_radix b m = fmt_radix b n -> m = n.
Proof.
  intros Hb Hm Hn E. rewrite <- (fmt_radix_roundtrip b m), <- (fmt_radix_roundtrip b n) by done.
  by rewrite E.
Qed.

(** Reading back a decimal number up to the first non-digit. *)
Definition is_dec (c : byte) : bool := (48 <=? byte_val c) && (byte_val c <? 58).
Fixpoint span {A} (p : A -> bool) (l : list A) : list A * list A :=
  match l with
  | [] => ([], [])
  | x :: l => if p x then let '(a, b) := span p l in (x :: a, b) else ([], x :: l)
  end.
Definition read_dec (l : list byte) : Z * list byte :=
  let '(ds, rest) := span is_dec l in (undigits 10 (map byte_digit ds), rest).

Lemma span_app {A} (p : A -> bool) l k :
  Forall (fun x => p x = true) l -> match k with x :: _ => p x = false | [] => True end ->
  span p (l ++ k) = (l, k).
Proof.
  intros Hl Hk. induction Hl as [|x l Hx _ IH]; simpl.
  - destruct k; simpl; [done|]. by rewrite Hk.
  - by rewrite Hx, IH.
Qed.

Lemma fmt_dec_is_dec n : 0 <= n -> Forall (fun c => is_dec c = true) (fmt_dec n).
Proof.
  intros Hn. unfold fmt_dec, fmt_radix. apply Forall_map.
  eapply Forall_impl; [apply digits_range; lia|].
  intros d Hd. simpl in *. unfold is_dec, digit_byte. rewrite byte_val_of_Z.
  destruct (Z.ltb_spec d 10); [|lia]. rewrite Z.mod_small by lia. lia.
Qed.

Lemma read_dec_fmt n rest : 0 <= n ->
  match rest with c :: _ => is_dec c = false | [] => True end ->
  read_dec (fmt_dec n ++ rest) = (n, rest).
Proof.
  intros Hn Hr. unfold read_dec. rewrite span_app by (done || by apply fmt_dec_is_dec).
  unfold fmt_dec. by rewrite fmt_radix_roundtrip by lia.
Qed.

(** [{n:0w}]: decimal, padded with zeros. *)
Definition pad (w : nat) (n : Z) : list byte :=
  let d := fmt_dec n in replicate (w - length d) Byte.x30 ++ d.

Lemma digits_nonempty n : fmt_dec n <> [].
Proof.
  assert (forall fuel m acc, acc <> [] -> digits_fuel fuel 10 m acc <> []) as G.
  { induction fuel as [|fuel IH]; intros m acc H; simpl; [done|]. case_match; [done|]. now apply IH. }
  unfold fmt_dec, fmt_radix, digits. cbn [digits_fuel].
  intros E%map_eq_nil. revert E. case_match; [discriminate|]. now apply G.
Qed.
Lemma undigits_zeros k ds : undigits 10 (replicate k 0 ++ ds) = undigits 10 ds.
Proof. unfold undigits. induction k as [|k IH]; [done|]. exact IH. Qed.
Lemma pad_value w n : 0 <= n -> undigits 10 (map byte_digit (pad w n)) = n.
Proof.
  intros Hn. unfold pad. rewrite map_app, (fmap_replicate byte_digit). change (byte_digit Byte.x30) with 0.
  rewrite undigits_zeros. apply fmt_radix_roundtrip; lia.
Qed.
Lemma pad_dec w n : 0 <= n -> Forall (fun c => is_dec c = true) (pad w n).
Proof. intros Hn. apply Forall_app. split; [now apply Forall_replicate|now apply fmt_dec_is_dec]. Qed.
Lemma pad_nonempty w n : 0 <= n -> pad w n <> [].
Proof. intros Hn [_ E]%app_eq_nil. now apply digits_nonempty in E. Qed.
Lemma pad_inj w m n : 0 <= m -> 0 <= n -> pad w m = pad w n -> m = n.
Proof. intros Hm Hn E. rewrite <- (pad_value w m), E by done. now apply pad_value. Qed.

(** *** [str::parse] of integers *)

Definition parse_digits (l : list byte) : option Z :=
  match l with
  | [] => None
  | _ => if forallb is_dec l then Some (undigits 10 (map byte_digit l)) else None
  end.
Definition guard_max (m : Z) (o : option Z) : option Z :=
  match o with Some n => if n <=? m then Some n else None | None => None end.
Definition parse_i64 (l : list byte) : option Z :=
  match l with
  | Byte.x2d :: l => option_map Z.opp (guard_max (2 ^ 63) (parse_digits l))
  | Byte.x2b :: l => guard_max (2 ^ 63 - 1) (parse_digits l)
  | l => guard_max (2 ^ 63 - 1) (parse_digits l)
  end.
Definition parse_unsigned (m : Z) (l : list byte) : option Z :=
  match l with Byte.x2b :: l => guard_max m (parse_digits l) | l => guard_max m (parse_digits l) end.

Lemma parse_digits_pad w n : 0 <= n -> parse_digits (pad w n) = Some n.
Proof.
  intros Hn. pose proof (pad_value w n Hn) as V. pose proof (pad_dec w n Hn) as D.
  pose proof (pad_nonempty w n Hn) as N. unfold parse_digits. destruct (pad w n) as [|c l]; [done|].
  assert (forallb is_dec (c :: l) = true) as ->; [|now rewrite V].
  apply forallb_forall. rewrite Forall_forall in D. intros x Hx. apply D. now apply list_elem_of_In.
Qed.
Lemma pad_head w n : 0 <= n -> exists c l, pad w n = c :: l /\ is_dec c = true.
Proof.
  intros Hn. pose proof (pad_dec w n Hn) as D. pose proof (pad_nonempty w n Hn) as N.
  destruct (pad w n) as [|c l]; [done|]. apply Forall_cons in D as [D _]. eauto.
Qed.
Lemma parse_i64_pad w n : 0 <= n < 2 ^ 63 -> parse_i64 (pad w n) = Some n.
Proof.
  intros Hn. destruct (pad_head w n ltac:(lia)) as (c & l & E & D).
  assert (parse_i64 (pad w n) = guard_max (2 ^ 63 - 1) (parse_digits (pad w n))) as ->
    by (rewrite E; destruct c; try discriminate D; reflexivity).
  rewrite parse_digits_pad by lia. cbn [guard_max]. destruct (Z.leb_spec n (2 ^ 63 - 1)); [done|lia].
Qed.
Lemma parse_unsigned_pad m w n : 0 <= n <= m -> parse_unsigned m (pad w n) = Some n.
Proof.
  intros Hn. destruct (pad_head w n ltac:(lia)) as (c & l & E & D).
  assert (parse_unsigned m (pad w n) = guard_max m (parse_digits (pad w n))) as ->
    by (rewrite E; destruct c; try discriminate D; reflexivity).
  rewrite parse_digits_pad by lia. cbn [guard_max]. destruct (Z.leb_spec n m); [done|lia].
Qed.

Lemma digits_fuel_length b : 2 <= b -> forall fuel n acc k, 0 <= n < b ^ Z.of_nat (S k) ->
  (length (digits_fuel fuel b n acc) <= length acc + S k)%nat.
Proof.
  intros Hb. induction fuel as [|fuel IH]; intros n acc k Hn; cbn [digits_fuel]; [lia|].
  destruct (Z.eqb_spec (n / b) 0) as [Hz|Hz]; [cbn; lia|].
  assert (0 <= n / b) as H0 by (apply Z.div_pos; lia).
  destruct k as [|k]; [exfalso; apply Hz, Z.div_small; rewrite Z.pow_1_r in Hn; lia|].
  specialize (IH (n / b) ((n mod b) :: acc) k). cbn [length] in IH.
  assert (0 <= n / b < b ^ Z.of_nat (S k)) as H1; [|specialize (IH H1); lia].
  split; [lia|]. apply Z.div_lt_upper_bound; [lia|].
  rewrite (Nat2Z.inj_succ (S k)), Z.pow_succ_r in Hn by lia. lia.
Qed.

(** A number that fits is padded to the width exactly. *)
Lemma pad_length k n : 0 <= n < 10 ^ Z.of_nat (S k) -> length (pad (S k) n) = S k.
Proof.
  intros H. unfold pad, fmt_dec, fmt_radix. rewrite length_app, length_replicate, length_map.
  pose proof (digits_fuel_length 10 ltac:(lia) (S (Z.to_nat (Z.log2 n))) n [] k H) as L. unfold digits.
  cbn [length] in L. lia.
Qed.

(** ** Strings as bytes *)

Lemma list_byte_append a b :
  String.list_byte_of_string (a +:+ b) = String.list_byte_of_string a ++ String.list_byte_of_string b.
Proof.
  induction a as [|c a IH]; [done|].
  change (Ascii.byte_of_ascii c :: String.list_byte_of_string (a +:+ b) =
          Ascii.byte_of_ascii c :: (String.list_byte_of_string a ++ String.list_byte_of_string b)).
  now rewrite IH.
Qed.

(** ** UTF-8 *)

(** The scalar values [char::from_u32] accepts. *)
Definition is_scalar (c : Z) : bool :=
  ((0 <=? c) && (c <? 0xD800)) || ((0xE000 <=? c) && (c <=? 0x10FFFF)).
Definition char_from_u32 (c : Z) : option Z := if is_scalar c then Some c else None.

Definition cont (z : Z) : byte := byte_of_Z (0x80 + z mod 64).
Definition encode_utf8 (c : Z) : list byte :=
  if c <? 0x80 then [byte_of_Z c]
  else if c <? 0x800 then [byte_of_Z (0xC0 + c / 64); cont c]
  else if c <? 0x10000 then [byte_of_Z (0xE0 + c / 4096); cont (c / 64); cont c]
  else [byte_of_Z (0xF0 + c / 262144); cont (c / 4096); cont (c / 64); cont c].

Definition between (a b v : Z) : bool := (a <=? v) && (v <=? b).
Definition is_cont (v : Z) : bool := between 0x80 0xBF v.

(** One step of the standard library's UTF-8 chunking: the scalar value and
    its width, or [None] and the number of bytes one replacement stands for. *)
Definition utf8_next (l : list Z) : option Z * nat :=
  let at_ := fun i => default 0 (l !! i) in
  let b0 := at_ 0%nat in let b1 := at_ 1%nat in let b2 := at_ 2%nat in let b3 := at_ 3%nat in
  if b0 <? 0x80 then (Some b0, 1%nat)
  else if between 0xC2 0xDF b0 then
    if is_cont b1 then (Some ((b0 - 0xC0) * 64 + (b1 - 0x80)), 2%nat) else (None, 1%nat)
  else if between 0xE0 0xEF b0 then
    if (if b0 =? 0xE0 then between 0xA0 0xBF b1
        else if b0 =? 0xED then between 0x80 0x9F b1 else is_cont b1) then
      if is_cont b2
      then (Some ((b0 - 0xE0) * 4096 + (b1 - 0x80) * 64 + (b2 - 0x80)), 3%nat)
      else (None, 2%nat)
    else (None, 1%nat)
  else if between 0xF0 0xF4 b0 then
    if (if b0 =? 0xF0 then between 0x90 0xBF b1
        else if b0 =? 0xF4 then between 0x80 0x8F b1 else is_cont b1) then
      if is_cont b2 then
        if is_cont b3
        then (Some ((b0 - 0xF0) * 262144 + (b1 - 0x80) * 4096 + (b2 - 0x80) * 64 + (b3 - 0x80)), 4%nat)
        else (None, 3%nat)
      else (None, 2%nat)
    else (None, 1%nat)
  else (None, 1%nat).

Fixpoint chars_fuel (fuel : nat) (l : list Z) : list Z :=
  match fuel, l with
  | S fuel, _ :: _ =>
      let '(c, k) := utf8_next l in default 0xFFFD c :: chars_fuel fuel (drop k l)
  | _, _ => []
  end.
(** The characters of [String::from_utf8_lossy]; the characters of a string
    when the bytes are valid UTF-8. *)
Definition lossy_chars (l : list byte) : list Z := chars_fuel (length l) (map byte_val l).
Definition utf8_bytes (cs : list Z) : list byte := cs ≫= encode_utf8.
Definition from_utf8_lossy (l : list byte) : list byte := utf8_bytes (lossy_chars l).
Definition str_chars (s : string) : list Z := lossy_chars (String.list_byte_of_string s).

Lemma cont_val z : byte_val (cont z) = 0x80 + z mod 64.
Proof.
  unfold cont. rewrite byte_val_of_Z. apply Z.mod_small.
  pose proof (Z.mod_pos_bound z 64). lia.
Qed.

Lemma byte_val_small z : 0 <= z < 256 -> byte_val (byte_of_Z z) = z.
Proof. intros. rewrite byte_val_of_Z. by apply Z.mod_small. Qed.

Ltac euclid := Z.to_euclidean_division_equations; lia.
Ltac branch := first
  [ progress (repeat match goal with |- context [if ?c then _ else _] =>
      first [ replace c with true by (symmetry; unfold is_cont, between; euclid)
            | replace c with false by (symmetry; unfold is_cont, between; euclid) ]; cbv iota end) ].

Lemma utf8_next_encode c rest : is_scalar c = true ->
  utf8_next (map byte_val (encode_utf8 c) ++ rest) = (Some c, length (encode_utf8 c)).
Proof.
  unfold is_scalar. intros Hc. unfold encode_utf8.
  destruct (Z.ltb_spec c 0x80); [|destruct (Z.ltb_spec c 0x800); [|destruct (Z.ltb_spec c 0x10000)]];
    cbn [map app length]; rewrite ?cont_val, byte_val_small by euclid;
    unfold utf8_next; cbn [lookup list_lookup default from_option id].
  - branch. done.
  - branch. repeat f_equal. euclid.
  - branch.
    destruct (Z.eqb_spec (0xE0 + c / 4096) 0xE0); [|destruct (Z.eqb_spec (0xE0 + c / 4096) 0xED)];
      branch; repeat f_equal; euclid.
  - branch.
    destruct (Z.eqb_spec (0xF0 + c / 262144) 0xF0); [|destruct (Z.eqb_spec (0xF0 + c / 262144) 0xF4)];
      branch; repeat f_equal; euclid.
Qed.

Lemma encode_utf8_nonempty c : (0 < length (encode_utf8 c))%nat.
Proof. unfold encode_utf8. repeat case_match; simpl; lia. Qed.

Lemma chars_fuel_bytes cs : Forall (fun c => is_scalar c = true) cs ->
  forall fuel, (length (utf8_bytes cs) <= fuel)%nat ->
  chars_fuel fuel (map byte_val (utf8_bytes cs)) = cs.
Proof.
  induction 1 as [|c cs Hc _ IH]; intros fuel Hf; [by destruct fuel|].
  unfold utf8_bytes in *. cbn [mbind list_bind] in *.
  pose proof (encode_utf8_nonempty c). rewrite length_app in Hf.
  destruct fuel as [|fuel]; [lia|]. rewrite map_app.
  pose proof (utf8_next_encode c (map byte_val (cs ≫= encode_utf8)) Hc) as Hn.
  assert (Hne : exists x xs, map byte_val (encode_utf8 c) ++ map byte_val (cs ≫= encode_utf8) = x :: xs).
  { destruct (encode_utf8 c); simpl in *; [lia|]. eauto. }
  destruct Hne as (x & xs & Hx). cbn [chars_fuel]. rewrite Hx in *. rewrite Hn. simpl. f_equal.
  rewrite <- Hx, drop_app_length'; [|by rewrite length_map]. apply IH. lia.
Qed.

(** Valid UTF-8 survives the lossy conversion. *)
Lemma lossy_chars_bytes cs :
  Forall (fun c => is_scalar c = true) cs -> lossy_chars (utf8_bytes cs) = cs.
Proof. intros H. by apply chars_fuel_bytes. Qed.

(** ** Whitespace and case *)

Definition is_whitespace (c : Z) : bool :=
  between 9 13 c || (c =? 0x20) || (c =? 0x85) || (c =? 0xA0) || (c =? 0x1680)
  || between 0x2000 0x200A c || (c =? 0x2028) || (c =? 0x2029) || (c =? 0x202F)
  || (c =? 0x205F) || (c =? 0x3000).
Fixpoint trim_start (l : list Z) : list Z :=
  match l with c :: l' => if is_whitespace c then trim_start l' else l | [] => [] end.
Definition trim (l : list Z) : list Z := reverse (trim_start (reverse (trim_start l))).
Definition to_ascii_uppercase (c : Z) : Z := if between 97 122 c then c - 32 else c.

(** ** Paths *)

Inductive component : Type := RootDir | CurDir | ParentDir | Normal (name : string).
#[export] Instance component_eq_dec : EqDecision component.
Proof. solve_decision. Defined.

Abbreviation Path := (list component).

Fixpoint split_slash (s : string) : list string :=
  match s with
  | EmptyString => [EmptyString]
  | String c s =>
      match split_slash s with
      | seg :: segs =>
          if decide (c = "/"%char) then EmptyString :: seg :: segs else String c seg :: segs
      | [] => [String c EmptyString]
      end
  end.
Definition seg_component (seg : string) : list component :=
  if decide (seg = "") then [] else if decide (seg = ".") then []
  else if decide (seg = "..") then [ParentDir] else [Normal seg].
(** [Path::components]: empty segments and [.] vanish, except a leading [.]. *)
Definition path_of_string (s : string) : Path :=
  match split_slash s with
  | "" :: (_ :: _) as segs => RootDir :: (segs ≫= seg_component)
  | "." :: segs => CurDir :: (segs ≫= seg_component)
  | segs => segs ≫= seg_component
  end.

Definition is_absolute (p : Path) : bool := bool_decide (head p = Some RootDir).
Definition join (a b : Path) : Path :=
  if is_absolute b then b
  else match a with [] => b | _ => a ++ filter (fun c => c <> CurDir) b end.
Definition starts_with (p pre : Path) : bool := bool_decide (pre `prefix_of` p).
Definition strip_prefix (p pre : Path) : option Path :=
  if starts_with p pre then Some (drop (length pre) p) else None.
Definition file_name (p : Path) : option string :=
  match last p with Some (Normal n) => Some n | _ => None end.

(** Components as [Path] yields them: a root or a current directory only first. *)
Definition path_wf (p : Path) : Prop :=
  Forall (fun c => c <> RootDir /\ c <> CurDir) (tail p).

Lemma starts_with_spec p pre : starts_with p pre = true <-> exists q, p = pre ++ q.
Proof. unfold starts_with. rewrite bool_decide_eq_true. done. Qed.

Lemma strip_prefix_Some p pre q : strip_prefix p pre = Some q <-> p = pre ++ q.
Proof.
  unfold strip_prefix. destruct (starts_with p pre) eqn:E.
  - apply starts_with_spec in E as [r ->]. rewrite drop_app_length. naive_solver.
  - split; [done|]. intros ->. assert (starts_with (pre ++ q) pre = true) as E'
      by (apply starts_with_spec; eauto). congruence.
Qed.

Lemma path_wf_suffix pre q : pre <> [] -> path_wf (pre ++ q) ->
  Forall (fun c => c <> RootDir /\ c <> CurDir) q.
Proof.
  destruct pre as [|c pre]; [done|]. intros _. unfold path_wf. simpl.
  intros H%Forall_app. tauto.
Qed.

Lemma filter_no_curdir q : Forall (fun c => c <> RootDir /\ c <> CurDir) q ->
  filter (fun c => c <> CurDir) q = q.
Proof.
  induction 1 as [|c q [_ Hc] _ IH]; [done|]. rewrite filter_cons_True by done. by f_equal.
Qed.

Lemma join_plain a q : a <> [] -> Forall (fun c => c <> RootDir /\ c <> CurDir) q ->
  join a q = a ++ q.
Proof.
  intros Ha Hq. unfold join, is_absolute. rewrite bool_decide_eq_false_2.
  - destruct a; [done|]. by rewrite filter_no_curdir.
  - destruct Hq as [|c q [Hc _] _]; simpl; congruence.
Qed.

Lemma seg_component_plain segs :
  Forall (fun c => c <> RootDir /\ c <> CurDir) (segs ≫= seg_component).
Proof.
  induction segs as [|seg segs IH]; cbn; [constructor|]. apply Forall_app; split; [|done].
  unfold seg_component. repeat case_decide; repeat constructor; done.
Qed.

Lemma path_of_string_wf s : path_wf (path_of_string s).
Proof.
  assert (Hp : forall segs, path_wf (segs ≫= seg_component)).
  { intros segs. pose proof (seg_component_plain segs) as H. unfold path_wf.
    by destruct H; simpl. }
  assert (Hc : forall c segs, path_wf (c :: (segs ≫= seg_component))).
  { intros c segs. unfold path_wf. apply seg_component_plain. }
  unfold path_of_string. repeat (case_match; auto); apply (Hc _ []) || apply Hc || apply Hp.
Qed.

(** ** Paths as text *)

Fixpoint join_strings (sep : string) (l : list string) : string :=
  match l with
  | [] => ""
  | [x] => x
  | x :: l => x +:+ sep +:+ join_strings sep l
  end.
Definition component_str (c : component) : string :=
  match c with RootDir => "" | CurDir => "." | ParentDir => ".." | Normal n => n end.
Definition path_to_string (p : Path) : string :=
  match p with
  | [RootDir] => "/"
  | _ => join_strings "/" (map component_str p)
  end.

End Text.

(** ** The operating system, as far as the sources ask it *)

Class Os := {
  home_dir : option Text.Path;
  current_dir : result Text.Path string;
  env_var : string -> option string;
  path_exists : Text.Path -> bool;
  path_is_dir : Text.Path -> bool;
  path_is_file : Text.Path -> bool;
  canonicalize : Text.Path -> result Text.Path string;
  create_dir_all : Text.Path -> result unit string
}.

Module OsExamples.
Import Text.
(** A file system in which every path exists and is canonical. *)
#[export] Instance demo_os : Os := {|
  home_dir := Some (path_of_string "/home/u");
  current_dir := Ok (path_of_string "/work");
  env_var _ := None;
  path_exists _ := true;
  path_is_dir _ := true;
  path_is_file _ := true;
  canonicalize p := Ok p;
  create_dir_all _ := Ok tt
|}.
End OsExamples.
