(* ===== verification/F64.v ===== *)
(** * F64: [f64] values

    [f64] is IEEE binary64, here the executable [spec_float] of the Standard
    Library at precision 53; with the casts and comparisons the sources use,
    and [Value::as_f64] as a class beside [JsonView]. *)
From S2P Require Import Prelude Json.
From Stdlib Require Import SpecFloat.

Abbreviation f64 := spec_float.
Definition f64_zero : f64 := S754_zero false.
(** [z as f64] *)
Definition f64_of_Z (z : Z) : f64 := binary_normalize 53 1024 z 0 false.
Definition f64_add : f64 -> f64 -> f64 := SFadd 53 1024.
Definition f64_sub : f64 -> f64 -> f64 := SFsub 53 1024.
Definition f64_mul : f64 -> f64 -> f64 := SFmul 53 1024.
Definition f64_div : f64 -> f64 -> f64 := SFdiv 53 1024.
Definition f64_half (x : f64) : f64 := f64_div x (f64_of_Z 2).
Definition f64_le : f64 -> f64 -> bool := SFleb.
Definition f64_lt : f64 -> f64 -> bool := SFltb.
Definition f64_is_nan (x : f64) : bool := match x with S754_nan => true | _ => false end.
(** [f64::max] *)
Definition f64_max (x y : f64) : f64 :=
  if f64_is_nan x then y else if f64_is_nan y then x else if f64_lt x y then y else x.
(** [x as i64]: towards zero, saturating, NaN to zero. *)
Definition i64_min : Z := - 2 ^ 63.
Definition i64_max : Z := 2 ^ 63 - 1.
Definition f64_to_i64 (x : f64) : Z :=
  match x with
  | S754_zero _ | S754_nan => 0
  | S754_infinity s => if s then i64_min else i64_max
  | S754_finite s m e =>
      let v := if 0 <=? e then Z.pos m * 2 ^ e else Z.pos m / 2 ^ (- e) in
      Z.max i64_min (Z.min i64_max (if s then - v else v))
  end.

(** [Value::as_f64] *)
Class JsonF64 (V : Type) := as_f64 : V -> option f64.
#[export] Instance json_tree_f64 : JsonF64 JsonTree.json :=
  fun v => match v with
           | JsonTree.JNum z => Some (f64_of_Z z)
           | JsonTree.JFloat x => Some x
           | _ => None
           end.
