(* ===== verification/Fs.v ===== *)
(** * Fs: a file system with faults

    The file-system calls of the components that work on files, as operations
    of a state and error monad.  A path is its list of names from the root.  A
    world is the files and a script of faults: a call whose script entry is
    [true] fails without effect; [exists], [is_dir] and the size query do not
    consult the script (their errors read as absence in the sources, and only
    absence is modelled). *)
From S2P Require Import Prelude.

Module Fs.

Abbreviation path := (list string).
Inductive node : Type := FileN (content : list byte) | DirN.
Abbreviation FS := (@gmap (list string) (@list_eq_dec string String.eq_dec)
  (@list_countable string String.eq_dec String.countable) node).

Record World := mkWorld { fs : FS; faults : list bool }.

Definition M (A : Type) : Type := World -> result A string * World.
Definition ret {A} (a : A) : M A := fun w => (Ok a, w).
Definition fail {A} (e : string) : M A := fun w => (Err e, w).
Definition bind {A B} (c : M A) (k : A -> M B) : M B :=
  fun w => match c w with (Ok a, w) => k a w | (Err e, w) => (Err e, w) end.
(** [let _ = c]: the error is ignored. *)
Definition ignore {A} (c : M A) : M unit := fun w => (Ok tt, snd (c w)).
Definition gets {A} (f : FS -> A) : M A := fun w => (Ok (f (fs w)), w).

(** One call: it fails if the script says so, else it does [f]. *)
Definition op {A} (f : FS -> result A string * FS) : M A :=
  fun w =>
    match faults w with
    | true :: fl => (Err "io error", mkWorld (fs w) fl)
    | _ => let '(r, m) := f (fs w) in (r, mkWorld m (tail (faults w)))
    end.

Declare Scope fs_scope.
Delimit Scope fs_scope with fs.
Notation "x <- c ;; k" := (bind c (fun x => k))
  (at level 100, c at next level, right associativity) : fs_scope.
Notation "c ;;; k" := (bind c (fun _ => k))
  (at level 100, right associativity) : fs_scope.

(** ** Queries *)

Definition exists_ (m : FS) (p : path) : bool := bool_decide (is_Some (m !! p)).
Definition is_dir (m : FS) (p : path) : bool :=
  match m !! p with Some DirN => true | _ => false end.
(** [metadata(p)?.len()] of a file. *)
Definition file_len (m : FS) (p : path) : option Z :=
  match m !! p with Some (FileN b) => Some (zlen b) | _ => None end.
(** What a file holds; nothing when it is absent. *)
Definition contents (m : FS) (p : path) : list byte :=
  match m !! p with Some (FileN b) => b | _ => [] end.

Definition parent (p : path) : path := removelast p.
Definition join (p : path) (name : string) : path := p ++ [name].
(** [Path::with_file_name] of a path with a file name. *)
Definition with_file_name (p : path) (name : string) : path := parent p ++ [name].

(** ** Calls *)

Definition parent_ok (m : FS) (p : path) : bool :=
  bool_decide (parent p = []) || is_dir m (parent p).

Definition read (p : path) : M (list byte) :=
  op (fun m => match m !! p with Some (FileN b) => (Ok b, m) | _ => (Err "cannot read", m) end).
(** [File::create] then writing [b], and [fs::write]. *)
Definition write (p : path) (b : list byte) : M unit :=
  op (fun m => if is_dir m p || negb (parent_ok m p) then (Err "cannot create", m)
               else (Ok tt, <[p := FileN b]> m)).
(** Opening for append with [create(true)]. *)
Definition open_append (p : path) : M unit :=
  op (fun m => if is_dir m p || negb (parent_ok m p) then (Err "cannot open", m)
               else (Ok tt, <[p := FileN (contents m p)]> m)).
Definition append (p : path) (b : list byte) : M unit :=
  op (fun m => (Ok tt, <[p := FileN (contents m p ++ b)]> m)).
(** [flush], [sync_all] and the like. *)
Definition sync : M unit := op (fun m => (Ok tt, m)).
Definition remove_file (p : path) : M unit :=
  op (fun m => match m !! p with
               | Some (FileN _) => (Ok tt, delete p m)
               | _ => (Err "cannot remove", m)
               end).
Definition remove_dir_all (p : path) : M unit :=
  op (fun m => (Ok tt, base.filter (fun '(q, _) => ~ (p `prefix_of` q)) m)).
Definition rename (p q : path) : M unit :=
  op (fun m => match m !! p with
               | Some (FileN b) =>
                   if is_dir m q || negb (parent_ok m q) then (Err "cannot rename", m)
                   else (Ok tt, <[q := FileN b]> (delete p m))
               | _ => (Err "cannot rename", m)
               end).

(** The paths [create_dir_all] makes, outermost first. *)
Definition ancestors (p : path) : list path := map (fun n => take n p) (seq 1 (length p)).
Definition mkdir_one (m : FS) (p : path) : option FS :=
  match m !! p with
  | Some DirN => Some m
  | Some (FileN _) => None
  | None => Some (<[p := DirN]> m)
  end.
Fixpoint mkdirs (m : FS) (ps : list path) : option FS :=
  match ps with [] => Some m | p :: ps => mkdir_one m p ≫= fun m => mkdirs m ps end.
Definition create_dir_all (p : path) : M unit :=
  op (fun m => match mkdirs m (ancestors p) with Some m' => (Ok tt, m') | None => (Err "cannot create", m) end).

(** ** Reasoning about runs *)

Lemma op_ok {A : Type} (f : FS -> result A string * FS) w a w' : op f w = (Ok a, w') ->
  f (fs w) = (Ok a, fs w').
Proof.
  unfold op. destruct (faults w) as [|[] fl]; try discriminate; destruct (f (fs w)) as [r m];
    intros [= -> <-]; reflexivity.
Qed.

Lemma op_fs {A : Type} (f : FS -> result A string * FS) w r w' : op f w = (r, w') ->
  fs w' = fs w \/ fs w' = snd (f (fs w)).
Proof.
  unfold op. destruct (faults w) as [|[] fl]; [|intros [= <- <-]; now left|];
    destruct (f (fs w)) as [r' m]; intros [= <- <-]; now right.
Qed.

Lemma bind_ok {A B : Type} (c : M A) (k : A -> M B) w b w' : bind c k w = (Ok b, w') ->
  exists a w1, c w = (Ok a, w1) /\ k a w1 = (Ok b, w').
Proof. unfold bind. destruct (c w) as [[a|e] w1]; [eauto|discriminate]. Qed.

(** [c] keeps [P] true of the files, whatever it returns. *)
Definition preserves {A : Type} (P : FS -> Prop) (c : M A) : Prop := forall w, P (fs w) -> P (fs (snd (c w))).

Lemma preserves_ret {A : Type} (P : FS -> Prop) (a : A) : preserves P (ret a).
Proof. intros w H. exact H. Qed.
Lemma preserves_fail {A : Type} (P : FS -> Prop) e : preserves (A:=A) P (fail e).
Proof. intros w H. exact H. Qed.
Lemma preserves_gets {A : Type} (P : FS -> Prop) (f : FS -> A) : preserves P (gets f).
Proof. intros w H. exact H. Qed.
Lemma preserves_ignore {A : Type} (P : FS -> Prop) (c : M A) : preserves P c -> preserves P (ignore c).
Proof. intros H w. apply H. Qed.
Lemma preserves_bind {A B : Type} (P : FS -> Prop) (c : M A) (k : A -> M B) :
  preserves P c -> (forall a, preserves P (k a)) -> preserves P (bind c k).
Proof.
  intros Hc Hk w Hw. unfold bind. specialize (Hc w Hw). destruct (c w) as [[a|e] w1]; [|exact Hc].
  now apply Hk.
Qed.
Lemma preserves_op {A : Type} (P : FS -> Prop) (f : FS -> result A string * FS) :
  (forall m, P m -> P (snd (f m))) -> preserves P (op f).
Proof.
  intros H w Hw. destruct (op f w) as [r w'] eqn:E. destruct (op_fs f w r w' E) as [E'|E'];
    cbn [snd]; rewrite E'; auto.
Qed.


(** [keeps k v c]: [c] leaves [v] at the path [k]. *)
Definition keeps {A : Type} (k : path) (v : option node) (c : M A) : Prop :=
  preserves (fun m => m !! k = v) c.

Lemma keeps_ret {A : Type} (k : path) (v : option node) (a : A) : keeps k v (ret a).
Proof. apply preserves_ret. Qed.
Lemma keeps_fail {A : Type} (k : path) (v : option node) e : keeps (A:=A) k v (fail e).
Proof. apply preserves_fail. Qed.
Lemma keeps_gets {A : Type} (k : path) (v : option node) (f : FS -> A) : keeps k v (gets f).
Proof. apply preserves_gets. Qed.
Lemma keeps_ignore {A : Type} (k : path) (v : option node) (c : M A) : keeps k v c -> keeps k v (ignore c).
Proof. apply preserves_ignore. Qed.
Lemma keeps_bind {A B : Type} (k : path) (v : option node) (c : M A) (h : A -> M B) :
  keeps k v c -> (forall a, keeps k v (h a)) -> keeps k v (bind c h).
Proof. apply preserves_bind. Qed.

Lemma keeps_write k v p b : k <> p -> keeps k v (write p b).
Proof.
  intros N. apply preserves_op. intros m H. destruct (_ || _); [exact H|]. cbn [snd]. now rewrite lookup_insert_ne.
Qed.
Lemma keeps_open_append k v p : k <> p -> keeps k v (open_append p).
Proof.
  intros N. apply preserves_op. intros m H. destruct (_ || _); [exact H|]. cbn [snd]. now rewrite lookup_insert_ne.
Qed.
Lemma keeps_append k v p b : k <> p -> keeps k v (append p b).
Proof. intros N. apply preserves_op. intros m H. cbn [snd]. now rewrite lookup_insert_ne. Qed.
Lemma keeps_read k v p : keeps k v (read p).
Proof. apply preserves_op. intros m H. now destruct (m !! p) as [[]|]. Qed.
Lemma keeps_sync k v : keeps k v sync.
Proof. now apply preserves_op. Qed.
Lemma keeps_remove_file k v p : k <> p -> keeps k v (remove_file p).
Proof.
  intros N. apply preserves_op. intros m H. destruct (m !! p) as [[]|]; cbn [snd]; try done.
  now rewrite lookup_delete_ne.
Qed.
Lemma keeps_rename k v p q : k <> p -> k <> q -> keeps k v (rename p q).
Proof.
  intros N N'. apply preserves_op. intros m H. destruct (m !! p) as [[]|]; try done.
  destruct (_ || _); [done|]. cbn [snd]. now rewrite lookup_insert_ne, lookup_delete_ne.
Qed.

Lemma mkdirs_dirs ps : forall m m' q, mkdirs m ps = Some m' ->
  m' !! q = m !! q \/ (q ∈ ps /\ m' !! q = Some DirN).
Proof.
  induction ps as [|p ps IH]; intros m m' q; cbn; [intros [= <-]; auto|].
  unfold mkdir_one. destruct (m !! p) as [[]|] eqn:E; cbn; [discriminate| |]; intros H;
    destruct (IH _ _ q H) as [->|[Hin ->]]; try (right; split; [set_solver|done]); [auto|].
  destruct (decide (q = p)) as [->|N]; [rewrite lookup_insert_eq|rewrite lookup_insert_ne by done; auto].
  right. split; [set_solver|done].
Qed.

Lemma mkdirs_all ps : forall m m' q, mkdirs m ps = Some m' -> q ∈ ps -> m' !! q = Some DirN.
Proof.
  induction ps as [|p ps IH]; intros m m' q; cbn; [set_solver|].
  unfold mkdir_one. destruct (m !! p) as [[]|] eqn:E; cbn; [discriminate| |]; intros H Hq;
    apply elem_of_cons in Hq as [->|Hq]; try (now apply (IH _ _ _ H)).
  - destruct (mkdirs_dirs ps _ _ p H) as [->|[_ ->]]; done.
  - destruct (mkdirs_dirs ps _ _ p H) as [->|[_ ->]]; [apply lookup_insert_eq|done].
Qed.

Lemma keeps_create_dir_all k v p : k ∉ ancestors p \/ v = Some DirN -> keeps k v (create_dir_all p).
Proof.
  intros H. apply preserves_op. intros m Hm. destruct (mkdirs m (ancestors p)) as [m'|] eqn:E; [|done].
  cbn [snd]. destruct (mkdirs_dirs _ _ _ k E) as [?|[? ?]]; [congruence|]. destruct H; congruence.
Qed.

Create HintDb fs discriminated.
#[export] Hint Resolve keeps_ret keeps_fail keeps_gets keeps_ignore keeps_bind keeps_write keeps_open_append keeps_append keeps_read keeps_sync
  keeps_remove_file keeps_rename keeps_create_dir_all : fs.

Lemma ancestors_self p : p <> [] -> p ∈ ancestors p.
Proof.
  intros N. unfold ancestors. apply list_elem_of_In, in_map_iff. exists (length p).
  split; [apply firstn_all|]. apply in_seq. destruct p; [done|]. simpl. lia.
Qed.
Lemma ancestors_prefix p q : q ∈ ancestors p -> q `prefix_of` p.
Proof.
  unfold ancestors. intros (n & <- & _)%list_elem_of_In%in_map_iff. exists (drop n p). now rewrite take_drop.
Qed.

Lemma create_dir_all_ok p w w' : p <> [] -> create_dir_all p w = (Ok tt, w') ->
  fs w' !! p = Some DirN /\
  (forall q, fs w' !! q = fs w !! q \/ (q `prefix_of` p /\ fs w' !! q = Some DirN)).
Proof.
  intros N E. apply op_ok in E. destruct (mkdirs (fs w) (ancestors p)) as [m|] eqn:Em; [|discriminate].
  injection E as E. rewrite <- E. split; [eapply mkdirs_all; [exact Em|now apply ancestors_self]|].
  intros q. destruct (mkdirs_dirs _ _ _ q Em) as [?|[Hq ?]]; [auto|].
  right. split; [now apply ancestors_prefix|done].
Qed.

Lemma remove_dir_all_ok p w w' : remove_dir_all p w = (Ok tt, w') ->
  (forall q, p `prefix_of` q -> fs w' !! q = None) /\
  (forall q, ~ p `prefix_of` q -> fs w' !! q = fs w !! q).
Proof.
  intros E. apply op_ok in E. injection E as E. rewrite <- E. split; intros q Hq.
  - apply map_lookup_filter_None. right. intros x _ Hx. now apply Hx.
  - destruct (fs w !! q) as [x|] eqn:Ex.
    + now apply map_lookup_filter_Some.
    + apply map_lookup_filter_None. now left.
Qed.

(** ** Triples

    [triple b P c Q E]: from files that satisfy [P], [c] ends with [Q] of its
    value and the files, or with an error and [E] of the files; [b] says
    whether calls may fail by the script.  One proof serves both readings. *)
Definition triple {A : Type} (b : bool) (P : FS -> Prop) (c : M A) (Q : A -> FS -> Prop) (E : FS -> Prop) : Prop :=
  forall w, (b = false -> faults w = []) -> P (fs w) ->
  match c w with
  | (Ok a, w') => (b = false -> faults w' = []) /\ Q a (fs w')
  | (Err _, w') => (b = false -> faults w' = []) /\ E (fs w')
  end.

Lemma triple_ret {A : Type} (b : bool) (P : FS -> Prop) (a : A) (Q : A -> FS -> Prop) (E : FS -> Prop) :
  (forall m, P m -> Q a m) -> triple b P (ret a) Q E.
Proof. intros H w F Hw. split; auto. Qed.
Lemma triple_fail {A : Type} (b : bool) (P : FS -> Prop) e (Q : A -> FS -> Prop) (E : FS -> Prop) :
  (forall m, P m -> E m) -> triple b P (fail e) Q E.
Proof. intros H w F Hw. split; auto. Qed.
Lemma triple_gets {A : Type} (b : bool) (P : FS -> Prop) (f : FS -> A) (Q : A -> FS -> Prop) (E : FS -> Prop) :
  (forall m, P m -> Q (f m) m) -> triple b P (gets f) Q E.
Proof. intros H w F Hw. split; cbn; auto. Qed.
Lemma triple_bind {A B : Type} (b : bool) (P : FS -> Prop) (c : M A) (k : A -> M B) (R : A -> FS -> Prop)
    (Q : B -> FS -> Prop) (E : FS -> Prop) :
  triple b P c R E -> (forall a, triple b (R a) (k a) Q E) -> triple b P (bind c k) Q E.
Proof.
  intros Hc Hk w F Hw. unfold bind. specialize (Hc w F Hw). destruct (c w) as [[a|e] w1]; [|exact Hc].
  destruct Hc as [F1 H1]. exact (Hk a w1 F1 H1).
Qed.
Lemma triple_ignore {A : Type} (b : bool) (P : FS -> Prop) (c : M A) (Q : unit -> FS -> Prop) (E : FS -> Prop) :
  triple b P c (fun _ => Q tt) (Q tt) -> triple b P (ignore c) Q E.
Proof. intros Hc w F Hw. unfold ignore. specialize (Hc w F Hw). destruct (c w) as [[a|e] w1]; exact Hc. Qed.
Lemma triple_op {A : Type} (b : bool) (P : FS -> Prop) (f : FS -> result A string * FS) (Q : A -> FS -> Prop) (E : FS -> Prop) :
  (forall m, b = true -> P m -> E m) ->
  (forall m, P m -> match f m with (Ok a, m') => Q a m' | (Err _, m') => E m' end) ->
  triple b P (op f) Q E.
Proof.
  intros HE HQ w F Hw. unfold op. specialize (HQ (fs w) Hw). destruct (f (fs w)) as [r m].
  destruct (faults w) as [|[] fl] eqn:Ef.
  - destruct r; (split; [intros _; reflexivity|exact HQ]).
  - destruct b; [|now discriminate F]. split; [discriminate|]. cbn [fs]. now apply HE.
  - destruct b; [|now discriminate F]. destruct r; (split; [discriminate|exact HQ]).
Qed.
(** A fact of the precondition that does not speak of the files. *)
Lemma triple_pure {A : Type} (b : bool) (H : Prop) (P : FS -> Prop) (c : M A) (Q : A -> FS -> Prop) (E : FS -> Prop) :
  (forall m, P m -> H) -> (H -> triple b P c Q E) -> triple b P c Q E.
Proof. intros HP Hc w F Hw. exact (Hc (HP _ Hw) w F Hw). Qed.
Lemma triple_conseq {A : Type} (b : bool) (P P' : FS -> Prop) (c : M A) (Q Q' : A -> FS -> Prop) (E E' : FS -> Prop) :
  triple b P' c Q' E' -> (forall m, P m -> P' m) -> (forall a m, Q' a m -> Q a m) -> (forall m, E' m -> E m) ->
  triple b P c Q E.
Proof.
  intros H HP HQ HE w F Hw. specialize (H w F (HP _ Hw)). destruct (c w) as [[a|e] w1]; destruct H; split; auto.
Qed.

End Fs.
