(* ===== verification/Framing.v ===== *)
(** * cdp-client/src/framing.rs: NUL-delimited JSON framing

    The encoder and the streaming [Decoder] of the CDP pipe. [serde_json] is
    not part of the repository: its serializer and parser are the operations
    of the class [JsonCodec], and what the framing relies on (a serialized
    document is non-empty and holds no NUL byte) is the class [JsonCodecLaws]. *)
From S2P Require Import Prelude.
From S2P Require Import Json.

Module Framing.

Definition DEFAULT_MAX_FRAME_BYTES : Z := 100 * 1024 * 1024.

Section Framing.
Context {Value JsonError : Type} `{JsonCodec Value JsonError}.

Inductive FramingError : Type :=
| FrameTooLarge (limit : Z)
| Io (message : string)
| Json (e : JsonError)
| UnexpectedEof.

Definition encode_frame (v : Value) : result (list byte) FramingError :=
  match to_vec v with
  | Err e => Err (Json e)
  | Ok buf => Ok (buf ++ [Byte.x00])
  end.

(** Returns the scratch buffer as the call leaves it: on error the partial
    bytes stay in it. *)
Definition encode_frame_into (scratch : list byte) (v : Value)
    : list byte * result unit FramingError :=
  match to_writer v with
  | (b, Some e) => (scratch ++ b, Err (Json e))
  | (b, None) => (scratch ++ b ++ [Byte.x00], Ok tt)
  end.

Record Decoder := mkDecoder { buf : list byte; max : Z }.

Definition new (max_frame_bytes : Z) : Decoder := mkDecoder [] max_frame_bytes.
Definition default : Decoder := new DEFAULT_MAX_FRAME_BYTES.
Definition buffered (d : Decoder) : Z := zlen (buf d).

Definition has_nul (l : list byte) : bool := existsb (fun b => bool_decide (b = Byte.x00)) l.

(** [&buf[start..i]] *)
Definition slice (l : list byte) (start i : nat) : list byte := take (i - start) (drop start l).

(** The loop of [feed_into]: [rest] is what the iterator has still to visit,
    [i] the index of its head, [start] where the current frame begins. *)
Fixpoint scan (max : Z) (whole rest : list byte) (i start : nat) (out : list Value)
    : list Value * result nat FramingError :=
  match rest with
  | [] => (out, Ok start)
  | b :: rest' =>
      if bool_decide (b = Byte.x00) then
        if (start <? i)%nat then
          let frame := slice whole start i in
          if max <? zlen frame then (out, Err (FrameTooLarge max))
          else match from_slice frame with
               | Err e => (out, Err (Json e))
               | Ok v => scan max whole rest' (S i) (S i) (out ++ [v])
               end
        else scan max whole rest' (S i) (S i) out
      else scan max whole rest' (S i) start out
  end.

(** The decoder and the output vector as the call leaves them, and its
    result. Every error return leaves the buffer as it was at that point. *)
Definition feed_into (d : Decoder) (chunk : list byte) (out : list Value)
    : Decoder * list Value * result unit FramingError :=
  if (max d <? sat_add u64_max (zlen (buf d)) (zlen chunk))
     && negb (has_nul chunk) && negb (has_nul (buf d))
  then (d, out, Err (FrameTooLarge (max d)))
  else
    let whole := buf d ++ chunk in
    let d1 := mkDecoder whole (max d) in
    match scan (max d) whole whole 0 0 out with
    | (out', Err e) => (d1, out', Err e)
    | (out', Ok start) =>
        let rest := if (0 <? start)%nat then drop start whole else whole in
        let d2 := mkDecoder rest (max d) in
        if max d <? zlen rest then (d2, out', Err (FrameTooLarge (max d)))
        else (d2, out', Ok tt)
    end.

Definition feed (d : Decoder) (chunk : list byte) : Decoder * result (list Value) FramingError :=
  match feed_into d chunk [] with
  | (d', out, Ok _) => (d', Ok out)
  | (d', _, Err e) => (d', Err e)
  end.

Definition finish (d : Decoder) : result unit FramingError :=
  match buf d with [] => Ok tt | _ => Err UnexpectedEof end.

(** The reader actor feeds one chunk per read and stops at the first error. *)
Fixpoint feed_all (d : Decoder) (chunks : list (list byte)) (out : list Value)
    : Decoder * list Value * result unit FramingError :=
  match chunks with
  | [] => (d, out, Ok tt)
  | c :: cs =>
      match feed_into d c out with
      | (d', out', Ok _) => feed_all d' cs out'
      | (d', out', Err e) => (d', out', Err e)
      end
  end.

(** ** Reference: splitting a whole stream

    [split_nul] cuts a finished stream at its NUL bytes into the complete
    frames and the unterminated tail; [parse_frames] parses the non-empty
    frames in order, up to the first error. *)

Fixpoint split_nul (l : list byte) : list (list byte) * list byte :=
  match l with
  | [] => ([], [])
  | b :: t =>
      let '(fs, r) := split_nul t in
      if bool_decide (b = Byte.x00) then ([] :: fs, r)
      else match fs with
           | f :: fs' => ((b :: f) :: fs', r)
           | [] => ([], b :: r)
           end
  end.

Fixpoint parse_frames (max : Z) (fs : list (list byte)) : list Value * option FramingError :=
  match fs with
  | [] => ([], None)
  | [] :: fs' => parse_frames max fs'
  | f :: fs' =>
      if max <? zlen f then ([], Some (FrameTooLarge max))
      else match from_slice f with
           | Err e => ([], Some (Json e))
           | Ok v => let '(vs, e) := parse_frames max fs' in (v :: vs, e)
           end
  end.

(** Between calls that returned [Ok] the buffer holds one partial frame. *)
Definition decoder_inv (d : Decoder) : Prop := Byte.x00 ∉ buf d /\ zlen (buf d) <= max d.

Lemma has_nul_false l : has_nul l = false <-> (Byte.x00 ∉ l).
Proof.
  induction l as [|b l IH]; simpl.
  - split; [set_solver | done].
  - rewrite orb_false_iff, bool_decide_eq_false, IH. set_solver.
Qed.

Lemma split_nul_no_nul l : Byte.x00 ∉ l -> split_nul l = ([], l).
Proof.
  induction l as [|b l IH]; intros Hn; [done|]. simpl.
  rewrite IH by set_solver. rewrite bool_decide_eq_false_2 by set_solver. done.
Qed.

Lemma split_nul_rest_no_nul l : Byte.x00 ∉ (split_nul l).2.
Proof.
  induction l as [|b l IH]; simpl; [set_solver|].
  destruct (split_nul l) as [fs r]; simpl in *.
  case_bool_decide; simpl; [done|]. destruct fs; simpl; set_solver.
Qed.

Lemma split_nul_cons_frame f l :
  Byte.x00 ∉ f ->
  split_nul (f ++ Byte.x00 :: l) = (f :: (split_nul l).1, (split_nul l).2).
Proof.
  induction f as [|b f IH]; intros Hn; simpl.
  - by destruct (split_nul l).
  - rewrite IH by set_solver. rewrite bool_decide_eq_false_2 by set_solver. done.
Qed.

(** Splitting can resume from the unterminated tail. *)
Lemma split_nul_app s t :
  split_nul (s ++ t) =
    ((split_nul s).1 ++ (split_nul ((split_nul s).2 ++ t)).1,
     (split_nul ((split_nul s).2 ++ t)).2).
Proof.
  induction s as [|b s IH]; simpl; [by destruct (split_nul t)|].
  destruct (split_nul s) as [fs r] eqn:Es; simpl in *. rewrite IH.
  case_bool_decide as Hb; simpl; [done|].
  destruct fs as [|f fs]; simpl; [|done].
  destruct (split_nul (r ++ t)) as [fs' r']; simpl.
  rewrite bool_decide_eq_false_2 by done. by destruct fs'.
Qed.

Lemma parse_frames_app max fs gs :
  parse_frames max (fs ++ gs) =
    match parse_frames max fs with
    | (vs, None) => let '(ws, e) := parse_frames max gs in (vs ++ ws, e)
    | (vs, Some e) => (vs, Some e)
    end.
Proof.
  induction fs as [|f fs IH]; simpl; [by destruct (parse_frames max gs)|].
  destruct f as [|b f]; simpl; [done|].
  destruct (max <? _); [done|]. destruct (from_slice (b :: f)); [|done].
  rewrite IH. destruct (parse_frames max fs) as [vs [e|]]; [done|].
  by destruct (parse_frames max gs).
Qed.

Lemma slice_mid (pre cur rest : list byte) :
  slice (pre ++ cur ++ rest) (length pre) (length pre + length cur) = cur.
Proof.
  unfold slice. rewrite drop_app_length.
  replace (length pre + length cur - length pre)%nat with (length cur) by lia.
  apply take_app_length.
Qed.

Lemma split_nul_no_frame l r : split_nul l = ([], r) -> r = l.
Proof.
  revert r. induction l as [|b l IH]; intros r; simpl; [by intros [= <-]|].
  destruct (split_nul l) as [fs r']. case_bool_decide; [done|].
  destruct fs; [|done]. intros [= <-]. by rewrite (IH r').
Qed.

Lemma split_nul_tail_suffix l : exists p, l = p ++ (split_nul l).2.
Proof.
  induction l as [|b l [p IH]]; simpl; [by exists []|].
  destruct (split_nul l) as [fs r] eqn:Es; simpl in *.
  case_bool_decide; simpl; [exists (b :: p); by rewrite IH|].
  destruct fs; simpl.
  - exists []. by rewrite (split_nul_no_frame _ _ Es).
  - exists (b :: p). by rewrite IH.
Qed.

(** The index loop computes the reference split: it stops where the
    unterminated tail starts. *)
Lemma scan_spec max rest : forall pre cur out,
  Byte.x00 ∉ cur ->
  let whole := pre ++ cur ++ rest in
  scan max whole rest (length pre + length cur) (length pre) out =
    match parse_frames max (split_nul (cur ++ rest)).1 with
    | (vs, Some e) => (out ++ vs, Err e)
    | (vs, None) => (out ++ vs, Ok (length whole - length (split_nul (cur ++ rest)).2)%nat)
    end.
Proof.
  induction rest as [|b rest IH]; intros pre cur out Hcur whole; subst whole; simpl.
  - rewrite app_nil_r, split_nul_no_nul by done. simpl. rewrite app_nil_r, length_app.
    do 2 f_equal. lia.
  - case_bool_decide as Hb.
    + subst b. rewrite split_nul_cons_frame by done. simpl.
      assert (Hnext : forall out',
        scan max (pre ++ cur ++ Byte.x00 :: rest) rest
          (S (length pre + length cur)) (S (length pre + length cur)) out' =
        match parse_frames max (split_nul rest).1 with
        | (vs, Some e) => (out' ++ vs, Err e)
        | (vs, None) =>
            (out' ++ vs, Ok (length (pre ++ cur ++ Byte.x00 :: rest)
                             - length (split_nul rest).2)%nat)
        end).
      { intros out'. specialize (IH (pre ++ cur ++ [Byte.x00]) [] out' (not_elem_of_nil _)).
        simpl in IH. rewrite <- !app_assoc in IH. simpl in IH. rewrite <- IH.
        rewrite !length_app. simpl. f_equal; lia. }
      destruct (_ <? _)%nat eqn:Hlt.
      * apply Nat.ltb_lt in Hlt. rewrite slice_mid.
        destruct cur as [|c cur]; [simpl in Hlt; lia|].
        simpl. destruct (max <? _); [by rewrite app_nil_r|].
        destruct (from_slice (c :: cur)); [|by rewrite app_nil_r].
        simpl in Hnext. rewrite Hnext.
        destruct (parse_frames max (split_nul rest).1) as [vs [e|]];
          rewrite <- app_assoc; done.
      * apply Nat.ltb_ge in Hlt. destruct cur; [|simpl in Hlt; lia].
        simpl in *. rewrite Hnext. done.
    + assert (Byte.x00 ∉ cur ++ [b]) as Hcur' by (rewrite elem_of_app; set_solver).
      specialize (IH pre (cur ++ [b]) out Hcur').
      simpl in IH. rewrite <- !app_assoc in IH. simpl in IH. rewrite <- IH.
      rewrite !length_app. simpl. f_equal; lia.
Qed.

Lemma drop_split_tail l :
  drop (length l - length (split_nul l).2) l = (split_nul l).2.
Proof.
  destruct (split_nul_tail_suffix l) as [p Hp].
  rewrite Hp at 3. replace (length l - _)%nat with (length p).
  - apply drop_app_length.
  - rewrite Hp at 1. rewrite length_app. lia.
Qed.

(** What one call does, in terms of the reference split. *)
Lemma feed_into_spec d chunk out :
  Byte.x00 ∉ buf d ->
  feed_into d chunk out =
    let whole := buf d ++ chunk in
    let '(fs, r) := split_nul whole in
    if (max d <? sat_add u64_max (zlen (buf d)) (zlen chunk)) && negb (has_nul chunk)
    then (d, out, Err (FrameTooLarge (max d)))
    else match parse_frames (max d) fs with
         | (vs, Some e) => (mkDecoder whole (max d), out ++ vs, Err e)
         | (vs, None) =>
             (mkDecoder r (max d), out ++ vs,
              if max d <? zlen r then Err (FrameTooLarge (max d)) else Ok tt)
         end.
Proof.
  intros Hn. unfold feed_into. simpl.
  assert (has_nul (buf d) = false) as -> by by apply has_nul_false.
  simpl. rewrite andb_true_r.
  destruct (split_nul (buf d ++ chunk)) as [fs r] eqn:Es.
  destruct (_ && _); [done|].
  pose proof (scan_spec (max d) (buf d ++ chunk) [] [] out (not_elem_of_nil _)) as Hs.
  simpl in Hs. rewrite Es in Hs. simpl in Hs. rewrite Hs.
  destruct (parse_frames (max d) fs) as [vs [e|]]; [done|].
  assert ((if (0 <? length (buf d ++ chunk) - length r)%nat
           then drop (length (buf d ++ chunk) - length r) (buf d ++ chunk)
           else buf d ++ chunk) = r) as ->.
  { pose proof (drop_split_tail (buf d ++ chunk)) as Hd. rewrite Es in Hd. simpl in Hd.
    destruct (0 <? _)%nat eqn:E0; [done|]. apply Nat.ltb_ge in E0.
    replace (_ - _)%nat with 0%nat in Hd by lia. by rewrite drop_0 in Hd. }
  by destruct (max d <? zlen r).
Qed.

Lemma split_nul_prefix w t :
  Byte.x00 ∉ w ->
  split_nul (w ++ t) =
    match split_nul t with
    | (f :: fs, r) => ((w ++ f) :: fs, r)
    | ([], r) => ([], w ++ r)
    end.
Proof.
  induction w as [|b w IH]; intros Hn; simpl.
  - by destruct (split_nul t) as [[|f fs] r].
  - rewrite IH by set_solver. rewrite bool_decide_eq_false_2 by set_solver.
    by destruct (split_nul t) as [[|f fs] r].
Qed.

(** A stream is accepted when all its frames parse within the cap and its
    unterminated tail is within the cap. *)
Definition accepts (max : Z) (s : list byte) (vs : list Value) (r : list byte) : Prop :=
  parse_frames max (split_nul s).1 = (vs, None) /\ (split_nul s).2 = r /\ zlen r <= max.

Lemma accepts_oversize max w t vs r :
  Byte.x00 ∉ w -> 0 <= max < zlen w -> ~ accepts max (w ++ t) vs r.
Proof.
  intros Hn Hlt [Hp [Hr Hle]]. rewrite split_nul_prefix in Hp, Hr by done.
  destruct (split_nul t) as [[|f fs] r']; simpl in *.
  - subst r. rewrite zlen_app in Hle. pose proof (zlen_nonneg r'). lia.
  - destruct (w ++ f) as [|b x] eqn:E.
    + apply app_nil in E as [-> ->]. unfold zlen in Hlt; simpl in Hlt; lia.
    + rewrite <- E in Hp. destruct (max <? zlen (w ++ f)) eqn:Eb; [by simplify_eq|].
      apply Z.ltb_ge in Eb. rewrite zlen_app in Eb. pose proof (zlen_nonneg f). lia.
Qed.

Lemma accepts_app max s t vs r :
  accepts max (s ++ t) vs r <->
  exists vs1 vs2,
    parse_frames max (split_nul s).1 = (vs1, None) /\
    accepts max ((split_nul s).2 ++ t) vs2 r /\ vs = vs1 ++ vs2.
Proof.
  unfold accepts. rewrite split_nul_app. simpl. rewrite parse_frames_app.
  destruct (parse_frames max (split_nul s).1) as [ws [e|]].
  - split; [naive_solver|]. intros (?&?&?&?); done.
  - destruct (parse_frames max (split_nul ((split_nul s).2 ++ t)).1) as [xs [e|]].
    + split; [naive_solver|]. intros (?&?&?&[? ?]&?); done.
    + split; [intros [[= <-] ?]; eauto 10 | intros (?&?&[= <-]&[[= <-] ?]&->); eauto].
Qed.

(** C1: chunk boundaries do not matter. A decoder fed any sequence of chunks
    returns [Ok] from every call exactly when the whole stream is accepted by
    the reference split; the values delivered are then those of the stream's
    frames in order and the buffer is left holding its unterminated tail. *)
Theorem feed_all_stream (d : Decoder) (chunks : list (list byte)) (out : list Value)
    (d' : Decoder) (out' : list Value) :
  decoder_inv d ->
  feed_all d chunks out = (d', out', Ok tt) <->
  exists vs r, accepts (max d) (buf d ++ concat chunks) vs r /\
    d' = mkDecoder r (max d) /\ out' = out ++ vs.
Proof.
  revert d out. induction chunks as [|c cs IH]; intros d out [Hn Hle]; simpl.
  - rewrite app_nil_r. unfold accepts. rewrite split_nul_no_nul by done. simpl. split.
    + intros [= <- <-]. exists [], (buf d). rewrite app_nil_r. by destruct d.
    + intros (vs & r & ([= <-] & <- & _) & -> & ->). rewrite app_nil_r. by destruct d.
  - rewrite feed_into_spec by done. simpl. rewrite app_assoc.
    pose proof (zlen_nonneg (buf d)) as H0.
    pose proof (split_nul_rest_no_nul (buf d ++ c)) as Hrn.
    destruct (split_nul (buf d ++ c)) as [fs r] eqn:Es.
    destruct (_ && _) eqn:Eb.
    { apply andb_true_iff in Eb as [E1 E2]. apply Z.ltb_lt in E1.
      apply negb_true_iff, has_nul_false in E2. split; [done|].
      intros (vs & r0 & Ha & _). exfalso.
      eapply accepts_oversize; [| |exact Ha].
      - rewrite elem_of_app. tauto.
      - rewrite zlen_app. unfold sat_add in E1. lia. }
    setoid_rewrite accepts_app. rewrite Es. simpl in *.
    destruct (parse_frames (max d) fs) as [vs [e|]]; [naive_solver|].
    destruct (max d <? zlen r) eqn:Er.
    + apply Z.ltb_lt in Er. split; [done|].
      intros (? & ? & (? & ? & _ & Ha & _) & _). exfalso.
      eapply accepts_oversize; [| |exact Ha]; [done | lia].
    + apply Z.ltb_ge in Er. rewrite IH by done. simpl. split.
      * intros (vs2 & r2 & Ha & -> & ->). exists (vs ++ vs2), r2.
        rewrite app_assoc. eauto 10.
      * intros (? & r2 & (? & vs2 & [= <-] & Ha & ->) & -> & ->). exists vs2, r2.
        rewrite app_assoc. eauto.
Qed.

(** memory bound and state after one call. An [Ok] call re-establishes
    the invariant; in every case, errors included, the buffer holds at most
    the cap plus the chunk, the cap never changes, values already in the
    caller's vector are kept, and a size error reports the cap. *)
Theorem feed_into_bounds (d d' : Decoder) (chunk : list byte) (out out' : list Value)
    (res : result unit FramingError) :
  decoder_inv d ->
  feed_into d chunk out = (d', out', res) ->
  max d' = max d /\ zlen (buf d') <= max d + zlen chunk /\ (exists vs, out' = out ++ vs) /\
  match res with
  | Ok _ => decoder_inv d'
  | Err (FrameTooLarge limit) => limit = max d
  | Err _ => True
  end.
Proof.
  intros [Hn Hle] Hf. rewrite feed_into_spec in Hf by done. simpl in Hf.
  pose proof (zlen_nonneg chunk) as Hc.
  pose proof (split_nul_rest_no_nul (buf d ++ chunk)) as Hrn.
  destruct (split_nul_tail_suffix (buf d ++ chunk)) as [p Hp].
  destruct (split_nul (buf d ++ chunk)) as [fs r]. simpl in *.
  destruct (_ && _).
  { simplify_eq. split_and!; [done | lia | exists []; by rewrite app_nil_r | done]. }
  assert (Hr : zlen r <= max d + zlen chunk).
  { apply (f_equal zlen) in Hp. rewrite !zlen_app in Hp. pose proof (zlen_nonneg p). lia. }
  destruct (parse_frames (max d) fs) as [vs [e|]] eqn:Ep; simplify_eq; simpl.
  - split_and!; [done | rewrite zlen_app; lia | eauto |].
    destruct e; [|done..]. revert vs Ep. clear.
    induction fs as [|[|b f] fs IH]; intros vs; simpl; [done | eauto |].
    destruct (max d <? _); [naive_solver|].
    destruct (from_slice (b :: f)); [|done].
    destruct (parse_frames (max d) fs) as [ws [e|]]; naive_solver.
  - destruct (max d <? zlen r) eqn:Er; split_and!; eauto.
    apply Z.ltb_ge in Er. done.
Qed.

(** The writer's scratch buffer after a run of [encode_frame_into]. *)
Fixpoint encode_all (scratch : list byte) (vs : list Value) : result (list byte) FramingError :=
  match vs with
  | [] => Ok scratch
  | v :: vs' =>
      match encode_frame_into scratch v with
      | (scratch', Ok _) => encode_all scratch' vs'
      | (_, Err e) => Err e
      end
  end.

Section RoundTrip.
Context `{!JsonCodecLaws Value JsonError}.

(** [v] serializes within the cap and the parser reads it back. *)
Definition transmissible (m : Z) (v : Value) : Prop :=
  exists b, to_writer v = (b, None) /\ from_slice b = Ok v /\ zlen b <= m.

Lemma encode_all_spec m vs scratch :
  Forall (transmissible m) vs ->
  exists s, encode_all scratch vs = Ok (scratch ++ s) /\
    parse_frames m (split_nul s).1 = (vs, None) /\ (split_nul s).2 = [].
Proof.
  intros Hv. revert scratch. induction Hv as [|v vs (b & Hb & Hp & Hm) Hv IH]; intros scratch.
  - exists []. simpl. by rewrite app_nil_r.
  - simpl. unfold encode_frame_into. rewrite Hb.
    destruct (IH (scratch ++ b ++ [Byte.x00])) as (s & -> & Hs1 & Hs2).
    exists (b ++ Byte.x00 :: s). rewrite <- !app_assoc. simpl.
    pose proof (ser_nonempty _ _ Hb) as Hne. pose proof (ser_no_nul _ _ Hb) as Hnn.
    rewrite split_nul_cons_frame by done. simpl. rewrite Hs1, Hs2.
    destruct b as [|c b]; [done|]. rewrite Hp.
    assert (m <? zlen (c :: b) = false) as -> by (apply Z.ltb_ge; lia). done.
Qed.

(** C2: round trip. Values written one after another by [encode_frame_into],
    and cut into chunks in any way by the pipe, are delivered by the decoder
    exactly, in order, and leave it empty, so [finish] reports a clean end. *)
Theorem encode_decode_stream (m : Z) (vs : list Value) (chunks : list (list byte)) :
  0 <= m ->
  Forall (transmissible m) vs ->
  encode_all [] vs = Ok (concat chunks) ->
  feed_all (new m) chunks [] = (new m, vs, Ok tt) /\ finish (new m) = Ok tt.
Proof.
  intros Hm Hv He. split; [|done].
  destruct (encode_all_spec m vs [] Hv) as (s & Hs & H1 & H2).
  rewrite He in Hs. injection Hs as Hs. simpl in Hs.
  apply feed_all_stream.
  - split; [apply not_elem_of_nil | done].
  - exists vs, []. split_and!; [|done..]. split_and!; simpl; by rewrite ?Hs.
Qed.

End RoundTrip.
End Framing.
Arguments FramingError : clear implicits.
End Framing.

(** ** Instances at a concrete codec

    The JSON literals [true] and [false] as a codec that satisfies the laws. *)
Module FramingExamples.
Import Framing.

Definition json_true : list byte := [Byte.x74; Byte.x72; Byte.x75; Byte.x65].
Definition json_false : list byte := [Byte.x66; Byte.x61; Byte.x6c; Byte.x73; Byte.x65].

#[export] Instance bool_codec : JsonCodec bool unit := {
  to_writer v := (if v then json_true else json_false, None);
  from_slice l :=
    if bool_decide (l = json_true) then Ok true
    else if bool_decide (l = json_false) then Ok false else Err tt
}.

#[export] Instance bool_codec_laws : JsonCodecLaws bool unit.
Proof.
  split; intros [] b; simpl; intros [= <-]; try done; by apply has_nul_false.
Qed.

(** [true NUL false NUL], cut inside both frames. *)
Definition example_chunks : list (list byte) :=
  [take 2 json_true; drop 2 json_true ++ Byte.x00 :: take 1 json_false;
   drop 1 json_false; [Byte.x00]].

Lemma feed_all_stream_witness :
  decoder_inv (new 16) /\
  exists vs r, accepts 16 (concat example_chunks) vs r /\
    new 16 = mkDecoder r 16 /\ [true; false] = [] ++ vs.
Proof.
  assert (decoder_inv (new 16)) as Hi by (split; [apply not_elem_of_nil | done]).
  split; [exact Hi|].
  apply (proj1 (feed_all_stream (new 16) example_chunks [] (new 16) [true; false] Hi)).
  vm_compute. reflexivity.
Defined.

Lemma feed_into_bounds_witness :
  zlen (buf (feed_into (new 4) (json_true ++ [Byte.x00; Byte.x66]) []).1.1) <= 4 + 6.
Proof.
  assert (decoder_inv (new 4)) as Hi by (split; [apply not_elem_of_nil | done]).
  exact (proj1 (proj2 (feed_into_bounds (new 4) (mkDecoder [Byte.x66] 4)
    (json_true ++ [Byte.x00; Byte.x66]) [] [true] (Ok tt) Hi eq_refl))).
Defined.

Lemma encode_decode_stream_witness :
  feed_all (new 16) example_chunks [] = (new 16, [true; false], Ok tt) /\
  finish (JsonError := unit) (new 16) = Ok tt.
Proof.
  apply (encode_decode_stream 16 [true; false] example_chunks).
  - lia.
  - repeat constructor; [exists json_true | exists json_false]; vm_compute; done.
  - reflexivity.
Defined.

(** A frame one byte over the cap is refused, one at the cap is not. *)
Example cap_is_inclusive :
  (feed_into (new 4) (json_true ++ [Byte.x00]) []).2 = Ok tt /\
  (feed_into (new 4) (json_false ++ [Byte.x00]) []).2 = Err (FrameTooLarge 4).
Proof. split; reflexivity. Qed.

End FramingExamples.
