(* ===== verification/Retry.v ===== *)
(** * cdp-client: error type, retry policy and the retrying send

    [error.rs], [retry.rs], the outcome classification of [metrics.rs] and the
    retry loop of [session.rs] ([send_with_retry], [send_with_retry_policy]).
    A [Duration] is its number of nanoseconds. *)
From S2P Require Import Prelude.

Section CdpError.
Context {Value : Type}.

(** Errors of other crates are kept as their rendered text. *)
Inductive CdpError : Type :=
| Spawn (io : string)
| FramingE (e : string)
| JsonE (e : string)
| ProtocolError (code : Z) (message : string) (data : option Value)
| SessionDetached
| ConnectionClosed
| Timeout
| UnknownId (id : string)
| Internal (msg : string).

Definition is_transient (err : CdpError) : bool :=
  match err with
  | ConnectionClosed | Timeout | SessionDetached => true
  | _ => false
  end.

End CdpError.
Arguments CdpError : clear implicits.

(** [metrics.rs] *)
Inductive Outcome : Type := OutOk | OutProtocolError | OutTransport | OutInternal.
#[export] Instance Outcome_eq_dec : EqDecision Outcome.
Proof. solve_decision. Defined.

Module Retry.

Definition nanos_per_sec : Z := 1000000000.
Definition from_millis (ms : Z) : Z := ms * 1000000.
(** [Duration::MAX] *)
Definition duration_max : Z := u64_max * nanos_per_sec + (nanos_per_sec - 1).

(** [Duration::checked_mul] *)
Definition checked_mul (d k : Z) : option Z :=
  if d * k <=? duration_max then Some (d * k) else None.

(** [1u64.checked_shl(exp)] *)
Definition one_shl (exp : Z) : option Z := if exp <? 64 then Some (2 ^ exp) else None.

Record RetryPolicy := mkPolicy {
  max_attempts : Z;
  initial_backoff : Z;
  max_backoff : Z
}.

Definition disabled : RetryPolicy := mkPolicy 1 (from_millis 0) (from_millis 0).
Definition default_idempotent : RetryPolicy :=
  mkPolicy 3 (from_millis 50) (from_millis 200).

Definition backoff_before (p : RetryPolicy) (attempt : Z) : Z :=
  if attempt <=? 1 then from_millis 0
  else
    let exp := sat_sub attempt 2 in
    let mult := default u64_max (one_shl exp) in
    let scaled := default (max_backoff p) (checked_mul (initial_backoff p) (Z.min mult u32_max)) in
    Z.min scaled (max_backoff p).

Definition policy_wf (p : RetryPolicy) : Prop :=
  in_u32 (max_attempts p) /\
  0 <= initial_backoff p <= duration_max /\ 0 <= max_backoff p <= duration_max.

(** The doubling schedule the policy documents: no wait before the first
    attempt, then the initial backoff doubled per attempt up to the ceiling. *)
Definition backoff_schedule (p : RetryPolicy) (attempt : Z) : Z :=
  if attempt <=? 1 then 0
  else Z.min (initial_backoff p * 2 ^ (attempt - 2)) (max_backoff p).

Lemma backoff_le_max p attempt :
  policy_wf p -> 0 <= backoff_before p attempt <= max_backoff p.
Proof.
  intros (_ & Hi & Hm). unfold backoff_before, from_millis.
  destruct (attempt <=? 1); [lia|].
  unfold checked_mul. destruct (_ <=? _) eqn:E; simpl; [|lia].
  assert (0 <= Z.min (default u64_max (one_shl (sat_sub attempt 2))) u32_max).
  { unfold one_shl, u64_max, u32_max. destruct (_ <? 64); simpl; [|lia].
    pose proof (Z.pow_nonneg 2 (sat_sub attempt 2)). lia. }
  nia.
Qed.

(** The implementation caps the multiplier at [u32::MAX], so it agrees with
    the schedule while the exponent stays below 32 bits. *)
Lemma backoff_before_schedule p attempt :
  policy_wf p -> attempt <= 33 -> backoff_before p attempt = backoff_schedule p attempt.
Proof.
  intros (_ & Hi & Hm) Ha. unfold backoff_before, backoff_schedule, from_millis.
  destruct (attempt <=? 1) eqn:E1; [done|]. apply Z.leb_gt in E1.
  replace (sat_sub attempt 2) with (attempt - 2) by (unfold sat_sub; lia).
  unfold one_shl. assert (attempt - 2 <? 64 = true) as -> by lia. simpl.
  assert (2 ^ (attempt - 2) <= 2 ^ 31) by (apply Z.pow_le_mono_r; lia).
  rewrite (Z.min_l (2 ^ (attempt - 2)) u32_max) by (change u32_max with 4294967295; change (2 ^ 31) with 2147483648 in *; lia).
  unfold checked_mul. destruct (_ <=? _) eqn:E; simpl; [done|].
  apply Z.leb_gt in E. lia.
Qed.

Lemma backoff_mono p a b :
  policy_wf p -> a <= b -> b <= 33 -> backoff_before p a <= backoff_before p b.
Proof.
  intros Hp Hab Hb. rewrite !backoff_before_schedule by (done || lia).
  destruct Hp as (_ & Hi & Hm). unfold backoff_schedule.
  destruct (a <=? 1) eqn:Ea, (b <=? 1) eqn:Eb; try lia.
  apply Z.leb_gt in Ea. assert (2 ^ (a - 2) <= 2 ^ (b - 2)) by (apply Z.pow_le_mono_r; lia).
  apply Z.min_le_compat_r, Z.mul_le_mono_nonneg_l; lia.
Qed.

(** ** The retry loop *)
Section RetryLoop.
Context {Value R : Type}.

(** What a run of the loop does: its result, the attempts made, the sleeps in
    order, and the calls recorded on the metrics sink. *)
Record run := mkRun {
  res : result R (CdpError Value);
  attempts : Z;
  sleeps : list Z;
  recorded : list (Outcome * Z)
}.

Definition outcome_for_result (r : result R (CdpError Value)) : Outcome :=
  match r with
  | Ok _ => OutOk
  | Err (ConnectionClosed | Timeout | SessionDetached) => OutTransport
  | Err (ProtocolError _ _ _) => OutProtocolError
  | Err _ => OutInternal
  end.

Definition record_call (sink : bool) (o : Outcome) (attempt : Z) : list (Outcome * Z) :=
  if sink then [(o, attempt)] else [].

(** [send attempt] is what [send_inner] returns on that attempt. [todo] is
    [policy.max_attempts - attempt], the loop's variant. *)
Fixpoint retry_loop (p : RetryPolicy) (sink : bool)
    (send : Z -> result R (CdpError Value)) (todo : nat)
    (attempt : Z) (last_err : option (CdpError Value)) (slept : list Z) : run :=
  match todo with
  | O =>
      let err := default ConnectionClosed last_err in
      mkRun (Err err) attempt slept (record_call sink OutTransport attempt)
  | S todo' =>
      let attempt := attempt + 1 in
      let slept := if 1 <? attempt then slept ++ [backoff_before p attempt] else slept in
      match send attempt with
      | Ok v => mkRun (Ok v) attempt slept (record_call sink OutOk attempt)
      | Err e =>
          if negb (is_transient e) then
            let outcome := match e with
                           | ProtocolError _ _ _ => OutProtocolError
                           | _ => OutInternal
                           end in
            mkRun (Err e) attempt slept (record_call sink outcome attempt)
          else retry_loop p sink send todo' attempt (Some e) slept
      end
  end.

Definition send_with_retry_policy (p : RetryPolicy) (sink : bool)
    (send : Z -> result R (CdpError Value)) : run :=
  retry_loop p sink send (Z.to_nat (max_attempts p)) 0 None [].

Definition send_with_retry (idempotent sink : bool)
    (send : Z -> result R (CdpError Value)) : run :=
  send_with_retry_policy (if idempotent then default_idempotent else disabled) sink send.

(** An attempt that does not end the loop. *)
Definition transient_at (send : Z -> result R (CdpError Value)) (i : Z) : Prop :=
  exists e, send i = Err e /\ is_transient e = true.

(** The waits between attempts [a + 1 .. b]: one before each attempt but the
    first. *)
Definition waits (p : RetryPolicy) (a b : Z) : list Z :=
  backoff_before p <$> filter (fun i => 1 < i) (seqZ (a + 1) (b - a)).

(** What a policy promises of a run from attempt [a] with [n] attempts left:
    every attempt before the last one made failed transiently; the result is
    that of the last attempt made, which is a transient failure only when the
    budget is used up. *)
Definition run_spec (p : RetryPolicy) (send : Z -> result R (CdpError Value))
    (a n : Z) (last_err : option (CdpError Value)) (r : run) : Prop :=
  a <= attempts r <= a + n /\
  (forall i, a < i < attempts r -> transient_at send i) /\
  (attempts r = a -> n = 0 /\ res r = Err (default ConnectionClosed last_err)) /\
  (a < attempts r -> res r = send (attempts r) /\
  (transient_at send (attempts r) -> attempts r = a + n)).

Lemma waits_step p a b :
  a < b -> waits p a b =
    (if 1 <? a + 1 then [backoff_before p (a + 1)] else []) ++ waits p (a + 1) b.
Proof.
  intros Hab. unfold waits. rewrite (seqZ_cons (a + 1)) by lia.
  replace (Z.pred (b - a)) with (b - (a + 1)) by lia.
  replace (Z.succ (a + 1)) with (a + 1 + 1) by lia.
  rewrite filter_cons. destruct (Z.ltb_spec 1 (a + 1)); case_decide; done || lia.
Qed.

Lemma waits_nil p a : waits p a a = [].
Proof. unfold waits. by rewrite Z.sub_diag. Qed.

Lemma retry_loop_attempts p sink send todo : forall a last slept,
  a <= attempts (retry_loop p sink send todo a last slept).
Proof.
  induction todo as [|todo IH]; intros; simpl; [lia|].
  destruct (send (a + 1)) as [v|e]; simpl; [lia|].
  destruct (negb (is_transient e)); simpl; [lia|]. etransitivity; [|apply IH]. lia.
Qed.

Lemma retry_loop_spec p sink send todo : forall a last slept,
  run_spec p send a (Z.of_nat todo) last (retry_loop p sink send todo a last slept).
Proof.
  induction todo as [|todo IH]; intros a last slept; cbn [retry_loop].
  { split_and!; simpl; try lia; done. }
  pose proof (retry_loop_attempts p sink send todo (a + 1)) as Hat.
  destruct (send (a + 1)) as [v|e] eqn:Es; [|destruct (is_transient e) eqn:Et].
  - split_and!; simpl; try lia. intros _. split; [done|]. intros (? & He & ?); simpl in He; congruence.
  - cbn [negb]. set (slept' := if 1 <? a + 1 then _ else _).
    specialize (Hat (Some e) slept'). destruct (IH (a + 1) (Some e) slept') as (H1 & H2 & H3 & H4).
    split_and!; [lia.. | | lia |].
    + intros i Hi. destruct (decide (i = a + 1)) as [->|]; [by exists e | apply H2; lia].
    + intros _. destruct (decide (attempts (retry_loop p sink send todo (a + 1) (Some e) slept') = a + 1))
        as [Heq|].
      * destruct (H3 Heq) as [Hn Hr]. rewrite Heq, Es, Hr. split; [done | lia].
      * destruct H4 as [-> H4]; [lia|]. split; [done|]. intros Ht. specialize (H4 Ht). lia.
  - split_and!; simpl; try lia. intros _. split; [done|]. intros (? & He & ?); simpl in He; congruence.
Qed.

Lemma retry_loop_sleeps p sink send todo : forall a last slept,
  let r := retry_loop p sink send todo a last slept in
  sleeps r = slept ++ waits p a (attempts r).
Proof.
  induction todo as [|todo IH]; intros a last slept; cbn [retry_loop].
  { simpl. by rewrite waits_nil, app_nil_r. }
  assert (forall l, (if 1 <? a + 1 then l ++ [backoff_before p (a + 1)] else l)
    = l ++ if 1 <? a + 1 then [backoff_before p (a + 1)] else []) as Happ.
  { intros l. destruct (1 <? a + 1); by rewrite ?app_nil_r. }
  destruct (send (a + 1)) as [v|e]; [|destruct (negb (is_transient e))]; simpl.
  1,2: rewrite waits_step, waits_nil, app_nil_r by lia; apply Happ.
  rewrite IH, (waits_step p a), app_assoc, Happ; [done|].
  pose proof (retry_loop_attempts p sink send todo (a + 1) (Some e)
    (if 1 <? a + 1 then slept ++ [backoff_before p (a + 1)] else slept)). lia.
Qed.

(** Exactly one call is recorded, with the attempts made and the outcome
    class of the result returned. *)
Lemma retry_loop_recorded p sink send todo : forall a last slept,
  (forall e, last = Some e -> is_transient e = true) ->
  let r := retry_loop p sink send todo a last slept in
  recorded r = record_call sink (outcome_for_result (res r)) (attempts r).
Proof.
  induction todo as [|todo IH]; intros a last slept Hl; cbn [retry_loop].
  - simpl. destruct last as [e|]; simpl; [|done]. specialize (Hl e eq_refl). by destruct e.
  - destruct (send (a + 1)) as [v|e]; [done|].
    destruct (is_transient e) eqn:Et; [apply IH; naive_solver | by destruct e].
Qed.

(** the retrying send. At most [max_attempts] attempts are made; every
    attempt but the last failed transiently and the result is the last
    attempt's, so a non-transient error is never retried and a transient one
    is returned only when the budget is exhausted; the sleeps are the backoffs
    of attempts 2.. in order; one call is recorded with the attempts made. *)
Theorem send_with_retry_policy_spec (p : RetryPolicy) (sink : bool)
    (send : Z -> result R (CdpError Value)) :
  policy_wf p ->
  let r := send_with_retry_policy p sink send in
  run_spec p send 0 (max_attempts p) None r /\
  sleeps r = waits p 0 (attempts r) /\
  Forall (fun w => 0 <= w <= max_backoff p) (sleeps r) /\
  recorded r = record_call sink (outcome_for_result (res r)) (attempts r).
Proof.
  intros Hp r. unfold r, send_with_retry_policy.
  pose proof (retry_loop_spec p sink send (Z.to_nat (max_attempts p)) 0 None []) as Hs.
  rewrite Z2Nat.id in Hs by (destruct Hp as [[? ?] _]; lia).
  split_and!; [exact Hs | apply retry_loop_sleeps | | by apply retry_loop_recorded].
  rewrite retry_loop_sleeps. simpl. apply Forall_fmap, Forall_true.
  intros i. by apply backoff_le_max.
Qed.

End RetryLoop.

Lemma send_with_retry_policy_spec_witness :
  let r := send_with_retry_policy (Value := unit) (R := Z) default_idempotent true
             (fun i => if i <? 3 then Err Timeout else Ok 7) in
  res r = Ok 7 /\ attempts r = 3 /\ sleeps r = [from_millis 50; from_millis 100] /\
  Forall (fun w => 0 <= w <= max_backoff default_idempotent) (sleeps r).
Proof.
  split_and!; [reflexivity..|].
  apply (send_with_retry_policy_spec (Value := unit) (R := Z) default_idempotent true
    (fun i => if i <? 3 then Err Timeout else Ok 7)).
  vm_compute. intuition congruence.
Defined.

End Retry.
