(* ===== verification/Metrics.v ===== *)
(** * Metrics: counters and histograms

    Models [observability/src/metrics.rs] (the power-of-two histogram, the
    session registry, the fetch, performance and mutation counters),
    [latency.rs] (the clamp in front of the recorded durations) and [cdp.rs]
    (the per-method sink of the CDP client).  Atomics are their values; one
    operation is one step, except the compare-and-swap loop of the maximum,
    whose interference is an argument. *)
From stdpp Require Import sorting.
From S2P Require Import Prelude Retry.

Module Metrics.

(** Rust's [AtomicU64::fetch_add]. *)
Definition add64 (a b : Z) : Z := wrap_add u64_max a b.

(** ** [Histogram] *)

Record Histogram := mkHist { buckets : list Z; count : Z; sum : Z; max : Z }.
Definition hist_default : Histogram := mkHist (replicate 64 0) 0 0 0.

(** [u64::leading_zeros] of a nonzero value. *)
Definition leading_zeros (v : Z) : Z := 63 - Z.log2 v.

Definition bucket_index (value : Z) : nat :=
  let idx := if value =? 0 then 0 else 63 - leading_zeros value in
  Z.to_nat (Z.min idx 63).

(** The loop on the maximum. Each turn is one compare-and-swap: [Some m] is
    a turn on which the word was found to be [m], [None] one that found the
    expected value; the loop ends with the script. *)
Fixpoint max_loop (value cur : Z) (turns : list (option Z)) (word : Z) : Z :=
  if cur <? value then
    match turns with
    | [] => value
    | None :: _ => value
    | Some observed :: turns => max_loop value observed turns observed
    end
  else word.

Definition observe (h : Histogram) (value : Z) : Histogram :=
  let idx := bucket_index value in
  mkHist (alter (fun n => add64 n 1) idx (buckets h)) (add64 (count h) 1) (add64 (sum h) value)
    (max_loop value (max h) [] (max h)).

(** [snapshot] reads every word. *)
Record HistogramSnapshot := mkHistSnap { s_buckets : list Z; s_count : Z; s_sum : Z; s_max : Z }.
Definition hist_snapshot (h : Histogram) : HistogramSnapshot :=
  mkHistSnap (buckets h) (count h) (sum h) (max h).

(** [serde_buckets::deserialize] after the vector has been read. *)
Definition deserialize_buckets (v : list Z) : result (list Z) Z :=
  if negb (zlen v =? 64) then Err (zlen v) else Ok v.

(** ** Session counters *)

Record SessionMetrics := mkSession {
  tab_count : Z; request_count : Z; error_count : Z; last_activity_ms : Z;
  recovery_count : Z; recovery_failed_count : Z; outbound_drop_count : Z; filevault_state : Z
}.
Definition session_default : SessionMetrics := mkSession 0 0 0 0 0 0 0 0.
Definition session_touch (m : SessionMetrics) (now : Z) : SessionMetrics :=
  mkSession (tab_count m) (request_count m) (error_count m) now (recovery_count m)
    (recovery_failed_count m) (outbound_drop_count m) (filevault_state m).
Record SessionSnapshot := mkSessionSnap { snap_session_id : string; snap_metrics : SessionMetrics }.
Definition session_snapshot (m : SessionMetrics) (id : string) : SessionSnapshot := mkSessionSnap id m.

(** [Registry]: shared handles are keys of the map. *)
Definition Registry := gmap string SessionMetrics.
Definition registry_session (r : Registry) (id : string) : Registry * SessionMetrics :=
  match r !! id with
  | Some m => (r, m)
  | None => (<[id := session_default]> r, session_default)
  end.
Definition registry_remove (r : Registry) (id : string) : Registry * option SessionMetrics :=
  (delete id r, r !! id).
(** The order of [String]'s [cmp]. *)
Definition snap_le (a b : SessionSnapshot) : Prop :=
  String.compare (snap_session_id a) (snap_session_id b) <> Gt.
#[export] Instance snap_le_dec : RelDecision snap_le.
Proof. intros a b. unfold snap_le. destruct (String.compare _ _); (now left) || (right; congruence). Defined.
Definition registry_snapshot (r : Registry) : list SessionSnapshot :=
  merge_sort snap_le (map (fun '(k, v) => session_snapshot v k) (map_to_list r)).

(** ** Fetch counters *)

Record FetchMetrics := mkFetch {
  attempts : Z; retries : Z; stalls : Z; range_416 : Z; download_starts : Z;
  download_completions : Z; download_failures : Z; bytes_written : Z;
  download_ms : Histogram; bytes_per_attempt : Histogram
}.
Definition fetch_default : FetchMetrics := mkFetch 0 0 0 0 0 0 0 0 hist_default hist_default.
Definition record_attempt (m : FetchMetrics) : FetchMetrics :=
  mkFetch (add64 (attempts m) 1) (retries m) (stalls m) (range_416 m) (download_starts m)
    (download_completions m) (download_failures m) (bytes_written m) (download_ms m) (bytes_per_attempt m).
Definition record_retry (m : FetchMetrics) : FetchMetrics :=
  mkFetch (attempts m) (add64 (retries m) 1) (stalls m) (range_416 m) (download_starts m)
    (download_completions m) (download_failures m) (bytes_written m) (download_ms m) (bytes_per_attempt m).
Definition record_stall (m : FetchMetrics) : FetchMetrics :=
  mkFetch (attempts m) (retries m) (add64 (stalls m) 1) (range_416 m) (download_starts m)
    (download_completions m) (download_failures m) (bytes_written m) (download_ms m) (bytes_per_attempt m).
Definition record_range_416 (m : FetchMetrics) : FetchMetrics :=
  mkFetch (attempts m) (retries m) (stalls m) (add64 (range_416 m) 1) (download_starts m)
    (download_completions m) (download_failures m) (bytes_written m) (download_ms m) (bytes_per_attempt m).
Definition record_download_start (m : FetchMetrics) : FetchMetrics :=
  mkFetch (attempts m) (retries m) (stalls m) (range_416 m) (add64 (download_starts m) 1)
    (download_completions m) (download_failures m) (bytes_written m) (download_ms m) (bytes_per_attempt m).
Definition record_download_completion (m : FetchMetrics) (total_ms : Z) : FetchMetrics :=
  mkFetch (attempts m) (retries m) (stalls m) (range_416 m) (download_starts m)
    (add64 (download_completions m) 1) (download_failures m) (bytes_written m)
    (observe (download_ms m) total_ms) (bytes_per_attempt m).
Definition record_download_failure (m : FetchMetrics) : FetchMetrics :=
  mkFetch (attempts m) (retries m) (stalls m) (range_416 m) (download_starts m)
    (download_completions m) (add64 (download_failures m) 1) (bytes_written m)
    (download_ms m) (bytes_per_attempt m).
Definition record_bytes (m : FetchMetrics) (n : Z) : FetchMetrics :=
  mkFetch (attempts m) (retries m) (stalls m) (range_416 m) (download_starts m)
    (download_completions m) (download_failures m) (add64 (bytes_written m) n)
    (download_ms m) (bytes_per_attempt m).
Definition record_attempt_bytes (m : FetchMetrics) (n : Z) : FetchMetrics :=
  mkFetch (attempts m) (retries m) (stalls m) (range_416 m) (download_starts m)
    (download_completions m) (download_failures m) (bytes_written m)
    (download_ms m) (observe (bytes_per_attempt m) n).

(** ** Mutation counters *)

Record MutationMetrics := mkMut { drain_failures : Z; drain_overflows : Z; anchor_invalidations : Z }.
Definition mutation_default : MutationMetrics := mkMut 0 0 0.
Definition record_drain_failure (m : MutationMetrics) : MutationMetrics :=
  mkMut (add64 (drain_failures m) 1) (drain_overflows m) (anchor_invalidations m).
Definition record_drain_overflow (m : MutationMetrics) : MutationMetrics :=
  mkMut (drain_failures m) (add64 (drain_overflows m) 1) (anchor_invalidations m).
Definition record_anchor_invalidation (m : MutationMetrics) : MutationMetrics :=
  mkMut (drain_failures m) (drain_overflows m) (add64 (anchor_invalidations m) 1).

(** ** Latencies *)

Definition HIST_HIGH_US : Z := 60000000.

(** The values handed to the HDR histogram, whose quantiles are not modelled. *)
Definition LatencyHistogram := list Z.
Definition record_micros (h : LatencyHistogram) (us : Z) : LatencyHistogram := h ++ [Z.min us HIST_HIGH_US].
(** [d]: the duration in microseconds, a 128-bit value. *)
Definition record_duration (h : LatencyHistogram) (d : Z) : LatencyHistogram :=
  record_micros h (if d <=? u64_max then d else u64_max).

(** ** The CDP sink *)

Record MethodMetrics := mkMethod {
  latency : LatencyHistogram; ok : Z; protocol_error : Z; transport_error : Z; internal_error : Z;
  m_retries : Z
}.
Definition method_new : MethodMetrics := mkMethod [] 0 0 0 0 0.

Definition method_record (m : MethodMetrics) (lat : Z) (outcome : Outcome) (n : Z) : MethodMetrics :=
  let l := record_duration (latency m) lat in
  let extra := sat_sub n 1 in
  let r := if 0 <? extra then add64 (m_retries m) extra else m_retries m in
  match outcome with
  | OutOk => mkMethod l (add64 (ok m) 1) (protocol_error m) (transport_error m) (internal_error m) r
  | OutProtocolError =>
      mkMethod l (ok m) (add64 (protocol_error m) 1) (transport_error m) (internal_error m) r
  | OutTransport =>
      mkMethod l (ok m) (protocol_error m) (add64 (transport_error m) 1) (internal_error m) r
  | OutInternal =>
      mkMethod l (ok m) (protocol_error m) (transport_error m) (add64 (internal_error m) 1) r
  end.

(** The static and the dynamic table. *)
Record CdpMetricsSink := mkSink {
  methods : gmap string MethodMetrics; dynamic_methods : gmap string MethodMetrics
}.
Definition sink_new : CdpMetricsSink := mkSink ∅ ∅.

Record cdp_call := mkCall {
  c_dynamic : bool; c_method : string; c_latency : Z; c_outcome : Outcome; c_attempts : Z
}.
Definition table_record (t : gmap string MethodMetrics) (c : cdp_call) : gmap string MethodMetrics :=
  <[c_method c := method_record (default method_new (t !! c_method c))
                    (c_latency c) (c_outcome c) (c_attempts c)]> t.
(** [record_call] and [record_dynamic_call]. *)
Definition sink_record (s : CdpMetricsSink) (c : cdp_call) : CdpMetricsSink :=
  if c_dynamic c
  then mkSink (methods s) (table_record (dynamic_methods s) c)
  else mkSink (table_record (methods s) c) (dynamic_methods s).

(** [snapshot] inserts the static entries and then the dynamic ones. *)
Definition sink_snapshot (s : CdpMetricsSink) : gmap string MethodMetrics :=
  dynamic_methods s ∪ methods s.

(** ** What they count *)

(** The bucket a sample belongs to: [[2^i, 2^(i+1))], and zero with one. *)
Definition in_bucket (i : nat) (v : Z) : Prop :=
  2 ^ Z.of_nat i <= v < 2 ^ (Z.of_nat i + 1) \/ (i = 0%nat /\ v = 0).
#[export] Instance in_bucket_dec i v : Decision (in_bucket i v).
Proof. unfold in_bucket. apply _. Defined.

Lemma bucket_index_spec v i : 0 <= v <= u64_max ->
  bucket_index v = i <-> in_bucket i v.
Proof.
  unfold bucket_index, in_bucket, leading_zeros, u64_max. intros Hv.
  destruct (Z.eqb_spec v 0) as [->|Hz].
  - change (Z.to_nat (Z.min 0 63)) with 0%nat. split; [intros <-; auto|].
    intros [H|[-> _]]; [|done]. pose proof (Z.pow_pos_nonneg 2 (Z.of_nat i)). lia.
  - assert (0 < v) as H0 by lia.
    assert (Z.log2 v <= 63) by (transitivity (Z.log2 (2 ^ 64 - 1)); [apply Z.log2_le_mono; lia|discriminate]).
    pose proof (Z.log2_nonneg v). rewrite Z.min_l by lia.
    replace (63 - (63 - Z.log2 v)) with (Z.log2 v) by lia. split.
    + intros <-. rewrite Z2Nat.id by lia. left. pose proof (Z.log2_spec v H0). now rewrite Z.add_1_r.
    + intros [B|[_ B]]; [|lia]. rewrite (Z.log2_unique v (Z.of_nat i)); [apply Nat2Z.id|lia|].
      now rewrite Z.add_1_r in B.
Qed.

Lemma bucket_index_bound v : 0 <= v -> (bucket_index v < 64)%nat.
Proof. unfold bucket_index. lia. Qed.

Lemma add64_mod a b : add64 (a mod 2 ^ 64) b = (a + b) mod 2 ^ 64.
Proof. unfold add64, wrap_add, u64_max. change (2 ^ 64 - 1 + 1) with (2 ^ 64). apply Zplus_mod_idemp_l. Qed.

Definition zsum (l : list Z) : Z := foldr Z.add 0 l.
Definition zmax (l : list Z) : Z := foldr Z.max 0 l.
Definition occurrences (P : Z -> Prop) `{!forall v, Decision (P v)} (l : list Z) : Z :=
  zlen (base.filter P l).

Lemma occurrences_snoc (P : Z -> Prop) `{!forall v, Decision (P v)} l v :
  occurrences P (l ++ [v]) = occurrences P l + if decide (P v) then 1 else 0.
Proof.
  unfold occurrences. rewrite filter_app, zlen_app. f_equal.
  case_decide; [rewrite filter_cons_True by done|rewrite filter_cons_False by done];
    now rewrite filter_nil.
Qed.

Lemma zsum_snoc l v : zsum (l ++ [v]) = zsum l + v.
Proof. unfold zsum. induction l; simpl; lia. Qed.
Lemma zmax_snoc l v : 0 <= v -> zmax (l ++ [v]) = Z.max (zmax l) v.
Proof. unfold zmax. induction l; simpl; lia. Qed.
Lemma zmax_nonneg l : 0 <= zmax l.
Proof. unfold zmax. induction l; simpl; lia. Qed.

(** A histogram is exactly the tally of its samples: bucket [i] holds the
    number of samples in [[2^i, 2^(i+1))] (zero counts with one), [count] their
    number and [sum] their sum, both modulo 2^64, and [max] the largest.  (The
    comments promise a saturating sum and a bucket of its own for zero.) *)
Theorem histogram_tally vs : Forall (fun v => 0 <= v <= u64_max) vs ->
  let h := foldl observe hist_default vs in
  length (buckets h) = 64%nat /\
  (forall i n, buckets h !! i = Some n -> n = occurrences (in_bucket i) vs mod 2 ^ 64) /\
  count h = zlen vs mod 2 ^ 64 /\ sum h = zsum vs mod 2 ^ 64 /\ max h = zmax vs.
Proof.
  cbv zeta. induction vs as [|v vs IH] using rev_ind; intros F.
  - split; [reflexivity|]. repeat split.
    intros i n [-> _]%lookup_replicate. reflexivity.
  - apply Forall_app in F as [F Fv]. apply Forall_cons in Fv as [Hv _].
    rewrite foldl_app. cbn [foldl]. destruct (IH F) as (HL & HB & HC & HS & HM).
    set (h := foldl observe hist_default vs) in *. unfold observe. cbn [buckets count sum max].
    rewrite length_alter, zlen_app, zsum_snoc, zmax_snoc, HC, HS, !add64_mod by lia.
    split; [done|]. split; [|repeat split].
    + intros i n Hn. rewrite occurrences_snoc.
      destruct (decide (bucket_index v = i)) as [E|E].
      * rewrite decide_True by now apply bucket_index_spec. subst i.
        rewrite list_lookup_alter_eq in Hn. apply fmap_Some in Hn as (m & Hm & ->).
        rewrite (HB _ _ Hm). apply add64_mod.
      * rewrite decide_False by (intros X; now apply E, bucket_index_spec).
        rewrite list_lookup_alter_ne in Hn by done. rewrite Z.add_0_r. now apply HB.
    + cbn [max_loop]. rewrite HM. destruct (Z.ltb_spec (zmax vs) v); lia.
Qed.

(** Whatever other threads store meanwhile, the loop leaves at least its value
    in the word, and what it leaves is its value or a maximum it found there. *)
Lemma max_loop_spec value turns : forall word,
  let final := max_loop value word turns word in
  value <= final /\ (final = value \/ final = word \/ Some final ∈ turns).
Proof.
  induction turns as [|[m|] turns IH]; intros word; cbn [max_loop].
  - destruct (Z.ltb_spec word value); split; auto; lia.
  - destruct (Z.ltb_spec word value); [|split; auto; lia].
    destruct (IH m) as [V W]. split; [done|]. rewrite elem_of_cons.
    destruct W as [W|[W|W]]; [auto|right; right; left; congruence|auto].
  - destruct (Z.ltb_spec word value); split; auto; lia.
Qed.

(** ** What the sink counts *)

Definition outcome_count (o : Outcome) (m : MethodMetrics) : Z :=
  match o with
  | OutOk => ok m | OutProtocolError => protocol_error m
  | OutTransport => transport_error m | OutInternal => internal_error m
  end.
Definition of_method (dynamic : bool) (m : string) (c : cdp_call) : Prop :=
  c_dynamic c = dynamic /\ c_method c = m.
#[export] Instance of_method_dec d m c : Decision (of_method d m c).
Proof. unfold of_method. apply _. Defined.

Lemma method_record_spec m lat o n o' :
  outcome_count o' (method_record m lat o n)
  = (if decide (o = o') then add64 (outcome_count o' m) 1 else outcome_count o' m) /\
  latency (method_record m lat o n) = latency m ++ [Z.min lat HIST_HIGH_US] /\
  m_retries (method_record m lat o n)
  = (if 1 <? n then add64 (m_retries m) (n - 1) else m_retries m).
Proof.
  unfold method_record, record_duration, record_micros, sat_sub.
  assert ((if lat <=? u64_max then lat else u64_max) `min` HIST_HIGH_US = lat `min` HIST_HIGH_US) as ->.
  { destruct (Z.leb_spec lat u64_max); [done|]. unfold HIST_HIGH_US, u64_max in *. lia. }
  assert ((0 <? Z.max 0 (n - 1)) = (1 <? n)) as -> by lia.
  destruct (Z.ltb_spec 1 n).
  - rewrite Z.max_r by lia. destruct o, o'; cbn; repeat split.
  - destruct o, o'; cbn; repeat split.
Qed.

(** The entry of a method holds the tally of its calls; methods never called
    have none. *)
Lemma sink_table_spec d m calls :
  let s := foldl sink_record sink_new calls in
  let mine := base.filter (of_method d m) calls in
  (if d then dynamic_methods s else methods s) !! m
  = if decide (mine = []) then None
    else Some (foldl (fun e c => method_record e (c_latency c) (c_outcome c) (c_attempts c)) method_new mine).
Proof.
  cbv zeta. induction calls as [|c calls IH] using rev_ind; [destruct d; apply lookup_empty|].
  rewrite foldl_app, filter_app. cbn [foldl]. set (s := foldl sink_record sink_new calls) in *.
  unfold sink_record, table_record.
  destruct (decide (of_method d m c)) as [[Hd Hm]|N].
  - rewrite filter_cons_True, filter_nil by done. rewrite (decide_False (P := _ ++ _ = [])) by (now intros ?%app_eq_nil).
    rewrite foldl_app. cbn [foldl]. subst d m.
    assert (forall t, <[c_method c := method_record (default method_new (t !! c_method c)) (c_latency c) (c_outcome c) (c_attempts c)]> t !! c_method c
             = Some (method_record (default method_new (t !! c_method c)) (c_latency c) (c_outcome c) (c_attempts c))) as L
      by (intros; apply lookup_insert_eq).
    destruct (c_dynamic c); cbn [methods dynamic_methods]; rewrite L, IH; case_decide as E;
      rewrite ?E; reflexivity.
  - rewrite filter_cons_False, filter_nil, app_nil_r by done. rewrite <- IH.
    unfold of_method in N. destruct d, (c_dynamic c) eqn:Ec; cbn [methods dynamic_methods]; try reflexivity;
      rewrite lookup_insert_ne by (intros E; apply N; auto); reflexivity.
Qed.

End Metrics.

Module MetricsExamples.
Import Metrics.

Definition demo_samples : list Z := [0; 1; 2; 3; 1024; u64_max].

Lemma histogram_tally_witness :
  let h := foldl observe hist_default demo_samples in
  buckets h !! 0%nat = Some 2 /\ buckets h !! 1%nat = Some 2 /\ buckets h !! 63%nat = Some 1 /\
  (length (buckets h) = 64%nat /\
   (forall i n, buckets h !! i = Some n -> n = occurrences (in_bucket i) demo_samples mod 2 ^ 64) /\
   count h = zlen demo_samples mod 2 ^ 64 /\ sum h = zsum demo_samples mod 2 ^ 64 /\
   max h = zmax demo_samples).
Proof.
  split; [vm_compute; reflexivity|]. split; [vm_compute; reflexivity|]. split; [vm_compute; reflexivity|].
  apply histogram_tally.
  repeat (apply Forall_cons; split; [vm_compute; split; discriminate|]). apply Forall_nil. exact I.
Defined.

(** The sum wraps: after these samples it is smaller than the largest of them. *)
Example sum_wraps :
  let h := foldl observe hist_default demo_samples in sum h = 1029 /\ max h = u64_max.
Proof. vm_compute. auto. Qed.

End MetricsExamples.
