(* ===== verification/Trace.v ===== *)
(** * Trace: recording, redaction, rotation and the manifest

    Models [observability/src/trace.rs] over the file system of [Fs]: the
    bounded buffer with its drop accounting and alarm, the redactor, the writer
    task with rotation, compression and manifest, the numbering of files on
    restart, and the blobs saved beside the trace.  The regex engine, the
    serializer, gzip, SHA-256 and HMAC are parameters.  Times are milliseconds. *)
From S2P Require Import Prelude Text Json Fs Metrics.
Import JsonTree Fs.

Module Trace.
Local Open Scope fs_scope.

Definition DEFAULT_MAX_BYTES : Z := 100 * 1024 * 1024.
Definition DEFAULT_MAX_AGE : Z := 3600 * 1000.
Definition TRACE_CHANNEL_CAP : Z := 1024.
Definition DROP_ALARM_WINDOW : Z := 60 * 1000.
Definition DROP_ALARM_THRESHOLD : Z := 100.
Definition HEADER_DENYLIST : list string :=
  ["cookie"; "set-cookie"; "authorization"; "proxy-authorization"; "x-api-key"; "api-key"; "x-auth-token";
   "password"; "passwd"; "secret"].
Definition REDACTED : string := "<REDACTED>".

Inductive TraceEvent : Type :=
| CdpRequest (ts_ms : Z) (session_id : string) (target_id : option string) (id : Z) (method : string) (params : json)
| CdpResponse (ts_ms : Z) (session_id : string) (target_id : option string) (id : Z) (result error : option json)
| CdpEvent (ts_ms : Z) (session_id : string) (target_id : option string) (method : string) (params : json)
| Action (ts_ms : Z) (session_id tab_id tool : string) (args result : json)
| Screenshot (ts_ms : Z) (session_id tab_id after_action png_path : string)
| DomSnapshot (ts_ms : Z) (session_id tab_id : string) (snapshot_seq : Z) (hash snapshot_path : string).

Definition kind (ev : TraceEvent) : string :=
  match ev with
  | CdpRequest _ _ _ _ _ _ => "cdp_request"
  | CdpResponse _ _ _ _ _ _ => "cdp_response"
  | CdpEvent _ _ _ _ _ => "cdp_event"
  | Action _ _ _ _ _ _ => "action"
  | Screenshot _ _ _ _ _ => "screenshot"
  | DomSnapshot _ _ _ _ _ _ => "dom_snapshot"
  end.

Record TraceOptions := mkOptions {
  max_bytes : Z; max_age : Z; buffer_cap : Z; redact_patterns : list string; hmac_key : option (list byte)
}.
Definition options_default : TraceOptions := mkOptions DEFAULT_MAX_BYTES DEFAULT_MAX_AGE TRACE_CHANNEL_CAP [] None.

(** ** Redaction *)

Definition lower_byte (b : byte) : byte :=
  let v := byte_val b in if Text.between 65 90 v then byte_of_Z (v + 32) else b.
Definition to_ascii_lowercase (s : string) : string :=
  String.string_of_list_byte (map lower_byte (String.list_byte_of_string s)).

Section Redact.
(** The regex engine: compiling a pattern, a set of patterns, replacing all matches. *)
Context {Regex : Type}.
Variable regex_new : string -> option Regex.
Variable set_new : list string -> option (string -> bool).
Variable replace_all : Regex -> string -> string -> string.

Record Redactor := mkRedactor { set : string -> bool; patterns : list Regex; header_denylist : list string }.

(** Patterns that do not compile are skipped. *)
Definition compile (ps : list string) : list (string * Regex) :=
  omap (fun p => option_map (pair p) (regex_new p)) ps.
Definition redactor_new (ps : list string) : option Redactor :=
  let compiled := compile ps in
  match set_new (map fst compiled) with
  | Some s => Some (mkRedactor s (map snd compiled) HEADER_DENYLIST)
  | None => None
  end.

Definition scrub_str (r : Redactor) (s : string) : string :=
  if bool_decide (length (patterns r) = 0%nat) || negb (set r s) then s
  else foldl (fun out rx => replace_all rx out REDACTED) s (patterns r).
Definition is_denylisted_key (r : Redactor) (key : string) : bool :=
  bool_decide (to_ascii_lowercase key ∈ header_denylist r).

Fixpoint redact_value (r : Redactor) (value : json) : json :=
  match value with
  | JStr s => JStr (scrub_str r s)
  | JArr arr => JArr (map (redact_value r) arr)
  | JObj kvs =>
      JObj (map (fun '(k, v) => (k, if is_denylisted_key r k then JStr REDACTED else redact_value r v)) kvs)
  | other => other
  end.

Definition redact_event (r : Redactor) (ev : TraceEvent) : TraceEvent :=
  match ev with
  | CdpRequest ts sid tid id m params => CdpRequest ts sid tid id m (redact_value r params)
  | CdpResponse ts sid tid id res err =>
      CdpResponse ts sid tid id (option_map (redact_value r) res) (option_map (redact_value r) err)
  | CdpEvent ts sid tid m params => CdpEvent ts sid tid m (redact_value r params)
  | Action ts sid tab tool args res => Action ts sid tab tool (redact_value r args) (redact_value r res)
  | Screenshot _ _ _ _ _ | DomSnapshot _ _ _ _ _ _ => ev
  end.

(** The redactor of a writer, from its options ([start_in_dir]). *)
Definition redactor_of (opts : TraceOptions) : option Redactor :=
  if bool_decide (redact_patterns opts = []) then None else redactor_new (redact_patterns opts).
(** What the writer serializes of an event. *)
Definition redacted (opts : TraceOptions) (ev : TraceEvent) : TraceEvent :=
  match redactor_of opts with Some r => redact_event r ev | None => ev end.

End Redact.

(** ** The buffer *)

Record Inner := mkInner {
  dropped : Z; shutting_down : bool; buffer : list TraceEvent; cap : Z;
  drop_window : list Z; drop_alarm_active : bool; screenshot_seq : Z
}.
Definition inner_new (opts : TraceOptions) : Inner := mkInner 0 false [] (Z.max (buffer_cap opts) 1) [] false 0.

Fixpoint trim_window (cutoff : Z) (w : list Z) : list Z :=
  match w with
  | front :: w' => if front <? cutoff then trim_window cutoff w' else w
  | [] => []
  end.
Definition note_drop_for_alarm (now : Z) (i : Inner) : Inner :=
  let cutoff := sat_sub now DROP_ALARM_WINDOW in
  let w := trim_window cutoff (drop_window i) ++ [now] in
  mkInner (dropped i) (shutting_down i) (buffer i) (cap i) w
    (drop_alarm_active i || (DROP_ALARM_THRESHOLD <=? zlen w)) (screenshot_seq i).

Definition record (now : Z) (ev : TraceEvent) (i : Inner) : Inner :=
  if shutting_down i then
    mkInner (wrap_add u64_max (dropped i) 1) true (buffer i) (cap i) (drop_window i) (drop_alarm_active i)
      (screenshot_seq i)
  else
    let i :=
      if cap i <=? zlen (buffer i) then
        note_drop_for_alarm now
          (mkInner (wrap_add u64_max (dropped i) 1) false (tail (buffer i)) (cap i) (drop_window i)
             (drop_alarm_active i) (screenshot_seq i))
      else i in
    mkInner (dropped i) (shutting_down i) (buffer i ++ [ev]) (cap i) (drop_window i) (drop_alarm_active i)
      (screenshot_seq i).
Definition clear_alarm (i : Inner) : Inner :=
  mkInner (dropped i) (shutting_down i) (buffer i) (cap i) (drop_window i) false (screenshot_seq i).
Definition begin_shutdown (i : Inner) : Inner :=
  mkInner (dropped i) true (buffer i) (cap i) (drop_window i) (drop_alarm_active i) (screenshot_seq i).
Definition pop (i : Inner) : option (TraceEvent * Inner) :=
  match buffer i with
  | [] => None
  | ev :: b => Some (ev, mkInner (dropped i) (shutting_down i) b (cap i) (drop_window i) (drop_alarm_active i)
                           (screenshot_seq i))
  end.

(** ** Names *)

Definition str (b : list byte) : string := String.string_of_list_byte b.
Definition jsonl_name (seq : Z) : string := str (Text.pad 4 seq) +:+ ".jsonl".
Definition gz_name (seq : Z) : string := jsonl_name seq +:+ ".gz".

Definition sanitize_char (c : Z) : Z :=
  if Text.between 97 122 c || Text.between 65 90 c || Text.between 48 57 c || (c =? 45) || (c =? 95) || (c =? 46)
  then c else 95.
Definition sanitize_for_filename (s : string) : string := str (Text.utf8_bytes (map sanitize_char (Text.str_chars s))).

(** [str::strip_suffix] *)
Definition strip_suffix (s suffix : string) : option string :=
  let b := String.list_byte_of_string s in
  let x := String.list_byte_of_string suffix in
  if bool_decide (x `suffix_of` b) then Some (str (take (length b - length x) b)) else None.
Definition names_in (dir : path) (m : FS) : list string :=
  omap (fun p => if bool_decide (parent p = dir) then last p else None) (map fst (map_to_list m)).
Definition file_seq (name : string) : option Z :=
  match strip_suffix name ".jsonl.gz" with
  | Some s => Text.parse_i64 (String.list_byte_of_string s)
  | None => match strip_suffix name ".jsonl" with Some s => Text.parse_i64 (String.list_byte_of_string s) | None => None end
  end.
Definition scan_step (highest : Z) (name : string) : Z :=
  match file_seq name with Some n => if highest <? n then n else highest | None => highest end.
Definition scan_next_seq (dir : path) (m : FS) : Z :=
  let highest := foldl scan_step (-1) (names_in dir m) in
  if highest <? 0 then 0 else sat_add u64_max highest 1.

(** ** Files *)

(** [.ok()] of a call whose value is used. *)
Definition attempt {A} (c : M A) : M (option A) :=
  fun w => match c w with (Ok a, w) => (Ok (Some a), w) | (Err _, w) => (Ok None, w) end.

Record CurrentFile := mkCurrent { cpath : path; bytes_written : Z; opened_at : Z; cseq : Z }.
Record ManifestFile := mkMf { mf_path : string; mf_bytes : Z; mf_sha256 : list byte; mf_gzipped : bool; mf_seq : Z }.

Section Writer.
Variable opts : TraceOptions.
Variable dir : path.
Variable session_id : string.
(** [serde_json::to_vec] of events and of values, gzip, SHA-256 and HMAC-SHA256 in hex. *)
Variable ser : TraceEvent -> option (list byte).
Variable ser_json : json -> option (list byte).
Variable gzip : list byte -> list byte.
Variable sha256_hex : list byte -> list byte.
Variable hmac_hex : list byte -> list byte -> list byte.
(** What is written of an event: [redacted] at the writer's options. *)
Variable redact : TraceEvent -> TraceEvent.

Definition write_event (c : CurrentFile) (ev : TraceEvent) : M CurrentFile :=
  match ser ev with
  | None => fail "serializing trace event"
  | Some b =>
      let bytes := b ++ [Byte.x0a] in
      append (cpath c) bytes ;;; sync ;;;
      ret (mkCurrent (cpath c) (sat_add u64_max (bytes_written c) (zlen bytes)) (opened_at c) (cseq c))
  end.

Definition should_rotate (now : Z) (c : CurrentFile) : bool :=
  (max_bytes opts <=? bytes_written c) || (max_age opts <=? now - opened_at c).

Definition add_suffix (p : path) (x : string) : path := with_file_name p (default "" (last p) +:+ x).
Definition gzip_file (src : path) : M path :=
  let dst := add_suffix src ".gz" in
  let dst_tmp := add_suffix dst ".tmp" in
  b <- read src ;;
  write dst_tmp [] ;;;
  append dst_tmp (gzip b) ;;;
  ignore sync ;;; ignore sync ;;;
  rename dst_tmp dst ;;;
  ignore (remove_file src) ;;;
  ret dst.

Definition manifest_for_closed (p : path) (seq bytes_hint : Z) (gzipped : bool) : M ManifestFile :=
  len <- gets (fun m => file_len m p) ;;
  contents <- read p ;;
  ret (mkMf (default "" (last p)) (default bytes_hint len) (sha256_hex contents) gzipped seq).

Definition open_seq (now seq : Z) : M CurrentFile :=
  let p := join dir (jsonl_name seq) in
  open_append p ;;;
  len <- gets (fun m => file_len m p) ;;
  ret (mkCurrent p (default 0 len) now seq).

(** [CurrentFile::shutdown] *)
Definition close : M unit := ignore sync ;;; ignore sync.

Definition rotate (now : Z) (prev : CurrentFile) : M (CurrentFile * option ManifestFile) :=
  close ;;;
  gz <- attempt (gzip_file (cpath prev)) ;;
  let '(mp, gzipped) := match gz with Some p => (p, true) | None => (cpath prev, false) end in
  closed <- attempt (manifest_for_closed mp (cseq prev) (bytes_written prev) gzipped) ;;
  next <- open_seq now (sat_add u64_max (cseq prev) 1) ;;
  ret (next, closed).

Definition mf_json (f : ManifestFile) : json :=
  JObj [("path", JStr (mf_path f)); ("bytes", JNum (mf_bytes f)); ("sha256", JStr (str (mf_sha256 f)));
        ("gzipped", JBool (mf_gzipped f)); ("seq", JNum (mf_seq f))].
Definition manifest_body (started now : Z) (files : list ManifestFile) : list (string * json) :=
  [("session_id", JStr session_id); ("started_ts_ms", JNum started); ("written_ts_ms", JNum now);
   ("files", JArr (map mf_json files))].
(** The bytes of the manifest: the body, signed over its own bytes when there is a key. *)
Definition manifest_bytes (started now : Z) (files : list ManifestFile) : option (list byte) :=
  let body := manifest_body started now files in
  match ser_json (JObj body) with
  | None => None
  | Some body_bytes =>
      match hmac_key opts with
      | Some k => ser_json (JObj (body ++ [("hmac", JStr (str (hmac_hex k body_bytes)))]))
      | None => Some body_bytes
      end
  end.
Definition write_manifest (started now : Z) (files : list ManifestFile) : M unit :=
  match manifest_bytes started now files with
  | None => ret tt
  | Some b => ignore (write (join dir "manifest.json.tmp") b ;;;
                      rename (join dir "manifest.json.tmp") (join dir "manifest.json"))
  end.

(** ** The writer task *)

Record Writer := mkWriter {
  current : CurrentFile; manifest_files : list ManifestFile; started_ts_ms : Z; latency : Metrics.LatencyHistogram
}.

Definition writer_start (now next_seq : Z) : M Writer :=
  c <- open_seq now next_seq ;;
  write_manifest now now [] ;;;
  ret (mkWriter c [] now []).

(** Rotation when it is due; its failure ends the task. *)
Definition maybe_rotate (now : Z) (w : Writer) : M Writer :=
  if should_rotate now (current w) then
    r <- rotate now (current w) ;;
    match r with
    | (next, Some closed) =>
        let files := manifest_files w ++ [closed] in
        write_manifest (started_ts_ms w) now files ;;;
        ret (mkWriter next files (started_ts_ms w) (latency w))
    | (next, None) => ret (mkWriter next (manifest_files w) (started_ts_ms w) (latency w))
    end
  else ret w.

(** Writing an event that was taken from the buffer; an error drops the event. *)
Definition emit (elapsed : Z) (ev : TraceEvent) (w : Writer) : M Writer :=
  c <- attempt (write_event (current w) (redact ev)) ;;
  ret (mkWriter (default (current w) c) (manifest_files w) (started_ts_ms w)
         (Metrics.record_duration (latency w) elapsed)).

Definition finish (now : Z) (w : Writer) : M unit :=
  let c := current w in
  close ;;;
  mf <- attempt (manifest_for_closed (cpath c) (cseq c) (bytes_written c) false) ;;
  let files := match mf with Some f => manifest_files w ++ [f] | None => manifest_files w end in
  write_manifest (started_ts_ms w) now files.

(** The task is in its loop, in the drain after the shutdown command, or done. *)
Inductive Task : Type := Running (w : Writer) | Draining (w : Writer) | Stopped.

(** [taken]: every event the task took from the buffer; no step reads it. *)
Record Tracer := mkTracer { inner : Inner; task : Task; disk : World; taken : list TraceEvent }.

(** The steps of callers and of the task, in the order they happen. *)
Inductive tstep : Type :=
| TRecord (now : Z) (ev : TraceEvent)
| TShutdown
| TPop (now elapsed : Z)
| TAge (now : Z)
| TSeeShutdown
| TFinalPop (elapsed : Z)
| TFinish (now : Z).

Definition run_task (c : M Writer) (back : Writer -> Task) (w : World) : Task * World :=
  match c w with (Ok x, w) => (back x, w) | (Err _, w) => (Stopped, w) end.

Definition do_tstep (s : tstep) (t : Tracer) : Tracer :=
  match s with
  | TRecord now ev => mkTracer (record now ev (inner t)) (task t) (disk t) (taken t)
  | TShutdown => mkTracer (begin_shutdown (inner t)) (task t) (disk t) (taken t)
  | TPop now elapsed =>
      match task t, pop (inner t) with
      | Running w, Some (ev, i) =>
          let '(k, d) := run_task (w <- maybe_rotate now w ;; emit elapsed ev w) Running (disk t) in
          mkTracer i k d (taken t ++ [ev])
      | _, _ => t
      end
  | TAge now =>
      match task t with
      | Running w =>
          let '(k, d) := run_task (maybe_rotate now w) Running (disk t) in mkTracer (inner t) k d (taken t)
      | _ => t
      end
  | TSeeShutdown =>
      match task t with
      | Running w => if shutting_down (inner t) then mkTracer (inner t) (Draining w) (disk t) (taken t) else t
      | _ => t
      end
  | TFinalPop elapsed =>
      match task t, pop (inner t) with
      | Draining w, Some (ev, i) =>
          let '(k, d) := run_task (emit elapsed ev w) Draining (disk t) in mkTracer i k d (taken t ++ [ev])
      | _, _ => t
      end
  | TFinish now =>
      match task t, pop (inner t) with
      | Draining w, None => mkTracer (inner t) Stopped (snd (finish now w (disk t))) (taken t)
      | _, _ => t
      end
  end.
Definition do_tsteps (ss : list tstep) (t : Tracer) : Tracer := foldl (fun t s => do_tstep s t) t ss.

(** [create_dir_secure] *)
Definition create_dir_secure (p : path) : M unit :=
  there <- gets (fun m => exists_ m p) ;; if negb there then create_dir_all p else ret tt.

(** The start of the task, numbered after the files that are there. *)
Definition start_task (now : Z) (w : World) : Tracer :=
  let '(k, d) := run_task (writer_start now (scan_next_seq dir (fs w))) Running w in
  mkTracer (inner_new opts) k d [].
(** [start_in_dir] *)
Definition start_in_dir (now : Z) (w : World) : option Tracer :=
  match (create_dir_secure dir ;;; create_dir_secure (join dir "screenshots") ;;;
         create_dir_secure (join dir "snapshots")) w with
  | (Err _, _) => None
  | (Ok _, w) => Some (start_task now w)
  end.

(** ** Blobs *)

Definition save_blob (i : Inner) (sub fname : string) (bytes : list byte) (w : World) : result string string * Inner * World :=
  let i := mkInner (dropped i) (shutting_down i) (buffer i) (cap i) (drop_window i) (drop_alarm_active i)
             (wrap_add u64_max (screenshot_seq i) 1) in
  let '(r, w) := (write (join (join dir sub) fname) [] ;;; append (join (join dir sub) fname) bytes ;;;
                  ignore sync ;;; ret (sub +:+ "/" +:+ fname)) w in
  (r, i, w).
Definition png_name (tool : string) (now seq : Z) : string :=
  sanitize_for_filename tool +:+ "-" +:+ str (Text.fmt_dec now) +:+ "-" +:+ str (Text.pad 6 seq) +:+ ".png".
Definition frame_name (ext : string) (now seq : Z) : string :=
  "vision.frame-" +:+ str (Text.fmt_dec now) +:+ "-" +:+ str (Text.pad 6 seq) +:+ "." +:+ sanitize_for_filename ext.
Definition save_screenshot_png (i : Inner) (tool : string) (now : Z) (png : list byte) (w : World) :=
  save_blob i "screenshots" (png_name tool now (screenshot_seq i)) png w.
Definition save_screencast_frame (i : Inner) (ext : string) (now : Z) (bytes : list byte) (w : World) :=
  save_blob i "screenshots" (frame_name ext now (screenshot_seq i)) bytes w.
Definition save_snapshot_json (snapshot_seq : Z) (v : json) : M (string * list byte) :=
  match ser_json v with
  | None => fail "serializing snapshot json"
  | Some bytes =>
      let fname := str (Text.pad 8 snapshot_seq) +:+ ".json" in
      let p := join (join dir "snapshots") fname in
      write p [] ;;; append p bytes ;;; ignore sync ;;; ret ("snapshots/" +:+ fname, sha256_hex bytes)
  end.

End Writer.

(** ** Redaction is complete *)

(** No key of the deny-list keeps a value, at any depth. *)
Fixpoint no_secret (v : json) : bool :=
  match v with
  | JArr l => forallb no_secret l
  | JObj kvs =>
      forallb (fun '(k, x) =>
        if bool_decide (to_ascii_lowercase k ∈ HEADER_DENYLIST)
        then match x with JStr s => bool_decide (s = REDACTED) | _ => false end
        else no_secret x) kvs
  | _ => true
  end.

Section RedactFacts.
Context {Regex : Type}.
Variable regex_new : string -> option Regex.
Variable set_new : list string -> option (string -> bool).
Variable is_match : Regex -> string -> bool.
Variable replace_all : Regex -> string -> string -> string.

(** Every pattern in turn, without the set. *)
Definition scrub_all (ps : list string) (s : string) : string :=
  foldl (fun out rx => replace_all rx out REDACTED) s (map snd (compile regex_new ps)).
Fixpoint reference_redact (ps : list string) (v : json) : json :=
  match v with
  | JStr s => JStr (scrub_all ps s)
  | JArr l => JArr (map (reference_redact ps) l)
  | JObj kvs =>
      JObj (map (fun '(k, x) => (k, if bool_decide (to_ascii_lowercase k ∈ HEADER_DENYLIST) then JStr REDACTED
                                    else reference_redact ps x)) kvs)
  | other => other
  end.

Lemma scrub_identity (rxs : list Regex) s : (forall rx t, is_match rx t = false -> replace_all rx t REDACTED = t) ->
  existsb (fun rx => is_match rx s) rxs = false -> foldl (fun out rx => replace_all rx out REDACTED) s rxs = s.
Proof.
  intros Hr. induction rxs as [|rx rxs IH]; cbn; [done|]. intros [E1 E2]%orb_false_iff. now rewrite (Hr rx s E1), IH.
Qed.

Lemma existsb_compile ps (s : string) :
  existsb (fun p => match regex_new p with Some rx => is_match rx s | None => false end)
    (map fst (compile regex_new ps)) =
  existsb (fun rx => is_match rx s) (map snd (compile regex_new ps)).
Proof.
  induction ps as [|p ps IH]; [done|].
  change (compile regex_new (p :: ps)) with
    (match option_map (pair p) (regex_new p) with
     | Some y => y :: compile regex_new ps | None => compile regex_new ps end).
  destruct (regex_new p) as [rx|] eqn:E; cbn [option_map]; [|exact IH].
  cbn [map existsb fst snd]. now rewrite E, IH.
Qed.

Lemma no_secret_reference ps v : no_secret (reference_redact ps v) = true.
Proof.
  induction v as [| | | | |l IH|kvs IH] using json_ind_strong; cbn; try done.
  - induction IH as [|v l Hv _ IH]; cbn; [done|]. now rewrite Hv, IH.
  - induction IH as [|[k v] l Hv _ IH]; cbn; [done|]. rewrite IH, andb_true_r.
    case_bool_decide; [now rewrite bool_decide_eq_true_2|exact Hv].
Qed.

(** C26: redaction is complete: whenever a redactor is built from the patterns,
    the value written has no value under a deny-listed key at any depth
    (compared without case), and every other string has been passed through
    every pattern that compiles, in order; looking at the pattern set first
    never lets a string through that some pattern matches. *)
Theorem redaction_complete ps r v :
  (forall l m, set_new l = Some m -> forall s,
     m s = existsb (fun p => match regex_new p with Some rx => is_match rx s | None => false end) l) ->
  (forall rx s, is_match rx s = false -> replace_all rx s REDACTED = s) ->
  redactor_new regex_new set_new ps = Some r ->
  redact_value replace_all r v = reference_redact ps v /\ no_secret (redact_value replace_all r v) = true.
Proof.
  intros Hset Hrep Er. assert (redact_value replace_all r v = reference_redact ps v) as E;
    [|split; [exact E|rewrite E; apply no_secret_reference]].
  unfold redactor_new in Er. destruct (set_new _) as [m|] eqn:Em; [|discriminate]. injection Er as <-.
  assert (forall s, scrub_str replace_all (mkRedactor m (map snd (compile regex_new ps)) HEADER_DENYLIST) s
                    = scrub_all ps s) as Hs.
  { intros s. unfold scrub_str, scrub_all. cbn [patterns set].
    destruct (bool_decide _) eqn:E0; cbn [orb].
    - apply bool_decide_eq_true, length_zero_iff_nil in E0. now rewrite E0.
    - rewrite (Hset _ _ Em), existsb_compile. destruct (existsb _ _) eqn:E1; cbn [negb]; [done|].
      symmetry. now apply scrub_identity. }
  induction v as [| | | | |l IH|kvs IH] using json_ind_strong; cbn [redact_value reference_redact]; try done.
  - now rewrite Hs.
  - f_equal. induction IH as [|v l Hv _ IH]; cbn [map]; [done|]. now rewrite Hv, IH.
  - f_equal. induction IH as [|[k v] l Hv _ IH]; cbn [map]; [done|]. rewrite IH. cbn [snd] in Hv. rewrite Hv. reflexivity.
Qed.

End RedactFacts.

(** ** Nothing is lost without being counted *)

(** The events recorded before the shutdown, and all of them. *)
Definition note_record (a : bool * list TraceEvent * Z) (s : tstep) : bool * list TraceEvent * Z :=
  let '(down, l, n) := a in
  match s with
  | TRecord _ ev => (down, if (down : bool) then l else l ++ [ev], n + 1)
  | TShutdown => (true, l, n)
  | _ => a
  end.
Definition recorded (ss : list tstep) : bool * list TraceEvent * Z := foldl note_record (false, [], 0) ss.

Section Accounting.
Variable opts : TraceOptions.
Variable dir : path.
Variable session_id : string.
Variable ser : TraceEvent -> option (list byte).
Variable ser_json : json -> option (list byte).
Variable gzip sha256_hex : list byte -> list byte.
Variable hmac_hex : list byte -> list byte -> list byte.
Variable redact : TraceEvent -> TraceEvent.
Abbreviation go := (do_tstep opts dir session_id ser ser_json gzip sha256_hex hmac_hex redact).

Record counts (a : bool * list TraceEvent * Z) (t : Tracer) : Prop := mkCounts {
  ct_down : shutting_down (inner t) = a.1.1;
  ct_order : taken t ++ buffer (inner t) `sublist_of` a.1.2;
  ct_recent : buffer (inner t) `suffix_of` a.1.2;
  ct_dropped : dropped (inner t) = (a.2 - zlen (taken t) - zlen (buffer (inner t))) mod (u64_max + 1);
  ct_cap : cap (inner t) = Z.max (buffer_cap opts) 1 /\ zlen (buffer (inner t)) <= cap (inner t)
}.

Lemma counts_pop a t ev i k d : counts a t -> pop (inner t) = Some (ev, i) ->
  counts a (mkTracer i k d (taken t ++ [ev])).
Proof.
  intros [C1 C2 C3 C4 [C5 C6]] E. unfold pop in E. destruct (buffer (inner t)) as [|e b] eqn:Eb; [discriminate|].
  injection E as <- <-. rewrite zlen_cons in C4, C6. pose proof (zlen_nonneg b).
  split; cbn [inner taken shutting_down buffer dropped cap]; rewrite ?zlen_app, ?zlen_cons, ?zlen_nil; try done.
  - now rewrite <- (assoc_L (++)).
  - etransitivity; [|exact C3]. now exists [e].
  - rewrite C4. f_equal. lia.
  - lia.
Qed.

Lemma counts_same a t k d : counts a t -> counts a (mkTracer (inner t) k d (taken t)).
Proof. intros [C1 C2 C3 C4 C5]. now split. Qed.

Lemma counts_record a t now ev : counts a t ->
  counts (note_record a (TRecord now ev)) (mkTracer (record now ev (inner t)) (task t) (disk t) (taken t)).
Proof.
  destruct a as [[down l] n]. intros [C1 C2 C3 C4 [C5 C6]]. cbn [fst snd] in *.
  assert (forall x, wrap_add u64_max (x mod (u64_max + 1)) 1 = (x + 1) mod (u64_max + 1)) as W
    by (intros x; unfold wrap_add; now rewrite Zplus_mod_idemp_l).
  cbn [note_record]. unfold record. rewrite C1. destruct down.
  { split; cbn [fst snd inner taken shutting_down buffer dropped cap]; try done. rewrite C4, W. f_equal. lia. }
  destruct (cap (inner t) <=? zlen (buffer (inner t))) eqn:Ec.
  - destruct (buffer (inner t)) as [|e b] eqn:Eb; [rewrite zlen_nil in Ec; lia|].
    rewrite zlen_cons in C4, C6, Ec.
    split; cbn [fst snd inner taken shutting_down buffer dropped cap note_drop_for_alarm tail];
      rewrite ?zlen_app, ?zlen_cons, ?zlen_nil; try done.
    + rewrite (assoc_L (++)). apply sublist_app; [|done]. etransitivity; [|exact C2].
      apply sublist_app; [done|]. apply sublist_cons. done.
    + destruct C3 as [pre ->]. exists (pre ++ [e]). now rewrite <- !(assoc_L (++)).
    + rewrite C4, W. f_equal. lia.
    + lia.
  - split; cbn [fst snd inner taken shutting_down buffer dropped cap];
      rewrite ?zlen_app, ?zlen_cons, ?zlen_nil; try done.
    + rewrite (assoc_L (++)). now apply sublist_app.
    + destruct C3 as [pre ->]. exists pre. now rewrite <- !(assoc_L (++)).
    + rewrite C4. f_equal. lia.
    + lia.
Qed.

Lemma counts_step a s t : counts a t -> counts (note_record a s) (go s t).
Proof.
  intros C. destruct s as [now ev| |now el|now| |el|now]; [now apply counts_record|..];
    destruct a as [[down l] n]; cbn [note_record do_tstep].
  - destruct C as [C1 C2 C3 C4 C5]. now split.
  - destruct (task t) as [w|w|]; try exact C. destruct (pop (inner t)) as [[ev i]|] eqn:E; [|exact C].
    destruct (run_task _ _ _) as [k d]. now apply counts_pop.
  - destruct (task t) as [w|w|]; try exact C. destruct (run_task _ _ _) as [k d]. now apply counts_same.
  - destruct (task t) as [w|w|]; try exact C. destruct (shutting_down _); [now apply counts_same|exact C].
  - destruct (task t) as [w|w|]; try exact C. destruct (pop (inner t)) as [[ev i]|] eqn:E; [|exact C].
    destruct (run_task _ _ _) as [k d]. now apply counts_pop.
  - destruct (task t) as [w|w|]; try exact C. destruct (pop (inner t)) as [[ev i]|]; [exact C|now apply counts_same].
Qed.

Lemma counts_steps ss : forall a t, counts a t ->
  counts (foldl note_record a ss) (do_tsteps opts dir session_id ser ser_json gzip sha256_hex hmac_hex redact ss t).
Proof. induction ss as [|s ss IH]; intros a t C; [exact C|]. apply IH. now apply counts_step. Qed.

(** C24: the trace accounts for every event.  However recording, the writer
    task, its failures and the shutdown interleave, the events the writer took
    followed by those still buffered are a subsequence, in order, of those
    recorded before the shutdown; what is buffered is the most recent part of
    them and never more than the capacity; and the drop counter is exactly the
    number of recorded events that are neither (modulo 2^64). *)
Theorem trace_accounting ss now w t0 :
  start_in_dir opts dir session_id ser_json hmac_hex now w = Some t0 ->
  let t := do_tsteps opts dir session_id ser ser_json gzip sha256_hex hmac_hex redact ss t0 in
  let '(_, before_shutdown, n) := recorded ss in
  taken t ++ buffer (inner t) `sublist_of` before_shutdown /\
  buffer (inner t) `suffix_of` before_shutdown /\
  zlen (buffer (inner t)) <= Z.max (buffer_cap opts) 1 /\
  dropped (inner t) = (n - zlen (taken t) - zlen (buffer (inner t))) mod (u64_max + 1).
Proof.
  intros E. cbv zeta. assert (counts (false, [], 0) t0) as C.
  { unfold start_in_dir in E. destruct (bind _ _ w) as [[u|e] w1]; [|discriminate].
    injection E as <-. unfold start_task. destruct (run_task _ _ w1) as [k d].
    split; cbn; try done. rewrite zlen_nil. lia. }
  apply (counts_steps ss) in C. unfold recorded in *. destruct (foldl note_record _ ss) as [[down l] n].
  destruct C as [_ C2 C3 C4 [C5 C6]]. cbn [fst snd] in *. rewrite <- C5. done.
Qed.

End Accounting.

(** ** File numbers *)

Lemma strip_suffix_app a x : strip_suffix (a +:+ x) x = Some a.
Proof.
  unfold strip_suffix. rewrite Text.list_byte_append, bool_decide_eq_true_2 by now eexists.
  rewrite length_app. assert (forall p q : nat, (p + q - q)%nat = p) as -> by lia.
  rewrite take_app_length. unfold str. now rewrite String.string_of_list_byte_of_string.
Qed.
Lemma strip_suffix_no a x y : last (String.list_byte_of_string x) <> last (String.list_byte_of_string y) ->
  String.list_byte_of_string x <> [] -> String.list_byte_of_string y <> [] -> strip_suffix (a +:+ x) y = None.
Proof.
  intros N Nx Ny. unfold strip_suffix. rewrite Text.list_byte_append, bool_decide_eq_false_2; [done|].
  intros [pre E]. apply N. apply (f_equal last) in E. rewrite !last_app in E.
  destruct (last (String.list_byte_of_string x)) eqn:Ex; [|now apply last_None in Ex].
  destruct (last (String.list_byte_of_string y)) eqn:Ey; [congruence|now apply last_None in Ey].
Qed.

Lemma parse_pad_str w n : 0 <= n < 2 ^ 63 -> Text.parse_i64 (String.list_byte_of_string (str (Text.pad w n))) = Some n.
Proof. intros Hn. unfold str. rewrite String.list_byte_of_string_of_list_byte. now apply Text.parse_i64_pad. Qed.

Lemma file_seq_jsonl n : 0 <= n < 2 ^ 63 -> file_seq (jsonl_name n) = Some n.
Proof.
  intros Hn. unfold file_seq, jsonl_name. rewrite (strip_suffix_no _ ".jsonl" ".jsonl.gz") by discriminate.
  rewrite strip_suffix_app. apply parse_pad_str; lia.
Qed.
Lemma file_seq_gz n : 0 <= n < 2 ^ 63 -> file_seq (gz_name n) = Some n.
Proof.
  intros Hn. unfold file_seq, gz_name, jsonl_name.
  assert (forall a, (a +:+ ".jsonl") +:+ ".gz" = a +:+ ".jsonl.gz") as ->.
  { intros a. induction a as [|c a IH]; [done|].
    change (String c ((a +:+ ".jsonl") +:+ ".gz") = String c (a +:+ ".jsonl.gz")). now rewrite IH. }
  rewrite strip_suffix_app. apply parse_pad_str; lia.
Qed.

Lemma scan_fold names : forall h, h <= foldl scan_step h names /\
  (forall name n, name ∈ names -> file_seq name = Some n -> n <= foldl scan_step h names).
Proof.
  induction names as [|x names IH]; intros h; cbn [foldl]; [split; [lia|intros ??[]%not_elem_of_nil]|].
  destruct (IH (scan_step h x)) as [A B].
  assert (h <= scan_step h x /\ (forall n, file_seq x = Some n -> n <= scan_step h x)) as [S1 S2].
  { unfold scan_step. destruct (file_seq x) as [n|]; [|split; [lia|discriminate]].
    destruct (h <? n) eqn:E; split; try lia; intros ? [= <-]; lia. }
  split; [lia|]. intros name n [->|Hin]%elem_of_cons Hn; [specialize (S2 n Hn); lia|now apply (B name)].
Qed.

Lemma names_in_spec dir m name x : m !! join dir name = Some x -> name ∈ names_in dir m.
Proof.
  intros Hx. unfold names_in. apply list_elem_of_omap. exists (join dir name). split.
  - apply list_elem_of_fmap. exists (join dir name, x). split; [done|]. now apply elem_of_map_to_list.
  - unfold join, parent. rewrite removelast_last, bool_decide_eq_true_2 by done. apply last_snoc.
Qed.

Lemma seq_fresh dir m n : scan_next_seq dir m <= n < 2 ^ 63 ->
  m !! join dir (jsonl_name n) = None /\ m !! join dir (gz_name n) = None.
Proof.
  intros [Hs Hn]. unfold scan_next_seq in Hs. destruct (scan_fold (names_in dir m) (-1)) as [A B].
  assert (0 <= n /\ foldl scan_step (-1) (names_in dir m) < n) as [H0 Hlt].
  { unfold sat_add, u64_max in Hs. destruct (_ <? 0) eqn:E in Hs; lia. }
  split; apply eq_None_not_Some; intros [x Hx]; apply names_in_spec in Hx.
  - specialize (B _ n Hx (file_seq_jsonl n ltac:(lia))). lia.
  - specialize (B _ n Hx (file_seq_gz n ltac:(lia))). lia.
Qed.

(** ** What the files hold *)

(** Names in one directory differ when they end differently. *)
Definition ending (s : string) : option byte := last (String.list_byte_of_string s).
Lemma ending_app a x c : ending x = Some c -> ending (a +:+ x) = Some c.
Proof. unfold ending. intros E. rewrite Text.list_byte_append, last_app, E. done. Qed.
Lemma ending_jsonl i : ending (jsonl_name i) = Some Byte.x6c.
Proof. now apply ending_app. Qed.
Lemma ending_gz i : ending (gz_name i) = Some Byte.x7a.
Proof. now apply ending_app. Qed.
Lemma ending_tmp s : ending (s +:+ ".tmp") = Some Byte.x70.
Proof. now apply ending_app. Qed.

Lemma join_ne dir a b : a <> b -> join dir a <> join dir b.
Proof. intros N [= E]%app_inv_head. done. Qed.
Lemma join_ending dir a b : ending a <> ending b -> join dir a <> join dir b.
Proof. intros N. apply join_ne. congruence. Qed.

Lemma str_inj a b : str a = str b -> a = b.
Proof.
  intros E. unfold str in E. rewrite <- (String.list_byte_of_string_of_list_byte a), E.
  apply String.list_byte_of_string_of_list_byte.
Qed.
Lemma jsonl_name_inj i j : 0 <= i -> 0 <= j -> jsonl_name i = jsonl_name j -> i = j.
Proof.
  intros Hi Hj E. apply (f_equal String.list_byte_of_string) in E. unfold jsonl_name in E.
  rewrite !Text.list_byte_append in E. apply app_inv_tail in E. apply (f_equal str) in E. unfold str in E.
  rewrite !String.string_of_list_byte_of_string in E. apply str_inj in E. now apply (Text.pad_inj 4).
Qed.
Lemma gz_name_inj i j : 0 <= i -> 0 <= j -> gz_name i = gz_name j -> i = j.
Proof.
  intros Hi Hj E. apply (f_equal String.list_byte_of_string) in E. unfold gz_name in E.
  rewrite !Text.list_byte_append in E. apply app_inv_tail in E. apply (f_equal str) in E. unfold str in E.
  rewrite !String.string_of_list_byte_of_string in E. now apply jsonl_name_inj.
Qed.

Lemma add_suffix_join dir a x : add_suffix (join dir a) x = join dir (a +:+ x).
Proof. unfold add_suffix, with_file_name, parent, join. now rewrite removelast_last, last_snoc. Qed.

Lemma triple_attempt {A : Type} (b : bool) (P : FS -> Prop) (c : M A) (Q : option A -> FS -> Prop) (E : FS -> Prop) :
  triple b P c (fun a => Q (Some a)) (Q None) -> triple b P (attempt c) Q E.
Proof. intros Hc w F Hw. unfold attempt. specialize (Hc w F Hw). destruct (c w) as [[a|e] w1]; exact Hc. Qed.

Section Disk.
Variable opts : TraceOptions.
Variable dir : path.
Variable session_id : string.
Variable ser : TraceEvent -> option (list byte).
Variable ser_json : json -> option (list byte).
Variable gzip gunzip sha256_hex : list byte -> list byte.
Variable hmac_hex : list byte -> list byte -> list byte.
Variable redact : TraceEvent -> TraceEvent.
Hypothesis gunzip_gzip : forall x, gunzip (gzip x) = x.

Abbreviation jf i := (join dir (jsonl_name i)).
Abbreviation gf i := (join dir (gz_name i)).

(** What file number [i] holds, plain or compressed, and files [first] to [last] together. *)
Definition segment (m : FS) (i : Z) : list byte :=
  match m !! jf i with
  | Some (FileN b) => b
  | _ => match m !! gf i with Some (FileN z) => gunzip z | _ => [] end
  end.
Definition trail (m : FS) (first last : Z) : list byte := concat (map (segment m) (seqZ first (last - first + 1))).
(** The line of an event. *)
Definition line (ev : TraceEvent) : list byte :=
  match ser (redact ev) with Some b => b ++ [Byte.x0a] | None => [] end.
Definition lines (evs : list TraceEvent) : list byte := concat (map line evs).

Lemma trail_ext m m' first last : (forall i, first <= i <= last -> segment m' i = segment m i) ->
  trail m' first last = trail m first last.
Proof.
  intros H. unfold trail. f_equal. apply map_ext_in. intros i Hi%list_elem_of_In%elem_of_seqZ. apply H. lia.
Qed.
Lemma trail_snoc m first last : first <= last + 1 ->
  trail m first (last + 1) = trail m first last ++ segment m (last + 1).
Proof.
  intros H. unfold trail. replace (last + 1 - first + 1) with ((last - first + 1) + 1) by lia.
  rewrite seqZ_app by lia. rewrite map_app, concat_app. f_equal.
  change (seqZ (first + (last - first + 1)) 1) with [Z.of_nat 0 + (first + (last - first + 1))].
  cbn [map concat]. rewrite app_nil_r. f_equal. lia.
Qed.
Lemma trail_last m first last : first <= last ->
  trail m first last = trail m first (last - 1) ++ segment m last.
Proof. intros H. pose proof (trail_snoc m first (last - 1)) as E. rewrite Z.sub_add in E. apply E. lia. Qed.
Lemma lines_snoc evs ev : lines (evs ++ [ev]) = lines evs ++ line ev.
Proof. unfold lines. rewrite map_app, concat_app. cbn. now rewrite app_nil_r. Qed.

(** The files against the current file [c] and the events [written]. *)
Record on_disk (first : Z) (c : CurrentFile) (written : list TraceEvent) (m : FS) : Prop := mkOn {
  od_path : cpath c = jf (cseq c);
  od_first : 0 <= first <= cseq c;
  od_file : exists b, m !! jf (cseq c) = Some (FileN b);
  od_fresh : forall i, cseq c < i < 2 ^ 63 -> m !! jf i = None;
  od_dir : m !! dir = Some DirN;
  od_trail : trail m first (cseq c) = lines written
}.

(** What holds of files that no step of the task but a rotation may touch. *)
Lemma jf_gf i j : jf i <> gf j.
Proof. apply join_ending. now rewrite ending_jsonl, ending_gz. Qed.
Lemma jf_ne i j : 0 <= i -> 0 <= j -> i <> j -> jf i <> jf j.
Proof. intros Hi Hj N. apply join_ne. intros E. now apply N, jsonl_name_inj. Qed.
Lemma gf_ne i j : 0 <= i -> 0 <= j -> i <> j -> gf i <> gf j.
Proof. intros Hi Hj N. apply join_ne. intros E. now apply N, gz_name_inj. Qed.
Lemma dir_ne x : dir <> join dir x.
Proof. intros E. apply (f_equal length) in E. unfold join in E. rewrite length_app in E. simpl in E. lia. Qed.

(** A step that keeps [dir] and every numbered file keeps [on_disk]. *)
Lemma on_disk_ext first c written m m' : on_disk first c written m ->
  m' !! dir = m !! dir -> (forall i, m' !! jf i = m !! jf i) -> (forall i, m' !! gf i = m !! gf i) ->
  on_disk first c written m'.
Proof.
  intros [H1 H2 H3 H4 H5 H6] Ed Ej Eg. split; try done.
  - destruct H3 as [b H3]. exists b. now rewrite Ej.
  - intros i Hi. rewrite Ej. auto.
  - congruence.
  - rewrite <- H6. apply trail_ext. intros i _. unfold segment. now rewrite Ej, Eg.
Qed.

Lemma write_manifest_triple b first c written started now files E :
  triple b (on_disk first c written) (write_manifest opts dir session_id ser_json hmac_hex started now files)
    (fun _ => on_disk first c written) E.
Proof.
  unfold write_manifest. destruct (manifest_bytes _ _ _ _ _ _ _) as [bs|]; [|now apply triple_ret].
  set (tmp := join dir "manifest.json.tmp"). set (mf := join dir "manifest.json").
  assert (forall p, (p = tmp \/ p = mf) -> p <> dir /\ (forall i, p <> jf i) /\ (forall i, p <> gf i)) as N.
  { intros p [-> | ->]; (split; [apply not_eq_sym, dir_ne|]); split; intros i; apply join_ending;
      rewrite ?ending_jsonl, ?ending_gz; discriminate. }
  assert (forall m p v, (p = tmp \/ p = mf) -> on_disk first c written m -> on_disk first c written (<[p := v]> m)) as KI.
  { intros m p v Hp H. destruct (N p Hp) as (? & ? & ?).
    apply (on_disk_ext _ _ _ m); [done|..]; intros; now rewrite lookup_insert_ne. }
  assert (forall m, on_disk first c written m -> on_disk first c written (delete tmp m)) as KD.
  { intros m H. destruct (N tmp (or_introl eq_refl)) as (? & ? & ?).
    apply (on_disk_ext _ _ _ m); [done|..]; intros; now rewrite lookup_delete_ne. }
  apply triple_ignore. eapply triple_bind.
  - apply (triple_op _ _ _ (fun _ => on_disk first c written)); [auto|]. intros m H. destruct (_ || _); [exact H|].
    apply KI; auto.
  - intros u. apply triple_op; [auto|]. intros m H. destruct (m !! tmp) as [[bs'|]|]; try exact H.
    destruct (_ || _); [exact H|]. apply KI; auto.
Qed.

(** *** Rotation *)

(** The files once [c] is closed. *)
Record closed_disk (first last : Z) (written : list TraceEvent) (m : FS) : Prop := mkClosed {
  cd_fresh : forall i, last < i < 2 ^ 63 -> m !! jf i = None;
  cd_dir : m !! dir = Some DirN;
  cd_trail : trail m first last = lines written
}.
Lemma on_closed first c written m : on_disk first c written m -> closed_disk first (cseq c) written m.
Proof. now intros [H1 H2 H3 H4 H5 H6]. Qed.

(** [on_disk] with the bytes of the current file. *)
Definition held first c written bts (m : FS) : Prop :=
  on_disk first c written m /\ m !! jf (cseq c) = Some (FileN bts).

Lemma held_insert first c written bts m x v : ending x <> Some Byte.x6c -> ending x <> Some Byte.x7a ->
  held first c written bts m -> held first c written bts (<[join dir x := v]> m).
Proof.
  intros N1 N2 [H Hb].
  assert (forall i, join dir x <> jf i) as Nj by (intros i; apply join_ending; now rewrite ending_jsonl).
  assert (forall i, join dir x <> gf i) as Ng by (intros i; apply join_ending; now rewrite ending_gz).
  split; [|now rewrite lookup_insert_ne].
  apply (on_disk_ext first c written m); [done|..]; intros; rewrite lookup_insert_ne; auto using not_eq_sym, dir_ne.
Qed.
Lemma held_delete first c written bts m x : ending x <> Some Byte.x6c -> ending x <> Some Byte.x7a ->
  held first c written bts m -> held first c written bts (delete (join dir x) m).
Proof.
  intros N1 N2 [H Hb].
  assert (forall i, join dir x <> jf i) as Nj by (intros i; apply join_ending; now rewrite ending_jsonl).
  assert (forall i, join dir x <> gf i) as Ng by (intros i; apply join_ending; now rewrite ending_gz).
  split; [|now rewrite lookup_delete_ne].
  apply (on_disk_ext first c written m); [done|..]; intros; rewrite lookup_delete_ne; auto using not_eq_sym, dir_ne.
Qed.

(** The compressed copy beside the current file changes no segment. *)
Lemma held_gz first c written bts m v : held first c written bts m ->
  held first c written bts (<[gf (cseq c) := v]> m).
Proof.
  intros [[H1 H2 H3 H4 H5 H6] Hb].
  assert (forall i, gf (cseq c) <> jf i) as Nj by (intros i; apply not_eq_sym, jf_gf).
  split; [|now rewrite lookup_insert_ne]. split; try done.
  - destruct H3 as [b H3]. exists b. now rewrite lookup_insert_ne.
  - intros i Hi. rewrite lookup_insert_ne by done. auto.
  - rewrite lookup_insert_ne by (apply not_eq_sym, dir_ne). done.
  - rewrite <- H6. apply trail_ext. intros i Hi. unfold segment. rewrite (lookup_insert_ne _ _ (jf i)) by done.
    destruct (decide (i = cseq c)) as [->|N]; [now rewrite Hb|].
    rewrite lookup_insert_ne by (apply not_eq_sym, gf_ne; lia). done.
Qed.

(** Removing the plain file once the copy is there. *)
Lemma held_remove first c written bts m : held first c written bts m ->
  m !! gf (cseq c) = Some (FileN (gzip bts)) -> closed_disk first (cseq c) written (delete (jf (cseq c)) m).
Proof.
  intros [[H1 H2 H3 H4 H5 H6] Hb] Hg. split.
  - intros i Hi. rewrite lookup_delete_ne by (apply jf_ne; lia). auto.
  - rewrite lookup_delete_ne by (apply not_eq_sym, dir_ne). done.
  - rewrite <- H6. apply trail_ext. intros i Hi. unfold segment.
    destruct (decide (i = cseq c)) as [->|N].
    + rewrite lookup_delete_eq, lookup_delete_ne by apply jf_gf. now rewrite Hg, Hb.
    + rewrite !lookup_delete_ne; [done|apply jf_gf|apply jf_ne; lia].
Qed.

Lemma sync_triple (b : bool) (P : FS -> Prop) (E : FS -> Prop) : (forall m, b = true -> P m -> E m) ->
  triple b P sync (fun _ => P) E.
Proof. intros H. apply triple_op; auto. Qed.

Lemma gzip_file_triple (b : bool) first c written :
  triple b (on_disk first c written) (gzip_file gzip (cpath c))
    (fun _ => closed_disk first (cseq c) written) (closed_disk first (cseq c) written).
Proof.
  unfold gzip_file. eapply triple_bind with (R := fun bts m => held first c written bts m).
  { apply triple_op; [intros m _; apply on_closed|]. intros m H. rewrite (od_path _ _ _ _ H).
    destruct (od_file _ _ _ _ H) as [bts Hb]. rewrite Hb. split; done. }
  intros bts. set (S := held first c written bts).
  assert (forall m, S m -> closed_disk first (cseq c) written m) as SC by (intros m [H _]; now apply on_closed).
  set (tmpn := gz_name (cseq c) +:+ ".tmp").
  assert (ending tmpn <> Some Byte.x6c /\ ending tmpn <> Some Byte.x7a) as [T1 T2]
    by (unfold tmpn; rewrite ending_tmp; split; discriminate).
  apply (triple_pure b (cpath c = jf (cseq c))); [intros m [H _]; exact (od_path _ _ _ _ H)|]. intros Ep.
  rewrite Ep, !add_suffix_join. fold (gz_name (cseq c)). fold tmpn.
  eapply triple_bind with (R := fun _ m => S m /\ m !! join dir tmpn = Some (FileN [])).
  { apply triple_op; [auto|]. intros m H. destruct (_ || _); [auto|].
    split; [now apply held_insert|apply lookup_insert_eq]. }
  intros _. eapply triple_bind with (R := fun _ m => S m /\ m !! join dir tmpn = Some (FileN (gzip bts))).
  { apply triple_op; [intros m _ [H _]; auto|]. intros m [H Ht]. unfold contents. rewrite Ht. cbn [app].
    split; [now apply held_insert|apply lookup_insert_eq]. }
  do 2 (intros _; eapply triple_bind with (R := fun _ m => S m /\ m !! join dir tmpn = Some (FileN (gzip bts)));
    [apply triple_ignore, sync_triple; auto|]). intros _.
  eapply triple_bind with (R := fun _ m => S m /\ m !! gf (cseq c) = Some (FileN (gzip bts))).
  { apply triple_op; [intros m _ [H _]; auto|]. intros m [H Ht]. rewrite Ht. destruct (_ || _); [auto|].
    split; [apply held_gz; now apply held_delete|apply lookup_insert_eq]. }
  intros _. eapply triple_bind with (R := fun _ => closed_disk first (cseq c) written); [|intros _; now apply triple_ret].
  apply triple_ignore, triple_op; [intros m _ [H _]; auto|]. intros m [H Hg].
  destruct (m !! jf (cseq c)) as [[bs|]|]; [now apply held_remove with bts|auto|auto].
Qed.

Lemma closed_opens first last written m : 0 <= first <= last + 1 -> last + 1 < 2 ^ 63 ->
  closed_disk first last written m ->
  is_dir m (jf (last + 1)) = false /\ parent_ok m (jf (last + 1)) = true /\
  forall c, cpath c = jf (last + 1) -> cseq c = last + 1 ->
    on_disk first c written (<[jf (last + 1) := FileN (contents m (jf (last + 1)))]> m).
Proof.
  intros Hf Hl [H1 H2 H3]. assert (m !! jf (last + 1) = None) as Hn by (apply H1; lia).
  split; [unfold is_dir; now rewrite Hn|]. split.
  { unfold parent_ok, is_dir, parent, join. rewrite removelast_last, H2. apply orb_true_r. }
  intros c Hp Hc. split; rewrite ?Hc; try done.
  - rewrite lookup_insert_eq. eauto.
  - intros i Hi. rewrite lookup_insert_ne by (apply jf_ne; lia). apply H1. lia.
  - rewrite lookup_insert_ne by (apply not_eq_sym, dir_ne). done.
  - rewrite trail_snoc by lia. unfold segment at 1. rewrite lookup_insert_eq. unfold contents. rewrite Hn, app_nil_r.
    rewrite <- H3. apply trail_ext. intros i Hi. unfold segment.
    rewrite (lookup_insert_ne _ _ (jf i)) by (apply jf_ne; lia). rewrite (lookup_insert_ne _ _ (gf i)) by apply jf_gf. done.
Qed.

(** An error is a fault, and leaves the trail of the closed file. *)
Definition failed (b : bool) first last written (m : FS) : Prop := b = true /\ closed_disk first last written m.

Lemma open_seq_triple (b : bool) first last written now : 0 <= first <= last + 1 -> last + 1 < 2 ^ 63 ->
  triple b (closed_disk first last written) (open_seq dir now (last + 1))
    (fun c m => on_disk first c written m /\ cseq c = last + 1) (failed b first last written).
Proof.
  intros Hf Hl. unfold open_seq.
  eapply triple_bind with (R := fun _ m => forall c, cpath c = jf (last + 1) -> cseq c = last + 1 -> on_disk first c written m).
  { apply triple_op; [intros m -> H; now split|]. intros m H.
    destruct (closed_opens first last written m Hf Hl H) as (-> & -> & K). exact K. }
  intros _. eapply triple_bind with (R := fun _ m => forall c, cpath c = jf (last + 1) -> cseq c = last + 1 -> on_disk first c written m).
  { now apply triple_gets. }
  intros len. apply triple_ret. intros m H. split; [now apply H|done].
Qed.

Lemma rotate_triple (b : bool) first c written now : cseq c + 1 < 2 ^ 63 ->
  triple b (on_disk first c written) (rotate dir gzip sha256_hex now c)
    (fun r m => on_disk first (fst r) written m /\ cseq (fst r) = cseq c + 1) (failed b first (cseq c) written).
Proof.
  intros Hs. apply (triple_pure b (0 <= first <= cseq c)); [intros m H; exact (od_first _ _ _ _ H)|]. intros Hf.
  unfold rotate. eapply triple_bind with (R := fun _ => on_disk first c written).
  { unfold close. eapply triple_bind with (R := fun _ => on_disk first c written);
      [|intros _]; apply triple_ignore, sync_triple; auto. }
  intros _. eapply triple_bind with (R := fun _ => closed_disk first (cseq c) written).
  { apply triple_attempt, gzip_file_triple. }
  intros gz. destruct (match gz with Some p => (p, true) | None => (cpath c, false) end) as [mp gzipped].
  eapply triple_bind with (R := fun _ => closed_disk first (cseq c) written).
  { apply triple_attempt. unfold manifest_for_closed.
    eapply triple_bind with (R := fun _ => closed_disk first (cseq c) written); [now apply triple_gets|]. intros len.
    eapply triple_bind with (R := fun _ => closed_disk first (cseq c) written); [|intros bs; now apply triple_ret].
    apply triple_op; [auto|]. intros m H. destruct (m !! mp) as [[]|]; exact H. }
  intros closed. assert (sat_add u64_max (cseq c) 1 = cseq c + 1) as -> by (unfold sat_add, u64_max; lia).
  eapply triple_bind; [apply open_seq_triple; lia|]. intros next. now apply triple_ret.
Qed.

Lemma maybe_rotate_triple (b : bool) first w written now : cseq (current w) + 1 < 2 ^ 63 ->
  triple b (on_disk first (current w) written)
    (maybe_rotate opts dir session_id ser_json gzip sha256_hex hmac_hex now w)
    (fun w' m => on_disk first (current w') written m /\ cseq (current w) <= cseq (current w') <= cseq (current w) + 1)
    (failed b first (cseq (current w)) written).
Proof.
  intros Hs. unfold maybe_rotate. destruct (should_rotate opts now (current w)).
  2: { apply triple_ret. intros m H. split; [done|lia]. }
  eapply triple_bind; [now apply rotate_triple|]. intros [next closed]. cbn [fst].
  apply (triple_pure b (cseq next = cseq (current w) + 1)); [now intros m [_ H]|]. intros Hn.
  apply triple_conseq with (P' := on_disk first next written)
    (Q' := fun w' m => on_disk first (current w') written m /\ cseq (current w) <= cseq (current w') <= cseq (current w) + 1)
    (E' := failed b first (cseq (current w)) written); try done; [|now intros m [H _]].
  destruct closed as [f|].
  - eapply triple_bind; [apply write_manifest_triple|]. intros u. apply triple_ret. intros m H. cbn [current]. split; [done|lia].
  - apply triple_ret. intros m H. cbn [current]. split; [done|lia].
Qed.

(** *** Writing *)

(** [written] after one more event was taken: it is there, or a fault lost it. *)
Definition after_event (b : bool) (written : list TraceEvent) (ev : TraceEvent) (written' : list TraceEvent) : Prop :=
  written' = written ++ [ev] \/ (b = true /\ written' = written).

Lemma on_disk_append first c written ev m bts x : m !! jf (cseq c) = Some (FileN bts) ->
  ser (redact ev) = Some x -> on_disk first c written m ->
  on_disk first c (written ++ [ev]) (<[jf (cseq c) := FileN (bts ++ x ++ [Byte.x0a])]> m).
Proof.
  intros Hb Hx [H1 H2 H3 H4 H5 H6]. split; try done.
  - rewrite lookup_insert_eq. eauto.
  - intros i Hi. rewrite lookup_insert_ne by (apply jf_ne; lia). auto.
  - rewrite lookup_insert_ne by (apply not_eq_sym, dir_ne). done.
  - rewrite lines_snoc, <- H6. unfold line. rewrite Hx.
    rewrite !(trail_last _ first (cseq c)) by lia.
    assert (segment m (cseq c) = bts) as -> by (unfold segment; now rewrite Hb).
    assert (segment (<[jf (cseq c):=FileN (bts ++ x ++ [Byte.x0a])]> m) (cseq c) = bts ++ x ++ [Byte.x0a]) as ->
      by (unfold segment; now rewrite lookup_insert_eq).
    rewrite !(assoc_L (++)). do 3 f_equal.
    apply trail_ext. intros i Hi. unfold segment. rewrite (lookup_insert_ne _ _ (jf i)) by (apply jf_ne; lia).
    now rewrite (lookup_insert_ne _ _ (gf i)) by apply jf_gf.
Qed.

(** [on_disk] speaks of a file's path and number only. *)
Lemma on_disk_same first c c' written m : cpath c' = cpath c -> cseq c' = cseq c ->
  on_disk first c written m -> on_disk first c' written m.
Proof. intros Ep Es [H1 H2 H3 H4 H5 H6]. split; rewrite ?Ep, ?Es; done. Qed.

Lemma emit_triple (b : bool) first w written elapsed ev E :
  triple b (on_disk first (current w) written) (emit ser redact elapsed ev w)
    (fun w' m => cseq (current w') = cseq (current w) /\
       exists written', after_event b written ev written' /\ on_disk first (current w') written' m) E.
Proof.
  unfold emit. set (c := current w).
  eapply triple_bind with (R := fun oc m => let c' := default c oc in cseq c' = cseq c /\
    exists written', after_event b written ev written' /\ on_disk first c' written' m).
  2: { intros oc. apply triple_ret. intros m H. exact H. }
  apply triple_attempt. unfold write_event. destruct (ser (redact ev)) as [x|] eqn:Ex.
  2: { apply triple_fail. intros m H. cbn. split; [done|]. exists (written ++ [ev]). split; [now left|].
       destruct H as [H1 H2 H3 H4 H5 H6]. split; try done. rewrite lines_snoc, H6. unfold line. now rewrite Ex, app_nil_r. }
  eapply triple_bind with (R := fun _ => on_disk first c (written ++ [ev])).
  { apply triple_op.
    - intros m Hb H. cbn. split; [done|]. exists written. split; [now right|done].
    - intros m H. rewrite (od_path _ _ _ _ H). destruct (od_file _ _ _ _ H) as [bts Hb].
      unfold contents. rewrite Hb. now apply on_disk_append. }
  intros _. eapply triple_bind with (R := fun _ => on_disk first c (written ++ [ev])).
  { apply triple_op; [|auto]. intros m _ H. cbn. split; [done|]. exists (written ++ [ev]). split; [now left|done]. }
  intros _. apply triple_ret. intros m H. cbn. split; [done|]. exists (written ++ [ev]). split; [now left|].
  now apply (on_disk_same first c).
Qed.

(** *** All steps *)

Definition kept_events (b : bool) (written taken : list TraceEvent) : Prop :=
  if b then written `sublist_of` taken else written = taken.
Lemma kept_after b written tk ev written' : kept_events b written tk -> after_event b written ev written' ->
  kept_events b written' (tk ++ [ev]).
Proof.
  intros K [-> | [-> ->]]; [destruct b|]; cbn in *.
  - now apply sublist_app.
  - congruence.
  - etransitivity; [exact K|]. now apply sublist_inserts_r.
Qed.

Definition task_ok (b : bool) (first n : Z) (k : Task) (m : FS) (tk : list TraceEvent) : Prop :=
  match k with
  | Running w | Draining w =>
      cseq (current w) <= first + n /\
      exists written, kept_events b written tk /\ on_disk first (current w) written m
  | Stopped => exists written last, kept_events b written tk /\ trail m first last = lines written
  end.
Definition tracer_ok (b : bool) (first n : Z) (t : Tracer) : Prop :=
  (b = false -> faults (disk t) = []) /\ task_ok b first n (task t) (fs (disk t)) (taken t).

(** Running a part of the task whose errors are faults. *)
Lemma run_task_ok (b : bool) first n (P : FS -> Prop) (c : M Writer) (Q : Writer -> FS -> Prop) (E : FS -> Prop) back w i tk :
  triple b P c Q E -> (back = Running \/ back = Draining) -> (b = false -> faults w = []) -> P (fs w) ->
  (forall x m, Q x m -> task_ok b first n (Running x) m tk) ->
  (forall m, E m -> task_ok b first n Stopped m tk) ->
  tracer_ok b first n (let '(k, d) := run_task c back w in mkTracer i k d tk).
Proof.
  intros T Hb F Hw HQ HE. unfold run_task. specialize (T w F Hw). destruct (c w) as [[x|e] w'].
  - destruct T as [F' H]. split; [exact F'|]. destruct Hb as [-> | ->]; now apply HQ.
  - destruct T as [F' H]. split; [exact F'|]. now apply HE.
Qed.

Lemma task_ok_weaken b first n n' k m tk : n <= n' -> task_ok b first n k m tk -> task_ok b first n' k m tk.
Proof. intros Hn. destruct k; cbn; [intros [? ?]; split; [lia|done]..|done]. Qed.

Lemma failed_stopped b first last written m tk ev : failed b first last written m ->
  kept_events b written tk -> forall n, task_ok b first n Stopped m (tk ++ ev).
Proof.
  intros [-> [_ _ H]] K n. exists written, last. split; [|exact H]. cbn in *. now apply sublist_inserts_r.
Qed.

Lemma pop_triple (b : bool) first n w written now elapsed ev tk : cseq (current w) <= first + n -> first + n + 1 < 2 ^ 63 ->
  kept_events b written tk ->
  triple b (on_disk first (current w) written)
    (x <- maybe_rotate opts dir session_id ser_json gzip sha256_hex hmac_hex now w ;; emit ser redact elapsed ev x)
    (fun x m => task_ok b first (n + 1) (Running x) m (tk ++ [ev]))
    (fun m => task_ok b first (n + 1) Stopped m (tk ++ [ev])).
Proof.
  intros Hc Hn K. eapply triple_bind.
  { apply triple_conseq with (1 := maybe_rotate_triple b first w written now ltac:(lia)); [done| |].
    - intros x m H. exact H.
    - intros m H. exact (failed_stopped _ _ _ _ _ tk [ev] H K (n + 1)). }
  intros x. cbn beta. apply (triple_pure b (cseq (current x) <= first + n + 1)); [intros m [_ H]; lia|]. intros Hx.
  eapply triple_conseq with (1 := emit_triple b first x written elapsed ev (fun _ => False)); [now intros m [H _]| |done].
  intros y m (Hy & written' & Ha & H). split; [lia|]. exists written'. split; [|exact H]. now apply kept_after with written.
Qed.

Lemma finish_triple (b : bool) first w written now :
  triple b (on_disk first (current w) written)
    (finish opts dir session_id ser_json sha256_hex hmac_hex now w)
    (fun _ m => trail m first (cseq (current w)) = lines written)
    (fun m => trail m first (cseq (current w)) = lines written).
Proof.
  set (J := on_disk first (current w) written).
  assert (forall m, J m -> trail m first (cseq (current w)) = lines written) as JT by (intros m H; exact (od_trail _ _ _ _ H)).
  unfold finish. eapply triple_bind with (R := fun _ => J).
  { unfold close. eapply triple_bind with (R := fun _ => J); [|intros _]; apply triple_ignore, sync_triple; auto. }
  intros _. eapply triple_bind with (R := fun _ => J).
  { apply triple_attempt. unfold manifest_for_closed. eapply triple_bind with (R := fun _ => J); [now apply triple_gets|].
    intros len. eapply triple_bind with (R := fun _ => J); [|intros bs; now apply triple_ret].
    apply triple_op; [auto|]. intros m H. destruct (m !! cpath (current w)) as [[]|]; exact H. }
  intros mf. apply triple_conseq with (1 := write_manifest_triple b first (current w) written _ now _ (fun _ => False)); auto.
  contradiction.
Qed.

Abbreviation go := (do_tstep opts dir session_id ser ser_json gzip sha256_hex hmac_hex redact).

Lemma step_ok b first n s t : first + n + 1 < 2 ^ 63 -> tracer_ok b first n t -> tracer_ok b first (n + 1) (go s t).
Proof.
  intros Hn [F K].
  assert (forall i, tracer_ok b first (n + 1) (mkTracer i (task t) (disk t) (taken t))) as Same.
  { intros i. split; [exact F|]. apply task_ok_weaken with n; [lia|exact K]. }
  assert (tracer_ok b first (n + 1) t) as Same' by (destruct t; apply (Same inner0)).
  destruct s as [now ev| |now el|now| |el|now]; cbn [do_tstep]; try apply Same.
  - destruct (task t) as [w|w|] eqn:Et; try exact Same'. destruct (pop (inner t)) as [[ev i]|]; [|exact Same'].
    destruct K as (Hc & written & Kw & Hd).
    now apply run_task_ok with (1 := pop_triple b first n w written now el ev (taken t) Hc Hn Kw); auto.
  - destruct (task t) as [w|w|] eqn:Et; try exact Same'. destruct K as (Hc & written & Kw & Hd).
    apply run_task_ok with (1 := maybe_rotate_triple b first w written now ltac:(lia)); auto.
    + intros x m [H Hx]. split; [lia|]. now exists written.
    + intros m H. pose proof (failed_stopped _ _ _ _ _ (taken t) [] H Kw (n + 1)) as S. now rewrite app_nil_r in S.
  - destruct (task t) as [w|w|] eqn:Et; try exact Same'. destruct (shutting_down _); [|exact Same'].
    split; [exact F|]. apply (task_ok_weaken b first n (n + 1) (Running w)); [lia|exact K].
  - destruct (task t) as [w|w|] eqn:Et; try exact Same'. destruct (pop (inner t)) as [[ev i]|]; [|exact Same'].
    destruct K as (Hc & written & Kw & Hd).
    apply run_task_ok with (1 := emit_triple b first w written el ev (fun _ => False)); auto; [|contradiction].
    intros x m (Hx & written' & Ha & H). split; [lia|]. exists written'. split; [now apply kept_after with written|done].
  - destruct (task t) as [w|w|] eqn:Et; try exact Same'. destruct (pop (inner t)) as [[ev i]|]; [exact Same'|].
    destruct K as (Hc & written & Kw & Hd). pose proof (finish_triple b first w written now (disk t) F Hd) as T.
    destruct (finish _ _ _ _ _ _ _ _ (disk t)) as [[u|e] w']; destruct T as [F' T];
      (split; [exact F'|exists written, (cseq (current w)); split; done]).
Qed.

Lemma steps_ok b first ss : forall n t, first + n + zlen ss < 2 ^ 63 -> tracer_ok b first n t ->
  tracer_ok b first (n + zlen ss) (do_tsteps opts dir session_id ser ser_json gzip sha256_hex hmac_hex redact ss t).
Proof.
  induction ss as [|s ss IH]; intros n t Hn K; [now rewrite zlen_nil, Z.add_0_r|].
  rewrite zlen_cons in *. pose proof (zlen_nonneg ss). cbn [do_tsteps foldl].
  replace (n + (1 + zlen ss)) with ((n + 1) + zlen ss) by lia. apply IH; [lia|]. apply step_ok; [lia|exact K].
Qed.

Lemma start_ok b now w : dir <> [] -> (b = false -> faults w = []) -> fs w !! dir = Some DirN ->
  scan_next_seq dir (fs w) < 2 ^ 63 ->
  tracer_ok b (scan_next_seq dir (fs w)) 0 (start_task opts dir session_id ser_json hmac_hex now w).
Proof.
  intros Nd F Hd Hs. set (first := scan_next_seq dir (fs w)) in *. unfold start_task. fold first.
  assert (0 <= first) as H0.
  { unfold first, scan_next_seq. destruct (_ <? 0) eqn:E; [lia|]. unfold sat_add, u64_max. lia. }
  assert (closed_disk first (first - 1) [] (fs w)) as C.
  { split; [|exact Hd|].
    - intros i Hi. now apply seq_fresh; fold first; lia.
    - unfold trail. now replace (first - 1 - first + 1) with 0 by lia. }
  apply run_task_ok with (P := closed_disk first (first - 1) [])
    (Q := fun x m => on_disk first (current x) [] m /\ cseq (current x) = first) (E := failed b first (first - 1) []); auto.
  - unfold writer_start. pose proof (open_seq_triple b first (first - 1) [] now ltac:(lia) ltac:(lia)) as T.
    rewrite Z.sub_add in T. eapply triple_bind; [exact T|]. intros c. cbn beta.
    apply (triple_pure b (cseq c = first)); [now intros m [_ ?]|]. intros Hc.
    eapply triple_bind with (R := fun _ => on_disk first c []).
    + eapply triple_conseq; [apply (write_manifest_triple b first c [] now now [])|now intros m [? _]|done|]. intros m H. exact H.
    + intros u. apply triple_ret. intros m H. now split.
  - intros x m [H Hx]. split; [lia|]. exists []. split; [now destruct b|done].
  - intros m H. exact (failed_stopped _ _ _ _ _ [] [] H ltac:(now destruct b) 0).
Qed.

End Disk.


(** ** Blob names *)

Lemma pad_no_dash w n : 0 <= n -> Byte.x2d ∉ Text.pad w n.
Proof.
  intros Hn Hin. pose proof (Text.pad_dec w n Hn) as D. rewrite Forall_forall in D. specialize (D _ Hin). discriminate D.
Qed.

(** Screenshots of one writer have different names, whatever the tools and the clock. *)
Lemma png_names_differ tool tool' now now' s s' : 0 <= s -> 0 <= s' -> s <> s' ->
  png_name tool now s <> png_name tool' now' s'.
Proof.
  intros Hs Hs' N E. apply N. unfold png_name in E. apply (f_equal String.list_byte_of_string) in E.
  rewrite !Text.list_byte_append in E. change (String.list_byte_of_string "-") with [Byte.x2d] in E.
  rewrite !(assoc_L (++)) in E. apply app_inv_tail in E.
  unfold str in E. rewrite !String.list_byte_of_string_of_list_byte in E.
  rewrite <- !(assoc_L (++) _ [Byte.x2d] (Text.pad 6 _)) in E. cbn [app] in E.
  apply split_at_last_sep in E as [_ E]; [|now apply pad_no_dash..]. now apply (Text.pad_inj 6).
Qed.

End Trace.

(** ** Runs *)

Module TraceExamples.
Import Trace.

(** A regex that is a literal, matched against whole strings. *)
Definition lit_new (p : string) : option string := Some p.
Definition lit_match (rx s : string) : bool := bool_decide (s = rx).
Definition lit_replace (rx s by_ : string) : string := if bool_decide (s = rx) then by_ else s.
Definition lit_set (ps : list string) : option (string -> bool) := Some (fun s => existsb (fun p => lit_match p s) ps).

Definition login : json :=
  JObj [("Cookie", JStr "sid=1"); ("user", JStr "bob"); ("note", JArr [JStr "4111"; JObj [("Password", JNum 7)]])].

Lemma redaction_complete_witness :
  exists r, redactor_new lit_new lit_set ["4111"] = Some r /\
    redact_value lit_replace r login =
      JObj [("Cookie", JStr REDACTED); ("user", JStr "bob");
            ("note", JArr [JStr REDACTED; JObj [("Password", JStr REDACTED)]])] /\
    no_secret (redact_value lit_replace r login) = true.
Proof.
  destruct (redactor_new lit_new lit_set ["4111"]) as [r|] eqn:E; [|discriminate E].
  exists r. split; [reflexivity|].
  destruct (redaction_complete lit_new lit_set lit_match lit_replace ["4111"] r login) as [E1 E2];
    [|intros rx s Hm; unfold lit_match in Hm; unfold lit_replace; now rewrite Hm|exact E|].
  - intros l m [= <-] s. reflexivity.
  - split; [rewrite E1; vm_compute; reflexivity|exact E2].
Defined.

(** Without patterns there is no redactor, so deny-listed keys are written as they are. *)
Example no_patterns_no_redaction :
  redacted lit_new lit_set lit_replace options_default (CdpEvent 0 "s" None "m" login) = CdpEvent 0 "s" None "m" login.
Proof. reflexivity. Qed.

(** The window of drops is bounded by time only: 300 drops within one
    millisecond are all kept. *)
Example drop_window_grows :
  let i := inner_new (mkOptions 10 10 1 [] None) in
  zlen (drop_window (foldl (fun i ev => record 5 ev i) i (replicate 301 (CdpEvent 0 "s" None "m" JNull)))) = 300.
Proof. vm_compute. reflexivity. Qed.

Definition ev_n (n : Z) : TraceEvent := CdpEvent n "s" None "m" (JNum n).
Definition ser_n (ev : TraceEvent) : option (list byte) := Some (String.list_byte_of_string (kind ev)).
Definition ser_j (v : json) : option (list byte) := Some [].
Definition opts_small : TraceOptions := mkOptions 12 1000 2 [] None.
Definition tdir : path := ["home"; "trace"].
Definition world0 : World := mkWorld (<[tdir := DirN]> (<[["home"] := DirN]> ∅)) [].
(** Three events into a buffer of two, two taken with a rotation in between, then the end. *)
Definition script : list tstep :=
  [TRecord 1 (ev_n 1); TRecord 2 (ev_n 2); TRecord 3 (ev_n 3); TPop 4 0; TPop 2000 0; TShutdown; TRecord 5 (ev_n 4);
   TSeeShutdown; TFinish 6].
Definition tracer0 : Tracer := start_task opts_small tdir "s" ser_j (fun _ _ => []) 0 world0.
Definition tracer9 : Tracer := do_tsteps opts_small tdir "s" ser_n ser_j id id (fun _ _ => []) id script tracer0.

Lemma trace_accounting_witness :
  exists t0, start_in_dir opts_small tdir "s" ser_j (fun _ _ => []) 0 world0 = Some t0 /\
    dropped (inner (do_tsteps opts_small tdir "s" ser_n ser_j id id (fun _ _ => []) id script t0)) = 2 /\
    zlen (buffer (inner (do_tsteps opts_small tdir "s" ser_n ser_j id id (fun _ _ => []) id script t0))) <= 2.
Proof.
  destruct (start_in_dir opts_small tdir "s" ser_j (fun _ _ => []) 0 world0) as [t0|] eqn:E; [|vm_compute in E; discriminate E].
  exists t0. split; [reflexivity|].
  pose proof (trace_accounting opts_small tdir "s" ser_n ser_j id id (fun _ _ => []) id script 0 world0 t0 E) as A.
  cbv zeta in A. destruct (recorded script) as [[down l] n]. destruct A as (_ & _ & Hb & _).
  split; [|exact Hb].
  assert (match start_in_dir opts_small tdir "s" ser_j (fun _ _ => []) 0 world0 with
          | Some t => dropped (inner (do_tsteps opts_small tdir "s" ser_n ser_j id id (fun _ _ => []) id script t))
          | None => 0 end = 2) as D by (vm_compute; reflexivity).
  now rewrite E in D.
Defined.


(** The two files of that run. *)
Example script_files :
  taken tracer9 = [ev_n 2; ev_n 3] /\
  exists_ (fs (disk tracer9)) (join tdir "0000.jsonl") = false /\
  exists_ (fs (disk tracer9)) (join tdir "0000.jsonl.gz") = true /\
  exists_ (fs (disk tracer9)) (join tdir "0001.jsonl") = true.
Proof. vm_compute. repeat split; reflexivity. Qed.

End TraceExamples.
