(* ===== verification/CdpConn.v ===== *)
(** * cdp-client: sessions and the connection actors

    [connection.rs] ([ConnectionState], [dispatch], the reader actor's
    shutdown) and [session.rs] ([CdpSession::send_inner_value]).

    A [CdpSession] is a shared object ([Arc<SessionInner>]): sessions live in
    a heap and the connection's map holds references, so that a handle kept by
    a caller and the map's entry are the same object. A oneshot channel is a
    token with its state. The awaiting half of a send is a separate
    operation, so that other operations can run between the two. *)
From S2P Require Import Prelude.
From S2P Require Import Json.
From S2P Require Import Retry.

Module CdpConn.

Definition EVENTS_CAPACITY : Z := 4096.
Definition PER_TARGET_CAPACITY : Z := 1024.
Definition WRITER_CAPACITY : Z := 1024.

(** [SessionId]: the root session is the empty string. *)
Definition SessionId := string.
Definition root_id : string := EmptyString.
Definition is_root (s : string) : bool := bool_decide (s = EmptyString).

Section Conn.
Context {Value Event Sink : Type} `{JsonView Value}.
(** [serde_json::from_value::<CdpEvent>] over the generated event enum. *)
Context (event_of_frame : Value -> option Event).

Abbreviation reply := (result Value (CdpError Value)).

(** The JSON object a send writes: [sessionId] only off the root session. *)
Record Outbound := mkOutbound {
  o_id : Z; o_method : string; o_params : Value; o_session : option string
}.

Record SessionInner := mkSession {
  s_id : string;
  s_next_id : Z;
  s_events_cap : Z;
  s_events : list Event;      (* what was sent on the broadcast channel *)
  s_metrics : option Sink
}.

Inductive chan_state : Type :=
| Open
| Sent (r : reply)
| Dropped.

(** A oneshot with the request it was created for. *)
Record chan := mkChan { ch_id : Z; ch_session : string; ch_state : chan_state }.

Record ConnectionState := mkConn {
  pending : gmap Z nat;             (* request id -> token of its oneshot *)
  sessions : gmap string nat;       (* session id -> session reference *)
  root : nat;
  heap : gmap nat SessionInner;
  chans : gmap nat chan;
  next_ref : nat;
  next_tok : nat;
  writer : list Outbound;
  writer_open : bool;
  metrics : option Sink
}.

Definition session_new (id : string) : SessionInner := mkSession id 1 EVENTS_CAPACITY [] None.

Definition conn_new : ConnectionState :=
  mkConn ∅ {[ root_id := 0%nat ]} 0%nat {[ 0%nat := session_new root_id ]} ∅ 1 0 [] true None.

Definition set_pending (c : ConnectionState) p :=
  mkConn p (sessions c) (root c) (heap c) (chans c) (next_ref c) (next_tok c)
    (writer c) (writer_open c) (metrics c).
Definition set_chans (c : ConnectionState) x :=
  mkConn (pending c) (sessions c) (root c) (heap c) x (next_ref c) (next_tok c)
    (writer c) (writer_open c) (metrics c).
Definition set_heap (c : ConnectionState) h :=
  mkConn (pending c) (sessions c) (root c) h (chans c) (next_ref c) (next_tok c)
    (writer c) (writer_open c) (metrics c).
Definition set_sessions (c : ConnectionState) ss :=
  mkConn (pending c) ss (root c) (heap c) (chans c) (next_ref c) (next_tok c)
    (writer c) (writer_open c) (metrics c).

Definition with_metrics_sink (sink : option Sink) (s : SessionInner) : SessionInner :=
  mkSession (s_id s) (s_next_id s) (s_events_cap s) (s_events s) sink.

(** Returns the reference of the session for [id], created on first sight
    with the connection's metrics sink. *)
Definition session_for (c : ConnectionState) (id : string) : ConnectionState * nat :=
  match sessions c !! id with
  | Some r => (c, r)
  | None =>
      let s := session_new id in
      let s := match metrics c with Some k => with_metrics_sink (Some k) s | None => s end in
      let r := next_ref c in
      (mkConn (pending c) (<[id := r]> (sessions c)) (root c) (<[r := s]> (heap c))
         (chans c) (S r) (next_tok c) (writer c) (writer_open c) (metrics c), r)
  end.

Definition drop_session (c : ConnectionState) (id : string) : ConnectionState :=
  set_sessions c (delete id (sessions c)).

(** Sets the connection's sink, then that of every session of the map. *)
Definition set_metrics_sink (c : ConnectionState) (sink : option Sink) : ConnectionState :=
  let refs := snd <$> map_to_list (sessions c) in
  let h := foldr (fun r h => alter (with_metrics_sink sink) r h) (heap c) refs in
  mkConn (pending c) (sessions c) (root c) h (chans c) (next_ref c) (next_tok c)
    (writer c) (writer_open c) sink.

(** ** Oneshots *)

(** Dropping a sender closes a channel nothing was sent on; sending resolves
    it. *)
Definition drop_sender (t : nat) (m : gmap nat chan) : gmap nat chan :=
  alter (fun ch => match ch_state ch with
                   | Open => mkChan (ch_id ch) (ch_session ch) Dropped
                   | _ => ch end) t m.
Definition resolve (r : reply) (ch : chan) : chan :=
  mkChan (ch_id ch) (ch_session ch) (Sent r).
Definition send_on (t : nat) (r : reply) (m : gmap nat chan) : gmap nat chan :=
  alter (resolve r) t m.

(** [pending.remove(&id)] with the sender dropped. *)
Definition remove_pending (c : ConnectionState) (id : Z) : ConnectionState :=
  match pending c !! id with
  | Some t => set_chans (set_pending c (delete id (pending c))) (drop_sender t (chans c))
  | None => c
  end.

(** ** Sending *)

Definition bump_next_id (s : SessionInner) : SessionInner :=
  mkSession (s_id s) (wrap_add u64_max (s_next_id s) 1) (s_events_cap s) (s_events s)
    (s_metrics s).

(** [send_inner_value] up to its await: allocate the id, park the oneshot
    (an entry with the same id is replaced and its sender dropped), queue the
    frame. [r] references the session the caller holds. *)
Definition send_begin (c : ConnectionState) (r : nat) (method : string) (params : Value)
    : ConnectionState * result (Z * nat) (CdpError Value) :=
  match heap c !! r with
  | None => (c, Err ConnectionClosed)   (* unreachable: a handle keeps its object alive *)
  | Some s =>
      let id := s_next_id s in
      let frame := mkOutbound id method params
                     (if is_root (s_id s) then None else Some (s_id s)) in
      let t := next_tok c in
      let ch0 := match pending c !! id with
                 | Some old => drop_sender old (chans c)
                 | None => chans c end in
      let c1 := mkConn (<[id := t]> (pending c)) (sessions c) (root c)
                  (<[r := bump_next_id s]> (heap c))
                  (<[t := mkChan id (s_id s) Open]> ch0)
                  (next_ref c) (S t) (writer c) (writer_open c) (metrics c) in
      if writer_open c then
        (mkConn (pending c1) (sessions c1) (root c1) (heap c1) (chans c1) (next_ref c1)
           (next_tok c1) (writer c1 ++ [frame]) (writer_open c1) (metrics c1), Ok (id, t))
      else (remove_pending c1 id, Err ConnectionClosed)
  end.

(** The await: [None] while the oneshot is unresolved and the deadline, if
    any, has not passed. *)
Definition await_reply (c : ConnectionState) (id : Z) (t : nat) (timed_out : bool)
    : option (ConnectionState * reply) :=
  match ch_state <$> chans c !! t with
  | Some (Sent r) => Some (c, r)
  | Some Dropped | None => Some (remove_pending c id, Err ConnectionClosed)
  | Some Open => if timed_out then Some (remove_pending c id, Err Timeout) else None
  end.

(** ** Receiving *)

(** What a reply frame resolves its request with. *)
Definition reply_of (frame : Value) : reply :=
  match vget "error" frame with
  | Some err =>
      let code := default (-32603) (vget "code" err ≫= as_i64) in
      let message := default "unknown error"%string (vget "message" err ≫= as_str) in
      Err (ProtocolError code message (vget "data" err))
  | None => Ok (default vnull (vget "result" frame))
  end.

Definition push_event (ev : Event) (s : SessionInner) : SessionInner :=
  mkSession (s_id s) (s_next_id s) (s_events_cap s) (s_events s ++ [ev]) (s_metrics s).

Definition dispatch (c : ConnectionState) (frame : Value) : ConnectionState :=
  let session_id := default root_id (vget_str "sessionId" frame) in
  match vget "id" frame with
  | Some id_v =>
      match as_u64 id_v with
      | None => c
      | Some id =>
          match pending c !! id with
          | Some t =>
              set_chans (set_pending c (delete id (pending c)))
                (send_on t (reply_of frame) (chans c))
          | None => c
          end
      end
  | None =>
      match vget "method" frame with
      | Some _ =>
          let '(c, r) := session_for c session_id in
          match event_of_frame frame with
          | Some ev => set_heap c (alter (push_event ev) r (heap c))
          | None => c
          end
      | None => c
      end
  end.

(** One turn of the loop that runs when the reader stops: take some pending
    request and fail it; [None] when there is none left. *)
Definition close_one (c : ConnectionState) : option ConnectionState :=
  match map_to_list (pending c) with
  | [] => None
  | (k, _) :: _ =>
      Some match pending c !! k with
           | Some t => set_chans (set_pending c (delete k (pending c)))
                         (send_on t (Err ConnectionClosed) (chans c))
           | None => c
           end
  end.

Fixpoint close_loop (fuel : nat) (c : ConnectionState) : option ConnectionState :=
  match close_one c with
  | None => Some c
  | Some c' => match fuel with O => None | S n => close_loop n c' end
  end.

(** The reader's exit path: the loop needs one turn per pending request. *)
Definition close_all (c : ConnectionState) : option ConnectionState :=
  close_loop (size (pending c)) c.

(** ** Invariant

    The pending map and the open oneshots are the same relation; references
    and tokens not yet allocated are unused. *)
Record conn_inv (c : ConnectionState) : Prop := {
  inv_pending id t :
    pending c !! id = Some t <-> exists sid, chans c !! t = Some (mkChan id sid Open);
  inv_tok t : (next_tok c <= t)%nat -> chans c !! t = None;
  inv_ref r : (next_ref c <= r)%nat -> heap c !! r = None
}.

Lemma conn_new_inv : conn_inv conn_new.
Proof.
  split; simpl.
  - intros id t. rewrite lookup_empty. split; [done|]. intros [? ?]. by rewrite lookup_empty in *.
  - intros. apply lookup_empty.
  - intros r Hr. rewrite lookup_singleton_ne; [done | lia].
Qed.

(** Taking a request out of the map and closing or resolving its oneshot. *)
Definition settle (c : ConnectionState) (id : Z) (t : nat) (f : chan -> chan) : ConnectionState :=
  set_chans (set_pending c (delete id (pending c))) (alter f t (chans c)).

Lemma settle_inv c id t f :
  conn_inv c -> pending c !! id = Some t -> (forall ch, ch_state (f ch) <> Open) ->
  conn_inv (settle c id t f).
Proof.
  intros [Hp Ht Hr] Hid Hf. split; simpl; [|intros t' Ht'|done].
  - intros id' t'. rewrite lookup_delete, lookup_alter.
    destruct (decide (id = id')) as [<-|Hne].
    + split; [done|]. intros [sid Hch]. destruct (decide (t = t')) as [<-|Hne'].
      * destruct (chans c !! t) as [ch|]; [|done]. injection Hch as Hch.
        exfalso. apply (Hf ch). by rewrite Hch.
      * assert (pending c !! id = Some t') by (apply Hp; eauto). congruence.
    + rewrite Hp. destruct (decide (t = t')) as [<-|Hne']; [|done].
      apply Hp in Hid as [sid Hch]. rewrite Hch. split; [naive_solver|].
      intros [sid' Hf']. exfalso. injection Hf' as Hf'.
      apply (Hf (mkChan id sid Open)). by rewrite Hf'.
  - rewrite lookup_alter. case_decide; [subst|]; by rewrite Ht.
Qed.

Lemma remove_pending_settle c id t :
  pending c !! id = Some t ->
  remove_pending c id = settle c id t
    (fun ch => match ch_state ch with
               | Open => mkChan (ch_id ch) (ch_session ch) Dropped
               | _ => ch end).
Proof. intros Hp. unfold remove_pending. by rewrite Hp. Qed.

Lemma remove_pending_inv c id : conn_inv c -> conn_inv (remove_pending c id).
Proof.
  intros Hi. destruct (pending c !! id) as [t|] eqn:E.
  - rewrite (remove_pending_settle _ _ _ E). apply settle_inv; [done..|].
    intros [? ? []]; done.
  - unfold remove_pending. by rewrite E.
Qed.

Lemma session_for_inv c id : conn_inv c -> conn_inv (session_for c id).1.
Proof.
  intros [Hp Ht Hr]. unfold session_for. destruct (sessions c !! id); [done|].
  split; simpl; [done..|]. intros r' Hr'. rewrite lookup_insert_ne by lia. apply Hr. lia.
Qed.

Lemma dispatch_inv c f : conn_inv c -> conn_inv (dispatch c f).
Proof.
  intros Hi. unfold dispatch. destruct (vget "id" f) as [v|].
  - destruct (as_u64 v) as [id|]; [|done]. destruct (pending c !! id) eqn:E; [|done].
    apply (settle_inv c id _ (resolve (reply_of f)));
      done.
  - destruct (vget "method" f); [|done].
    pose proof (session_for_inv c (default root_id (vget_str "sessionId" f)) Hi) as Hs.
    destruct (session_for c _) as [c' r]. simpl in Hs. destruct (event_of_frame f); [|done].
    destruct Hs as [Hp Ht Hr]. split; simpl; [done..|].
    intros r' Hr'. rewrite lookup_alter. case_decide; [subst|]; by rewrite Hr.
Qed.

Lemma send_begin_inv c r m p : conn_inv c -> conn_inv (send_begin c r m p).1.
Proof.
  intros Hi. unfold send_begin. destruct (heap c !! r) as [s|] eqn:Eh; [|done].
  set (ch0 := match pending c !! s_next_id s with Some _ => _ | None => _ end).
  set (c1 := mkConn (<[s_next_id s := next_tok c]> (pending c)) _ _ _ _ _ _ _ _ _).
  assert (Hc1 : conn_inv c1); [|destruct (writer_open c); simpl].
  2: { destruct Hc1 as [? ? ?]. by split. }
  2: by apply remove_pending_inv.
  destruct Hi as [Hp Ht Hr].
  assert (H0 : forall t, ch0 !! t = None <-> chans c !! t = None).
  { intros t. unfold ch0, drop_sender. destruct (pending c !! _) as [old|]; [|done].
    rewrite lookup_alter. case_decide; [subst|done]. by destruct (chans c !! t). }
  assert (H1 : forall t id sid, ch0 !! t = Some (mkChan id sid Open) <->
            chans c !! t = Some (mkChan id sid Open) /\ id <> s_next_id s).
  { intros t id sid. unfold ch0, drop_sender.
    destruct (pending c !! s_next_id s) as [old|] eqn:Eo.
    - rewrite lookup_alter. pose proof (proj1 (Hp _ _) Eo) as [sid0 Hold].
      case_decide as Ho; [subst old|].
      + rewrite Hold. simpl. split; [done|]. intros [[= ? ?] ?]; congruence.
      + split; [|tauto]. intros Hch. split; [done|]. intros ->.
        assert (pending c !! s_next_id s = Some t) by (apply Hp; eauto). congruence.
    - split; [|tauto]. intros Hch. split; [done|]. intros ->.
      assert (pending c !! s_next_id s = Some t) by (apply Hp; eauto). congruence. }
  split; unfold c1; simpl.
  - intros id t. rewrite lookup_insert, lookup_insert.
    destruct (decide (next_tok c = t)) as [<-|Hnt].
    + case_decide as Hid; [subst; naive_solver|]. rewrite Hp. split; [|naive_solver].
      intros [sid Hc]. rewrite (Ht (next_tok c)) in Hc by lia. done.
    + setoid_rewrite H1. case_decide as Hid; [subst; naive_solver|].
      rewrite Hp. naive_solver.
  - intros t Hlt. rewrite lookup_insert_ne by lia. apply H0, Ht. lia.
  - intros r' Hr'. rewrite lookup_insert. case_decide; [|by apply Hr].
    subst. rewrite Hr in Eh by done. done.
Qed.

(** ** Steps of a connection

    Any interleaving of the operations; sends go through the session
    references allowed by [P]. *)
Inductive step (P : nat -> Prop) (c : ConnectionState) : ConnectionState -> Prop :=
| step_send r m p : P r -> step P c (send_begin c r m p).1
| step_await id t to c' res : await_reply c id t to = Some (c', res) -> step P c c'
| step_dispatch f : step P c (dispatch c f)
| step_session_for id : step P c (session_for c id).1
| step_drop_session id : step P c (drop_session c id)
| step_set_sink k : step P c (set_metrics_sink c k)
| step_close c' : close_one c = Some c' -> step P c c'.

Lemma close_one_settle c c' :
  close_one c = Some c' ->
  exists k t, pending c !! k = Some t /\
    c' = settle c k t (resolve (Err ConnectionClosed)).
Proof.
  unfold close_one. destruct (map_to_list (pending c)) as [|[k t] l] eqn:E; [done|].
  assert (pending c !! k = Some t) as Hk.
  { apply elem_of_map_to_list. rewrite E. apply list_elem_of_here. }
  rewrite Hk. intros [= <-]. by exists k, t.
Qed.

Lemma foldr_alter_sink_None (sink : option Sink) (refs : list nat) (h : gmap nat SessionInner) r :
  foldr (fun r h => alter (with_metrics_sink sink) r h) h refs !! r = None <-> h !! r = None.
Proof.
  induction refs as [|r' refs IH]; simpl; [done|]. rewrite lookup_alter.
  case_decide; [subst|done]. rewrite fmap_None. done.
Qed.

Lemma await_reply_inv c id t to c' res :
  conn_inv c -> await_reply c id t to = Some (c', res) -> conn_inv c'.
Proof.
  intros Hi. unfold await_reply.
  destruct (ch_state <$> chans c !! t) as [[]|]; [destruct to| | |]; intros [= <- <-];
    auto using remove_pending_inv.
Qed.

Lemma step_inv P c c' : conn_inv c -> step P c c' -> conn_inv c'.
Proof.
  intros Hi []; eauto using send_begin_inv, await_reply_inv, dispatch_inv, session_for_inv.
  - destruct Hi; by split.
  - destruct Hi as [? ? Hr]. split; simpl; [done..|].
    intros r Hle. by apply foldr_alter_sink_None, Hr.
  - apply close_one_settle in H0 as (k & t & Hk & ->). by apply settle_inv.
Qed.

Lemma reachable_inv P c : rtc (step P) conn_new c -> conn_inv c.
Proof.
  intros Hr. remember conn_new as c0 eqn:E. assert (conn_inv c0) as Hi by (subst; apply conn_new_inv).
  clear E. induction Hr; eauto using step_inv.
Qed.

Lemma dispatch_resolves c f id sid t :
  conn_inv c ->
  (vget "id" f ≫= as_u64) = Some id ->
  chans c !! t = Some (mkChan id sid Open) ->
  let c' := dispatch c f in
  chans c' = <[t := mkChan id sid (Sent (reply_of f))]> (chans c) /\
  pending c' = delete id (pending c) /\
  await_reply c' id t false = Some (c', reply_of f).
Proof.
  intros [Hp _ _] Hid Hch c'.
  assert (Hpend : pending c !! id = Some t) by (apply Hp; eauto).
  assert (chans c' = <[t := mkChan id sid (Sent (reply_of f))]> (chans c)
          /\ pending c' = delete id (pending c)) as [Hc1 Hc2].
  { unfold c', dispatch. destruct (vget "id" f) as [v|]; [|done]. simpl in Hid.
    rewrite Hid, Hpend. simpl. split; [|done]. unfold send_on.
    apply map_eq. intros t'. rewrite lookup_alter, lookup_insert.
    case_decide; [subst; by rewrite Hch | done]. }
  split_and!; [done..|]. unfold await_reply. by rewrite Hc1, lookup_insert_eq.
Qed.

(** C3: a reply resolves the oneshot parked under its id, and only that one.
    In every reachable state, a frame whose id is that of a waiting request
    leaves it resolved with the frame's result or protocol error, removes it
    from the map and touches no other oneshot; the caller's await then
    returns exactly that reply. *)
Theorem dispatch_resolves_request (P : nat -> Prop) (c : ConnectionState) (f : Value)
    (id : Z) (sid : string) (t : nat) :
  rtc (step P) conn_new c ->
  (vget "id" f ≫= as_u64) = Some id ->
  chans c !! t = Some (mkChan id sid Open) ->
  let c' := dispatch c f in
  chans c' = <[t := mkChan id sid (Sent (reply_of f))]> (chans c) /\
  pending c' = delete id (pending c) /\
  await_reply c' id t false = Some (c', reply_of f).
Proof. intros Hr. by apply dispatch_resolves, (reachable_inv P). Qed.

(** A oneshot after the connection is gone. *)
Definition close_chan (ch : chan) : chan :=
  match ch_state ch with
  | Open => resolve (Err ConnectionClosed) ch
  | _ => ch
  end.

Lemma close_loop_spec n : forall c,
  conn_inv c -> size (pending c) = n ->
  exists c', close_loop n c = Some c' /\ conn_inv c' /\ pending c' = ∅ /\
    forall t, chans c' !! t =
      close_chan <$> chans c !! t.
Proof.
  induction n as [|n IH]; intros c Hi Hn; simpl.
  - apply map_size_empty_inv in Hn. unfold close_one. rewrite Hn, map_to_list_empty.
    exists c. split_and!; [done..|]. intros t. destruct (chans c !! t) as [[id sid []]|] eqn:E;
      simpl; try done.
    assert (pending c !! id = Some t) as Hid by (apply Hi; eauto).
    rewrite Hn, lookup_empty in Hid. done.
  - destruct (close_one c) as [c1|] eqn:E1.
    + apply close_one_settle in E1 as (k & t0 & Hk & ->).
      destruct (IH (settle c k t0 (resolve (Err ConnectionClosed)))) as (c' & Hc' & Hi' & He & Hch).
      * apply settle_inv; [done | exact Hk | done].
      * simpl. rewrite map_size_delete_Some; [lia | by eexists].
      * exists c'. split_and!; [exact Hc' | done..|]. intros t. rewrite Hch. simpl.
        rewrite lookup_alter. case_decide; [subst t0|done].
        apply Hi in Hk as [sid Hs]. by rewrite Hs.
    + unfold close_one in E1. destruct (map_to_list (pending c)) as [|[] ?] eqn:El; [|done].
      apply map_to_list_empty_iff in El. rewrite El, map_size_empty in Hn. done.
Qed.

(** C4: shutdown leaves no caller waiting. When the reader stops, its loop
    terminates after one turn per pending request; every oneshot still open
    is resolved with [ConnectionClosed], every resolved one keeps its reply,
    and no request is pending. *)
Theorem close_all_resolves (P : nat -> Prop) (c : ConnectionState) :
  rtc (step P) conn_new c ->
  exists c', close_all c = Some c' /\ pending c' = ∅ /\
    forall t, chans c' !! t =
      close_chan <$> chans c !! t.
Proof.
  intros Hr. apply reachable_inv in Hr.
  destruct (close_loop_spec (size (pending c)) c Hr eq_refl) as (c' & ? & _ & ? & ?). eauto.
Qed.

(** ** Request ids

    [next_id] belongs to a session while [pending] is shared by all sessions
    of the connection. *)

(** The ids in flight are below the counter of session [r]. *)
Definition ids_below (r : nat) (c : ConnectionState) (bound : Z) : Prop :=
  exists s, heap c !! r = Some s /\ 1 <= s_next_id s <= bound /\
    forall id t, pending c !! id = Some t -> id < s_next_id s.

Lemma remove_pending_ids r c id b : ids_below r c b -> ids_below r (remove_pending c id) b.
Proof.
  intros (s & Hs & Hb & Hp). unfold remove_pending.
  destruct (pending c !! id) eqn:E; [|by exists s]. exists s. simpl. split; [done|]. split; [done|].
  intros id' t'. rewrite lookup_delete. case_decide; [done | apply Hp].
Qed.

Lemma settle_ids r c id t f b : ids_below r c b -> ids_below r (settle c id t f) b.
Proof.
  intros (s & Hs & Hb & Hp). exists s. simpl. split; [done|]. split; [done|].
  intros id' t'. rewrite lookup_delete. case_decide; [done | apply Hp].
Qed.

Lemma session_for_ids r c id b :
  conn_inv c -> ids_below r c b -> ids_below r (session_for c id).1 b.
Proof.
  intros Hi (s & Hs & Hb & Hp). unfold session_for.
  destruct (sessions c !! id); [by exists s|]. exists s. simpl. split; [|done].
  rewrite lookup_insert_ne; [done|]. intros <-. rewrite inv_ref in Hs by done. done.
Qed.

Lemma heap_alter_ids r c (f : SessionInner -> SessionInner) r' b :
  (forall s, s_next_id (f s) = s_next_id s) ->
  ids_below r c b -> ids_below r (set_heap c (alter f r' (heap c))) b.
Proof.
  intros Hf (s & Hs & Hb & Hp). unfold ids_below. simpl. rewrite lookup_alter.
  destruct (decide (r' = r)) as [->|]; [exists (f s) | by exists s].
  rewrite Hs, Hf. done.
Qed.

Lemma sink_fold_next_id (k : option Sink) (refs : list nat) (h : gmap nat SessionInner) r s :
  h !! r = Some s ->
  exists s', foldr (fun r h => alter (with_metrics_sink k) r h) h refs !! r = Some s' /\
    s_next_id s' = s_next_id s.
Proof.
  intros Hs. induction refs as [|r' refs (s' & Hs' & He)]; simpl; [eauto|].
  rewrite lookup_alter. case_decide; [subst; rewrite Hs'; simpl|]; eauto.
Qed.

Lemma send_begin_ids r c m p b :
  b < u64_max -> ids_below r c b -> ids_below r (send_begin c r m p).1 (b + 1).
Proof.
  intros Hlt (s & Hs & Hb & Hp). unfold send_begin. rewrite Hs.
  set (c1 := mkConn (<[_ := _]> (pending c)) _ _ _ _ _ _ _ _ _).
  assert (Hc1 : ids_below r c1 (b + 1)).
  { exists (bump_next_id s). unfold c1; simpl. rewrite lookup_insert_eq.
    rewrite wrap_add_exact by lia. split; [done|]. split; [lia|].
    intros id t. rewrite lookup_insert. case_decide; [lia|]. intros Hid.
    specialize (Hp id t Hid). lia. }
  destruct (writer_open c); [done | by apply remove_pending_ids].
Qed.

Lemma step_ids r c c' b :
  b < u64_max -> conn_inv c -> ids_below r c b -> step (eq r) c c' -> ids_below r c' (b + 1).
Proof.
  intros Hlt Hi Hb Hs.
  assert (Hmono : forall c', ids_below r c' b -> ids_below r c' (b + 1)).
  { intros ? (s & ? & ? & ?). exists s. split; [done|]. split; [lia|done]. }
  destruct Hs as [? ? ? <-|? ? ? ? ? Ha|f|id|id|k|? Hc]; [by apply send_begin_ids|..];
    apply Hmono.
  - unfold await_reply in Ha. destruct (ch_state <$> _) as [[]|]; [destruct to|..];
      simplify_eq; auto using remove_pending_ids.
  - unfold dispatch. destruct (vget "id" f) as [v|].
    + destruct (as_u64 v) as [id|]; [|done]. destruct (pending c !! id) eqn:E; [|done].
      by apply (settle_ids r c id _ (resolve (reply_of f))).
    + destruct (vget "method" f); [|done].
      pose proof (session_for_ids r c (default root_id (vget_str "sessionId" f)) b Hi Hb) as H1.
      destruct (session_for c _) as [c1 r1]. simpl in H1.
      destruct (event_of_frame f); [by apply heap_alter_ids | done].
  - by apply session_for_ids.
  - done.
  - destruct Hb as (s & Hs & Hb & Hp).
    destruct (sink_fold_next_id k (snd <$> map_to_list (sessions c)) (heap c) r s Hs)
      as (s' & Hs' & He). exists s'. simpl. rewrite He. done.
  - apply close_one_settle in Hc as (k & t & _ & ->). by apply settle_ids.
Qed.

(** one sender never collides with itself. In any run in which only the
    root session sends (and fewer than 2^64 steps are taken), the next request
    id is not in flight, so a send never replaces another caller's oneshot. *)
Theorem single_sender_ids_fresh (n : nat) (c : ConnectionState) (s : SessionInner) :
  nsteps (step (eq (root conn_new))) n conn_new c ->
  Z.of_nat n < u64_max ->
  heap c !! root conn_new = Some s ->
  pending c !! s_next_id s = None.
Proof.
  intros Hn Hlt Hs.
  assert (conn_inv c /\ ids_below (root conn_new) c (Z.of_nat n + 1)) as [_ Hids].
  { clear Hs s. revert c Hlt Hn. induction n as [|n IH]; intros c Hlt Hn.
    - inversion Hn; subst. split; [apply conn_new_inv|].
      exists (session_new root_id). simpl. split; [done|]. split; [lia|].
      intros id t. by rewrite lookup_empty.
    - apply nsteps_inv_r in Hn as (c1 & H1 & H2). destruct (IH c1) as [Hi Hb]; [lia|done|].
      split; [by eapply step_inv|].
      replace (Z.of_nat (S n) + 1) with (Z.of_nat n + 1 + 1) by lia.
      apply (step_ids _ c1); [lia|done..]. }
  destruct Hids as (s' & Hs' & _ & Hp). rewrite Hs in Hs'. injection Hs' as <-.
  destruct (pending c !! s_next_id s) as [t|] eqn:E; [|done].
  specialize (Hp _ _ E). lia.
Qed.

Lemma send_begin_open c r s m p :
  writer_open c = true -> heap c !! r = Some s ->
  let c' := (send_begin c r m p).1 in
  (send_begin c r m p).2 = Ok (s_next_id s, next_tok c) /\
  pending c' = <[s_next_id s := next_tok c]> (pending c) /\
  heap c' = <[r := bump_next_id s]> (heap c) /\
  chans c' = <[next_tok c := mkChan (s_next_id s) (s_id s) Open]>
    (match pending c !! s_next_id s with
     | Some old => drop_sender old (chans c) | None => chans c end) /\
  next_tok c' = S (next_tok c) /\ writer_open c' = true.
Proof. intros Hw Hs. unfold send_begin. rewrite Hs, Hw. done. Qed.

(** two sessions can take each other's replies. When two sessions whose
    counters agree have a request in flight at the same time (both counters
    start at 1), the second send replaces the first caller's oneshot: the
    first caller fails with [ConnectionClosed] on an open connection, and that
    failure in turn removes the second caller's entry, failing it as well; if
    instead the first session's reply arrives first, it is returned to the
    second session's caller, whatever session id the frame carries. *)
Theorem cross_session_collision (P : nat -> Prop) (c : ConnectionState) (r1 r2 : nat)
    (s1 s2 : SessionInner) (m1 m2 : string) (p1 p2 : Value) :
  rtc (step P) conn_new c ->
  writer_open c = true -> r1 <> r2 ->
  heap c !! r1 = Some s1 -> heap c !! r2 = Some s2 -> s_next_id s1 = s_next_id s2 ->
  let id := s_next_id s1 in
  let c2 := (send_begin (send_begin c r1 m1 p1).1 r2 m2 p2).1 in
  let t1 := next_tok c in let t2 := S (next_tok c) in
  (exists c3 c4, await_reply c2 id t1 false = Some (c3, Err ConnectionClosed) /\
     await_reply c3 id t2 false = Some (c4, Err ConnectionClosed)) /\
  (forall f, (vget "id" f ≫= as_u64) = Some id -> vget_str "sessionId" f = Some (s_id s1) ->
     await_reply (dispatch c2 f) id t2 false = Some (dispatch c2 f, reply_of f)).
Proof.
  intros Hr Hw Hne H1 H2 Hid id c2 t1 t2.
  destruct (send_begin_open c r1 s1 m1 p1 Hw H1) as (_ & Hp1 & Hh1 & Hc1 & Ht1 & Hw1).
  assert (H2' : heap (send_begin c r1 m1 p1).1 !! r2 = Some s2).
  { rewrite Hh1. by rewrite lookup_insert_ne. }
  destruct (send_begin_open _ r2 s2 m2 p2 Hw1 H2') as (_ & Hp2 & _ & Hc2 & _ & _).
  rewrite <- Hid, Hp1, lookup_insert_eq in Hc2. rewrite <- Hid, Hp1, insert_insert_eq in Hp2.
  rewrite Ht1 in Hc2, Hp2. fold c2 t1 t2 id in Hc2, Hp2.
  assert (Hst1 : chans c2 !! t1 = Some (mkChan id (s_id s1) Dropped)).
  { rewrite Hc2, lookup_insert_ne by (unfold t1, t2; lia). unfold drop_sender.
    by rewrite lookup_alter_eq, Hc1, lookup_insert_eq. }
  assert (Hst2 : chans c2 !! t2 = Some (mkChan id (s_id s2) Open)).
  { by rewrite Hc2, lookup_insert_eq. }
  assert (Hpend : pending c2 !! id = Some t2) by (rewrite Hp2; apply lookup_insert_eq).
  split.
  - unfold await_reply at 1. rewrite Hst1. simpl. eexists _, _. split; [done|].
    unfold await_reply, remove_pending at 1. rewrite Hpend. simpl. unfold drop_sender.
    by rewrite lookup_alter_eq, Hst2.
  - intros f Hf _. apply (dispatch_resolves c2 f id (s_id s2) t2); [|done..].
    by apply send_begin_inv, send_begin_inv, (reachable_inv P).
Qed.

End Conn.
End CdpConn.

(** ** Instances at concrete frames *)
Module CdpConnExamples.
Import JsonTree CdpConn.

Definition ev (_ : json) : option unit := None.
Abbreviation cs := (@ConnectionState json unit unit).
Abbreviation start := (@conn_new json unit unit).
Abbreviation any := (fun _ : nat => True).

(** The root session has one request in flight. *)
Definition one_waiting : cs := (send_begin start 0%nat "Browser.getVersion" JNull).1.

Definition reply_frame (id : Z) (sid : string) : json :=
  JObj [("id", JNum id); ("sessionId", JStr sid); ("result", JStr "r")].

Lemma one_waiting_reachable : rtc (step ev any) start one_waiting.
Proof. apply rtc_once. by apply step_send. Defined.

Lemma dispatch_resolves_request_witness :
  await_reply (dispatch ev one_waiting (reply_frame 1 "")) 1 0 false
    = Some (dispatch ev one_waiting (reply_frame 1 ""), Ok (JStr "r")).
Proof.
  exact (proj2 (proj2 (dispatch_resolves_request ev any one_waiting (reply_frame 1 "")
    1 "" 0 one_waiting_reachable eq_refl eq_refl))).
Defined.

Lemma close_all_resolves_witness :
  exists c', close_all one_waiting = Some c' /\ pending c' = ∅ /\
    forall t, chans c' !! t = close_chan <$> chans one_waiting !! t.
Proof. exact (close_all_resolves ev any one_waiting one_waiting_reachable). Defined.

Lemma single_sender_ids_fresh_witness : pending one_waiting !! 2 = None.
Proof.
  refine (single_sender_ids_fresh ev 1 one_waiting
            (bump_next_id (session_new root_id)) _ _ eq_refl).
  - econstructor; [by apply step_send | constructor].
  - done.
Defined.

(** A child session next to the root one: both counters are at 1. *)
Definition two_sessions : cs := (session_for start "S1").1.

Lemma cross_session_collision_witness :
  let c2 := (send_begin (send_begin two_sessions 0%nat "A.a" JNull).1 1%nat "B.b" JNull).1 in
  await_reply (dispatch ev c2 (reply_frame 1 "")) 1 1 false
    = Some (dispatch ev c2 (reply_frame 1 ""), Ok (JStr "r")).
Proof.
  exact (proj2 (cross_session_collision ev any two_sessions 0 1
    (session_new root_id) (session_new "S1") "A.a" "B.b" JNull JNull
    (rtc_once _ _ (step_session_for ev any start "S1"))
    eq_refl (Nat.neq_0_succ 0) eq_refl eq_refl eq_refl)
    (reply_frame 1 "") eq_refl eq_refl).
Defined.

End CdpConnExamples.
