(* ===== verification/AxMerge.v ===== *)
(** * AxMerge: from accessibility trees to indexed elements

    Models the crate [ax-engine] ([index.rs], [merge.rs], [iframe.rs]) and the
    part of [browser-engine/src/snapshot.rs] that turns the nodes of
    [Accessibility.getFullAXTree] into the elements of a snapshot, splices in
    those of child frames and finds the focused one.  JSON is read through
    [JsonView]; numbers as [f64] are those of [F64];
    SHA-256 is a parameter. *)
From S2P Require Import Prelude Text Json F64.

Module AxMerge.

Definition dec (n : Z) : string := String.string_of_list_byte (Text.fmt_dec n).
(** [format!("e{index}")] *)
Definition ref_of (index : Z) : string := "e" +:+ dec index.

(** ** [index.rs] *)

Definition SEP : byte := Byte.x1f.
(** The bytes [StableId::compute] and [stable_id_hash] digest. *)
Definition preimage (role name parent_role : string) (sibling_index : Z) : list byte :=
  String.list_byte_of_string role ++ [SEP] ++ String.list_byte_of_string name ++ [SEP] ++
  String.list_byte_of_string parent_role ++ [SEP] ++ Text.fmt_dec sibling_index.

(** ** [merge.rs] *)

Record Rect := mkRect { rx : f64; ry : f64; rw : f64; rh : f64 }.
Record ElementState {V} := mkState {
  checked : option V; expanded : option bool; pressed : option V; selected : option bool; disabled : bool
}.
Arguments ElementState : clear implicits.
Arguments mkState {V}.
Record Element {V} := mkElement {
  e_index : Z; e_ref : string; e_role : string; e_name : string; e_value : option string;
  e_description : option string; e_state : ElementState V; e_bbox : option Rect; e_interactable : bool;
  e_frame_id : string; e_stable_id : list byte; e_backend : Z
}.
Arguments Element : clear implicits.
Arguments mkElement {V}.

Definition INTERACTABLE_ROLES : list string :=
  ["button"; "link"; "textbox"; "searchbox"; "checkbox"; "radio"; "combobox"; "listbox"; "menuitem";
   "menuitemcheckbox"; "menuitemradio"; "tab"; "switch"; "slider"; "spinbutton"; "treeitem"; "option"].

Definition lower_byte (b : byte) : byte :=
  let v := byte_val b in if Text.between 65 90 v then byte_of_Z (v + 32) else b.
Definition to_ascii_lowercase (s : string) : string :=
  String.string_of_list_byte (map lower_byte (String.list_byte_of_string s)).

(** [.filter(|s| !s.is_empty())] *)
Definition nonempty (o : option string) : option string :=
  match o with Some s => if bool_decide (s = "") then None else Some s | None => None end.
(** [Option::and_then] *)
Definition and_then {A B} (o : option A) (f : A -> option B) : option B :=
  match o with Some x => f x | None => None end.
Local Notation "o ?> f" := (and_then o f) (at level 45, left associativity).
Definition or_else {A} (a b : option A) : option A := match a with Some _ => a | None => b end.

Section Merge.
Context {V : Type} `{JsonView V} `{JsonF64 V}.
Variable sha256 : list byte -> list byte.

Definition ax_value_str (node : V) (key : string) : option string :=
  or_else (nonempty (vget key node ?> vget "value" ?> as_str)) (nonempty (vget_str key node)).

Fixpoint ax_property_bool (props : list V) (name : string) : option bool :=
  match props with
  | [] => None
  | p :: props =>
      let next := ax_property_bool props name in
      if bool_decide (vget_str "name" p = Some name) then
        match vget "value" p ?> vget "value" with
        | Some v =>
            match as_bool v with
            | Some b => Some b
            | None =>
                match as_str v with
                | Some s => Some (bool_decide (to_ascii_lowercase s = "true"))
                | None => next
                end
            end
        | None => next
        end
      else next
  end.
Fixpoint ax_property_value (props : list V) (name : string) : option V :=
  match props with
  | [] => None
  | p :: props =>
      if bool_decide (vget_str "name" p = Some name) then vget "value" p ?> vget "value"
      else ax_property_value props name
  end.
Definition collect_state (props : list V) : ElementState V :=
  mkState (ax_property_value props "checked") (ax_property_bool props "expanded")
    (ax_property_value props "pressed") (ax_property_bool props "selected")
    (default false (ax_property_bool props "disabled")).

Definition f64_or_zero (o : option V) : f64 := default f64_zero (o ?> as_f64).

(** One turn of the join loop of [index_dom_snapshot_bboxes]: entry [i] of [nodeIndex]. *)
Definition index_bbox (backend_ids bounds : list V) (out : gmap Z Rect) (ini : nat * V) : gmap Z Rect :=
  let '(i, ni) := ini in
  match as_u64 ni, (bounds !! i) ?> as_array with
  | Some idx, Some rect =>
      if (length rect <? 4)%nat then out
      else match (backend_ids !! Z.to_nat idx) ?> as_i64 with
           | Some bid =>
               <[bid := mkRect (f64_or_zero (rect !! 0%nat)) (f64_or_zero (rect !! 1%nat))
                               (f64_or_zero (rect !! 2%nat)) (f64_or_zero (rect !! 3%nat))]> out
           | None => out
           end
  | _, _ => out
  end.
Definition index_dom_snapshot_bboxes (dom : V) : gmap Z Rect :=
  match vget "documents" dom ?> as_array with
  | Some (doc :: _) =>
      match vget "nodes" doc ?> vget "backendNodeId" ?> as_array, vget "layout" doc with
      | Some backend_ids, Some layout =>
          match vget "nodeIndex" layout ?> as_array, vget "bounds" layout ?> as_array with
          | Some node_index, Some bounds =>
              foldl (index_bbox backend_ids bounds) ∅ (imap pair node_index)
          | _, _ => ∅
          end
      | _, _ => ∅
      end
  | _ => ∅
  end.

Definition is_interactable (role : string) (state : ElementState V) : bool :=
  if disabled state then false
  else let r := to_ascii_lowercase role in
       bool_decide (r ∈ INTERACTABLE_ROLES) || bool_decide (r = "menuitemradio").

(** The map from [nodeId] to position; a later node of the same id replaces an earlier one. *)
Definition by_id (nodes : list V) : gmap string nat :=
  foldl (fun m '(i, n) => match vget_str "nodeId" n with Some s => <[s := i]> m | None => m end) ∅
    (imap pair nodes).

Definition node_role (n : V) : string := default "" (ax_value_str n "role").
Definition lookup_node (nodes : list V) (ids : gmap string nat) (id : string) : option V :=
  (ids !! id) ?> (fun i => nodes !! i).

(** The earlier children of the parent with the role [my_role], up to [id]. *)
Fixpoint count_siblings (nodes : list V) (ids : gmap string nat) (id my_role : string) (child_ids : list V)
    (idx : Z) : Z :=
  match child_ids with
  | [] => idx
  | cid_v :: rest =>
      match as_str cid_v with
      | None => count_siblings nodes ids id my_role rest idx
      | Some cid =>
          if bool_decide (cid = id) then idx
          else match lookup_node nodes ids cid with
               | Some child =>
                   count_siblings nodes ids id my_role rest
                     (if bool_decide (node_role child = my_role) then idx + 1 else idx)
               | None => count_siblings nodes ids id my_role rest idx
               end
      end
  end.
Definition sibling_entry (nodes : list V) (ids : gmap string nat) (n : V) (id : string) : string * Z :=
  let parent := vget_str "parentId" n ?> lookup_node nodes ids in
  let parent_role := match parent with Some p => node_role p | None => "" end in
  let child_ids := default [] (parent ?> vget "childIds" ?> as_array) in
  (parent_role, count_siblings nodes ids id (node_role n) child_ids 0).
Definition compute_sibling_indices (nodes : list V) (ids : gmap string nat) : gmap string (string * Z) :=
  foldl (fun out n => match vget_str "nodeId" n with
                      | Some id => <[id := sibling_entry nodes ids n id]> out
                      | None => out
                      end) ∅ nodes.

(** One turn of the loop of [merge]: the element, unless the node is skipped. *)
Definition merge_node (bboxes : gmap Z Rect) (sibling_idx : gmap string (string * Z)) (index : Z) (n : V)
    : option (Element V) :=
  let role := node_role n in
  let name := default "" (ax_value_str n "name") in
  if bool_decide (role = "") && bool_decide (name = "") then None
  else
    match vget_str "nodeId" n with
    | None => None
    | Some id =>
        let backend_node_id := default 0 (vget "backendDOMNodeId" n ?> as_i64) in
        let state := collect_state (default [] (vget "properties" n ?> as_array)) in
        let interactable := is_interactable role state in
        let bbox := bboxes !! backend_node_id in
        let zero_area := match bbox with
                         | Some r => f64_le (rw r) f64_zero || f64_le (rh r) f64_zero
                         | None => true
                         end in
        if negb interactable && (zero_area || (bool_decide (role <> "heading") && bool_decide (role <> "img")))
           && bool_decide (role = "") then None
        else
          let '(parent_role, sib_idx) := default ("", 0) (sibling_idx !! id) in
          Some (mkElement index (ref_of index) role name (ax_value_str n "value") (ax_value_str n "description")
                  state bbox interactable "" (sha256 (preimage role name parent_role sib_idx)) backend_node_id)
    end.
Definition merge_step bboxes sibling_idx (elements : list (Element V)) (n : V) : list (Element V) :=
  match merge_node bboxes sibling_idx (zlen elements) n with Some e => elements ++ [e] | None => elements end.
(** The [elements] of [merge]'s result; the other fields are copies or defaults. *)
Definition merge (ax dom : V) : list (Element V) :=
  let nodes_raw := default [] (vget "nodes" ax ?> as_array) in
  let ids := by_id nodes_raw in
  foldl (merge_step (index_dom_snapshot_bboxes dom) (compute_sibling_indices nodes_raw ids)) [] nodes_raw.

(** ** [iframe.rs] *)

Definition remix_with_frame (id : list byte) (frame_id : string) : list byte :=
  sha256 (id ++ [SEP] ++ String.list_byte_of_string frame_id).
Definition splice_one (base : Z) (frame_id : string) (i : nat) (el : Element V) : Element V :=
  let index := base + Z.of_nat i in
  mkElement index (ref_of index) (e_role el) (e_name el) (e_value el) (e_description el) (e_state el) (e_bbox el)
    (e_interactable el) frame_id (remix_with_frame (e_stable_id el) frame_id) (e_backend el).
Definition splice (parent child : list (Element V)) (frame_id : string) : list (Element V) :=
  parent ++ imap (splice_one (zlen parent) frame_id) child.

End Merge.

(** ** The elements of [browser-engine/src/snapshot.rs] *)

Record PageElementState := mkPState {
  p_checked : option bool; p_expanded : option bool; p_pressed : option bool; p_selected : option bool;
  p_disabled : bool
}.
Record PageElement := mkPElement {
  index : Z; element_ref : string; role : string; name : string; value : option string;
  description : option string; state : PageElementState; bbox : Rect; interactable : bool;
  frame_id : string; stable_id : list byte
}.

Section Parts.
Context {V : Type} `{JsonView V} `{JsonF64 V}.
(** [hex::encode] of SHA-256. *)
Variable sha256_hex : list byte -> list byte.

Definition ax_string (node : V) (key : string) : option string :=
  or_else (vget key node ?> vget "value" ?> as_str) (vget_str key node).
Definition ax_bool (node : V) (key : string) : option bool :=
  or_else (vget key node ?> vget "value" ?> as_bool) (vget key node ?> as_bool).

Definition bbox_from_dom (node : V) : option Rect :=
  match vget "boundingBox" node with
  | None => None
  | Some bb =>
      let w := f64_or_zero (vget "width" bb) in
      let h := f64_or_zero (vget "height" bb) in
      if f64_lt f64_zero w || f64_lt f64_zero h
      then Some (mkRect (f64_or_zero (vget "x" bb)) (f64_or_zero (vget "y" bb)) w h)
      else None
  end.

Definition PAGE_INTERACTABLE : list string :=
  ["button"; "link"; "textbox"; "checkbox"; "combobox"; "menuitem"; "tab"; "switch"; "slider"; "searchbox";
   "spinbutton"].

Fixpoint find_first {A} (p : A -> bool) (l : list A) : option A :=
  match l with [] => None | x :: l => if p x then Some x else find_first p l end.

Definition parent_role_of (nodes : list V) (node : V) : string :=
  default "" (vget_str "parentId" node
              ?> (fun pid => find_first (fun n => bool_decide (vget_str "nodeId" n = Some pid)) nodes)
              ?> (fun p => ax_string p "role")).
Definition page_role (node : V) : string := default "" (ax_string node "role").
Definition page_name (node : V) : string := default "" (ax_string node "name").

Definition page_element (i sibling_idx : Z) (parent_role : string) (node : V) : PageElement :=
  let role := page_role node in
  let name := page_name node in
  let bb := default (mkRect f64_zero f64_zero f64_zero f64_zero) (bbox_from_dom node) in
  let st := mkPState (ax_bool node "checked") (ax_bool node "expanded") (ax_bool node "pressed")
              (ax_bool node "selected") (default false (ax_bool node "disabled")) in
  mkPElement i (ref_of i) role name (ax_string node "value") (ax_string node "description") st bb
    (bool_decide (role ∈ PAGE_INTERACTABLE) && negb (p_disabled st)
     && f64_lt f64_zero (rw bb) && f64_lt f64_zero (rh bb))
    (default "" (ax_string node "frameId")) (sha256_hex (preimage role name parent_role sibling_idx)).

(** The node loop, with the counter of each role under each parent role. *)
Fixpoint parts_loop (nodes : list V) (i : Z) (todo : list V) (sibling_counter : gmap (string * string) Z)
    : list PageElement :=
  match todo with
  | [] => []
  | node :: todo =>
      let parent_role := parent_role_of nodes node in
      let k := (page_role node, parent_role) in
      let sibling_idx := default 0 (sibling_counter !! k) in
      page_element i sibling_idx parent_role node
        :: parts_loop nodes (i + 1) todo (<[k := sibling_idx + 1]> sibling_counter)
  end.
(** [nodes_val]: the [nodes] of the full AX tree. *)
Definition snapshot_parts (nodes_val : V) : list PageElement :=
  let nodes := default [] (as_array nodes_val) in parts_loop nodes 0 nodes ∅.

Definition remix_stable_id_with_frame (id : list byte) (frame_id : string) : list byte :=
  sha256_hex (id ++ [SEP] ++ String.list_byte_of_string frame_id).
(** The elements of a child frame, as [snapshot_child_frame] returns them. *)
Definition child_element (target_id : string) (e : PageElement) : PageElement :=
  let fid := if bool_decide (frame_id e = "") then target_id else frame_id e in
  mkPElement (index e) (element_ref e) (role e) (name e) (value e) (description e) (state e) (bbox e)
    (interactable e) fid (remix_stable_id_with_frame (stable_id e) fid).
Definition snapshot_child_frame (target_id : string) (nodes_val : V) : list PageElement :=
  map (child_element target_id) (snapshot_parts nodes_val).

Definition reindex (base : Z) (i : nat) (e : PageElement) : PageElement :=
  let ix := base + Z.of_nat i in
  mkPElement ix (ref_of ix) (role e) (name e) (value e) (description e) (state e) (bbox e)
    (interactable e) (frame_id e) (stable_id e).
Definition splice_snapshot_elements (parent child : list PageElement) : list PageElement :=
  parent ++ imap (reindex (zlen parent)) child.

(** [child_frame_targets]: the frames of [targetInfos] that are kept. *)
Definition child_frame_target (page_target : string) (info : V) : option string :=
  if negb (bool_decide (vget_str "type" info = Some "iframe")) then None
  else if negb (bool_decide (vget_str "parentId" info = Some page_target)) then None
  else match vget_str "parentFrameId" info with
       | None => None
       | Some _ => vget_str "targetId" info
       end.
Definition child_frame_targets (page_target : string) (res : V) : list string :=
  omap (child_frame_target page_target) (default [] (vget "targetInfos" res ?> as_array)).

(** The element part of [do_snapshot]: the root's elements, then each child
    frame's whose walk succeeded ([None]: it failed). *)
Definition all_elements (root : V) (children : list (string * option V)) : list PageElement :=
  foldl (fun els '(target_id, nodes_val) =>
           match nodes_val with
           | Some v => splice_snapshot_elements els (snapshot_child_frame target_id v)
           | None => els
           end) (snapshot_parts root) children.

(** [collect_focused_ref], from the rectangle of the active element. *)
Definition contains (b : Rect) (cx cy : f64) : bool :=
  f64_le (rx b) cx && f64_le cx (f64_add (rx b) (rw b)) && f64_le (ry b) cy && f64_le cy (f64_add (ry b) (rh b)).
Definition collect_focused_ref (active : option V) (elements : list PageElement) : option string :=
  match active with
  | None => None
  | Some r =>
      match vget "x" r ?> as_f64, vget "w" r ?> as_f64, vget "y" r ?> as_f64, vget "h" r ?> as_f64 with
      | Some x, Some w, Some y, Some h =>
          let cx := f64_add x (f64_half w) in
          let cy := f64_add y (f64_half h) in
          match find_first (fun e => contains (bbox e) cx cy) elements with
          | Some e => Some (element_ref e)
          | None => None
          end
      | _, _, _, _ => None
      end
  end.

End Parts.

(** ** Facts *)

Lemma list_byte_of_string_inj a b : String.list_byte_of_string a = String.list_byte_of_string b -> a = b.
Proof. intros E. rewrite <- (String.string_of_list_byte_of_string a), E. apply String.string_of_list_byte_of_string. Qed.

(** No unit separator in a text. *)
Definition no_sep (s : string) : Prop := SEP ∉ String.list_byte_of_string s.

Lemma preimage_inj r n p i r' n' p' i' :
  no_sep r -> no_sep n -> no_sep p -> no_sep r' -> no_sep n' -> no_sep p' -> 0 <= i -> 0 <= i' ->
  preimage r n p i = preimage r' n' p' i' -> r = r' /\ n = n' /\ p = p' /\ i = i'.
Proof.
  intros Hr Hn Hp Hr' Hn' Hp' Hi Hi' E. unfold preimage in E.
  apply split_at_sep in E as [Er E]; [|done|done]. apply split_at_sep in E as [En E]; [|done|done].
  apply split_at_sep in E as [Ep E]; [|done|done]. apply list_byte_of_string_inj in Er, En, Ep.
  apply Text.fmt_radix_inj in E; auto with lia.
Qed.

(** An element list is dense: each element carries its position and its ref. *)
Definition dense (els : list PageElement) : Prop :=
  forall i e, els !! i = Some e -> index e = Z.of_nat i /\ element_ref e = ref_of (Z.of_nat i).

Lemma dense_splice parent child : dense parent -> dense (splice_snapshot_elements parent child).
Proof.
  intros H i e He. unfold splice_snapshot_elements in He. apply lookup_app_Some in He as [He|[Hi He]]; [now apply H|].
  rewrite list_lookup_imap in He. apply fmap_Some in He as (e0 & He0 & ->). unfold reindex, zlen. cbn [index element_ref].
  assert (Z.of_nat (length parent) + Z.of_nat (i - length parent) = Z.of_nat i) as -> by lia. done.
Qed.

Lemma ref_of_inj i j : 0 <= i -> 0 <= j -> ref_of i = ref_of j -> i = j.
Proof.
  intros Hi Hj E. unfold ref_of, dec in E.
  assert (forall a b, "e" +:+ a = "e" +:+ b -> a = b) as Inj by (intros a b E0; now injection E0). apply Inj in E.
  apply (f_equal String.list_byte_of_string) in E. rewrite !String.list_byte_of_string_of_list_byte in E.
  apply Text.fmt_radix_inj in E; auto with lia.
Qed.

Lemma dense_refs els : dense els -> NoDup (map element_ref els).
Proof.
  intros H. apply NoDup_alt. intros i j x Hi Hj.
  apply list_lookup_fmap_Some in Hi as (e & -> & Hi). apply list_lookup_fmap_Some in Hj as (e' & E & Hj).
  destruct (H _ _ Hi) as [_ Ri]. destruct (H _ _ Hj) as [_ Rj]. rewrite Ri, Rj in E.
  apply ref_of_inj in E; lia.
Qed.

Section PartsFacts.
Context {V : Type} `{JsonView V} `{JsonF64 V}.
Variable sha256_hex : list byte -> list byte.

Lemma parts_loop_lookup nodes todo : forall i counter k e,
  parts_loop sha256_hex nodes i todo counter !! k = Some e ->
  index e = i + Z.of_nat k /\ element_ref e = ref_of (i + Z.of_nat k).
Proof.
  induction todo as [|n todo IH]; intros i counter k e; cbn [parts_loop]; [done|].
  destruct k as [|k]; cbn [lookup list_lookup].
  - intros [= <-]. cbn [index element_ref page_element]. rewrite Z.add_0_r. done.
  - intros E. destruct (IH _ _ _ _ E) as [-> ->].
    assert (i + 1 + Z.of_nat k = i + Z.of_nat (S k)) as -> by lia. done.
Qed.

Lemma snapshot_parts_dense v : dense (snapshot_parts sha256_hex v).
Proof. intros i e E. apply parts_loop_lookup in E. now rewrite !Z.add_0_l in E. Qed.

(** What the loop digests for each node. *)
Fixpoint parts_keys (nodes todo : list V) (counter : gmap (string * string) Z)
    : list (string * string * string * Z) :=
  match todo with
  | [] => []
  | n :: todo =>
      let p := parent_role_of nodes n in
      let k := (page_role n, p) in
      let idx := default 0 (counter !! k) in
      (page_role n, page_name n, p, idx) :: parts_keys nodes todo (<[k := idx + 1]> counter)
  end.
Definition key_preimage (k : string * string * string * Z) : list byte :=
  let '(r, n, p, i) := k in preimage r n p i.

Lemma parts_loop_ids nodes todo : forall i counter,
  map stable_id (parts_loop sha256_hex nodes i todo counter) =
  map (fun k => sha256_hex (key_preimage k)) (parts_keys nodes todo counter).
Proof. induction todo as [|n todo IH]; intros i counter; cbn; [done|]. now rewrite IH. Qed.

(** Later keys of a role and parent role have counts no smaller than the counter. *)
Lemma parts_keys_ge nodes todo : forall counter r n p i,
  (forall k c, counter !! k = Some c -> 0 <= c) ->
  (r, n, p, i) ∈ parts_keys nodes todo counter -> default 0 (counter !! (r, p)) <= i.
Proof.
  induction todo as [|x todo IH]; intros counter r n p i Hc; cbn [parts_keys]; [now intros ?%not_elem_of_nil|].
  intros [E|E]%elem_of_cons; [injection E as -> -> -> ->; lia|].
  set (k := (page_role x, parent_role_of nodes x)) in *.
  assert (0 <= default 0 (counter !! k)) as Hk.
  { destruct (counter !! k) eqn:Ek; cbn; [now apply (Hc k)|lia]. }
  apply IH in E.
  - destruct (decide (k = (r, p))) as [Ek|N]; [rewrite Ek, lookup_insert_eq in E; cbn [default] in E|].
    + rewrite Ek in Hk. cbn in E. clearbody k. subst k. set (c := default 0 _) in *. lia.
    + now rewrite lookup_insert_ne in E.
  - intros k' c. destruct (decide (k = k')) as [<-|N]; [rewrite lookup_insert_eq; intros [= <-]; lia|].
    rewrite lookup_insert_ne by done. apply Hc.
Qed.

Lemma parts_keys_nodup nodes todo : forall counter, (forall k c, counter !! k = Some c -> 0 <= c) ->
  NoDup (parts_keys nodes todo counter) /\ Forall (fun '(_, _, _, i) => 0 <= i) (parts_keys nodes todo counter).
Proof.
  induction todo as [|x todo IH]; intros counter Hc; cbn [parts_keys]; [split; constructor|].
  set (k := (page_role x, parent_role_of nodes x)).
  assert (0 <= default 0 (counter !! k)) as Hk.
  { destruct (counter !! k) eqn:Ek; cbn; [now apply (Hc k)|lia]. }
  assert (forall k' c, <[k := default 0 (counter !! k) + 1]> counter !! k' = Some c -> 0 <= c) as Hc'.
  { intros k' c. destruct (decide (k = k')) as [<-|N]; [rewrite lookup_insert_eq; intros [= <-]; lia|].
    rewrite lookup_insert_ne by done. apply Hc. }
  destruct (IH _ Hc') as [A B]. split; constructor; try done.
  intros Hin. apply parts_keys_ge in Hin; [|done]. fold k in Hin. rewrite lookup_insert_eq in Hin. cbn in Hin. lia.
Qed.

Lemma find_first_in {A} (p : A -> bool) l x : find_first p l = Some x -> x ∈ l.
Proof.
  induction l as [|y l IH]; cbn; [discriminate|]. destruct (p y); [intros [= ->]; left|]. intros E. right. auto.
Qed.

(** A parent's role is the role of a node, or empty. *)
Lemma parent_role_no_sep nodes n : Forall (fun n => no_sep (page_role n)) nodes ->
  no_sep (parent_role_of nodes n).
Proof.
  intros Hn. unfold parent_role_of, and_then. destruct (vget_str "parentId" n) as [pid|]; [|apply not_elem_of_nil].
  destruct (find_first _ nodes) as [q|] eqn:E; [|apply not_elem_of_nil].
  apply find_first_in in E. rewrite Forall_forall in Hn. exact (Hn _ E).
Qed.

Lemma parts_loop_texts nodes todo : forall i counter,
  Forall (fun e => no_sep (role e) /\ no_sep (name e)) (parts_loop sha256_hex nodes i todo counter) ->
  Forall (fun n => no_sep (page_role n) /\ no_sep (page_name n)) todo.
Proof.
  induction todo as [|n todo IH]; intros i counter; cbn [parts_loop]; [constructor|].
  intros [Hn Ht]%Forall_cons. constructor; [exact Hn|]. now apply IH in Ht.
Qed.

Lemma parts_keys_no_sep nodes :
  Forall (fun e => no_sep (role e) /\ no_sep (name e)) (parts_loop sha256_hex nodes 0 nodes ∅) ->
  Forall (fun '(r, n, p, _) => no_sep r /\ no_sep n /\ no_sep p) (parts_keys nodes nodes ∅).
Proof.
  intros Ht%parts_loop_texts.
  assert (Forall (fun n => no_sep (page_role n)) nodes) as Hr by (eapply Forall_impl; [exact Ht|]; now intros ? []).
  generalize (∅ : gmap (string * string) Z). revert Ht. generalize nodes at 1 3 as todo. intros todo Ht.
  induction Ht as [|n todo [Hn1 Hn2] Ht IH]; intros counter; cbn [parts_keys]; constructor; [|apply IH].
  split; [done|]. split; [done|]. now apply parent_role_no_sep.
Qed.

End PartsFacts.

(** C22: the elements of a full snapshot are indexed densely: after splicing in
    any number of child frames, the element at position [i] has [index] [i] and
    [ref] [e<i>], so refs are pairwise distinct and name one element each. *)
Theorem snapshot_elements_dense {V} `{JsonView V, JsonF64 V} sha256_hex root children :
  let els := all_elements sha256_hex root children in
  dense els /\ NoDup (map element_ref els).
Proof.
  cbv zeta. assert (dense (all_elements sha256_hex root children)) as D; [|split; [done|now apply dense_refs]].
  unfold all_elements. assert (dense (snapshot_parts sha256_hex root)) as D by apply snapshot_parts_dense.
  revert D. generalize (snapshot_parts sha256_hex root). induction children as [|[t [v|]] children IH]; intros els D; cbn; auto.
  now apply IH, dense_splice.
Qed.

(** within one document the stable ids are digests of pairwise distinct
    byte strings: the counter gives two nodes of the same role under the same
    parent role different numbers, and the separated encoding is unambiguous
    when no role or name holds the separator; two elements can share a stable
    id only if SHA-256 collides on the two. *)
Theorem stable_id_inputs_distinct {V} `{JsonView V, JsonF64 V} sha256_hex nodes_val :
  Forall (fun e => no_sep (role e) /\ no_sep (name e)) (snapshot_parts sha256_hex nodes_val) ->
  exists inputs, map stable_id (snapshot_parts sha256_hex nodes_val) = map sha256_hex inputs /\ NoDup inputs.
Proof.
  unfold snapshot_parts. set (nodes := default [] (as_array nodes_val)). intros Hs.
  destruct (parts_keys_nodup nodes nodes ∅) as [A B]; [intros k c; now rewrite lookup_empty|].
  exists (map key_preimage (parts_keys nodes nodes ∅)). split; [now rewrite parts_loop_ids, map_map|].
  assert (Forall (fun '(r, n, p, _) => no_sep r /\ no_sep n /\ no_sep p) (parts_keys nodes nodes ∅)) as C
    by now apply (parts_keys_no_sep sha256_hex).
  apply NoDup_fmap_2_strong; [|done]. intros [[[r n] p] i] [[[r' n'] p'] i'] Hk Hk' E.
  rewrite Forall_forall in B, C. pose proof (B _ Hk) as B1. pose proof (B _ Hk') as B2.
  destruct (C _ Hk) as (? & ? & ?). destruct (C _ Hk') as (? & ? & ?). cbn in B1, B2, E.
  apply preimage_inj in E as (-> & -> & -> & ->); done.
Qed.

Section MergeFacts.
Context {V : Type} `{JsonView V} `{JsonF64 V}.
Variable sha256 : list byte -> list byte.

(** The nodes [merge] keeps: those with a role and an id. *)
Definition kept (n : V) : bool := bool_decide (node_role n <> "") && bool_decide (is_Some (vget_str "nodeId" n)).
(** What a node's element shows of it. *)
Definition node_view (n : V) : string * string * option string * option string * Z :=
  (node_role n, default "" (ax_value_str n "name"), ax_value_str n "value", ax_value_str n "description",
   default 0 (vget "backendDOMNodeId" n ?> as_i64)).
Definition element_view (e : Element V) : string * string * option string * option string * Z :=
  (e_role e, e_name e, e_value e, e_description e, e_backend e).

Definition dense_ax (els : list (Element V)) : Prop :=
  forall i e, els !! i = Some e -> e_index e = Z.of_nat i /\ e_ref e = ref_of (Z.of_nat i).

Lemma empty_role_not_interactable st : is_interactable (V:=V) "" st = false.
Proof. unfold is_interactable. now destruct (disabled st). Qed.

Lemma merge_node_spec bboxes sib ix n :
  match merge_node sha256 bboxes sib ix n with
  | Some e => kept n = true /\ element_view e = node_view n /\ e_index e = ix /\ e_ref e = ref_of ix
  | None => kept n = false
  end.
Proof.
  unfold merge_node, kept. destruct (vget_str "nodeId" n) as [id|] eqn:Eid.
  - rewrite (bool_decide_eq_true_2 (is_Some (Some id))), andb_true_r by eauto.
    destruct (decide (node_role n = "")) as [E|E].
    + rewrite E. rewrite (bool_decide_eq_true_2 (("" : string) = "")), (bool_decide_eq_false_2 (("" : string) <> "")) by auto.
      cbn [andb]. case_bool_decide; [done|].
      rewrite empty_role_not_interactable. cbn [negb andb].
      rewrite (bool_decide_eq_true_2 (("" : string) <> "heading")), (bool_decide_eq_true_2 (("" : string) <> "img")) by discriminate.
      cbn [andb]. now rewrite orb_true_r.
    + rewrite (bool_decide_eq_false_2 (node_role n = "")), (bool_decide_eq_true_2 (node_role n <> "")) by done.
      cbn [andb]. rewrite andb_false_r. destruct (default ("", 0) (sib !! id)) as [pr si]. done.
  - rewrite (bool_decide_eq_false_2 (is_Some None)), andb_false_r by apply is_Some_None. now destruct (_ && _).
Qed.

Lemma merge_fold_spec bboxes sib todo : forall els, dense_ax els ->
  let r := foldl (merge_step sha256 bboxes sib) els todo in
  dense_ax r /\ map element_view r = map element_view els ++ map node_view (List.filter kept todo).
Proof.
  induction todo as [|n todo IH]; intros els D; cbn [foldl List.filter]; [now rewrite app_nil_r|].
  unfold merge_step at 2 4. pose proof (merge_node_spec bboxes sib (zlen els) n) as Hn.
  destruct (merge_node sha256 bboxes sib (zlen els) n) as [e|].
  - destruct Hn as (-> & Ev & Ei & Er). assert (dense_ax (els ++ [e])) as D'.
    { intros i e' [He|[Hi He]]%lookup_app_Some; [now apply D|].
      destruct (i - length els)%nat as [|j] eqn:Ej; [|now destruct j].
      injection He as <-. unfold zlen in Ei, Er. rewrite Ei, Er. assert (i = length els) as -> by lia. done. }
    destruct (IH _ D') as [A B]. split; [exact A|]. rewrite B, map_app. cbn [map]. rewrite Ev. now rewrite <- (assoc_L (++)).
  - rewrite Hn. now apply IH.
Qed.

Lemma dense_ax_splice parent child fid : dense_ax parent -> dense_ax (splice sha256 parent child fid).
Proof.
  intros D i e [He|[Hi He]]%lookup_app_Some; [now apply D|].
  rewrite list_lookup_imap in He. apply fmap_Some in He as (e0 & _ & ->). unfold splice_one, zlen. cbn [e_index e_ref].
  assert (Z.of_nat (length parent) + Z.of_nat (i - length parent) = Z.of_nat i) as -> by lia. done.
Qed.

End MergeFacts.

(** [merge] of [ax-engine] keeps exactly the nodes that have an id and a
    non-empty role, in their order, each with its role, name, value,
    description and backend id, and the list is densely indexed also after a
    child frame is spliced in.  Invisible nodes are kept: the visibility test
    only decides over nodes without a role. *)
Theorem merge_spec {V} `{JsonView V, JsonF64 V} sha256 ax dom child frame_id :
  let els := merge sha256 ax dom in
  dense_ax (splice sha256 els child frame_id) /\
  map element_view els = map node_view (List.filter kept (default [] (vget "nodes" ax ?> as_array))).
Proof.
  cbv zeta. unfold merge. set (nodes := default [] _).
  destruct (merge_fold_spec sha256 (index_dom_snapshot_bboxes dom) (compute_sibling_indices nodes (by_id nodes)) nodes [])
    as [D E]; [intros i e Hi; discriminate|].
  split; [now apply dense_ax_splice|exact E].
Qed.

End AxMerge.

(** ** Runs *)

Module AxMergeExamples.
Import JsonTree AxMerge.

Definition jnode (id parent role : string) (kids : list string) : json :=
  JObj [("nodeId", JStr id); ("parentId", JStr parent); ("role", JObj [("value", JStr role)]);
        ("name", JObj [("value", JStr id)]); ("childIds", JArr (map JStr kids))].
(** Two lists with one button each. *)
Definition two_lists : json :=
  JArr [jnode "r" "" "group" ["l"; "m"]; jnode "l" "r" "list" ["a"]; jnode "m" "r" "list" ["b"];
        jnode "a" "l" "button" []; jnode "b" "m" "button" []].

(** The two engines number the second button differently: [ax-engine] counts
    among the children of its parent, [browser-engine] among all buttons under
    a [list]. *)
Example sibling_numbers_differ :
  let nodes := default [] (as_array two_lists) in
  option_map snd (compute_sibling_indices nodes (by_id nodes) !! "b") = Some 0 /\
  last (parts_keys nodes nodes ∅) = Some ("button", "b", "list", 1).
Proof. vm_compute. split; reflexivity. Qed.

Lemma stable_id_inputs_distinct_witness :
  exists inputs, map stable_id (snapshot_parts id two_lists) = map id inputs /\ NoDup inputs.
Proof.
  apply (stable_id_inputs_distinct id two_lists).
  apply Forall_forall. intros e He. unfold no_sep.
  assert (forallb (fun e => forallb (fun b => negb (bool_decide (b = SEP)))
            (String.list_byte_of_string (role e) ++ String.list_byte_of_string (name e)))
            (snapshot_parts id two_lists) = true) as F by (vm_compute; reflexivity).
  rewrite forallb_forall in F. specialize (F e (proj1 (list_elem_of_In _ _) He)).
  rewrite forallb_forall in F. split; intros Hs; specialize (F SEP).
  all: rewrite bool_decide_eq_true_2 in F by done; discriminate F; apply in_or_app.
  - left. now apply list_elem_of_In.
  - right. now apply list_elem_of_In.
Defined.

End AxMergeExamples.
