(* ===== verification/Snapshot.v ===== *)
(** * Snapshot: full snapshots and deltas of a page

    Models the observer script of [ax-engine/src/mutation.rs] and its drain,
    the snapshot state of [browser-engine/src/page.rs] with the part of its
    event pump that feeds it, and [snapshot], [snapshot_delta_since] and
    [do_snapshot] of [browser-engine/src/snapshot.rs].

    A call is a function of what happens around it: the answers of the browser
    and, for each await point, the page and pump steps that run there.  The
    world also carries the whole mutation history of the document and its
    length at the last drain; no operation reads them, they are what the
    theorems compare a delta with. *)
From S2P Require Import Prelude Json F64 Metrics AxMerge.
Import Metrics AxMerge.

Module Snapshot.

(** ** The observer script *)

Record MutationRecord := mkMut { m_seq : Z; m_kind : string; m_tag : string; m_cb : string }.
Record Js := mkJs { js_seq : Z; js_log : list MutationRecord }.
Definition js_init : Js := mkJs 0 [].
Definition MAX_LOG : nat := 4096.

(** A node with what [getRootNode] gives: nothing, a root without a host, or a
    shadow root. *)
Inductive dom_node : Type := DomNode (tag cb : string) (root : dom_root)
with dom_root : Type := NoRoot | Plain | ShadowRoot (closed : bool) (host : dom_node).

Fixpoint climb_loop (guard : nat) (cur node : dom_node) : dom_node :=
  match guard with
  | O => cur
  | S guard =>
      match cur with
      | DomNode _ _ NoRoot | DomNode _ _ Plain => cur
      | DomNode _ _ (ShadowRoot true host) => climb_loop guard host node
      | DomNode _ _ (ShadowRoot false _) => node
      end
  end.
Definition climbToShadowHost (node : dom_node) : dom_node := climb_loop 16 node node.

Definition the_record (seq : Z) (kind : string) (target : dom_node) : MutationRecord :=
  match climbToShadowHost target with DomNode tag cb _ => mkMut seq kind tag cb end.

(** [record]; the target may be missing. *)
Definition record (kind : string) (target : option dom_node) (j : Js) : Js :=
  match target with
  | None => j
  | Some t =>
      let seq := js_seq j + 1 in
      let log := js_log j ++ [the_record seq kind t] in
      mkJs seq (if (MAX_LOG <? length log)%nat then drop (length log - MAX_LOG) log else log)
  end.

(** A [MutationRecord] of the DOM API. *)
Record DomMutation := mkDom {
  d_type : string; d_target : option dom_node; d_added : list (option dom_node); d_removed : list (option dom_node)
}.
(** The calls to [record] for a batch. *)
Definition record_calls (r : DomMutation) : list (string * option dom_node) :=
  (d_type r, d_target r) ::
  (if bool_decide (d_type r = "childList")
   then map (pair "added") (d_added r) ++ map (pair "removed") (d_removed r) else []).
Definition observer_callback (rs : list DomMutation) (j : Js) : Js :=
  foldl (fun j '(kind, t) => record kind t j) j (rs ≫= record_calls).

(** ** The page *)

Record DeltaAnchor := mkAnchor { a_seq : Z; a_high_water : Z }.

Section Page.
(** Console messages and exceptions, as the pump builds them from events. *)
Context {C X : Type}.

Record Page := mkPage {
  snapshot_seq : Z; delta_anchor : option DeltaAnchor;
  in_flight : gset string; completed_counter : Z; failed_counter : Z;
  recent_console : list C; recent_exceptions : list X;
  url : string; title : string
}.
Definition page_init (u t : string) : Page := mkPage 0 None ∅ 0 0 [] [] u t.

Definition set_delta_anchor (a : option DeltaAnchor) (p : Page) : Page :=
  mkPage (snapshot_seq p) a (in_flight p) (completed_counter p) (failed_counter p)
    (recent_console p) (recent_exceptions p) (url p) (title p).
Definition next_snapshot_seq (p : Page) : Z * Page :=
  let s := snapshot_seq p + 1 in
  (s, mkPage s (delta_anchor p) (in_flight p) (completed_counter p) (failed_counter p)
        (recent_console p) (recent_exceptions p) (url p) (title p)).
Definition with_network (p : Page) (fl : gset string) (c f : Z) : Page :=
  mkPage (snapshot_seq p) (delta_anchor p) fl c f (recent_console p) (recent_exceptions p) (url p) (title p).

(** [q.len() == 50 { pop_front }; push_back] *)
Definition push50 {A} (q : list A) (x : A) : list A :=
  (if (length q =? 50)%nat then tail q else q) ++ [x].

(** The events the pump handles for this state; [None]: a request id that is not a string. *)
Inductive CdpEvent : Type :=
| PageFrameNavigated
| NetworkRequestWillBeSent (rid : option string)
| NetworkLoadingFinished (rid : option string)
| NetworkLoadingFailed (rid : option string)
| RuntimeConsoleApiCalled (msg : C)
| RuntimeExceptionThrown (exc : X)
| OtherEvent.

Definition event_pump (ev : CdpEvent) (p : Page) : Page :=
  match ev with
  | PageFrameNavigated => set_delta_anchor None p
  | NetworkRequestWillBeSent (Some rid) =>
      with_network p (in_flight p ∪ {[rid]}) (completed_counter p) (failed_counter p)
  | NetworkLoadingFinished (Some rid) =>
      with_network p (in_flight p ∖ {[rid]}) (wrap_add u64_max (completed_counter p) 1) (failed_counter p)
  | NetworkLoadingFailed (Some rid) =>
      with_network p (in_flight p ∖ {[rid]}) (completed_counter p) (wrap_add u64_max (failed_counter p) 1)
  | RuntimeConsoleApiCalled msg =>
      mkPage (snapshot_seq p) (delta_anchor p) (in_flight p) (completed_counter p) (failed_counter p)
        (push50 (recent_console p) msg) (recent_exceptions p) (url p) (title p)
  | RuntimeExceptionThrown exc =>
      mkPage (snapshot_seq p) (delta_anchor p) (in_flight p) (completed_counter p) (failed_counter p)
        (recent_console p) (push50 (recent_exceptions p) exc) (url p) (title p)
  | NetworkRequestWillBeSent None | NetworkLoadingFinished None | NetworkLoadingFailed None | OtherEvent => p
  end.

Definition drain_snapshot_extras (p : Page) : list C * list X * Z * Z * Page :=
  (recent_console p, recent_exceptions p, completed_counter p, failed_counter p,
   mkPage (snapshot_seq p) (delta_anchor p) (in_flight p) 0 0 [] [] (url p) (title p)).

(** ** The world *)

Record World := mkWorld {
  page : Page; js : Js; mmetrics : MutationMetrics;
  hist : list MutationRecord;   (* every record of the document *)
  mark : nat                    (* the length of [hist] at the last drain *)
}.
Definition with_page (w : World) (p : Page) : World := mkWorld p (js w) (mmetrics w) (hist w) (mark w).
Definition with_mm (w : World) (f : MutationMetrics -> MutationMetrics) : World :=
  mkWorld (page w) (js w) (f (mmetrics w)) (hist w) (mark w).

(** The same batch, numbered on from [hist] without bound or drain. *)
Definition extend (h : list MutationRecord) (kt : string * option dom_node) : list MutationRecord :=
  match kt with
  | (kind, Some t) => h ++ [the_record (zlen h + 1) kind t]
  | (_, None) => h
  end.

(** What can run at an await point: the page mutates, the page replaces its
    document (the script runs again), the pump handles an event. *)
Inductive step : Type := Mutate (rs : list DomMutation) | Navigate | Pump (ev : CdpEvent).
Definition do_step (s : step) (w : World) : World :=
  match s with
  | Mutate rs =>
      mkWorld (page w) (observer_callback rs (js w)) (mmetrics w)
        (foldl extend (hist w) (rs ≫= record_calls)) (mark w)
  | Navigate => mkWorld (page w) js_init (mmetrics w) [] 0
  | Pump ev => with_page w (event_pump ev (page w))
  end.
Definition do_steps (ss : list step) (w : World) : World := foldl (fun w s => do_step s w) w ss.

(** ** Draining *)

(** The fate of the evaluation: answered; run but its answer lost; not run; a
    value that does not parse (the page replaced the function); no value. *)
Inductive reply : Type := Answered | Lost | Refused | Unparsable | Missing.

Definition drain_log (r : reply) (w : World) : result (list MutationRecord) unit * World :=
  let emptied := mkJs (js_seq (js w)) [] in
  let at_mark (j : Js) := mkWorld (page w) j (mmetrics w) (hist w) (length (hist w)) in
  match r with
  | Answered => (Ok (js_log (js w)), at_mark emptied)
  | Lost => (Err tt, at_mark emptied)
  | Refused | Unparsable => (Err tt, at_mark (js w))
  | Missing => (Ok [], at_mark (js w))
  end.

(** [iter().map(|m| m.seq).max()] and [min()] *)
Definition max_seq (l : list MutationRecord) : option Z :=
  match map m_seq l with [] => None | x :: xs => Some (foldl Z.max x xs) end.
Definition min_seq (l : list MutationRecord) : option Z :=
  match map m_seq l with [] => None | x :: xs => Some (foldl Z.min x xs) end.

Definition drain_mutation_high_water (r : reply) (w : World) : Z * World :=
  let '(d, w) := drain_log r w in
  (match d with Ok l => default 0 (max_seq l) | Err _ => 0 end, w).
Definition mutation_log_overflowed (anchor_high_water : Z) (drained : list MutationRecord) : bool :=
  match min_seq drained with None => false | Some m => anchor_high_water + 1 <? m end.

(** ** Snapshots *)

Context {V : Type} `{JsonView V} `{JsonF64 V}.
Variable sha256_hex : list byte -> list byte.
Variable target_id : string.

Record FullSnapshot := mkFull {
  f_seq : Z; f_base : Z; f_partial : bool; f_stale : bool; f_url : string; f_title : string;
  f_elements : list PageElement; f_console : list C; f_exceptions : list X;
  f_in_flight : Z; f_completed : Z; f_failed : Z; f_focused : option string
}.
Record SnapshotDelta := mkDelta {
  s_seq : Z; s_base : Z; s_partial : bool; s_mutations : list MutationRecord; s_url : string; s_title : string
}.
Inductive SnapshotResponse : Type := Full (s : FullSnapshot) | Delta (d : SnapshotDelta).

(** The browser during [do_snapshot]: the AX tree of the page, the targets, the
    AX tree of each child frame, the rectangle of the active element ([None]:
    the call failed), and the steps before and after the extras are taken. *)
Record Walk := mkWalk {
  w_root : option V; w_targets : option V; w_child : string -> option V; w_active : option V;
  w_before : list step; w_after : list step
}.

Definition do_snapshot (high_water base_seq : Z) (partial anchor_stale : bool) (k : Walk) (w : World)
    : result FullSnapshot string * World :=
  let '(seq, p) := next_snapshot_seq (page w) in
  let w := do_steps (w_before k) (with_page w p) in
  match w_root k with
  | None => (Err "Accessibility.getFullAXTree", w)
  | Some root =>
      match w_targets k with
      | None => (Err "Target.getTargets", w)
      | Some res =>
          let els := all_elements sha256_hex root
                       (map (fun t => (t, w_child k t)) (child_frame_targets target_id res)) in
          let u := url (page w) in
          let t := title (page w) in
          let '(console, exceptions, completed, failed, p) := drain_snapshot_extras (page w) in
          let fl := Z.of_nat (size (in_flight (page w))) in
          let w := do_steps (w_after k) (with_page w p) in
          let focused := collect_focused_ref (w_active k) els in
          let w := with_page w (set_delta_anchor (Some (mkAnchor seq high_water)) (page w)) in
          (Ok (mkFull seq base_seq partial anchor_stale u t els console exceptions fl completed failed focused), w)
      end
  end.

Definition snapshot (r : reply) (k : Walk) (w : World) : result FullSnapshot string * World :=
  let '(hw, w) := drain_mutation_high_water r w in do_snapshot hw 0 false false k w.

(** The browser during [snapshot_delta_since]: the targets, the steps while they
    are asked for, those before and after the drain of the delta, its fate, the
    fate of a drain for a full snapshot and the walk of that. *)
Record Env := mkEnv {
  e_targets : option V; e_pre : list step; e_mid : list step; e_drain : reply; e_gap : list step;
  e_full_drain : reply; e_walk : Walk
}.

Definition full {A} (r : result FullSnapshot A * World) : result SnapshotResponse A * World :=
  let '(s, w) := r in (match s with Ok s => Ok (Full s) | Err e => Err e end, w).
(** The four fallbacks that drain again. *)
Definition fallback (since_seq : Z) (e : Env) (w : World) : result SnapshotResponse string * World :=
  let '(hw, w) := drain_mutation_high_water (e_full_drain e) w in
  full (do_snapshot hw since_seq false true (e_walk e) w).

Definition snapshot_delta_since (since_seq : Z) (e : Env) (w : World) : result SnapshotResponse string * World :=
  if since_seq =? 0 then full (snapshot (e_full_drain e) (e_walk e) w)
  else
    let w := do_steps (e_pre e) w in
    match e_targets e with
    | None => (Err "Target.getTargets", w)
    | Some res =>
        if negb (bool_decide (child_frame_targets target_id res = [])) then
          fallback since_seq e (with_mm w record_anchor_invalidation)
        else
          match delta_anchor (page w) with
          | None => fallback since_seq e (with_mm w record_anchor_invalidation)
          | Some anchor =>
              if negb (a_seq anchor =? since_seq) then
                fallback since_seq e (with_mm w record_anchor_invalidation)
              else
                let '(d, w) := drain_log (e_drain e) (do_steps (e_mid e) w) in
                let w := do_steps (e_gap e) w in
                match d with
                | Err _ => fallback since_seq e (with_mm w record_drain_failure)
                | Ok drained =>
                    if mutation_log_overflowed (a_high_water anchor) drained then
                      full (do_snapshot (default (a_high_water anchor) (max_seq drained)) since_seq false true
                              (e_walk e) (with_mm w record_drain_overflow))
                    else
                      let mutations := List.filter (fun m => a_high_water anchor <? m_seq m) drained in
                      let '(new_seq, p) := next_snapshot_seq (page w) in
                      let new_hw := default (a_high_water anchor) (max_seq mutations) in
                      let w := with_page w (set_delta_anchor (Some (mkAnchor new_seq new_hw)) p) in
                      (Ok (Delta (mkDelta new_seq since_seq true mutations (url p) (title p))), w)
                end
          end
    end.

End Page.

(** ** The log and the history *)

Definition numbered (h : list MutationRecord) : Prop :=
  forall i m, h !! i = Some m -> m_seq m = Z.of_nat i + 1.

(** The script's state [j] and mark [n] against the history [h]: the log is
    the end of the history, and an empty log means nothing came since the mark. *)
Record core (j : Js) (h : list MutationRecord) (n : nat) : Prop := mkCore {
  core_seq : js_seq j = zlen h;
  core_num : numbered h;
  core_suffix : js_log j `suffix_of` h;
  core_mark : (n <= length h)%nat;
  core_empty : js_log j = [] -> n = length h
}.
(** The log holds only what came since the mark. *)
Definition sharp (j : Js) (h : list MutationRecord) (n : nat) : Prop := (n + length (js_log j) <= length h)%nat.

Lemma core_init : core js_init [] 0.
Proof. now split. Qed.

Lemma numbered_snoc h k t : numbered h -> numbered (h ++ [the_record (zlen h + 1) k t]).
Proof.
  intros H i m [Hm|[Hi Hm]]%lookup_app_Some; [now apply H|].
  destruct (i - length h)%nat as [|x] eqn:E; [|now destruct x]. injection Hm as <-.
  unfold the_record. destruct (climbToShadowHost t). cbn [m_seq]. unfold zlen. lia.
Qed.

Lemma core_record j h n k t : core j h n -> core (record k t j) (extend h (k, t)) n.
Proof.
  intros [S N U M E]. destruct t as [t|]; [|now split]. cbn [record extend].
  set (r := the_record (js_seq j + 1) k t). assert (the_record (zlen h + 1) k t = r) as Er by (unfold r; now rewrite S).
  split; cbn [js_seq js_log].
  - rewrite S, zlen_app. reflexivity.
  - now apply numbered_snoc.
  - rewrite Er. assert (js_log j ++ [r] `suffix_of` h ++ [r]) as Hs.
    { destruct U as [pre ->]. exists pre. now rewrite (assoc_L (++)). }
    destruct (_ <? _)%nat; [|exact Hs]. etransitivity; [|exact Hs].
    exists (take (length (js_log j ++ [r]) - MAX_LOG) (js_log j ++ [r])). now rewrite take_drop.
  - rewrite length_app. lia.
  - intros Hn. exfalso. destruct (_ <? _)%nat eqn:El; [|now destruct (js_log j)].
    apply (f_equal length) in Hn. rewrite length_drop in Hn. apply Nat.ltb_lt in El.
    unfold MAX_LOG in *. cbn [length] in Hn. lia.
Qed.

Lemma sharp_record j h n k t : sharp j h n -> sharp (record k t j) (extend h (k, t)) n.
Proof.
  unfold sharp. destruct t as [t|]; [|done]. cbn [record extend js_log]. rewrite length_app. cbn [length].
  intros Hs. destruct (_ <? _)%nat; rewrite ?length_drop, ?length_app; cbn [length]; lia.
Qed.

Lemma extend_prefix cs : forall h, h `prefix_of` foldl extend h cs.
Proof.
  induction cs as [|[k [t|]] cs IH]; intros h; cbn; [done| |apply IH].
  etransitivity; [|apply IH]. now eexists.
Qed.

Lemma observe_calls cs : forall j h n, core j h n ->
  core (foldl (fun j '(kind, t) => record kind t j) j cs) (foldl extend h cs) n /\
  (sharp j h n -> sharp (foldl (fun j '(kind, t) => record kind t j) j cs) (foldl extend h cs) n).
Proof.
  induction cs as [|[k t] cs IH]; intros j h n Hc; cbn [foldl]; [done|].
  destruct (IH _ _ _ (core_record j h n k t Hc)) as [A B]. split; [exact A|]. intros Hs. now apply B, sharp_record.
Qed.

(** *** Largest and smallest numbers *)

Lemma fold_max_spec (l : list Z) : forall x, x <= foldl Z.max x l /\ Forall (fun y => y <= foldl Z.max x l) l.
Proof.
  induction l as [|y l IH]; intros x; cbn [foldl]; [split; [lia|constructor]|].
  destruct (IH (Z.max x y)) as [A B]. split; [lia|]. constructor; [lia|exact B].
Qed.
Lemma fold_max_in (l : list Z) : forall x, foldl Z.max x l ∈ x :: l.
Proof.
  induction l as [|y l IH]; intros x; cbn [foldl]; [left|].
  specialize (IH (Z.max x y)). apply elem_of_cons in IH as [E|IH]; [|right; right; exact IH].
  rewrite E. destruct (Z.max_spec x y) as [[_ ->]|[_ ->]]; [right; left|left].
Qed.
Lemma fold_min_spec (l : list Z) : forall x, foldl Z.min x l <= x /\ Forall (fun y => foldl Z.min x l <= y) l.
Proof.
  induction l as [|y l IH]; intros x; cbn [foldl]; [split; [lia|constructor]|].
  destruct (IH (Z.min x y)) as [A B]. split; [lia|]. constructor; [lia|exact B].
Qed.
Lemma fold_min_in (l : list Z) : forall x, foldl Z.min x l ∈ x :: l.
Proof.
  induction l as [|y l IH]; intros x; cbn [foldl]; [left|].
  specialize (IH (Z.min x y)). apply elem_of_cons in IH as [E|IH]; [|right; right; exact IH].
  rewrite E. destruct (Z.min_spec x y) as [[_ ->]|[_ ->]]; [left|right; left].
Qed.

(** The records of a log are numbered on from what is missing of the history. *)
Lemma suffix_numbers h l : numbered h -> l `suffix_of` h ->
  forall i m, l !! i = Some m -> m_seq m = Z.of_nat (length h - length l + i) + 1.
Proof.
  intros N [pre ->] i m Hm. rewrite length_app.
  assert ((length pre + length l - length l + i = length pre + i)%nat) as -> by lia.
  apply N. rewrite lookup_app_r by lia. now replace (length pre + i - length pre)%nat with i by lia.
Qed.

Lemma max_seq_suffix h l : numbered h -> l `suffix_of` h -> l <> [] -> max_seq l = Some (zlen h).
Proof.
  intros N U Hl. pose proof (suffix_numbers h l N U) as Hn. pose proof (suffix_length _ _ U) as Hlen.
  unfold max_seq. destruct l as [|m0 l]; [done|]. cbn [map]. f_equal.
  pose proof (fold_max_in (map m_seq l) (m_seq m0)) as Hin.
  destruct (fold_max_spec (map m_seq l) (m_seq m0)) as [A B].
  set (M := foldl Z.max (m_seq m0) (map m_seq l)) in *. change (m_seq m0 :: map m_seq l) with (map m_seq (m0 :: l)) in Hin.
  apply list_elem_of_fmap in Hin as (m & EM & [i Hi]%list_elem_of_lookup).
  pose proof (lookup_lt_Some _ _ _ Hi) as Hi'. rewrite (Hn i m Hi) in EM.
  destruct (lookup_lt_is_Some_2 (m0 :: l) (length l)) as [x Hx]; [cbn; lia|].
  assert (m_seq x <= M) as Hx'.
  { apply list_elem_of_lookup_2 in Hx as Hin. apply elem_of_cons in Hin as [->|Hin]; [lia|].
    rewrite Forall_forall in B. apply B, list_elem_of_fmap. eauto. }
  rewrite (Hn _ _ Hx) in Hx'. cbn [length] in *. unfold zlen. lia.
Qed.

Lemma min_seq_suffix h l : numbered h -> l `suffix_of` h -> l <> [] ->
  min_seq l = Some (Z.of_nat (length h - length l) + 1).
Proof.
  intros N U Hl. pose proof (suffix_numbers h l N U) as Hn. unfold min_seq. destruct l as [|m0 l]; [done|]. cbn [map]. f_equal.
  pose proof (fold_min_in (map m_seq l) (m_seq m0)) as Hin.
  destruct (fold_min_spec (map m_seq l) (m_seq m0)) as [A _].
  set (M := foldl Z.min (m_seq m0) (map m_seq l)) in *. change (m_seq m0 :: map m_seq l) with (map m_seq (m0 :: l)) in Hin.
  apply list_elem_of_fmap in Hin as (m & EM & [i Hi]%list_elem_of_lookup). rewrite (Hn i m Hi) in EM.
  rewrite (Hn 0%nat m0 eq_refl) in A. cbn [length] in *. lia.
Qed.

(** Keeping the numbers above [hw] drops a front of the log. *)
Lemma filter_above_all l : forall b hw : nat, (hw <= b)%nat ->
  (forall i m, l !! i = Some m -> m_seq m = Z.of_nat (b + i) + 1) ->
  List.filter (fun m => Z.of_nat hw <? m_seq m) l = l.
Proof.
  induction l as [|x l IH]; intros b hw Hb Hn; [done|]. cbn [List.filter]. rewrite (Hn 0%nat x eq_refl).
  assert (Z.of_nat hw <? Z.of_nat (b + 0) + 1 = true) as -> by (apply Z.ltb_lt; lia). f_equal.
  apply (IH (S b)); [lia|]. intros i m Hm. rewrite (Hn (S i) m Hm). lia.
Qed.
Lemma filter_above l : forall b hw : nat, (b <= hw)%nat ->
  (forall i m, l !! i = Some m -> m_seq m = Z.of_nat (b + i) + 1) ->
  List.filter (fun m => Z.of_nat hw <? m_seq m) l = drop (hw - b) l.
Proof.
  induction l as [|x l IH]; intros b hw Hb Hn; [now rewrite drop_nil|].
  destruct (decide (hw = b)) as [->|N]; [rewrite Nat.sub_diag, drop_0; now apply filter_above_all with b|].
  cbn [List.filter]. rewrite (Hn 0%nat x eq_refl).
  assert (Z.of_nat hw <? Z.of_nat (b + 0) + 1 = false) as -> by (apply Z.ltb_ge; lia).
  assert ((hw - b = S (hw - S b))%nat) as -> by lia. cbn [drop]. apply IH; [lia|].
  intros i m Hm. rewrite (Hn (S i) m Hm). lia.
Qed.

(** What a drained log that passes the overflow test holds above the anchor. *)
Lemma drained_above h l n hw : numbered h -> l `suffix_of` h -> (n <= length h)%nat ->
  (l = [] -> n = length h) -> 0 <= hw <= Z.of_nat n ->
  mutation_log_overflowed hw l = false ->
  exists k, (k <= n)%nat /\ List.filter (fun m => hw <? m_seq m) l = drop k h /\
    ((n + length l <= length h)%nat -> k = n).
Proof.
  intros N U Hn He Hw Ho. destruct (decide (l = [])) as [->|Hl].
  { exists n. split; [done|]. rewrite (He eq_refl), drop_all. done. }
  unfold mutation_log_overflowed in Ho. rewrite (min_seq_suffix h l N U Hl) in Ho. apply Z.ltb_ge in Ho.
  pose proof (suffix_numbers h l N U) as Hs. pose proof (suffix_length _ _ U) as Hlen.
  exists (Z.to_nat hw). split; [lia|].
  pose proof (filter_above l (length h - length l) (Z.to_nat hw) ltac:(lia) Hs) as F.
  rewrite Z2Nat.id in F by lia. rewrite F.
  split; [|lia]. destruct U as [pre ->]. rewrite length_app in *. rewrite drop_app_ge by lia. f_equal. lia.
Qed.

(** ** The invariant of the world *)

Section Deltas.
Context {C X V : Type} `{JsonView V} `{JsonF64 V}.
Variable sha256_hex : list byte -> list byte.
Variable target_id : string.
Implicit Types (w : World (C:=C) (X:=X)) (s : step (C:=C) (X:=X)).
Implicit Types (k : Walk (C:=C) (X:=X) (V:=V)) (e : Env (C:=C) (X:=X) (V:=V)).

Record Inv (b : bool) w : Prop := mkInv {
  inv_core : core (js w) (hist w) (mark w);
  inv_anchor : forall a, delta_anchor (page w) = Some a -> 0 <= a_high_water a <= Z.of_nat (mark w);
  inv_sharp : b = true -> sharp (js w) (hist w) (mark w)
}.

(** Steps that do not replace the document. *)
Definition quiet s : bool :=
  match s with Mutate _ => true | Navigate => false | Pump PageFrameNavigated => false | Pump _ => true end.
Definition all_quiet (ss : list (step (C:=C) (X:=X))) : Prop := Forall (fun s => quiet s = true) ss.
(** Answers for which the script's own drain function is in place. *)
Definition drains (r : reply) : bool := match r with Missing => false | _ => true end.
(** Answers that empty the log. *)
Definition ran (r : reply) : bool := match r with Answered | Lost => true | _ => false end.
Definition quiet_walk k : Prop := all_quiet (w_before k) /\ all_quiet (w_after k).
Definition quiet_env e : Prop :=
  all_quiet (e_pre e) /\ all_quiet (e_mid e) /\ all_quiet (e_gap e) /\ quiet_walk (e_walk e) /\
  drains (e_drain e) = true /\ drains (e_full_drain e) = true.

(** [w'] follows [w] in the same document with the same anchor and mark. *)
Definition follows w w' : Prop :=
  hist w `prefix_of` hist w' /\ mark w' = mark w /\ delta_anchor (page w') = delta_anchor (page w).

Lemma quiet_step_inv b s w : quiet s = true -> Inv b w -> Inv b (do_step s w) /\ follows w (do_step s w).
Proof.
  intros Q [I1 I2 I3]. destruct s as [rs| |ev]; [|discriminate|].
  - destruct (observe_calls (rs ≫= record_calls) _ _ _ I1) as [A B].
    split; [split; [exact A|exact I2|intros Hb; now apply B, I3]|]. split; [apply extend_prefix|done].
  - assert (delta_anchor (event_pump ev (page w)) = delta_anchor (page w)) as Ea
      by (destruct ev as [|[]|[]|[]| | |]; done || discriminate).
    split; [split; [exact I1| |exact I3]|]; cbn [do_step with_page page mark].
    + intros a Ha. apply I2. congruence.
    + split; [done|]. split; [done|exact Ea].
Qed.

Lemma quiet_steps_inv b ss : forall w, all_quiet ss -> Inv b w -> Inv b (do_steps ss w) /\ follows w (do_steps ss w).
Proof.
  induction ss as [|s ss IH]; intros w Q I; [split; [exact I|split; done]|].
  apply Forall_cons in Q as [Qs Q]. destruct (quiet_step_inv b s w Qs I) as [I1 (P1 & M1 & A1)].
  destruct (IH _ Q I1) as [I2 (P2 & M2 & A2)]. split; [exact I2|].
  split; [etransitivity; [exact P1|exact P2]|]. split; [etransitivity; [exact M2|exact M1]|]. etransitivity; [exact A2|exact A1].
Qed.

Lemma with_mm_inv b w f : Inv b w -> Inv b (with_mm w f).
Proof. intros [I1 I2 I3]. now split. Qed.

Lemma drain_log_inv b r w d w' : drains r = true -> Inv b w -> drain_log r w = (d, w') ->
  Inv (b && ran r || ran r) w' /\ hist w' = hist w /\ mark w' = length (hist w) /\ page w' = page w /\
  (forall l, d = Ok l -> l = js_log (js w)).
Proof.
  intros Q [[S N U M E] I2 I3] Ed.
  assert (forall j, (j = js w \/ j = mkJs (js_seq (js w)) []) -> core j (hist w) (length (hist w))) as K.
  { intros j [-> | ->]; split; cbn [js_seq js_log]; try done. apply suffix_nil. }
  assert (forall a, delta_anchor (page w) = Some a -> 0 <= a_high_water a <= Z.of_nat (length (hist w))) as A.
  { intros a Ha. specialize (I2 a Ha). lia. }
  assert ((b && ran r || ran r) = ran r) as -> by now destruct b, r.
  destruct r; cbn in Q; try discriminate; injection Ed as <- <-; cbn [page js hist mark ran];
    (split; [split; [apply K; auto|exact A|]|]).
  all: try discriminate.
  all: try (intros _; unfold sharp; cbn; lia).
  all: split; [done|]; split; [done|]; split; [done|]; intros l; congruence.
Qed.

Lemma drain_hw_inv b r w hw w' : drains r = true -> Inv b w -> drain_mutation_high_water r w = (hw, w') ->
  Inv (ran r) w' /\ hist w' = hist w /\ mark w' = length (hist w) /\ page w' = page w /\ 0 <= hw <= Z.of_nat (mark w').
Proof.
  intros Q I. unfold drain_mutation_high_water. destruct (drain_log r w) as [d w1] eqn:Ed.
  destruct (drain_log_inv b r w d w1 Q I Ed) as (I1 & Hh & Hm & Hp & Hl).
  assert ((b && ran r || ran r) = ran r) as E by now destruct b, r. rewrite E in I1.
  intros [= <- <-]. split; [exact I1|]. split; [exact Hh|]. split; [exact Hm|]. split; [exact Hp|].
  destruct d as [l|]; [|lia]. rewrite (Hl l eq_refl). destruct (decide (js_log (js w) = [])) as [->|N]; [cbn; lia|].
  destruct I as [[S Nn U M Em] _ _]. rewrite (max_seq_suffix _ _ Nn U N). cbn. rewrite Hm. unfold zlen. lia.
Qed.

Lemma do_snapshot_inv b hw base partial stale k w sn w' : Inv b w -> 0 <= hw <= Z.of_nat (mark w) -> quiet_walk k ->
  do_snapshot sha256_hex target_id hw base partial stale k w = (Ok sn, w') ->
  Inv b w' /\ hist w `prefix_of` hist w' /\ mark w' = mark w /\
  delta_anchor (page w') = Some (mkAnchor (f_seq sn) hw).
Proof.
  intros [I1 I2 I3] Hw [Q1 Q2] E. unfold do_snapshot in E. cbn [next_snapshot_seq] in E.
  set (w1 := with_page w _) in E. assert (Inv b w1) as J1 by (split; [exact I1|exact I2|exact I3]).
  destruct (quiet_steps_inv b _ _ Q1 J1) as [J2 (P2 & M2 & _)].
  set (w2 := do_steps (w_before k) w1) in *. clearbody w2.
  destruct (w_root k) as [root|]; [|discriminate]. destruct (w_targets k) as [res|]; [|discriminate].
  cbn [drain_snapshot_extras] in E. set (w3 := with_page w2 _) in E.
  assert (Inv b w3) as J3 by (destruct J2 as [? ? ?]; now split).
  destruct (quiet_steps_inv b _ _ Q2 J3) as [J4 (P4 & M4 & _)].
  set (w4 := do_steps (w_after k) w3) in *. clearbody w4.
  injection E as <- <-. destruct J4 as [K1 K2 K3]. cbn [f_seq with_page hist mark page set_delta_anchor delta_anchor].
  assert (mark w4 = mark w) as Em by (rewrite M4; cbn; now rewrite M2).
  split; [split; [exact K1| |exact K3]|].
  - cbn. intros a [= <-]. cbn. now rewrite Em.
  - split; [|done]. etransitivity; [exact P2|exact P4].
Qed.

(** ** Reachable worlds *)

(** Worlds reached by one caller at a time, from a fresh page, while calls
    succeed and a navigation is handled by the pump before the next call; the
    flag: the last drain ran in the page. *)
Inductive reach : bool -> World -> Prop :=
| reach_init u t : reach true (mkWorld (page_init u t) js_init mutation_default [] 0)
| reach_step b w s : reach b w -> quiet s = true -> reach b (do_step s w)
| reach_navigate b w : reach b w -> reach true (do_step (Pump PageFrameNavigated) (do_step Navigate w))
| reach_snapshot b w r k sn w' : reach b w -> drains r = true -> quiet_walk k ->
    snapshot sha256_hex target_id r k w = (Ok sn, w') -> reach (ran r) w'
| reach_delta b w since e resp w' : reach b w -> quiet_env e ->
    snapshot_delta_since sha256_hex target_id since e w = (Ok resp, w') ->
    reach (ran (e_drain e) && ran (e_full_drain e)) w'.

Lemma inv_weaken b b' w : (b' = true -> b = true) -> Inv b w -> Inv b' w.
Proof. intros Hb [I1 I2 I3]. split; auto. Qed.

Lemma fallback_inv b since e w resp w' : quiet_env e -> Inv b w ->
  fallback sha256_hex target_id since e w = (Ok resp, w') -> Inv (ran (e_full_drain e)) w'.
Proof.
  intros (_ & _ & _ & Qk & _ & Qf) I. unfold fallback.
  destruct (drain_mutation_high_water (e_full_drain e) w) as [hw w1] eqn:Ed.
  destruct (drain_hw_inv b _ _ _ _ Qf I Ed) as (I1 & _ & _ & _ & Hw).
  destruct (do_snapshot _ _ _ _ _ _ _ w1) as [[s|] w2] eqn:Es; [|discriminate]. intros [= _ <-].
  now apply do_snapshot_inv with (1 := I1) in Es as (I2 & _).
Qed.

(** What a delta holds, and the world it leaves. *)
Definition delta_of w since (d : SnapshotDelta) w' b : Prop :=
  exists h n, hist w `prefix_of` h /\ h `prefix_of` hist w' /\ mark w' = length h /\
    (n <= mark w)%nat /\ (b = true -> n = mark w) /\ s_mutations d = drop n h /\ s_base d = since /\
    option_map a_seq (delta_anchor (page w)) = Some since /\
    option_map a_seq (delta_anchor (page w')) = Some (s_seq d).

Lemma fallback_not_delta since e w d w' : fallback sha256_hex target_id since e w <> (Ok (Delta d), w').
Proof.
  unfold fallback. destruct (drain_mutation_high_water _ _) as [hw w1].
  destruct (do_snapshot _ _ _ _ _ _ _ w1) as [[] w2]; discriminate.
Qed.

Lemma delta_since_inv b since e w resp w' : quiet_env e -> Inv b w ->
  snapshot_delta_since sha256_hex target_id since e w = (Ok resp, w') ->
  Inv (ran (e_drain e) && ran (e_full_drain e)) w' /\
  (forall d, resp = Delta d -> delta_of w since d w' b).
Proof.
  intros Q I E. pose proof Q as (Qp & Qm & Qg & Qk & Qd & Qf). unfold snapshot_delta_since in E.
  assert (forall b' w1, Inv b' w1 -> fallback sha256_hex target_id since e w1 = (Ok resp, w') ->
    Inv (ran (e_drain e) && ran (e_full_drain e)) w' /\ (forall d, resp = Delta d -> delta_of w since d w' b)) as K.
  { clear E. intros b' w1 I1 E. split.
    - eapply inv_weaken; [|now apply (fallback_inv b' since e w1 resp)]. now intros [_ ?]%andb_true_iff.
    - intros d ->. now apply fallback_not_delta in E. }
  destruct (since =? 0).
  { unfold snapshot in E. destruct (drain_mutation_high_water _ w) as [hw w1] eqn:Ed.
    destruct (drain_hw_inv b _ _ _ _ Qf I Ed) as (I1 & _ & _ & _ & Hw).
    destruct (do_snapshot _ _ _ _ _ _ _ w1) as [[sn|] w2] eqn:Es; [|discriminate]. injection E as <- <-.
    apply do_snapshot_inv with (1 := I1) in Es as (I2 & _); [|done|done]. split; [|discriminate].
    eapply inv_weaken; [|exact I2]. now intros [_ ?]%andb_true_iff. }
  destruct (quiet_steps_inv b _ _ Qp I) as [I1 (P1 & M1 & A1)]. set (w1 := do_steps (e_pre e) w) in *. clearbody w1.
  destruct (e_targets e) as [res|]; [|discriminate].
  destruct (negb _); [eapply K; [|exact E]; eapply with_mm_inv; eassumption|].
  destruct (delta_anchor (page w1)) as [a|] eqn:Ea; [|eapply K; [|exact E]; eapply with_mm_inv; eassumption].
  destruct (a_seq a =? since) eqn:Es; cbn [negb] in E; [|eapply K; [|exact E]; eapply with_mm_inv; eassumption].
  destruct (quiet_steps_inv b _ _ Qm I1) as [I2 (P2 & M2 & A2)]. set (w2 := do_steps (e_mid e) w1) in *. clearbody w2.
  destruct (drain_log (e_drain e) w2) as [dr w3] eqn:Ed.
  destruct (drain_log_inv b _ _ _ _ Qd I2 Ed) as (I3 & Hh & Hm & Hp & Hl).
  assert ((b && ran (e_drain e) || ran (e_drain e)) = ran (e_drain e)) as Er by now destruct b, (e_drain e).
  rewrite Er in I3. clear Er.
  destruct (quiet_steps_inv _ _ _ Qg I3) as [I4 (P4 & M4 & A4)]. set (w4 := do_steps (e_gap e) w3) in *. clearbody w4.
  destruct dr as [l|]; [|eapply K; [|exact E]; eapply with_mm_inv; eassumption].
  specialize (Hl l eq_refl). destruct I2 as [[S N U M Em] Ha Hsh].
  assert (0 <= a_high_water a <= Z.of_nat (mark w2)) as Hw by (apply Ha; congruence).
  destruct (mutation_log_overflowed (a_high_water a) l) eqn:Eo.
  - destruct (do_snapshot _ _ _ _ _ _ _ _) as [[sn|] w5] eqn:Ew; [|discriminate]. injection E as <- <-.
    split; [|discriminate]. apply do_snapshot_inv with (1 := with_mm_inv _ _ record_drain_overflow I4) in Ew as (I5 & _); [|cbn|done].
    + eapply inv_weaken; [|exact I5]. now intros [? _]%andb_true_iff.
    + rewrite M4, Hm. destruct (decide (l = [])) as [->|Nl]; [cbn; lia|]. subst l.
      rewrite (max_seq_suffix _ _ N U Nl). cbn. unfold zlen. lia.
  - subst l. destruct (drained_above _ _ (mark w2) (a_high_water a) N U M Em Hw Eo) as (n & Hn & Hmut & Hsharp).
    destruct (next_snapshot_seq (page w4)) as [ns p] eqn:En.
    injection E as <- <-. split.
    + destruct I4 as [J1 J2 J3]. split; [exact J1| |intros [? _]%andb_true_iff; now apply J3].
      cbn. intros a' [= <-]. cbn [a_high_water]. rewrite Hmut, M4, Hm.
      destruct (decide (drop n (hist w2) = [])) as [->|Nd]; [cbn; lia|].
      rewrite (max_seq_suffix (hist w2)); [cbn; unfold zlen; lia|done| |done].
      exists (take n (hist w2)). now rewrite take_drop.
    + intros d [= <-]. exists (hist w2), n. cbn [s_mutations s_base s_seq with_page mark hist page set_delta_anchor delta_anchor].
      split; [etransitivity; [exact P1|exact P2]|]. split; [rewrite <- Hh; exact P4|]. split; [congruence|].
      split; [lia|]. split; [intros Hb; specialize (Hsharp (Hsh Hb)); congruence|].
      split; [exact Hmut|]. split; [done|]. split; [|done].
      rewrite <- A1. cbn. f_equal. lia.
Qed.

Lemma reach_inv b w : reach b w -> Inv b w.
Proof.
  induction 1 as [u t|b w s _ I Q|b w _ I|b w r k sn w' _ I Q Qk E|b w since e resp w' _ I Q E].
  - split; [apply core_init|discriminate|intros _; apply le_n].
  - now apply quiet_step_inv.
  - split; [apply core_init|discriminate|intros _; apply le_n].
  - unfold snapshot in E. destruct (drain_mutation_high_water r w) as [hw w1] eqn:Ed.
    destruct (drain_hw_inv b _ _ _ _ Q I Ed) as (I1 & _ & _ & _ & Hw).
    now apply do_snapshot_inv with (1 := I1) in E as (I2 & _).
  - now apply delta_since_inv with (2 := I) in E as [I1 _].
Qed.


End Deltas.

(** The console and exception buffers hold the last fifty since the drain. *)
Lemma push50_last {A} (xs : list A) : foldl push50 [] xs = drop (length xs - 50) xs.
Proof.
  induction xs as [|x xs IH] using rev_ind; [done|]. rewrite foldl_app. cbn [foldl]. rewrite IH, length_app. cbn [length].
  unfold push50. rewrite length_drop. destruct (decide (length xs < 50)%nat) as [L|L].
  - assert ((length xs - (length xs - 50) =? 50)%nat = false) as -> by (apply Nat.eqb_neq; lia).
    assert ((length xs - 50 = 0)%nat) as -> by lia. assert ((length xs + 1 - 50 = 0)%nat) as -> by lia. done.
  - assert ((length xs - (length xs - 50) =? 50)%nat = true) as -> by (apply Nat.eqb_eq; lia).
    rewrite drop_app_le by lia. f_equal. rewrite tail_drop || idtac.
    assert ((length xs + 1 - 50 = S (length xs - 50))%nat) as -> by lia.
    generalize (length xs - 50)%nat as n. clear. intros n. revert xs. induction n as [|n IH]; intros [|y xs]; try done.
    apply (IH xs).
Qed.

End Snapshot.

(** ** Runs *)

Module SnapshotExamples.
Import JsonTree Snapshot.

Abbreviation W := (World (C:=unit) (X:=unit)).
Definition div : dom_node := DomNode "DIV" "" Plain.
Definition touch : step (C:=unit) (X:=unit) := Mutate [mkDom "attributes" (Some div) [] []].
Definition walk0 : Walk (C:=unit) (X:=unit) (V:=json) :=
  mkWalk (Some (JArr [])) (Some (JObj [])) (fun _ => None) None [] [].
Definition broken_walk : Walk (C:=unit) (X:=unit) (V:=json) :=
  mkWalk None (Some (JObj [])) (fun _ => None) None [] [].
Definition env0 : Env (C:=unit) (X:=unit) (V:=json) := mkEnv (Some (JObj [])) [] [] Answered [] Answered walk0.
Definition fresh : W := mkWorld (page_init "u" "t") js_init mutation_default [] 0.
Definition snap (w : W) : W := snd (snapshot id "tab" Answered walk0 w).
Definition delta (since : Z) (w : W) := snapshot_delta_since id "tab" since env0 w.

(** One mutation, a snapshot, two more mutations. *)
Definition w3 : W := do_step touch (do_step touch (snap (do_step touch fresh))).


(** A snapshot that finds the log empty forgets how far the log had come, so
    the next mutation is taken for an overflow and the delta is refused. *)
Example empty_drain_forgets :
  let w := do_step touch (snap (snap (do_step touch fresh))) in
  match delta 2 w with
  | (Ok (Full s), w') => f_stale s = true /\ drain_overflows (mmetrics w') = 1
  | _ => False
  end.
Proof. vm_compute. split; reflexivity. Qed.

(** A full snapshot that fails after its drain loses what it drained: the next
    delta for the earlier snapshot is empty although the page changed. *)
Example failed_snapshot_loses :
  let w := do_step touch (snap fresh) in
  let w := snd (snapshot id "tab" Answered broken_walk w) in
  match delta 1 w with
  | (Ok (Delta d), _) => s_mutations d = [] /\ length (hist w) = 1%nat
  | _ => False
  end.
Proof. vm_compute. split; reflexivity. Qed.

(** A navigation handled while a snapshot walks the tree: the anchor is set
    after the pump cleared it, and hides the new document's first mutations. *)
Example navigation_during_walk :
  let k := mkWalk (V:=json) (Some (JArr [])) (Some (JObj [])) (fun _ => None) None
             [Navigate; Pump PageFrameNavigated] [] in
  let w := do_step touch (snd (snapshot id "tab" Answered k (do_step touch fresh))) in
  match delta 1 w with
  | (Ok (Delta d), _) => s_mutations d = [] /\ length (hist w) = 1%nat
  | _ => False
  end.
Proof. vm_compute. split; reflexivity. Qed.

(** A target inside a closed shadow root inside an open one is reported itself,
    not the host of the closed root. *)
Example closed_inside_open_leaks :
  let host := DomNode "HOST" "" (ShadowRoot false div) in
  let inner := DomNode "SECRET" "" (ShadowRoot true host) in
  climbToShadowHost inner = inner.
Proof. reflexivity. Qed.

End SnapshotExamples.
