(* ===== verification/Network.v ===== *)
(** * Network: interception, the HAR ring and its dates

    Models [browser-engine/src/network.rs]: the per-page handler registry and
    the dispatch of paused requests, the HAR ring fed by the network events,
    the records sent to observers, and the date, query and glob helpers.  The
    regex engine is a parameter; the order in which a [HashMap] is iterated is
    an argument (any order of its values). *)
From S2P Require Import Prelude Text Json F64.

(** [Value::as_object] *)
Class JsonObject (V : Type) := as_object : V -> option (list (string * V)).
#[export] Instance json_tree_object : JsonObject JsonTree.json :=
  fun v => match v with JsonTree.JObj kvs => Some kvs | _ => None end.

Module Network.

(** ** Dates *)

(** [x as u32] *)
Definition as_u32 (x : Z) : Z := x mod (u32_max + 1).

Record civil := mkCivil { c_y : Z; c_mo : Z; c_d : Z; c_h : Z; c_mi : Z; c_s : Z }.

(** Euclidean division by a positive constant is [Z.div] and [Z.modulo]; [/] on
    non-negative values too. *)
Definition unix_secs_to_ymdhms (secs : Z) : civil :=
  let days := secs / 86400 in
  let seconds_of_day := secs mod 86400 in
  let h := as_u32 (seconds_of_day / 3600) in
  let mi := as_u32 ((seconds_of_day mod 3600) / 60) in
  let s := as_u32 (seconds_of_day mod 60) in
  let z := days + 719468 in
  let era := z / 146097 in
  let doe := z - era * 146097 in
  let yoe := (doe - doe / 1460 + doe / 36524 - doe / 146096) / 365 in
  let y_civ := yoe + era * 400 in
  let doy := doe - (365 * yoe + yoe / 4 - yoe / 100) in
  let mp := (5 * doy + 2) / 153 in
  let d := as_u32 (doy - (153 * mp + 2) / 5 + 1) in
  let mo := as_u32 (if mp <? 10 then mp + 3 else mp - 9) in
  let y := if mo <=? 2 then y_civ + 1 else y_civ in
  mkCivil y mo d h mi s.

Definition ymdhms_to_unix_secs (c : civil) : Z :=
  let y_civ := if c_mo c <=? 2 then c_y c - 1 else c_y c in
  let era := y_civ / 400 in
  let yoe := y_civ - era * 400 in
  let m := if 2 <? c_mo c then c_mo c - 3 else c_mo c + 9 in
  let doy := (153 * m + 2) / 5 + c_d c - 1 in
  let doe := yoe * 365 + yoe / 4 - yoe / 100 + doy in
  let days := era * 146097 + doe - 719468 in
  days * 86400 + c_h c * 3600 + c_mi c * 60 + c_s c.

(** [format!("{y:04}-...")]; [ms]: the milliseconds after [as i64]; [/] and [%]
    truncate towards zero. *)
Definition fmt_wall_ms (ms : Z) : list byte :=
  let c := unix_secs_to_ymdhms (Z.quot ms 1000) in
  let frac := Z.abs (Z.rem ms 1000) in
  Text.pad 4 (c_y c) ++ [Byte.x2d] ++ Text.pad 2 (c_mo c) ++ [Byte.x2d] ++ Text.pad 2 (c_d c) ++ [Byte.x54] ++
  Text.pad 2 (c_h c) ++ [Byte.x3a] ++ Text.pad 2 (c_mi c) ++ [Byte.x3a] ++ Text.pad 2 (c_s c) ++ [Byte.x2e] ++
  Text.pad 3 frac ++ [Byte.x5a].
Definition wall_ms_to_rfc3339 (wall_ms : f64) : list byte := fmt_wall_ms (f64_to_i64 wall_ms).

(** [s.get(a..b)], of a string without multi-byte characters. *)
Definition get_range (a b : nat) (s : list byte) : option (list byte) :=
  if (b <=? length s)%nat then Some (take (b - a) (drop a s)) else None.
Definition field (p : list byte -> option Z) (a b : nat) (s : list byte) : option Z :=
  match get_range a b s with Some t => p t | None => None end.
(** The seconds and milliseconds of [rfc3339_to_wall_ms]. *)
Definition parse_wall (s : list byte) : option (Z * Z) :=
  if (length s <? 19)%nat then None
  else
    match field Text.parse_i64 0 4 s, field (Text.parse_unsigned u32_max) 5 7 s,
          field (Text.parse_unsigned u32_max) 8 10 s, field (Text.parse_unsigned u32_max) 11 13 s,
          field (Text.parse_unsigned u32_max) 14 16 s, field (Text.parse_unsigned u32_max) 17 19 s with
    | Some y, Some mo, Some d, Some h, Some mi, Some sec =>
        let ms := if bool_decide (s !! 19%nat = Some Byte.x2e)
                  then default 0 (field (Text.parse_unsigned u32_max) 20 23 s) else 0 in
        Some (ymdhms_to_unix_secs (mkCivil y mo d h mi sec), ms)
    | _, _, _, _, _, _ => None
    end.
Definition rfc3339_to_wall_ms (s : list byte) : option f64 :=
  match parse_wall s with
  | Some (secs, ms) => Some (f64_add (f64_mul (f64_of_Z secs) (f64_of_Z 1000)) (f64_of_Z ms))
  | None => None
  end.

(** ** Query strings and patterns *)

Record HarNameValue := mkNv { nv_name : list byte; nv_value : list byte }.

(** [str::find] of a byte. *)
Fixpoint find_byte (c : byte) (l : list byte) : option nat :=
  match l with [] => None | x :: l => if bool_decide (x = c) then Some 0%nat else option_map S (find_byte c l) end.
(** [split(c)] *)
Fixpoint split_on (c : byte) (l : list byte) : list (list byte) :=
  match l with
  | [] => [[]]
  | x :: l =>
      if bool_decide (x = c) then [] :: split_on c l
      else match split_on c l with seg :: rest => (x :: seg) :: rest | [] => [[x]] end
  end.
Definition parse_pair (kv : list byte) : HarNameValue :=
  match find_byte Byte.x3d kv with
  | Some i => mkNv (take i kv) (drop (S i) kv)
  | None => mkNv kv []
  end.
Definition parse_query_pairs (url : list byte) : list HarNameValue :=
  match find_byte Byte.x3f url with
  | None => []
  | Some i =>
      let q_start := S i in
      let q_end := default (length url) (find_byte Byte.x23 url) in
      if (q_end <=? q_start)%nat then []
      else map parse_pair (List.filter (fun s => negb (bool_decide (s = [])))
                             (split_on Byte.x26 (take (q_end - q_start) (drop q_start url))))
  end.

(** The pattern [glob_to_regex] compiles; [ch] as code points. *)
Definition is_special (ch : Z) : bool :=
  bool_decide (ch ∈ ([46; 43; 40; 41; 124; 91; 93; 123; 125; 94; 36; 92; 63] : list Z)).
Definition glob_char (ch : Z) : list Z :=
  if ch =? 42 then [46; 42] else if is_special ch then [92; ch] else [ch].
Definition glob_to_regex_src (pattern : list Z) : list Z := [94] ++ (pattern ≫= glob_char) ++ [36].

(** ** The HAR ring *)

Definition HAR_RING_CAP : nat := 1024.

Record HarRecord := mkRec {
  r_request_id : string; r_method : string; r_url : string; r_http_version : string;
  r_request_headers : list (string * string); r_request_body_size : Z;
  r_started_wall_ms : f64; r_started_mono_ms : f64; r_status : Z; r_status_text : string;
  r_response_headers : list (string * string); r_mime : string; r_size : Z; r_finished_mono_ms : option f64
}.
Record HarEntry := mkEntry {
  h_started : list byte; h_time : f64; h_method : string; h_url : string; h_http_version : string;
  h_request_headers : list (string * string); h_query : list HarNameValue; h_body_size : Z;
  h_status : Z; h_status_text : string; h_response_headers : list (string * string); h_size : Z; h_mime : string;
  h_request_id : string
}.
Record HarRing := mkRing { open_ : gmap string HarRecord; closed : list HarEntry }.
Definition ring_default : HarRing := mkRing ∅ [].

Section Har.
Context {V : Type} `{JsonView V} `{JsonF64 V} `{JsonObject V}.

(** The events, with the fields that are read. *)
Record RequestWillBeSent := mkRwbs { q_request_id : V; q_request : V; q_wall_time : V; q_timestamp : V }.
Record ResponseReceived := mkResp { p_request_id : V; p_response : V; p_timestamp : V }.
Record LoadingFinished := mkFin { f_request_id : V; f_timestamp : V; f_encoded : f64 }.
Record LoadingFailed := mkFail { x_request_id : V; x_timestamp : V; x_error_text : string }.

Definition f64_of (v : V) : f64 := default f64_zero (as_f64 v).
Definition ms_of (v : V) : f64 := f64_mul (f64_of v) (f64_of_Z 1000).
Definition str_or (d : string) (o : option string) : string := default d o.
Definition headers_of (o : option V) : option (list (string * string)) :=
  match o with
  | Some h => match as_object h with
              | Some kvs => Some (map (fun '(k, v) => (k, str_or "" (as_str v))) kvs)
              | None => None
              end
  | None => None
  end.

Definition har_record_request (e : RequestWillBeSent) (r : HarRing) : HarRing :=
  match as_str (q_request_id e) with
  | None => r
  | Some rid =>
      let req := q_request e in
      let rec := mkRec rid (str_or "GET" (vget_str "method" req)) (str_or "" (vget_str "url" req)) "HTTP/1.1"
                   (default [] (headers_of (vget "headers" req)))
                   (match vget_str "postData" req with Some s => Z.of_nat (String.length s) | None => 0 end)
                   (ms_of (q_wall_time e)) (ms_of (q_timestamp e)) 0 "" [] "" 0 None in
      mkRing (<[rid := rec]> (open_ r)) (closed r)
  end.

(** The record with the response in it, and the wall-clock second of the response. *)
Definition with_response (e : ResponseReceived) (rec : HarRecord) : HarRecord :=
  let resp := p_response e in
  mkRec (r_request_id rec) (r_method rec) (r_url rec) (r_http_version rec) (r_request_headers rec)
    (r_request_body_size rec) (r_started_wall_ms rec) (r_started_mono_ms rec)
    (default 0 (match vget "status" resp with Some v => as_i64 v | None => None end))
    (str_or "" (vget_str "statusText" resp))
    (default (r_response_headers rec) (headers_of (vget "headers" resp)))
    (str_or "" (vget_str "mimeType" resp)) (r_size rec) (r_finished_mono_ms rec).
Definition har_record_response (e : ResponseReceived) (r : HarRing) : option f64 * HarRing :=
  match as_str (p_request_id e) with
  | None => (None, r)
  | Some rid =>
      match open_ r !! rid with
      | None => (None, r)
      | Some rec =>
          let ts := f64_div (f64_add (r_started_wall_ms rec)
                                     (f64_sub (ms_of (p_timestamp e)) (r_started_mono_ms rec))) (f64_of_Z 1000) in
          (Some ts, mkRing (<[rid := with_response e rec]> (open_ r)) (closed r))
      end
  end.

Definition entry_of (rec : HarRecord) : HarEntry :=
  let time_ms := match r_finished_mono_ms rec with
                 | Some f => f64_max (f64_sub f (r_started_mono_ms rec)) f64_zero
                 | None => f64_zero
                 end in
  mkEntry (wall_ms_to_rfc3339 (r_started_wall_ms rec)) time_ms (r_method rec) (r_url rec) (r_http_version rec)
    (r_request_headers rec) (parse_query_pairs (String.list_byte_of_string (r_url rec))) (r_request_body_size rec)
    (r_status rec) (r_status_text rec) (r_response_headers rec) (r_size rec) (r_mime rec) (r_request_id rec).
Definition push_entry (rec : HarRecord) (r : HarRing) : HarRing :=
  mkRing (open_ r) ((if (HAR_RING_CAP <=? length (closed r))%nat then tail (closed r) else closed r) ++ [entry_of rec]).

Definition finish_record (rec : HarRecord) (ts : f64) (size : Z) (text : string) : HarRecord :=
  mkRec (r_request_id rec) (r_method rec) (r_url rec) (r_http_version rec) (r_request_headers rec)
    (r_request_body_size rec) (r_started_wall_ms rec) (r_started_mono_ms rec) (r_status rec) text
    (r_response_headers rec) (r_mime rec) size (Some ts).
Definition har_record_finished (e : LoadingFinished) (r : HarRing) : HarRing :=
  match as_str (f_request_id e) with
  | None => r
  | Some rid =>
      match open_ r !! rid with
      | None => r
      | Some rec =>
          push_entry (finish_record rec (ms_of (f_timestamp e)) (f64_to_i64 (f_encoded e)) (r_status_text rec))
            (mkRing (delete rid (open_ r)) (closed r))
      end
  end.
Definition har_record_failed (e : LoadingFailed) (r : HarRing) : HarRing :=
  match as_str (x_request_id e) with
  | None => r
  | Some rid =>
      match open_ r !! rid with
      | None => r
      | Some rec =>
          let text := if r_status rec =? 0 then x_error_text e else r_status_text rec in
          push_entry (finish_record rec (ms_of (x_timestamp e)) (r_size rec) text)
            (mkRing (delete rid (open_ r)) (closed r))
      end
  end.

(** [w >= since] on [f64]. *)
Definition snapshot_since (since_wall_ms : f64) (r : HarRing) : list HarEntry :=
  List.filter (fun e => match rfc3339_to_wall_ms (h_started e) with
                        | Some w => f64_le since_wall_ms w
                        | None => true
                        end) (closed r).

(** ** Handlers *)

Inductive InterceptAction : Type := Continue | Fulfill | Fail | Modify.
Record MockResponse := mkMock { mk_status : Z; mk_headers : list (string * string); mk_body : string }.
Definition mock_default : MockResponse := mkMock 0 [] "".
Record RequestOverrides := mkOv {
  ov_url : option string; ov_method : option string; ov_headers : list (string * string); ov_post : option string
}.
Definition overrides_default : RequestOverrides := mkOv None None [] None.

Context {Regex : Type}.
Variable regex_new : list Z -> option Regex.
Variable is_match : Regex -> string -> bool.

Record HandlerSpec := mkHandler {
  hs_id : string; hs_prefix : string; hs_pattern : string; hs_compiled : Regex; hs_action : InterceptAction;
  hs_mock : option MockResponse; hs_overrides : option RequestOverrides; hs_error : option string
}.

(** A record for [net.observe]. *)
Inductive Observed : Type :=
| ObsRequest (synthetic : bool) (request_id : V) (url method : option V) (ts_ms timestamp : f64)
| ObsResponse (request_id : V) (status url headers mime : option V) (ts_ms timestamp : f64).

(** The page's state; [observed]: what was sent to observers. *)
Record State := mkState { handlers : gmap string HandlerSpec; har : HarRing; next_id : Z; observed : list Observed }.
Definition state_new : State := mkState ∅ ring_default 0 [].

Definition allocate_id (prefix : string) (st : State) : string * State :=
  let prev := next_id st in
  let n := prev + 1 in
  (prefix +:+ "_" +:+ String.string_of_list_byte (Text.fmt_hex n),
   mkState (handlers st) (har st) (wrap_add u64_max prev 1) (observed st)).
Definition insert_handler (spec : HandlerSpec) (st : State) : string * State :=
  let '(id, st) := allocate_id (hs_prefix spec) st in
  let spec := mkHandler id (hs_prefix spec) (hs_pattern spec) (hs_compiled spec) (hs_action spec) (hs_mock spec)
                (hs_overrides spec) (hs_error spec) in
  (id, mkState (<[id := spec]> (handlers st)) (har st) (next_id st) (observed st)).

(** The registrations, up to the refresh of the patterns; [None]: the pattern does not compile. *)
Definition register (prefix pattern : string) (a : InterceptAction) (m : option MockResponse)
    (o : option RequestOverrides) (e : option string) (st : State) : option (string * State) :=
  match regex_new (glob_to_regex_src (Text.str_chars pattern)) with
  | None => None
  | Some rx => Some (insert_handler (mkHandler "" prefix pattern rx a m o e) st)
  end.
Definition net_intercept pattern a := register "h" pattern a None None None.
Definition net_intercept_fulfill_with_body pattern m := register "m" pattern Fulfill (Some m) None None.
Definition net_intercept_modify_request pattern o := register "mod" pattern Modify None (Some o) None.
Definition net_intercept_fail pattern e := register "fail" pattern Fail None None (Some e).

Fixpoint find_first {A} (p : A -> bool) (l : list A) : option A :=
  match l with [] => None | x :: l => if p x then Some x else find_first p l end.
(** [values]: the handlers in the order of the iteration. *)
Definition match_url (values : list HandlerSpec) (url : string) : option HandlerSpec :=
  find_first (fun h => is_match (hs_compiled h) url) values.

Inductive FetchDispatch : Type :=
| DContinue (request_id : V) (url method post : option string) (headers : option (list (string * string)))
| DFulfill (request_id : V) (status : Z) (headers : option (list (string * string))) (body : string)
| DFail (request_id : V) (error_reason : string).

Definition some_headers (l : list (string * string)) : option (list (string * string)) :=
  if bool_decide (l = []) then None else Some l.
Definition dispatch_fetch_event (values : list HandlerSpec) (request_id request : V) : FetchDispatch :=
  let url := str_or "" (vget_str "url" request) in
  match match_url values url with
  | None => DContinue request_id None None None None
  | Some spec =>
      match hs_action spec with
      | Continue => DContinue request_id None None None None
      | Modify =>
          let ov := default overrides_default (hs_overrides spec) in
          DContinue request_id (ov_url ov) (ov_method ov) (ov_post ov) (some_headers (ov_headers ov))
      | Fulfill =>
          let mock := default mock_default (hs_mock spec) in
          DFulfill request_id (mk_status mock) (some_headers (mk_headers mock)) (mk_body mock)
      | Fail => DFail request_id (str_or "Failed" (hs_error spec))
      end
  end.

(** ** Pump side *)

Definition with_har (st : State) (r : HarRing) (o : list Observed) : State :=
  mkState (handlers st) r (next_id st) (observed st ++ o).
Definition record_request (e : RequestWillBeSent) (st : State) : State :=
  with_har st (har_record_request e (har st))
    [ObsRequest false (q_request_id e) (vget "url" (q_request e)) (vget "method" (q_request e))
       (ms_of (q_timestamp e)) (f64_of (q_wall_time e))].
Definition record_response (e : ResponseReceived) (st : State) : State :=
  let '(ts, r) := har_record_response e (har st) in
  with_har st r
    [ObsResponse (p_request_id e) (vget "status" (p_response e)) (vget "url" (p_response e))
       (vget "headers" (p_response e)) (vget "mimeType" (p_response e)) (ms_of (p_timestamp e))
       (default (f64_of (p_timestamp e)) ts)].
Definition record_finished (e : LoadingFinished) (st : State) : State :=
  with_har st (har_record_finished e (har st)) [].
Definition record_failed (e : LoadingFailed) (st : State) : State :=
  with_har st (har_record_failed e (har st)) [].
Definition record_synthetic_request (request_id request : V) (now_secs : f64) (st : State) : State :=
  with_har st (har st)
    [ObsRequest true request_id (vget "url" request) (vget "method" request)
       (f64_mul now_secs (f64_of_Z 1000)) now_secs].

End Har.

(** ** The calendar *)

Definition leap (y : Z) : bool := (y mod 4 =? 0) && (negb (y mod 100 =? 0) || (y mod 400 =? 0)).
Definition days_in_month (y mo : Z) : Z :=
  if mo =? 2 then (if leap y then 29 else 28)
  else if (mo =? 4) || (mo =? 6) || (mo =? 9) || (mo =? 11) then 30 else 31.
(** A date of the proleptic Gregorian calendar and a time of day. *)
Definition valid_civil (c : civil) : Prop :=
  1 <= c_mo c <= 12 /\ 1 <= c_d c <= days_in_month (c_y c) (c_mo c) /\
  0 <= c_h c < 24 /\ 0 <= c_mi c < 60 /\ 0 <= c_s c < 60.

(** The day of the era: year of the era, day of the year from March, month from March. *)
Definition yoe_of (doe : Z) : Z := (doe - doe / 1460 + doe / 36524 - doe / 146096) / 365.
Definition doy_of (doe : Z) : Z := doe - (365 * yoe_of doe + yoe_of doe / 4 - yoe_of doe / 100).
Definition mp_of (doe : Z) : Z := (5 * doy_of doe + 2) / 153.
Definition day_of (doe : Z) : Z := doy_of doe - (153 * mp_of doe + 2) / 5 + 1.
Definition mo_of (doe : Z) : Z := if mp_of doe <? 10 then mp_of doe + 3 else mp_of doe - 9.
Definition carry_of (doe : Z) : Z := if mo_of doe <=? 2 then 1 else 0.

Lemma yoe_range doe : 0 <= doe < 146097 -> 0 <= yoe_of doe < 400.
Proof. intros H. unfold yoe_of. Z.div_mod_to_equations. lia. Qed.
Lemma doy_nonneg doe : 0 <= doe < 146097 -> 0 <= doy_of doe.
Proof. intros H. unfold doy_of, yoe_of. Z.div_mod_to_equations. lia. Qed.
Lemma doy_le doe : 0 <= doe < 146097 -> doy_of doe <= 365.
Proof. intros H. unfold doy_of, yoe_of. Z.div_mod_to_equations. lia. Qed.
(** Only a leap year has a day 365. *)
Lemma doy_leap doe : 0 <= doe < 146097 -> doy_of doe = 365 -> leap (yoe_of doe + 1) = true.
Proof.
  intros H E. assert ((yoe_of doe + 1) mod 4 = 0 /\
    ((yoe_of doe + 1) mod 100 <> 0 \/ (yoe_of doe + 1) mod 400 = 0)) as [L1 L2].
  { unfold doy_of, yoe_of in *. Z.div_mod_to_equations. lia. }
  unfold leap. lia.
Qed.

(** The months from March, by the day of the year. *)
Lemma month_days doy : 0 <= doy <= 365 ->
  let mp := (5 * doy + 2) / 153 in
  let d := doy - (153 * mp + 2) / 5 + 1 in
  let mo := if mp <? 10 then mp + 3 else mp - 9 in
  0 <= mp <= 11 /\ 1 <= d /\ (mo = 2 -> d = doy - 336) /\
  (mo <> 2 -> d <= if (mo =? 4) || (mo =? 6) || (mo =? 9) || (mo =? 11) then 30 else 31) /\
  (mo <= 2 -> 306 <= doy).
Proof.
  intros H. cbv zeta. set (mp := (5 * doy + 2) / 153).
  assert (0 <= mp <= 11) as Hm by (unfold mp; Z.div_mod_to_equations; lia).
  assert (153 * mp <= 5 * doy + 2 < 153 * mp + 153) as Hd by (unfold mp; Z.div_mod_to_equations; lia). clearbody mp.
  assert (mp = 0 \/ mp = 1 \/ mp = 2 \/ mp = 3 \/ mp = 4 \/ mp = 5 \/ mp = 6 \/ mp = 7 \/ mp = 8 \/ mp = 9 \/ mp = 10
          \/ mp = 11) as Hc by lia.
  destruct Hc as [->|[->|[->|[->|[->|[->|[->|[->|[->|[->|[->| ->]]]]]]]]]]]; repeat case_match; Z.div_mod_to_equations; lia.
Qed.

Lemma doe_facts doe : 0 <= doe < 146097 ->
  0 <= yoe_of doe < 400 /\ 0 <= mp_of doe <= 11 /\
  1 <= day_of doe <= days_in_month (yoe_of doe + carry_of doe) (mo_of doe) /\
  (doe < 146037 -> yoe_of doe + carry_of doe <= 399).
Proof.
  intros Hd. pose proof (yoe_range doe Hd) as Hy. pose proof (doy_nonneg doe Hd) as H0. pose proof (doy_le doe Hd) as H1.
  destruct (month_days (doy_of doe) ltac:(lia)) as (Hm & Hday & Hfeb & Hoth & Hlate). cbv zeta in *.
  fold (mp_of doe) in *. fold (mo_of doe) in *. fold (day_of doe) in *.
  split; [done|]. split; [done|]. split; [split; [done|]|].
  - unfold days_in_month. destruct (mo_of doe =? 2) eqn:E2; [|apply Hoth; lia].
    rewrite Hfeb by lia. unfold carry_of. assert (mo_of doe <=? 2 = true) as -> by lia.
    destruct (decide (doy_of doe = 365)) as [E|E]; [rewrite (doy_leap doe Hd E); cbv iota; clear - E; lia|]. clear - E H1; case_match; lia.
  - intros Hlt. unfold carry_of. destruct (mo_of doe <=? 2) eqn:E; [|lia]. specialize (Hlate ltac:(lia)).
    destruct (decide (yoe_of doe = 399)) as [Ey|]; [|lia]. exfalso.
    unfold doy_of in Hlate. rewrite Ey in Hlate. change (365 * 399 + 399 / 4 - 399 / 100) with 145731 in Hlate. lia.
Qed.

Lemma days_in_month_era y era mo : days_in_month (y + era * 400) mo = days_in_month y mo.
Proof.
  unfold days_in_month, leap.
  replace (y + era * 400) with (y + (era * 100) * 4) at 1 by lia. rewrite Z.mod_add by lia.
  replace (y + era * 400) with (y + (era * 4) * 100) at 1 by lia. rewrite Z.mod_add by lia.
  now rewrite Z.mod_add by lia.
Qed.

Lemma as_u32_small x : 0 <= x < 2 ^ 32 -> as_u32 x = x.
Proof. intros H. unfold as_u32, u32_max. apply Z.mod_small. lia. Qed.

Lemma days_in_month_le y mo : days_in_month y mo <= 31.
Proof. unfold days_in_month. repeat case_match; lia. Qed.

(** The fields of a second count, by its era and day. *)
Lemma civil_fields secs :
  let z := secs / 86400 + 719468 in
  let era := z / 146097 in
  let doe := z mod 146097 in
  unix_secs_to_ymdhms secs =
  mkCivil (yoe_of doe + era * 400 + carry_of doe) (mo_of doe) (day_of doe)
    (secs mod 86400 / 3600) (secs mod 86400 mod 3600 / 60) (secs mod 86400 mod 60).
Proof.
  cbv zeta. unfold unix_secs_to_ymdhms.
  pose proof (Z.mod_pos_bound (secs / 86400 + 719468) 146097 ltac:(lia)) as Hd.
  pose proof (Z.div_mod (secs / 86400 + 719468) 146097 ltac:(lia)) as Hz.
  set (z := secs / 86400 + 719468) in *. set (doe := z mod 146097) in *. set (era := z / 146097) in *.
  assert (z - era * 146097 = doe) as -> by lia.
  fold (yoe_of doe). fold (doy_of doe). fold (mp_of doe). fold (day_of doe). fold (mo_of doe).
  destruct (doe_facts doe Hd) as (_ & Hm & Hday & _). pose proof (days_in_month_le (yoe_of doe + carry_of doe) (mo_of doe)) as Hl.
  assert (1 <= mo_of doe <= 12) as Hmo by (unfold mo_of; case_match; lia).
  pose proof (Z.mod_pos_bound secs 86400 ltac:(lia)) as Hs. set (sod := secs mod 86400) in *.
  pose proof (Z.mod_pos_bound sod 3600 ltac:(lia)). pose proof (Z.mod_pos_bound sod 60 ltac:(lia)).
  assert (0 <= sod / 3600 < 24) by (split; [apply Z.div_pos|apply Z.div_lt_upper_bound]; lia).
  assert (0 <= sod mod 3600 / 60 < 60) by (split; [apply Z.div_pos|apply Z.div_lt_upper_bound]; lia).
  rewrite !as_u32_small by lia. f_equal. unfold carry_of. case_match; lia.
Qed.

Lemma civil_valid secs : valid_civil (unix_secs_to_ymdhms secs).
Proof.
  rewrite civil_fields. cbv zeta.
  set (doe := (secs / 86400 + 719468) mod 146097). set (era := (secs / 86400 + 719468) / 146097).
  pose proof (Z.mod_pos_bound (secs / 86400 + 719468) 146097 ltac:(lia)) as Hd. fold doe in Hd.
  destruct (doe_facts doe Hd) as (_ & Hm & Hday & _).
  pose proof (Z.mod_pos_bound secs 86400 ltac:(lia)) as Hs. set (sod := secs mod 86400) in *.
  pose proof (Z.mod_pos_bound sod 3600 ltac:(lia)). pose proof (Z.mod_pos_bound sod 60 ltac:(lia)).
  unfold valid_civil. cbn [c_y c_mo c_d c_h c_mi c_s].
  replace (yoe_of doe + era * 400 + carry_of doe) with ((yoe_of doe + carry_of doe) + era * 400) by lia.
  rewrite days_in_month_era. repeat split; try lia.
  1,2: unfold mo_of; case_match; lia.
  all: first [apply Z.div_pos; lia | apply Z.div_lt_upper_bound; lia].
Qed.

Lemma civil_inverse secs : ymdhms_to_unix_secs (unix_secs_to_ymdhms secs) = secs.
Proof.
  rewrite civil_fields. cbv zeta.
  pose proof (Z.div_mod (secs / 86400 + 719468) 146097 ltac:(lia)) as Hz.
  pose proof (Z.mod_pos_bound (secs / 86400 + 719468) 146097 ltac:(lia)) as Hd.
  set (doe := (secs / 86400 + 719468) mod 146097) in *. set (era := (secs / 86400 + 719468) / 146097) in *.
  destruct (doe_facts doe Hd) as (Hy & Hm & _ & _).
  unfold ymdhms_to_unix_secs. cbn [c_y c_mo c_d c_h c_mi c_s].
  assert ((if mo_of doe <=? 2 then yoe_of doe + era * 400 + carry_of doe - 1 else yoe_of doe + era * 400 + carry_of doe)
          = yoe_of doe + era * 400) as -> by (unfold carry_of; case_match; lia).
  rewrite Z.div_add, (Z.div_small (yoe_of doe) 400), Z.add_0_l by lia.
  assert ((if 2 <? mo_of doe then mo_of doe - 3 else mo_of doe + 9) = mp_of doe) as ->
    by (unfold mo_of; repeat case_match; lia).
  replace (yoe_of doe + era * 400 - era * 400) with (yoe_of doe) by lia.
  assert ((153 * mp_of doe + 2) / 5 + day_of doe - 1 = doy_of doe) as -> by (unfold day_of; lia).
  assert (yoe_of doe * 365 + yoe_of doe / 4 - yoe_of doe / 100 + doy_of doe = doe) as -> by (unfold doy_of; lia).
  pose proof (Z.div_mod secs 86400 ltac:(lia)). set (sod := secs mod 86400) in *.
  pose proof (Z.div_mod sod 3600 ltac:(lia)) as E1. pose proof (Z.div_mod (sod mod 3600) 60 ltac:(lia)) as E2.
  assert (sod mod 3600 mod 60 = sod mod 60) as E3 by (clear; Z.div_mod_to_equations; lia).
  lia.
Qed.

(** ** Dates as text *)

Lemma explode2 {A} (l : list A) : length l = 2%nat -> exists a b, l = [a; b].
Proof. destruct l as [|a [|b [|]]]; try discriminate. eauto. Qed.
Lemma explode3 {A} (l : list A) : length l = 3%nat -> exists a b c, l = [a; b; c].
Proof. destruct l as [|a [|b [|c [|]]]]; try discriminate. eauto. Qed.
Lemma explode4 {A} (l : list A) : length l = 4%nat -> exists a b c d, l = [a; b; c; d].
Proof. destruct l as [|a [|b [|c [|d [|]]]]]; try discriminate. eauto 6. Qed.

(** Parsing what the format prints, field by field. *)
Lemma parse_fields (Y Mo D Hh Mi S Ms : list byte) y mo d h mi sec ms :
  length Y = 4%nat -> length Mo = 2%nat -> length D = 2%nat -> length Hh = 2%nat -> length Mi = 2%nat ->
  length S = 2%nat -> length Ms = 3%nat ->
  Text.parse_i64 Y = Some y -> Text.parse_unsigned u32_max Mo = Some mo -> Text.parse_unsigned u32_max D = Some d ->
  Text.parse_unsigned u32_max Hh = Some h -> Text.parse_unsigned u32_max Mi = Some mi ->
  Text.parse_unsigned u32_max S = Some sec -> Text.parse_unsigned u32_max Ms = Some ms ->
  parse_wall (Y ++ [Byte.x2d] ++ Mo ++ [Byte.x2d] ++ D ++ [Byte.x54] ++ Hh ++ [Byte.x3a] ++ Mi ++ [Byte.x3a]
              ++ S ++ [Byte.x2e] ++ Ms ++ [Byte.x5a])
  = Some (ymdhms_to_unix_secs (mkCivil y mo d h mi sec), ms).
Proof.
  intros (a & b & c & e & ->)%explode4 (a1 & b1 & ->)%explode2 (a2 & b2 & ->)%explode2 (a3 & b3 & ->)%explode2
    (a4 & b4 & ->)%explode2 (a5 & b5 & ->)%explode2 (a6 & b6 & c6 & ->)%explode3 H1 H2 H3 H4 H5 H6 H7.
  unfold parse_wall, field, get_range. cbn [app length Nat.ltb Nat.leb Nat.sub take drop lookup list_lookup].
  rewrite H1, H2, H3, H4, H5, H6, H7. reflexivity.
Qed.

Lemma year_range secs : 0 <= secs < 253402300800 -> 0 <= c_y (unix_secs_to_ymdhms secs) <= 9999.
Proof.
  intros H. rewrite civil_fields. cbv zeta. cbn [c_y].
  pose proof (Z.mod_pos_bound (secs / 86400 + 719468) 146097 ltac:(lia)) as Hd.
  pose proof (Z.div_mod (secs / 86400 + 719468) 146097 ltac:(lia)) as Hz.
  set (doe := (secs / 86400 + 719468) mod 146097) in *. set (era := (secs / 86400 + 719468) / 146097) in *.
  destruct (doe_facts doe Hd) as (Hy & _ & _ & Hc).
  assert (0 <= secs / 86400 < 2932897) as Hs by (split; [apply Z.div_pos|apply Z.div_lt_upper_bound]; lia).
  assert (0 <= carry_of doe <= 1) by (unfold carry_of; case_match; lia).
  assert (4 <= era <= 24) as He by lia.
  destruct (decide (era = 24)) as [E|E]; [|lia]. specialize (Hc ltac:(lia)). lia.
Qed.

(** dates survive the HAR format.  For every second count the calendar
    conversion gives a valid Gregorian date and time, and converting back gives
    the same second; and for every millisecond count from 1970 to the end of
    the year 9999 the text that is written reads back as exactly that second
    and millisecond. *)
Theorem har_date_roundtrip secs ms :
  valid_civil (unix_secs_to_ymdhms secs) /\ ymdhms_to_unix_secs (unix_secs_to_ymdhms secs) = secs /\
  (0 <= ms < 253402300800000 -> parse_wall (fmt_wall_ms ms) = Some (ms / 1000, ms mod 1000)).
Proof.
  split; [apply civil_valid|]. split; [apply civil_inverse|]. intros H. unfold fmt_wall_ms.
  rewrite Z.quot_div_nonneg, Z.rem_mod_nonneg by lia.
  pose proof (Z.mod_pos_bound ms 1000 ltac:(lia)) as Hm. rewrite Z.abs_eq by lia.
  assert (0 <= ms / 1000 < 253402300800) as Hs by (split; [apply Z.div_pos|apply Z.div_lt_upper_bound]; lia).
  pose proof (year_range _ Hs) as Hy. pose proof (civil_valid (ms / 1000)) as (Hmo & Hd & Hh & Hmi & Hsec).
  pose proof (civil_inverse (ms / 1000)) as Hinv. pose proof (days_in_month_le (c_y (unix_secs_to_ymdhms (ms / 1000)))
    (c_mo (unix_secs_to_ymdhms (ms / 1000)))) as Hl.
  destruct (unix_secs_to_ymdhms (ms / 1000)) as [y mo d h mi sec]. cbn [c_y c_mo c_d c_h c_mi c_s] in *.
  rewrite <- Hinv. apply parse_fields;
    first [apply Text.pad_length; cbn; lia | apply Text.parse_i64_pad; lia
          |apply Text.parse_unsigned_pad; unfold u32_max; lia].
Qed.

(** ** The ring *)

Section HarFacts.
Context {V : Type} `{JsonView V} `{JsonF64 V} `{JsonObject V}.

Inductive har_event : Type :=
| EvRequest (e : RequestWillBeSent (V:=V))
| EvResponse (e : ResponseReceived (V:=V))
| EvFinished (e : LoadingFinished (V:=V))
| EvFailed (e : LoadingFailed (V:=V)).
Definition har_step (r : HarRing) (ev : har_event) : HarRing :=
  match ev with
  | EvRequest e => har_record_request e r
  | EvResponse e => snd (har_record_response e r)
  | EvFinished e => har_record_finished e r
  | EvFailed e => har_record_failed e r
  end.

(** The specification's view: the requests in flight and all the exchanges
    that ended, in order. *)
Record exchanges := mkEx { in_flight : gmap string HarRecord; ended : list HarRecord }.
Definition end_exchange (rid : option string) (f : HarRecord -> HarRecord) (x : exchanges) : exchanges :=
  match rid with
  | Some rid =>
      match in_flight x !! rid with
      | Some rec => mkEx (delete rid (in_flight x)) (ended x ++ [f rec])
      | None => x
      end
  | None => x
  end.
Definition spec_step (x : exchanges) (ev : har_event) : exchanges :=
  match ev with
  | EvRequest e => mkEx (open_ (har_record_request e (mkRing (in_flight x) []))) (ended x)
  | EvResponse e =>
      match as_str (p_request_id e) with
      | Some rid => mkEx (alter (with_response e) rid (in_flight x)) (ended x)
      | None => x
      end
  | EvFinished e =>
      end_exchange (as_str (f_request_id e))
        (fun rec => finish_record rec (ms_of (f_timestamp e)) (f64_to_i64 (f_encoded e)) (r_status_text rec)) x
  | EvFailed e =>
      end_exchange (as_str (x_request_id e))
        (fun rec => finish_record rec (ms_of (x_timestamp e)) (r_size rec)
                      (if r_status rec =? 0 then x_error_text e else r_status_text rec)) x
  end.

Definition ring_of (x : exchanges) : HarRing := mkRing (in_flight x) (last_n HAR_RING_CAP (map entry_of (ended x))).

Lemma push_ring rec m x : push_entry rec (mkRing m (last_n HAR_RING_CAP (map entry_of (ended x)))) =
  mkRing m (last_n HAR_RING_CAP (map entry_of (ended x ++ [rec]))).
Proof. unfold push_entry. cbn [open_ closed]. rewrite map_app. cbn [map]. now rewrite last_n_snoc by (unfold HAR_RING_CAP; lia). Qed.

Lemma ring_step x ev : har_step (ring_of x) ev = ring_of (spec_step x ev).
Proof.
  destruct ev as [e|e|e|e]; cbn [har_step spec_step].
  - unfold har_record_request. destruct (as_str (q_request_id e)); [done|]. now destruct x.
  - unfold har_record_response. destruct (as_str (p_request_id e)) as [rid|]; [|done].
    unfold ring_of at 1. cbn [open_ closed]. destruct (in_flight x !! rid) as [rec|] eqn:E; cbn [snd].
    + unfold ring_of. cbn [in_flight ended]. f_equal. apply map_eq. intros k.
      destruct (decide (k = rid)) as [->|N];
        [rewrite lookup_insert_eq, lookup_alter_eq, E|rewrite lookup_insert_ne, lookup_alter_ne by done]; done.
    + unfold ring_of. cbn [in_flight ended]. f_equal. apply map_eq. intros k.
      destruct (decide (k = rid)) as [->|N]; [rewrite lookup_alter_eq, E|rewrite lookup_alter_ne by done]; done.
  - unfold har_record_finished, end_exchange. destruct (as_str (f_request_id e)) as [rid|]; [|done].
    cbn [ring_of open_ closed]. destruct (in_flight x !! rid) as [rec|]; [|done]. apply push_ring.
  - unfold har_record_failed, end_exchange. destruct (as_str (x_request_id e)) as [rid|]; [|done].
    cbn [ring_of open_ closed]. destruct (in_flight x !! rid) as [rec|]; [|done]. apply push_ring.
Qed.


End HarFacts.

(** ** Interception *)

Lemma fmt_hex_no_underscore n : 0 <= n -> Byte.x5f ∉ Text.fmt_hex n.
Proof.
  intros Hn Hin. unfold Text.fmt_hex, Text.fmt_radix in Hin. apply list_elem_of_fmap in Hin as (d & E & Hd).
  pose proof (Text.digits_range 16 n ltac:(lia) Hn) as R. rewrite Forall_forall in R. specialize (R d Hd). cbn in R.
  assert (Forall (fun d => Text.digit_byte d <> Byte.x5f) (seqZ 0 16)) as F by (vm_compute; repeat constructor; discriminate).
  rewrite Forall_forall in F. apply (F d); [apply elem_of_seqZ; lia|done].
Qed.

Definition handler_name (prefix : string) (n : Z) : string :=
  prefix +:+ "_" +:+ String.string_of_list_byte (Text.fmt_hex n).
Lemma handler_name_inj p q m n : 0 <= m -> 0 <= n -> handler_name p m = handler_name q n -> m = n.
Proof.
  intros Hm Hn E. apply (f_equal String.list_byte_of_string) in E. unfold handler_name in E.
  rewrite !Text.list_byte_append, !String.list_byte_of_string_of_list_byte in E.
  change (String.list_byte_of_string "_") with [Byte.x5f] in E. cbn [app] in E.
  apply split_at_last_sep in E as [_ E]; [|now apply fmt_hex_no_underscore..].
  apply (Text.fmt_radix_inj 16) in E; lia.
Qed.

Section Intercept.
Context {V : Type} `{JsonView V} {Regex : Type}.
Variable regex_new : list Z -> option Regex.
Variable is_match : Regex -> string -> bool.

(** The registrations a client makes, in order. *)
Record registration := mkReg {
  g_prefix : string; g_pattern : string; g_action : InterceptAction; g_mock : option MockResponse;
  g_overrides : option RequestOverrides; g_error : option string
}.
Definition do_register (st : State (V:=V)) (g : registration) : State :=
  match register regex_new (g_prefix g) (g_pattern g) (g_action g) (g_mock g) (g_overrides g) (g_error g) st with
  | Some (_, st') => st'
  | None => st
  end.

(** Names are taken below the counter only. *)
Definition named (st : State (V:=V) (Regex:=Regex)) : Prop :=
  0 <= next_id st /\ forall id h, handlers st !! id = Some h ->
    exists p n, id = handler_name p n /\ 1 <= n <= next_id st.

Lemma register_spec g st : named st -> next_id st < u64_max ->
  match register regex_new (g_prefix g) (g_pattern g) (g_action g) (g_mock g) (g_overrides g) (g_error g) st with
  | Some (id, st') =>
      handlers st !! id = None /\ named st' /\ next_id st' = next_id st + 1 /\
      exists h, handlers st' = <[id := h]> (handlers st) /\ hs_action h = g_action g /\ hs_mock h = g_mock g /\
        hs_overrides h = g_overrides g /\ hs_error h = g_error g
  | None => True
  end.
Proof.
  intros [N0 N] Hm. unfold register. destruct (regex_new _) as [rx|]; [|done].
  unfold insert_handler, allocate_id. cbn [handlers next_id hs_prefix].
  assert (wrap_add u64_max (next_id st) 1 = next_id st + 1) as -> by (apply wrap_add_exact; lia).
  fold (handler_name (g_prefix g) (next_id st + 1)).
  assert (handlers st !! handler_name (g_prefix g) (next_id st + 1) = None) as F.
  { apply eq_None_not_Some. intros [h Hh]. destruct (N _ _ Hh) as (p & n & E & Hn).
    apply handler_name_inj in E; lia. }
  split; [exact F|]. split; [|split; [done|]; eexists; split; [reflexivity|done]].
  split; [cbn; lia|]. cbn [handlers next_id]. intros id h. destruct (decide (id = handler_name (g_prefix g) (next_id st + 1))) as [->|Ne].
  - intros _. exists (g_prefix g), (next_id st + 1). split; [done|lia].
  - rewrite lookup_insert_ne by done. intros Hh. destruct (N _ _ Hh) as (p & n & -> & Hn). exists p, n. split; [done|lia].
Qed.

(** What a handler decides for a request. *)
Definition decision (h : HandlerSpec (Regex:=Regex)) (request_id : V) : FetchDispatch :=
  match hs_action h with
  | Continue => DContinue request_id None None None None
  | Modify =>
      let ov := default overrides_default (hs_overrides h) in
      DContinue request_id (ov_url ov) (ov_method ov) (ov_post ov) (some_headers (ov_headers ov))
  | Fulfill =>
      let mock := default mock_default (hs_mock h) in
      DFulfill request_id (mk_status mock) (some_headers (mk_headers mock)) (mk_body mock)
  | Fail => DFail request_id (str_or "Failed" (hs_error h))
  end.

Lemma find_first_spec {A} (p : A -> bool) l :
  match find_first p l with Some x => x ∈ l /\ p x = true | None => forall x, x ∈ l -> p x = false end.
Proof.
  induction l as [|y l IH]; cbn; [intros x Hx; now apply not_elem_of_nil in Hx|].
  destruct (p y) eqn:E; [split; [left|done]|]. destruct (find_first p l) as [x|].
  - destruct IH as [Hx Hp]. split; [now right|done].
  - intros x [->|Hx]%elem_of_cons; auto.
Qed.

Lemma registered_count gs : zlen gs <= u64_max ->
  size (handlers (foldl do_register state_new gs)) =
  length (List.filter (fun g => bool_decide (is_Some (regex_new (glob_to_regex_src (Text.str_chars (g_pattern g)))))) gs).
Proof.
  assert (forall st, named st -> next_id st + zlen gs <= u64_max ->
    size (handlers (foldl do_register st gs)) = (size (handlers st) +
      length (List.filter (fun g => bool_decide (is_Some (regex_new (glob_to_regex_src (Text.str_chars (g_pattern g)))))) gs))%nat) as K.
  { induction gs as [|g gs IH]; intros st N Hm; cbn [foldl List.filter]; [cbn; lia|].
    rewrite zlen_cons in Hm. pose proof (zlen_nonneg gs). pose proof (register_spec g st N ltac:(lia)) as R.
    unfold do_register at 2. unfold register in *. destruct (regex_new _) as [rx|].
    - rewrite bool_decide_eq_true_2 by eauto. destruct (insert_handler _ st) as [id st'].
      destruct R as (F & N' & En & h & Eh & _). rewrite IH by (done || lia). rewrite Eh, map_size_insert_None by done. cbn [length]. lia.
    - rewrite bool_decide_eq_false_2 by apply is_Some_None. apply IH; [done|lia]. }
  intros Hg. rewrite K; [done| |done]. split; [done|]. intros id h. cbn. now rewrite lookup_empty.
Qed.

(** interception obeys the registered handlers.  Registrations never
    replace one another (fewer than 2^64 of them), and whatever order the
    handler map is iterated in, a paused request is answered with the decision
    of a registered handler whose pattern matches its url, or is let through
    unchanged when none matches. *)
Theorem dispatch_obeys_handlers gs values request_id request :
  zlen gs <= u64_max ->
  let st := foldl do_register state_new gs in
  values ≡ₚ map snd (map_to_list (handlers st)) ->
  let url := str_or "" (vget_str "url" request) in
  (size (handlers st) = length (List.filter (fun g => bool_decide (is_Some (regex_new (glob_to_regex_src (Text.str_chars (g_pattern g)))))) gs)) /\
  ((exists id h, handlers st !! id = Some h /\ is_match (hs_compiled h) url = true /\
     dispatch_fetch_event is_match values request_id request = decision h request_id) \/
   ((forall id h, handlers st !! id = Some h -> is_match (hs_compiled h) url = false) /\
    dispatch_fetch_event is_match values request_id request = DContinue request_id None None None None)).
Proof.
  cbv zeta. intros Hg Hv. split; [now apply registered_count|]. unfold dispatch_fetch_event.
  set (url := str_or "" (vget_str "url" request)). unfold match_url.
  pose proof (find_first_spec (fun h => is_match (hs_compiled h) url) values) as F.
  assert (forall h, h ∈ values <-> exists id, handlers (foldl do_register state_new gs) !! id = Some h) as In.
  { intros h. rewrite Hv. split.
    - intros ([id h'] & -> & Hin)%list_elem_of_fmap. exists id. now apply elem_of_map_to_list.
    - intros [id Hid]. apply list_elem_of_fmap. exists (id, h). split; [done|]. now apply elem_of_map_to_list. }
  destruct (find_first _ values) as [h|].
  - left. destruct F as [Hin Hp]. apply In in Hin as [id Hid]. exists id, h. split; [done|]. split; [done|reflexivity].
  - right. split; [|reflexivity]. intros id h Hh. apply F, In. eauto.
Qed.

End Intercept.

End Network.

(** ** Runs *)

Module NetworkExamples.
Import JsonTree Network.

Lemma har_date_roundtrip_witness :
  parse_wall (fmt_wall_ms 1709210096007) = Some (1709210096, 7) /\
  valid_civil (unix_secs_to_ymdhms 1709210096).
Proof.
  destruct (har_date_roundtrip 1709210096 1709210096007) as (V & _ & R).
  split; [|exact V]. apply R. lia.
Defined.

Example leap_day_text :
  String.string_of_list_byte (fmt_wall_ms 1709210096007) = "2024-02-29T12:34:56.007Z".
Proof. vm_compute. reflexivity. Qed.

(** Before 1970 the milliseconds change sign. *)
Example before_1970_misread : parse_wall (fmt_wall_ms (-1)) = Some (0, 1).
Proof. vm_compute. reflexivity. Qed.

(** Patterns that are equal to a url match it, and ["*"] matches everything. *)
Definition rx_new (src : list Z) : option (list Z) := Some src.
Definition rx_match (rx : list Z) (url : string) : bool :=
  bool_decide (rx = glob_to_regex_src [42]) || bool_decide (rx = glob_to_regex_src (Text.str_chars url)).
Definition regs : list registration :=
  [mkReg "h" "*" Fail None None None; mkReg "m" "http://a/" Fulfill (Some (mkMock 200 [] "aGk=")) None None].
Definition st2 : State (V:=json) (Regex:=list Z) := foldl (do_register rx_new) state_new regs.
Definition order1 : list (HandlerSpec (Regex:=list Z)) := map snd (map_to_list (handlers st2)).
Definition req_a : json := JObj [("url", JStr "http://a/")].

Lemma dispatch_obeys_handlers_witness :
  size (handlers st2) = 2%nat /\
  exists id h, handlers st2 !! id = Some h /\ rx_match (hs_compiled h) "http://a/" = true /\
    dispatch_fetch_event rx_match order1 (JStr "1") req_a = decision h (JStr "1").
Proof.
  destruct (dispatch_obeys_handlers (V:=json) rx_new rx_match regs order1 (JStr "1") req_a) as [A B].
  - vm_compute. discriminate.
  - reflexivity.
  - split; [exact A|]. destruct B as [B|[B _]]; [exact B|]. exfalso.
    assert (match handlers st2 !! "h_1" with Some h => rx_match (hs_compiled h) "http://a/" | None => true end = true) as T
      by (vm_compute; reflexivity).
    specialize (B "h_1"). fold st2 in B. destruct (handlers st2 !! "h_1") as [h|] eqn:E.
    + specialize (B h eq_refl). change (str_or "" (vget_str "url" req_a)) with "http://a/" in B. rewrite T in B. discriminate B.
    + vm_compute in E. discriminate E.
Defined.

(** With two matching handlers the answer depends on the order of iteration. *)
Example overlapping_handlers_order :
  dispatch_fetch_event rx_match order1 (JStr "1") req_a <>
  dispatch_fetch_event rx_match (reverse order1) (JStr "1") req_a.
Proof. vm_compute. discriminate. Qed.

(** [net.intercept] with the action [fulfill] has no mock: the answer has status 0. *)
Example intercept_fulfill_status_zero :
  match net_intercept rx_new "*" Fulfill (state_new (V:=json)) with
  | Some (_, st) => dispatch_fetch_event rx_match (map snd (map_to_list (handlers st))) (JStr "1") req_a
  | None => DFail (JStr "1") ""
  end = DFulfill (JStr "1") 0 None "".
Proof. vm_compute. reflexivity. Qed.

End NetworkExamples.
