(* ===== verification/Input.v ===== *)
(** * Input: pointer paths, wheel profiles, keys and accelerators

    Models [browser-engine/src/input_translation.rs]: the xorshift generator,
    wheel profiles, mouse paths, touch contacts and the parameters of the input
    commands of the DevTools protocol, and the parsers of modifiers, key tokens
    and accelerators.  Floats are binary64; [powi] and the Debug form of a
    string are parameters. *)
From S2P Require Import Prelude Json Text F64.
From Stdlib Require Import SpecFloat.
Import JsonTree.

Module Input.

(** ** Floating-point helpers *)

Definition f64_eq : f64 -> f64 -> bool := SFeqb.
Definition f64_sqrt : f64 -> f64 := SFsqrt 53 1024.
Definition f64_neg : f64 -> f64 := SFopp.
(** A literal with a finite decimal expansion: [a / b] rounded. *)
Definition lit (a b : Z) : f64 := f64_div (f64_of_Z a) (f64_of_Z b).
(** [x.round()]: half away from zero. *)
Definition f64_round (x : f64) : f64 :=
  match x with
  | S754_finite s m e =>
      if 0 <=? e then x
      else let q := (Z.pos m + 2 ^ (- e - 1)) / 2 ^ (- e) in
           binary_normalize 53 1024 (if s then - q else q) 0 s
  | _ => x
  end.
(** [x as u32] and [x as u64]: saturating. *)
Definition f64_to_unsigned (max : Z) (x : f64) : Z :=
  match x with
  | S754_zero _ | S754_nan => 0
  | S754_infinity s => if s then 0 else max
  | S754_finite s m e =>
      if s then 0 else Z.min max (if 0 <=? e then Z.pos m * 2 ^ e else Z.pos m / 2 ^ (- e))
  end.
Definition is_finite (x : f64) : bool :=
  match x with S754_zero _ | S754_finite _ _ _ => true | S754_infinity _ | S754_nan => false end.

(** A float in a JSON value: null unless finite. *)
Definition jfloat (x : f64) : json := if is_finite x then JFloat x else JNull.

Definition of_chars (cs : list Z) : string := String.string_of_list_byte (Text.utf8_bytes cs).
Definition char_str (c : Z) : string := of_chars [c].

(** ** The generator *)

Definition Rng := Z.
Definition rng_new (seed : Z) : Rng := if seed =? 0 then 0x12345 else seed.
Definition wrapping_mul (a b : Z) : Z := (a * b) mod 2 ^ 64.
Definition next_u64 (x : Rng) : Z * Rng :=
  let x := Z.lxor x (Z.shiftr x 12) in
  let x := Z.lxor x (Z.shiftl x 25 mod 2 ^ 64) in
  let x := Z.lxor x (Z.shiftr x 27) in
  (wrapping_mul x 0x2545F4914F6CDD1D, x).
Definition range_f64 (lo hi : f64) (r : Rng) : f64 * Rng :=
  let '(n, r) := next_u64 r in
  let unit := f64_div (f64_of_Z n) (f64_of_Z u64_max) in
  (f64_add lo (f64_mul unit (f64_sub hi lo)), r).

(** ** Buttons and easing *)

Inductive MouseButton : Type := LeftButton | RightButton | MiddleButton.
#[export] Instance MouseButton_eq_dec : EqDecision MouseButton.
Proof. solve_decision. Defined.
Definition cdp_str (b : MouseButton) : string :=
  match b with LeftButton => "left" | RightButton => "right" | MiddleButton => "middle" end.
Definition buttons_mask (b : MouseButton) : Z :=
  match b with LeftButton => 1 | RightButton => 2 | MiddleButton => 4 end.

Inductive ScrollEasing : Type := Linear | EaseOut | EaseInOut.

Section Wheel.
Variable powi : f64 -> Z -> f64.

Definition weight (e : ScrollEasing) (t : f64) : f64 :=
  let one := f64_of_Z 1 in
  match e with
  | Linear => one
  | EaseOut => f64_sub one (powi (f64_sub one t) 2)
  | EaseInOut =>
      if f64_lt t (lit 1 2) then f64_mul (f64_mul (f64_of_Z 2) t) t
      else f64_sub one (f64_div (powi (f64_add (f64_mul (f64_of_Z (-2)) t) (f64_of_Z 2)) 2) (f64_of_Z 2))
  end.

Record WheelStep := mkWheel { step_dx : f64; step_dy : f64; step_sleep_ms : Z }.

(** The weights of the base steps and of the tail. *)
Definition base_weights (n : nat) (e : ScrollEasing) : list f64 :=
  map (fun idx => f64_max (weight e (f64_div (f64_of_Z (Z.of_nat idx + 1)) (f64_of_Z (Z.of_nat n)))) (lit 1 100))
    (seq 0 n).
Definition tail_weights (base_tail : f64) (n : nat) : list f64 :=
  map (fun idx => f64_max (f64_mul base_tail (powi (lit 55 100) (Z.of_nat idx + 1))) (lit 1 100)) (seq 0 n).
(** The loop over the weights. *)
Fixpoint wheel_steps (dx dy total : f64) (momentum : bool) (base_steps idx : nat) (ws : list f64)
    (rem_dx rem_dy : f64) : list WheelStep :=
  match ws with
  | [] => []
  | w :: ws =>
      let is_last := match ws with [] => true | _ => false end in
      let sx := if is_last then rem_dx else f64_mul dx (f64_div w total) in
      let sy := if is_last then rem_dy else f64_mul dy (f64_div w total) in
      mkWheel sx sy (if momentum && (base_steps <=? idx)%nat then 12 else 8)
      :: wheel_steps dx dy total momentum base_steps (S idx) ws (f64_sub rem_dx sx) (f64_sub rem_dy sy)
  end.
Definition wheel_profile (dx dy : f64) (momentum : bool) (easing : ScrollEasing) : list WheelStep :=
  if f64_eq dx f64_zero && f64_eq dy f64_zero then []
  else
    let base_steps := (if momentum then 12 else 6)%nat in
    let tail_steps := (if momentum then 4 else 0)%nat in
    let base := base_weights base_steps easing in
    let weights := if momentum then base ++ tail_weights (default (f64_of_Z 1) (last base)) tail_steps else base in
    let total := f64_max (foldl f64_add f64_zero weights) (lit 1 1000000) in
    wheel_steps dx dy total momentum base_steps 0 weights dx dy.

(** ** Mouse paths *)

(** The points of the curve, with the pause after each. *)
Fixpoint bezier_points (x0 y0 cx1 cy1 cx2 cy2 x3 y3 : f64) (samples : Z) (is_ : list Z) (r : Rng)
    : list (f64 * f64 * Z) * Rng :=
  match is_ with
  | [] => ([], r)
  | i :: is_ =>
      let t := f64_div (f64_of_Z i) (f64_of_Z samples) in
      let omt := f64_sub (f64_of_Z 1) t in
      let three := f64_of_Z 3 in
      let point := fun p0 c1 c2 p3 =>
        f64_add (f64_add (f64_add (f64_mul (powi omt 3) p0)
                                  (f64_mul (f64_mul (f64_mul three (powi omt 2)) t) c1))
                         (f64_mul (f64_mul (f64_mul three omt) (powi t 2)) c2))
                (f64_mul (powi t 3) p3) in
      let '(ms, r) := range_f64 (f64_of_Z 5) (f64_of_Z 15) r in
      let '(rest, r) := bezier_points x0 y0 cx1 cy1 cx2 cy2 x3 y3 samples is_ r in
      ((point x0 cx1 cx2 x3, point y0 cy1 cy2 y3, f64_to_unsigned u32_max (f64_round ms)) :: rest, r)
  end.
Definition bezier_mouse_path (from to : f64 * f64) (samples : Z) (r : Rng) : list (f64 * f64 * Z) * Rng :=
  if samples =? 0 then ([(fst to, snd to, 0)], r)
  else
    let '(x0, y0) := from in let '(x3, y3) := to in
    let dx := f64_sub x3 x0 in let dy := f64_sub y3 y0 in
    let dist := f64_max (f64_sqrt (f64_add (f64_mul dx dx) (f64_mul dy dy))) (f64_of_Z 1) in
    let px := f64_div (f64_neg dy) dist in let py := f64_div dx dist in
    let mag := f64_mul dist (lit 18 100) in
    let '(off1, r) := range_f64 (f64_neg mag) mag r in
    let '(off2, r) := range_f64 (f64_neg mag) mag r in
    let third := f64_div (f64_of_Z 1) (f64_of_Z 3) in let two_thirds := f64_div (f64_of_Z 2) (f64_of_Z 3) in
    let cx1 := f64_add (f64_add x0 (f64_mul dx third)) (f64_mul px off1) in
    let cy1 := f64_add (f64_add y0 (f64_mul dy third)) (f64_mul py off1) in
    let cx2 := f64_add (f64_add x0 (f64_mul dx two_thirds)) (f64_mul px off2) in
    let cy2 := f64_add (f64_add y0 (f64_mul dy two_thirds)) (f64_mul py off2) in
    bezier_points x0 y0 cx1 cy1 cx2 cy2 x3 y3 samples (map Z.of_nat (seq 1 (Z.to_nat samples))) r.
End Wheel.

(** ** Commands *)

Record TouchContact := mkContact {
  tc_id : Z; tc_x : f64; tc_y : f64; radius_x : f64; radius_y : f64; rotation_angle : f64; tc_force : f64;
  tc_tangential : f64; tc_tilt_x : f64; tc_tilt_y : f64; tc_twist : Z
}.
Definition contact_new (id : Z) (x y : f64) : TouchContact :=
  mkContact id x y (f64_of_Z 1) (f64_of_Z 1) f64_zero (f64_of_Z 1) f64_zero f64_zero f64_zero 0.
Definition touch_contact_value (c : TouchContact) : json :=
  JObj [("id", JNum (tc_id c)); ("x", jfloat (tc_x c)); ("y", jfloat (tc_y c)); ("radiusX", jfloat (radius_x c));
        ("radiusY", jfloat (radius_y c)); ("rotationAngle", jfloat (rotation_angle c)); ("force", jfloat (tc_force c));
        ("tangentialPressure", jfloat (tc_tangential c)); ("tiltX", jfloat (tc_tilt_x c));
        ("tiltY", jfloat (tc_tilt_y c)); ("twist", JNum (tc_twist c))].

Record PointerDetails := mkPointer {
  pd_force : option f64; pd_tangential : option f64; pd_tilt_x : option f64; pd_tilt_y : option f64; pd_twist : option Z
}.
Definition no_pointer : PointerDetails := mkPointer None None None None None.

(** The parameters of [Input.dispatchMouseEvent] the code sets. *)
Record MouseEvent := mkMouse {
  m_type : string; m_x : f64; m_y : f64; m_button : option string; m_buttons : option Z; m_click_count : option Z;
  m_delta_x : option f64; m_delta_y : option f64; m_pointer : PointerDetails; m_pointer_type : option string
}.
Record TouchEvent := mkTouch { t_type : string; t_points : list json }.
Record KeyEvent := mkKey {
  k_type : string; k_key : option string; k_code : option string; k_modifiers : option Z; k_text : option string;
  k_unmodified_text : option string
}.

Definition cdp_touch_event (event_type : string) (contacts : list TouchContact) : TouchEvent :=
  mkTouch event_type (map touch_contact_value contacts).
Definition cdp_pointer_event (event_type : string) (x y : f64) (button : option MouseButton) (buttons : Z)
    (click_count : option Z) (p : PointerDetails) : MouseEvent :=
  mkMouse event_type x y (Some (match button with Some b => cdp_str b | None => "none" end)) (Some buttons)
    click_count None None p (Some "pen").
Definition cdp_mouse_move (x y : f64) : MouseEvent :=
  mkMouse "mouseMoved" x y (Some "none") (Some 0) None None None no_pointer None.
Definition cdp_mouse_wheel (x y dx dy : f64) : MouseEvent :=
  mkMouse "mouseWheel" x y None None None (Some dx) (Some dy) no_pointer None.
Definition cdp_mouse_press (x y : f64) (b : MouseButton) (click_count : Z) (down : bool) : MouseEvent :=
  mkMouse (if down then "mousePressed" else "mouseReleased") x y (Some (cdp_str b)) (Some (buttons_mask b))
    (Some click_count) None None no_pointer None.
Definition cdp_key_down (key code : string) (text : option string) (modifiers : Z) : KeyEvent :=
  mkKey "keyDown" (Some key) (Some code) (Some modifiers) text text.
Definition cdp_key_raw_down (key code : string) (modifiers : Z) : KeyEvent :=
  mkKey "rawKeyDown" (Some key) (Some code) (Some modifiers) None None.
Definition cdp_key_up (key code : string) (modifiers : Z) : KeyEvent :=
  mkKey "keyUp" (Some key) (Some code) (Some modifiers) None None.

Definition build_file_drag_data (file_paths : list string) : json :=
  let file_name p := default p (Text.file_name (Text.path_of_string p)) in
  JObj [("items", JArr [JObj [("mimeType", JStr "text/plain");
                              ("data", JStr (Text.join_strings (char_str 10) (map file_name file_paths)))]]);
        ("files", JArr (map JStr file_paths)); ("dragOperationsMask", JNum 1)].

(** ** Text *)

Definition lower (c : Z) : Z := if Text.between 65 90 c then c + 32 else c.
Definition trim (s : string) : string := of_chars (Text.trim (Text.str_chars s)).
(** [s.trim().to_ascii_lowercase()] *)
Definition trim_lower (s : string) : string := of_chars (map lower (Text.trim (Text.str_chars s))).

(** ** Keys *)

Definition parse_modifier_name (name : string) : option Z :=
  let n := trim_lower name in
  if bool_decide (n ∈ ["alt"; "option"]) then Some 1
  else if bool_decide (n ∈ ["ctrl"; "control"]) then Some 2
  else if bool_decide (n ∈ ["cmd"; "meta"; "command"]) then Some 4
  else if bool_decide (n = "shift") then Some 8
  else None.

Definition is_alpha (c : Z) : bool := Text.between 65 90 c || Text.between 97 122 c.
Definition key_of_char (c : Z) : string :=
  if c =? 10 then "Enter" else if c =? 9 then "Tab" else if c =? 8 then "Backspace"
  else if c =? 0x7F then "Delete" else char_str c.
Definition code_of_char (c : Z) : string :=
  if c =? 10 then "Enter" else if c =? 9 then "Tab" else if c =? 8 then "Backspace"
  else if is_alpha c then "Key" +:+ char_str (Text.to_ascii_uppercase c)
  else if Text.between 48 57 c then "Digit" +:+ char_str c
  else if c =? 32 then "Space" else if c =? 46 then "Period" else if c =? 44 then "Comma"
  else if c =? 47 then "Slash" else if c =? 59 then "Semicolon" else if c =? 39 then "Quote"
  else if c =? 96 then "Backquote" else if c =? 45 then "Minus" else if c =? 61 then "Equal"
  else "Unidentified".
Definition text_of_char (c : Z) : string :=
  if c =? 10 then char_str 13 else if c =? 9 then char_str 9
  else if (c =? 8) || (c =? 0x7F) then "" else char_str c.
Definition char_to_cdp_key (c : Z) : string * string * string := (key_of_char c, code_of_char c, text_of_char c).

(** Named keys, by their lower-case tokens. *)
Definition named_keys : list (list string * (string * string)) :=
  [(["enter"], ("Enter", "Enter")); (["tab"], ("Tab", "Tab")); (["escape"; "esc"], ("Escape", "Escape"));
   (["backspace"], ("Backspace", "Backspace")); (["delete"], ("Delete", "Delete"));
   (["arrowup"; "up"], ("ArrowUp", "ArrowUp")); (["arrowdown"; "down"], ("ArrowDown", "ArrowDown"));
   (["arrowleft"; "left"], ("ArrowLeft", "ArrowLeft")); (["arrowright"; "right"], ("ArrowRight", "ArrowRight"));
   (["home"], ("Home", "Home")); (["end"], ("End", "End")); (["pageup"], ("PageUp", "PageUp"));
   (["pagedown"], ("PageDown", "PageDown")); (["space"], (" ", "Space"))].
Definition function_key (lower : string) : option string :=
  match String.list_byte_of_string lower with
  | Byte.x66 :: rest =>
      match Text.parse_unsigned u8_max rest with
      | Some idx => if (1 <=? idx) && (idx <=? 12)
                    then Some ("F" +:+ String.string_of_list_byte (Text.fmt_dec idx)) else None
      | None => None
      end
  | _ => None
  end.

Section Parse.
Variable dbg : string -> string.

Fixpoint modifier_loop (bits : Z) (ms : list string) : result Z string :=
  match ms with
  | [] => Ok bits
  | m :: ms => match parse_modifier_name m with
               | Some bit => modifier_loop (Z.lor bits bit) ms
               | None => Err ("unsupported modifier " +:+ dbg m)
               end
  end.
Definition parse_modifier_list (ms : list string) : result Z string := modifier_loop 0 ms.

Definition key_code_for_token (token : string) : result (string * string) string :=
  let trimmed := trim token in
  if bool_decide (trimmed = "") then Err "missing key token"
  else if (String.length trimmed =? 1)%nat then
    match Text.str_chars trimmed with
    | ch :: _ => Ok (key_of_char ch, code_of_char ch)
    | [] => Err "missing key token"
    end
  else
    let lower := trim_lower token in
    match List.find (fun row => bool_decide (lower ∈ fst row)) named_keys with
    | Some (_, kc) => Ok kc
    | None => match function_key lower with
              | Some label => Ok (label, label)
              | None => Err ("unsupported key token " +:+ dbg trimmed)
              end
    end.

Record ParsedAccelerator := mkAccel { acc_modifiers : Z; acc_key : string; acc_code : string }.

(** [s.split('+')] *)
Fixpoint split_plus (cs : list Z) : list (list Z) :=
  match cs with
  | [] => [[]]
  | c :: cs =>
      if c =? 43 then [] :: split_plus cs
      else match split_plus cs with
           | part :: parts => (c :: part) :: parts
           | [] => [[c]]
           end
  end.
Definition accel_tokens (accel : string) : list string :=
  List.filter (fun p => negb (bool_decide (p = "")))
    (map (fun cs => of_chars (Text.trim cs)) (split_plus (Text.str_chars accel))).
Definition parse_accelerator (accel : string) : result ParsedAccelerator string :=
  let tokens := accel_tokens accel in
  match last tokens with
  | None => Err "missing accelerator"
  | Some key_token =>
      bits <-? parse_modifier_list (take (length tokens - 1) tokens) ;;
      kc <-? key_code_for_token key_token ;;
      Ok (mkAccel bits (fst kc) (snd kc))
  end.
End Parse.

(** [parse_chord]; the loop ends as the rest gets shorter. *)
Fixpoint find_plus (cs : list Z) : option (list Z * list Z) :=
  match cs with
  | [] => None
  | c :: cs => if c =? 43 then Some ([], cs)
               else match find_plus cs with Some (a, b) => Some (c :: a, b) | None => None end
  end.
Definition chord_bit (part : string) : option Z :=
  if bool_decide (part ∈ ["Alt"; "Option"]) then Some 1
  else if bool_decide (part ∈ ["Ctrl"; "Control"]) then Some 2
  else if bool_decide (part ∈ ["Cmd"; "Meta"; "Command"]) then Some 4
  else if bool_decide (part = "Shift") then Some 8
  else None.
Fixpoint chord_loop (fuel : nat) (chord tail : list Z) (bits : Z) : Z * list Z :=
  match fuel with
  | O => (bits, tail)
  | S fuel =>
      match find_plus tail with
      | None => (bits, tail)
      | Some (part, rest) =>
          match chord_bit (of_chars (Text.trim part)) with
          | Some bit => chord_loop fuel chord rest (Z.lor bits bit)
          | None => (bits, chord)
          end
      end
  end.
Definition parse_chord (chord : string) : Z * string :=
  let cs := Text.str_chars chord in
  let '(bits, tail) := chord_loop (S (length cs)) cs cs 0 in (bits, of_chars tail).

(** ** Dead keys *)

Definition dead_key_accent_hint (dbg : string -> string) (accent : string) : option ParsedAccelerator :=
  let a := trim_lower accent in
  let accel :=
    if bool_decide (a = "acute") then Some "Option+e"
    else if bool_decide (a = "grave") then Some "Option+`"
    else if bool_decide (a = "circumflex") then Some "Option+i"
    else if bool_decide (a = "tilde") then Some "Option+n"
    else if bool_decide (a ∈ ["diaeresis"; "umlaut"]) then Some "Option+u"
    else if bool_decide (a = "ring") then Some "Option+k"
    else None in
  match accel with
  | Some s => match parse_accelerator dbg s with Ok p => Some p | Err _ => None end
  | None => None
  end.

(** The rows of [compose_dead_key]: base and composed characters. *)
Definition dead_keys : list (list string * list (Z * Z)) :=
  [(["acute"], [(97, 0xE1); (101, 0xE9); (105, 0xED); (111, 0xF3); (117, 0xFA); (121, 0xFD); (65, 0xC1); (69, 0xC9);
                (73, 0xCD); (79, 0xD3); (85, 0xDA); (89, 0xDD); (99, 0x107); (67, 0x106); (110, 0x144); (78, 0x143)]);
   (["grave"], [(97, 0xE0); (101, 0xE8); (105, 0xEC); (111, 0xF2); (117, 0xF9); (65, 0xC0); (69, 0xC8); (73, 0xCC);
                (79, 0xD2); (85, 0xD9)]);
   (["circumflex"], [(97, 0xE2); (101, 0xEA); (105, 0xEE); (111, 0xF4); (117, 0xFB); (65, 0xC2); (69, 0xCA);
                     (73, 0xCE); (79, 0xD4); (85, 0xDB)]);
   (["tilde"], [(97, 0xE3); (110, 0xF1); (111, 0xF5); (65, 0xC3); (78, 0xD1); (79, 0xD5)]);
   (["diaeresis"; "umlaut"], [(97, 0xE4); (101, 0xEB); (105, 0xEF); (111, 0xF6); (117, 0xFC); (121, 0xFF);
                              (65, 0xC4); (69, 0xCB); (73, 0xCF); (79, 0xD6); (85, 0xDC)]);
   (["cedilla"], [(99, 0xE7); (67, 0xC7)]);
   (["ring"], [(97, 0xE5); (65, 0xC5)])].
Definition compose_dead_key (accent : string) (base : Z) : option string :=
  let a := trim_lower accent in
  match List.find (fun row => bool_decide (a ∈ fst row)) dead_keys with
  | Some (_, row) => option_map (fun p => char_str (snd p)) (List.find (fun p => fst p =? base) row)
  | None => None
  end.

Definition TYPE_DELAY_MIN_MS : f64 := f64_of_Z 30.
Definition TYPE_DELAY_MAX_MS : f64 := f64_of_Z 80.
(** In milliseconds. *)
Definition typing_delay (r : Rng) : Z * Rng :=
  let '(ms, r) := range_f64 TYPE_DELAY_MIN_MS TYPE_DELAY_MAX_MS r in (f64_to_unsigned u64_max ms, r).

(** ** The generator never sticks *)

(** A state a generator can be in; zero would stay zero. *)
Definition rng_ok (r : Rng) : Prop := 0 < r < 2 ^ 64.

Lemma bounded_bits (x : Z) : 0 <= x -> (forall n, 64 <= n -> Z.testbit x n = false) -> x < 2 ^ 64.
Proof.
  intros Hx Hb. destruct (Z.lt_ge_cases x (2 ^ 64)) as [|G]; [done|exfalso].
  assert (64 <= Z.log2 x) as L by (apply Z.log2_le_pow2; lia).
  pose proof (Z.bit_log2 x ltac:(lia)) as B. rewrite Hb in B by done. discriminate.
Qed.
Lemma u64_bits x n : 0 <= x < 2 ^ 64 -> 64 <= n -> Z.testbit x n = false.
Proof.
  intros [H0 H1] Hn. destruct (decide (x = 0)) as [->|N]; [apply Z.testbit_0_l|].
  apply Z.bits_above_log2; [done|]. assert (Z.log2 x < 64) by (apply Z.log2_lt_pow2; lia). lia.
Qed.
Lemma lxor_u64 x y : 0 <= x < 2 ^ 64 -> 0 <= y < 2 ^ 64 -> 0 <= Z.lxor x y < 2 ^ 64.
Proof.
  intros Hx Hy. assert (0 <= Z.lxor x y) as H by (apply Z.lxor_nonneg; split; intros; lia). split; [done|].
  apply bounded_bits; [done|]. intros n Hn. now rewrite Z.lxor_spec, !u64_bits.
Qed.
Lemma shiftr_u64 x n : 0 <= n -> 0 <= x < 2 ^ 64 -> 0 <= Z.shiftr x n < 2 ^ 64.
Proof.
  intros Hn Hx. rewrite Z.shiftr_div_pow2 by done.
  assert (0 < 2 ^ n) by (apply Z.pow_pos_nonneg; lia). split; [apply Z.div_pos; lia|].
  apply Z.le_lt_trans with x; [|lia]. apply Z.div_le_upper_bound; [lia|]. nia.
Qed.

(** [x ^ (x >> n)] keeps the top bit. *)
Lemma xor_shiftr_ok n x : 0 < n -> rng_ok x -> rng_ok (Z.lxor x (Z.shiftr x n)).
Proof.
  intros Hn Hx. unfold rng_ok in *. pose proof (shiftr_u64 x n ltac:(lia) ltac:(lia)) as S.
  pose proof (lxor_u64 x _ ltac:(lia) S) as L. split; [|lia].
  assert (Z.lxor x (Z.shiftr x n) <> 0); [|lia]. intros E%Z.lxor_eq.
  assert (Z.shiftr x n < x); [|lia]. rewrite Z.shiftr_div_pow2 by lia.
  assert (2 ^ 1 <= 2 ^ n) by (apply Z.pow_le_mono_r; lia). apply Z.div_lt_upper_bound; [lia|]. nia.
Qed.
(** [x ^ (x << 25)] keeps the lowest bit: a fixed point of the shift is zero. *)
Lemma xor_shiftl_ok x : rng_ok x -> rng_ok (Z.lxor x (Z.shiftl x 25 mod 2 ^ 64)).
Proof.
  intros Hx. unfold rng_ok in *. pose proof (Z.mod_pos_bound (Z.shiftl x 25) (2 ^ 64) ltac:(lia)) as S.
  pose proof (lxor_u64 x _ ltac:(lia) S) as L. split; [|lia].
  assert (Z.lxor x (Z.shiftl x 25 mod 2 ^ 64) <> 0); [|lia]. intros E%Z.lxor_eq. clear L S.
  rewrite Z.shiftl_mul_pow2 in E by lia.
  assert (x = (x * 2 ^ 50) mod 2 ^ 64) as E2.
  { rewrite E at 1. rewrite E at 1. rewrite Z.mul_mod_idemp_l by lia. f_equal. lia. }
  assert (x = (x * 2 ^ 75) mod 2 ^ 64) as E3.
  { rewrite E2 at 1. rewrite E at 1. rewrite Z.mul_mod_idemp_l by lia. f_equal. lia. }
  replace (x * 2 ^ 75) with (x * 2 ^ 11 * 2 ^ 64) in E3 by lia. rewrite Z_mod_mult in E3. lia.
Qed.

(** the generator behind pointer paths and typing delays never degenerates:
    from any 64-bit seed, zero included, every state is a nonzero 64-bit word,
    and so is every number drawn. *)
Theorem rng_never_zero seed (n : nat) : 0 <= seed < 2 ^ 64 ->
  let draws := Nat.iter n (fun r => snd (next_u64 r)) (rng_new seed) in
  rng_ok draws /\ 0 < fst (next_u64 draws) < 2 ^ 64.
Proof.
  intros Hs. cbv zeta.
  assert (forall r, rng_ok r -> rng_ok (snd (next_u64 r))) as Step.
  { intros r Hr. cbn. apply (xor_shiftr_ok 27); [lia|]. apply xor_shiftl_ok. now apply (xor_shiftr_ok 12). }
  assert (rng_ok (Nat.iter n (fun r => snd (next_u64 r)) (rng_new seed))) as H.
  { induction n as [|n IH]; [|now apply Step]. cbn. unfold rng_ok, rng_new. destruct (Z.eqb_spec seed 0); lia. }
  split; [done|]. pose proof (Step _ H) as H'. set (r := Nat.iter n _ _) in *.
  change (fst (next_u64 r)) with (wrapping_mul (snd (next_u64 r)) 0x2545F4914F6CDD1D).
  set (x := snd (next_u64 r)) in *. unfold wrapping_mul, rng_ok in *.
  pose proof (Z.mod_pos_bound (x * 0x2545F4914F6CDD1D) (2 ^ 64) ltac:(lia)) as B. split; [|lia].
  assert ((x * 0x2545F4914F6CDD1D) mod 2 ^ 64 <> 0); [|lia]. intros E.
  apply Z.mod_divide in E; [|lia]. rewrite Z.mul_comm in E. apply Z.gauss in E; [|reflexivity]. apply Z.divide_pos_le in E; lia.
Qed.

(** ** Wheel profiles *)

Lemma sub_self x : is_finite x = true -> f64_sub x x = S754_zero false.
Proof.
  destruct x as [s| | |s m e]; intros F; try discriminate F; [now destruct s|].
  unfold f64_sub, SFsub. cbv zeta. now rewrite Z.sub_diag.
Qed.
(** What is left of the distance after the steps so far. *)
Lemma wheel_remaining dx dy total mo n ws : ws <> [] -> forall idx rx ry,
  let steps := wheel_steps dx dy total mo n idx ws rx ry in
  exists r r', foldl f64_sub rx (map step_dx steps) = f64_sub r r /\ last (map step_dx steps) = Some r /\
    foldl f64_sub ry (map step_dy steps) = f64_sub r' r' /\ last (map step_dy steps) = Some r'.
Proof.
  induction ws as [|w [|w' ws] IH]; intros Hn idx rx ry; cbv zeta; [done|exists rx, ry; done|].
  specialize (IH ltac:(discriminate) (S idx) (f64_sub rx (f64_mul dx (f64_div w total))) (f64_sub ry (f64_mul dy (f64_div w total)))).
  destruct IH as (r & r' & E1 & L1 & E2 & L2). cbn [wheel_steps map step_dx step_dy foldl].
  exists r, r'. split; [exact E1|]. split; [|split; [exact E2|]].
  - cbn in L1 |- *. exact L1.
  - cbn in L2 |- *. exact L2.
Qed.
Lemma wheel_steps_length dx dy total mo n ws : forall idx rx ry, length (wheel_steps dx dy total mo n idx ws rx ry) = length ws.
Proof. induction ws as [|w ws IH]; intros idx rx ry; cbn; [done|now rewrite IH]. Qed.
Lemma last_finite (l : list f64) x : last l = Some x -> Forall (fun v => is_finite v = true) l -> is_finite x = true.
Proof. intros E F. rewrite Forall_forall in F. apply F. now apply last_Some_elem_of. Qed.

(** a wheel profile scrolls by exactly what was asked, whatever the rounding
    of the weights: it has 6 steps, or 16 with momentum, and none for a zero
    scroll, and taking the steps away from the distance one after the other in
    [f64] arithmetic leaves exactly zero on both axes, as long as no step is
    infinite or not a number. *)
Theorem wheel_profile_exact powi dx dy momentum easing :
  let steps := wheel_profile powi dx dy momentum easing in
  if f64_eq dx f64_zero && f64_eq dy f64_zero then steps = []
  else length steps = (if momentum then 16 else 6)%nat /\
    (Forall (fun v => is_finite v = true) (map step_dx steps) -> foldl f64_sub dx (map step_dx steps) = S754_zero false) /\
    (Forall (fun v => is_finite v = true) (map step_dy steps) -> foldl f64_sub dy (map step_dy steps) = S754_zero false).
Proof.
  cbv zeta. unfold wheel_profile. destruct (f64_eq dx f64_zero && f64_eq dy f64_zero); [done|]. cbv zeta.
  set (ws := if momentum then _ else _). set (total := f64_max _ _). set (n := if momentum then 12%nat else 6%nat).
  assert (length ws = (if momentum then 16 else 6)%nat) as Hl.
  { unfold ws, n. destruct momentum; rewrite ?length_app; unfold base_weights, tail_weights; now rewrite !length_map, !length_seq. }
  split; [now rewrite wheel_steps_length|].
  destruct (wheel_remaining dx dy total momentum n ws ltac:(intros E; rewrite E in Hl; destruct momentum; discriminate) 0 dx dy)
    as (r & r' & E1 & L1 & E2 & L2).
  split; intros F.
  - rewrite E1. apply sub_self. exact (last_finite _ _ L1 F).
  - rewrite E2. apply sub_self. exact (last_finite _ _ L2 F).
Qed.

(** ** Accelerators *)

(** Text that parses to one token of an accelerator: valid, without a plus sign
    and not blank. *)
Definition tokenish (t : list Z) : Prop :=
  Forall (fun c => Text.is_scalar c = true) t /\ 43 ∉ t /\ Text.trim t <> [].

Lemma split_plus_none t : 43 ∉ t -> split_plus t = [t].
Proof.
  induction t as [|c t IH]; intros N; cbn; [done|]. apply not_elem_of_cons in N as [N1 N2].
  destruct (Z.eqb_spec c 43); [congruence|]. now rewrite IH.
Qed.
Lemma split_plus_cons t rest : 43 ∉ t -> split_plus (t ++ 43 :: rest) = t :: split_plus rest.
Proof.
  induction t as [|c t IH]; intros N; cbn; [done|]. apply not_elem_of_cons in N as [N1 N2].
  destruct (Z.eqb_spec c 43); [congruence|]. now rewrite IH.
Qed.
Fixpoint join_plus (ts : list (list Z)) : list Z :=
  match ts with [] => [] | [t] => t | t :: ts => t ++ 43 :: join_plus ts end.
Lemma split_join ts : ts <> [] -> Forall (fun t => 43 ∉ t) ts -> split_plus (join_plus ts) = ts.
Proof.
  induction ts as [|t [|t' ts] IH]; intros Hn F; [done|apply Forall_cons in F as [F _]; now apply split_plus_none|].
  apply Forall_cons in F as [F F']. change (split_plus (t ++ 43 :: join_plus (t' :: ts)) = t :: t' :: ts).
  rewrite split_plus_cons by done. rewrite IH; done.
Qed.
Lemma join_scalar ts : Forall (Forall (fun c => Text.is_scalar c = true)) ts ->
  Forall (fun c => Text.is_scalar c = true) (join_plus ts).
Proof.
  induction 1 as [|t [|t' ts] Ht _ IH]; cbn; [done|done|]. apply Forall_app. split; [done|]. constructor; [done|exact IH].
Qed.
Lemma str_chars_of_chars cs : Forall (fun c => Text.is_scalar c = true) cs -> Text.str_chars (of_chars cs) = cs.
Proof.
  intros H. unfold Text.str_chars, of_chars. rewrite String.list_byte_of_string_of_list_byte. now apply Text.lossy_chars_bytes.
Qed.

Lemma trim_start_suffix l : exists p, l = p ++ Text.trim_start l.
Proof.
  induction l as [|c l [p IH]]; cbn; [now exists []|]. destruct (Text.is_whitespace c); [|now exists []].
  exists (c :: p). cbn. now f_equal.
Qed.
Lemma trim_sub l : exists p q, l = p ++ Text.trim l ++ q.
Proof.
  unfold Text.trim. destruct (trim_start_suffix l) as [p E].
  destruct (trim_start_suffix (reverse (Text.trim_start l))) as [q E'].
  exists p, (reverse q). rewrite E at 1. f_equal.
  rewrite <- (reverse_involutive (Text.trim_start l)) at 1. rewrite E' at 1. apply reverse_app.
Qed.
Lemma trim_scalar l : Forall (fun c => Text.is_scalar c = true) l -> Forall (fun c => Text.is_scalar c = true) (Text.trim l).
Proof. intros H. destruct (trim_sub l) as (p & q & E). rewrite E in H. apply Forall_app in H as [_ [H _]%Forall_app]. done. Qed.
Lemma trim_start_idem l : Text.trim_start (Text.trim_start l) = Text.trim_start l.
Proof.
  induction l as [|c l IH]; cbn; [done|]. destruct (Text.is_whitespace c) eqn:E; [done|]. cbn. now rewrite E.
Qed.
(** The first character after [trim_start] stays when the end is trimmed. *)
Lemma trim_start_head l : Text.trim_start (reverse (Text.trim_start (reverse (Text.trim_start l)))) =
  reverse (Text.trim_start (reverse (Text.trim_start l))).
Proof.
  assert (match Text.trim_start l with [] => True | c :: _ => Text.is_whitespace c = false end) as H.
  { clear. induction l as [|c l IH]; cbn; [done|]. destruct (Text.is_whitespace c) eqn:E; [done|exact E]. }
  destruct (Text.trim_start l) as [|c m]; [done|]. clear l.
  rewrite reverse_cons. destruct (trim_start_suffix (reverse m ++ [c])) as [p E].
  destruct (Text.trim_start (reverse m ++ [c])) as [|d k _] eqn:T using rev_ind; [done|].
  rewrite app_assoc in E. apply app_inj_tail in E as [_ <-]. rewrite reverse_app. cbn. now rewrite H.
Qed.
Lemma trim_idem l : Text.trim (Text.trim l) = Text.trim l.
Proof.
  assert (Text.trim_start (Text.trim l) = Text.trim l) as E by apply trim_start_head.
  change (reverse (Text.trim_start (reverse (Text.trim_start (Text.trim l)))) = Text.trim l). rewrite E.
  unfold Text.trim. now rewrite reverse_involutive, trim_start_idem.
Qed.

(** Trimming before or in the parser is the same. *)
Lemma of_chars_nil cs : of_chars cs = "" <-> cs = [].
Proof.
  split; [|now intros ->]. destruct cs as [|c cs]; [done|]. unfold of_chars, Text.utf8_bytes. cbn [mbind list_bind].
  pose proof (Text.encode_utf8_nonempty c) as N. destruct (Text.encode_utf8 c); cbn in *; [lia|discriminate].
Qed.
Lemma trim_lower_trim t : Forall (fun c => Text.is_scalar c = true) t ->
  trim_lower (of_chars (Text.trim t)) = trim_lower (of_chars t).
Proof.
  intros F. unfold trim_lower. rewrite !str_chars_of_chars by (done || now apply trim_scalar). now rewrite trim_idem.
Qed.
Lemma trim_trim t : Forall (fun c => Text.is_scalar c = true) t -> trim (of_chars (Text.trim t)) = trim (of_chars t).
Proof.
  intros F. unfold trim. rewrite !str_chars_of_chars by (done || now apply trim_scalar). now rewrite trim_idem.
Qed.

(** The tokens of an accelerator written with plus signs are the ones written. *)
Lemma accel_tokens_join ts : ts <> [] -> Forall tokenish ts ->
  accel_tokens (of_chars (join_plus ts)) = map (fun t => of_chars (Text.trim t)) ts.
Proof.
  intros Hn F. unfold accel_tokens. rewrite str_chars_of_chars.
  2:{ apply join_scalar. eapply Forall_impl; [exact F|]. now intros t []. }
  rewrite split_join; [|done|eapply Forall_impl; [exact F|]; now intros t (_ & ? & _)].
  clear Hn. induction F as [|t ts (_ & _ & Ht) _ IH]; [done|]. cbn [map List.filter].
  rewrite bool_decide_eq_false_2 by (now rewrite of_chars_nil). cbn. now rewrite IH.
Qed.
Lemma modifier_loop_trim dbg ms bits : Forall (Forall (fun c => Text.is_scalar c = true)) ms ->
  forall r, modifier_loop dbg bits (map of_chars ms) = Ok r <-> modifier_loop dbg bits (map (fun t => of_chars (Text.trim t)) ms) = Ok r.
Proof.
  intros F. revert bits. induction F as [|m ms Hm _ IH]; intros bits r; [done|]. cbn [map modifier_loop].
  unfold parse_modifier_name. rewrite trim_lower_trim by done. repeat case_bool_decide; try done; apply IH.
Qed.
Lemma key_code_trim dbg t : Forall (fun c => Text.is_scalar c = true) t ->
  key_code_for_token dbg (of_chars (Text.trim t)) = key_code_for_token dbg (of_chars t).
Proof. intros F. unfold key_code_for_token. now rewrite trim_trim, trim_lower_trim. Qed.
Lemma parse_accelerator_join dbg ms key bits kc : Forall tokenish (ms ++ [key]) ->
  parse_modifier_list dbg (map of_chars ms) = Ok bits -> key_code_for_token dbg (of_chars key) = Ok kc ->
  parse_accelerator dbg (of_chars (join_plus (ms ++ [key]))) = Ok (mkAccel bits (fst kc) (snd kc)).
Proof.
  intros F Hm Hk. unfold parse_accelerator.
  rewrite accel_tokens_join by (done || (intros E; symmetry in E; now apply app_cons_not_nil in E)).
  apply Forall_app in F as [Fm [Fk _]%Forall_cons]. rewrite map_app. cbn [map]. rewrite last_snoc, length_app, take_app_length'.
  2:{ cbn. lia. }
  assert (Forall (Forall (fun c => Text.is_scalar c = true)) ms) as Fs by (eapply Forall_impl; [exact Fm|now intros t []]).
  apply (modifier_loop_trim dbg ms 0 Fs) in Hm. unfold parse_modifier_list. rewrite Hm, key_code_trim by apply Fk.
  now rewrite Hk.
Qed.

(** The names of the modifiers in a mask. *)
Definition modifier_names (bits : Z) : list (list Z) :=
  map Text.str_chars ((if Z.testbit bits 0 then ["Alt"] else []) ++ (if Z.testbit bits 1 then ["Ctrl"] else [])
    ++ (if Z.testbit bits 2 then ["Cmd"] else []) ++ (if Z.testbit bits 3 then ["Shift"] else [])).
Definition tokenish_b (t : list Z) : bool :=
  forallb Text.is_scalar t && forallb (fun c => negb (c =? 43)) t && negb (bool_decide (Text.trim t = [])).
Lemma tokenish_of t : tokenish_b t = true -> tokenish t.
Proof.
  unfold tokenish_b. rewrite !andb_true_iff, negb_true_iff. intros [[H1 H2] H3%bool_decide_eq_false]. repeat split; [| |done].
  - apply Forall_forall. intros c Hc%list_elem_of_In. rewrite forallb_forall in H1. auto.
  - intros Hc%list_elem_of_In. rewrite forallb_forall in H2. now specialize (H2 _ Hc).
Qed.
Lemma modifier_names_parse bits : 0 <= bits < 16 ->
  Forall tokenish (modifier_names bits) /\ forall dbg, parse_modifier_list dbg (map of_chars (modifier_names bits)) = Ok bits.
Proof.
  intros H. assert (forallb tokenish_b (modifier_names bits) = true /\
    modifier_loop (fun s => s) 0 (map of_chars (modifier_names bits)) = Ok bits) as [H1 H2].
  { assert (bits ∈ [0; 1; 2; 3; 4; 5; 6; 7; 8; 9; 10; 11; 12; 13; 14; 15]) as I by (rewrite !elem_of_cons; lia).
    repeat (apply elem_of_cons in I as [->|I]; [vm_compute; done|]). now apply not_elem_of_nil in I. }
  split.
  - apply Forall_forall. intros t Ht%list_elem_of_In. apply tokenish_of. rewrite forallb_forall in H1. auto.
  - intros dbg. revert H2. unfold parse_modifier_list. generalize 0. induction (map of_chars (modifier_names bits)) as [|m l IH].
    + done.
    + intros z. cbn. destruct (parse_modifier_name m); [apply IH|discriminate].
Qed.

(** accelerators round-trip: for every set of modifiers and every key token
    the key table accepts, the accelerator written as the modifiers' names and
    the token joined by plus signs (with any blanks around the token) parses
    back to that set and that key, as long as the token holds no plus sign. *)
Theorem accelerator_roundtrip dbg bits key kc : 0 <= bits < 16 -> tokenish key ->
  key_code_for_token dbg (of_chars key) = Ok kc ->
  parse_accelerator dbg (of_chars (join_plus (modifier_names bits ++ [key]))) = Ok (mkAccel bits (fst kc) (snd kc)).
Proof.
  intros Hb Hk E. destruct (modifier_names_parse bits Hb) as [F P]. apply parse_accelerator_join; [|apply P|done].
  apply Forall_app. now split; [|constructor].
Qed.

End Input.

Module InputExamples.
Import Input.

Lemma rng_never_zero_witness : rng_ok (snd (next_u64 (rng_new 0))) /\ rng_new 0 = 0x12345.
Proof. split; [|reflexivity]. exact (proj1 (rng_never_zero 0 1 ltac:(lia))). Defined.

Lemma accelerator_roundtrip_witness :
  parse_accelerator (fun s => s) "Ctrl+Shift+ pageup" = Ok (mkAccel 10 "PageUp" "PageUp").
Proof.
  assert (tokenish (Text.str_chars " pageup")) as T by (apply tokenish_of; vm_compute; reflexivity).
  assert (key_code_for_token (fun s => s) (of_chars (Text.str_chars " pageup")) = Ok ("PageUp", "PageUp")) as K
    by (vm_compute; reflexivity).
  exact (accelerator_roundtrip (fun s => s) 10 (Text.str_chars " pageup") ("PageUp", "PageUp") ltac:(lia) T K).
Defined.

(** The plus key cannot be named: its accelerator is read as the modifier alone. *)
Example plus_key_unsupported : parse_accelerator (fun s => s) "Ctrl++" = Err "unsupported key token Ctrl".
Proof. vm_compute. reflexivity. Qed.
(** A character of more than one byte is no key token. *)
Example accented_token_unsupported : is_ok (key_code_for_token (fun s => s) (char_str 0xE9)) = false.
Proof. vm_compute. reflexivity. Qed.
(** Typing DEL gives the key Delete without its code. *)
Example delete_has_no_code : char_to_cdp_key 0x7F = ("Delete", "Unidentified", "").
Proof. vm_compute. reflexivity. Qed.
(** A chord with an unknown modifier keeps the bits of those before it. *)
Example chord_keeps_bits : parse_chord "Ctrl+Foo+A" = (2, "Ctrl+Foo+A").
Proof. vm_compute. reflexivity. Qed.

End InputExamples.
