(* ===== verification/Actions.v ===== *)
(** * Actions: pointer, touch and keyboard actions on a page

    Models [browser-engine/src/actions.rs].  An action is a program that sends
    commands, sleeps and asks; it is a tree whose nodes are the events of the
    program and whose branches are the answers, so a theorem about its
    executions holds for whatever the browser answers.  The commands are those
    of [Input]; [sin], [cos], [powi], base64, Debug and Display texts and the
    JSON serializer are parameters. *)
From S2P Require Import Prelude Json Text F64 AxMerge Input.
From Stdlib Require Import SpecFloat.
Import JsonTree Input.

(** ** Programs *)
Module Prog.

Inductive prog (E : Type -> Type) (A : Type) : Type :=
| Ret (a : A)
| Vis (X : Type) (e : E X) (k : X -> prog E A).
Arguments Ret {E A} a.
Arguments Vis {E A} X e k.

Definition trigger {E X} (e : E X) : prog E X := Vis X e Ret.
Fixpoint bind {E A B} (p : prog E A) (f : A -> prog E B) : prog E B :=
  match p with Ret a => f a | Vis X e k => Vis X e (fun x => bind (k x) f) end.
Fixpoint embed {E F A} (h : forall X, E X -> F X) (p : prog E A) : prog F A :=
  match p with Ret a => Ret a | Vis X e k => Vis X (h X e) (fun x => embed h (k x)) end.

(** [x <-- p ;; q]; [x <-! p ;; q] is Rust's [let x = p.await?; q]. *)
Notation "x <-- p ;; q" := (bind p (fun x => q)) (at level 100, p at next level, right associativity) : ofa_scope.
Definition bind_ok {E A B Er} (p : prog E (result A Er)) (f : A -> prog E (result B Er)) : prog E (result B Er) :=
  bind p (fun r => match r with Ok a => f a | Err e => Ret (Err e) end).
Notation "x <-! p ;; q" := (bind_ok p (fun x => q)) (at level 100, p at next level, right associativity) : ofa_scope.
Notation "p ;;! q" := (bind_ok p (fun _ => q)) (at level 100, right associativity) : ofa_scope.
Definition map_err {E A Er Er'} (g : Er -> Er') (p : prog E (result A Er)) : prog E (result A Er') :=
  bind p (fun r => Ret (match r with Ok a => Ok a | Err e => Err (g e) end)).
Definition lift {E A Er} (r : result A Er) : prog E (result A Er) := Ret r.
Definition ok {E A Er} (a : A) : prog E (result A Er) := Ret (Ok a).
Definition fail {E A Er} (e : Er) : prog E (result A Er) := Ret (Err e).

(** A [for] loop whose body may return early with [?]. *)
Fixpoint for_each {E A Er} (l : list A) (f : A -> prog E (result unit Er)) : prog E (result unit Er) :=
  match l with [] => ok tt | x :: l => f x ;;! for_each l f end.

(** [runs obs p tr a]: an execution of [p] that returns [a]; [obs] is what is
    seen of an event and its answer. *)
Fixpoint runs {E O A} (obs : forall X, E X -> X -> list O) (p : prog E A) (tr : list O) (a : A) : Prop :=
  match p with
  | Ret a' => tr = [] /\ a = a'
  | Vis X e k => exists x tr', tr = obs X e x ++ tr' /\ runs obs (k x) tr' a
  end.

Lemma runs_bind {E O A B} (obs : forall X, E X -> X -> list O) (p : prog E A) (f : A -> prog E B) tr b :
  runs obs (bind p f) tr b <-> exists tr1 tr2 a, tr = tr1 ++ tr2 /\ runs obs p tr1 a /\ runs obs (f a) tr2 b.
Proof.
  revert tr. induction p as [a|X e k IH]; intros tr; cbn.
  - split; [intros H; exists [], tr, a; eauto|]. now intros (? & ? & ? & -> & [-> ->] & ?).
  - split.
    + intros (x & tr' & -> & H). apply IH in H as (t1 & t2 & a & -> & H1 & H2).
      exists (obs X e x ++ t1), t2, a. rewrite (assoc_L (++)). eauto 10.
    + intros (t1 & t2 & a & -> & (x & t' & -> & H1) & H2). exists x, (t' ++ t2). rewrite (assoc_L (++)).
      split; [done|]. apply IH. eauto 10.
Qed.

(** The execution against given answers, which may depend on what was seen. *)
Fixpoint exec {E O A} (obs : forall X, E X -> X -> list O) (answer : list O -> forall X, E X -> X) (seen : list O)
    (p : prog E A) : list O * A :=
  match p with
  | Ret a => ([], a)
  | Vis X e k =>
      let x := answer seen X e in
      let '(tr, a) := exec obs answer (seen ++ obs X e x) (k x) in (obs X e x ++ tr, a)
  end.
Lemma exec_runs {E O A} (obs : forall X, E X -> X -> list O) answer (p : prog E A) : forall seen,
  runs obs p (fst (exec obs answer seen p)) (snd (exec obs answer seen p)).
Proof.
  induction p as [a|X e k IH]; intros seen; cbn; [done|]. specialize (IH (answer seen X e) (seen ++ obs X e (answer seen X e))).
  destruct (exec _ _ _ (k _)) as [tr a]. cbn in *. eauto.
Qed.

(** A postcondition on every execution. *)
Definition post {E O A} (obs : forall X, E X -> X -> list O) (p : prog E A) (Q : list O -> A -> Prop) : Prop :=
  forall tr a, runs obs p tr a -> Q tr a.

Section Rules.
Context {E : Type -> Type} {O : Type} (obs : forall X, E X -> X -> list O).

Lemma post_ret {A} (a : A) (Q : list O -> A -> Prop) : Q [] a -> post obs (Ret a) Q.
Proof. now intros H tr b [-> ->]. Qed.
Lemma post_vis {X A} (e : E X) (k : X -> prog E A) (Q : list O -> A -> Prop) :
  (forall x, post obs (k x) (fun tr => Q (obs X e x ++ tr))) -> post obs (Vis X e k) Q.
Proof. intros H tr a (x & t & -> & R). now apply H in R. Qed.
Lemma post_bind {A B} (p : prog E A) (f : A -> prog E B) (P : list O -> A -> Prop) (Q : list O -> B -> Prop) :
  post obs p P -> (forall t a, P t a -> post obs (f a) (fun tr => Q (t ++ tr))) -> post obs (bind p f) Q.
Proof. intros Hp Hf tr b R. apply runs_bind in R as (t1 & t2 & a & -> & R1 & R2). exact (Hf _ _ (Hp _ _ R1) _ _ R2). Qed.
Lemma post_conseq {A} (p : prog E A) (P Q : list O -> A -> Prop) :
  post obs p P -> (forall tr a, P tr a -> Q tr a) -> post obs p Q.
Proof. intros H HPQ tr a R. apply HPQ. now apply H. Qed.
End Rules.

End Prog.

Module Actions.
Import Prog AxMerge.

(** ** What an action does to the outside *)

(** The commands without a result. *)
Inductive cmd : Type :=
| Mouse (e : MouseEvent)
| Touch (e : TouchEvent)
| Key (e : KeyEvent)
| DragEvent (type : string) (x y : f64) (data : json)
| ImeSetComposition (text : string) (selection_start selection_end : Z) (replacement : option (Z * Z))
| InsertText (text : string)
| SetTouchEmulationEnabled (enabled : bool) (max_touch_points : option Z)
| SetDeviceMetricsOverride (width height : Z) (device_scale_factor : f64) (mobile : bool)
| SetUserAgentOverride (user_agent : string) (accept_language platform : option string)
| SetGeolocationOverride (latitude longitude accuracy : option f64)
| SetEmulatedMedia (features : option json)
| EmulateNetworkConditions (offline : bool) (latency download_throughput upload_throughput : f64)
| SetLocaleOverride (locale : option string)
| SetTimezoneOverride (timezone_id : string)
| SetCpuThrottlingRate (rate : f64).

Record EvaluateParams := mkEval { ev_expression : string; ev_return_by_value : option bool; ev_await_promise : option bool }.
Record ScreenshotParams := mkShot {
  ss_format : option string; ss_quality : option Z; ss_beyond : option bool; ss_clip : option json
}.

Inductive ev : Type -> Type :=
| Send (c : cmd) : ev (result unit string)                              (* [cdp_send] of an input or emulation command *)
| Evaluate (p : EvaluateParams) : ev (result (json * option json) string)  (* result, exception details *)
| CaptureScreenshot (p : ScreenshotParams) : ev (result string string)
| Sleep (ms : Z) : ev unit
| TraceSink : ev bool                                                   (* the browser has a trace sink *)
| SavePng (action : string) (png : list byte) : ev (result string string)
| RecordScreenshot (action png_path : string) : ev unit
| NavSubscribe : ev unit
| NavRecv (ms : Z) : ev (option string).                                (* a navigation within [ms] *)

Definition act (A : Type) : Type := prog ev (result A string).
Definition ask {X} (e : ev X) : prog ev X := trigger e.
Definition send (c : cmd) : act unit := ask (Send c).
Definition sleep (ms : Z) : act unit := _ <-- ask (Sleep ms) ;; ok tt.

(** ** Elements *)

Definition center (e : PageElement) : f64 * f64 :=
  (f64_add (rx (bbox e)) (f64_half (rw (bbox e))), f64_add (ry (bbox e)) (f64_half (rh (bbox e)))).
Definition bbox_must_be_actionable (b : Rect) : result unit string :=
  if f64_le (rw b) f64_zero || f64_le (rh b) f64_zero then Err "element has zero area" else Ok tt.

(** What actions take from outside the repository: [powi], [sin] and [cos], the
    Debug form of a string, Display of a float and of a JSON value, base64, the
    JSON text of a list of strings; and the text of the script that walks an
    open menu, which is not interpreted here. *)
Class PageEnv := {
  powi : f64 -> Z -> f64;
  sin : f64 -> f64;
  cos : f64 -> f64;
  dbg : string -> string;
  fmt_f64 : f64 -> string;
  fmt_json : json -> string;
  b64_decode : string -> result (list byte) string;
  json_strings : list string -> result string string;
  menu_script : string -> string
}.

Section Engine.
Context `{Env : PageEnv}.

Definition screenshot (format : string) (quality : option Z) (beyond : bool) (clip : option Rect) : act string :=
  map_err (fun _ => "Page.captureScreenshot")
    (ask (CaptureScreenshot (mkShot (Some format) quality (Some beyond)
       (option_map (fun c => JObj [("x", jfloat (rx c)); ("y", jfloat (ry c)); ("width", jfloat (rw c));
                                   ("height", jfloat (rh c)); ("scale", jfloat (f64_of_Z 1))]) clip)))).
Definition capture_action_screenshot (action : string) : act unit :=
  png_b64 <-! screenshot "png" None false None ;;
  png <-! lift (match b64_decode png_b64 with Ok p => Ok p | Err _ => Err "decoding base64 screenshot" end) ;;
  png_path <-! ask (SavePng action png) ;;
  _ <-- ask (RecordScreenshot action png_path) ;; ok tt.
(** Never fails the action. *)
Definition capture_action_trace (action : string) : act unit :=
  sink <-- ask TraceSink ;;
  if sink then _ <-- capture_action_screenshot action ;; ok tt else ok tt.

(** ** Mouse *)

Definition move_along (pause0 : bool) (path : list (f64 * f64 * Z)) : act unit :=
  for_each path (fun '(x, y, sleep_ms) =>
    send (Mouse (cdp_mouse_move x y)) ;;!
    if pause0 || (0 <? sleep_ms) then sleep sleep_ms else ok tt).

Definition click (e : PageElement) (button : MouseButton) (click_count : Z) (realistic : bool) (rng_seed : Z)
    : act (option string) :=
  lift (bbox_must_be_actionable (bbox e)) ;;!
  let '(cx, cy) := center e in
  (if realistic then
     let rng := rng_new (Z.max rng_seed 1) in
     move_along false (fst (bezier_mouse_path powi (f64_sub cx (f64_of_Z 60), f64_sub cy (f64_of_Z 30)) (cx, cy) 18 rng))
   else send (Mouse (cdp_mouse_move cx cy))) ;;!
  _ <-- ask NavSubscribe ;;
  send (Mouse (cdp_mouse_press cx cy button click_count true)) ;;!
  send (Mouse (cdp_mouse_press cx cy button click_count false)) ;;!
  capture_action_trace "page.click" ;;!
  url <-- ask (NavRecv 500) ;; ok url.

(** One character: down, up, pause. *)
Fixpoint type_chars (delay_ms : option Z) (cs : list Z) (rng : Rng) : act unit :=
  match cs with
  | [] => ok tt
  | ch :: cs =>
      let text := text_of_char ch in
      send (Key (cdp_key_down (key_of_char ch) (code_of_char ch) (if bool_decide (text = "") then None else Some text) 0)) ;;!
      send (Key (cdp_key_up (key_of_char ch) (code_of_char ch) 0)) ;;!
      let '(d, rng) := match delay_ms with Some d => (d, rng) | None => typing_delay rng end in
      (if d =? 0 then ok tt else sleep d) ;;!
      type_chars delay_ms cs rng
  end.
Definition type_text (e : PageElement) (text : string) (delay_ms : option Z) (clear_first : bool) (rng_seed : Z) : act unit :=
  click e LeftButton 1 false rng_seed ;;!
  (if clear_first then
     _ <-- send (Key (cdp_key_down "a" "KeyA" None 4)) ;;
     _ <-- send (Key (cdp_key_up "a" "KeyA" 4)) ;;
     _ <-- send (Key (cdp_key_down "Backspace" "Backspace" None 0)) ;;
     _ <-- send (Key (cdp_key_up "Backspace" "Backspace" 0)) ;;
     ok tt
   else ok tt) ;;!
  type_chars delay_ms (Text.str_chars text) (rng_new (Z.max rng_seed 1)) ;;!
  capture_action_trace "page.type".

Definition press_key (key code : string) (modifiers : Z) : act unit :=
  send (Key (cdp_key_raw_down key code modifiers)) ;;!
  send (Key (cdp_key_up key code modifiers)).
Definition keypress_with_modifiers (key : string) (modifiers : Z) : act unit :=
  kc <-! lift (match key_code_for_token dbg key with
               | Ok kc => Ok kc
               | Err e => Err ("keypress token parse failed: " +:+ e)
               end) ;;
  press_key (fst kc) (snd kc) modifiers.
Definition keypress (key : string) : act unit :=
  let '(modifiers, key_name) := parse_chord key in keypress_with_modifiers key_name modifiers.

Definition precise_scroll (elem : option PageElement) (dx dy : f64) (momentum : bool) (easing : ScrollEasing) : act unit :=
  xy <-! lift (match elem with
               | Some e => _ <-? bbox_must_be_actionable (bbox e) ;; Ok (center e)
               | None => Ok (f64_of_Z 1, f64_of_Z 1)
               end) ;;
  for_each (wheel_profile powi dx dy momentum easing) (fun s =>
    send (Mouse (cdp_mouse_wheel (fst xy) (snd xy) (step_dx s) (step_dy s))) ;;!
    if 0 <? step_sleep_ms s then sleep (step_sleep_ms s) else ok tt) ;;!
  capture_action_trace "page.scroll.precise".
Definition scroll (elem : option PageElement) (dx dy : f64) : act unit := precise_scroll elem dx dy false Linear.

Definition hover (e : PageElement) : act unit :=
  lift (bbox_must_be_actionable (bbox e)) ;;!
  send (Mouse (cdp_mouse_move (fst (center e)) (snd (center e)))).

Definition drag (from to : PageElement) (rng_seed : Z) : act unit :=
  lift (bbox_must_be_actionable (bbox from)) ;;!
  lift (bbox_must_be_actionable (bbox to)) ;;!
  let '(fx, fy) := center from in let '(tx, ty) := center to in
  let rng := rng_new (Z.max rng_seed 1) in
  send (Mouse (cdp_mouse_move fx fy)) ;;!
  send (Mouse (cdp_mouse_press fx fy LeftButton 1 true)) ;;!
  move_along true (fst (bezier_mouse_path powi (fx, fy) (tx, ty) 24 rng)) ;;!
  send (Mouse (cdp_mouse_press tx ty LeftButton 1 false)).

(** ** Touch *)

Definition enable_touch : act unit := send (SetTouchEmulationEnabled true (Some 2)).
Definition touch_tap (x y : f64) (duration_ms tap_count : Z) : act unit :=
  enable_touch ;;!
  let taps := Z.max tap_count 1 in
  for_each (map Z.of_nat (seq 0 (Z.to_nat taps))) (fun idx =>
    send (Touch (cdp_touch_event "touchStart" [contact_new 1 x y])) ;;!
    sleep (Z.max duration_ms 1) ;;!
    send (Touch (cdp_touch_event "touchEnd" [])) ;;!
    if idx + 1 =? taps then ok tt else sleep 40) ;;!
  capture_action_trace "page.touch.tap".

(** A gesture: start, the moves with a pause after each, end. *)
Definition touch_gesture (start : list TouchContact) (at_step : f64 -> list TouchContact) (steps duration_ms : Z)
    (action : string) : act unit :=
  let steps := Z.max steps 1 in
  let per_step := Z.max (duration_ms / steps) 1 in
  send (Touch (cdp_touch_event "touchStart" start)) ;;!
  for_each (map Z.of_nat (seq 1 (Z.to_nat steps))) (fun idx =>
    send (Touch (cdp_touch_event "touchMove" (at_step (f64_div (f64_of_Z idx) (f64_of_Z steps))))) ;;!
    sleep per_step) ;;!
  send (Touch (cdp_touch_event "touchEnd" [])) ;;!
  capture_action_trace action.

Definition touch_swipe (from to : f64 * f64) (steps duration_ms : Z) : act unit :=
  enable_touch ;;!
  touch_gesture [contact_new 1 (fst from) (snd from)]
    (fun t => [contact_new 1 (f64_add (fst from) (f64_mul (f64_sub (fst to) (fst from)) t))
                             (f64_add (snd from) (f64_mul (f64_sub (snd to) (snd from)) t))])
    steps duration_ms "page.touch.swipe".
Definition two_contacts (cx cy radius : f64) : list TouchContact :=
  [contact_new 1 (f64_sub cx radius) cy; contact_new 2 (f64_add cx radius) cy].
Definition touch_pinch (cx cy start_radius end_radius : f64) (steps duration_ms : Z) : act unit :=
  if f64_le start_radius f64_zero || f64_le end_radius f64_zero then fail "pinch radii must be > 0"
  else
    enable_touch ;;!
    touch_gesture (two_contacts cx cy start_radius)
      (fun t => two_contacts cx cy (f64_add start_radius (f64_mul (f64_sub end_radius start_radius) t)))
      steps duration_ms "page.touch.pinch".

(** [std::f64::consts::PI] and the constants of [to_radians] and [to_degrees]. *)
Definition PI : f64 := S754_finite false 7074237752028440 (-51).
Definition to_radians (x : f64) : f64 := f64_mul x (f64_div PI (f64_of_Z 180)).
Definition to_degrees (x : f64) : f64 := f64_mul x (f64_div (f64_of_Z 180) PI).
Definition rotated_contact (id : Z) (cx cy radius angle : f64) : TouchContact :=
  let c := contact_new id (f64_add cx (f64_mul radius (cos angle))) (f64_add cy (f64_mul radius (sin angle))) in
  mkContact (tc_id c) (tc_x c) (tc_y c) (radius_x c) (radius_y c) (to_degrees angle) (tc_force c) (tc_tangential c)
    (tc_tilt_x c) (tc_tilt_y c) (tc_twist c).
Definition touch_rotate (cx cy radius angle_deg : f64) (steps duration_ms : Z) : act unit :=
  if f64_le radius f64_zero then fail "rotation radius must be > 0"
  else
    enable_touch ;;!
    touch_gesture (two_contacts cx cy radius)
      (fun t => let angle := f64_mul (to_radians angle_deg) t in
                [rotated_contact 1 cx cy radius angle; rotated_contact 2 cx cy radius (f64_add angle PI)])
      steps duration_ms "page.touch.rotate".

Definition gesture_pinch (cx cy start_radius scale_factor : f64) (steps duration_ms : Z) : act unit :=
  touch_pinch cx cy start_radius (f64_mul start_radius scale_factor) steps duration_ms ;;!
  capture_action_trace "page.gesture.pinch".
Definition gesture_rotate (cx cy radius angle_deg : f64) (steps duration_ms : Z) : act unit :=
  touch_rotate cx cy radius angle_deg steps duration_ms ;;!
  capture_action_trace "page.gesture.rotate".
Definition gesture_longpress (x y : f64) (duration_ms : Z) : act unit :=
  touch_tap x y (Z.max duration_ms 300) 1 ;;!
  capture_action_trace "page.gesture.longpress".

(** ** Pen *)

Definition pointer_press (x y : f64) (b : MouseButton) (click_count : Z) (p : PointerDetails) : act unit :=
  send (Mouse (cdp_pointer_event "mousePressed" x y (Some b) (buttons_mask b) (Some (Z.max click_count 1)) p)) ;;!
  capture_action_trace "page.pointer.press".
Definition pointer_move (x y : f64) (buttons : Z) (p : PointerDetails) : act unit :=
  send (Mouse (cdp_pointer_event "mouseMoved" x y None buttons None p)) ;;!
  capture_action_trace "page.pointer.move".
Definition pointer_release (x y : f64) (b : MouseButton) (click_count : Z) (p : PointerDetails) : act unit :=
  send (Mouse (cdp_pointer_event "mouseReleased" x y (Some b) (buttons_mask b) (Some (Z.max click_count 1)) p)) ;;!
  capture_action_trace "page.pointer.release".

(** ** Files and keys *)

Definition file_drop (x y : f64) (file_paths : list string) : act unit :=
  match file_paths with
  | [] => fail "file_drop requires at least one path"
  | _ =>
      let data := build_file_drag_data file_paths in
      send (DragEvent "dragEnter" x y data) ;;! sleep 20 ;;!
      send (DragEvent "dragOver" x y data) ;;! sleep 20 ;;!
      send (DragEvent "drop" x y data) ;;!
      capture_action_trace "page.drag.file_drop"
  end.
Definition keyboard_shortcut (accel : string) : act unit :=
  a <-! lift (match parse_accelerator dbg accel with
              | Ok a => Ok a
              | Err e => Err ("accelerator parse failed: " +:+ e)
              end) ;;
  press_key (acc_key a) (acc_code a) (acc_modifiers a) ;;!
  capture_action_trace "page.keyboard.shortcut".
Definition keyboard_ime (composition commit : string) : act unit :=
  let len := zlen (Text.str_chars composition) in
  send (ImeSetComposition composition len len None) ;;!
  (if bool_decide (commit = "") then ok tt else send (InsertText commit)) ;;!
  send (ImeSetComposition "" 0 0 (Some (0, 0))) ;;!
  capture_action_trace "page.keyboard.ime".
Definition dead_key (accent : string) (base : Z) : act string :=
  composed <-! lift (match compose_dead_key accent base with
                     | Some s => Ok s
                     | None => Err ("unsupported dead-key composition " +:+ dbg accent +:+ "+" +:+ dbg (char_str base))
                     end) ;;
  match dead_key_accent_hint dbg accent with
  | Some a => press_key (acc_key a) (acc_code a) (acc_modifiers a)
  | None => ok tt
  end ;;!
  send (InsertText composed) ;;!
  capture_action_trace "page.dead_key" ;;!
  ok composed.
Definition tab_traversal (direction : string) (count : Z) : act unit :=
  modifiers <-! (if bool_decide (direction = "forward") then ok 0
                 else if bool_decide (direction = "backward") then ok 8
                 else fail ("unsupported tab traversal direction " +:+ dbg direction)) ;;
  for_each (seq 0 (Z.to_nat (Z.max count 1))) (fun _ =>
    keypress_with_modifiers "Tab" modifiers ;;! sleep 20) ;;!
  capture_action_trace "page.tab_traversal".

(** ** Scripts *)

(** What [eval] makes of the answer. *)
Definition eval_outcome (r : result (json * option json) string) : result json string :=
  match r with
  | Err _ => Err "Runtime.evaluate"
  | Ok (_, Some exc) => Err ("eval threw: " +:+ fmt_json exc)
  | Ok (v, None) => Ok v
  end.
Definition eval (expression : string) (return_by_value : bool) : act json :=
  r <-- ask (Evaluate (mkEval expression (Some return_by_value) (Some true))) ;; Ret (eval_outcome r).
Definition read_text (elem : option PageElement) : act string :=
  let expr := match elem with
              | None => "document.body && document.body.innerText || ''"
              | Some e => "(()=>{const r=document.elementFromPoint(" +:+ fmt_f64 (fst (center e)) +:+ ","
                          +:+ fmt_f64 (snd (center e)) +:+ ");return r ? r.innerText : '';})()"
              end in
  res <-! ask (Evaluate (mkEval expr (Some true) None)) ;;
  ok (default "" (vget_str "value" (fst res))).

Definition right_click_menu_navigate (e : PageElement) (item_path : list string) : act unit :=
  lift (bbox_must_be_actionable (bbox e)) ;;!
  let '(x, y) := center e in
  send (Mouse (cdp_mouse_move x y)) ;;!
  send (Mouse (cdp_mouse_press x y RightButton 1 true)) ;;!
  send (Mouse (cdp_mouse_press x y RightButton 1 false)) ;;!
  sleep 120 ;;!
  path_json <-! lift (match json_strings item_path with Ok s => Ok s | Err _ => Err "serialize item_path" end) ;;
  res <-! eval (menu_script path_json) true ;;
  match vget "ok" res ≫= as_bool with
  | Some true => capture_action_trace "page.right_click_menu_navigate"
  | _ => fail ("context-menu path segment not found: " +:+ default "<unknown>" (vget_str "missing" res))
  end.

(** ** Emulation *)

Definition set_viewport (width height : Z) (device_scale_factor : f64) (mobile : bool) : act unit :=
  send (SetDeviceMetricsOverride width height device_scale_factor mobile).
Definition set_user_agent (ua : string) (accept_language platform : option string) : act unit :=
  send (SetUserAgentOverride ua accept_language platform).
Definition set_geo (lat lon accuracy : f64) : act unit :=
  send (SetGeolocationOverride (Some lat) (Some lon) (Some accuracy)).
Definition set_dark_mode (enabled : bool) : act unit :=
  send (SetEmulatedMedia (Some (JArr [JObj [("name", JStr "prefers-color-scheme");
                                            ("value", JStr (if enabled then "dark" else "light"))]]))).
(** ** What an action sends, in advance *)

(** The actions of [impl Page]; the pen's press, move and release are single
    commands. *)
Inductive action : Type :=
| Click (e : PageElement) (b : MouseButton) (n : Z) (realistic : bool) (seed : Z)
| TypeText (e : PageElement) (text : string) (delay_ms : option Z) (clear_first : bool) (seed : Z)
| Keypress (key : string)
| KeypressWith (key : string) (modifiers : Z)
| Scroll (e : option PageElement) (dx dy : f64) (momentum : bool) (easing : ScrollEasing)
| Hover (e : PageElement)
| Drag (from to : PageElement) (seed : Z)
| Tap (x y : f64) (duration_ms tap_count : Z)
| Swipe (from to : f64 * f64) (steps duration_ms : Z)
| Pinch (cx cy r0 r1 : f64) (steps duration_ms : Z)
| Rotate (cx cy r a : f64) (steps duration_ms : Z)
| GesturePinch (cx cy r0 scale : f64) (steps duration_ms : Z)
| GestureRotate (cx cy r a : f64) (steps duration_ms : Z)
| Longpress (x y : f64) (duration_ms : Z)
| FileDrop (x y : f64) (paths : list string)
| Shortcut (accel : string)
| Ime (composition commit : string)
| DeadKey (accent : string) (base : Z)
| Tabs (direction : string) (count : Z)
| Menu (e : PageElement) (item_path : list string).

Definition void {A} (p : act A) : act unit := _ <-! p ;; ok tt.
Definition perform (a : action) : act unit :=
  match a with
  | Click e b n realistic seed => void (click e b n realistic seed)
  | TypeText e text d c seed => type_text e text d c seed
  | Keypress key => keypress key
  | KeypressWith key m => keypress_with_modifiers key m
  | Scroll e dx dy m easing => precise_scroll e dx dy m easing
  | Hover e => hover e
  | Drag from to seed => drag from to seed
  | Tap x y d n => touch_tap x y d n
  | Swipe from to n d => touch_swipe from to n d
  | Pinch cx cy r0 r1 n d => touch_pinch cx cy r0 r1 n d
  | Rotate cx cy r a n d => touch_rotate cx cy r a n d
  | GesturePinch cx cy r0 sc n d => gesture_pinch cx cy r0 sc n d
  | GestureRotate cx cy r a n d => gesture_rotate cx cy r a n d
  | Longpress x y d => gesture_longpress x y d
  | FileDrop x y paths => file_drop x y paths
  | Shortcut accel => keyboard_shortcut accel
  | Ime c k => keyboard_ime c k
  | DeadKey accent base => void (dead_key accent base)
  | Tabs dir n => tab_traversal dir n
  | Menu e path => right_click_menu_navigate e path
  end.

(** The specification: the commands of each action, from its arguments alone. *)
Definition move_script (path : list (f64 * f64 * Z)) : list cmd :=
  map (fun '(x, y, _) => Mouse (cdp_mouse_move x y)) path.
Definition button_script (x y : f64) (b : MouseButton) (n : Z) : list cmd :=
  [Mouse (cdp_mouse_press x y b n true); Mouse (cdp_mouse_press x y b n false)].
Definition click_script (e : PageElement) (b : MouseButton) (n : Z) (realistic : bool) (seed : Z) : list cmd :=
  let '(cx, cy) := center e in
  (if realistic
   then move_script (fst (bezier_mouse_path powi (f64_sub cx (f64_of_Z 60), f64_sub cy (f64_of_Z 30)) (cx, cy) 18
                            (rng_new (Z.max seed 1))))
   else [Mouse (cdp_mouse_move cx cy)]) ++ button_script cx cy b n.
Definition key_script (key code : string) (m : Z) : list cmd :=
  [Key (cdp_key_raw_down key code m); Key (cdp_key_up key code m)].
Definition char_script (ch : Z) : list cmd :=
  [Key (cdp_key_down (key_of_char ch) (code_of_char ch)
          (if bool_decide (text_of_char ch = "") then None else Some (text_of_char ch)) 0);
   Key (cdp_key_up (key_of_char ch) (code_of_char ch) 0)].
Definition clear_script : list cmd :=
  [Key (cdp_key_down "a" "KeyA" None 4); Key (cdp_key_up "a" "KeyA" 4);
   Key (cdp_key_down "Backspace" "Backspace" None 0); Key (cdp_key_up "Backspace" "Backspace" 0)].
Definition press_script (key : string) (m : Z) : list cmd :=
  match key_code_for_token dbg key with Ok kc => key_script (fst kc) (snd kc) m | Err _ => [] end.
Definition tap_script (x y : f64) (taps : Z) : list cmd :=
  SetTouchEmulationEnabled true (Some 2) ::
  concat (replicate (Z.to_nat (Z.max taps 1))
    [Touch (cdp_touch_event "touchStart" [contact_new 1 x y]); Touch (cdp_touch_event "touchEnd" [])]).
Definition gesture_script (start : list TouchContact) (at_step : f64 -> list TouchContact) (steps : Z) : list cmd :=
  SetTouchEmulationEnabled true (Some 2) :: Touch (cdp_touch_event "touchStart" start) ::
  map (fun i => Touch (cdp_touch_event "touchMove" (at_step (f64_div (f64_of_Z (Z.of_nat i)) (f64_of_Z (Z.max steps 1))))))
    (seq 1 (Z.to_nat (Z.max steps 1)))
  ++ [Touch (cdp_touch_event "touchEnd" [])].
Definition swipe_at (from to : f64 * f64) (t : f64) : list TouchContact :=
  [contact_new 1 (f64_add (fst from) (f64_mul (f64_sub (fst to) (fst from)) t))
                 (f64_add (snd from) (f64_mul (f64_sub (snd to) (snd from)) t))].
Definition pinch_script (cx cy r0 r1 : f64) (steps : Z) : list cmd :=
  gesture_script (two_contacts cx cy r0)
    (fun t => two_contacts cx cy (f64_add r0 (f64_mul (f64_sub r1 r0) t))) steps.
Definition rotate_at (cx cy r a t : f64) : list TouchContact :=
  [rotated_contact 1 cx cy r (f64_mul (to_radians a) t);
   rotated_contact 2 cx cy r (f64_add (f64_mul (to_radians a) t) PI)].
Definition rotate_script (cx cy r a : f64) (steps : Z) : list cmd :=
  gesture_script (two_contacts cx cy r) (rotate_at cx cy r a) steps.

Definition script (a : action) : list cmd :=
  match a with
  | Click e b n realistic seed => click_script e b n realistic seed
  | TypeText e text _ clear_first seed =>
      click_script e LeftButton 1 false seed ++ (if clear_first then clear_script else [])
      ++ (Text.str_chars text ≫= char_script)
  | Keypress key => let '(m, k) := parse_chord key in press_script k m
  | KeypressWith key m => press_script key m
  | Scroll e dx dy m easing =>
      let '(x, y) := match e with Some e => center e | None => (f64_of_Z 1, f64_of_Z 1) end in
      map (fun s => Mouse (cdp_mouse_wheel x y (step_dx s) (step_dy s))) (wheel_profile powi dx dy m easing)
  | Hover e => [Mouse (cdp_mouse_move (fst (center e)) (snd (center e)))]
  | Drag from to seed =>
      let '(fx, fy) := center from in let '(tx, ty) := center to in
      [Mouse (cdp_mouse_move fx fy); Mouse (cdp_mouse_press fx fy LeftButton 1 true)]
      ++ move_script (fst (bezier_mouse_path powi (fx, fy) (tx, ty) 24 (rng_new (Z.max seed 1))))
      ++ [Mouse (cdp_mouse_press tx ty LeftButton 1 false)]
  | Tap x y _ n => tap_script x y n
  | Swipe from to n _ => gesture_script [contact_new 1 (fst from) (snd from)] (swipe_at from to) n
  | Pinch cx cy r0 r1 n _ => pinch_script cx cy r0 r1 n
  | Rotate cx cy r a n _ => rotate_script cx cy r a n
  | GesturePinch cx cy r0 sc n _ => pinch_script cx cy r0 (f64_mul r0 sc) n
  | GestureRotate cx cy r a n _ => rotate_script cx cy r a n
  | Longpress x y _ => tap_script x y 1
  | FileDrop x y paths =>
      map (fun t => DragEvent t x y (build_file_drag_data paths)) ["dragEnter"; "dragOver"; "drop"]
  | Shortcut accel =>
      match parse_accelerator dbg accel with
      | Ok p => key_script (acc_key p) (acc_code p) (acc_modifiers p)
      | Err _ => []
      end
  | Ime c k => [ImeSetComposition c (zlen (Text.str_chars c)) (zlen (Text.str_chars c)) None]
               ++ (if bool_decide (k = "") then [] else [InsertText k]) ++ [ImeSetComposition "" 0 0 (Some (0, 0))]
  | DeadKey accent base =>
      match compose_dead_key accent base with
      | Some s => match dead_key_accent_hint dbg accent with
                  | Some p => key_script (acc_key p) (acc_code p) (acc_modifiers p)
                  | None => []
                  end ++ [InsertText s]
      | None => []
      end
  | Tabs dir n => concat (replicate (Z.to_nat (Z.max n 1)) (key_script "Tab" "Tab" (if bool_decide (dir = "forward") then 0 else 8)))
  | Menu e _ => [Mouse (cdp_mouse_move (fst (center e)) (snd (center e)))]
                ++ button_script (fst (center e)) (snd (center e)) RightButton 1
  end.

(** What is seen of an event: the commands sent. *)
Definition sends (X : Type) (e : ev X) (_ : X) : list cmd :=
  match e with Send c => [c] | _ => [] end.
(** Every execution sends a prefix of [l], and all of it when it succeeds. *)
Definition scripted {A} (p : act A) (l : list cmd) : Prop :=
  post sends p (fun tr r => if is_ok r then tr = l else tr `prefix_of` l).

Lemma scripted_bind {A B} (p : act A) (f : A -> act B) l1 l2 :
  scripted p l1 -> (forall a, scripted (f a) l2) -> scripted (bind_ok p f) (l1 ++ l2).
Proof.
  intros Hp Hf. eapply post_bind; [exact Hp|]. intros t [a|e] H; cbn in H.
  - subst t. eapply post_conseq; [apply Hf|]. intros tr [b|e]; cbn; [now intros ->|]. now apply prefix_app.
  - apply post_ret. cbn. rewrite app_nil_r. now apply prefix_app_r.
Qed.
Lemma scripted_send c : scripted (send c) [c].
Proof. apply post_vis. intros [u|e]; apply post_ret; cbn; done || reflexivity. Qed.
Lemma scripted_ret {A} (r : result A string) : scripted (Ret r) [].
Proof. apply post_ret. destruct r; cbn; [done|apply prefix_nil]. Qed.
Lemma scripted_silent {A X} (e : ev X) (k : X -> act A) l : (forall x, sends X e x = []) -> (forall x, scripted (k x) l) ->
  scripted (bind (ask e) k) l.
Proof. intros He Hk. apply post_vis. intros x. rewrite He. apply Hk. Qed.
Lemma scripted_sleep ms : scripted (sleep ms) [].
Proof. apply scripted_silent; [done|]. intros []. apply scripted_ret. Qed.
Lemma scripted_fail {A} (e : string) l : scripted (A := A) (Ret (Err e)) l.
Proof. apply post_ret. cbn. apply prefix_nil. Qed.
Lemma scripted_for {A} (l : list A) (f : A -> act unit) g : (forall x, x ∈ l -> scripted (f x) (g x)) ->
  scripted (for_each l f) (concat (map g l)).
Proof.
  induction l as [|x l IH]; intros H; [apply scripted_ret|]. cbn. apply scripted_bind; [apply H; left|].
  intros _. apply IH. intros y Hy. apply H. now right.
Qed.
Lemma scripted_eq {A} (p : act A) l l' : scripted p l -> l = l' -> scripted p l'.
Proof. now intros H ->. Qed.

(** Sending and ignoring the answer. *)
Lemma scripted_ignore {A} c (k : result unit string -> act A) l : (forall r, scripted (k r) l) -> scripted (bind (send c) k) (c :: l).
Proof.
  intros H. apply post_vis. intros r. eapply post_conseq; [apply H|]. intros tr [a|e]; cbn; [now intros ->|].
  now apply prefix_cons.
Qed.
Lemma scripted_map_err {A} (g : string -> string) (p : act A) l : scripted p l -> scripted (map_err g p) l.
Proof.
  intros H. eapply post_bind; [exact H|]. intros t [a|e] E; cbn in E; apply post_ret; cbn; now rewrite app_nil_r.
Qed.
Lemma scripted_ask {A} (e : ev (result A string)) : (forall x, sends _ e x = []) -> scripted (ask e) [].
Proof. intros H. apply post_vis. intros x. rewrite H. apply post_ret. destruct x; cbn; [done|apply prefix_nil]. Qed.

Lemma trace_silent action : scripted (capture_action_trace action) [].
Proof.
  apply scripted_silent; [done|]. intros [|]; [|apply scripted_ret].
  assert (scripted (capture_action_screenshot action) []) as H.
  { apply (scripted_bind _ _ [] []).
    - apply scripted_map_err, scripted_ask. done.
    - intros b64. apply (scripted_bind _ _ [] []); [apply scripted_ret|]. intros png.
      apply (scripted_bind _ _ [] []); [now apply scripted_ask|]. intros path.
      apply scripted_silent; [done|]. intros []. apply scripted_ret. }
  eapply post_bind; [exact H|]. intros t [a|e] E; cbn in E; [subst t|apply prefix_nil_inv in E as ->]; now apply post_ret.
Qed.

(** Decomposes a program; the script is read off. *)
Ltac follow1 :=
  lazymatch goal with
  | |- scripted (send _) _ => apply scripted_send
  | |- scripted (sleep _) _ => apply scripted_sleep
  | |- scripted (capture_action_trace _) _ => apply trace_silent
  | |- scripted (ok _) _ => apply scripted_ret
  | |- scripted (lift _) _ => apply scripted_ret
  | |- scripted (bind_ok _ _) _ => eapply scripted_bind; [|intros ?]
  | |- scripted (bind (ask _) _) _ => eapply scripted_silent; [done|intros ?]
  | |- scripted (bind (send _) _) _ => eapply scripted_ignore; intros ?
  end.
Ltac follow := repeat follow1.

Lemma concat_singles {A B} (f : A -> B) l : concat (map (fun x => [f x]) l) = map f l.
Proof. induction l as [|x l IH]; cbn; [done|now rewrite IH]. Qed.
Lemma move_follows b path : scripted (move_along b path) (move_script path).
Proof.
  eapply scripted_eq.
  - apply (scripted_for _ _ (fun '(x, y, _) => [Mouse (cdp_mouse_move x y)])). intros [[x y] ms] _.
    eapply (scripted_bind _ _ [_] []); [apply scripted_send|]. intros _. destruct (b || _); follow.
  - induction path as [|[[x y] ms] path IH]; cbn; [done|now f_equal].
Qed.
Lemma click_follows e b n realistic seed : scripted (click e b n realistic seed) (click_script e b n realistic seed).
Proof.
  unfold click, click_script. destruct (center e) as [cx cy].
  destruct realistic; (eapply scripted_eq; [follow1; [follow|]; follow1; [|follow]|]);
    [apply move_follows|reflexivity|apply scripted_send|reflexivity].
Qed.
Lemma chars_follow d cs : forall rng, scripted (type_chars d cs rng) (cs ≫= char_script).
Proof.
  induction cs as [|ch cs IH]; intros rng; [apply scripted_ret|]. cbn [type_chars mbind list_bind].
  destruct (match d with Some d => (d, rng) | None => typing_delay rng end) as [ms rng'].
  eapply scripted_eq; [follow1; [follow|]; follow1; [follow|]; follow1; [|apply IH]|].
  - destruct (ms =? 0); follow.
  - reflexivity.
Qed.
Lemma press_key_follows k c m : scripted (press_key k c m) (key_script k c m).
Proof. eapply scripted_eq; [unfold press_key; follow|reflexivity]. Qed.
Lemma scripted_known {A B} (r : result A string) (f : A -> act B) l :
  match r with Ok a => scripted (f a) l | Err _ => True end -> scripted (bind_ok (lift r) f) l.
Proof. destruct r as [a|e]; [done|]. intros _. apply scripted_fail. Qed.
Lemma keypress_follows key m : scripted (keypress_with_modifiers key m) (press_script key m).
Proof.
  unfold keypress_with_modifiers, press_script. apply scripted_known.
  destruct (key_code_for_token dbg key) as [kc|e]; [apply press_key_follows|done].
Qed.
Lemma scripted_traced {A} (p : act A) action l : scripted p l -> scripted (p ;;! capture_action_trace action) l.
Proof. intros H. eapply scripted_eq; [eapply scripted_bind; [exact H|intros ?; apply trace_silent]|apply app_nil_r]. Qed.
Lemma wheel_follows x y steps action : scripted (for_each steps (fun s =>
    send (Mouse (cdp_mouse_wheel x y (step_dx s) (step_dy s))) ;;!
    if 0 <? step_sleep_ms s then sleep (step_sleep_ms s) else ok tt) ;;! capture_action_trace action)
  (map (fun s => Mouse (cdp_mouse_wheel x y (step_dx s) (step_dy s))) steps).
Proof.
  apply scripted_traced. eapply scripted_eq; [|apply concat_singles]. apply scripted_for. intros s _.
  eapply (scripted_bind _ _ [_] []); [apply scripted_send|]. intros _. destruct (_ <? _); follow.
Qed.
Lemma gesture_follows start at_step steps d action :
  scripted (enable_touch ;;! touch_gesture start at_step steps d action) (gesture_script start at_step steps).
Proof.
  unfold touch_gesture. cbv zeta. eapply scripted_eq.
  - follow1; [apply scripted_send|]. follow1; [follow|]. follow1; [|follow].
    apply (scripted_for _ _ (fun idx => [Touch (cdp_touch_event "touchMove" (at_step (f64_div (f64_of_Z idx) (f64_of_Z (Z.max steps 1)))))])).
    intros i _. eapply (scripted_bind _ _ [_] []); [follow|intros _; follow].
  - rewrite concat_singles, map_map. reflexivity.
Qed.
Lemma tap_follows x y d n : scripted (touch_tap x y d n) (tap_script x y n).
Proof.
  unfold touch_tap. cbv zeta. eapply scripted_eq.
  - follow1; [apply scripted_send|]. follow1; [|follow].
    apply (scripted_for _ _ (fun _ => [Touch (cdp_touch_event "touchStart" [contact_new 1 x y]); Touch (cdp_touch_event "touchEnd" [])])).
    intros i _. eapply scripted_eq; [follow1; [follow|]; follow1; [follow|]; follow1; [follow|]|reflexivity].
    destruct (_ =? _); follow.
  - unfold tap_script. cbn [app]. f_equal. rewrite app_nil_r. f_equal. rewrite map_map.
    generalize (Z.to_nat (Z.max n 1)) 0%nat. intros m. induction m as [|m IH]; intros j; cbn; [done|now rewrite IH].
Qed.
Lemma tabs_follow m n : scripted (for_each (seq 0 n) (fun _ => keypress_with_modifiers "Tab" m ;;! sleep 20))
  (concat (replicate n (key_script "Tab" "Tab" m))).
Proof.
  eapply scripted_eq.
  - apply (scripted_for _ _ (fun _ => key_script "Tab" "Tab" m)). intros i _.
    eapply scripted_eq; [follow1; [apply keypress_follows|follow]|]. now vm_compute.
  - generalize 0%nat. induction n as [|n IH]; intros j; cbn; [done|now rewrite IH].
Qed.

Lemma drag_follows from to seed : scripted (drag from to seed) (script (Drag from to seed)).
Proof.
  cbn [script]. unfold drag. apply scripted_known. destruct (bbox_must_be_actionable (bbox from)); [|done].
  apply scripted_known. destruct (bbox_must_be_actionable (bbox to)); [|done].
  destruct (center from) as [fx fy], (center to) as [tx ty]. eapply scripted_eq.
  - follow1; [follow|]. follow1; [follow|]. follow1; [apply move_follows|follow].
  - reflexivity.
Qed.
Lemma menu_follows e path : scripted (right_click_menu_navigate e path) (script (Menu e path)).
Proof.
  cbn [script]. unfold right_click_menu_navigate. apply scripted_known. destruct (bbox_must_be_actionable (bbox e)); [|done].
  destruct (center e) as [x y]. eapply scripted_eq.
  - follow1; [follow|]. follow1; [follow|]. follow1; [follow|]. follow1; [follow|]. follow1; [follow|].
    eapply (scripted_bind _ _ [] []).
    + apply scripted_silent; [done|]. intros r. apply scripted_ret.
    + intros res. destruct (vget "ok" res ≫= as_bool) as [[|]|]; [apply trace_silent|apply scripted_fail|apply scripted_fail].
  - reflexivity.
Qed.

Lemma actions_follow a : scripted (perform a) (script a).
Proof.
  assert (forall A (p : act A) l, scripted p l -> scripted (void p) l) as V.
  { intros A p l H. eapply scripted_eq; [unfold void; follow1; [exact H|follow]|apply app_nil_r]. }
  destruct a as [e b n realistic seed|e text d c seed|key|key m|e dx dy m easing|e|from to seed|x y d n|from to n d
    |cx cy r0 r1 n d|cx cy r an n d|cx cy r0 sc n d|cx cy r an n d|x y d|x y paths|accel|co k|accent base|dir n|e path]; cbn [perform].
  - apply V, click_follows.
  - cbn [script]. unfold type_text. eapply scripted_eq.
    + follow1; [apply click_follows|]. follow1; [|follow1; [apply chars_follow|follow]].
      instantiate (1 := if c then clear_script else []). destruct c; follow.
    + now rewrite app_nil_r.
  - cbn [script]. unfold keypress. destruct (parse_chord key) as [m k]. apply keypress_follows.
  - apply keypress_follows.
  - cbn [script]. unfold precise_scroll. apply scripted_known. destruct e as [e|]; [|apply wheel_follows].
    destruct (bbox_must_be_actionable (bbox e)); [|done]. destruct (center e) as [x y]. apply wheel_follows.
  - apply scripted_known. destruct (bbox_must_be_actionable (bbox e)); [|done]. apply scripted_send.
  - apply drag_follows.
  - apply tap_follows.
  - apply gesture_follows.
  - unfold touch_pinch. destruct (_ || _); [apply scripted_fail|]. apply gesture_follows.
  - unfold touch_rotate. destruct (f64_le _ _); [apply scripted_fail|]. apply gesture_follows.
  - apply scripted_traced. unfold touch_pinch. destruct (_ || _); [apply scripted_fail|]. apply gesture_follows.
  - apply scripted_traced. unfold touch_rotate. destruct (f64_le _ _); [apply scripted_fail|]. apply gesture_follows.
  - apply scripted_traced, tap_follows.
  - destruct paths as [|p paths]; [apply scripted_fail|]. cbn [script]. unfold file_drop.
    eapply scripted_eq; [follow|reflexivity].
  - cbn [script]. unfold keyboard_shortcut. apply scripted_known. destruct (parse_accelerator dbg accel) as [p|e]; [|done].
    apply scripted_traced, press_key_follows.
  - cbn [script]. unfold keyboard_ime. cbv zeta. eapply scripted_eq.
    + follow1; [follow|]. follow1; [|follow]. instantiate (1 := if bool_decide (k = "") then [] else [InsertText k]).
      case_bool_decide; follow.
    + now rewrite app_nil_r.
  - apply V. cbn [script]. unfold dead_key. apply scripted_known. destruct (compose_dead_key accent base) as [composed|]; [|done].
    eapply scripted_eq; [follow1; [|follow]|]. 2:{ cbn. reflexivity. }
    destruct (dead_key_accent_hint dbg accent) as [p|]; [apply press_key_follows|follow].
  - cbn [script]. unfold tab_traversal. case_bool_decide; [apply (scripted_traced _ _ _ (tabs_follow 0 _))|].
    case_bool_decide; [apply (scripted_traced _ _ _ (tabs_follow 8 _))|apply scripted_fail].
  - apply menu_follows.
Qed.


(** ** The devices *)

(** What the browser's input devices hold: the mouse buttons and keys down, the
    fingers on the screen, a drag and a composition under way, and whether touch
    is emulated. *)
Record device := mkDevice {
  held : list string; keys : list (option string * option string); fingers : list Z; dragging : bool; composing : bool;
  touch_on : bool
}.
Definition idle (touch : bool) : device := mkDevice [] [] [] false false touch.
Definition point_ids (l : list json) : list Z := omap (fun v => vget "id" v ≫= as_i64) l.

(** A command the devices make sense of, and their state after it. *)
Definition mouse_step (e : MouseEvent) (d : device) : option device :=
  let b := default "none" (m_button e) in
  if bool_decide (m_type e = "mousePressed") then
    if bool_decide (b ∈ held d) then None
    else Some (mkDevice (b :: held d) (keys d) (fingers d) (dragging d) (composing d) (touch_on d))
  else if bool_decide (m_type e = "mouseReleased") then
    if bool_decide (b ∈ held d)
    then Some (mkDevice (List.filter (fun x => negb (bool_decide (x = b))) (held d)) (keys d) (fingers d) (dragging d)
                 (composing d) (touch_on d))
    else None
  else Some d.
Definition touch_step (e : TouchEvent) (d : device) : option device :=
  let set l := Some (mkDevice (held d) (keys d) l (dragging d) (composing d) (touch_on d)) in
  if negb (touch_on d) then None
  else if bool_decide (t_type e = "touchStart") then
    if bool_decide (fingers d = []) then set (point_ids (t_points e)) else None
  else if bool_decide (t_type e = "touchMove") then
    if bool_decide (fingers d <> [] /\ point_ids (t_points e) = fingers d) then Some d else None
  else if bool_decide (fingers d <> [] /\ t_points e = []) then set [] else None.
Definition key_step (e : KeyEvent) (d : device) : option device :=
  let k := (k_key e, k_code e) in
  let set l := Some (mkDevice (held d) l (fingers d) (dragging d) (composing d) (touch_on d)) in
  if bool_decide (k_type e = "keyUp") then
    if bool_decide (k ∈ keys d) then set (List.filter (fun x => negb (bool_decide (x = k))) (keys d)) else None
  else if bool_decide (k ∈ keys d) then None else set (k :: keys d).
Definition device_step (c : cmd) (d : device) : option device :=
  match c with
  | Mouse e => mouse_step e d
  | Touch e => touch_step e d
  | Key e => key_step e d
  | DragEvent t _ _ _ =>
      let set b := Some (mkDevice (held d) (keys d) (fingers d) b (composing d) (touch_on d)) in
      if bool_decide (t = "dragEnter") then if dragging d then None else set true
      else if dragging d then set (negb (bool_decide (t = "drop"))) else None
  | ImeSetComposition text _ _ _ =>
      Some (mkDevice (held d) (keys d) (fingers d) (dragging d) (negb (bool_decide (text = ""))) (touch_on d))
  | SetTouchEmulationEnabled b _ => Some (mkDevice (held d) (keys d) (fingers d) (dragging d) (composing d) b)
  | _ => Some d
  end.
Fixpoint drive (d : device) (tr : list cmd) : option device :=
  match tr with [] => Some d | c :: tr => d ← device_step c d; drive d tr end.

Lemma drive_app d t1 t2 : drive d (t1 ++ t2) = (d' ← drive d t1; drive d' t2).
Proof. revert d. induction t1 as [|c t1 IH]; intros d; cbn; [done|]. destruct (device_step c d); cbn; [apply IH|done]. Qed.
Lemma drive_prefix d t1 t2 : t1 `prefix_of` t2 -> is_Some (drive d t2) -> is_Some (drive d t1).
Proof. intros [t ->]. rewrite drive_app. destruct (drive d t1); [eauto|]. now intros [? ?]. Qed.
(** A script that leaves the devices as it found them. *)
Definition neutral (d : device) (tr : list cmd) : Prop := drive d tr = Some d.
Lemma neutral_app d t1 t2 : neutral d t1 -> neutral d t2 -> neutral d (t1 ++ t2).
Proof. unfold neutral. intros H1 H2. now rewrite drive_app, H1. Qed.
Lemma neutral_concat d ts : Forall (neutral d) ts -> neutral d (concat ts).
Proof. induction 1 as [|t ts H _ IH]; [done|]. now apply neutral_app. Qed.
Lemma neutral_each {A} d (f : A -> cmd) l : (forall x, device_step (f x) d = Some d) -> neutral d (map f l).
Proof. intros H. unfold neutral. induction l as [|x l IH]; cbn; [done|]. now rewrite H. Qed.

Lemma neutral_bind {A} d (f : A -> list cmd) l : (forall x, neutral d (f x)) -> neutral d (l ≫= f).
Proof. intros H. induction l as [|x l IH]; cbn; [done|]. now apply neutral_app. Qed.
Lemma button_neutral t x y b n : neutral (idle t) (button_script x y b n).
Proof. unfold neutral. now destruct b. Qed.
Lemma move_neutral t h path : neutral (mkDevice h [] [] false false t) (move_script path).
Proof. apply neutral_each. now intros [[x y] ms]. Qed.
Lemma click_neutral t e b n realistic seed : neutral (idle t) (click_script e b n realistic seed).
Proof.
  unfold click_script. destruct (center e) as [cx cy]. apply neutral_app; [|apply button_neutral].
  destruct realistic; [apply (move_neutral t [])|done].
Qed.
(** A key that goes down and up again. *)
Lemma key_pair t kd ku : k_type kd <> "keyUp" -> k_type ku = "keyUp" -> (k_key ku, k_code ku) = (k_key kd, k_code kd) ->
  neutral (idle t) [Key kd; Key ku].
Proof.
  intros Hd Hu E. unfold neutral. cbn [drive device_step].
  assert (key_step kd (idle t) = Some (mkDevice [] [(k_key kd, k_code kd)] [] false false t)) as ->.
  { unfold key_step. now rewrite (bool_decide_eq_false_2 (k_type kd = "keyUp")). }
  cbn [mbind option_bind]. unfold key_step. rewrite (bool_decide_eq_true_2 (k_type ku = "keyUp")) by done. cbn [keys]. rewrite E.
  rewrite bool_decide_eq_true_2 by left. cbn [List.filter]. now rewrite (bool_decide_eq_true_2 (_ = _)).
Qed.
Lemma key_neutral t k c m : neutral (idle t) (key_script k c m).
Proof. now apply key_pair. Qed.
Lemma char_neutral t ch : neutral (idle t) (char_script ch).
Proof. now apply key_pair. Qed.
Lemma press_neutral t k m : neutral (idle t) (press_script k m).
Proof. unfold press_script. destruct (key_code_for_token dbg k); [apply key_neutral|done]. Qed.

(** Touch scripts switch the emulation on and leave no finger. *)
Lemma tap_ends t x y n : drive (idle t) (tap_script x y n) = Some (idle true).
Proof.
  unfold tap_script. cbn [drive device_step mbind option_bind]. apply neutral_concat.
  apply Forall_forall. intros tr ->%elem_of_replicate_inv. reflexivity.
Qed.
Lemma moves_neutral d ids (g : nat -> list TouchContact) l : touch_on d = true -> fingers d = ids -> ids <> [] ->
  (forall i, point_ids (map touch_contact_value (g i)) = ids) ->
  neutral d (map (fun i => Touch (cdp_touch_event "touchMove" (g i))) l).
Proof.
  intros Ht Hf Hn Hg. apply neutral_each. intros i. cbn. unfold touch_step. rewrite Ht. cbn [negb cdp_touch_event t_type t_points].
  rewrite bool_decide_eq_false_2 by discriminate. rewrite (bool_decide_eq_true_2 ("touchMove" = "touchMove")) by done.
  now rewrite bool_decide_eq_true_2 by (rewrite Hf, Hg; done).
Qed.
Lemma gesture_ends t ids start at_step n : ids <> [] -> point_ids (map touch_contact_value start) = ids ->
  (forall x, point_ids (map touch_contact_value (at_step x)) = ids) ->
  drive (idle t) (gesture_script start at_step n) = Some (idle true).
Proof.
  intros Hn Hs Ha. unfold gesture_script. cbn [drive device_step mbind option_bind]. unfold touch_step at 1.
  cbn [negb touch_on fingers cdp_touch_event t_type t_points idle held keys dragging composing].
  rewrite !bool_decide_eq_true_2 by done. cbn [mbind option_bind]. rewrite Hs, drive_app.
  set (d := mkDevice [] [] ids false false true).
  pose proof (moves_neutral d ids (fun i => at_step (f64_div (f64_of_Z (Z.of_nat i)) (f64_of_Z (Z.max n 1))))
    (seq 1 (Z.to_nat (Z.max n 1))) eq_refl eq_refl Hn (fun i => Ha _)) as M. unfold neutral in M. rewrite M.
  cbn [mbind option_bind drive device_step]. unfold touch_step. cbn [negb touch_on d cdp_touch_event t_type t_points map].
  rewrite !bool_decide_eq_false_2 by discriminate. now rewrite bool_decide_eq_true_2.
Qed.

Lemma script_ends a t : exists t', drive (idle t) (script a) = Some (idle t').
Proof.
  destruct a as [e b n realistic seed|e text d c seed|key|key m|e dx dy m easing|e|from to seed|x y d n|from to n d
    |cx cy r0 r1 n d|cx cy r an n d|cx cy r0 sc n d|cx cy r an n d|x y d|x y paths|accel|co k|accent base|dir n|e path]; cbn [script].
  - exists t. apply click_neutral.
  - exists t. apply neutral_app; [apply click_neutral|]. apply neutral_app; [now destruct c|].
    apply neutral_bind. intros ch. apply char_neutral.
  - exists t. destruct (parse_chord key). apply press_neutral.
  - exists t. apply press_neutral.
  - exists t. destruct (match e with Some e => center e | None => _ end). now apply neutral_each.
  - now exists t.
  - exists t. destruct (center from) as [fx fy], (center to) as [tx ty]. generalize (fst (bezier_mouse_path powi (fx, fy) (tx, ty) 24 (rng_new (Z.max seed 1)))).
    intros path. rewrite drive_app. change (drive (idle t) [Mouse (cdp_mouse_move fx fy); _]) with (Some (mkDevice ["left"] [] [] false false t)).
    cbn [mbind option_bind]. rewrite drive_app, (move_neutral t ["left"] path : drive _ _ = _). reflexivity.
  - exists true. apply tap_ends.
  - exists true. now apply (gesture_ends t [1]).
  - exists true. now apply (gesture_ends t [1; 2]).
  - exists true. now apply (gesture_ends t [1; 2]).
  - exists true. now apply (gesture_ends t [1; 2]).
  - exists true. now apply (gesture_ends t [1; 2]).
  - exists true. apply tap_ends.
  - now exists t.
  - exists t. destruct (parse_accelerator dbg accel); [apply key_neutral|done].
  - exists t. destruct (bool_decide (k = "")); reflexivity.
  - exists t. destruct (compose_dead_key accent base) as [composed|]; [|done]. apply neutral_app; [|done].
    destruct (dead_key_accent_hint dbg accent); [apply key_neutral|done].
  - exists t. apply neutral_concat, Forall_forall. intros tr ->%elem_of_replicate_inv. apply key_neutral.
  - exists t. apply (neutral_app _ [_]); [done|apply button_neutral].
Qed.

(** no action leaves a button, key or finger down, a drag open or a
    composition unfinished: on idle devices the commands of every action are in
    an order the devices can follow (a release follows its press, a move has a
    finger on the screen, touch is emulated before it is used), and when the
    action succeeds the devices are idle again; only touch emulation may stay
    switched on. *)
Theorem actions_leave_idle a t tr r : runs sends (perform a) tr r ->
  exists d, drive (idle t) tr = Some d /\ (is_ok r = true -> exists t', d = idle t').
Proof.
  intros R. pose proof (actions_follow a tr r R) as F. cbv beta in F. destruct (script_ends a t) as [t' E].
  destruct (is_ok r).
  - subst tr. exists (idle t'). eauto.
  - destruct (drive_prefix (idle t) tr (script a) F) as [d D]; [eauto|]. exists d. split; [done|discriminate].
Qed.

End Engine.

End Actions.

Module ActionsExamples.
Import Prog AxMerge Actions.

(** A browser that answers, but refuses commands after the first [n]. *)
Definition answers (n : nat) (seen : list cmd) (X : Type) (e : ev X) : X :=
  match e in ev X return X with
  | Send _ => if (length seen <? n)%nat then Ok tt else Err "target closed"
  | Evaluate _ => Ok (JNull, None)
  | CaptureScreenshot _ => Ok ""
  | Sleep _ => tt
  | TraceSink => true
  | SavePng _ _ => Ok "shot.png"
  | RecordScreenshot _ _ => tt
  | NavSubscribe => tt
  | NavRecv _ => None
  end.
Definition sq (x : f64) (n : Z) : f64 := Nat.iter (Z.to_nat n) (f64_mul x) (f64_of_Z 1).
#[export] Instance toy_env : PageEnv := {
  powi := sq; sin x := x; cos x := x; dbg s := s; fmt_f64 _ := "1"; fmt_json _ := "null"; b64_decode _ := Ok [];
  json_strings l := Ok (Text.join_strings "," l); menu_script s := s
}.
Notation tried n a := (exec sends (answers n) [] (perform a)).

Definition box (x : Z) : PageElement :=
  mkPElement 0 "e0" "button" "" None None (mkPState None None None None false)
    (mkRect (f64_of_Z x) (f64_of_Z 10) (f64_of_Z 20) (f64_of_Z 10)) true "" [].

Lemma actions_leave_idle_witness : exists tr d, runs sends (perform (Drag (box 0) (box 300) 7)) tr (Ok tt) /\
  drive (idle false) tr = Some d /\ exists t', d = idle t'.
Proof.
  assert (snd (tried 100 (Drag (box 0) (box 300) 7)) = Ok tt) as E by (vm_compute; reflexivity).
  pose proof (exec_runs sends (answers 100) (perform (Drag (box 0) (box 300) 7)) []) as R.
  rewrite E in R. destruct (actions_leave_idle _ false _ _ R) as (d & D & I).
  exists (fst (tried 100 (Drag (box 0) (box 300) 7))), d. split; [exact R|]. split; [exact D|]. exact (I eq_refl).
Defined.

(** A drag whose path is interrupted leaves the button down. *)
Example failed_drag_holds_button :
  let '(tr, r) := tried 5 (Drag (box 0) (box 300) 7) in
  is_ok r = false /\ option_map held (drive (idle false) tr) = Some ["left"].
Proof. vm_compute. done. Qed.
(** The moves of a drag declare that no button is pressed. *)
Example drag_moves_without_button :
  List.forallb (fun c => match c with
                         | Mouse e => negb (bool_decide (m_type e = "mouseMoved")) || bool_decide (m_buttons e = Some 0)
                         | _ => true
                         end) (fst (tried 100 (Drag (box 0) (box 300) 7))) = true.
Proof. vm_compute. reflexivity. Qed.

End ActionsExamples.
