(* ===== verification/FrameRing.v ===== *)
(** * vision/src/frame_ring.rs: the shared-memory frame ring

    The mapped file is the record [FrameRing]: the header fields, the slot
    headers and the payload body. Offsets are those of the mapping, computed
    with the [repr(C)] sizes of [Header] and [Slot]. Each operation that runs
    under the mapping's write lock, and each one that runs alone under its
    read lock, is one function; the section on the commit race splits
    [WriteGuard::commit] into its two atomic stores. *)
From S2P Require Import Prelude.

Module FrameRing.

Definition MAGIC : Z := 0xCBF1AEF1AEFFFF55.
Definition VERSION : Z := 1.
Definition DEFAULT_SLOT_BYTES : Z := 512 * 1024.
Definition DEFAULT_SLOT_COUNT : Z := 128.

(** [size_of::<Header>()]: u64, three u32, four bytes of padding, u64 and
    eleven reserved u64. *)
Definition HEADER_BYTES : Z := 8 + 3 * 4 + 4 + 8 + 11 * 8.
(** [size_of::<Slot>()]: u64, two u32, u64 and four reserved u64. *)
Definition SLOT_HDR_BYTES : Z := 8 + 2 * 4 + 8 + 4 * 8.

Record Slot := mkSlot { seq : Z; len : Z; refcnt : Z; ts_us : Z }.

Record FrameRing := mkRing {
  path : string;
  magic : Z; version : Z;
  slot_bytes : Z; slot_count : Z;
  next_seq : Z;
  slots : list Slot;
  body : list byte
}.

Inductive VisionError : Type :=
| NotEnabled
| RingExhausted
| FrameTooLarge (len cap : Z)
| DimensionsMismatch (prev next : Z * Z)
| InvalidFormat (format : string)
| VlmUnavailable (message : string)
| Ocr (message : string)
| Io (message : string)
| Regex (message : string)
| Base64 (message : string)
| Image (message : string)
| Cdp (message : string)
| Other (message : string).

Record FrameHandle := mkHandle {
  h_path : string; h_slot_seq : Z; h_slot_index : Z; h_offset : Z; h_len : Z; h_ts_us : Z
}.

Record WriteGuard := mkWrite {
  w_slot_index : nat; w_payload_off : Z; w_len : Z; w_seq : Z
}.

Record ReadGuard := mkRead {
  r_slot_index : nat; r_payload_off : Z; r_len : Z; r_seq : Z; r_ts_us : Z
}.

Definition set_slots (r : FrameRing) (ss : list Slot) : FrameRing :=
  mkRing (path r) (magic r) (version r) (slot_bytes r) (slot_count r) (next_seq r) ss (body r).
Definition set_body (r : FrameRing) (b : list byte) : FrameRing :=
  mkRing (path r) (magic r) (version r) (slot_bytes r) (slot_count r) (next_seq r) (slots r) b.

(** ** Layout *)

(** Where the body starts, and the payload of slot [i]. *)
Definition body_base (r : FrameRing) : Z := HEADER_BYTES + SLOT_HDR_BYTES * slot_count r.
Definition payload_off (r : FrameRing) (i : nat) : Z :=
  body_base r + Z.of_nat i * slot_bytes r.

Definition mem_read (r : FrameRing) (off n : Z) : list byte :=
  take (Z.to_nat n) (drop (Z.to_nat (off - body_base r)) (body r)).
Definition mem_write (r : FrameRing) (off : Z) (data : list byte) : FrameRing :=
  let o := Z.to_nat (off - body_base r) in
  set_body r (take o (body r) ++ data ++ drop (o + length data) (body r)).

(** ** Creation *)

Definition init_header (path : string) (slot_bytes slot_count : Z) : FrameRing :=
  mkRing path MAGIC VERSION slot_bytes slot_count 1
    (replicate (Z.to_nat slot_count) (mkSlot 0 0 0 0))
    (replicate (Z.to_nat (slot_bytes * slot_count)) Byte.x00).

(** [file]: the outcome of creating, sizing and mapping the backing file. *)
Definition create (file : result unit string) (path : string) (slot_bytes slot_count : Z)
    : result FrameRing VisionError :=
  if (slot_count =? 0) || (slot_bytes <? 64) then Err (Other "invalid ring shape")
  else match file with
       | Err e => Err (Io e)
       | Ok _ => Ok (init_header path slot_bytes slot_count)
       end.

(** ** Writing *)

(** The scan of [acquire_write]: the unreferenced slot with the smallest
    sequence number, stopping at the first empty one. *)
Fixpoint choose (ss : list Slot) (i : nat) (chosen : option nat) (chosen_seq : Z)
    : option nat :=
  match ss with
  | [] => chosen
  | s :: ss' =>
      if negb (refcnt s =? 0) then choose ss' (S i) chosen chosen_seq
      else if seq s <? chosen_seq then
        if seq s =? 0 then Some i
        else choose ss' (S i) (Some i) (seq s)
      else choose ss' (S i) chosen chosen_seq
  end.

Definition acquire_write (r : FrameRing) (n ts : Z)
    : result (FrameRing * WriteGuard) VisionError :=
  if slot_bytes r <? n then Err (FrameTooLarge n (slot_bytes r))
  else match choose (slots r) 0 None u64_max with
       | None => Err RingExhausted
       | Some idx =>
           let new_seq := next_seq r in
           let r' := mkRing (path r) (magic r) (version r) (slot_bytes r) (slot_count r)
                       (wrap_add u64_max new_seq 1)
                       (<[idx := mkSlot 0 n 1 ts]> (slots r)) (body r) in
           Ok (r', mkWrite idx (payload_off r idx) n new_seq)
       end.

Definition write (r : FrameRing) (w : WriteGuard) (data : list byte)
    : result FrameRing VisionError :=
  if negb (zlen data =? w_len w) then Err (Other "write len mismatch")
  else Ok (mem_write r (w_payload_off w) data).

(** [commit] stores the sequence number, then clears the reference count. *)
Definition commit_seq (r : FrameRing) (w : WriteGuard) : FrameRing :=
  set_slots r (alter (fun s => mkSlot (w_seq w) (len s) (refcnt s) (ts_us s))
                 (w_slot_index w) (slots r)).
Definition commit_refcnt (r : FrameRing) (w : WriteGuard) : FrameRing :=
  set_slots r (alter (fun s => mkSlot (seq s) (len s) 0 (ts_us s))
                 (w_slot_index w) (slots r)).
Definition commit (r : FrameRing) (w : WriteGuard) : FrameRing * Z :=
  (commit_refcnt (commit_seq r w) w, w_seq w).

(** [Drop for WriteGuard] without a commit. *)
Definition abort (r : FrameRing) (w : WriteGuard) : FrameRing :=
  set_slots r (alter (fun _ => mkSlot 0 0 0 0) (w_slot_index w) (slots r)).

(** ** Reading *)

Fixpoint find_seq (q : Z) (ss : list Slot) (i : nat) : option (nat * Slot) :=
  match ss with
  | [] => None
  | s :: ss' => if seq s =? q then Some (i, s) else find_seq q ss' (S i)
  end.

Definition set_refcnt (s : Slot) (n : Z) : Slot := mkSlot (seq s) (len s) n (ts_us s).

(** The reference count is bumped, then the sequence number is loaded again;
    a mismatch undoes the bump. *)
Definition read (r : FrameRing) (q : Z) : option (FrameRing * ReadGuard) :=
  match find_seq q (slots r) 0 with
  | None => None
  | Some (i, s) =>
      let s' := set_refcnt s (wrap_add u32_max (refcnt s) 1) in
      let recheck := seq s' in
      if negb (recheck =? q) then None
      else Some (set_slots r (<[i := s']> (slots r)),
                 mkRead i (payload_off r i) (len s) q (ts_us s))
  end.

(** [Drop for ReadGuard] *)
Definition drop_read (r : FrameRing) (g : ReadGuard) : FrameRing :=
  set_slots r (alter (fun s => set_refcnt s (wrap_sub u32_max (refcnt s) 1))
                 (r_slot_index g) (slots r)).

Definition to_vec (r : FrameRing) (g : ReadGuard) : list byte :=
  mem_read r (r_payload_off g) (r_len g).
Definition with_bytes {R} (r : FrameRing) (g : ReadGuard) (f : list byte -> R) : R :=
  f (mem_read r (r_payload_off g) (r_len g)).

Definition head_seq (r : FrameRing) : Z :=
  fold_left (fun m s => if m <? seq s then seq s else m) (slots r) 0.

Definition slot_ts_us (r : FrameRing) (q : Z) : option Z :=
  (fun p => ts_us p.2) <$> find_seq q (slots r) 0.

(** Handles truncate the payload offset to 32 bits. *)
Definition as_u32 (z : Z) : Z := z mod 2 ^ 32.

Definition handle_for_seq (r : FrameRing) (q : Z) : option FrameHandle :=
  match find_seq q (slots r) 0 with
  | None => None
  | Some (i, s) => Some (mkHandle (path r) q (as_u32 (Z.of_nat i)) (as_u32 (payload_off r i))
                           (len s) (ts_us s))
  end.

Definition handle_for (r : FrameRing) (w : WriteGuard) : FrameHandle :=
  mkHandle (path r) (w_seq w) (as_u32 (Z.of_nat (w_slot_index w)))
    (as_u32 (w_payload_off w)) (w_len w) 0.

(** ** A ring in use

    The ring with the guards that are alive. Operations run one at a time;
    readers ask for published sequence numbers (0 marks an empty slot), and
    neither the sequence counter nor a reference count wraps. *)
Record sys := mkSys { ring : FrameRing; writers : list WriteGuard; readers : list ReadGuard }.

Inductive step : sys -> sys -> Prop :=
| step_acquire r ws rs n ts r' w :
    in_u32 n -> in_u64 ts -> next_seq r < u64_max ->
    acquire_write r n ts = Ok (r', w) ->
    step (mkSys r ws rs) (mkSys r' (w :: ws) rs)
| step_write r ws rs w data r' :
    w ∈ ws -> write r w data = Ok r' ->
    step (mkSys r ws rs) (mkSys r' ws rs)
| step_commit r ws1 w ws2 rs :
    step (mkSys r (ws1 ++ w :: ws2) rs) (mkSys (commit r w).1 (ws1 ++ ws2) rs)
| step_abort r ws1 w ws2 rs :
    step (mkSys r (ws1 ++ w :: ws2) rs) (mkSys (abort r w) (ws1 ++ ws2) rs)
| step_read r ws rs q r' g :
    q <> 0 -> zlen rs < u32_max -> read r q = Some (r', g) ->
    step (mkSys r ws rs) (mkSys r' ws (g :: rs))
| step_drop_read r ws rs1 g rs2 :
    step (mkSys r ws (rs1 ++ g :: rs2)) (mkSys (drop_read r g) ws (rs1 ++ rs2)).

Definition initial (path : string) (sb sc : Z) (s : sys) : Prop :=
  exists r, create (Ok tt) path sb sc = Ok r /\ 0 <= sc /\ s = mkSys r [] [].

(** How many guards of a list are on slot [i]. *)
Definition on_slot {A} (f : A -> nat) (i : nat) (l : list A) : Z :=
  zlen (filter (fun x => f x = i) l).

Record ring_inv (s : sys) : Prop := {
  i_shape : 0 < slot_count (ring s) /\ 64 <= slot_bytes (ring s) /\ 1 <= next_seq (ring s);
  i_slots : zlen (slots (ring s)) = slot_count (ring s);
  i_body : zlen (body (ring s)) = slot_bytes (ring s) * slot_count (ring s);
  i_slot i sl : slots (ring s) !! i = Some sl ->
    refcnt sl = on_slot w_slot_index i (writers s) + on_slot r_slot_index i (readers s) /\
    0 <= seq sl < next_seq (ring s) /\ 0 <= len sl <= slot_bytes (ring s);
  i_unique i j si sj : slots (ring s) !! i = Some si -> slots (ring s) !! j = Some sj ->
    seq si = seq sj -> seq si <> 0 -> i = j;
  i_writers_nodup : NoDup (w_slot_index <$> writers s);
  i_writer_seqs : NoDup (w_seq <$> writers s);
  i_writer w : w ∈ writers s ->
    w_payload_off w = payload_off (ring s) (w_slot_index w) /\
    0 < w_seq w < next_seq (ring s) /\
    (forall i sl, slots (ring s) !! i = Some sl -> seq sl <> w_seq w) /\
    exists sl, slots (ring s) !! w_slot_index w = Some sl /\ seq sl = 0 /\ len sl = w_len w;
  i_reader g : g ∈ readers s ->
    r_payload_off g = payload_off (ring s) (r_slot_index g) /\ r_seq g <> 0 /\
    exists sl, slots (ring s) !! r_slot_index g = Some sl /\
      seq sl = r_seq g /\ len sl = r_len g /\ ts_us sl = r_ts_us g
}.

(** ** Counting guards *)

Lemma on_slot_cons {A} (f : A -> nat) i x l :
  on_slot f i (x :: l) = (if decide (f x = i) then 1 else 0) + on_slot f i l.
Proof. unfold on_slot. rewrite filter_cons. case_decide; by rewrite ?zlen_cons. Qed.

Lemma on_slot_nonneg {A} (f : A -> nat) i l : 0 <= on_slot f i l.
Proof. apply zlen_nonneg. Qed.

Lemma on_slot_le {A} (f : A -> nat) i l : on_slot f i l <= zlen l.
Proof.
  induction l as [|x l IH]; [done|]. rewrite on_slot_cons, zlen_cons. case_decide; lia.
Qed.

Lemma on_slot_0 {A} (f : A -> nat) i l : on_slot f i l = 0 <-> forall x, x ∈ l -> f x <> i.
Proof.
  induction l as [|x l IH]; [split; [set_solver | done]|].
  rewrite on_slot_cons. pose proof (on_slot_nonneg f i l). setoid_rewrite elem_of_cons.
  case_decide; [|naive_solver]. split; [lia|]. naive_solver.
Qed.

Lemma on_slot_perm {A} (f : A -> nat) i l l' : l ≡ₚ l' -> on_slot f i l = on_slot f i l'.
Proof. intros Hp. unfold on_slot, zlen. by rewrite Hp. Qed.

Lemma ring_inv_perm r ws ws' rs rs' :
  ws ≡ₚ ws' -> rs ≡ₚ rs' -> ring_inv (mkSys r ws rs) -> ring_inv (mkSys r ws' rs').
Proof.
  intros Hw Hr []. split; simpl in *; try done.
  - intros i sl Hi. rewrite <- (on_slot_perm _ _ _ _ Hw), <- (on_slot_perm _ _ _ _ Hr). eauto.
  - by rewrite <- Hw.
  - by rewrite <- Hw.
  - intros w. rewrite <- Hw. eauto.
  - intros g. rewrite <- Hr. eauto.
Qed.

(** A slot in use by a guard is referenced, and a reader's slot has no
    writer. *)
Lemma writer_slot_free_of_readers s w g :
  ring_inv s -> w ∈ writers s -> g ∈ readers s -> w_slot_index w <> r_slot_index g.
Proof.
  intros Hi Hw Hg Heq.
  destruct (i_writer s Hi w Hw) as (_ & _ & _ & sl & Hsl & H0 & _).
  destruct (i_reader s Hi g Hg) as (_ & Hne & sl' & Hsl' & Hs & _).
  rewrite Heq in Hsl. congruence.
Qed.

Lemma unreferenced_slot s i sl :
  ring_inv s -> slots (ring s) !! i = Some sl -> refcnt sl = 0 ->
  (forall w, w ∈ writers s -> w_slot_index w <> i) /\
  (forall g, g ∈ readers s -> r_slot_index g <> i).
Proof.
  intros Hi Hsl H0. destruct (i_slot s Hi i sl Hsl) as [Hr _].
  pose proof (on_slot_nonneg w_slot_index i (writers s)).
  pose proof (on_slot_nonneg r_slot_index i (readers s)).
  split; apply on_slot_0; lia.
Qed.

(** ** The scan for a slot *)

Lemma choose_spec ss : forall i c cs,
  Forall (fun s => 0 <= seq s) ss ->
  match choose ss i c cs with
  | None => c = None /\ forall j s, ss !! j = Some s -> refcnt s = 0 -> cs <= seq s
  | Some k =>
      (c = Some k /\ forall j s, ss !! j = Some s -> refcnt s = 0 -> cs <= seq s) \/
      (exists j s, k = (i + j)%nat /\ ss !! j = Some s /\ refcnt s = 0 /\ seq s < cs /\
         forall j' s', ss !! j' = Some s' -> refcnt s' = 0 -> seq s <= seq s')
  end.
Proof.
  induction ss as [|s ss IH]; intros i c cs Hpos; simpl.
  { destruct c; [left|]; split; done. }
  apply Forall_cons in Hpos as [Hs Hpos].
  assert (Hskip : refcnt s <> 0 \/ cs <= seq s ->
    match choose ss (S i) c cs with
    | None => c = None /\ forall j s', (s :: ss) !! j = Some s' -> refcnt s' = 0 -> cs <= seq s'
    | Some k =>
        (c = Some k /\ forall j s', (s :: ss) !! j = Some s' -> refcnt s' = 0 -> cs <= seq s') \/
        (exists j s', k = (i + j)%nat /\ (s :: ss) !! j = Some s' /\ refcnt s' = 0 /\ seq s' < cs /\
           forall j' s'', (s :: ss) !! j' = Some s'' -> refcnt s'' = 0 -> seq s' <= seq s'')
    end).
  { intros Hk. specialize (IH (S i) c cs Hpos). destruct (choose ss (S i) c cs) as [k|].
    - destruct IH as [[-> IH]|(j & s' & -> & Hj & H0 & Hlt & Hmin)].
      + left. split; [done|]. intros [|j] s' Hj; simpl in Hj; [simplify_eq; naive_solver | eauto].
      + right. exists (S j), s'. split_and!; [lia|done..|].
        intros [|j'] s'' Hj'; simpl in Hj'; [simplify_eq; intros; destruct Hk; [done|lia] | eauto].
    - destruct IH as [-> IH]. split; [done|].
      intros [|j] s' Hj; simpl in Hj; [simplify_eq; naive_solver | eauto]. }
  destruct (Z.eqb_spec (refcnt s) 0) as [Hr|Hr]; simpl; [|apply Hskip; tauto].
  destruct (Z.ltb_spec (seq s) cs) as [Hlt|Hge]; [|apply Hskip; lia]. clear Hskip.
  destruct (Z.eqb_spec (seq s) 0) as [H0|H0].
  - right. exists 0%nat, s. split_and!; [lia|done..|]. intros j' s' Hj' _.
    apply (list_elem_of_lookup_2 (s :: ss)) in Hj'. apply elem_of_cons in Hj' as [->|Hin]; [lia|].
    rewrite Forall_forall in Hpos. specialize (Hpos _ Hin). lia.
  - specialize (IH (S i) (Some i) (seq s) Hpos). destruct (choose ss (S i) (Some i) (seq s)) as [k|].
    + right. destruct IH as [[[= ->] IH]|(j & s' & -> & Hj & Hr' & Hlt' & Hmin)].
      * exists 0%nat, s. split_and!; [lia|done..|].
        intros [|j'] s' Hj'; simpl in Hj'; [by simplify_eq | eauto].
      * exists (S j), s'. split_and!; [lia|done..|lia|].
        intros [|j'] s'' Hj'; simpl in Hj'; [simplify_eq; lia | eauto].
    + destruct IH as [[=] _].
Qed.

Lemma choose_free s :
  ring_inv s -> next_seq (ring s) <= u64_max ->
  match choose (slots (ring s)) 0 None u64_max with
  | None => forall i sl, slots (ring s) !! i = Some sl -> refcnt sl <> 0
  | Some k => exists sl, slots (ring s) !! k = Some sl /\ refcnt sl = 0 /\
      forall j sl', slots (ring s) !! j = Some sl' -> refcnt sl' = 0 -> seq sl <= seq sl'
  end.
Proof.
  intros Hi Hn.
  assert (Hpos : Forall (fun s => 0 <= seq s) (slots (ring s))).
  { apply Forall_lookup. intros i sl Hsl. destruct (i_slot s Hi i sl Hsl) as (_ & ? & _). lia. }
  pose proof (choose_spec (slots (ring s)) 0 None u64_max Hpos) as Hc.
  destruct (choose _ _ _ _) as [k|].
  - destruct Hc as [[? _]|(j & sl & -> & Hj & H0 & _ & Hmin)]; [done|]. simpl. eauto.
  - intros i sl Hsl H0. destruct Hc as [_ Hc]. specialize (Hc i sl Hsl H0).
    destruct (i_slot s Hi i sl Hsl) as (_ & ? & _). lia.
Qed.

(** ** Preservation *)

Lemma initial_inv p sb sc s : initial p sb sc s -> ring_inv s.
Proof.
  intros (r & Hc & Hsc & ->). unfold create in Hc.
  destruct ((sc =? 0) || (sb <? 64)) eqn:E; [done|]. injection Hc as <-.
  apply orb_false_iff in E as [E1 E2]. apply Z.eqb_neq in E1. apply Z.ltb_ge in E2.
  split; simpl; try (set_solver || lia || by constructor).
  - unfold zlen. rewrite length_replicate. lia.
  - unfold zlen. rewrite length_replicate. nia.
  - intros i sl [-> _]%lookup_replicate. simpl. split_and!; done || lia.
  - intros i j si sj [-> _]%lookup_replicate _. simpl. done.
Qed.

Lemma acquire_inv r ws rs n ts r' w :
  ring_inv (mkSys r ws rs) -> in_u32 n -> next_seq r < u64_max ->
  acquire_write r n ts = Ok (r', w) -> ring_inv (mkSys r' (w :: ws) rs).
Proof.
  intros Hi Hn Hnext Ha. unfold acquire_write in Ha.
  destruct (Z.ltb_spec (slot_bytes r) n); [done|].
  pose proof (choose_free _ Hi ltac:(simpl; lia)) as Hc. simpl in Hc.
  destruct (choose (slots r) 0 None u64_max) as [k|]; [|done].
  destruct Hc as (sl & Hk & H0 & _). injection Ha as <- <-.
  destruct (unreferenced_slot _ k sl Hi Hk H0) as [Hfw Hfr]. simpl in Hfw, Hfr.
  pose proof (lookup_lt_Some _ _ _ Hk) as Hlt.
  pose proof (i_shape _ Hi) as (Hc1 & Hc2 & Hc3). simpl in Hc1, Hc2, Hc3.
  split; simpl; try (rewrite wrap_add_exact by lia).
  - lia.
  - unfold zlen. rewrite length_insert. apply (i_slots _ Hi).
  - apply (i_body _ Hi).
  - intros i sl'. rewrite list_lookup_insert, on_slot_cons. simpl. destruct Hn.
    destruct (decide (k = i ∧ _)) as [[<- _]|Hne].
    + intros [= <-]. simpl. rewrite decide_True by done.
      assert (on_slot w_slot_index k ws = 0) as -> by by apply on_slot_0.
      assert (on_slot r_slot_index k rs = 0) as -> by by apply on_slot_0. lia.
    + intros Hsl. rewrite decide_False by tauto. simpl.
      destruct (i_slot _ Hi i sl' Hsl) as (Hr & Hs & Hl). simpl in *. lia.
  - intros i j si sj. rewrite !list_lookup_insert.
    destruct (decide (k = i ∧ _)) as [[<- _]|_]; [by intros [= <-]|].
    destruct (decide (k = j ∧ _)) as [[<- _]|_]; [intros _ [= <-]; simpl; congruence|].
    apply (i_unique _ Hi).
  - apply NoDup_cons. split; [|apply (i_writers_nodup _ Hi)].
    rewrite list_elem_of_fmap. intros (w & Heq & Hw). by apply (Hfw w).
  - apply NoDup_cons. split; [|apply (i_writer_seqs _ Hi)].
    rewrite list_elem_of_fmap. intros (w & Heq & Hw).
    destruct (i_writer _ Hi w Hw) as (_ & ? & _). simpl in *. lia.
  - intros w [->|Hw]%elem_of_cons; simpl.
    + split_and!; [done|lia|lia| |].
      * intros i sl'. rewrite list_lookup_insert. case_decide; [intros [= <-]; simpl; lia|].
        intros Hsl. destruct (i_slot _ Hi i sl' Hsl) as (_ & ? & _). simpl in *. lia.
      * rewrite list_lookup_insert_eq by done. eexists. by split_and!.
    + destruct (i_writer _ Hi w Hw) as (Ho & Hs & Hu & sl' & Hsl' & ?). simpl in *.
      split_and!; [done|lia|lia| |].
      * intros i sl''. rewrite list_lookup_insert. case_decide; [intros [= <-]; simpl; lia | eauto].
      * exists sl'. rewrite list_lookup_insert_ne; [done|]. intros ->. by apply (Hfw w).
  - intros g Hg. destruct (i_reader _ Hi g Hg) as (Ho & Hs & sl' & Hsl' & ?). simpl in *.
    split_and!; [done..|]. exists sl'. rewrite list_lookup_insert_ne; [done|].
    intros ->. by apply (Hfr g).
Qed.

(** A writer releases its slot: the slot becomes [sl'], published under the
    writer's sequence number or empty again. *)
Lemma release_inv r r' w ws rs sl sl' :
  ring_inv (mkSys r (w :: ws) rs) ->
  slots r !! w_slot_index w = Some sl ->
  slots r' = <[w_slot_index w := sl']> (slots r) ->
  body r' = body r -> slot_bytes r' = slot_bytes r -> slot_count r' = slot_count r ->
  next_seq r' = next_seq r ->
  refcnt sl' = 0 -> (seq sl' = 0 \/ seq sl' = w_seq w) -> 0 <= len sl' <= slot_bytes r ->
  ring_inv (mkSys r' ws rs).
Proof.
  intros Hi Hsl Hss Hb Hsb Hsc Hns Hrc Hseq Hlen.
  pose proof (i_shape _ Hi) as Hsh. pose proof (i_writers_nodup _ Hi) as Hnd.
  pose proof (i_writer_seqs _ Hi) as Hnd2. simpl in *.
  apply NoDup_cons in Hnd as [Hnin Hnd]. apply NoDup_cons in Hnd2 as [Hnin2 Hnd2].
  assert (Hfw : forall w', w' ∈ ws -> w_slot_index w' <> w_slot_index w).
  { intros w' Hw' Heq. apply Hnin. rewrite <- Heq. by apply list_elem_of_fmap_2. }
  assert (Hfw2 : forall w', w' ∈ ws -> w_seq w' <> w_seq w).
  { intros w' Hw' Heq. apply Hnin2. rewrite <- Heq. by apply list_elem_of_fmap_2. }
  assert (Hfr : forall g, g ∈ rs -> r_slot_index g <> w_slot_index w).
  { intros g Hg Heq. eapply (writer_slot_free_of_readers _ w g Hi); simpl; [set_solver | done..]. }
  destruct (i_writer _ Hi w ltac:(set_solver)) as (_ & Hws & Hwu & _). simpl in *.
  pose proof (lookup_lt_Some _ _ _ Hsl) as Hlt.
  assert (Hlook : forall i x, slots r' !! i = Some x ->
    (i = w_slot_index w /\ x = sl') \/ (i <> w_slot_index w /\ slots r !! i = Some x)).
  { intros i x. rewrite Hss, list_lookup_insert. case_decide; [naive_solver|].
    intros Hx. right. split; [|done]. intros ->. tauto. }
  assert (Hoff : forall i, payload_off r' i = payload_off r i).
  { intros i. unfold payload_off, body_base. by rewrite Hsb, Hsc. }
  split; simpl; rewrite ?Hb, ?Hsb, ?Hsc, ?Hns; try done.
  - unfold zlen. rewrite Hss, length_insert. apply (i_slots _ Hi).
  - apply (i_body _ Hi).
  - intros i x [[-> ->]|[Hne Hx]]%Hlook.
    + assert (on_slot w_slot_index (w_slot_index w) ws = 0) as -> by by apply on_slot_0.
      assert (on_slot r_slot_index (w_slot_index w) rs = 0) as -> by by apply on_slot_0.
      destruct Hseq; lia.
    + destruct (i_slot _ Hi i x Hx) as (Hr & ?). simpl in Hr. rewrite on_slot_cons in Hr.
      rewrite decide_False in Hr by done. done.
  - intros i j si sj [[-> ->]|[Hn1 H1]]%Hlook [[-> ->]|[Hn2 H2]]%Hlook Heq Hnz; try done.
    + destruct Hseq as [|Hq]; [done|]. exfalso. apply (Hwu j sj H2). congruence.
    + destruct Hseq as [|Hq]; [congruence|]. exfalso. apply (Hwu i si H1). congruence.
    + by eapply (i_unique _ Hi).
  - intros w' Hw'. destruct (i_writer _ Hi w' ltac:(set_solver)) as (Ho & Hs & Hu & x & Hx & ?).
    simpl in *. rewrite Hoff. split; [done|]. split; [done|]. split.
    + intros i y [[-> ->]|[_ Hy]]%Hlook; [|eauto].
      destruct Hseq as [->| ->]; [lia|]. apply not_eq_sym. eauto.
    + exists x. rewrite Hss, list_lookup_insert_ne by (apply not_eq_sym; eauto). done.
  - intros g Hg. destruct (i_reader _ Hi g Hg) as (Ho & Hs & x & Hx & ?). simpl in *.
    rewrite Hoff. split; [done|]. split; [done|]. exists x.
    rewrite Hss, list_lookup_insert_ne by (apply not_eq_sym; eauto). done.
Qed.

Lemma alter_insert (f : Slot -> Slot) (i : nat) (ss : list Slot) sl :
  ss !! i = Some sl -> alter f i ss = <[i := f sl]> ss.
Proof.
  intros Hi. apply list_eq. intros j. rewrite list_lookup_alter, list_lookup_insert.
  pose proof (lookup_lt_Some _ _ _ Hi). destruct (decide (i = j)) as [<-|].
  - rewrite decide_True by done. by rewrite Hi.
  - rewrite decide_False by tauto. done.
Qed.

(** [commit] on a slot header. *)
Definition published (w : WriteGuard) (sl : Slot) : Slot := mkSlot (w_seq w) (len sl) 0 (ts_us sl).

Lemma commit_slots r w sl :
  slots r !! w_slot_index w = Some sl ->
  slots (commit r w).1 = <[w_slot_index w := published w sl]> (slots r).
Proof.
  intros Hsl. unfold commit, commit_refcnt, commit_seq. simpl.
  pose proof (lookup_lt_Some _ _ _ Hsl). rewrite (alter_insert _ _ (slots r) sl) by done.
  erewrite alter_insert by (by apply list_lookup_insert_eq). by rewrite list_insert_insert_eq.
Qed.

Lemma commit_inv r w ws rs :
  ring_inv (mkSys r (w :: ws) rs) -> ring_inv (mkSys (commit r w).1 ws rs).
Proof.
  intros Hi. destruct (i_writer _ Hi w ltac:(set_solver)) as (_ & _ & _ & sl & Hsl & _).
  simpl in Hsl. eapply release_inv; [done | done | by apply commit_slots | done.. | | ].
  - by right.
  - destruct (i_slot _ Hi _ _ Hsl) as (_ & _ & ?). done.
Qed.

Lemma abort_inv r w ws rs :
  ring_inv (mkSys r (w :: ws) rs) -> ring_inv (mkSys (abort r w) ws rs).
Proof.
  intros Hi. destruct (i_writer _ Hi w ltac:(set_solver)) as (_ & _ & _ & sl & Hsl & _).
  simpl in Hsl. pose proof (i_shape _ Hi) as Hsh. simpl in Hsh.
  eapply release_inv; [done | done | by apply alter_insert | done.. | by left | simpl; lia].
Qed.

Lemma write_inv r w ws rs data r' :
  ring_inv (mkSys r ws rs) -> w ∈ ws -> write r w data = Ok r' -> ring_inv (mkSys r' ws rs).
Proof.
  intros Hi Hw Hwr. unfold write in Hwr.
  destruct (Z.eqb_spec (zlen data) (w_len w)) as [Hd|]; [|done]. injection Hwr as <-.
  destruct (i_writer _ Hi w Hw) as (Ho & _ & _ & sl & Hsl & _ & Hl). simpl in *.
  destruct (i_slot _ Hi _ _ Hsl) as (_ & _ & Hlen). simpl in Hlen.
  pose proof (i_slots _ Hi) as Hss. pose proof (i_body _ Hi) as Hb. simpl in Hss, Hb.
  apply lookup_lt_Some in Hsl. unfold zlen in Hss.
  assert (zlen (body (mem_write r (w_payload_off w) data)) = zlen (body r)).
  { unfold mem_write, zlen. simpl. rewrite Ho. unfold payload_off.
    rewrite !length_app, length_take, length_drop.
    assert (0 <= Z.of_nat (w_slot_index w) * slot_bytes r /\
            Z.of_nat (w_slot_index w) * slot_bytes r + zlen data <= zlen (body r)).
    { rewrite Hb. pose proof (i_shape _ Hi) as (? & ? & _). simpl in *. nia. }
    unfold zlen in *. lia. }
  destruct Hi. split; simpl in *; try done. unfold mem_write in *; simpl in *; congruence.
Qed.

Lemma find_seq_spec q ss : forall i k s,
  find_seq q ss i = Some (k, s) ->
  exists j, k = (i + j)%nat /\ ss !! j = Some s /\ seq s = q.
Proof.
  induction ss as [|s0 ss IH]; intros i k s; simpl; [done|].
  destruct (Z.eqb_spec (seq s0) q) as [He|].
  - intros [= <- <-]. exists 0%nat. split_and!; [lia|done..].
  - intros (j & -> & Hj & Hq)%IH. exists (S j). split_and!; [lia|done..].
Qed.

Lemma find_seq_None q ss : forall i,
  find_seq q ss i = None <-> forall j s, ss !! j = Some s -> seq s <> q.
Proof.
  induction ss as [|s0 ss IH]; intros i; simpl; [split; [intros _ j s Hj; by destruct j|done]|].
  destruct (Z.eqb_spec (seq s0) q) as [He|Hne].
  - split; [done|]. intros H. exfalso. by apply (H 0%nat s0).
  - rewrite IH. split; [intros H [|j] s Hj; simpl in Hj; [by simplify_eq | eauto]|].
    intros H j s Hj. apply (H (S j)); done.
Qed.

(** The state with the reference count of slot [i] set. *)
Lemma refcnt_inv r ws rs rs' (i : nat) sl n :
  ring_inv (mkSys r ws rs) ->
  slots r !! i = Some sl ->
  n = on_slot w_slot_index i ws + on_slot r_slot_index i rs' ->
  (forall j, j <> i -> on_slot r_slot_index j rs' = on_slot r_slot_index j rs) ->
  (forall g, g ∈ rs' -> g ∈ rs \/
     (g = mkRead i (payload_off r i) (len sl) (seq sl) (ts_us sl) /\ seq sl <> 0)) ->
  ring_inv (mkSys (set_slots r (<[i := set_refcnt sl n]> (slots r))) ws rs').
Proof.
  intros Hi Hsl Hn Hother Hg. pose proof (lookup_lt_Some _ _ _ Hsl) as Hlt.
  assert (Hback : forall j x, <[i := set_refcnt sl n]> (slots r) !! j = Some x ->
    exists y, slots r !! j = Some y /\ seq x = seq y /\ len x = len y /\ ts_us x = ts_us y /\
      refcnt x = if decide (j = i) then n else refcnt y).
  { intros j x. rewrite list_lookup_insert. case_decide as Hd.
    - destruct Hd as [<- _]. intros [= <-]. exists sl. by rewrite decide_True.
    - intros Hx. exists x. rewrite decide_False by naive_solver. done. }
  assert (Hforth : forall j y, slots r !! j = Some y ->
    exists x, <[i := set_refcnt sl n]> (slots r) !! j = Some x /\
      seq x = seq y /\ len x = len y /\ ts_us x = ts_us y).
  { intros j y Hy. rewrite list_lookup_insert. case_decide as Hd; [|by exists y].
    destruct Hd as [<- _]. exists (set_refcnt sl n). by simplify_eq. }
  destruct Hi as [Hsh Hss Hb Hs Hu Hn1 Hn2 Hw Hr]. split; simpl in *; try done.
  - unfold zlen. by rewrite length_insert.
  - intros j x (y & Hy & -> & -> & _ & ->)%Hback. destruct (Hs j y Hy) as (Hc & ? & ?).
    split; [|done]. case_decide; [by subst|]. by rewrite Hother.
  - intros j k sj sk (y & Hy & -> & _)%Hback (z & Hz & -> & _)%Hback. by apply Hu.
  - intros w Hin. destruct (Hw w Hin) as (Ho & Hq & Hne & y & Hy & H0 & Hl).
    split; [done|]. split; [done|]. split.
    + intros j x (z & Hz & -> & _)%Hback. eauto.
    + destruct (Hforth _ _ Hy) as (x & Hx & H1 & H2 & _). exists x. by rewrite H1, H2.
  - intros g [Hin|[-> Hnz]]%Hg.
    + destruct (Hr g Hin) as (Ho & Hq & y & Hy & ? & ? & ?).
      split; [done|]. split; [done|]. destruct (Hforth _ _ Hy) as (x & Hx & E1 & E2 & E3).
      exists x. rewrite E1, E2, E3. done.
    + simpl. split; [done|]. split; [done|]. exists (set_refcnt sl n).
      rewrite list_lookup_insert_eq by done. done.
Qed.

Lemma read_inv r ws rs q r' g :
  ring_inv (mkSys r ws rs) -> q <> 0 -> zlen rs < u32_max ->
  read r q = Some (r', g) -> ring_inv (mkSys r' ws (g :: rs)).
Proof.
  intros Hi Hq Hlen Hr. unfold read in Hr.
  destruct (find_seq q (slots r) 0) as [[k sl]|] eqn:Ef; [|done].
  apply find_seq_spec in Ef as (j & -> & Hj & Hsq). simpl in *.
  rewrite Hsq, Z.eqb_refl in Hr. simpl in Hr. injection Hr as <- <-.
  destruct (i_slot _ Hi j sl Hj) as (Hc & _ & _). simpl in Hc.
  assert (on_slot w_slot_index j ws = 0) as Hw0.
  { apply on_slot_0. intros w Hw Heq. destruct (i_writer _ Hi w Hw) as (_ & _ & _ & x & Hx & H0 & _).
    simpl in Hx. rewrite Heq in Hx. congruence. }
  pose proof (on_slot_le r_slot_index j rs). pose proof (on_slot_nonneg r_slot_index j rs).
  apply (refcnt_inv r ws rs _ j sl); [done..| | |].
  - rewrite on_slot_cons. simpl. rewrite decide_True by done.
    rewrite wrap_add_exact by lia. lia.
  - intros i Hne. rewrite on_slot_cons. simpl. by rewrite decide_False by done.
  - intros g [->|]%elem_of_cons; [right; by subst | by left].
Qed.

Lemma drop_read_inv r ws rs g :
  ring_inv (mkSys r ws (g :: rs)) -> zlen rs < u32_max -> ring_inv (mkSys (drop_read r g) ws rs).
Proof.
  intros Hi Hlen. destruct (i_reader _ Hi g ltac:(set_solver)) as (_ & _ & sl & Hsl & _).
  simpl in Hsl. unfold drop_read. rewrite (alter_insert _ _ _ sl) by done.
  destruct (i_slot _ Hi _ _ Hsl) as (Hc & _ & _). simpl in Hc. rewrite on_slot_cons in Hc.
  rewrite decide_True in Hc by done.
  pose proof (on_slot_nonneg r_slot_index (r_slot_index g) rs).
  pose proof (on_slot_le r_slot_index (r_slot_index g) rs).
  destruct (decide (on_slot w_slot_index (r_slot_index g) ws = 0)) as [Hw0|Hw0].
  2: { exfalso. apply Hw0, on_slot_0. intros w Hw Heq.
       by apply (writer_slot_free_of_readers _ w g Hi); [|set_solver|]. }
  apply (refcnt_inv r ws (g :: rs) rs _ sl); [done..| | |].
  - rewrite wrap_sub_exact by lia. lia.
  - intros i Hne. rewrite on_slot_cons, decide_False by done. done.
  - intros g' Hg'. left. set_solver.
Qed.

(** Guards in flight are bounded, as [step_read] requires of every read. *)
Definition readers_bounded (s : sys) : Prop := zlen (readers s) <= u32_max.

Lemma ring_step_inv s s' :
  ring_inv s -> readers_bounded s -> step s s' -> ring_inv s' /\ readers_bounded s'.
Proof.
  intros Hi Hb Hs. unfold readers_bounded in *. destruct Hs; simpl in *.
  - split; [by eapply acquire_inv | done].
  - split; [by eapply write_inv | done].
  - split; [|done]. eapply commit_inv, ring_inv_perm; [| |exact Hi]; [|done].
    symmetry. apply Permutation_middle.
  - split; [|done]. eapply abort_inv, ring_inv_perm; [| |exact Hi]; [|done].
    symmetry. apply Permutation_middle.
  - split; [by eapply read_inv|]. rewrite zlen_cons. lia.
  - rewrite zlen_app, zlen_cons in Hb. split; [|rewrite zlen_app; lia].
    apply drop_read_inv; [|rewrite zlen_app; lia].
    eapply ring_inv_perm; [done| |exact Hi]. symmetry. apply Permutation_middle.
Qed.

Lemma ring_reachable_inv p sb sc s0 s :
  initial p sb sc s0 -> rtc step s0 s -> ring_inv s /\ readers_bounded s.
Proof.
  intros H0 Hr.
  assert (ring_inv s0 /\ readers_bounded s0) as Hi.
  { split; [by eapply initial_inv|]. destruct H0 as (r & _ & _ & ->). done. }
  clear H0. induction Hr; [done|]. destruct Hi. apply IHHr. by eapply ring_step_inv.
Qed.

(** ** Payload memory *)

Lemma mem_read_write_same r i data :
  0 <= slot_bytes r -> Z.of_nat i * slot_bytes r + zlen data <= zlen (body r) ->
  mem_read (mem_write r (payload_off r i) data) (payload_off r i) (zlen data) = data.
Proof.
  intros Hsb Hle. unfold mem_read, mem_write. simpl.
  change (body_base (set_body r _)) with (body_base r). unfold payload_off.
  replace (body_base r + Z.of_nat i * slot_bytes r - body_base r)
    with (Z.of_nat i * slot_bytes r) by lia.
  rewrite drop_app_ge by (rewrite length_take; lia).
  rewrite length_take, Nat.min_l by (unfold zlen in Hle; nia).
  rewrite Nat.sub_diag, drop_0. unfold zlen. rewrite Nat2Z.id. apply take_app_length.
Qed.

Lemma mem_read_write_other r i j data n :
  i <> j -> 0 <= slot_bytes r -> 0 <= n <= slot_bytes r -> zlen data <= slot_bytes r ->
  Z.of_nat i * slot_bytes r + slot_bytes r <= zlen (body r) ->
  mem_read (mem_write r (payload_off r i) data) (payload_off r j) n
  = mem_read r (payload_off r j) n.
Proof.
  intros Hne Hsb Hn Hd Hle. unfold mem_read, mem_write. simpl.
  change (body_base (set_body r _)) with (body_base r). unfold payload_off.
  replace (body_base r + Z.of_nat i * slot_bytes r - body_base r)
    with (Z.of_nat i * slot_bytes r) by lia.
  replace (body_base r + Z.of_nat j * slot_bytes r - body_base r)
    with (Z.of_nat j * slot_bytes r) by lia.
  set (oi := Z.to_nat (Z.of_nat i * slot_bytes r)).
  set (oj := Z.to_nat (Z.of_nat j * slot_bytes r)). unfold zlen in *.
  assert (Hl : length (take oi (body r)) = oi) by (rewrite length_take; unfold oi; nia).
  assert (oj + Z.to_nat n <= oi \/ oi + length data <= oj)%nat as [H|H].
  { unfold oi, oj. destruct (decide (j < i)%nat); [left | right]; nia. }
  - rewrite drop_app_le, take_app_le by (rewrite ?length_drop; lia).
    rewrite !take_drop_commute, take_take. do 2 f_equal. lia.
  - rewrite drop_app_ge by lia. rewrite drop_app_ge by lia. rewrite drop_drop.
    do 2 f_equal. lia.
Qed.

(** ** Theorems *)


(** A step during which guard [g] stays alive. *)
Definition holds (g : ReadGuard) (s s' : sys) : Prop :=
  step s s' /\ g ∈ readers s /\ g ∈ readers s'.

Lemma holds_stable g s s' :
  ring_inv s -> holds g s s' -> to_vec (ring s') g = to_vec (ring s) g.
Proof.
  intros Hi (Hs & Hg & _). unfold to_vec.
  destruct (i_reader _ Hi g Hg) as (Ho & _ & sl & Hsl & _ & Hl & _). rewrite Ho.
  destruct (i_slot _ Hi _ _ Hsl) as (_ & _ & Hlen).
  destruct Hs as [r ws rs n ts r' w _ _ _ Ha|r ws rs w data r' Hw Hwr|?|?|r ws rs q r' g' _ _ Hr|?];
    simpl in *; try done.
  - unfold acquire_write in Ha. destruct (_ <? _); [done|].
    destruct (choose _ _ _ _); [|done]. by injection Ha as <- <-.
  - unfold write in Hwr. destruct (Z.eqb_spec (zlen data) (w_len w)) as [Hd|]; [|done].
    injection Hwr as <-.
    destruct (i_writer _ Hi w Hw) as (Hwo & _ & _ & sl' & Hsl' & _ & Hwl). simpl in *.
    destruct (i_slot _ Hi _ _ Hsl') as (_ & _ & Hwlen). simpl in Hwlen. rewrite Hwo.
    pose proof (i_shape _ Hi) as (? & ? & _). pose proof (i_body _ Hi) as Hb.
    pose proof (i_slots _ Hi) as Hss. simpl in *. apply lookup_lt_Some in Hsl'. unfold zlen in Hss.
    apply mem_read_write_other; [|lia..|rewrite Hb; nia].
    by apply (writer_slot_free_of_readers _ w g Hi).
  - unfold read in Hr. destruct (find_seq _ _ _) as [[k x]|]; [|done].
    destruct (negb _); [done|]. by injection Hr as <- <-.
Qed.

(** no torn or recycled reads. While a [ReadGuard] is alive, whatever
    other operations run, it keeps reading the same bytes. *)
Theorem reader_isolation (p : string) (sb sc : Z) (s0 s s' : sys) (g : ReadGuard) :
  initial p sb sc s0 -> rtc step s0 s -> rtc (holds g) s s' ->
  to_vec (ring s') g = to_vec (ring s) g.
Proof.
  intros H0 Hr Hh. destruct (ring_reachable_inv p sb sc s0 s H0 Hr) as [Hi Hb]. clear H0 Hr.
  induction Hh as [|s1 s2 s3 H12 _ IH]; [done|].
  destruct (ring_step_inv s1 s2 Hi Hb (proj1 H12)) as [Hi2 Hb2].
  rewrite (IH Hi2 Hb2). by apply holds_stable.
Qed.

Lemma head_seq_max ss : forall m,
  Forall (fun s => seq s <= Z.max m (fold_left (fun m s => if m <? seq s then seq s else m) ss m)) ss /\
  m <= fold_left (fun m s => if m <? seq s then seq s else m) ss m /\
  (fold_left (fun m s => if m <? seq s then seq s else m) ss m = m \/
   exists s, s ∈ ss /\ seq s = fold_left (fun m s => if m <? seq s then seq s else m) ss m).
Proof.
  induction ss as [|s ss IH]; intros m; simpl; [split; [constructor|]; split; [lia|by left]|].
  destruct (IH (if m <? seq s then seq s else m)) as (Ha & Hle & He).
  assert (m <= if m <? seq s then seq s else m) by (destruct (Z.ltb_spec m (seq s)); lia).
  assert (seq s <= if m <? seq s then seq s else m) by (destruct (Z.ltb_spec m (seq s)); lia).
  split; [|split; [lia|]].
  - constructor; [lia|]. eapply Forall_impl; [exact Ha|]. simpl. intros; lia.
  - destruct He as [He|(s' & Hin & He)]; [|right; exists s'; split; [set_solver|done]].
    rewrite He. destruct (Z.ltb_spec m (seq s)); [right; exists s; split; [set_solver|done] | by left].
Qed.

(** [head_seq] is the largest published sequence number. *)
Lemma head_seq_spec r :
  (forall i sl, slots r !! i = Some sl -> 0 <= seq sl) ->
  (forall i sl, slots r !! i = Some sl -> seq sl <= head_seq r) /\
  (head_seq r = 0 \/ exists i sl, slots r !! i = Some sl /\ seq sl = head_seq r).
Proof.
  intros Hpos. destruct (head_seq_max (slots r) 0) as (Ha & Hle & He). fold (head_seq r) in *.
  rewrite Forall_lookup in Ha. split.
  - intros i sl Hsl. specialize (Ha i sl Hsl). simpl in Ha. fold (head_seq r) in Ha. lia.
  - destruct He as [He|(sl & Hin & He)]; [by left|]. right.
    apply list_elem_of_lookup in Hin as [i Hi]. eauto.
Qed.

(** A published sequence number is found in its own slot. *)
Lemma read_published s i sl q :
  ring_inv s -> slots (ring s) !! i = Some sl -> seq sl = q -> q <> 0 ->
  read (ring s) q =
    Some (set_slots (ring s) (<[i := set_refcnt sl (wrap_add u32_max (refcnt sl) 1)]> (slots (ring s))),
          mkRead i (payload_off (ring s) i) (len sl) q (ts_us sl)).
Proof.
  intros Hi Hsl Hq Hnz. unfold read.
  destruct (find_seq q (slots (ring s)) 0) as [[k x]|] eqn:Ef.
  - apply find_seq_spec in Ef as (j & -> & Hj & Hx). simpl.
    assert (j = i) as -> by (eapply (i_unique _ Hi); eauto; congruence).
    rewrite Hsl in Hj. injection Hj as <-. by rewrite Hq, Z.eqb_refl.
  - exfalso. rewrite find_seq_None in Ef. by apply (Ef i sl).
Qed.

Lemma acquire_facts r ws rs n ts r1 w :
  ring_inv (mkSys r ws rs) -> next_seq r < u64_max -> acquire_write r n ts = Ok (r1, w) ->
  w_seq w = next_seq r /\ w_len w = n /\ next_seq r1 = next_seq r + 1 /\
  slots r1 !! w_slot_index w = Some (mkSlot 0 n 1 ts).
Proof.
  intros Hi Hns Ha. unfold acquire_write in Ha. destruct (_ <? _); [done|].
  pose proof (i_shape _ Hi) as (_ & _ & Hn1). simpl in Hn1.
  pose proof (choose_free _ Hi ltac:(simpl; lia)) as Hc. simpl in Hc.
  destruct (choose _ _ _ _); [|done]. destruct Hc as (x & Hx & _).
  injection Ha as <- <-. simpl. split_and!; [done..|apply wrap_add_exact; lia|].
  apply list_lookup_insert_eq. by eapply lookup_lt_Some.
Qed.

(** The payload a guard on a just-written slot sees. *)
Lemma written_payload r w ws rs data ss :
  ring_inv (mkSys r (w :: ws) rs) -> zlen data = w_len w ->
  mem_read (set_slots (mem_write r (w_payload_off w) data) ss)
    (payload_off r (w_slot_index w)) (zlen data) = data.
Proof.
  intros Hi Hd. destruct (i_writer _ Hi w ltac:(set_solver)) as (Ho & _ & _ & sl & Hsl & _ & Hl).
  pose proof (i_shape _ Hi) as (? & ? & _). pose proof (i_body _ Hi) as Hb.
  pose proof (i_slots _ Hi) as Hss. pose proof (i_slot _ Hi _ _ Hsl) as (_ & _ & Hle).
  apply lookup_lt_Some in Hsl. simpl in *. unfold zlen in Hss. rewrite Ho.
  apply (mem_read_write_same r (w_slot_index w) data); [lia|]. rewrite Hb, Hd. nia.
Qed.

(** read your write. A frame that was acquired, written with a payload
    of the announced length and committed is found under its sequence number
    with the same bytes, length and timestamp, and is the newest one. *)
Theorem publish_then_read (p : string) (sb sc : Z) (s0 : sys) (r r1 : FrameRing)
    (ws : list WriteGuard) (rs : list ReadGuard) (n ts : Z) (w : WriteGuard) (data : list byte) :
  initial p sb sc s0 -> rtc step s0 (mkSys r ws rs) ->
  in_u32 n -> next_seq r < u64_max ->
  acquire_write r n ts = Ok (r1, w) -> zlen data = n ->
  exists r2 r3 r4 g, write r1 w data = Ok r2 /\ commit r2 w = (r3, next_seq r) /\
    read r3 (next_seq r) = Some (r4, g) /\
    to_vec r4 g = data /\ r_len g = n /\ r_ts_us g = ts /\ head_seq r3 = next_seq r.
Proof.
  intros H0 Hr Hn Hns Ha Hd. destruct (ring_reachable_inv p sb sc s0 _ H0 Hr) as [Hi _].
  pose proof (acquire_inv r ws rs n ts r1 w Hi Hn Hns Ha) as Hi1.
  destruct (acquire_facts r ws rs n ts r1 w Hi Hns Ha) as (Hws & Hwl & Hn1 & Hsl).
  assert (Hwr : write r1 w data = Ok (mem_write r1 (w_payload_off w) data)).
  { unfold write. by rewrite Hd, Hwl, Z.eqb_refl. }
  pose proof (write_inv r1 w (w :: ws) rs data _ Hi1 ltac:(set_solver) Hwr) as Hi2.
  set (r2 := mem_write r1 (w_payload_off w) data) in *.
  pose proof (commit_inv r2 w ws rs Hi2) as Hi3.
  assert (Hsl3 : slots (commit r2 w).1 !! w_slot_index w = Some (mkSlot (next_seq r) n 0 ts)).
  { rewrite (commit_slots r2 w _ Hsl), list_lookup_insert_eq by (by eapply lookup_lt_Some).
    by rewrite <- Hws. }
  pose proof (i_shape _ Hi) as (_ & _ & Hpos). simpl in Hpos.
  exists r2, (commit r2 w).1. eexists _, _.
  split; [done|]. split; [by rewrite <- Hws|]. split.
  { exact (read_published _ _ _ (next_seq r) Hi3 Hsl3 eq_refl ltac:(lia)). }
  split_and!; [| done | done |].
  - rewrite <- Hwl in Hd. unfold to_vec. simpl. rewrite <- Hwl, <- Hd.
    exact (written_payload r1 w ws rs data _ Hi1 Hd).
  - destruct (head_seq_spec (commit r2 w).1) as [Hmax Hex].
    { intros i x Hx. by destruct (i_slot _ Hi3 i x Hx) as (_ & [? _] & _). }
    pose proof (Hmax _ _ Hsl3) as Hge. cbn [seq] in Hge.
    destruct Hex as [Hz|(i & x & Hx & Hq)]; [lia|].
    destruct (i_slot _ Hi3 i x Hx) as (_ & [_ Hlt] & _). simpl in Hlt. lia.
Qed.

(** slot allocation on every branch. [acquire_write] refuses a payload
    larger than a slot; reports exhaustion exactly when every slot has a live
    guard; and otherwise takes a slot no guard is on, the oldest such slot,
    under the next sequence number. *)
Theorem acquire_write_spec (p : string) (sb sc : Z) (s0 : sys) (r : FrameRing)
    (ws : list WriteGuard) (rs : list ReadGuard) (n ts : Z) :
  initial p sb sc s0 -> rtc step s0 (mkSys r ws rs) -> next_seq r < u64_max ->
  match acquire_write r n ts with
  | Err (FrameTooLarge l cap) => slot_bytes r < n /\ l = n /\ cap = slot_bytes r
  | Err RingExhausted => n <= slot_bytes r /\
      forall i sl, slots r !! i = Some sl ->
        (exists w, w ∈ ws /\ w_slot_index w = i) \/ (exists g, g ∈ rs /\ r_slot_index g = i)
  | Err _ => False
  | Ok (r', w) => n <= slot_bytes r /\ w_seq w = next_seq r /\
      next_seq r' = next_seq r + 1 /\
      (forall w', w' ∈ ws -> w_slot_index w' <> w_slot_index w) /\
      (forall g, g ∈ rs -> r_slot_index g <> w_slot_index w) /\
      exists sl, slots r !! w_slot_index w = Some sl /\
        forall j sl', slots r !! j = Some sl' -> refcnt sl' = 0 -> seq sl <= seq sl'
  end.
Proof.
  intros H0 Hr Hns. destruct (ring_reachable_inv p sb sc s0 _ H0 Hr) as [Hi _].
  destruct (acquire_write r n ts) as [[r' w]|e] eqn:Ha.
  - destruct (acquire_facts r ws rs n ts r' w Hi Hns Ha) as (Hws & _ & Hn1 & _).
    unfold acquire_write in Ha. destruct (Z.ltb_spec (slot_bytes r) n); [done|].
    pose proof (choose_free _ Hi ltac:(simpl; lia)) as Hc. simpl in Hc.
    destruct (choose (slots r) 0 None u64_max) as [k|]; [|done].
    destruct Hc as (sl & Hk & H00 & Hmin). injection Ha as <- <-.
    destruct (unreferenced_slot _ k sl Hi Hk H00) as [Hfw Hfr].
    split_and!; [done..|]. exists sl. done.
  - unfold acquire_write in Ha. destruct (Z.ltb_spec (slot_bytes r) n); [by simplify_eq|].
    pose proof (choose_free _ Hi ltac:(simpl; lia)) as Hc. simpl in Hc.
    destruct (choose (slots r) 0 None u64_max) as [k|]; [done|]. simplify_eq.
    split; [done|]. intros i sl Hsl. specialize (Hc i sl Hsl).
    destruct (i_slot _ Hi i sl Hsl) as (Hcnt & _). simpl in Hcnt.
    destruct (decide (Exists (fun w => w_slot_index w = i) ws)) as [Hw|Hw].
    { left. apply Exists_exists in Hw. naive_solver. }
    right. destruct (decide (Exists (fun g => r_slot_index g = i) rs)) as [Hg|Hg].
    { apply Exists_exists in Hg. naive_solver. }
    exfalso. apply Hc. rewrite Hcnt.
    rewrite Exists_exists in Hw. rewrite Exists_exists in Hg.
    assert (on_slot w_slot_index i ws = 0) as -> by (apply on_slot_0; naive_solver).
    assert (on_slot r_slot_index i rs = 0) as -> by (apply on_slot_0; naive_solver). done.
Qed.

(** ** The commit race

    [commit] holds only the read lock, as [read] does, so a reader can run
    between its two stores. *)

(** a reader that runs between the two stores of [commit] loses its
    hold. It is given a guard, but the second store clears the count it
    bumped: the slot is free for the producer while the guard is alive (with a
    single slot the very next [acquire_write] takes it), and dropping the
    guard wraps the count to [u32::MAX], which makes the slot unusable. *)
Theorem commit_race_loses_reader (p : string) (sb sc : Z) (s0 : sys) (r : FrameRing)
    (w : WriteGuard) (ws : list WriteGuard) (rs : list ReadGuard) :
  initial p sb sc s0 -> rtc step s0 (mkSys r (w :: ws) rs) ->
  exists r2 g sl, read (commit_seq r w) (w_seq w) = Some (r2, g) /\
    r_slot_index g = w_slot_index w /\
    let r3 := commit_refcnt r2 w in
    slots r3 !! r_slot_index g = Some sl /\ seq sl = r_seq g /\ refcnt sl = 0 /\
    (exists sl', slots (drop_read r3 g) !! r_slot_index g = Some sl' /\ refcnt sl' = u32_max) /\
    (slot_count r = 1 -> forall n ts, n <= slot_bytes r -> next_seq r < u64_max ->
       exists r4 w', acquire_write r3 n ts = Ok (r4, w') /\ w_slot_index w' = r_slot_index g).
Proof.
  intros H0 Hr. destruct (ring_reachable_inv p sb sc s0 _ H0 Hr) as [Hi _].
  destruct (i_writer _ Hi w ltac:(set_solver)) as (_ & [Hq0 Hq1] & Hu & sl & Hsl & Hz & _).
  simpl in *. set (i := w_slot_index w) in *. pose proof (lookup_lt_Some _ _ _ Hsl) as Hlt.
  set (sl1 := mkSlot (w_seq w) (len sl) (refcnt sl) (ts_us sl)).
  assert (H1 : slots (commit_seq r w) = <[i := sl1]> (slots r)) by exact (alter_insert _ i (slots r) sl Hsl).
  assert (Hf : find_seq (w_seq w) (<[i := sl1]> (slots r)) 0 = Some (i, sl1)).
  { destruct (find_seq _ _ _) as [[k x]|] eqn:Ef.
    - apply find_seq_spec in Ef as (j & -> & Hj & Hx). simpl. rewrite list_lookup_insert in Hj.
      case_decide as Hd; [destruct Hd as [<- _]; by simplify_eq|]. by apply Hu in Hj.
    - exfalso. rewrite find_seq_None in Ef. apply (Ef i sl1); [|done].
      by apply list_lookup_insert_eq. }
  set (sl2 := set_refcnt sl1 (wrap_add u32_max (refcnt sl1) 1)).
  exists (set_slots (commit_seq r w) (<[i := sl2]> (slots r))),
    (mkRead i (payload_off r i) (len sl) (w_seq w) (ts_us sl)), (set_refcnt sl1 0).
  split. { unfold read. rewrite H1, Hf. simpl. by rewrite Z.eqb_refl, list_insert_insert_eq. }
  split; [done|]. cbv zeta. set (r3 := commit_refcnt _ w).
  assert (H3 : slots r3 = <[i := set_refcnt sl1 0]> (slots r)).
  { unfold r3, commit_refcnt. simpl. fold i.
    erewrite alter_insert by (by apply list_lookup_insert_eq). by rewrite list_insert_insert_eq. }
  assert (H3i : slots r3 !! i = Some (set_refcnt sl1 0)).
  { rewrite H3. by apply list_lookup_insert_eq. }
  split_and!; [done..| |].
  - exists (set_refcnt sl1 u32_max). unfold drop_read. simpl.
    rewrite (alter_insert _ _ _ _ H3i), list_lookup_insert_eq; [done|].
    rewrite H3, length_insert. done.
  - intros Hc n ts Hn Hns. pose proof (i_slots _ Hi) as Hss. simpl in Hss. unfold zlen in Hss.
    assert (length (slots r) = 1%nat) as Hone by lia.
    destruct (slots r) as [|x [|]] eqn:Es; simpl in Hone; try lia.
    assert (i = 0%nat) as Hi0 by (simpl in Hlt; lia).
    unfold acquire_write. change (slot_bytes r3) with (slot_bytes r).
    destruct (Z.ltb_spec (slot_bytes r) n); [lia|].
    assert (choose (slots r3) 0 None u64_max = Some 0%nat) as ->.
    { rewrite H3, Hi0. simpl. assert (w_seq w <? u64_max = true) as -> by lia.
      assert (w_seq w =? 0 = false) as -> by lia. done. }
    eexists _, _. split; [done|]. by rewrite Hi0.
Qed.

End FrameRing.

(** ** A concrete ring: one slot of 64 bytes *)
Module FrameRingExamples.
Import FrameRing.

Definition r0 : FrameRing := init_header "/tmp/ring" 64 1.
Definition w1 : WriteGuard := mkWrite 0 (payload_off r0 0) 2 1.
Definition r1 : FrameRing := match acquire_write r0 2 42 with Ok (r, _) => r | Err _ => r0 end.
Definition r2 : FrameRing :=
  match write r1 w1 [Byte.x41; Byte.x42] with Ok r => r | Err _ => r1 end.
Definition r3 : FrameRing := (commit r2 w1).1.
Definition g1 : ReadGuard := mkRead 0 (payload_off r0 0) 2 1 42.
Definition r4 : FrameRing := match read r3 1 with Some (r, _) => r | None => r3 end.

Lemma init0 : initial "/tmp/ring" 64 1 (mkSys r0 [] []).
Proof. exists r0. done. Defined.

Lemma reach1 : rtc step (mkSys r0 [] []) (mkSys r1 [w1] []).
Proof.
  apply rtc_once, (step_acquire r0 [] [] 2 42 r1 w1); [split; done | split; done | done | ].
  vm_compute. reflexivity.
Defined.

Lemma reach4 : rtc step (mkSys r0 [] []) (mkSys r4 [] [g1]).
Proof.
  eapply rtc_r; [eapply rtc_r; [eapply rtc_r; [exact reach1|]|]|].
  - apply (step_write r1 [w1] [] w1 [Byte.x41; Byte.x42] r2); [set_solver|]. vm_compute. reflexivity.
  - exact (step_commit r2 [] w1 [] []).
  - apply (step_read r3 [] [] 1 r4 g1); [done | done | vm_compute; reflexivity].
Defined.


(** Opening a second guard does not disturb the first. *)
Lemma reader_isolation_witness :
  to_vec (match read r4 1 with Some (r, _) => r | None => r4 end) g1 = [Byte.x41; Byte.x42].
Proof.
  refine (eq_trans (reader_isolation _ _ _ _ _ (mkSys
    (match read r4 1 with Some (r, _) => r | None => r4 end) [] [g1; g1]) g1 init0 reach4 _) _).
  - apply rtc_once. split; [|split; set_solver].
    apply (step_read r4 [] [g1] 1 _ g1); [done | done | vm_compute; reflexivity].
  - vm_compute. reflexivity.
Defined.

Lemma publish_then_read_witness :
  exists r2 r3 r4 g, write r1 w1 [Byte.x41; Byte.x42] = Ok r2 /\ commit r2 w1 = (r3, 1) /\
    read r3 1 = Some (r4, g) /\ to_vec r4 g = [Byte.x41; Byte.x42] /\
    r_len g = 2 /\ r_ts_us g = 42 /\ head_seq r3 = 1.
Proof.
  exact (publish_then_read _ _ _ _ r0 r1 [] [] 2 42 w1 [Byte.x41; Byte.x42]
    init0 (rtc_refl _ _) ltac:(split; done) ltac:(done) ltac:(vm_compute; reflexivity) eq_refl).
Defined.

(** With the only slot held by a reader the ring is exhausted. *)
Lemma acquire_write_spec_witness :
  acquire_write r4 2 7 = Err RingExhausted /\
  (exists g, g ∈ [g1] /\ r_slot_index g = 0%nat).
Proof.
  split; [vm_compute; reflexivity|].
  pose proof (acquire_write_spec _ _ _ _ r4 [] [g1] 2 7 init0 reach4 ltac:(done)) as H.
  assert (acquire_write r4 2 7 = Err RingExhausted) as E by (vm_compute; reflexivity).
  rewrite E in H. destruct (proj2 H 0%nat (mkSlot 1 2 1 42) ltac:(vm_compute; reflexivity))
    as [(w & Hw & _)|Hg]; [by apply elem_of_nil in Hw | exact Hg].
Defined.

Lemma commit_race_loses_reader_witness :
  exists r2 g sl, read (commit_seq r1 w1) 1 = Some (r2, g) /\
    slots (commit_refcnt r2 w1) !! r_slot_index g = Some sl /\ refcnt sl = 0.
Proof.
  destruct (commit_race_loses_reader _ _ _ _ r1 w1 [] [] init0 reach1)
    as (r2' & g & sl & Hr & _ & Hs & _ & H0 & _).
  exists r2', g, sl. exact (conj Hr (conj Hs H0)).
Defined.

End FrameRingExamples.
