(* ===== verification/Vision.v ===== *)
(** * Vision: frames, tile differences, recognised text and stability

    Models [vision/src/diff.rs], [coords.rs], the cache of [ocr.rs] and the
    pipeline of [api.rs]: a frame is split into tiles, each tile is hashed, the
    tiles whose hash changed are reported and read, and the share of changed
    tiles over the last frames is the stability of the page.  XxHash64 and the
    OCR backend are parameters. *)
From S2P Require Import Prelude F64.
From Stdlib Require Import SpecFloat.
From stdpp Require Import list_numbers.
#[local] Open Scope Z_scope.

(** ** Single precision *)
Abbreviation f32 := spec_float.
Definition f32_of_Z (z : Z) : f32 := binary_normalize 24 128 z 0 false.
Definition f32_add : f32 -> f32 -> f32 := SFadd 24 128.
Definition f32_sub : f32 -> f32 -> f32 := SFsub 24 128.
Definition f32_mul : f32 -> f32 -> f32 := SFmul 24 128.
Definition f32_div : f32 -> f32 -> f32 := SFdiv 24 128.
Definition f32_sqrt : f32 -> f32 := SFsqrt 24 128.
(** A decimal literal [n / 10^k], rounded once. *)
Definition f32_dec (n k : Z) : f32 := f32_div (f32_of_Z n) (f32_of_Z (10 ^ k)).
Definition f32_lt : f32 -> f32 -> bool := SFltb.
Definition f32_le : f32 -> f32 -> bool := SFleb.
(** [clamp]: NaN stays. *)
Definition f32_clamp (lo hi x : f32) : f32 := if f32_lt x lo then lo else if f32_lt hi x then hi else x.
(** [as u32]: towards zero, saturating, NaN to zero. *)
Definition sf_to_u32 (x : spec_float) : Z :=
  match x with
  | S754_zero _ | S754_nan => 0
  | S754_infinity s => if s then 0 else 2 ^ 32 - 1
  | S754_finite s m e =>
      let v := if 0 <=? e then Z.pos m * 2 ^ e else Z.pos m / 2 ^ (- e) in
      if s then 0 else Z.min (2 ^ 32 - 1) v
  end.

Module Vision.

(** [u32] arithmetic, which wraps. *)
Definition u32 (z : Z) : Z := z mod 2 ^ 32.
Definition u32_sat_add (a b : Z) : Z := Z.min (2 ^ 32 - 1) (a + b).

Inductive VisionError : Type :=
| NotEnabled
| DimensionsMismatch (prev next : Z * Z)
| Ocr (msg : string)
| Other (msg : string).

(** RGBA bytes, row by row. *)
Record DecodedImage := mkImage { width : Z; height : Z; rgba : list Z; captured_us : Z }.

(** ** Boxes, [diff.rs] and [coords.rs] *)

Record Bbox := mkBbox { bx : Z; by_ : Z; bw : Z; bh : Z }.
Definition intersects (a b : Bbox) : bool :=
  negb ((u32 (bx a + bw a) <=? bx b) || (u32 (bx b + bw b) <=? bx a)
        || (u32 (by_ a + bh a) <=? by_ b) || (u32 (by_ b + bh b) <=? by_ a)).

Definition DEFAULT_DISPLAY_ID : Z := 0.
Record CssBbox := mkCss { cx : Z; cy : Z; cw : Z; ch : Z; css_display : Z }.
Definition css_new (x y w h : Z) : CssBbox := mkCss x y w h DEFAULT_DISPLAY_ID.
Definition with_display (b : CssBbox) (display_id : Z) : CssBbox := mkCss (cx b) (cy b) (cw b) (ch b) display_id.

Definition f64_is_finite (x : f64) : bool := match x with S754_zero _ | S754_finite _ _ _ => true | _ => false end.
Definition f64_one : f64 := f64_of_Z 1.
Definition sanitize_scale (scale : f64) : f64 :=
  if negb (f64_is_finite scale) || f64_le scale f64_zero then f64_one
  else if f64_lt scale (f64_div f64_one (f64_of_Z 4)) then f64_div f64_one (f64_of_Z 4)
  else if f64_lt (f64_of_Z 8) scale then f64_of_Z 8 else scale.
(** [round]: to the nearest integer, ties away from zero. *)
Definition f64_round_u32 (v : f64) : Z :=
  match v with
  | S754_finite false m e =>
      let r := if 0 <=? e then Z.pos m * 2 ^ e else (Z.pos m + 2 ^ (- e - 1)) / 2 ^ (- e) in Z.min (2 ^ 32 - 1) r
  | S754_infinity false => 2 ^ 32 - 1
  | _ => 0
  end.
Definition scale_round (v : f64) : Z :=
  if negb (f64_is_finite v) || f64_lt v f64_zero then 0
  else if f64_lt (f64_of_Z (2 ^ 32 - 1)) v then 2 ^ 32 - 1
  else f64_round_u32 v.
Definition to_device (b : CssBbox) (scale : f64) : Bbox :=
  let s := sanitize_scale scale in
  let f z := scale_round (f64_mul (f64_of_Z z) s) in
  mkBbox (f (cx b)) (f (cy b)) (f (cw b)) (f (ch b)).
Definition to_css_bbox (b : Bbox) (page_scale_factor : f64) : CssBbox :=
  let s := sanitize_scale page_scale_factor in
  let f z := scale_round (f64_div (f64_of_Z z) s) in
  mkCss (f (bx b)) (f (by_ b)) (f (bw b)) (f (bh b)) DEFAULT_DISPLAY_ID.
Definition to_device_bbox (b : CssBbox) (page_scale_factor : f64) : Bbox := to_device b page_scale_factor.
Definition clamp_to_image (b : Bbox) (w h : Z) : option Bbox :=
  let x0 := Z.min (bx b) w in
  let y0 := Z.min (by_ b) h in
  let x1 := Z.min (u32_sat_add (bx b) (bw b)) w in
  let y1 := Z.min (u32_sat_add (by_ b) (bh b)) h in
  if (x1 <=? x0) || (y1 <=? y0) then None else Some (mkBbox x0 y0 (x1 - x0) (y1 - y0)).

(** ** Tile hashes *)

Definition DEFAULT_TILE_SIZE : Z := 64.
Record TileChange := mkChange { tile_x : Z; tile_y : Z; tc_bbox : Bbox; prev_hash : Z; next_hash : Z }.
Record DiffResult := mkDiff {
  df_width : Z; df_height : Z; df_tile : Z; grid_w : Z; grid_h : Z; hashes : list Z; changes : list TileChange
}.

Definition from_le_bytes (b : list Z) : Z :=
  match b with [b0; b1; b2; b3] => b0 + 2 ^ 8 * b1 + 2 ^ 16 * b2 + 2 ^ 24 * b3 | _ => 0 end.
Definition to_le_bytes (z : Z) : list Z := [z mod 2 ^ 8; z / 2 ^ 8 mod 2 ^ 8; z / 2 ^ 16 mod 2 ^ 8; z / 2 ^ 24 mod 2 ^ 8].
(** The eight lanes of a chunk of 32 bytes. *)
Definition lanes (chunk : list Z) : list Z := map (fun i => from_le_bytes (take 4 (drop (4 * i) chunk))) (seq 0 8).
Definition xor8 (a b : list Z) : list Z := zip_with Z.lxor a b.
(** The loop over the whole chunks of a row: the accumulator, and the rest. *)
Fixpoint fold_chunks (n : nat) (acc bytes : list Z) : list Z * list Z :=
  match n with
  | O => (acc, bytes)
  | S n => fold_chunks n (xor8 acc (lanes (take 32 bytes))) (drop 32 bytes)
  end.
Definition row_bytes (img : DecodedImage) (x0 y w : Z) : list Z :=
  take (Z.to_nat (w * 4)) (drop (Z.to_nat (y * (width img * 4) + x0 * 4)) (rgba img)).
Definition tile_bbox (img : DecodedImage) (tx ty tile : Z) : Bbox :=
  let x0 := u32 (tx * tile) in
  let y0 := u32 (ty * tile) in
  mkBbox x0 y0 (Z.min tile (u32 (width img - x0))) (Z.min tile (u32 (height img - y0))).

(** The hash of the bytes written to a hasher with seed 0. *)
Class XxHash64 := xxh64 : list Z -> Z.
Section Hash.
Context `{Xx : XxHash64}.

(** What has been written and the accumulator, after a row. *)
Definition hash_row (img : DecodedImage) (x0 w : Z) (st : list Z * list Z) (y : Z) : list Z * list Z :=
  let bytes := row_bytes img x0 y w in
  let '(acc, rest) := fold_chunks (length bytes / 32) (snd st) bytes in
  (fst st ++ rest, acc).
Definition tile_stream (img : DecodedImage) (tx ty tile : Z) : list Z :=
  let b := tile_bbox img tx ty tile in
  let '(written, acc) := foldl (hash_row img (bx b) (bw b)) ([], replicate 8 0) (seqZ (by_ b) (bh b)) in
  written ++ (acc ≫= to_le_bytes) ++ to_le_bytes (bw b) ++ to_le_bytes (bh b).
Definition hash_tile (img : DecodedImage) (tx ty tile : Z) : Z := xxh64 (tile_stream img tx ty tile).

(** The order of the loops. *)
Definition tiles (gw gh : Z) : list (Z * Z) := seqZ 0 gh ≫= fun ty => map (fun tx => (tx, ty)) (seqZ 0 gw).
Definition grid (n tile : Z) : Z := u32 (n + tile - 1) / tile.
Definition tile_index (gw : Z) (t : Z * Z) : nat := Z.to_nat (u32 (snd t * gw + fst t)).
Definition compute_hash_grid (img : DecodedImage) (tile : Z) : result (list Z) VisionError :=
  if tile =? 0 then Err (Other "tile size must be > 0")
  else
    let gw := grid (width img) tile in
    let gh := grid (height img) tile in
    Ok (foldl (fun hs t => <[tile_index gw t := hash_tile img (fst t) (snd t) tile]> hs)
          (replicate (Z.to_nat (u32 (gw * gh))) 0) (tiles gw gh)).

Definition diff_tile (next : DecodedImage) (prev_hashes : list Z) (gw tile : Z) (st : list Z * list TileChange) (t : Z * Z)
    : list Z * list TileChange :=
  let h := hash_tile next (fst t) (snd t) tile in
  let prev := nth (tile_index gw t) prev_hashes 0 in
  (<[tile_index gw t := h]> (fst st),
   if prev =? h then snd st else snd st ++ [mkChange (fst t) (snd t) (tile_bbox next (fst t) (snd t) tile) prev h]).
Definition diff (next : DecodedImage) (prev_hashes : list Z) (prev_dims : Z * Z) (tile : Z) : result DiffResult VisionError :=
  if negb (bool_decide ((width next, height next) = prev_dims))
  then Err (DimensionsMismatch prev_dims (width next, height next))
  else if tile =? 0 then Err (Other "tile size must be > 0")
  else
    let gw := grid (width next) tile in
    let gh := grid (height next) tile in
    let expected := Z.to_nat (u32 (gw * gh)) in
    if negb (length prev_hashes =? expected)%nat then Err (Other "prev hash grid len")
    else
      let '(hs, cs) := foldl (diff_tile next prev_hashes gw tile) (replicate expected 0, []) (tiles gw gh) in
      Ok (mkDiff (width next) (height next) tile gw gh hs cs).

(** ** The grid *)

(** Sizes for which no [u32] operation on the grid wraps. *)
Record sized (img : DecodedImage) (tile : Z) : Prop := {
  sz_tile : 0 < tile;
  sz_w : 0 <= width img /\ width img + tile <= 2 ^ 32;
  sz_h : 0 <= height img /\ height img + tile <= 2 ^ 32;
  sz_grid : (width img + tile - 1) / tile * ((height img + tile - 1) / tile) < 2 ^ 32
}.
Lemma u32_id z : 0 <= z < 2 ^ 32 -> u32 z = z.
Proof. apply Z.mod_small. Qed.
Lemma grid_exact n tile : 0 < tile -> 0 <= n -> n + tile <= 2 ^ 32 -> grid n tile = (n + tile - 1) / tile.
Proof. intros. unfold grid. rewrite u32_id; [done|lia]. Qed.
Lemma grid_cell n tile i : 0 < tile -> 0 <= n -> n + tile <= 2 ^ 32 -> (0 <= i < grid n tile <-> 0 <= i * tile < n).
Proof.
  intros. rewrite grid_exact by done. split; intros [A B].
  - split; [nia|]. assert (i + 1 <= (n + tile - 1) / tile) as C by lia. apply Z.div_le_lower_bound in C || idtac.
    pose proof (Z.mul_div_le (n + tile - 1) tile). nia.
  - split; [nia|]. apply Z.div_lt_upper_bound in B || idtac. enough (i + 1 <= (n + tile - 1) / tile) by lia.
    apply Z.div_le_lower_bound; nia.
Qed.

Lemma tile_row gw ty : map (fun tx => (tx, ty)) (seqZ 0 gw) = map (fun i => (i mod gw, i / gw)) (seqZ (gw * ty) gw).
Proof.
  replace (seqZ (gw * ty) gw) with (map (Z.add (gw * ty)) (seqZ 0 gw)) by (rewrite <- (Z.add_0_r (gw * ty)) at 2; apply fmap_add_seqZ).
  rewrite map_map. apply map_ext_in. intros tx H%list_elem_of_In%elem_of_seqZ.
  rewrite (Z.add_comm (gw * ty)), (Z.mul_comm gw), Z_mod_plus_full, Z.mod_small, Z.div_add, Z.div_small by lia. now rewrite Z.add_0_l.
Qed.
Lemma tiles_seq gw gh : 0 <= gw -> 0 <= gh -> tiles gw gh = map (fun i => (i mod gw, i / gw)) (seqZ 0 (gw * gh)).
Proof.
  intros Hw Hh. unfold tiles. pattern gh. apply natlike_ind; [|clear gh Hh; intros gh Hh IH|done].
  - now rewrite Z.mul_0_r.
  - rewrite <- (Z.add_1_r gh), (seqZ_app 0 gh 1) by lia. rewrite bind_app, IH.
    replace (gw * (gh + 1)) with (gw * gh + gw) by lia. rewrite (seqZ_app 0 (gw * gh)), map_app by nia. f_equal.
    rewrite !Z.add_0_l, (seqZ_cons gh 1), (seqZ_nil (Z.succ gh)) by lia. cbn. rewrite app_nil_r. apply tile_row.
Qed.
Lemma elem_of_tiles gw gh tx ty : (tx, ty) ∈ tiles gw gh <-> 0 <= tx < gw /\ 0 <= ty < gh.
Proof.
  unfold tiles. rewrite list_elem_of_bind. split.
  - intros (y & H & Hy%elem_of_seqZ). apply list_elem_of_In, in_map_iff in H as (x & [= -> ->] & Hx%list_elem_of_In%elem_of_seqZ). lia.
  - intros [Hx Hy]. exists ty. split; [|apply elem_of_seqZ; lia]. apply list_elem_of_In, in_map_iff. exists tx.
    split; [done|]. apply list_elem_of_In, elem_of_seqZ. lia.
Qed.
Lemma length_tiles gw gh : 0 <= gw -> 0 <= gh -> length (tiles gw gh) = Z.to_nat (gw * gh).
Proof. intros. rewrite tiles_seq by done. now rewrite length_map, length_seqZ. Qed.
Lemma tile_index_nth gw gh i t : 0 <= gw -> 0 <= gh -> gw * gh < 2 ^ 32 -> tiles gw gh !! i = Some t -> tile_index gw t = i.
Proof.
  intros Hw Hh Hg L. rewrite tiles_seq in L by done. rewrite list_lookup_fmap in L.
  destruct (seqZ 0 (gw * gh) !! i) as [z|] eqn:E; [|discriminate]. injection L as <-.
  apply lookup_seqZ in E as [-> E]. unfold tile_index. cbn [fst snd]. rewrite !Z.add_0_l.
  rewrite (Z.mul_comm (Z.of_nat i / gw)), <- Z.div_mod by nia. rewrite u32_id by lia. lia.
Qed.

(** Writing every cell of a grid in order. *)
Lemma fold_writes {A B} (ix : A -> nat) (f : A -> B) (l2 : list A) : forall l1 hs,
  (forall i t, (l1 ++ l2) !! i = Some t -> ix t = i) -> length hs = length l2 ->
  foldl (fun hs t => <[ix t := f t]> hs) (map f l1 ++ hs) l2 = map f (l1 ++ l2).
Proof.
  induction l2 as [|t l2 IH]; intros l1 hs H L; cbn.
  - apply nil_length_inv in L as ->. now rewrite !app_nil_r.
  - destruct hs as [|h hs]; [discriminate|]. rewrite (H (length l1) t) by (rewrite lookup_app_r, Nat.sub_diag by lia; done).
    rewrite insert_app_r_alt, length_map, Nat.sub_diag by (rewrite length_map; lia). cbn.
    replace (map f l1 ++ f t :: hs) with (map f (l1 ++ [t]) ++ hs) by (rewrite map_app, <- (assoc_L (++)); done).
    rewrite (IH (l1 ++ [t])), <- (assoc_L (++)); [done| |cbn in L; lia]. intros i u. rewrite <- (assoc_L (++)). apply H.
Qed.
Lemma fold_grid {B} (f : Z * Z -> B) d gw gh : 0 <= gw -> 0 <= gh -> gw * gh < 2 ^ 32 ->
  foldl (fun hs t => <[tile_index gw t := f t]> hs) (replicate (Z.to_nat (u32 (gw * gh))) d) (tiles gw gh) = map f (tiles gw gh).
Proof.
  intros Hw Hh Hg. apply (fold_writes _ f _ [] _).
  - intros i t. now apply tile_index_nth.
  - rewrite length_replicate, length_tiles, u32_id by (done || nia). done.
Qed.

Lemma hash_grid_spec img tile : sized img tile ->
  compute_hash_grid img tile = Ok (map (fun t => hash_tile img (fst t) (snd t) tile)
    (tiles (grid (width img) tile) (grid (height img) tile))).
Proof.
  intros [T W H G]. unfold compute_hash_grid. destruct (Z.eqb_spec tile 0); [lia|]. f_equal. apply fold_grid.
  - rewrite grid_exact by lia. apply Z.div_pos; lia.
  - rewrite grid_exact by lia. apply Z.div_pos; lia.
  - now rewrite !grid_exact by lia.
Qed.

(** ** What [diff] reports *)

Lemma diff_fold next prev gw tile l : forall st,
  foldl (diff_tile next prev gw tile) st l =
  (foldl (fun hs t => <[tile_index gw t := hash_tile next (fst t) (snd t) tile]> hs) (fst st) l,
   snd st ++ omap (fun t => let h := hash_tile next (fst t) (snd t) tile in let p := nth (tile_index gw t) prev 0 in
     if p =? h then None else Some (mkChange (fst t) (snd t) (tile_bbox next (fst t) (snd t) tile) p h)) l).
Proof.
  induction l as [|t l IH]; intros [hs cs]; cbn; [now rewrite app_nil_r|]. rewrite IH. cbn. f_equal.
  destruct (_ =? _); [done|]. now rewrite <- (assoc_L (++)).
Qed.

(** The change at a tile between two frames, if their hashes differ. *)
Definition change_at (prev next : DecodedImage) (tile : Z) (t : Z * Z) : option TileChange :=
  let p := hash_tile prev (fst t) (snd t) tile in
  let h := hash_tile next (fst t) (snd t) tile in
  if p =? h then None else Some (mkChange (fst t) (snd t) (tile_bbox next (fst t) (snd t) tile) p h).
Lemma diff_spec prev next tile : sized next tile -> (width prev, height prev) = (width next, height next) ->
  exists hp hn, compute_hash_grid prev tile = Ok hp /\ compute_hash_grid next tile = Ok hn /\
  diff next hp (width prev, height prev) tile = Ok (mkDiff (width next) (height next) tile (grid (width next) tile)
    (grid (height next) tile) hn (omap (change_at prev next tile) (tiles (grid (width next) tile) (grid (height next) tile)))).
Proof.
  intros S [= EW EH]. assert (sized prev tile) as S' by (destruct S; constructor; rewrite ?EW, ?EH; done).
  pose proof (hash_grid_spec prev tile S') as HP. pose proof (hash_grid_spec next tile S) as HN. rewrite EW, EH in HP.
  eexists _, _. split; [exact HP|]. split; [exact HN|]. unfold diff. rewrite EW, EH.
  rewrite bool_decide_eq_true_2 by done. destruct S as [T W H G]. cbn [negb]. destruct (Z.eqb_spec tile 0); [lia|].
  set (gw := grid (width next) tile) in *. set (gh := grid (height next) tile) in *.
  assert (0 <= gw /\ 0 <= gh /\ gw * gh < 2 ^ 32) as (Hw & Hh & Hg).
  { unfold gw, gh. rewrite !grid_exact by lia. split; [apply Z.div_pos; lia|]. split; [apply Z.div_pos; lia|done]. }
  rewrite length_map, length_tiles, u32_id, Nat.eqb_refl by (done || nia). cbn [negb]. rewrite diff_fold. cbn [fst snd app].
  f_equal. f_equal.
  - rewrite <- (fold_grid _ 0 gw gh Hw Hh Hg), u32_id by nia. reflexivity.
  - apply list_omap_ext, Forall_Forall2_diag, Forall_lookup. intros i u L. unfold change_at.
    rewrite (tile_index_nth _ _ _ _ Hw Hh Hg L), nth_lookup, list_lookup_fmap, L. reflexivity.
Qed.

(** ** Pixels and tiles *)

Definition pixel (img : DecodedImage) (x y : Z) : list Z := take 4 (drop (Z.to_nat (y * (width img * 4) + x * 4)) (rgba img)).
Definition in_box (b : Bbox) (x y : Z) : Prop := bx b <= x < bx b + bw b /\ by_ b <= y < by_ b + bh b.

Lemma tile_bbox_exact img tile tx ty : sized img tile -> 0 <= tx < grid (width img) tile -> 0 <= ty < grid (height img) tile ->
  tile_bbox img tx ty tile =
    mkBbox (tx * tile) (ty * tile) (Z.min tile (width img - tx * tile)) (Z.min tile (height img - ty * tile)).
Proof.
  intros [T W H G] X%grid_cell Y%grid_cell; try lia. unfold tile_bbox. rewrite !u32_id by (try rewrite !u32_id; lia). done.
Qed.
Lemma tile_in_image img tile tx ty x y : sized img tile -> 0 <= tx < grid (width img) tile -> 0 <= ty < grid (height img) tile ->
  in_box (tile_bbox img tx ty tile) x y -> 0 <= x < width img /\ 0 <= y < height img.
Proof.
  intros S X Y. rewrite tile_bbox_exact by done. destruct S as [T W H G]. apply grid_cell in X; try lia. apply grid_cell in Y; try lia.
  unfold in_box. cbn. lia.
Qed.
Lemma pixel_tile img tile tx ty x y : sized img tile -> 0 <= tx < grid (width img) tile -> 0 <= ty < grid (height img) tile ->
  0 <= x < width img -> 0 <= y < height img -> (in_box (tile_bbox img tx ty tile) x y <-> tx = x / tile /\ ty = y / tile).
Proof.
  intros S X Y Hx Hy. rewrite tile_bbox_exact by done. destruct S as [T _ _ _]. unfold in_box. cbn.
  pose proof (Z.div_mod x tile ltac:(lia)). pose proof (Z.mod_pos_bound x tile T).
  pose proof (Z.div_mod y tile ltac:(lia)). pose proof (Z.mod_pos_bound y tile T). split.
  - intros [A B]. split; [apply (Z.div_unique x tile tx (x - tx * tile))|apply (Z.div_unique y tile ty (y - ty * tile))]; lia.
  - intros [-> ->]. nia.
Qed.
Lemma pixel_has_tile img tile x y : sized img tile -> 0 <= x < width img -> 0 <= y < height img ->
  0 <= x / tile < grid (width img) tile /\ 0 <= y / tile < grid (height img) tile.
Proof.
  intros [T W H G] Hx Hy. pose proof (Z.mul_div_le x tile T). pose proof (Z.mul_div_le y tile T).
  pose proof (Z.div_pos x tile). pose proof (Z.div_pos y tile). rewrite !grid_cell by lia. nia.
Qed.

(** A row of a tile is its pixels. *)
Lemma row_pixels img x0 y w : 0 <= width img -> 0 <= y -> 0 <= x0 -> 0 <= w -> row_bytes img x0 y w = seqZ x0 w ≫= fun x => pixel img x y.
Proof.
  intros Hw Hy Hx H. revert x0 Hx. pattern w. apply natlike_ind; [|clear w H; intros w H IH|done]; intros x0 Hx.
  - unfold row_bytes. now rewrite seqZ_nil by lia.
  - rewrite seqZ_cons, Z.pred_succ by lia. cbn. rewrite <- (IH (Z.succ x0)) by lia. unfold row_bytes, pixel.
    replace (Z.to_nat (Z.succ w * 4)) with (4 + Z.to_nat (w * 4))%nat by lia. rewrite <- take_take_drop. f_equal. f_equal.
    rewrite drop_drop. f_equal. nia.
Qed.
Definition agree (a b : DecodedImage) (box : Bbox) : Prop := forall x y, in_box box x y -> pixel a x y = pixel b x y.
Lemma agree_hash a b tile tx ty : sized b tile -> (width a, height a) = (width b, height b) ->
  0 <= tx < grid (width b) tile -> 0 <= ty < grid (height b) tile -> agree a b (tile_bbox b tx ty tile) ->
  hash_tile a tx ty tile = hash_tile b tx ty tile.
Proof.
  intros S [= EW EH] X Y A. unfold hash_tile, tile_stream. assert (tile_bbox a tx ty tile = tile_bbox b tx ty tile) as ->
    by (unfold tile_bbox; now rewrite EW, EH).
  assert (0 <= bx (tile_bbox b tx ty tile) /\ 0 <= by_ (tile_bbox b tx ty tile) /\ 0 <= bw (tile_bbox b tx ty tile)) as (Bx & By & Bw).
  { rewrite tile_bbox_exact by done. destruct S as [T W H _]. apply grid_cell in X; try lia. apply grid_cell in Y; try lia. cbn. lia. }
  destruct (tile_bbox b tx ty tile) as [x0 y0 w h]. cbn in *. f_equal.
  assert (forall st ys, Forall (fun y => y0 <= y < y0 + h) ys ->
    foldl (hash_row a x0 w) st ys = foldl (hash_row b x0 w) st ys) as ->; [|done|now apply Forall_seqZ].
  intros st ys Hy. revert st. induction Hy as [|y ys H _ IH]; intros st; [done|]. cbn. rewrite IH. f_equal.
  unfold hash_row. assert (row_bytes a x0 y w = row_bytes b x0 y w) as ->; [|done].
  rewrite !row_pixels by (destruct S; lia). apply Forall_bind_ext, Forall_seqZ. intros x Hx. apply A.
  split; cbn; lia.
Qed.

(** [diff] reports exactly the tiles whose hash has changed, and tells where: on
    frames of one size it succeeds with the hashes of the new frame, reports a
    tile once if and only if its hash differs from the one kept, with its box
    inside the frame; every pixel lies in the box of exactly one tile, and a tile
    on whose box the frames have the same pixels is not reported. *)
Theorem diff_reports_tiles prev next tile :
  sized next tile -> (width prev, height prev) = (width next, height next) ->
  exists hp res, compute_hash_grid prev tile = Ok hp /\ diff next hp (width prev, height prev) tile = Ok res /\
    compute_hash_grid next tile = Ok (hashes res) /\
    (forall c, c ∈ changes res <-> exists tx ty, 0 <= tx < grid_w res /\ 0 <= ty < grid_h res /\
       change_at prev next tile (tx, ty) = Some c) /\
    (forall tx ty x y, 0 <= tx < grid_w res -> 0 <= ty < grid_h res -> in_box (tile_bbox next tx ty tile) x y ->
       0 <= x < width next /\ 0 <= y < height next) /\
    (forall x y, 0 <= x < width next -> 0 <= y < height next ->
       (0 <= x / tile < grid_w res /\ 0 <= y / tile < grid_h res) /\
       forall tx ty, 0 <= tx < grid_w res -> 0 <= ty < grid_h res ->
         (in_box (tile_bbox next tx ty tile) x y <-> tx = x / tile /\ ty = y / tile)) /\
    (forall tx ty, 0 <= tx < grid_w res -> 0 <= ty < grid_h res -> agree prev next (tile_bbox next tx ty tile) ->
       change_at prev next tile (tx, ty) = None).
Proof.
  intros S E. destruct (diff_spec prev next tile S E) as (hp & hn & HP & HN & D). exists hp. eexists. split; [exact HP|].
  split; [exact D|]. cbn. split; [exact HN|]. split; [|split; [|split]].
  - intros c. rewrite list_elem_of_omap. split.
    + intros ([tx ty] & [X Y]%elem_of_tiles & C). eauto 10.
    + intros (tx & ty & X & Y & C). exists (tx, ty). now rewrite elem_of_tiles.
  - intros tx ty x y X Y. now apply tile_in_image.
  - intros x y X Y. split; [now apply pixel_has_tile|]. intros tx ty Tx Ty. now apply pixel_tile.
  - intros tx ty X Y A. unfold change_at. cbn. rewrite (agree_hash prev next tile tx ty) by done. now rewrite Z.eqb_refl.
Qed.

(** ** What the hash does not see *)

(** Folding the same lanes [n] times. *)
Lemma xor8_twice acc c : length acc = length c -> xor8 (xor8 acc c) c = acc.
Proof.
  revert c. induction acc as [|a acc IH]; intros [|x c] L; try discriminate; [done|]. cbn. f_equal.
  - now rewrite Z.lxor_assoc, Z.lxor_nilpotent, Z.lxor_0_r.
  - apply IH. now injection L.
Qed.
Fixpoint xor_times (n : nat) (acc c : list Z) : list Z := match n with O => acc | S n => xor_times n (xor8 acc c) c end.
Lemma xor_times_add m n acc c : xor_times (m + n) acc c = xor_times n (xor_times m acc c) c.
Proof. revert acc. induction m as [|m IH]; intros acc; cbn; [done|apply IH]. Qed.
Lemma xor_times_even n acc c : length acc = length c -> xor_times (n + n) acc c = acc.
Proof.
  intros L. induction n as [|n IH]; [done|]. replace (S n + S n)%nat with (2 + (n + n))%nat by lia.
  rewrite xor_times_add. cbn. now rewrite xor8_twice.
Qed.

(** A box of one colour, [p] repeated. *)
Definition solid (img : DecodedImage) (box : Bbox) (p : list Z) : Prop :=
  length p = 4%nat /\ forall x y, in_box box x y -> pixel img x y = p.
Definition repeat_px (n : nat) (p : list Z) : list Z := replicate n p ≫= id.
Lemma repeat_px_S n p : repeat_px (S n) p = p ++ repeat_px n p.
Proof. reflexivity. Qed.
Lemma solid_row img x0 y w p : 0 <= width img -> 0 <= y -> 0 <= x0 -> 0 <= w ->
  (forall x, x0 <= x < x0 + w -> pixel img x y = p) -> row_bytes img x0 y w = repeat_px (Z.to_nat w) p.
Proof.
  intros Hw Hy Hx H P. rewrite row_pixels by done. unfold repeat_px.
  rewrite (Forall_bind_ext _ (fun _ => p)) by (apply Forall_seqZ; exact P). clear P.
  assert (forall l : list Z, (l ≫= fun _ => p) = replicate (length l) p ≫= id) as -> by (induction l as [|a l IH]; cbn; [done|now rewrite IH]).
  now rewrite length_seqZ.
Qed.
Lemma fold_solid p n acc : length p = 4%nat -> fold_chunks n acc (repeat_px (8 * n) p) = (xor_times n acc (replicate 8 (from_le_bytes p)), []).
Proof.
  intros L. destruct p as [|a [|b [|c [|d [|? ?]]]]]; try discriminate. revert acc. induction n as [|n IH]; intros acc; [done|].
  replace (8 * S n)%nat with (8 + 8 * n)%nat by lia. cbn [Nat.add]. rewrite !repeat_px_S. cbn [fold_chunks app take drop xor_times].
  rewrite IH. reflexivity.
Qed.

Lemma length_repeat_px n p : length p = 4%nat -> length (repeat_px n p) = (4 * n)%nat.
Proof. intros L. induction n as [|n IH]; [done|]. rewrite repeat_px_S, length_app, IH, L. lia. Qed.
Lemma solid_stream img tile tx ty p n : sized img tile -> 0 <= tx < grid (width img) tile -> 0 <= ty < grid (height img) tile ->
  solid img (tile_bbox img tx ty tile) p ->
  bw (tile_bbox img tx ty tile) = 8 * Z.of_nat n -> Z.even (Z.of_nat n * bh (tile_bbox img tx ty tile)) = true ->
  tile_stream img tx ty tile = replicate 32 0 ++ to_le_bytes (bw (tile_bbox img tx ty tile)) ++ to_le_bytes (bh (tile_bbox img tx ty tile)).
Proof.
  intros S X Y [L P] N Ev. unfold tile_stream.
  assert (0 <= bx (tile_bbox img tx ty tile) /\ 0 <= by_ (tile_bbox img tx ty tile) /\ 0 <= bh (tile_bbox img tx ty tile)) as (Bx & By & Bh).
  { rewrite tile_bbox_exact by done. destruct S as [T W H _]. apply grid_cell in X; try lia. apply grid_cell in Y; try lia. cbn. lia. }
  destruct (tile_bbox img tx ty tile) as [x0 y0 w h]. cbn in *. subst w.
  set (c := replicate 8 (from_le_bytes p)).
  assert (forall ys wr acc, Forall (fun y => y0 <= y < y0 + h) ys ->
    foldl (hash_row img x0 (8 * Z.of_nat n)) (wr, acc) ys = (wr, xor_times (length ys * n) acc c)) as F.
  { intros ys wr acc Hy. revert wr acc. induction Hy as [|y ys H _ IH]; intros wr acc; [done|]. cbn [foldl].
    unfold hash_row at 2. cbn [fst snd]. rewrite (solid_row img x0 y (8 * Z.of_nat n) p);
      [|destruct S; lia|lia|lia|lia|intros x Hx; apply P; split; cbn; lia].
    replace (Z.to_nat (8 * Z.of_nat n)) with (8 * n)%nat by lia. rewrite length_repeat_px by done.
    replace (4 * (8 * n) / 32)%nat with n by (replace (4 * (8 * n))%nat with (n * 32)%nat by lia; now rewrite Nat.div_mul).
    rewrite fold_solid, app_nil_r, IH by done. cbn [length Nat.mul]. now rewrite xor_times_add. }
  rewrite F by now apply Forall_seqZ. rewrite length_seqZ. apply Z.even_spec in Ev as [k Ek].
  replace (Z.to_nat h * n)%nat with (Z.to_nat k + Z.to_nat k)%nat by nia. rewrite xor_times_even by done. reflexivity.
Qed.

(** A change of colour may go unseen: the words of a tile are only combined by
    exclusive or, so the hash of a tile of one colour whose pixels make an even
    number of words, as those of a full tile do, does not depend on the colour,
    and [diff] reports no change when the tile turns from one colour to another. *)
Theorem solid_tile_unseen prev next tile tx ty p q n :
  sized next tile -> (width prev, height prev) = (width next, height next) ->
  0 <= tx < grid (width next) tile -> 0 <= ty < grid (height next) tile ->
  solid prev (tile_bbox next tx ty tile) p -> solid next (tile_bbox next tx ty tile) q ->
  bw (tile_bbox next tx ty tile) = 8 * Z.of_nat n -> Z.even (Z.of_nat n * bh (tile_bbox next tx ty tile)) = true ->
  change_at prev next tile (tx, ty) = None.
Proof.
  intros S E X Y P Q N Ev. assert (tile_bbox prev tx ty tile = tile_bbox next tx ty tile) as B
    by (injection E as EW EH; unfold tile_bbox; now rewrite EW, EH).
  assert (sized prev tile) as S' by (injection E as EW EH; destruct S; constructor; rewrite ?EW, ?EH; done).
  unfold change_at, hash_tile. cbn. rewrite (solid_stream next tile tx ty q n) by done.
  rewrite <- B in *. injection E as EW EH. rewrite (solid_stream prev tile tx ty p n) by (rewrite ?EW, ?EH; done).
  now rewrite Z.eqb_refl.
Qed.

End Hash.

(** ** Recognised text, [ocr.rs] *)

Record TextRegion := mkRegion { tr_bbox : Bbox; tr_text : string; tr_confidence : f32 }.
Abbreviation tile_key := (Z * Z * Z)%type.
(** The cache by tile and hash, with the order of insertion. *)
Record OcrCache := mkCache { by_tile : gmap tile_key (list TextRegion); order : list tile_key; cache_cap : nat }.
Definition cache_new (cap : nat) : OcrCache := mkCache ∅ [] cap.

Class OcrBackend := recognize : DecodedImage -> Bbox -> result (list TextRegion) VisionError.
(** The backend of hosts without text recognition. *)
Definition NoopOcr : OcrBackend := fun _ _ => Ok [].

(** The loop that drops the oldest keys. *)
Fixpoint evict (cap : nat) (m : gmap tile_key (list TextRegion)) (o : list tile_key) : gmap tile_key (list TextRegion) * list tile_key :=
  match o with
  | [] => (m, [])
  | old :: o' => if (cap <? length o)%nat then evict cap (delete old m) o' else (m, o)
  end.
Definition cache_insert (c : OcrCache) (key : tile_key) (regions : list TextRegion) : OcrCache :=
  let '(m, o) := evict (cache_cap c) (<[key := regions]> (by_tile c)) (order c ++ [key]) in mkCache m o (cache_cap c).
Definition snapshot_regions (c : OcrCache) (region : option Bbox) : list TextRegion :=
  List.filter (fun r => match region with Some f => intersects (tr_bbox r) f | None => true end)
    (map_to_list (by_tile c) ≫= snd).

(** The map and the order hold the same keys, each once, and no more than the cap. *)
Record cache_ok (c : OcrCache) : Prop := {
  co_nodup : NoDup (order c);
  co_keys : forall k, is_Some (by_tile c !! k) <-> k ∈ order c;
  co_cap : (length (order c) <= cache_cap c)%nat
}.
Lemma evict_ok cap o : forall m, NoDup o -> (forall k, is_Some (m !! k) <-> k ∈ o) ->
  cache_ok (mkCache (fst (evict cap m o)) (snd (evict cap m o)) cap).
Proof.
  induction o as [|old o IH]; intros m N K; [constructor; cbn; [done|done|lia]|]. cbn [evict].
  destruct (Nat.ltb_spec cap (length (old :: o))) as [L|L]; [|constructor; cbn; [done|done|cbn in L; lia]].
  apply NoDup_cons in N as [N1 N2]. apply IH; [done|]. intros k. destruct (decide (k = old)) as [->|Hk].
  - rewrite lookup_delete_eq. split; [now intros [? [=]]|done].
  - rewrite lookup_delete_ne, K, elem_of_cons by done. intuition congruence.
Qed.
Lemma cache_insert_ok c key regions : cache_ok c -> by_tile c !! key = None -> cache_ok (cache_insert c key regions).
Proof.
  intros [N K L] Hk. unfold cache_insert. pose proof (evict_ok (cache_cap c) (order c ++ [key]) (<[key := regions]> (by_tile c))) as E.
  destruct (evict _ _ _) as [m o]. apply E.
  - apply NoDup_app. split; [done|]. split; [|apply NoDup_singleton]. intros k H ->%list_elem_of_singleton. apply K in H as [? H]. congruence.
  - intros k. rewrite elem_of_app, list_elem_of_singleton, <- K. destruct (decide (k = key)) as [->|H].
    + rewrite lookup_insert_eq. split; eauto.
    + rewrite lookup_insert_ne by done. intuition congruence.
Qed.

Section Ocr.
Context `{Backend : OcrBackend}.
Fixpoint recognize_tiles (c : OcrCache) (image : DecodedImage) (cs : list TileChange) : OcrCache * result (list TextRegion) VisionError :=
  match cs with
  | [] => (c, Ok [])
  | ch :: cs =>
      let key := (tile_x ch, tile_y ch, next_hash ch) in
      match by_tile c !! key with
      | Some cached =>
          let '(c, r) := recognize_tiles c image cs in (c, match r with Ok rest => Ok (cached ++ rest) | Err e => Err e end)
      | None =>
          match recognize image (tc_bbox ch) with
          | Err e => (c, Err e)
          | Ok regions =>
              let '(c, r) := recognize_tiles (cache_insert c key regions) image cs in
              (c, match r with Ok rest => Ok (regions ++ rest) | Err e => Err e end)
          end
      end
  end.
Lemma recognize_errors c image cs : match snd (recognize_tiles c image cs) with
  | Err e => exists b, recognize image b = Err e
  | Ok _ => True
  end.
Proof.
  revert c. induction cs as [|ch cs IH]; intros c; [done|]. cbn. destruct (by_tile c !! _) as [cached|].
  - specialize (IH c). destruct (recognize_tiles c image cs) as [c' [r|e]]; [done|exact IH].
  - destruct (recognize image (tc_bbox ch)) as [regions|e] eqn:R; [|now exists (tc_bbox ch)].
    specialize (IH (cache_insert c (tile_x ch, tile_y ch, next_hash ch) regions)).
    destruct (recognize_tiles _ image cs) as [c' [r|e]]; [done|exact IH].
Qed.
Lemma recognize_cache_ok c image cs : cache_ok c -> cache_ok (fst (recognize_tiles c image cs)).
Proof.
  revert c. induction cs as [|ch cs IH]; intros c C; [done|]. cbn. destruct (by_tile c !! _) as [cached|] eqn:K.
  - specialize (IH c C). now destruct (recognize_tiles c image cs).
  - destruct (recognize image (tc_bbox ch)) as [regions|e]; [|done].
    specialize (IH _ (cache_insert_ok _ _ regions C K)). now destruct (recognize_tiles _ image cs).
Qed.
End Ocr.

(** ** The pipeline, [api.rs] *)

Definition STABILITY_WINDOW : nat := 8.
Definition CHANGES_HISTORY : nat := 64.
(** A frame: sequence number, time of capture, page scale, decoded image. *)
Record Frame := mkFrame { f_seq : Z; f_captured_us : Z; page_scale_factor : f64; decoded : option DecodedImage }.
Record PipelineState := mkState {
  last_dims : option (Z * Z); last_hashes : option (list Z); stability_window : list (Z * Z * Z * Z);
  changes_history : list (Z * Z * list TileChange); decoded_history : list (Z * DecodedImage);
  ocr : OcrCache; last_frame : option Frame
}.
Definition pipeline_new : PipelineState := mkState None None [] [] [] (cache_new 256) None.

Inductive StabilityState : Type := Loading | Settling | Stable.
Definition from_score (score : f32) : StabilityState :=
  if f32_le (f32_dec 95 2) score then Stable else if f32_le (f32_dec 8 1) score then Settling else Loading.
Record PipelineTick := mkTick {
  tk_seq : Z; changed_tiles : list TileChange; ocr_delta : list TextRegion; stability : f32; tk_state : StabilityState
}.
Record StabilityReport := mkReport { sr_seq : Z; sr_score : f32; sr_state : StabilityState; window_frames : Z }.

(** [push_back], then [pop_front] while there are too many. *)
Fixpoint pop_to {A} (n : nat) (l : list A) : list A :=
  match l with [] => [] | x :: l' => if (n <? length l)%nat then pop_to n l' else l end.
Definition push_bounded {A} (n : nat) (l : list A) (x : A) : list A := pop_to n (l ++ [x]).
Definition window_sums (w : list (Z * Z * Z * Z)) : Z * Z :=
  foldl (fun '(a, b) '(_, _, c, t) => (a + c, b + t)) (0, 0) w.
Definition window_score (w : list (Z * Z * Z * Z)) : f32 :=
  let '(sum_changed, sum_total) := window_sums w in
  if sum_total =? 0 then f32_of_Z 1
  else f32_sub (f32_of_Z 1) (f32_clamp (f32_of_Z 0) (f32_of_Z 1) (f32_div (f32_of_Z sum_changed) (f32_of_Z sum_total))).

Section Pipeline.
Context `{Xx : XxHash64} `{Backend : OcrBackend}.

(** The differences to the last frame, the number of tiles and the hashes. *)
Definition tick_diff (s : PipelineState) (img : DecodedImage) : result (list TileChange * Z * list Z) VisionError :=
  let fresh :=
    match compute_hash_grid img DEFAULT_TILE_SIZE with
    | Err e => Err e
    | Ok hs => Ok ([], u32 (grid (width img) DEFAULT_TILE_SIZE * grid (height img) DEFAULT_TILE_SIZE), hs)
    end in
  match last_dims s, last_hashes s with
  | Some dims, Some prev =>
      if bool_decide (dims = (width img, height img)) then
        match diff img prev dims DEFAULT_TILE_SIZE with
        | Err e => Err e
        | Ok res => Ok (changes res, u32 (grid_w res * grid_h res), hashes res)
        end
      else fresh
  | _, _ => fresh
  end.
Definition full_frame (img : DecodedImage) : TileChange := mkChange 0 0 (mkBbox 0 0 (width img) (height img)) 0 0.
Definition tick (s : PipelineState) (frame : Frame) : PipelineState * result PipelineTick VisionError :=
  match decoded frame with
  | None => (s, Err (Other "frame missing decoded image"))
  | Some img =>
      match tick_diff s img with
      | Err e => (s, Err e)
      | Ok (cs, total, hs) =>
          let window := push_bounded STABILITY_WINDOW (stability_window s) (f_seq frame, f_captured_us frame, u32 (Z.of_nat (length cs)), total) in
          let score := window_score window in
          let history := push_bounded CHANGES_HISTORY (changes_history s) (f_seq frame, f_captured_us frame, cs) in
          let images := push_bounded CHANGES_HISTORY (decoded_history s) (f_seq frame, img) in
          let input := match cs with [] => [full_frame img] | _ => cs end in
          let '(cache, r) := recognize_tiles (ocr s) img input in
          let s' := mkState (Some (width img, height img)) (Some hs) window history images cache in
          match r with
          | Err e => (s' (last_frame s), Err e)
          | Ok delta => (s' (Some frame), Ok (mkTick (f_seq frame) cs delta score (from_score score)))
          end
      end
  end.
Definition changed_since (s : PipelineState) (since_ts_us : Z) : list TileChange :=
  changes_history s ≫= fun '(_, ts, ts_changes) => if since_ts_us <? ts then ts_changes else [].
Definition stability_now (s : PipelineState) : StabilityReport :=
  let score := window_score (stability_window s) in
  mkReport (foldl (fun m '(seq, _, _, _) => if m <? seq then seq else m) 0 (stability_window s)) score (from_score score)
    (Z.of_nat (length (stability_window s))).
Definition read_text (s : PipelineState) (region : option Bbox) : list TextRegion := snapshot_regions (ocr s) region.
Definition last_decoded (s : PipelineState) : option DecodedImage := last_frame s ≫= decoded.
Definition last_page_scale (s : PipelineState) : option f64 := option_map page_scale_factor (last_frame s).
Definition ocr_region_at (s : PipelineState) (x y : Z) : option TextRegion :=
  List.find (fun r => (bx (tr_bbox r) <=? x) && (by_ (tr_bbox r) <=? y) && (x <? u32 (bx (tr_bbox r) + bw (tr_bbox r)))
                      && (y <? u32 (by_ (tr_bbox r) + bh (tr_bbox r)))) (snapshot_regions (ocr s) None).
Definition change_window (s : PipelineState) : list (Z * Z * Z * Z) := stability_window s.
Definition decoded_frame_by_seq (s : PipelineState) (seq : Z) : option DecodedImage :=
  option_map snd (List.find (fun f => fst f =? seq) (decoded_history s)).

(** ** The pipeline keeps the last frames *)

(** The specification: every decoded frame with its differences to the one before. *)
Definition changed (prev : option DecodedImage) (img : DecodedImage) : list TileChange :=
  match prev with
  | Some p => if bool_decide ((width p, height p) = (width img, height img))
              then omap (change_at p img DEFAULT_TILE_SIZE)
                     (tiles (grid (width img) DEFAULT_TILE_SIZE) (grid (height img) DEFAULT_TILE_SIZE))
              else []
  | None => []
  end.
Fixpoint frame_log (prev : option DecodedImage) (fs : list Frame) : list (Frame * DecodedImage * list TileChange) :=
  match fs with
  | [] => []
  | f :: fs => match decoded f with
               | Some img => (f, img, changed prev img) :: frame_log (Some img) fs
               | None => frame_log prev fs
               end
  end.
Definition run (s : PipelineState) (fs : list Frame) : PipelineState := foldl (fun s f => fst (tick s f)) s fs.
Definition total_tiles (img : DecodedImage) : Z := grid (width img) DEFAULT_TILE_SIZE * grid (height img) DEFAULT_TILE_SIZE.
Definition all_sized (fs : list Frame) : Prop := Forall (fun f => forall img, decoded f = Some img -> sized img DEFAULT_TILE_SIZE) fs.
Definition last_image (l : list (Frame * DecodedImage * list TileChange)) : option DecodedImage :=
  option_map (fun e => snd (fst e)) (last l).

Record follows (l : list (Frame * DecodedImage * list TileChange)) (s : PipelineState) : Prop := {
  fo_dims : last_dims s = option_map (fun img => (width img, height img)) (last_image l);
  fo_hashes : match last_image l with
              | Some img => sized img DEFAULT_TILE_SIZE /\ exists hs, last_hashes s = Some hs /\ compute_hash_grid img DEFAULT_TILE_SIZE = Ok hs
              | None => last_hashes s = None
              end;
  fo_changes : changes_history s = last_n CHANGES_HISTORY (map (fun '(f, _, cs) => (f_seq f, f_captured_us f, cs)) l);
  fo_images : decoded_history s = last_n CHANGES_HISTORY (map (fun '(f, img, _) => (f_seq f, img)) l);
  fo_window : stability_window s = last_n STABILITY_WINDOW
    (map (fun '(f, img, cs) => (f_seq f, f_captured_us f, Z.of_nat (length cs), total_tiles img)) l)
}.

Lemma pop_to_last {A} n (l : list A) : pop_to n l = last_n n l.
Proof.
  unfold last_n. induction l as [|x l IH]; [done|]. cbn [pop_to]. destruct (Nat.ltb_spec n (length (x :: l))) as [L|L]; cbn [length] in *.
  - replace (S (length l) - n)%nat with (S (length l - n)) by lia. exact IH.
  - now replace (S (length l) - n)%nat with 0%nat by lia.
Qed.
Lemma push_last {A} n (l : list A) x : push_bounded n (last_n n l) x = last_n n (l ++ [x]).
Proof. unfold push_bounded. rewrite pop_to_last. apply last_n_push. Qed.

Lemma total_exact img : sized img DEFAULT_TILE_SIZE -> 0 <= total_tiles img < 2 ^ 32.
Proof.
  intros [T W H G]. unfold total_tiles. rewrite !grid_exact by lia. split; [|done]. apply Z.mul_nonneg_nonneg; apply Z.div_pos; lia.
Qed.
Lemma length_omap {A B} (f : A -> option B) l : (length (omap f l) <= length l)%nat.
Proof. induction l as [|x l IH]; cbn; [lia|]. destruct (f x); cbn; lia. Qed.
Lemma changed_count prev img : sized img DEFAULT_TILE_SIZE -> Z.of_nat (length (changed prev img)) <= total_tiles img.
Proof.
  intros S. pose proof (total_exact img S) as B. destruct S as [T W H G]. destruct prev as [p|]; cbn; [|lia]. case_bool_decide; cbn; [|lia].
  etrans; [apply inj_le, length_omap|]. unfold total_tiles in *. rewrite length_tiles; [lia| |]; rewrite grid_exact by lia; apply Z.div_pos; lia.
Qed.

Lemma tick_diff_spec l s img : follows l s -> sized img DEFAULT_TILE_SIZE -> exists hs,
  compute_hash_grid img DEFAULT_TILE_SIZE = Ok hs /\ tick_diff s img = Ok (changed (last_image l) img, total_tiles img, hs).
Proof.
  intros F S. pose proof (hash_grid_spec img _ S) as HN. eexists. split; [exact HN|]. unfold tick_diff.
  rewrite (fo_dims _ _ F), HN. pose proof (fo_hashes _ _ F) as Fh. destruct (last_image l) as [p|]; cbn.
  - destruct Fh as (Sp & hp & -> & HP). case_bool_decide as E.
    + destruct (diff_spec p img DEFAULT_TILE_SIZE S E) as (hp' & hn & HP' & HN' & D). rewrite HP in HP'. injection HP' as <-.
      rewrite D. cbn. rewrite HN in HN'. injection HN' as <-. now rewrite u32_id by now apply total_exact.
    + now rewrite u32_id by now apply total_exact.
  - now rewrite u32_id by now apply total_exact.
Qed.
Lemma last_image_snoc l f img cs : last_image (l ++ [(f, img, cs)]) = Some img.
Proof. unfold last_image. now rewrite last_snoc. Qed.
Lemma tick_follows l s f img : follows l s -> decoded f = Some img -> sized img DEFAULT_TILE_SIZE ->
  follows (l ++ [(f, img, changed (last_image l) img)]) (fst (tick s f)) /\
  match snd (tick s f) with
  | Ok t => changed_tiles t = changed (last_image l) img /\ tk_seq t = f_seq f
  | Err e => exists b, recognize img b = Err e
  end.
Proof.
  intros F D S. destruct (tick_diff_spec l s img F S) as (hs & HN & T). unfold tick. rewrite D, T.
  rewrite (fo_changes _ _ F), (fo_images _ _ F), (fo_window _ _ F), !push_last.
  rewrite u32_id by (pose proof (changed_count (last_image l) img S); pose proof (total_exact img S); lia).
  set (cs := changed (last_image l) img). set (input := match cs with [] => _ | _ => _ end).
  pose proof (recognize_errors (ocr s) img input) as RE. destruct (recognize_tiles (ocr s) img input) as [cache r]. cbn in RE.
  assert (forall lf, follows (l ++ [(f, img, cs)]) (mkState (Some (width img, height img)) (Some hs)
    (last_n STABILITY_WINDOW (map (fun '(f, img, cs) => (f_seq f, f_captured_us f, Z.of_nat (length cs), total_tiles img)) l
       ++ [(f_seq f, f_captured_us f, Z.of_nat (length cs), total_tiles img)]))
    (last_n CHANGES_HISTORY (map (fun '(f, _, cs) => (f_seq f, f_captured_us f, cs)) l ++ [(f_seq f, f_captured_us f, cs)]))
    (last_n CHANGES_HISTORY (map (fun '(f, img, _) => (f_seq f, img)) l ++ [(f_seq f, img)])) cache lf)) as R.
  { intros lf. constructor; cbn; rewrite ?last_image_snoc, ?map_app; cbn; eauto. }
  destruct r as [delta|e]; cbn; split; eauto.
Qed.
Lemma tick_cache s f : cache_ok (ocr s) -> cache_ok (ocr (fst (tick s f))).
Proof.
  intros C. unfold tick. destruct (decoded f) as [img|]; [|done]. destruct (tick_diff s img) as [[[cs n] hs]|e]; [|done].
  pose proof (recognize_cache_ok (ocr s) img (match cs with [] => [full_frame img] | _ => cs end) C) as R.
  destruct (recognize_tiles _ _ _) as [cache [delta|e]]; exact R.
Qed.
Lemma frame_log_snoc prev fs f : frame_log prev (fs ++ [f]) = frame_log prev fs ++
  match decoded f with
  | Some img => [(f, img, changed (match last_image (frame_log prev fs) with Some i => Some i | None => prev end) img)]
  | None => []
  end.
Proof.
  revert prev. induction fs as [|g fs IH]; intros prev; cbn; [now destruct (decoded f)|].
  destruct (decoded g) as [img|]; [|apply IH]. cbn. f_equal. rewrite IH. f_equal. destruct (decoded f) as [img'|]; [|done].
  do 3 f_equal. unfold last_image. destruct (frame_log (Some img) fs) as [|e l] using rev_ind; [done|]. now rewrite app_comm_cons, !last_snoc.
Qed.

Lemma recognize_cap c image cs : cache_cap (fst (recognize_tiles c image cs)) = cache_cap c.
Proof.
  revert c. induction cs as [|ch cs IH]; intros c; [done|]. cbn. destruct (by_tile c !! _) as [cached|].
  - specialize (IH c). now destruct (recognize_tiles c image cs).
  - destruct (recognize image (tc_bbox ch)) as [regions|e]; [|done].
    specialize (IH (cache_insert c (tile_x ch, tile_y ch, next_hash ch) regions)). destruct (recognize_tiles _ image cs). cbn in *.
    rewrite IH. unfold cache_insert. now destruct (evict _ _ _).
Qed.
Lemma run_cap fs : cache_cap (ocr (run pipeline_new fs)) = 256%nat.
Proof.
  unfold run. induction fs as [|f fs IH] using rev_ind; [done|]. rewrite foldl_app. cbn. rewrite <- IH. unfold tick.
  destruct (decoded f) as [img|]; [|done]. destruct (tick_diff _ img) as [[[cs n] hs]|e]; [|done].
  pose proof (recognize_cap (ocr (foldl (fun s f => fst (tick s f)) pipeline_new fs)) img (match cs with [] => [full_frame img] | _ => cs end)) as R.
  destruct (recognize_tiles _ _ _) as [cache [delta|e]]; exact R.
Qed.
Lemma run_follows fs : all_sized fs -> follows (frame_log None fs) (run pipeline_new fs) /\ cache_ok (ocr (run pipeline_new fs)).
Proof.
  unfold run. induction fs as [|f fs IH] using rev_ind; intros A.
  - split; [constructor; done|]. constructor; cbn; [constructor| |lia]. intros k. rewrite lookup_empty, elem_of_nil. split; [now intros [? [=]]|done].
  - apply Forall_app in A as [A A1]. apply Forall_cons in A1 as [A1 _]. destruct (IH A) as [F C]. rewrite foldl_app. cbn.
    split; [|now apply tick_cache]. rewrite frame_log_snoc. destruct (decoded f) as [img|] eqn:D.
    + replace (match last_image (frame_log None fs) with Some i => Some i | None => None end) with (last_image (frame_log None fs))
        by now destruct (last_image _). now apply tick_follows; [|done|apply A1].
    + rewrite app_nil_r. unfold tick. now rewrite D.
Qed.


End Pipeline.
End Vision.

Module VisionExamples.
Import Vision.

(** A hash and a recogniser that reads the first pixel of the box. *)
#[export] Instance poly_hash : XxHash64 := foldl (fun h b => (h * 31 + b + 1) mod 2 ^ 64) 7.
#[export] Instance toy_ocr : OcrBackend := fun img b =>
  match pixel img (bx b) (by_ b) with
  | r :: _ => if r =? 9 then Ok [mkRegion b "Sign in" (f32_of_Z 1)] else Ok []
  | [] => Err (Ocr "empty box")
  end.

(** A frame of 8 by 2 pixels, of one colour but for its first pixel. *)
Definition px (r : Z) : list Z := [r; 0; 0; 255].
Definition frame8 (first rest : Z) : DecodedImage := mkImage 8 2 (px first ++ repeat_px 15 (px rest)) 0.
Definition at_time (t : Z) (img : DecodedImage) : Frame := mkFrame t (t * 1000) (f64_of_Z 1) (Some img).
Lemma frame8_sized a b tile : 0 < tile <= 64 -> sized (frame8 a b) tile.
Proof.
  intros T. constructor; cbn; [lia|lia|lia|]. assert ((8 + tile - 1) / tile <= 8 + tile - 1) by (apply Z.div_le_upper_bound; nia).
  assert ((2 + tile - 1) / tile <= 2 + tile - 1) by (apply Z.div_le_upper_bound; nia).
  assert (0 <= (8 + tile - 1) / tile) by (apply Z.div_pos; lia). assert (0 <= (2 + tile - 1) / tile) by (apply Z.div_pos; lia). nia.
Qed.
Lemma frame8_solid a : solid (frame8 a a) (tile_bbox (frame8 a a) 0 0 8) (px a).
Proof.
  split; [done|]. intros x y. change (tile_bbox (frame8 a a) 0 0 8) with (mkBbox 0 0 8 2). intros [X Y]. cbn in X, Y.
  unfold pixel. cbn [width rgba frame8].
  assert (Z.to_nat (y * (8 * 4) + x * 4) = 4 * Z.to_nat (8 * y + x))%nat as -> by lia.
  assert (Z.to_nat (8 * y + x) < 16)%nat as L by lia. revert L. generalize (Z.to_nat (8 * y + x)). intros n L.
  do 16 (destruct n as [|n]; [reflexivity|]). lia.
Qed.

Lemma diff_reports_tiles_witness : exists hp res, compute_hash_grid (frame8 1 1) 4 = Ok hp /\
  diff (frame8 2 1) hp (8, 2) 4 = Ok res /\ map tile_x (changes res) = [0].
Proof.
  destruct (diff_reports_tiles (frame8 1 1) (frame8 2 1) 4 (frame8_sized 2 1 4 ltac:(lia)) eq_refl) as (hp & res & HP & D & _).
  exists hp, res. split; [exact HP|]. split; [exact D|].
  assert (match compute_hash_grid (frame8 1 1) 4 with Ok h => match diff (frame8 2 1) h (8, 2) 4 with
    Ok r => Some (map tile_x (changes r)) | Err _ => None end | Err _ => None end = Some [0]) as E by (vm_compute; reflexivity).
  rewrite HP in E. change (8, 2) with (width (frame8 1 1), height (frame8 1 1)) in E. rewrite D in E. now injection E.
Defined.
Lemma solid_tile_unseen_witness : change_at (frame8 1 1) (frame8 2 2) 8 (0, 0) = None.
Proof.
  refine (solid_tile_unseen (frame8 1 1) (frame8 2 2) 8 0 0 (px 1) (px 2) 1 (frame8_sized 2 2 8 ltac:(lia)) eq_refl _ _
    (frame8_solid 1) (frame8_solid 2) eq_refl eq_refl); vm_compute; split; discriminate || reflexivity.
Defined.

(** A full tile of 64 by 64 pixels that turns from black to white hashes the same. *)
Example full_tile_unseen :
  let img c := mkImage 64 64 (repeat_px (Z.to_nat 4096) [c; c; c; 255]) 0 in
  hash_tile (img 0) 0 0 64 = hash_tile (img 255) 0 0 64.
Proof. vm_compute. reflexivity. Qed.
(** Text that has left the page is still found. *)
Example text_outlives_page :
  map tr_text (read_text (run pipeline_new [at_time 1 (frame8 9 1); at_time 2 (frame8 1 1)]) None) = ["Sign in"].
Proof. vm_compute. reflexivity. Qed.
(** A frame without changes is answered with the text of the first frame. *)
Example unchanged_frame_reads_first :
  match snd (tick (run pipeline_new [at_time 1 (frame8 9 1); at_time 2 (frame8 1 1)]) (at_time 3 (frame8 1 1))) with
  | Ok t => map tr_text (ocr_delta t) = ["Sign in"]
  | Err _ => False
  end.
Proof. vm_compute. reflexivity. Qed.

End VisionExamples.
