(* ===== verification/VisionAnalysis.v ===== *)
(** * VisionAnalysis: what the vision tools read off a frame

    Models [pixel.rs], [layout.rs], [scrollbar.rs], [icon.rs], [overlay.rs],
    [text_style.rs], [loading.rs], [semantic_diff.rs], [animation.rs], [palette.rs]
    and [region_classify.rs] of the vision crate over the frames and the pipeline of [Vision] and the ring of
    [FrameRing].  The language model that judges a frame is a parameter. *)
From S2P Require Import Prelude Text F64 FrameRing Input Vision.
From Stdlib Require Import SpecFloat Sorting.Mergesort Orders.
From stdpp Require Import list_numbers.
#[local] Open Scope Z_scope.
Import Vision.

Module VisionAnalysis.

Definition outside : VisionError := Other "region outside frame".
(** The byte at an offset, when there is one. *)
Definition byte_at (img : DecodedImage) (off : Z) : Z := nth (Z.to_nat off) (rgba img) 0.
Definition byte_len (img : DecodedImage) : Z := Z.of_nat (length (rgba img)).
Definition pixel_off (img : DecodedImage) (x y : Z) : Z := y * (width img * 4) + x * 4.
(** The luma of a pixel. *)
Definition luma (r g b : Z) : Z := (30 * r + 50 * g + 20 * b) / 100.
Definition luma_at (img : DecodedImage) (off : Z) : Z := luma (byte_at img off) (byte_at img (off + 1)) (byte_at img (off + 2)).
Definition whole (img : DecodedImage) : Bbox := mkBbox 0 0 (width img) (height img).

(** ** One pixel, [pixel.rs] *)

Record PixelRgba := mkPixel { p_r : Z; p_g : Z; p_b : Z; p_a : Z; p_display : Z }.
Definition pixel_at (s : PipelineState) (x y : Z) : result PixelRgba VisionError :=
  match last_decoded s with
  | None => Err NotEnabled
  | Some frame =>
      let scale := sanitize_scale (f64_div (f64_of_Z (width frame)) (f64_of_Z (Z.max (width frame) 1))) in
      let scale := sanitize_scale (default scale (last_page_scale s)) in
      let dx := f64_round_u32 (f64_mul (f64_of_Z x) scale) in
      let dy := f64_round_u32 (f64_mul (f64_of_Z y) scale) in
      if (width frame <=? dx) || (height frame <=? dy) then Err (Other "pixel out of bounds")
      else
        let idx := (dy * width frame + dx) * 4 in
        if byte_len frame <? idx + 4 then Err (Other "rgba buffer truncated")
        else Ok (mkPixel (byte_at frame idx) (byte_at frame (idx + 1)) (byte_at frame (idx + 2)) (byte_at frame (idx + 3))
                   DEFAULT_DISPLAY_ID)
  end.

(** ** Layout, [layout.rs] *)

Inductive SegmentKind : Type := Page | Row | Column | Card.
Inductive LayoutSegment : Type := Segment (kind : SegmentKind) (bbox : Bbox) (display_id : Z) (children : list LayoutSegment).
Definition DOWNSAMPLE : Z := 4.
Definition ROW_GAP_MIN : Z := 8.
Definition COL_GAP_MIN : Z := 8.
Definition EDGE_THRESHOLD : Z := 24.

Definition sobel_at (img : DecodedImage) (x y : Z) : Z :=
  let g x y := let off := pixel_off img x y + 1 in if byte_len img <=? off then 0 else byte_at img off in
  let gx := - g (x - 1) (y - 1) - 2 * g (x - 1) y - g (x - 1) (y + 1) + g (x + 1) (y - 1) + 2 * g (x + 1) y + g (x + 1) (y + 1) in
  let gy := - g (x - 1) (y - 1) - 2 * g x (y - 1) - g (x + 1) (y - 1) + g (x - 1) (y + 1) + 2 * g x (y + 1) + g (x + 1) (y + 1) in
  Z.min (sf_to_u32 (f32_sqrt (f32_of_Z (gx * gx + gy * gy)))) 255.
Definition shrunk (n factor : Z) : Z := Z.max (n / factor) 1.
Definition sobel_downsampled (img : DecodedImage) (factor : Z) : list Z :=
  map (fun '(dx, dy) => sobel_at img (Z.max (Z.min (dx * factor) (Z.max 0 (width img - 2))) 1)
                                    (Z.max (Z.min (dy * factor) (Z.max 0 (height img - 2))) 1))
    (tiles (shrunk (width img) factor) (shrunk (height img) factor)).

(** The runs found, the start of the open one and the last filled position. *)
Definition run_step (threshold gap_min : Z) (st : list (Z * Z) * option Z * Z) (iv : Z * Z) : list (Z * Z) * option Z * Z :=
  let '(runs, start, last_filled) := st in
  let '(i, v) := iv in
  if threshold <=? v then (runs, Some (default i start), i)
  else match start with
       | Some s => if gap_min <=? i - last_filled then (runs ++ [(s, last_filled + 1)], None, last_filled) else st
       | None => st
       end.
Definition split_runs (profile : list Z) (threshold gap_min : Z) : list (Z * Z) :=
  let '(runs, start, _) := foldl (run_step threshold gap_min) ([], None, 0) (zip (seqZ 0 (Z.of_nat (length profile))) profile) in
  match start with Some s => runs ++ [(s, Z.of_nat (length profile))] | None => runs end.

Definition is_edge (edges : list Z) (dw x y : Z) : bool :=
  let off := u32 (y * dw + x) in (off <? Z.of_nat (length edges)) && (EDGE_THRESHOLD <=? nth (Z.to_nat off) edges 0).
Definition count {A} (f : A -> bool) (l : list A) : Z := Z.of_nat (length (List.filter f l)).
Definition row_profile (edges : list Z) (dw dh : Z) : list Z :=
  map (fun y => count (fun x => is_edge edges dw x y) (seqZ 0 dw)) (seqZ 0 dh).
Definition col_profile (edges : list Z) (dw y0 y1 : Z) : list Z :=
  map (fun x => count (fun y => is_edge edges dw x y) (seqZ y0 (y1 - y0))) (seqZ 0 dw).
Definition row_segment (frame : DecodedImage) (edges : list Z) (dw : Z) (row : Z * Z) : LayoutSegment :=
  let '(y0, y1) := row in
  let cols := split_runs (col_profile edges dw y0 y1) ((y1 - y0) / 8) (COL_GAP_MIN / DOWNSAMPLE) in
  let cards := map (fun '(x0, x1) => Segment Card (mkBbox (x0 * DOWNSAMPLE) (y0 * DOWNSAMPLE) ((x1 - x0) * DOWNSAMPLE)
                                                    ((y1 - y0) * DOWNSAMPLE)) DEFAULT_DISPLAY_ID []) cols in
  Segment (if (length cards <=? 1)%nat then Row else Column)
    (mkBbox 0 (y0 * DOWNSAMPLE) (width frame) ((y1 - y0) * DOWNSAMPLE)) DEFAULT_DISPLAY_ID cards.
Definition segments (s : PipelineState) : result LayoutSegment VisionError :=
  match last_decoded s with
  | None => Err NotEnabled
  | Some frame =>
      let edges := sobel_downsampled frame DOWNSAMPLE in
      let dw := shrunk (width frame) DOWNSAMPLE in
      let dh := shrunk (height frame) DOWNSAMPLE in
      let rows := split_runs (row_profile edges dw dh) (dw / 8) (ROW_GAP_MIN / DOWNSAMPLE) in
      Ok (Segment Page (whole frame) DEFAULT_DISPLAY_ID (map (row_segment frame edges dw) rows))
  end.

(** ** The scroll bar, [scrollbar.rs] *)

Definition STRIP_WIDTH : Z := 16.
Definition THUMB_DELTA : Z := 30.
Record ScrollbarPosition := mkScroll { present : bool; position : f32; thumb_bbox : option Bbox; sb_display : Z }.
Definition no_scrollbar : ScrollbarPosition := mkScroll false (f32_of_Z 0) None DEFAULT_DISPLAY_ID.

Module ZOrder <: TotalLeBool.
Definition t := Z.
Definition leb := Z.leb.
Lemma leb_total x y : leb x y = true \/ leb y x = true.
Proof. unfold leb. rewrite !Z.leb_le. lia. Qed.
End ZOrder.
Module ZSort := Sort ZOrder.

Definition row_luma (img : DecodedImage) (x0 x1 y : Z) : Z :=
  let ls := map (luma_at img) (List.filter (fun off => off + 2 <? byte_len img) (map (fun x => pixel_off img x y) (seqZ x0 (x1 - x0)))) in
  if (length ls =? 0)%nat then 0 else foldl Z.add 0 ls / Z.of_nat (length ls).
Definition better (best : option (Z * Z)) (len : Z) : bool := match best with Some (_, l) => l <? len | None => true end.
(** The longest run so far and the start of the open one. *)
Definition thumb_step (diverges : Z -> bool) (st : option (Z * Z) * option Z) (iv : Z * Z) : option (Z * Z) * option Z :=
  let '(best, start) := st in
  let '(i, v) := iv in
  if diverges v then (best, Some (default i start))
  else match start with
       | Some s => (if better best (i - s) then Some (s, i - s) else best, None)
       | None => st
       end.
Definition longest_run (diverges : Z -> bool) (l : list Z) : option (Z * Z) :=
  let '(best, start) := foldl (thumb_step diverges) (None, None) (zip (seqZ 0 (Z.of_nat (length l))) l) in
  match start with
  | Some s => if better best (Z.of_nat (length l) - s) then Some (s, Z.of_nat (length l) - s) else best
  | None => best
  end.
(** The brightness of the rows of the strip at the right edge, and whether one
    is away from their median. *)
Definition strip_rows (frame : DecodedImage) (rect : Bbox) : list Z :=
  map (fun dy => row_luma frame (bx rect + bw rect - STRIP_WIDTH) (bx rect + bw rect) (by_ rect + dy)) (seqZ 0 (bh rect)).
Definition off_baseline (rows : list Z) (v : Z) : bool := THUMB_DELTA <? Z.abs (v - nth (length rows / 2) (ZSort.sort rows) 0).
Definition scrollbar_position (s : PipelineState) (region : option Bbox) : result ScrollbarPosition VisionError :=
  match last_decoded s with
  | None => Err NotEnabled
  | Some frame =>
      match clamp_to_image (default (whole frame) region) (width frame) (height frame) with
      | None => Err outside
      | Some rect =>
          if (bw rect <? STRIP_WIDTH) || (bh rect <? 8) then Ok no_scrollbar
          else
            let x0 := bx rect + bw rect - STRIP_WIDTH in
            let rows := strip_rows frame rect in
            match longest_run (off_baseline rows) rows with
            | None => Ok no_scrollbar
            | Some (top, h) =>
                if (h <? 4) || (bh rect <=? h) then Ok no_scrollbar
                else Ok (mkScroll true
                       (f32_clamp (f32_of_Z 0) (f32_of_Z 1) (f32_div (f32_of_Z top) (f32_of_Z (Z.max (bh rect - h) 1))))
                       (Some (mkBbox x0 (by_ rect + top) STRIP_WIDTH h)) DEFAULT_DISPLAY_ID)
            end
      end
  end.

(** ** Icons, [icon.rs] *)

Definition ICON_DIM : Z := 16.
Definition LOCAL_HAM_MAX : Z := 32.
Record IconRecognition := mkIcon { label : string; icon_confidence : f32; icon_display : Z }.
(** Four words of 64 bits, from 256 brightness values compared with their mean. *)
Definition word_of (bits : list bool) : Z := foldr (fun (b : bool) w => (if b then 1 else 0) + 2 * w) 0 bits.
Definition threshold_words (grid : list Z) (sum : Z) : list Z :=
  let mean := sum / (ICON_DIM * ICON_DIM) in
  let bits := map (fun v => mean <=? v) grid in
  map (fun i => word_of (take 64 (drop (64 * i) bits))) (seq 0 4).
Definition icon_cells : list (Z * Z) := tiles ICON_DIM ICON_DIM.
Definition compute_signature (img : DecodedImage) (region : Bbox) : list Z :=
  let cells := map (fun '(cx, cy) =>
    let off := pixel_off img (bx region + cx * bw region / ICON_DIM) (by_ region + cy * bh region / ICON_DIM) in
    if off + 2 <? byte_len img then luma_at img off else 0) icon_cells in
  threshold_words (map (fun l => Z.min l 255) cells) (foldl Z.add 0 cells).
Fixpoint pos_ones (p : positive) : Z := match p with xH => 1 | xO p => pos_ones p | xI p => 1 + pos_ones p end.
Definition count_ones (z : Z) : Z := match z with Zpos p => pos_ones p | _ => 0 end.
Definition hamming (a b : list Z) : Z := foldl Z.add 0 (zip_with (fun x y => count_ones (Z.lxor x y)) a b).
Definition make_signature (painter : Z -> Z -> bool) : list Z :=
  let cells := map (fun '(x, y) => if painter x y then 0 else 255) icon_cells in threshold_words cells (foldl Z.add 0 cells).

Definition between (lo hi x : Z) : bool := (lo <=? x) && (x <=? hi).
Definition close_glyph (x y : Z) : bool := (x =? y) || (x + y =? ICON_DIM - 1).
Definition check_glyph (x y : Z) : bool := ((2 <=? x) && (x <? 7) && (y =? x + 5)) || ((6 <=? x) && (x <? 14) && (y =? 14 - x)).
Definition search_glyph (x y : Z) : bool := ((x - 6) ^ 2 + (y - 6) ^ 2 =? 16) || (between 11 14 x && (y =? x + 1)).
Definition menu_glyph (_ y : Z) : bool := (y =? 3) || (y =? 8) || (y =? 12).
Definition arrow_right_glyph (x y : Z) : bool :=
  ((y =? 8) && between 2 13 x) || (between 9 13 x && (Z.abs (y - 8) =? Z.abs (x - 13))).
Definition arrow_down_glyph (x y : Z) : bool :=
  ((x =? 8) && between 2 13 y) || (between 9 13 y && (Z.abs (x - 8) =? Z.abs (y - 13))).
Definition plus_glyph (x y : Z) : bool := ((x =? 8) && between 2 13 y) || ((y =? 8) && between 2 13 x).
Definition minus_glyph (_ y : Z) : bool := y =? 8.
Definition gear_glyph (x y : Z) : bool :=
  let r2 := (x - 8) ^ 2 + (y - 8) ^ 2 in (r2 =? 16) || (r2 =? 25) || (r2 =? 36).
Definition LIBRARY : list (string * list Z) :=
  [("close", make_signature close_glyph); ("check", make_signature check_glyph); ("search", make_signature search_glyph);
   ("menu", make_signature menu_glyph); ("arrow_right", make_signature arrow_right_glyph);
   ("arrow_down", make_signature arrow_down_glyph); ("plus", make_signature plus_glyph);
   ("minus", make_signature minus_glyph); ("gear", make_signature gear_glyph)].
Definition nearest (sig : list Z) : string * Z :=
  foldl (fun best '(l, r) => let d := hamming sig r in if d <? snd best then (l, d) else best) ("unknown", 2 ^ 32 - 1) LIBRARY.
Definition recognized (best : string * Z) : IconRecognition :=
  let confidence := if LOCAL_HAM_MAX <? snd best then f32_of_Z 0
                    else f32_sub (f32_of_Z 1) (f32_div (f32_of_Z (snd best)) (f32_of_Z (ICON_DIM * ICON_DIM))) in
  mkIcon (if f32_lt (f32_of_Z 0) confidence then fst best else "unknown") confidence DEFAULT_DISPLAY_ID.
Definition recognize_icon (s : PipelineState) (region : Bbox) : result IconRecognition VisionError :=
  match last_decoded s with
  | None => Err NotEnabled
  | Some frame =>
      match clamp_to_image region (width frame) (height frame) with
      | None => Err outside
      | Some region => Ok (recognized (nearest (compute_signature frame region)))
      end
  end.

(** ** Tooltips and dialogs, [overlay.rs] *)

Definition TOOLTIP_MAX_PX : Z := 320.
Definition MODAL_AREA_RATIO : f32 := f32_dec 45 2.
Record OverlayDetection := mkOverlay { ov_present : bool; ov_bbox : option Bbox; ov_display : Z }.
Definition no_overlay : OverlayDetection := mkOverlay false None DEFAULT_DISPLAY_ID.
Definition union_step (u : Z * Z * Z * Z) (c : TileChange) : Z * Z * Z * Z :=
  let '(x0, y0, x1, y1) := u in
  let b := tc_bbox c in
  (Z.min x0 (bx b), Z.min y0 (by_ b), Z.max x1 (u32 (bx b + bw b)), Z.max y1 (u32 (by_ b + bh b))).
Definition tooltip (s : PipelineState) : result OverlayDetection VisionError :=
  match last_decoded s with
  | None => Err NotEnabled
  | Some frame =>
      match changed_since s (Z.max 0 (captured_us frame - 250000)) with
      | [] => Ok no_overlay
      | recent =>
          let '(x0, y0, x1, y1) := foldl union_step (2 ^ 32 - 1, 2 ^ 32 - 1, 0, 0) recent in
          if (x1 <=? x0) || (y1 <=? y0) then Ok no_overlay
          else if (TOOLTIP_MAX_PX <? x1 - x0) || (TOOLTIP_MAX_PX <? y1 - y0) then Ok no_overlay
          else Ok (mkOverlay true (Some (mkBbox x0 y0 (x1 - x0) (y1 - y0))) DEFAULT_DISPLAY_ID)
      end
  end.

(** [chunks_exact(4)] *)
Fixpoint pixels (n : nat) (l : list Z) : list (list Z) := match n with O => [] | S n => take 4 l :: pixels n (drop 4 l) end.
Definition px_luma (p : list Z) : Z := luma (nth 0 p 0) (nth 1 p 0) (nth 2 p 0).
Definition dim_ratio (img : DecodedImage) : f32 :=
  let ps := pixels (length (rgba img) / 4) (rgba img) in
  if (length ps =? 0)%nat then f32_of_Z 0 else f32_div (f32_of_Z (count (fun p => px_luma p <? 90) ps)) (f32_of_Z (Z.of_nat (length ps))).

(** The luma of a pixel, zero outside the buffer. *)
Definition lum (img : DecodedImage) (x y : Z) : Z :=
  let off := pixel_off img x y in if byte_len img <=? off + 2 then 0 else luma_at img off.
(** The loops that walk from the centre in steps of 8. *)
Fixpoint walk_down (fuel : nat) (bright : Z -> bool) (v : Z) : Z :=
  match fuel with
  | O => v
  | S fuel => if (8 <? v) && bright v then walk_down fuel bright (Z.max 0 (v - 8)) else v
  end.
Fixpoint walk_up (fuel : nat) (bright : Z -> bool) (limit v : Z) : Z :=
  match fuel with
  | O => v
  | S fuel => if (v <? limit) && bright v then walk_up fuel bright limit (u32 (v + 8)) else v
  end.
Definition find_bright_rect (img : DecodedImage) : option Bbox :=
  let cx := width img / 2 in
  let cy := height img / 2 in
  let fuel := S (length (rgba img)) in
  let x0 := walk_down (Z.to_nat cx) (fun x => 180 <? lum img x cy) cx in
  let x1 := walk_up fuel (fun x => 180 <? lum img x cy) (u32 (width img - 8)) cx in
  let y0 := walk_down (Z.to_nat cy) (fun y => 180 <? lum img cx y) cy in
  let y1 := walk_up fuel (fun y => 180 <? lum img cx y) (u32 (height img - 8)) cy in
  if (x0 + 16 <? x1) && (y0 + 16 <? y1) then Some (mkBbox x0 y0 (x1 - x0) (y1 - y0)) else None.
Definition modal (s : PipelineState) : result OverlayDetection VisionError :=
  match last_decoded s with
  | None => Err NotEnabled
  | Some frame =>
      if f32_lt (dim_ratio frame) MODAL_AREA_RATIO then Ok no_overlay
      else Ok (mkOverlay true (Some (default (mkBbox (width frame / 4) (height frame / 4) (width frame / 2) (height frame / 2))
                                       (find_bright_rect frame))) DEFAULT_DISPLAY_ID)
  end.

(** ** Text style, [text_style.rs] *)

Record ColorRgb := mkColor { col_r : Z; col_g : Z; col_b : Z }.
Record TextStyle := mkStyle { ts_text : string; size_css : Z; weight : Z; fg : ColorRgb; bg : ColorRgb; ts_display : Z }.
Definition box_pixels (b : Bbox) : list (Z * Z) := map (fun '(dx, dy) => (bx b + dx, by_ b + dy)) (tiles (bw b) (bh b)).
Definition average (l : list (Z * Z * Z)) : ColorRgb :=
  let n := Z.of_nat (length l) in
  if n =? 0 then mkColor 0 0 0
  else let avg f := Z.min (foldl Z.add 0 (map f l) / n) 255 in mkColor (avg (fun c => fst (fst c))) (avg (fun c => snd (fst c))) (avg snd).
Definition weight_of (stroke_density : f32) : Z :=
  if f32_lt stroke_density (f32_dec 1 1) then 300
  else if f32_lt stroke_density (f32_dec 18 2) then 400
  else if f32_lt stroke_density (f32_dec 24 2) then 600
  else if f32_lt stroke_density (f32_dec 32 2) then 700 else 800.
Definition analyse_pixels (img : DecodedImage) (region : Bbox) : ColorRgb * ColorRgb * Z :=
  let offs := List.filter (fun off => off + 2 <? byte_len img) (map (fun '(x, y) => pixel_off img x y) (box_pixels region)) in
  let colors := map (fun off => (byte_at img off, byte_at img (off + 1), byte_at img (off + 2))) offs in
  let dark := List.filter (fun '(r, g, b) => luma r g b <? 128) colors in
  let light := List.filter (fun '(r, g, b) => negb (luma r g b <? 128)) colors in
  let total := Z.of_nat (length dark) + Z.of_nat (length light) in
  let density := if total =? 0 then f32_of_Z 0 else f32_div (f32_of_Z (Z.of_nat (length dark))) (f32_of_Z total) in
  (average dark, average light, weight_of density).
(** [max_by_key]: the last of the greatest. *)
Definition largest (l : list TextRegion) : option TextRegion :=
  let area r := u32 (bw (tr_bbox r) * bh (tr_bbox r)) in
  foldl (fun best r => match best with Some b => if area r <? area b then Some b else Some r | None => Some r end) None l.
Definition text_style (s : PipelineState) (region : Bbox) : result TextStyle VisionError :=
  match last_decoded s with
  | None => Err NotEnabled
  | Some frame =>
      match clamp_to_image region (width frame) (height frame) with
      | None => Err outside
      | Some region =>
          match largest (read_text s (Some region)) with
          | None => Err (Other "no OCR text in region")
          | Some best =>
              let '(f, b, w) := analyse_pixels frame (tr_bbox best) in
              Ok (mkStyle (tr_text best) (Z.max (bh (tr_bbox best)) 1) w f b DEFAULT_DISPLAY_ID)
          end
      end
  end.

(** ** Loading, [loading.rs] *)

Inductive LoadingState : Type := Idle | Progress | Spinner.
Record LoadingDetection := mkLoading { ld_state : LoadingState; motion_ratio : f32; variance : f32; ld_display : Z; ld_frames : Z }.
Definition f32_sum (l : list f32) : f32 := foldl f32_add (f32_of_Z 0) l.
Definition detect (s : PipelineState) : LoadingDetection :=
  match change_window s with
  | [] => mkLoading Idle (f32_of_Z 0) (f32_of_Z 0) DEFAULT_DISPLAY_ID 0
  | win =>
      let n := Z.of_nat (length win) in
      let ratios := map (fun '(_, _, c, t) => if t =? 0 then f32_of_Z 0
        else f32_clamp (f32_of_Z 0) (f32_of_Z 1) (f32_div (f32_of_Z c) (f32_of_Z t))) win in
      let mean := f32_div (f32_sum ratios) (f32_of_Z n) in
      let var := f32_div (f32_sum (map (fun r => f32_mul (f32_sub r mean) (f32_sub r mean)) ratios)) (f32_of_Z n) in
      let state := if f32_lt mean (f32_dec 5 3) then Idle else if f32_lt var (f32_dec 5 3) then Progress else Spinner in
      mkLoading state mean var DEFAULT_DISPLAY_ID n
  end.

(** ** The meaning of a change, [semantic_diff.rs] *)

Record ActionContext := mkAction { ac_action : string; ac_ref : option string; ac_text : option string; ac_note : option string }.
Record VlmVerdict := mkVerdict { v_confidence : f32; v_concern : option string; v_latency_ms : Z; v_skipped : bool }.
Definition verdict_skipped : VlmVerdict := mkVerdict (f32_of_Z 1) None 0 true.
Class VlmBackend := verify : DecodedImage -> ActionContext -> result VlmVerdict VisionError.
(** The backend when no model is configured. *)
Definition OffBackend : VlmBackend := fun _ _ => Ok verdict_skipped.
Definition pre_action_verify `{VlmBackend} (s : PipelineState) (action : ActionContext) : result VlmVerdict VisionError :=
  match last_decoded s with Some image => verify image action | None => Ok verdict_skipped end.

Inductive SemanticDiffKind : Type := NoOp | KindProgress | Failure | Success.
Record SemanticDiffVerdict := mkSemantic {
  sd_kind : SemanticDiffKind; sd_confidence : f32; sd_concern : option string; sd_display : Z; prev_seq : Z; next_seq : Z
}.
Definition step_by8 (n : Z) : list Z := map (fun i => 8 * i) (seqZ 0 ((n + 7) / 8)).
Definition pixel_churn (a b : DecodedImage) : f32 :=
  let points := List.filter (fun '(oa, ob) => (oa + 2 <? byte_len a) && (ob + 2 <? byte_len b))
    (step_by8 (height a) ≫= fun y => map (fun x => (pixel_off a x y, pixel_off b x y)) (step_by8 (width a))) in
  let differs '(oa, ob) := 30 <? Z.abs (byte_at a oa - byte_at b ob) + Z.abs (byte_at a (oa + 1) - byte_at b (ob + 1))
                                 + Z.abs (byte_at a (oa + 2) - byte_at b (ob + 2)) in
  if (length points =? 0)%nat then f32_of_Z 0 else f32_div (f32_of_Z (count differs points)) (f32_of_Z (Z.of_nat (length points))).
(** [to_lowercase().contains("fail")]: no character outside ASCII has one of
    these four letters alone as its lower case. *)
Fixpoint has_infix (needle hay : list Z) : bool :=
  bool_decide (take (length needle) hay = needle) || match hay with [] => false | _ :: t => has_infix needle t end.
Definition says_fail (concern : string) : bool := has_infix (Text.str_chars "fail") (map Input.lower (Text.str_chars concern)).
Definition verdict_kind (churn : f32) (v : VlmVerdict) : SemanticDiffKind :=
  if v_skipped v then (if f32_lt churn (f32_dec 5 3) then NoOp else KindProgress)
  else match v_concern v with
       | Some concern => if says_fail concern then Failure else KindProgress
       | None => if f32_lt (f32_dec 8 1) (v_confidence v) then Success
                 else if f32_lt churn (f32_dec 5 3) then NoOp else KindProgress
       end.
Definition semantic_diff `{VlmBackend} (prev_seq : Z) (prev_frame : DecodedImage) (next_seq : Z) (next_frame : DecodedImage)
  (action : ActionContext) : result SemanticDiffVerdict VisionError :=
  if negb (width prev_frame =? width next_frame) || negb (height prev_frame =? height next_frame) then
    Err (DimensionsMismatch (width prev_frame, height prev_frame) (width next_frame, height next_frame))
  else
    let churn := pixel_churn prev_frame next_frame in
    match verify next_frame action with
    | Err e => Err e
    | Ok v => Ok (mkSemantic (verdict_kind churn v) (v_confidence v) (v_concern v) DEFAULT_DISPLAY_ID prev_seq next_seq)
    end.

(** ** The frames of an animation, [animation.rs] *)

Record AnimationFrames := mkAnim { frames : list FrameRing.FrameHandle; duration_ms : Z; an_display : Z }.
Definition MAX_DURATION_MS : Z := 5000.
Definition MAX_FRAMES : nat := 256.
(** The loop, newest frame first: it stops at the first frame that is gone or
    older than the cutoff, and at 256 frames, its fuel. *)
Fixpoint recent_frames (fuel : nat) (ring : FrameRing.FrameRing) (cutoff seq : Z) : list FrameRing.FrameHandle :=
  match fuel with
  | O => []
  | S fuel =>
      if 0 <? seq then
        match FrameRing.handle_for_seq ring seq with
        | Some handle => if FrameRing.h_ts_us handle <? cutoff then [] else handle :: recent_frames fuel ring cutoff (seq - 1)
        | None => []
        end
      else []
  end.
Definition animation_cutoff (ring : FrameRing.FrameRing) (duration_ms : Z) : Z :=
  Z.max 0 (default 0 (FrameRing.slot_ts_us ring (FrameRing.head_seq ring)) - duration_ms * 1000).
Definition animation_frames (ring : FrameRing.FrameRing) (duration_ms : Z) : result AnimationFrames VisionError :=
  if (duration_ms =? 0) || (MAX_DURATION_MS <? duration_ms) then Err (Other "duration_ms out of range")
  else
    let head := FrameRing.head_seq ring in
    if head =? 0 then Ok (mkAnim [] duration_ms DEFAULT_DISPLAY_ID)
    else Ok (mkAnim (reverse (recent_frames MAX_FRAMES ring (animation_cutoff ring duration_ms) head)) duration_ms DEFAULT_DISPLAY_ID).

(** ** The colours of a region, [palette.rs] *)

Record PaletteEntry := mkEntry { pe_r : Z; pe_g : Z; pe_b : Z; pe_weight : f32 }.
Record Palette := mkPalette { colors : list PaletteEntry; pal_display : Z }.
Definition MAX_ITERS : nat := 12.
Definition MAX_K : Z := 16.
Abbreviation rgb := (f32 * f32 * f32)%type.
(** [as f32] of a double, and a single in a double. *)
Definition f32_of_f64 (x : f64) : f32 :=
  match x with S754_finite s m e => binary_normalize 24 128 (cond_Zopp s (Z.pos m)) e s | _ => x end.
Definition f64_of_f32 (x : f32) : f64 :=
  match x with S754_finite s m e => binary_normalize 53 1024 (cond_Zopp s (Z.pos m)) e s | _ => x end.
Definition f32_MAX : f32 := binary_normalize 24 128 (2 ^ 24 - 1) 104 false.
Definition step_by2 (n : Z) : list Z := map (fun i => 2 * i) (seqZ 0 ((n + 1) / 2)).
Definition samples (img : DecodedImage) (rect : Bbox) : list rgb :=
  let offs := List.filter (fun off => off + 3 <? byte_len img)
    (step_by2 (bh rect) ≫= fun dy => map (fun dx => pixel_off img (bx rect + dx) (by_ rect + dy)) (step_by2 (bw rect))) in
  map (fun off => (f32_of_Z (byte_at img off), f32_of_Z (byte_at img (off + 1)), f32_of_Z (byte_at img (off + 2)))) offs.
Definition distance (s c : rgb) : f32 :=
  let '(sr, sg, sb) := s in
  let '(cr, cg, cb) := c in
  let dr := f32_sub sr cr in
  let dg := f32_sub sg cg in
  let db := f32_sub sb cb in
  f32_add (f32_add (f32_mul dr dr) (f32_mul dg dg)) (f32_mul db db).
(** The sample farthest from its nearest centroid, the first one of several. *)
Definition min_distance (centroids : list rgb) (s : rgb) : f32 :=
  foldl (fun m c => let d := distance s c in if f32_lt d m then d else m) f32_MAX centroids.
Definition farthest (samples centroids : list rgb) (first : rgb) : rgb :=
  snd (foldl (fun '(best_d, best) s => let d := min_distance centroids s in if f32_lt best_d d then (d, s) else (best_d, best))
         (f32_of_Z (-1), first) samples).
Fixpoint seed_centroids (n : nat) (samples : list rgb) (first : rgb) (centroids : list rgb) : list rgb :=
  match n with
  | O => centroids
  | S n => seed_centroids n samples first (centroids ++ [farthest samples centroids first])
  end.
(** The nearest centroid, the first one of several. *)
Definition assign (centroids : list rgb) (s : rgb) : nat :=
  snd (foldl (fun '(best_d, best) '(ci, c) => let d := distance s c in if f32_lt d best_d then (d, ci) else (best_d, best))
         (f32_MAX, O) (zip (seq 0 (length centroids)) centroids)).
Definition members (assigns : list nat) (samples : list rgb) (ci : nat) : list rgb :=
  map snd (List.filter (fun '(a, _) => Nat.eqb a ci) (zip assigns samples)).
Definition cluster_mean (l : list rgb) (f : rgb -> f32) : f32 :=
  f32_of_f64 (f64_div (foldl (fun a s => f64_add a (f64_of_f32 (f s))) f64_zero l) (f64_of_Z (Z.of_nat (length l)))).
Definition recenter (assigns : list nat) (samples : list rgb) (ci : nat) (c : rgb) : rgb :=
  match members assigns samples ci with
  | [] => c
  | l => (cluster_mean l (fun s => fst (fst s)), cluster_mean l (fun s => snd (fst s)), cluster_mean l snd)
  end.
(** Up to 12 rounds; a round that moves no sample is the last. *)
Fixpoint lloyd (iters : nat) (samples centroids : list rgb) (assigns : list nat) : list rgb * list nat :=
  match iters with
  | O => (centroids, assigns)
  | S iters =>
      let assigns' := map (assign centroids) samples in
      let centroids' := zip_with (recenter assigns' samples) (seq 0 (length centroids)) centroids in
      if bool_decide (assigns' = assigns) then (centroids', assigns') else lloyd iters samples centroids' assigns'
  end.
Definition f32_round (x : f32) : f32 :=
  match x with
  | S754_finite s m e =>
      if 0 <=? e then x else let q := (Z.pos m + 2 ^ (- e - 1)) / 2 ^ (- e) in binary_normalize 24 128 (if s then - q else q) 0 s
  | _ => x
  end.
Definition channel (x : f32) : Z := sf_to_u32 (f32_clamp (f32_of_Z 0) (f32_of_Z 255) (f32_round x)).
Definition palette_entry (total n : Z) (c : rgb) : PaletteEntry :=
  mkEntry (channel (fst (fst c))) (channel (snd (fst c))) (channel (snd c))
    (if total =? 0 then f32_of_Z 0 else f32_div (f32_of_Z n) (f32_of_Z total)).
(** A stable sort, the heaviest first. *)
Fixpoint place (e : PaletteEntry) (l : list PaletteEntry) : list PaletteEntry :=
  match l with [] => [e] | h :: t => if f32_lt (pe_weight h) (pe_weight e) then e :: l else h :: place e t end.
Definition by_weight (l : list PaletteEntry) : list PaletteEntry := foldl (fun acc e => place e acc) [] l.
Definition quantize (samples : list rgb) (first : rgb) (k : nat) : list PaletteEntry :=
  let seeds := seed_centroids (k - 1) samples first [first] in
  let '(centroids, assigns) := lloyd MAX_ITERS samples seeds (replicate (length samples) O) in
  let counts := map (fun ci => Z.of_nat (length (members assigns samples ci))) (seq 0 (length centroids)) in
  by_weight (zip_with (palette_entry (foldl Z.add 0 counts)) counts centroids).
Definition palette (s : PipelineState) (region : option Bbox) (k : Z) : result Palette VisionError :=
  if (k =? 0) || (MAX_K <? k) then Err (Other "k out of range")
  else match last_decoded s with
       | None => Err NotEnabled
       | Some frame =>
           match clamp_to_image (default (whole frame) region) (width frame) (height frame) with
           | None => Err (Other "region outside frame bounds")
           | Some rect =>
               match samples frame rect with
               | [] => Ok (mkPalette [] DEFAULT_DISPLAY_ID)
               | first :: _ as ss => Ok (mkPalette (quantize ss first (Nat.min (Z.to_nat k) (length ss))) DEFAULT_DISPLAY_ID)
               end
           end
       end.

(** ** What a region shows, [region_classify.rs] *)

Inductive RegionKind : Type := KText | KImage | KIcon | KVideo | KControl.
Record RegionClassification := mkClass {
  rc_kind : RegionKind; rc_confidence : f32; rc_display : Z; edge_density : f32; color_variance : f32
}.
Definition green (img : DecodedImage) (x y : Z) : f32 :=
  let off := pixel_off img x y + 1 in if byte_len img <=? off then f32_of_Z 0 else f32_of_Z (byte_at img off).
Definition sobel_norm (img : DecodedImage) (x y : Z) : f32 :=
  let g := green img in
  let two := f32_mul (f32_of_Z 2) in
  let gx := f32_add (f32_add (f32_add (f32_sub (f32_sub (SFopp (g (x - 1) (y - 1))) (two (g (x - 1) y))) (g (x - 1) (y + 1)))
              (g (x + 1) (y - 1))) (two (g (x + 1) y))) (g (x + 1) (y + 1)) in
  let gy := f32_add (f32_add (f32_add (f32_sub (f32_sub (SFopp (g (x - 1) (y - 1))) (two (g x (y - 1)))) (g (x + 1) (y - 1)))
              (g (x - 1) (y + 1))) (two (g x (y + 1)))) (g (x + 1) (y + 1)) in
  f32_sqrt (f32_add (f32_mul gx gx) (f32_mul gy gy)).
Definition sobel_mean (img : DecodedImage) (region : Bbox) : f32 :=
  if (bw region <? 3) || (bh region <? 3) then f32_of_Z 0
  else
    let inner := mkBbox (bx region + 1) (by_ region + 1) (bw region - 2) (bh region - 2) in
    let ps := box_pixels inner in
    f32_div (f32_sum (map (fun '(x, y) => sobel_norm img x y) ps)) (f32_of_Z (Z.of_nat (length ps))).
Definition rgb_variance (img : DecodedImage) (region : Bbox) : f32 :=
  let offs := List.filter (fun off => off + 2 <? byte_len img) (map (fun '(x, y) => pixel_off img x y) (box_pixels region)) in
  if (length offs =? 0)%nat then f32_of_Z 0
  else
    let n := f64_of_Z (Z.of_nat (length offs)) in
    let var c :=
      let vs := map (fun off => f64_of_Z (byte_at img (off + c))) offs in
      let mean := f64_div (foldl f64_add f64_zero vs) n in
      f64_sub (f64_div (foldl (fun a v => f64_add a (f64_mul v v)) f64_zero vs) n) (f64_mul mean mean) in
    f32_of_f64 (foldl (fun t c => f64_add t (f64_max (var c) f64_zero)) f64_zero [0; 1; 2]).
Definition region_kind (region : Bbox) (text_ratio edges variance aspect : f32) : RegionKind * f32 :=
  if f32_lt (f32_dec 30 2) text_ratio then (KText, f32_add (f32_dec 6 1) (f32_mul (f32_dec 4 1) text_ratio))
  else if (bw region <=? 64) && (bh region <=? 64) && f32_lt (f32_of_Z 5) edges then (KIcon, f32_dec 7 1)
  else if f32_lt (f32_dec 15 1) aspect && (96 <=? bw region) && f32_lt (f32_of_Z 600) variance && f32_lt (f32_of_Z 8) edges
  then (KVideo, f32_dec 55 2)
  else if (bh region <=? 48) && f32_lt variance (f32_of_Z 400) && f32_lt (f32_of_Z 6) edges then (KControl, f32_dec 55 2)
  else (KImage, f32_dec 5 1).
Definition classify (s : PipelineState) (region : Bbox) : result RegionClassification VisionError :=
  match last_decoded s with
  | None => Err NotEnabled
  | Some frame =>
      match clamp_to_image region (width frame) (height frame) with
      | None => Err outside
      | Some region =>
          let sure := List.filter (fun r => f32_le (f32_dec 6 1) (tr_confidence r)) (read_text s (Some region)) in
          let overlap := f32_sum (map (fun r => f32_of_Z (u32 (bw (tr_bbox r) * bh (tr_bbox r)))) sure) in
          let text_ratio := f32_clamp (f32_of_Z 0) (f32_of_Z 1) (f32_div overlap (f32_of_Z (Z.max (u32 (bw region * bh region)) 1))) in
          let edges := sobel_mean frame region in
          let variance := rgb_variance frame region in
          let aspect := f32_div (f32_of_Z (bw region)) (f32_of_Z (Z.max (bh region) 1)) in
          let '(kind, confidence) := region_kind region text_ratio edges variance aspect in
          Ok (mkClass kind confidence DEFAULT_DISPLAY_ID edges variance)
      end
  end.

(** ** Runs of a profile *)

Lemma zip_seqZ_snoc {A} (l : list A) x :
  zip (seqZ 0 (Z.of_nat (length (l ++ [x])))) (l ++ [x]) = zip (seqZ 0 (Z.of_nat (length l))) l ++ [(Z.of_nat (length l), x)].
Proof.
  rewrite length_app, Nat2Z.inj_add. cbn [length]. rewrite seqZ_app, Z.add_0_l by lia.
  rewrite zip_with_app by (rewrite length_seqZ; lia). done.
Qed.

(** The positions of a list where a predicate holds. *)
Definition holds_at {A} (P : A -> bool) (l : list A) (i : Z) : Prop := 0 <= i /\ exists v, l !! Z.to_nat i = Some v /\ P v = true.
Lemma holds_at_snoc {A} (P : A -> bool) l x i :
  holds_at P (l ++ [x]) i <-> holds_at P l i \/ i = Z.of_nat (length l) /\ P x = true.
Proof.
  unfold holds_at. split.
  - intros (Hi & v & Hv & HP). apply lookup_app_Some in Hv as [Hv|[Hl Hv]]; [left; eauto|].
    apply list_lookup_singleton_Some in Hv as [H0 <-]. right. split; [lia|done].
  - intros [(Hi & v & Hv & HP)|[-> HP]].
    + split; [done|]. exists v. split; [by apply lookup_app_l_Some|done].
    + split; [lia|]. exists x. split; [|done]. rewrite Nat2Z.id, lookup_app_r, Nat.sub_diag by lia. done.
Qed.
Lemma holds_at_lt {A} (P : A -> bool) l i : holds_at P l i -> 0 <= i < Z.of_nat (length l).
Proof. intros (Hi & v & Hv%lookup_lt_Some & _). lia. Qed.

(** Intervals in order, each nonempty and [gap] before the next. *)
Fixpoint spaced (gap lo hi : Z) (runs : list (Z * Z)) : Prop :=
  match runs with [] => lo <= hi | (a, b) :: t => lo <= a /\ a < b /\ spaced gap (b + gap) hi t end.
Lemma runs_snoc gap lo hi a b runs : spaced gap lo a runs -> a < b -> b + gap <= hi -> spaced gap lo hi (runs ++ [(a, b)]).
Proof. revert lo. induction runs as [|[c d] t IH]; cbn; [lia|]. intros lo (? & ? & ?) ? ?. repeat split; auto. Qed.
Lemma spaced_mono gap lo hi hi' runs : spaced gap lo hi runs -> hi <= hi' -> spaced gap lo hi' runs.
Proof. revert lo. induction runs as [|[c d] t IH]; cbn; [lia|]. intros lo (? & ? & ?) ?. repeat split; eauto. Qed.
Lemma spaced_bounds gap lo hi runs a b :
  0 <= gap -> spaced gap lo hi runs -> (a, b) ∈ runs -> lo <= a /\ a < b /\ b + gap <= hi.
Proof.
  intros Hg. revert lo. induction runs as [|[c d] t IH]; cbn; [set_solver|].
  intros lo (H1 & H2 & H3) [[= -> ->]|Hin]%elem_of_cons.
  - assert (spaced gap (d + gap) hi t -> d + gap <= hi) as Hh; [|repeat split; auto].
    clear - Hg. generalize (d + gap). induction t as [|[e f] t IH]; cbn; [done|]. intros z (? & ? & Ht%IH). lia.
  - destruct (IH _ H3 Hin) as (? & ? & ?). lia.
Qed.

(** Every filled position is in a run. *)
Definition covered (fill : Z -> Prop) (runs : list (Z * Z)) (i : Z) : Prop := fill i -> exists a b, (a, b) ∈ runs /\ a <= i < b.
(** From its start on, no position of a run is [gap] or more after the last filled one. *)
Definition dense (fill : Z -> Prop) (gap a b : Z) : Prop :=
  forall i, a <= i < b -> exists j, fill j /\ a <= j <= i /\ i < j + Z.max 1 gap.

Definition runs_inv (threshold gap : Z) (p : list Z) (st : list (Z * Z) * option Z * Z) : Prop :=
  let '(runs, start, last) := st in
  let n := Z.of_nat (length p) in
  let fill := holds_at (fun v => threshold <=? v) p in
  Forall (fun '(a, b) => dense fill gap a b) runs /\
  match start with
  | None => spaced gap 0 n runs /\ forall i, covered fill runs i
  | Some s => spaced gap 0 s runs /\ s <= last < n /\ fill last /\ dense fill gap s n /\ (forall i, fill i -> i <= last)
              /\ forall i, i < s -> covered fill runs i
  end.

Lemma dense_mono (fill fill' : Z -> Prop) gap a b : (forall i, fill i -> fill' i) -> dense fill gap a b -> dense fill' gap a b.
Proof. intros Hf Hd i Hi. destruct (Hd i Hi) as (j & Hj & ?). exists j. auto. Qed.
Lemma dense_extend (fill : Z -> Prop) gap a b j :
  dense fill gap a b -> fill j -> a <= j <= b -> b < j + Z.max 1 gap -> dense fill gap a (b + 1).
Proof.
  intros Hd Hj Hab Hg i Hi. destruct (decide (i < b)) as [Hlt|Hge]; [apply Hd; lia|].
  exists j. split; [done|]. lia.
Qed.

Lemma run_step_inv threshold gap p v st :
  0 <= gap -> runs_inv threshold gap p st -> runs_inv threshold gap (p ++ [v]) (run_step threshold gap st (Z.of_nat (length p), v)).
Proof.
  destruct st as [[runs start] last]. unfold runs_inv, run_step. intros Hg [Hall Hst].
  set (fill := holds_at (fun v => threshold <=? v) p) in *.
  set (fill' := holds_at (fun v => threshold <=? v) (p ++ [v])).
  assert (forall i, fill i -> fill' i) as Hmono by (intros i Hi; apply holds_at_snoc; auto).
  assert (Forall (fun '(a, b) => dense fill' gap a b) runs) as Hall'.
  { eapply Forall_impl; [exact Hall|]. intros [a b]. by apply dense_mono. }
  assert (forall i, fill' i -> i = Z.of_nat (length p) \/ fill i) as Hinv by (intros i [?|[? _]]%holds_at_snoc; auto).
  assert (forall i, fill i -> 0 <= i < Z.of_nat (length p)) as Hlt by (intros i; apply holds_at_lt).
  rewrite length_app, Nat2Z.inj_add. cbn [length]. change (Z.of_nat 1) with 1.
  destruct (threshold <=? v) eqn:Hv.
  - assert (fill' (Z.of_nat (length p))) as Hn by (apply holds_at_snoc; auto).
    split; [done|]. destruct start as [s|]; cbn [from_option]; unfold id.
    + destruct Hst as (Hs & Hl & Hf & Hd & Hlast & Hc). split; [done|]. split; [lia|]. split; [done|]. split.
      { apply dense_extend with (j := Z.of_nat (length p)); [by eapply dense_mono|done|lia|lia]. }
      split; [intros i [->|Hi]%Hinv; [lia|]; specialize (Hlt i Hi); lia|].
      intros i Hi [->|Hfi]%Hinv; [lia|]. by apply Hc.
    + destruct Hst as (Hs & Hc). split; [done|]. split; [lia|]. split; [done|]. split.
      { intros i Hi. exists (Z.of_nat (length p)). split; [done|]. lia. }
      split; [intros i [->|Hi]%Hinv; [lia|]; specialize (Hlt i Hi); lia|].
      intros i Hi [->|Hfi]%Hinv; [lia|]. by apply Hc.
  - assert (forall i, fill' i -> fill i) as Hback.
    { intros i [?|[_ Hw]]%holds_at_snoc; [done|]. congruence. }
    destruct start as [s|]; [destruct (Z.leb_spec gap (Z.of_nat (length p) - last)) as [Hgap|Hgap]|].
    + destruct Hst as (Hs & Hl & Hf & Hd & Hlast & Hc). split.
      { apply Forall_app. split; [done|]. apply Forall_singleton. intros i Hi.
        destruct (dense_mono _ _ _ _ _ Hmono Hd i) as (j & Hj); [lia|]. eauto. }
      split; [apply runs_snoc; [done|lia|lia]|].
      intros i Hi. pose proof (Hlast i (Hback i Hi)). destruct (decide (i < s)) as [His|His].
      * destruct (Hc i His (Hback i Hi)) as (a & b & Hin & Hab). exists a, b. set_solver.
      * exists s, (last + 1). split; [set_solver|lia].
    + destruct Hst as (Hs & Hl & Hf & Hd & Hlast & Hc). split; [done|]. split; [done|]. split; [lia|]. split; [auto|]. split.
      { apply dense_extend with (j := last); [by eapply dense_mono|auto|lia|lia]. }
      split; [auto|]. intros i Hi Hfi. apply Hc; auto.
    + destruct Hst as (Hs & Hc). split; [done|]. split; [eapply spaced_mono; [done|lia]|]. intros i Hi. apply Hc; auto.
Qed.

(** Splitting a profile gives nonempty runs in order, inside the profile and at
    least [gap_min] positions apart; every position that reaches the threshold
    is in one of them; and a run starts at such a position and never leaves
    [gap_min] positions in a row without one. *)
Lemma split_runs_spec profile threshold gap_min :
  0 <= gap_min ->
  let fill := holds_at (fun v => threshold <=? v) profile in
  let runs := split_runs profile threshold gap_min in
  spaced gap_min 0 (Z.of_nat (length profile) + gap_min) runs /\ (forall i, covered fill runs i) /\
  forall a b, (a, b) ∈ runs -> dense fill gap_min a b.
Proof.
  intros Hg fill runs.
  assert (runs_inv threshold gap_min profile
            (foldl (run_step threshold gap_min) ([], None, 0) (zip (seqZ 0 (Z.of_nat (length profile))) profile))) as Hinv.
  { clear fill runs. induction profile as [|v p IH] using rev_ind.
    - split; [constructor|]. split; [cbn; lia|]. intros i Hi. apply holds_at_lt in Hi. cbn in Hi. lia.
    - rewrite zip_seqZ_snoc, foldl_app. by apply run_step_inv. }
  subst runs. unfold split_runs. destruct (foldl _ _ _) as [[runs start] last]. destruct Hinv as [Hall Hst]. fold fill in Hall, Hst.
  rewrite Forall_forall in Hall. destruct start as [s|].
  - destruct Hst as (Hs & Hl & Hf & Hd & Hlast & Hc). split; [apply runs_snoc; [done|lia|lia]|]. split.
    + intros i Hi. pose proof (holds_at_lt _ _ _ Hi). destruct (decide (i < s)) as [His|His].
      * destruct (Hc i His Hi) as (a & b & Hin & Hab). exists a, b. set_solver.
      * exists s, (Z.of_nat (length profile)). split; [set_solver|lia].
    + intros a b [Hin|Hin]%elem_of_app; [by apply (Hall (a, b))|]. apply list_elem_of_singleton in Hin as [= -> ->]. done.
  - destruct Hst as (Hs & Hc). split; [eapply spaced_mono; [done|lia]|]. split; [done|].
    intros a b Hin. by apply (Hall (a, b)).
Qed.

Lemma spaced_pairs gap lo hi runs :
  0 <= gap -> spaced gap lo hi runs -> ForallOrdPairs (fun r r' => snd r + gap <= fst r') runs.
Proof.
  intros Hg. revert lo. induction runs as [|[a b] t IH]; cbn; intros lo Hs; constructor.
  - apply Forall_forall. intros [c d] Hin. cbn. destruct (spaced_bounds gap (b + gap) hi t c d) as (? & ? & ?); [done|apply Hs|done|lia].
  - eapply IH, Hs.
Qed.
Lemma ord_pairs_map {A B} (f : A -> B) (R : B -> B -> Prop) l :
  ForallOrdPairs (fun x y => R (f x) (f y)) l -> ForallOrdPairs R (map f l).
Proof.
  induction 1 as [|x l Hx _ IH]; cbn; constructor; [|done].
  apply Forall_forall. intros y (z & -> & Hz)%list_elem_of_fmap. rewrite Forall_forall in Hx. by apply Hx.
Qed.
Lemma ord_pairs_impl {A} (R S : A -> A -> Prop) l : (forall x y, R x y -> S x y) -> ForallOrdPairs R l -> ForallOrdPairs S l.
Proof. intros HRS. induction 1 as [|x l Hx _ IH]; constructor; [|done]. eapply Forall_impl; eauto. Qed.

Definition seg_bbox (s : LayoutSegment) : Bbox := let '(Segment _ b _ _) := s in b.
Definition seg_children (s : LayoutSegment) : list LayoutSegment := let '(Segment _ _ _ l) := s in l.
Definition within (b outer : Bbox) : Prop :=
  0 < bw b /\ 0 < bh b /\ bx outer <= bx b /\ bx b + bw b <= bx outer + bw outer /\
  by_ outer <= by_ b /\ by_ b + bh b <= by_ outer + bh outer.
(** Segments inside their parent, a gap before the next one. *)
Definition laid_out (before : Bbox -> Bbox -> Prop) (s : LayoutSegment) : Prop :=
  Forall (fun c => within (seg_bbox c) (seg_bbox s)) (seg_children s) /\
  ForallOrdPairs (fun c c' => before (seg_bbox c) (seg_bbox c')) (seg_children s).
Definition above (a b : Bbox) : Prop := by_ a + bh a + ROW_GAP_MIN <= by_ b.
Definition left_of (a b : Bbox) : Prop := bx a + bw a + COL_GAP_MIN <= bx b.

Lemma shrunk_fits n : 4 <= n -> shrunk n DOWNSAMPLE * DOWNSAMPLE <= n.
Proof. unfold shrunk, DOWNSAMPLE. intros. rewrite Z.max_l; [|apply Z.div_le_lower_bound; lia]. rewrite Z.mul_comm. apply Z.mul_div_le. lia. Qed.
Lemma length_seqZ_nonneg n : 0 <= n -> Z.of_nat (length (seqZ 0 n)) = n.
Proof. rewrite length_seqZ. lia. Qed.

Lemma row_segment_laid_out frame edges y0 y1 :
  4 <= width frame -> y0 < y1 -> laid_out left_of (row_segment frame edges (shrunk (width frame) DOWNSAMPLE) (y0, y1)).
Proof.
  intros Hw Hy. unfold row_segment.
  set (cols := split_runs _ _ _).
  assert (0 <= COL_GAP_MIN / DOWNSAMPLE) as Hg by (vm_compute; congruence).
  pose proof (shrunk_fits _ Hw) as Hfit.
  assert (spaced (COL_GAP_MIN / DOWNSAMPLE) 0 (shrunk (width frame) DOWNSAMPLE + COL_GAP_MIN / DOWNSAMPLE) cols) as Hs.
  { destruct (split_runs_spec (col_profile edges (shrunk (width frame) DOWNSAMPLE) y0 y1) ((y1 - y0) / 8)
                (COL_GAP_MIN / DOWNSAMPLE) Hg) as (Hs & _).
    unfold col_profile in Hs at 1. rewrite length_map, length_seqZ_nonneg in Hs by (unfold shrunk; lia). exact Hs. }
  split; cbn [seg_children seg_bbox].
  - apply Forall_forall. intros ? ([x0 x1] & -> & Hin)%list_elem_of_fmap.
    destruct (spaced_bounds _ _ _ _ _ _ Hg Hs Hin) as (? & ? & ?). unfold within, DOWNSAMPLE in *. cbn. lia.
  - apply ord_pairs_map. eapply ord_pairs_impl; [|eapply spaced_pairs; [exact Hg|exact Hs]].
    intros [x0 x1] [x0' x1'] Hle. change (COL_GAP_MIN / DOWNSAMPLE) with 2 in Hle. unfold left_of, COL_GAP_MIN, DOWNSAMPLE. cbn in *. lia.
Qed.

(** The layout of a frame is a tree of boxes: the page is the frame; its rows
    are nonempty, inside it and from top to bottom, at least 8 pixels apart;
    the cards of a row are nonempty, inside the row and from left to right, at
    least 8 pixels apart, and have no segments of their own. *)
Theorem segments_laid_out s frame :
  last_decoded s = Some frame -> 4 <= width frame -> 4 <= height frame ->
  exists page, segments s = Ok page /\ seg_bbox page = whole frame /\ laid_out above page /\
    Forall (fun row => laid_out left_of row /\ Forall (fun card => seg_children card = []) (seg_children row)) (seg_children page).
Proof.
  intros Hf Hw Hh. unfold segments. rewrite Hf. eexists. split; [done|]. split; [done|]. cbn [seg_children seg_bbox].
  set (edges := sobel_downsampled _ _). set (rows := split_runs _ _ _).
  assert (0 <= ROW_GAP_MIN / DOWNSAMPLE) as Hg by (vm_compute; congruence).
  pose proof (shrunk_fits _ Hh) as Hfit.
  assert (spaced (ROW_GAP_MIN / DOWNSAMPLE) 0 (shrunk (height frame) DOWNSAMPLE + ROW_GAP_MIN / DOWNSAMPLE) rows) as Hs.
  { destruct (split_runs_spec (row_profile edges (shrunk (width frame) DOWNSAMPLE) (shrunk (height frame) DOWNSAMPLE))
                (shrunk (width frame) DOWNSAMPLE / 8) (ROW_GAP_MIN / DOWNSAMPLE) Hg) as (Hs & _).
    unfold row_profile in Hs at 1. rewrite length_map, length_seqZ_nonneg in Hs by (unfold shrunk; lia). exact Hs. }
  split; [split; cbn [seg_children seg_bbox]|].
  - apply Forall_forall. intros ? ([y0 y1] & -> & Hin)%list_elem_of_fmap.
    destruct (spaced_bounds _ _ _ _ _ _ Hg Hs Hin) as (? & ? & ?). unfold within, row_segment, DOWNSAMPLE in *. cbn. lia.
  - apply ord_pairs_map. eapply ord_pairs_impl; [|eapply spaced_pairs; [exact Hg|exact Hs]].
    intros [y0 y1] [y0' y1'] Hle. change (ROW_GAP_MIN / DOWNSAMPLE) with 2 in Hle. cbn in Hle. unfold above, row_segment, seg_bbox, ROW_GAP_MIN, DOWNSAMPLE. cbn [by_ bh]. lia.
  - apply Forall_forall. intros ? ([y0 y1] & -> & Hin)%list_elem_of_fmap.
    destruct (spaced_bounds _ _ _ _ _ _ Hg Hs Hin) as (? & ? & ?).
    split; [by apply row_segment_laid_out|]. cbn [seg_children row_segment].
    apply Forall_forall. intros ? ([x0 x1] & -> & _)%list_elem_of_fmap. done.
Qed.

(** ** The longest run *)

Definition run_of {A} (P : A -> bool) (l : list A) (a m : Z) : Prop := 0 <= a /\ 0 < m /\ forall i, a <= i < a + m -> holds_at P l i.
(** A run at least as long as every other. *)
Definition at_least (best : option (Z * Z)) (m : Z) : Prop := exists s l, best = Some (s, l) /\ m <= l.

Definition thumb_inv {A} (P : A -> bool) (p : list A) (st : option (Z * Z) * option Z) : Prop :=
  let '(best, start) := st in
  let n := Z.of_nat (length p) in
  (forall s l, best = Some (s, l) -> run_of P p s l) /\
  (forall s, start = Some s -> s < n /\ run_of P p s (n - s)) /\
  (forall a, run_of P p a (n - a) -> exists s, start = Some s /\ s <= a) /\
  (forall a m, run_of P p a m -> (exists s, start = Some s /\ s <= a) \/ at_least best m).

Lemma run_of_end {A} (P : A -> bool) l a m : run_of P l a m -> a + m <= Z.of_nat (length l).
Proof. intros (Ha & Hm & Hi). pose proof (holds_at_lt P l (a + m - 1) (Hi (a + m - 1) ltac:(lia))). lia. Qed.
Lemma run_of_nil {A} (P : A -> bool) a m : ~ run_of P [] a m.
Proof. intros (Ha & Hm & Hi). pose proof (holds_at_lt P [] a (Hi a ltac:(lia))) as Hl. cbn in Hl. lia. Qed.
Lemma run_of_snoc {A} (P : A -> bool) l x a m : run_of P l a m -> run_of P (l ++ [x]) a m.
Proof. intros (Ha & Hm & Hi). split; [done|]. split; [done|]. intros i Hin. apply holds_at_snoc. left. by apply Hi. Qed.

Lemma run_of_inside {A} (P : A -> bool) l x a m : run_of P (l ++ [x]) a m -> a + m <= Z.of_nat (length l) -> run_of P l a m.
Proof.
  intros (Ha & Hm & Hi) He. split; [done|]. split; [done|]. intros i Hin.
  destruct (proj1 (holds_at_snoc P l x i) (Hi i Hin)) as [?|[-> _]]; [done|lia].
Qed.

(** The open run, when there is one, is compared with the best one. *)
Definition close_run (best : option (Z * Z)) (start : option Z) (n : Z) : option (Z * Z) :=
  match start with Some s => if better best (n - s) then Some (s, n - s) else best | None => best end.
Lemma close_run_spec {A} (P : A -> bool) p best start :
  thumb_inv P p (best, start) ->
  let best' := close_run best start (Z.of_nat (length p)) in
  (forall s l, best' = Some (s, l) -> run_of P p s l) /\ forall a m, run_of P p a m -> at_least best' m.
Proof.
  intros (Hb & Hs & He & Hm). split.
  - intros s l. destruct start as [s0|]; cbn; [|apply Hb]. destruct (better best _); [|apply Hb].
    intros [= <- <-]. by apply Hs.
  - intros a m Hr. destruct start as [s0|]; cbn; [|destruct (Hm a m Hr) as [(? & ? & _)|?]; done].
    pose proof (run_of_end _ _ _ _ Hr) as Hend.
    destruct (Hm a m Hr) as [(? & [= <-] & Hle)|(sb & lb & -> & Hlb)]; unfold better.
    + destruct best as [[sb lb]|]; [|exists s0, (Z.of_nat (length p) - s0); split; [done|lia]].
      destruct (Z.ltb_spec lb (Z.of_nat (length p) - s0)); eexists _, _; (split; [done|lia]).
    + destruct (Z.ltb_spec lb (Z.of_nat (length p) - s0)); eexists _, _; (split; [done|lia]).
Qed.

Lemma thumb_step_inv {A} (P : A -> bool) p v st :
  thumb_inv P p st -> thumb_inv P (p ++ [v]) (match st with (best, start) =>
    if P v then (best, Some (default (Z.of_nat (length p)) start)) else (close_run best start (Z.of_nat (length p)), None) end).
Proof.
  destruct st as [best start]. intros Hinv. pose proof (close_run_spec P p best start Hinv) as [Hcb Hcm].
  destruct Hinv as (Hb & Hs & He & Hm).
  unfold thumb_inv. destruct (P v) eqn:Hv; rewrite length_app, Nat2Z.inj_add; cbn [length]; change (Z.of_nat 1) with 1.
  - assert (holds_at P (p ++ [v]) (Z.of_nat (length p))) as Hn by (apply holds_at_snoc; auto).
    assert (forall a m, run_of P (p ++ [v]) a m -> a + m = Z.of_nat (length p) + 1 ->
              exists s, Some (default (Z.of_nat (length p)) start) = Some s /\ s <= a) as Htail.
    { intros a m Hr Heq. eexists. split; [done|]. destruct (decide (a = Z.of_nat (length p))) as [->|Hne].
      - destruct start as [s|]; cbn; [|lia]. destruct (Hs s eq_refl). unfold id. lia.
      - destruct (He a) as (s & -> & Hle); [|done]. apply run_of_inside with (x := v); [|lia].
        destruct Hr as (Ha & Hmm & Hi). split; [done|]. split; [lia|]. intros i Hin. apply Hi. lia. }
    split; [intros s l Hbest; apply run_of_snoc; auto|]. split.
    { intros s [= <-]. destruct start as [s|]; cbn.
      - destruct (Hs s eq_refl) as (Hlt & Ha & Hmm & Hi). unfold id. split; [lia|]. split; [lia|]. split; [lia|].
        intros i Hin. destruct (decide (i = Z.of_nat (length p))) as [->|Hne]; [done|].
        apply holds_at_snoc. left. apply Hi. lia.
      - split; [lia|]. split; [lia|]. split; [lia|]. intros i Hin. replace i with (Z.of_nat (length p)) by lia. done. }
    split; [intros a Hr; eapply Htail; [exact Hr|lia]|].
    intros a m Hr. pose proof (run_of_end _ _ _ _ Hr) as Hend. rewrite length_app in Hend. cbn in Hend.
    destruct (decide (a + m = Z.of_nat (length p) + 1)) as [Heq|Hne]; [left; by eapply Htail|].
    destruct (Hm a m) as [(s & -> & Hle)|Hal]; [eapply run_of_inside; [exact Hr|lia]| |by right]. left. by exists s.
  - assert (forall a m, run_of P (p ++ [v]) a m -> run_of P p a m) as Hin.
    { intros a m Hr. eapply run_of_inside; [exact Hr|]. pose proof (run_of_end _ _ _ _ Hr) as Hend.
      rewrite length_app in Hend. cbn in Hend. destruct (decide (a + m = Z.of_nat (length p) + 1)) as [Heq|]; [|lia].
      destruct Hr as (Ha & Hmm & Hi). destruct (proj1 (holds_at_snoc P p v (Z.of_nat (length p))) (Hi (Z.of_nat (length p)) ltac:(lia))) as [Hh|[_ Hh]].
      - apply holds_at_lt in Hh. lia.
      - congruence. }
    split; [intros s l Hbest; apply run_of_snoc; auto|]. split; [done|]. split.
    + intros a Hr. pose proof (run_of_end _ _ _ _ (Hin _ _ Hr)). lia.
    + intros a m Hr. right. apply (Hcm a), Hin, Hr.
Qed.

Lemma longest_run_spec P l :
  match longest_run P l with
  | Some (s, m) => run_of P l s m /\ forall a k, run_of P l a k -> k <= m
  | None => forall i, ~ holds_at P l i
  end.
Proof.
  assert (thumb_inv P l (foldl (thumb_step P) (None, None) (zip (seqZ 0 (Z.of_nat (length l))) l))) as Hinv.
  { induction l as [|v p IH] using rev_ind.
    - split; [done|]. split; [done|]. split; [intros a []%run_of_nil|intros a m []%run_of_nil].
    - rewrite zip_seqZ_snoc, foldl_app. cbn. apply (thumb_step_inv P p v) in IH. destruct (foldl _ _ _) as [best start].
      unfold thumb_step. destruct (P v); [done|]. destruct start; done. }
  unfold longest_run. destruct (foldl _ _ _) as [best start]. apply close_run_spec in Hinv as [Hb Hm]. fold (close_run best start (Z.of_nat (length l))).
  destruct (close_run _ _ _) as [[s m]|].
  - split; [by apply Hb|]. intros a k Hr. destruct (Hm a k Hr) as (? & ? & [= <- <-] & ?). done.
  - intros i Hi. destruct (Hm i 1) as (? & ? & ? & _); [|done].
    split; [by destruct Hi|]. split; [lia|]. intros j Hj. by replace j with i by lia.
Qed.

(** A box clamped to a frame is inside it. *)
Lemma clamp_within b w h r : 0 <= bx b -> 0 <= by_ b -> clamp_to_image b w h = Some r -> within r (mkBbox 0 0 w h).
Proof.
  unfold clamp_to_image. intros Hx Hy. destruct (_ || _) eqn:E; [done|]. intros [= <-]. apply orb_false_iff in E as [E1 E2].
  apply Z.leb_gt in E1, E2. unfold within. cbn. lia.
Qed.

(** A scroll bar that is reported is the longest run of rows of the strip at
    the right edge of the region that are away from the median brightness: the
    thumb is that run, 16 pixels wide, at least 4 and less than the whole
    region high, and inside the region.  When every such run is shorter or
    fills the strip none is reported. *)
Theorem scrollbar_longest_run s frame region rect :
  last_decoded s = Some frame ->
  clamp_to_image (default (whole frame) region) (width frame) (height frame) = Some rect ->
  STRIP_WIDTH <= bw rect -> 8 <= bh rect ->
  let away := run_of (off_baseline (strip_rows frame rect)) (strip_rows frame rect) in
  exists p, scrollbar_position s region = Ok p /\
  match thumb_bbox p with
  | Some b => present p = true /\ within b rect /\ bw b = STRIP_WIDTH /\ bx b + bw b = bx rect + bw rect /\ 4 <= bh b < bh rect /\
              away (by_ b - by_ rect) (bh b) /\ forall a m, away a m -> m <= bh b
  | None => p = no_scrollbar /\ ((forall a m, away a m -> m < 4) \/ away 0 (bh rect))
  end.
Proof.
  intros Hf Hc Hw Hh away. unfold scrollbar_position. rewrite Hf, Hc.
  destruct (Z.ltb_spec (bw rect) STRIP_WIDTH); [lia|]. destruct (Z.ltb_spec (bh rect) 8); [lia|]. cbn [orb].
  pose proof (longest_run_spec (off_baseline (strip_rows frame rect)) (strip_rows frame rect)) as Hl.
  assert (Z.of_nat (length (strip_rows frame rect)) = bh rect) as Hlen.
  { unfold strip_rows. rewrite length_map, length_seqZ. lia. }
  destruct (longest_run _ _) as [[top h]|]; cycle 1.
  { eexists. split; [done|]. split; [done|]. left. intros a m (Ha & Hm & Hi). exfalso. apply (Hl a), Hi. lia. }
  destruct Hl as [Hr Hmax]. pose proof (run_of_end _ _ _ _ Hr) as Hend. rewrite Hlen in Hend.
  destruct Hr as (Ht & Hp & Hr'). assert (away top h) as Hr by done. clear Hr'.
  destruct (Z.ltb_spec h 4) as [H4|H4]; cbn [orb].
  { eexists. split; [done|]. split; [done|]. left. intros a m Ha. specialize (Hmax a m Ha). lia. }
  destruct (Z.leb_spec (bh rect) h) as [Hb|Hb].
  { eexists. split; [done|]. split; [done|]. right. replace 0 with top by lia. replace (bh rect) with h by lia. exact Hr. }
  eexists. split; [done|]. cbn [thumb_bbox present bx by_ bw bh]. unfold within, STRIP_WIDTH in *. cbn [bx by_ bw bh].
  replace (by_ rect + top - by_ rect) with top by lia.
  split; [done|]. split; [lia|]. split; [done|]. split; [lia|]. split; [lia|]. by split.
Qed.

(** ** Animation frames *)

Lemma handle_seq ring q h : FrameRing.handle_for_seq ring q = Some h -> FrameRing.h_slot_seq h = q.
Proof. unfold FrameRing.handle_for_seq. destruct (FrameRing.find_seq _ _ _) as [[i sl]|]; [|done]. by intros [= <-]. Qed.

Lemma recent_frames_spec fuel ring cutoff q :
  let fs := recent_frames fuel ring cutoff q in
  let k := Z.of_nat (length fs) in
  map FrameRing.h_slot_seq (reverse fs) = seqZ (q - k + 1) k /\
  Forall (fun h => FrameRing.handle_for_seq ring (FrameRing.h_slot_seq h) = Some h /\ cutoff <= FrameRing.h_ts_us h) fs /\
  (length fs <= fuel)%nat /\
  (length fs = fuel \/ q - k = Z.min 0 q \/
   match FrameRing.handle_for_seq ring (q - k) with Some h => FrameRing.h_ts_us h < cutoff | None => True end).
Proof.
  revert q. induction fuel as [|fuel IH]; intros q; cbn [recent_frames].
  { cbn. repeat split; [by constructor|lia|]. by left. }
  destruct (Z.ltb_spec 0 q); [|cbn; repeat split; [by constructor|lia|]; right; left; lia].
  destruct (FrameRing.handle_for_seq ring q) as [h|] eqn:Hh; cycle 1.
  { cbn. repeat split; [by constructor|lia|]. right. right. by rewrite Z.sub_0_r, Hh. }
  destruct (Z.ltb_spec (FrameRing.h_ts_us h) cutoff).
  { cbn. repeat split; [by constructor|lia|]. right. right. rewrite Z.sub_0_r, Hh. lia. }
  destruct (IH (q - 1)) as (Hs & Hall & Hle & Hstop). pose proof (handle_seq _ _ _ Hh) as Hq.
  set (fs := recent_frames fuel ring cutoff (q - 1)) in *. cbn [length].
  replace (q - Z.of_nat (S (length fs))) with (q - 1 - Z.of_nat (length fs)) by lia.
  split; [|split; [|split; [lia|]]].
  - rewrite reverse_cons, map_app, Hs. cbn [map]. rewrite Hq, Nat2Z.inj_succ, <- Z.add_1_r, seqZ_app by lia.
    f_equal. change (seqZ ?a 1) with [0 + a]. f_equal. lia.
  - constructor; [|done]. by rewrite Hq.
  - destruct Hstop as [?|[?|?]]; [left; lia|right; left; lia|by right; right].
Qed.

(** The frames of an animation are the newest frames of the ring, oldest first
    and without a gap: consecutive sequence numbers up to the head, each handle
    the one of its slot and none older than the duration before the newest.
    The list goes back until the frame before is older, is no longer in the
    ring, or 256 frames are collected. *)
Theorem animation_frames_spec ring duration :
  1 <= duration <= MAX_DURATION_MS -> 0 <= FrameRing.head_seq ring ->
  exists fs, animation_frames ring duration = Ok (mkAnim fs duration DEFAULT_DISPLAY_ID) /\
  let k := Z.of_nat (length fs) in
  let head := FrameRing.head_seq ring in
  map FrameRing.h_slot_seq fs = seqZ (head - k + 1) k /\
  Forall (fun h => FrameRing.handle_for_seq ring (FrameRing.h_slot_seq h) = Some h /\
                   animation_cutoff ring duration <= FrameRing.h_ts_us h) fs /\
  k <= 256 /\
  (k = 256 \/ head - k = 0 \/
   match FrameRing.handle_for_seq ring (head - k) with Some h => FrameRing.h_ts_us h < animation_cutoff ring duration | None => True end).
Proof.
  intros [H1 H2] Hh. unfold animation_frames. destruct (Z.eqb_spec duration 0); [lia|].
  destruct (Z.ltb_spec MAX_DURATION_MS duration); [lia|]. cbn [orb].
  destruct (Z.eqb_spec (FrameRing.head_seq ring) 0) as [H0|H0].
  { eexists. split; [done|]. rewrite H0. cbn. repeat split; [by constructor|lia|]. by right; left. }
  eexists. split; [done|]. rewrite length_reverse.
  destruct (recent_frames_spec MAX_FRAMES ring (animation_cutoff ring duration) (FrameRing.head_seq ring)) as (Hs & Hall & Hle & Hstop).
  split; [done|]. split; [by apply Forall_reverse|]. unfold MAX_FRAMES in *. split; [lia|].
  destruct Hstop as [?|[?|?]]; [left; lia|right; left; lia|by right; right].
Qed.

(** ** The bright rectangle of a dialog *)

Lemma walk_down_stops fuel bright v :
  0 <= v <= Z.of_nat fuel -> let r := walk_down fuel bright v in (8 <? r) && bright r = false /\ 0 <= r <= v.
Proof.
  revert v. induction fuel as [|fuel IH]; intros v Hv; cbn [walk_down].
  { replace v with 0 by lia. cbn. lia. }
  destruct ((8 <? v) && bright v) eqn:E; [|cbn; split; [done|lia]].
  assert (8 < v) by (apply Z.ltb_lt; by destruct (8 <? v)).
  destruct (IH (Z.max 0 (v - 8))) as [Hs Hr]; [lia|]. cbn. split; [done|lia].
Qed.
Lemma walk_up_stops fuel bright limit bound v :
  (forall x, 0 <= x -> bright x = true -> x < bound) -> bound <= 2 ^ 32 - 8 -> 0 <= v -> bound - v < Z.of_nat fuel ->
  let r := walk_up fuel bright limit v in (r <? limit) && bright r = false /\ v <= r <= Z.max v (limit + 7).
Proof.
  intros Hb Hbound. revert v. induction fuel as [|fuel IH]; intros v Hv Hf; cbn [walk_up].
  { split; [|lia]. apply andb_false_iff. right. apply not_true_is_false. intros H%Hb; lia. }
  destruct ((v <? limit) && bright v) eqn:E; [|cbn; split; [done|lia]].
  apply andb_true_iff in E as [El%Z.ltb_lt Eb%Hb]; [|lia].
  assert (u32 (v + 8) = v + 8) as -> by (apply Z.mod_small; lia).
  destruct (IH (v + 8)) as [Hs Hr]; [lia|lia|]. cbn. split; [done|lia].
Qed.
Lemma lum_inside img x y : 0 < width img -> 0 <= x -> 0 <= y -> 180 < lum img x y -> x < byte_len img /\ y < byte_len img.
Proof.
  unfold lum. intros Hw Hx Hy. destruct (Z.leb_spec (byte_len img) (pixel_off img x y + 2)) as [|H]; [lia|].
  unfold pixel_off in H. intros _. nia.
Qed.

(** Where the four walks end, and what they found. *)
Definition walked (frame : DecodedImage) (x0 x1 y0 y1 : Z) : Prop :=
  let row x := 180 <? lum frame x (height frame / 2) in
  let col y := 180 <? lum frame (width frame / 2) y in
  (8 <? x0) && row x0 = false /\ (x1 <? width frame - 8) && row x1 = false /\
  (8 <? y0) && col y0 = false /\ (y1 <? height frame - 8) && col y1 = false /\
  find_bright_rect frame = if (x0 + 16 <? x1) && (y0 + 16 <? y1) then Some (mkBbox x0 y0 (x1 - x0) (y1 - y0)) else None.

Lemma walked_exists frame :
  16 <= width frame < 2 ^ 32 -> 16 <= height frame < 2 ^ 32 -> byte_len frame <= 2 ^ 31 ->
  exists x0 x1 y0 y1, walked frame x0 x1 y0 y1 /\ 0 <= x0 /\ x1 < width frame /\ 0 <= y0 /\ y1 < height frame.
Proof.
  intros Hw Hh Hlen.
  set (row x := 180 <? lum frame x (height frame / 2)). set (col y := 180 <? lum frame (width frame / 2) y).
  assert (0 <= width frame / 2 <= width frame - 8) as Hcx by (split; [apply Z.div_pos|apply Z.div_le_upper_bound]; lia).
  assert (0 <= height frame / 2 <= height frame - 8) as Hcy by (split; [apply Z.div_pos|apply Z.div_le_upper_bound]; lia).
  assert (forall x, 0 <= x -> row x = true -> x < byte_len frame) as Hrow.
  { intros x Hx Hr%Z.ltb_lt. apply lum_inside in Hr; lia. }
  assert (forall y, 0 <= y -> col y = true -> y < byte_len frame) as Hcol.
  { intros y Hy Hr%Z.ltb_lt. apply lum_inside in Hr; lia. }
  destruct (walk_down_stops (Z.to_nat (width frame / 2)) row (width frame / 2)) as [Sx0 Rx0]; [lia|].
  destruct (walk_down_stops (Z.to_nat (height frame / 2)) col (height frame / 2)) as [Sy0 Ry0]; [lia|].
  destruct (walk_up_stops (S (length (rgba frame))) row (width frame - 8) (byte_len frame) (width frame / 2) Hrow)
    as [Sx1 Rx1]; [lia|lia|unfold byte_len; lia|].
  destruct (walk_up_stops (S (length (rgba frame))) col (height frame - 8) (byte_len frame) (height frame / 2) Hcol)
    as [Sy1 Ry1]; [lia|lia|unfold byte_len; lia|].
  do 4 eexists. split; [split; [exact Sx0|]; split; [exact Sx1|]; split; [exact Sy0|]; split; [exact Sy1|]|lia].
  unfold find_bright_rect. assert (forall n, 16 <= n < 2 ^ 32 -> u32 (n - 8) = n - 8) as Hu by (intros; apply Z.mod_small; lia).
  rewrite (Hu _ Hw), (Hu _ Hh). reflexivity.
Qed.
Lemma middle_within w n : 16 <= n -> w = n / 2 -> 0 < w /\ 0 <= n / 4 /\ n / 4 + w <= n.
Proof.
  intros Hn ->. pose proof (Z.div_mod n 4 ltac:(lia)). pose proof (Z.mod_pos_bound n 4 ltac:(lia)).
  pose proof (Z.div_mod n 2 ltac:(lia)). pose proof (Z.mod_pos_bound n 2 ltac:(lia)). lia.
Qed.

(** The loops that look for the bright rectangle end: from the centre each
    walks while the pixel is bright and stops at a dark one or at the border.
    The box a dialog is reported with is inside the frame, whether it is the
    rectangle found or the middle of the frame. *)
Theorem modal_box_inside s frame :
  last_decoded s = Some frame -> 16 <= width frame < 2 ^ 32 -> 16 <= height frame < 2 ^ 32 -> byte_len frame <= 2 ^ 31 ->
  (exists x0 x1 y0 y1, walked frame x0 x1 y0 y1) /\
  exists o, modal s = Ok o /\ ov_present o = negb (f32_lt (dim_ratio frame) MODAL_AREA_RATIO) /\
    match ov_bbox o with Some b => within b (whole frame) | None => ov_present o = false end.
Proof.
  intros Hf Hw Hh Hlen. destruct (walked_exists frame Hw Hh Hlen) as (x0 & x1 & y0 & y1 & Hwalk & Hx0 & Hx1 & Hy0 & Hy1).
  split; [by exists x0, x1, y0, y1|]. destruct Hwalk as (_ & _ & _ & _ & Hfind).
  unfold modal. rewrite Hf. destruct (f32_lt _ _); [by eexists|]. eexists. split; [done|]. split; [done|]. cbn [ov_bbox].
  rewrite Hfind. destruct (_ && _) eqn:E; cbn [from_option id]; unfold within, whole; cbn [bx by_ bw bh].
  - apply andb_true_iff in E as [E1%Z.ltb_lt E2%Z.ltb_lt]. lia.
  - destruct (middle_within _ _ (proj1 Hw) eq_refl). destruct (middle_within _ _ (proj1 Hh) eq_refl). lia.
Qed.

(** ** A region of one colour *)

(** A region all of whose pixels have the same brightness. *)
Definition uniform (img : DecodedImage) (region : Bbox) (v : Z) : Prop :=
  0 <= v <= 255 /\ forall x y, bx region <= x < bx region + bw region -> by_ region <= y < by_ region + bh region ->
  pixel_off img x y + 2 < byte_len img /\ luma_at img (pixel_off img x y) = v.

Lemma foldl_add_replicate n v a : foldl Z.add a (replicate n v) = a + Z.of_nat n * v.
Proof. revert a. induction n as [|n IH]; intros a; cbn [replicate foldl]; [lia|]. rewrite IH. lia. Qed.
Lemma cell_inside c n w : 0 <= c < 16 -> 0 < w -> n <= n + c * w / ICON_DIM < n + w.
Proof.
  intros Hc Hw. assert (0 <= c * w / ICON_DIM < w); [|lia].
  split; [apply Z.div_pos; [nia|done]|]. apply Z.div_lt_upper_bound; [done|]. unfold ICON_DIM. nia.
Qed.
Lemma map_all_eq {A B} (f : A -> B) v l : Forall (fun x => f x = v) l -> map f l = replicate (length l) v.
Proof. induction 1 as [|x l Hx _ IH]; cbn; congruence. Qed.
Lemma map_repl {A B} (f : A -> B) n v : map f (replicate n v) = replicate n (f v).
Proof. induction n; cbn; congruence. Qed.
Lemma uniform_signature img region v :
  uniform img region v -> 0 < bw region -> 0 < bh region -> compute_signature img region = threshold_words (replicate 256 0) 0.
Proof.
  intros [Hv Hu] Hw Hh. unfold compute_signature.
  assert (Forall (fun c => (0 <= c.1 < 16 /\ 0 <= c.2 < 16)) icon_cells) as Hcells.
  { apply (bool_decide_unpack _). vm_compute. exact I. }
  match goal with |- context [map ?f icon_cells] => assert (map f icon_cells = replicate 256 v) as -> end.
  { apply map_all_eq. eapply Forall_impl; [exact Hcells|]. intros [cx cy] [Hcx Hcy]. cbn [fst snd] in *.
    destruct (Hu (bx region + cx * bw region / ICON_DIM) (by_ region + cy * bh region / ICON_DIM)) as [Hoff Hl];
      [by apply cell_inside..|].
    destruct (Z.ltb_spec (pixel_off img (bx region + cx * bw region / ICON_DIM) (by_ region + cy * bh region / ICON_DIM) + 2)
                (byte_len img)); [done|lia]. }
  rewrite foldl_add_replicate, map_repl, Z.min_l by lia. unfold threshold_words.
  replace ((0 + Z.of_nat 256 * v) / (ICON_DIM * ICON_DIM)) with v
    by (change (Z.of_nat 256) with 256; unfold ICON_DIM; rewrite Z.add_0_l, Z.mul_comm; by rewrite Z.div_mul).
  rewrite !map_repl, Z.leb_refl. reflexivity.
Qed.

(** A region of one colour holds no icon, and yet it is recognised: every cell
    reaches the mean, and the search glyph has only 8 dark cells of 256, fewer
    than the 32 that may differ.  It is reported as a search icon with the
    confidence 1 - 8/256. *)
Theorem uniform_region_is_search s frame region rect v :
  last_decoded s = Some frame -> clamp_to_image region (width frame) (height frame) = Some rect -> uniform frame rect v ->
  recognize_icon s region = Ok (mkIcon "search" (f32_div (f32_of_Z 248) (f32_of_Z 256)) DEFAULT_DISPLAY_ID).
Proof.
  intros Hf Hc Hu. unfold recognize_icon. rewrite Hf, Hc. rewrite (uniform_signature _ _ v Hu).
  - vm_compute. reflexivity.
  - unfold clamp_to_image in Hc. destruct (_ || _) eqn:E; [done|]. injection Hc as <-.
    apply orb_false_iff in E as [E1%Z.leb_gt E2%Z.leb_gt]. cbn. lia.
  - unfold clamp_to_image in Hc. destruct (_ || _) eqn:E; [done|]. injection Hc as <-.
    apply orb_false_iff in E as [E1%Z.leb_gt E2%Z.leb_gt]. cbn. lia.
Qed.

End VisionAnalysis.

Module VisionAnalysisExamples.
Import VisionAnalysis VisionExamples.

(** A pipeline that shows an image of 16 by 16 pixels, painted in grey. *)
Definition gray (v : Z) : list Z := [v; v; v; 255].
Definition image16 (paint : Z -> Z -> Z) : DecodedImage :=
  mkImage 16 16 (tiles 16 16 ≫= fun '(x, y) => gray (paint x y)) 0.
Definition showing (img : DecodedImage) : PipelineState := mkState None None [] [] [] (cache_new 256) (Some (at_time 1 img)).
Definition box16 : Bbox := mkBbox 0 0 16 16.
Definition white : Z -> Z -> Z := fun _ _ => 255.

(** Every icon of the library, drawn black on white, is recognised for certain. *)
Example drawn_icons_recognized :
  map (fun g => recognize_icon (showing (image16 (fun x y => if (g x y : bool) then 0 else 255))) box16)
    [close_glyph; check_glyph; search_glyph; menu_glyph; arrow_right_glyph; arrow_down_glyph; plus_glyph; minus_glyph; gear_glyph] =
  map (fun '(l, _) => Ok (mkIcon l (f32_of_Z 1) 0)) LIBRARY.
Proof. vm_compute. reflexivity. Qed.
(** So is a white square, as a search icon. *)
Lemma white_uniform : uniform (image16 white) box16 255.
Proof.
  split; [lia|]. intros x y Hx Hy.
  assert (Forall (fun c => pixel_off (image16 white) c.1 c.2 + 2 < byte_len (image16 white) /\
    luma_at (image16 white) (pixel_off (image16 white) c.1 c.2) = 255) (tiles 16 16)) as A
    by (apply (bool_decide_unpack _); vm_compute; exact I).
  rewrite Forall_forall in A. apply (A (x, y)). apply elem_of_tiles. split; [exact Hx|exact Hy].
Qed.
Lemma uniform_region_is_search_witness :
  recognize_icon (showing (image16 white)) box16 = Ok (mkIcon "search" (f32_div (f32_of_Z 248) (f32_of_Z 256)) 0).
Proof.
  apply (uniform_region_is_search (showing (image16 white)) (image16 white) box16 box16 255 eq_refl).
  - vm_compute. reflexivity.
  - exact white_uniform.
Defined.
Lemma segments_laid_out_witness : exists page, segments (showing (image16 white)) = Ok page /\ seg_bbox page = box16.
Proof.
  destruct (segments_laid_out (showing (image16 white)) (image16 white) eq_refl) as (page & E & B & _).
  - cbn. lia.
  - cbn. lia.
  - exists page. split; [exact E|exact B].
Defined.

Definition thumb (_ y : Z) : Z := if (4 <=? y) && (y <? 9) then 200 else 40.
Lemma scrollbar_longest_run_witness : exists p, scrollbar_position (showing (image16 thumb)) None = Ok p /\ thumb_bbox p = Some (mkBbox 0 4 16 5).
Proof.
  assert (clamp_to_image (default (whole (image16 thumb)) None) (width (image16 thumb)) (height (image16 thumb)) = Some box16) as C
    by (vm_compute; reflexivity).
  destruct (scrollbar_longest_run (showing (image16 thumb)) (image16 thumb) None box16 eq_refl C) as (p & E & _).
  - unfold STRIP_WIDTH. cbn. lia.
  - cbn. lia.
  - exists p. split; [exact E|].
    assert (match scrollbar_position (showing (image16 thumb)) None with Ok p => thumb_bbox p | Err _ => None end
            = Some (mkBbox 0 4 16 5)) as T by (vm_compute; reflexivity).
    rewrite E in T. exact T.
Defined.

Lemma modal_box_inside_witness : exists o, modal (showing (image16 thumb)) = Ok o /\ ov_bbox o = Some (mkBbox 4 4 8 8).
Proof.
  destruct (modal_box_inside (showing (image16 thumb)) (image16 thumb) eq_refl) as (_ & o & E & _).
  - cbn. lia.
  - cbn. lia.
  - assert (bool_decide (byte_len (image16 thumb) <= 2 ^ 31) = true) as B by (vm_compute; reflexivity).
    exact (proj1 (bool_decide_eq_true _) B).
  - exists o. split; [exact E|].
    assert (match modal (showing (image16 thumb)) with Ok o => ov_bbox o | Err _ => None end = Some (mkBbox 4 4 8 8)) as T
      by (vm_compute; reflexivity).
    rewrite E in T. exact T.
Defined.

(** A ring of four slots that holds frames 3 to 6, the first of them too old. *)
Definition ring4 : FrameRing.FrameRing :=
  FrameRing.set_slots (FrameRing.init_header "/tmp/ring" 64 4)
    [FrameRing.mkSlot 5 2 0 9000; FrameRing.mkSlot 6 2 0 10000; FrameRing.mkSlot 3 2 0 1000; FrameRing.mkSlot 4 2 0 8500].
Lemma animation_frames_spec_witness : exists a, animation_frames ring4 2 = Ok a /\ map FrameRing.h_slot_seq (frames a) = [4; 5; 6].
Proof.
  destruct (animation_frames_spec ring4 2) as (fs & E & _).
  - unfold MAX_DURATION_MS. lia.
  - change (FrameRing.head_seq ring4) with 6. lia.
  - eexists. split; [exact E|].
    assert (match animation_frames ring4 2 with Ok a => map FrameRing.h_slot_seq (frames a) | Err _ => [] end = [4; 5; 6]) as T
      by (vm_compute; reflexivity).
    rewrite E in T. exact T.
Defined.

(** The palette of a two-coloured square, the heavier colour first, and a dialog
    the model calls a failure. *)
Example two_colours : exists p, palette (showing (image16 (fun x _ => if x <? 4 then 10 else 200))) None 2 = Ok p /\
  map pe_r (colors p) = [200; 10].
Proof. eexists. split; [vm_compute; reflexivity|reflexivity]. Qed.
Example concern_fails : says_fail "Payment FAILED: try again" = true /\ says_fail "still loading" = false.
Proof. vm_compute. done. Qed.

End VisionAnalysisExamples.
