(* ===== verification/Fetcher.v ===== *)
(** * Fetcher: resolving, downloading, verifying and unpacking Chromium

    Models the crate [chromium-fetcher]: [manifest.rs], [platform.rs],
    [download.rs], [verify.rs], [extract.rs] and [fetch] of [lib.rs], over the
    file system of [Fs].  The HTTP server is a function from the number of the
    request and its offset to a response; clock readings are a function of
    their number; SHA-256, the JSON parser and the zip reader are parameters.
    Times are milliseconds. *)
From S2P Require Import Prelude Text Metrics Fs.
Import Metrics Fs.

Module Fetcher.
Local Open Scope fs_scope.

(** ** [platform.rs] and [manifest.rs] *)

Inductive Platform : Type := MacArm64 | MacX64 | Linux64.
Definition key (p : Platform) : string :=
  match p with MacArm64 => "mac-arm64" | MacX64 => "mac-x64" | Linux64 => "linux64" end.
Definition extracted_subdir (p : Platform) : string :=
  match p with MacArm64 => "chrome-mac-arm64" | MacX64 => "chrome-mac-x64" | Linux64 => "chrome-linux64" end.
Definition binary_relpath (p : Platform) : list string :=
  match p with
  | MacArm64 | MacX64 =>
      ["Google Chrome for Testing.app"; "Contents"; "MacOS"; "Google Chrome for Testing"]
  | Linux64 => ["chrome"]
  end.

Inductive Channel : Type := Stable | Beta | Dev | Canary.
Definition as_key (c : Channel) : string :=
  match c with Stable => "Stable" | Beta => "Beta" | Dev => "Dev" | Canary => "Canary" end.

Record PlatformUrl := mkUrl { pu_platform : string; pu_url : string }.
(** [VersionEntry] and [ChannelEntry]: the fields that are read. *)
Record VersionEntry := mkVersion { ve_version : string; ve_chrome : list PlatformUrl }.
Record ResolvedDownload := mkResolved { rd_version : string; rd_url : string }.

(** [iter().find(..)] *)
Fixpoint find {A} (p : A -> bool) (l : list A) : option A :=
  match l with [] => None | x :: l => if p x then Some x else find p l end.

Definition entry_url (e : VersionEntry) (platform_key : string) : result ResolvedDownload string :=
  match find (fun p => bool_decide (pu_platform p = platform_key)) (ve_chrome e) with
  | None => Err "platform not present in chrome downloads"
  | Some p => Ok (mkResolved (ve_version e) (pu_url p))
  end.
Definition resolve_from_last_known (channels : gmap string VersionEntry) (channel : Channel)
    (platform_key : string) : result ResolvedDownload string :=
  match channels !! as_key channel with
  | None => Err "channel not present in last-known manifest"
  | Some e => entry_url e platform_key
  end.
Definition resolve_from_known_good (versions : list VersionEntry) (version platform_key : string)
    : result ResolvedDownload string :=
  match find (fun v => bool_decide (ve_version v = version)) versions with
  | None => Err "version not in known-good manifest"
  | Some e => entry_url e platform_key
  end.

(** ** [download.rs]: options, errors, responses *)

Record DownloadOptions := mkOpts {
  progress_interval_bytes : Z; progress : bool; max_attempts : Z;
  total_timeout : Z; initial_backoff : Z; max_backoff : Z
}.
Definition opts_default : DownloadOptions :=
  mkOpts (5 * 1024 * 1024) true 30 (30 * 60 * 1000) 1000 30000.

Record ReqwestError := mkReqErr {
  is_timeout : bool; is_connect : bool; is_request : bool; is_body : bool; err_status : option Z
}.
Definition is_server_error (s : Z) : bool := (500 <=? s) && (s <? 600).
Definition is_success (s : Z) : bool := (200 <=? s) && (s <? 300).
Definition is_reqwest_error_retryable (e : ReqwestError) : bool :=
  if is_timeout e || is_connect e || is_request e || is_body e then true
  else match err_status e with
       | Some s => is_server_error s || (s =? 408) || (s =? 429)
       | None => true
       end.

(** What the body stream yields until it ends: bytes, an error, or nothing for
    the stall timeout. *)
Inductive chunk : Type := CBytes (b : list byte) | CErr (e : ReqwestError) | CStall.
Inductive response : Type := SendErr (e : ReqwestError) | Response (status : Z) (body : list chunk).

Inductive AttemptOutcome : Type := Done | Retry (e : string) | RangeNotSatisfiable | Fatal (e : string).

Record ProgressState := mkProg { bytes_total : Z; bytes_since_last_log : Z }.
Definition prog_new (initial : Z) : ProgressState := mkProg initial 0.
Definition prog_observe (opts : DownloadOptions) (p : ProgressState) (n : Z) : ProgressState :=
  let total := sat_add u64_max (bytes_total p) n in
  let since := sat_add u64_max (bytes_since_last_log p) n in
  if negb (progress opts) || (progress_interval_bytes opts =? 0) then mkProg total since
  else if progress_interval_bytes opts <=? since then mkProg total 0 else mkProg total since.

(** The state the download threads through. *)
Record dl := mkDl { world : World; metrics : FetchMetrics; prog : ProgressState }.
Definition with_metrics (d : dl) (f : FetchMetrics -> FetchMetrics) : dl :=
  mkDl (world d) (f (metrics d)) (prog d).
Definition run_fs {A} (c : M A) (d : dl) : result A string * dl :=
  let '(r, w) := c (world d) in (r, mkDl w (metrics d) (prog d)).

(** ** [stream_attempt] *)

Definition retry_or_fatal (e : ReqwestError) (what : string) : AttemptOutcome :=
  if is_reqwest_error_retryable e then Retry what else Fatal what.

(** The body loop; [Done] here means the stream ended. *)
Fixpoint read_body (opts : DownloadOptions) (tmp : path) (body : list chunk) (attempt_bytes : Z) (d : dl)
    : AttemptOutcome * Z * dl :=
  match body with
  | [] => (Done, attempt_bytes, d)
  | CStall :: _ =>
      (Retry "stall", attempt_bytes,
       with_metrics d (fun m => record_attempt_bytes (record_stall m) attempt_bytes))
  | CErr e :: _ =>
      (retry_or_fatal e "read body", attempt_bytes,
       with_metrics d (fun m => record_attempt_bytes m attempt_bytes))
  | CBytes b :: body =>
      match run_fs (append tmp b) d with
      | (Err e, d) => (Fatal "write tmp", attempt_bytes, d)
      | (Ok _, d) =>
          let n := zlen b in
          read_body opts tmp body (sat_add u64_max attempt_bytes n)
            (mkDl (world d) (record_bytes (metrics d) n) (prog_observe opts (prog d) n))
      end
  end.

Definition stream_attempt (opts : DownloadOptions) (resp : response) (tmp : path) (already : Z) (d : dl)
    : AttemptOutcome * dl :=
  let d := with_metrics d record_attempt in
  match resp with
  | SendErr e => (retry_or_fatal e "send GET", d)
  | Response status body =>
      if status =? 416 then (RangeNotSatisfiable, with_metrics d record_range_416)
      else if negb (is_success status) then
        ((if is_server_error status || (status =? 408) || (status =? 429)
          then Retry "status" else Fatal "status"), d)
      else
        let '(trunc, d) :=
          if (0 <? already) && negb (status =? 206) then
            match run_fs (write tmp []) d with
            | (Err e, d) => (Err e, d)
            | (Ok _, d) => (Ok tt, mkDl (world d) (metrics d) (mkProg 0 0))
            end
          else (Ok tt, d) in
        match trunc with
        | Err _ => (Fatal "truncate tmp after non-206 resume", d)
        | Ok _ =>
            match run_fs (open_append tmp) d with
            | (Err _, d) => (Fatal "open tmp", d)
            | (Ok _, d) =>
                match read_body opts tmp body 0 d with
                | (Done, n, d) =>
                    let d := with_metrics d (fun m => record_attempt_bytes m n) in
                    match run_fs (sync ;;; sync) d with
                    | (Err _, d) => (Fatal "flush", d)
                    | (Ok _, d) => (Done, d)
                    end
                | (out, _, d) => (out, d)
                end
            end
        end
  end.

(** ** [single_stream_to_tmp] *)

(** The loop's own state: readings of the clock so far, requests made, backoff,
    whether a 416 was used up, and the sleeps. *)
Record loop := mkLoop {
  readings : nat; gets_made : nat; backoff : Z; range_416_consumed : bool; sleeps : list Z
}.

Section Download.
Variable opts : DownloadOptions.
Variable get : nat -> Z -> response.
Variable clock : nat -> Z.
Variable tmp : path.
Variable expected_total : Z.

Definition tmp_len (d : dl) : Z := default 0 (file_len (fs (world d)) tmp).

(** [attempt] is the number of the attempt; [todo] the attempts from it on. *)
Fixpoint attempts_loop (deadline : Z) (todo : nat) (attempt : Z) (l : loop) (d : dl)
    : result unit string * loop * dl :=
  match todo with
  | O => (Err "exhausted retries", l, d)
  | S todo =>
      let already := tmp_len d in
      if already =? expected_total then (Ok tt, l, d)
      else
        let '(trunc, d) :=
          if expected_total <? already then run_fs (write tmp []) d else (Ok tt, d) in
        match trunc with
        | Err e => (Err e, l, d)
        | Ok _ =>
            let now := clock (readings l) in
            let l := mkLoop (S (readings l)) (gets_made l) (backoff l) (range_416_consumed l) (sleeps l) in
            if deadline <=? now then (Err "total timeout exceeded", l, d)
            else
              let '(out, d) := stream_attempt opts (get (gets_made l) already) tmp already d in
              let l := mkLoop (readings l) (S (gets_made l)) (backoff l) (range_416_consumed l) (sleeps l) in
              let retry (d : dl) :=
                if attempt =? max_attempts opts then (Err "exhausted retries", l, d)
                else
                  let now := clock (readings l) in
                  let remaining := sat_sub deadline now in
                  let l := mkLoop (S (readings l)) (gets_made l) (backoff l) (range_416_consumed l) (sleeps l) in
                  if remaining =? 0 then (Err "total timeout exceeded", l, d)
                  else
                    let l := mkLoop (readings l) (gets_made l) (Z.min (backoff l * 2) (max_backoff opts))
                               (range_416_consumed l) (sleeps l ++ [Z.min (backoff l) remaining]) in
                    attempts_loop deadline todo (attempt + 1) l d in
              match out with
              | Done =>
                  if tmp_len d =? expected_total then (Ok tt, l, d)
                  else retry (with_metrics d record_retry)
              | Retry _ => retry (with_metrics d record_retry)
              | RangeNotSatisfiable =>
                  if range_416_consumed l then (Err "416 twice", l, d)
                  else
                    let l := mkLoop (readings l) (gets_made l) (backoff l) true (sleeps l) in
                    match run_fs (write tmp []) d with
                    | (Err e, d) => (Err e, l, d)
                    | (Ok _, d) =>
                        attempts_loop deadline todo (attempt + 1) l (mkDl (world d) (metrics d) (prog_new 0))
                    end
              | Fatal e => (Err e, l, d)
              end
        end
  end.

Definition single_stream_to_tmp (d : dl) : result unit string * loop * dl :=
  let initial := tmp_len d in
  let l0 := mkLoop 0 0 (initial_backoff opts) false [] in
  let '(trunc, d) :=
    if expected_total <? initial then run_fs (write tmp []) d else (Ok tt, d) in
  match trunc with
  | Err e => (Err e, l0, d)
  | Ok _ =>
      let d := mkDl (world d) (metrics d) (prog_new (Z.min initial expected_total)) in
      let deadline := clock 0%nat + total_timeout opts in
      attempts_loop deadline (Z.to_nat (max_attempts opts)) 1
        (mkLoop 1 0 (initial_backoff opts) false []) d
  end.

End Download.

(** ** [finalize] and [download_zip] *)

Definition finalize (tmp dest : path) (expected_total : Z) : M unit :=
  size <- gets (fun m => file_len m tmp) ;;
  match size with
  | None => fail "stat tmp"
  | Some actual =>
      if negb (actual =? expected_total) then fail "tmp size differs from expected total"
      else read tmp ;;; sync ;;; rename tmp dest
  end.

(** [dest.file_name()] with the suffix. *)
Definition tmp_path_for (dest : path) : result path string :=
  match last dest with
  | None => Err "dest has no filename"
  | Some name => Ok (with_file_name dest (name +:+ ".tmp"))
  end.

(** The network of one download: the answer to HEAD (length and ranges, or an
    error or timeout), the answers to GET, the clock, and the time the whole
    download takes. *)
Record network := mkNet { n_head : result (Z * bool) string; n_get : nat -> Z -> response; n_clock : nat -> Z;
  n_elapsed : Z }.

Definition download_zip (opts : DownloadOptions) (net : network) (dest : path) (started : FetchMetrics) (w : World)
    : result unit string * FetchMetrics * World :=
  let mk : M unit := if bool_decide (parent dest = []) then ret tt else create_dir_all (parent dest) in
  match mk w with
  | (Err e, w) => (Err e, started, w)
  | (Ok _, w) =>
      if exists_ (fs w) dest then (Ok tt, started, w)
      else
        let m := record_download_start started in
        match n_head net with
        | Err e => (Err e, record_download_failure m, w)
        | Ok (total, _) =>
            match tmp_path_for dest with
            | Err e => (Err e, m, w)
            | Ok tmp =>
                let '(r, _, d) := single_stream_to_tmp opts (n_get net) (n_clock net) tmp total
                                    (mkDl w m (prog_new 0)) in
                match r with
                | Err e => (Err e, record_download_failure (metrics d), world d)
                | Ok _ =>
                    match finalize tmp dest total (world d) with
                    | (Err e, w) => (Err e, metrics d, w)
                    | (Ok _, w) => (Ok tt, record_download_completion (metrics d) (n_elapsed net), w)
                    end
                end
            end
        end
  end.

(** ** [verify.rs] *)

Record zip_entry := mkEntry {
  z_name : option path;              (* [enclosed_name] *)
  z_is_dir : bool;
  z_data : result (list byte) string
}.

Section Fetch.
(** SHA-256 in hexadecimal; the zip reader; [canonicalize], as the identity on failure. *)
Variable sha256 : list byte -> list byte.
Variable unzip : list byte -> result (list (result zip_entry string)) string.
Variable canon : path -> path.

Definition lower (b : byte) : byte :=
  let v := byte_val b in if Text.between 65 90 v then byte_of_Z (v + 32) else b.
Definition eq_ignore_ascii_case (a b : list byte) : bool := bool_decide (map lower a = map lower b).

Definition sha256_hex (p : path) : M (list byte) := b <- read p ;; ret (sha256 b).
Definition verify_against (p : path) (expected_hex : list byte) : M unit :=
  actual <- sha256_hex p ;;
  if eq_ignore_ascii_case actual expected_hex then ret tt else fail "sha256 mismatch".

Definition pin_path (rev_dir : path) : path := join rev_dir ".sha256".
Definition read_pin (rev_dir : path) : M (option (list byte)) :=
  op (fun m => match m !! pin_path rev_dir with
               | None => (Ok None, m)
               | Some (FileN b) =>
                   if decide (Text.from_utf8_lossy b = b)
                   then (Ok (Some (Text.utf8_bytes (Text.trim (Text.lossy_chars b)))), m)
                   else (Err "read pin", m)
               | Some DirN => (Err "read pin", m)
               end).
Definition write_pin (rev_dir : path) (hex : list byte) : M unit :=
  create_dir_all rev_dir ;;;
  write (join rev_dir ".sha256.tmp") hex ;;;
  rename (join rev_dir ".sha256.tmp") (pin_path rev_dir).

(** ** [extract.rs] *)

Definition complete_marker (rev_dir : path) : path := join rev_dir ".complete".
Definition is_complete (m : FS) (rev_dir : path) : bool := exists_ m (complete_marker rev_dir).
Definition mark_complete (rev_dir : path) : M unit :=
  write (complete_marker rev_dir) (String.list_byte_of_string "ok" ++ [Byte.x0a]).

Definition rm_rf (p : path) : M unit :=
  present <- gets (fun m => exists_ m p) ;;
  if negb present then ret tt
  else d <- gets (fun m => is_dir m p) ;;
       if (d : bool) then remove_dir_all p else remove_file p.

Definition extract_entry (dest_dir : path) (e : result zip_entry string) : M unit :=
  match e with
  | Err msg => fail msg
  | Ok entry =>
      match z_name entry with
      | None => fail "unsafe name"
      | Some raw_name =>
          let out_path := dest_dir ++ raw_name in
          if negb (bool_decide (canon dest_dir `prefix_of` parent out_path))
             && negb (bool_decide (dest_dir `prefix_of` parent out_path))
          then fail "escapes dest dir"
          else if z_is_dir entry then create_dir_all out_path
          else
            create_dir_all (parent out_path) ;;;
            write out_path [] ;;;
            match z_data entry with
            | Err msg => fail msg
            | Ok b => append out_path b ;;; sync
            end
      end
  end.
Fixpoint extract_entries (dest_dir : path) (es : list (result zip_entry string)) : M unit :=
  match es with
  | [] => ret tt
  | e :: es => extract_entry dest_dir e ;;; extract_entries dest_dir es
  end.

Definition extract (zip_path dest_dir : path) : M unit :=
  complete <- gets (fun m => is_complete m dest_dir) ;;
  if (complete : bool) then ret tt
  else
    present <- gets (fun m => exists_ m dest_dir) ;;
    (if (present : bool) then rm_rf dest_dir else ret tt) ;;;
    create_dir_all dest_dir ;;;
    b <- read zip_path ;;
    match unzip b with
    | Err e => fail e
    | Ok es => extract_entries dest_dir es ;;; mark_complete dest_dir
    end.

(** ** [lib.rs] *)

Definition binary_path (rev_dir : path) (plat : Platform) : path :=
  join rev_dir (extracted_subdir plat) ++ binary_relpath plat.
Definition zip_path_of (rev_dir : path) (plat : Platform) : path :=
  join rev_dir (extracted_subdir plat +:+ ".zip").

Variable opts : DownloadOptions.

Definition download (net : network) (dest : path) : M unit :=
  fun w => let '(r, _, w) := download_zip opts net dest fetch_default w in (r, w).

(** A failing [read_pin] or [write_pin] ends
    the call at once, a failing digest goes through the retry. *)
Definition check_sha_result (rev_dir zip_path : path) : M (result unit string) :=
  pin <- read_pin rev_dir ;;
  match pin with
  | Some expected => fun w => let '(r, w) := verify_against zip_path expected w in (Ok r, w)
  | None => fun w =>
      match sha256_hex zip_path w with
      | (Ok actual, w) => (write_pin rev_dir actual ;;; ret (Ok tt)) w
      | (Err e, w) => (Ok (Err e), w)
      end
  end.

(** The download and verify loop; [nets]: the network of each turn, two in all. *)
Fixpoint sha_loop (rev_dir zip_path : path) (nets : list network) : M unit :=
  match nets with
  | [] => fail "sha verification failed twice in a row"
  | net :: nets =>
      download net zip_path ;;;
      r <- check_sha_result rev_dir zip_path ;;
      match r with
      | Ok _ => ret tt
      | Err e =>
          match nets with
          | [] => fail "sha verification failed twice in a row"
          | _ =>
              ignore (remove_file zip_path) ;;;
              ignore (remove_file (with_file_name zip_path
                        (default "" (last zip_path) +:+ ".tmp"))) ;;;
              sha_loop rev_dir zip_path nets
          end
      end
  end.

(** [fetch] once the version is resolved. *)
Definition fetch_resolved (root : path) (plat : Platform) (resolved : ResolvedDownload)
    (net0 net1 : network) : M path :=
  let rev_dir := join root (rd_version resolved) in
  let bin := binary_path rev_dir plat in
  hit <- gets (fun m => is_complete m rev_dir && exists_ m bin) ;;
  if (hit : bool) then ret bin
  else
    create_dir_all rev_dir ;;;
    let zip_path := zip_path_of rev_dir plat in
    sha_loop rev_dir zip_path [net0; net1] ;;;
    extract zip_path rev_dir ;;;
    ignore (remove_file zip_path) ;;;
    there <- gets (fun m => exists_ m bin) ;;
    if (there : bool) then ret bin else fail "after extract, binary not at expected path".

(** The parsers of the two cached manifests. *)
Variable parse_known_good : list byte -> result (list VersionEntry) string.
Variable parse_last_known : list byte -> result (gmap string VersionEntry) string.

Definition lift {A} (r : result A string) : M A := fun w => (r, w).

Definition fetch (platform : result Platform string) (cache root : path) (channel : Channel)
    (rev : option string) (net0 net1 : network) : M path :=
  plat <- lift platform ;;
  resolved <- match rev with
              | Some version =>
                  bytes <- read (join cache "cft-known-good.json") ;;
                  vs <- lift (parse_known_good bytes) ;;
                  lift (resolve_from_known_good vs version (key plat))
              | None =>
                  bytes <- read (join cache "cft-last-known.json") ;;
                  cs <- lift (parse_last_known bytes) ;;
                  lift (resolve_from_last_known cs channel (key plat))
              end ;;
  fetch_resolved root plat resolved net0 net1.

End Fetch.

(** ** A server of one content *)

(** The bytes a body yields before it ends, fails or stalls. *)
Fixpoint body_bytes (body : list chunk) : list byte :=
  match body with CBytes b :: body => b ++ body_bytes body | _ => [] end.

(** Every body is a part of the content: from the offset asked for when the
    status is 206, which is given only inside the content, and from the start
    otherwise. *)
Definition honest (content : list byte) (get : nat -> Z -> response) : Prop :=
  forall i off, 0 <= off ->
  match get i off with
  | SendErr _ => True
  | Response status body =>
      is_success status = true ->
      if status =? 206
      then off < zlen content /\ body_bytes body `prefix_of` drop (Z.to_nat off) content
      else body_bytes body `prefix_of` content
  end.

Definition tmp_bytes (tmp : path) (d : dl) : list byte := contents (fs (world d)) tmp.

Lemma tmp_len_bytes tmp d : tmp_len tmp d = zlen (tmp_bytes tmp d).
Proof. unfold tmp_len, tmp_bytes, file_len, contents. now destruct (fs (world d) !! tmp) as [[]|]. Qed.

Lemma run_write_contents p b d r d' : run_fs (write p b) d = (r, d') ->
  match r with Ok _ => tmp_bytes p d' = b | Err _ => fs (world d') = fs (world d) end.
Proof.
  unfold run_fs, tmp_bytes. destruct (write p b (world d)) as [r0 w] eqn:E. intros [= <- <-]. cbn [world].
  unfold write, op in E. destruct (faults (world d)) as [|[] fl];
    [|injection E as <- <-; reflexivity|]; (destruct (_ || _); injection E as <- <-; [reflexivity|]);
    unfold contents; cbn [fs]; now rewrite lookup_insert_eq.
Qed.

Lemma run_append_contents p b d r d' : run_fs (append p b) d = (r, d') ->
  match r with Ok _ => tmp_bytes p d' = tmp_bytes p d ++ b | Err _ => fs (world d') = fs (world d) end.
Proof.
  unfold run_fs, tmp_bytes. destruct (append p b (world d)) as [r0 w] eqn:E. intros [= <- <-]. cbn [world].
  unfold append, op in E. destruct (faults (world d)) as [|[] fl];
    injection E as <- <-; try reflexivity; unfold contents at 1; cbn [fs]; now rewrite lookup_insert_eq.
Qed.

Lemma run_open_contents p d r d' : run_fs (open_append p) d = (r, d') -> tmp_bytes p d' = tmp_bytes p d.
Proof.
  unfold run_fs, tmp_bytes. destruct (open_append p (world d)) as [r0 w] eqn:E. intros [= <- <-]. cbn [world].
  unfold open_append, op in E. destruct (faults (world d)) as [|[] fl];
    [|injection E as <- <-; reflexivity|]; (destruct (_ || _); injection E as <- <-; [reflexivity|]);
    unfold contents at 1; cbn [fs]; now rewrite lookup_insert_eq.
Qed.

Lemma run_sync_contents p d r d' : run_fs (sync ;;; sync) d = (r, d') -> tmp_bytes p d' = tmp_bytes p d.
Proof.
  unfold run_fs, tmp_bytes, bind, sync, op.
  destruct (faults (world d)) as [|[] [|[] fl]]; intros [= <- <-]; reflexivity.
Qed.

Lemma read_body_bytes opts tmp body : forall n d,
  let '(out, _, d') := read_body opts tmp body n d in
  exists got, tmp_bytes tmp d' = tmp_bytes tmp d ++ got /\ got `prefix_of` body_bytes body /\
    (out = Done -> got = body_bytes body).
Proof.
  induction body as [|[b|e|] body IH]; intros n d; cbn [read_body body_bytes];
    try (exists []; rewrite app_nil_r; split; [done|]; split; [apply prefix_nil|];
         (reflexivity || unfold retry_or_fatal; now case_match)).
  destruct (run_fs (append tmp b) d) as [r d1] eqn:E. apply run_append_contents in E. destruct r as [|e].
  - specialize (IH (sat_add u64_max n (zlen b))
      (mkDl (world d1) (record_bytes (metrics d1) (zlen b)) (prog_observe opts (prog d1) (zlen b)))).
    destruct (read_body _ _ _ _ _) as [[out n'] d']. destruct IH as (got & E1 & P & Hd).
    exists (b ++ got). change (tmp_bytes tmp _) with (tmp_bytes tmp d1) in E1 at 2.
    rewrite E1, E, <- (assoc_L (++)). split; [done|]. split; [now apply prefix_app|].
    intros Ho. now rewrite (Hd Ho).
  - exists []. unfold tmp_bytes. rewrite E, app_nil_r. split; [done|]. split; [apply prefix_nil|discriminate].
Qed.

(** ** A download assembles the content *)

Lemma stream_attempt_prefix opts content get i tmp d : honest content get ->
  tmp_bytes tmp d `prefix_of` content ->
  let resp := get i (tmp_len tmp d) in
  tmp_bytes tmp (snd (stream_attempt opts resp tmp (tmp_len tmp d) d)) `prefix_of` content.
Proof.
  cbv zeta. intros H P. rewrite tmp_len_bytes. pose proof (zlen_nonneg (tmp_bytes tmp d)) as N.
  specialize (H i (zlen (tmp_bytes tmp d)) N). set (off := zlen (tmp_bytes tmp d)) in *. unfold stream_attempt.
  destruct (get i off) as [e|status body]; [exact P|].
  destruct (status =? 416); [exact P|]. destruct (is_success status); [|exact P]. cbn [negb].
  specialize (H eq_refl). set (d0 := with_metrics d record_attempt).
  set (t := if (0 <? off) && negb (status =? 206) then _ else _).
  assert (tmp_bytes tmp (snd t) `prefix_of` content /\
          (forall u, fst t = Ok u -> tmp_bytes tmp (snd t) ++ body_bytes body `prefix_of` content)) as [P1 P2].
  { unfold t. destruct (status =? 206) eqn:Es; [rewrite andb_false_r|rewrite andb_true_r].
    - split; [exact P|]. intros _ _. destruct H as [_ Hb]. destruct P as [suf ->]. cbn [snd].
      change (tmp_bytes tmp d0) with (tmp_bytes tmp d). apply prefix_app.
      unfold off, zlen in Hb. rewrite Nat2Z.id, drop_app_length in Hb. exact Hb.
    - destruct (0 <? off) eqn:E0.
      + destruct (run_fs (write tmp []) d0) as [r d1] eqn:Ew. apply run_write_contents in Ew.
        destruct r; cbn [fst snd]; [|unfold tmp_bytes; rewrite Ew; split; [exact P|discriminate]].
        change (tmp_bytes tmp (mkDl (world d1) (metrics d1) (mkProg 0 0))) with (tmp_bytes tmp d1).
        rewrite Ew. split; [apply prefix_nil|]. intros _ _. exact H.
      + split; [exact P|]. intros _ _. cbn [snd]. change (tmp_bytes tmp d0) with (tmp_bytes tmp d).
        assert (tmp_bytes tmp d = []) as -> by (apply length_zero_iff_nil; unfold off, zlen in E0; lia). exact H. }
  destruct t as [[u|e] d1]; cbn [fst snd] in *; [|exact P1]. specialize (P2 u eq_refl).
  destruct (run_fs (open_append tmp) d1) as [r d2] eqn:Eo. apply run_open_contents in Eo.
  destruct r; [|cbn [snd]; now rewrite Eo].
  pose proof (read_body_bytes opts tmp body 0 d2) as Hb.
  destruct (read_body opts tmp body 0 d2) as [[out n] d3]. destruct Hb as (got & E3 & Pg & _).
  assert (tmp_bytes tmp d3 `prefix_of` content) as P3.
  { rewrite E3, Eo. transitivity (tmp_bytes tmp d1 ++ body_bytes body); [now apply prefix_app|exact P2]. }
  destruct out; try exact P3.
  destruct (run_fs (sync ;;; sync) _) as [r d4] eqn:Es. apply (run_sync_contents tmp) in Es.
  destruct r; cbn [snd]; now rewrite Es.
Qed.

(** The loop keeps the partial file a prefix of the content, returns [Ok] only
    with a file of the expected length, and makes one request an attempt. *)
Lemma attempts_loop_prefix opts content get clock tmp deadline todo : honest content get ->
  forall attempt l d, tmp_bytes tmp d `prefix_of` content ->
  let '(r, l', d') := attempts_loop opts get clock tmp (zlen content) deadline todo attempt l d in
  tmp_bytes tmp d' `prefix_of` content /\
  (r = Ok tt -> tmp_len tmp d' = zlen content) /\
  (gets_made l <= gets_made l' <= gets_made l + todo)%nat.
Proof.
  intros H. induction todo as [|todo IH]; intros attempt l d P; cbn [attempts_loop];
    [split; [exact P|]; split; [discriminate|lia]|].
  destruct (tmp_len tmp d =? zlen content) eqn:Ea; [split; [exact P|]; split; [intros _|]; lia|].
  assert (zlen content <? tmp_len tmp d = false) as ->.
  { rewrite tmp_len_bytes. apply prefix_length in P. unfold zlen. lia. }
  destruct (deadline <=? _); [split; [exact P|]; split; [discriminate|cbn; lia]|].
  cbn [gets_made]. pose proof (stream_attempt_prefix opts content get (gets_made l) tmp d H P) as P1. cbv zeta in P1.
  destruct (stream_attempt _ _ _ _ d) as [out d1]. cbn [snd] in P1.
  assert (forall l' d', gets_made l' = S (gets_made l) -> tmp_bytes tmp d' `prefix_of` content ->
    let '(r, l'', d'') := attempts_loop opts get clock tmp (zlen content) deadline todo (attempt + 1) l' d' in
    tmp_bytes tmp d'' `prefix_of` content /\ (r = Ok tt -> tmp_len tmp d'' = zlen content) /\
    (gets_made l <= gets_made l'' <= gets_made l + S todo)%nat) as K.
  { intros l' d' El P'. specialize (IH (attempt + 1) l' d' P').
    destruct (attempts_loop _ _ _ _ _ _ _ _ _ _) as [[r l''] d'']. destruct IH as (? & ? & ?).
    split; [done|]. split; [done|]. lia. }
  clear IH.
  assert (forall (e : string) l' d', gets_made l' = S (gets_made l) -> tmp_bytes tmp d' `prefix_of` content ->
    tmp_bytes tmp d' `prefix_of` content /\ (@Err unit string e = Ok tt -> tmp_len tmp d' = zlen content) /\
    (gets_made l <= gets_made l' <= gets_made l + S todo)%nat) as F.
  { intros e l' d' El P'. split; [done|]. split; [discriminate|]. lia. }
  destruct out as [|e| |e]; [|..|now apply F].
  - destruct (tmp_len tmp d1 =? zlen content) eqn:E1; [split; [exact P1|]; cbn [gets_made]; lia|].
    destruct (attempt =? max_attempts opts); [now apply F|]. destruct (_ =? 0); [now apply F|now apply K].
  - destruct (attempt =? max_attempts opts); [now apply F|]. destruct (_ =? 0); [now apply F|now apply K].
  - cbn [range_416_consumed]. destruct (range_416_consumed l); [now apply F|].
    destruct (run_fs (write tmp []) d1) as [[u|e] d2] eqn:Ew; apply run_write_contents in Ew.
    + apply K; [done|]. change (tmp_bytes tmp _) with (tmp_bytes tmp d2). rewrite Ew. apply prefix_nil.
    + apply F; [done|]. unfold tmp_bytes. rewrite Ew. exact P1.
Qed.

Lemma single_stream_prefix opts content get clock tmp d : honest content get ->
  tmp_bytes tmp d `prefix_of` content \/ zlen content < tmp_len tmp d ->
  let '(r, l, d') := single_stream_to_tmp opts get clock tmp (zlen content) d in
  (r = Ok tt -> tmp_bytes tmp d' = content) /\ (gets_made l <= Z.to_nat (max_attempts opts))%nat.
Proof.
  intros H Hi. unfold single_stream_to_tmp.
  set (t := if zlen content <? tmp_len tmp d then _ else _).
  assert (forall u, fst t = Ok u -> tmp_bytes tmp (snd t) `prefix_of` content) as P.
  { unfold t. destruct (zlen content <? tmp_len tmp d) eqn:E.
    - destruct (run_fs (write tmp []) d) as [r d1] eqn:Ew. apply run_write_contents in Ew.
      destruct r; [|discriminate]. intros _ _. cbn [snd]. rewrite Ew. apply prefix_nil.
    - intros _ _. cbn [snd]. destruct Hi; [done|]. lia. }
  destruct t as [[u|e] d1]; [|split; [discriminate|cbn; lia]].
  specialize (P u eq_refl). cbn [snd] in P.
  pose proof (attempts_loop_prefix opts content get clock tmp (clock 0%nat + total_timeout opts)
    (Z.to_nat (max_attempts opts)) H 1 (mkLoop 1 0 (initial_backoff opts) false [])
    (mkDl (world d1) (metrics d1) (prog_new (Z.min (tmp_len tmp d) (zlen content)))) P) as K.
  destruct (attempts_loop _ _ _ _ _ _ _ _ _ _) as [[r l] d2]. destruct K as (P2 & L & G).
  split; [|cbn [gets_made] in G; lia]. intros ->. specialize (L eq_refl). rewrite tmp_len_bytes in L.
  apply prefix_length_eq; [done|]. unfold zlen in L. lia.
Qed.

(** ** A download completes after transient failures *)

(** No call fails, and the partial file can be written. *)
Definition ready (tmp : path) (d : dl) : Prop :=
  faults (world d) = [] /\ is_dir (fs (world d)) tmp = false /\ parent_ok (fs (world d)) tmp = true /\ tmp <> [].

Lemma ready_insert tmp d b m p : ready tmp d ->
  ready tmp (mkDl (mkWorld (<[tmp := FileN b]> (fs (world d))) []) m p).
Proof.
  intros (F & D & P & N). unfold ready, is_dir, parent_ok in *. cbn [world faults fs].
  rewrite lookup_insert_eq. repeat split; [|done].
  assert (parent tmp <> tmp) as Np.
  { unfold parent. destruct tmp as [|x tmp] using rev_ind; [done|]. rewrite removelast_last. intros E.
    apply (f_equal length) in E. rewrite length_app in E. simpl in E. lia. }
  unfold is_dir. now rewrite lookup_insert_ne by congruence.
Qed.

Lemma ready_write tmp b d : ready tmp d ->
  exists d', run_fs (write tmp b) d = (Ok tt, d') /\ ready tmp d'.
Proof.
  intros R. pose proof R as (F & D & P & N). unfold run_fs, write, op. rewrite F, D, P. cbn [orb negb tail].
  eexists. split; [reflexivity|]. now apply ready_insert.
Qed.
Lemma ready_open tmp d : ready tmp d ->
  exists d', run_fs (open_append tmp) d = (Ok tt, d') /\ ready tmp d'.
Proof.
  intros R. pose proof R as (F & D & P & N). unfold run_fs, open_append, op. rewrite F, D, P. cbn [orb negb tail].
  eexists. split; [reflexivity|]. now apply ready_insert.
Qed.
Lemma ready_append tmp b d : ready tmp d ->
  exists d', run_fs (append tmp b) d = (Ok tt, d') /\ ready tmp d'.
Proof.
  intros R. pose proof R as (F & D & P & N). unfold run_fs, append, op. rewrite F.
  eexists. split; [reflexivity|]. now apply ready_insert.
Qed.

Definition retryable_chunk (c : chunk) : bool :=
  match c with CErr e => is_reqwest_error_retryable e | _ => true end.
Definition is_bytes (c : chunk) : bool := match c with CBytes _ => true | _ => false end.

(** A response after which the loop goes on. *)
Definition transient (resp : response) : bool :=
  match resp with
  | SendErr e => is_reqwest_error_retryable e
  | Response s body =>
      negb (s =? 416) &&
      (if is_success s then forallb retryable_chunk body
       else is_server_error s || (s =? 408) || (s =? 429))
  end.
(** A response that carries all that is missing of the content. *)
Definition complete (content : list byte) (off : Z) (resp : response) : bool :=
  match resp with
  | SendErr e => false
  | Response s body =>
      is_success s && forallb is_bytes body &&
      bool_decide (body_bytes body = if s =? 206 then drop (Z.to_nat off) content else content)
  end.

Definition going_on (o : AttemptOutcome) : Prop :=
  match o with Done | Retry _ => True | RangeNotSatisfiable | Fatal _ => False end.

Lemma read_body_ready opts tmp body : forallb retryable_chunk body = true -> forall n d, ready tmp d ->
  let '(out, _, d') := read_body opts tmp body n d in
  ready tmp d' /\ going_on out /\ (forallb is_bytes body = true -> out = Done).
Proof.
  induction body as [|[b|e|] body IH]; cbn [forallb]; intros Hb n d R; cbn [read_body].
  - repeat split; apply R.
  - destruct (ready_append tmp b d R) as (d1 & -> & R1). apply andb_true_iff in Hb as [_ Hb].
    specialize (IH Hb (sat_add u64_max n (zlen b))
      (mkDl (world d1) (record_bytes (metrics d1) (zlen b)) (prog_observe opts (prog d1) (zlen b))) R1).
    destruct (read_body _ _ _ _ _) as [[out n'] d']. exact IH.
  - apply andb_true_iff in Hb as [Hb _]. cbn [retryable_chunk] in Hb. unfold retry_or_fatal. rewrite Hb.
    split; [exact R|]. split; [exact I|discriminate].
  - split; [exact R|]. split; [exact I|discriminate].
Qed.

Lemma stream_attempt_ready opts resp tmp already d : ready tmp d -> transient resp = true ->
  ready tmp (snd (stream_attempt opts resp tmp already d)) /\
  going_on (fst (stream_attempt opts resp tmp already d)).
Proof.
  intros R. unfold stream_attempt, transient. destruct resp as [e|s body].
  { intros He. unfold retry_or_fatal. rewrite He. split; [exact R|exact I]. }
  intros [H416 H]%andb_true_iff. apply negb_true_iff in H416. rewrite H416.
  destruct (is_success s); cbn [negb]; [|rewrite H; split; [exact R|exact I]].
  set (t := if (0 <? already) && negb (s =? 206) then _ else _).
  assert (exists d1, t = (Ok tt, d1) /\ ready tmp d1) as (d1 & -> & R1).
  { unfold t. destruct (_ && _); [|eexists; split; [reflexivity|exact R]].
    destruct (ready_write tmp [] (with_metrics d record_attempt) R) as (d1 & -> & R1).
    eexists. split; [reflexivity|exact R1]. }
  destruct (ready_open tmp d1 R1) as (d2 & -> & R2).
  pose proof (read_body_ready opts tmp body H 0 d2 R2) as Hb.
  destruct (read_body opts tmp body 0 d2) as [[out n] d3]. destruct Hb as (R3 & G & _).
  destruct out; try contradiction; [|split; [exact R3|exact I]].
  unfold run_fs, bind, sync, op. cbn [with_metrics world]. pose proof R3 as (F & _). rewrite F.
  cbn [fst snd tail faults]. split; [|exact I]. destruct R3 as (_ & D & P & N). repeat split; done.
Qed.

Lemma stream_attempt_complete opts content resp tmp d : ready tmp d ->
  tmp_bytes tmp d `prefix_of` content -> complete content (tmp_len tmp d) resp = true ->
  let '(out, d') := stream_attempt opts resp tmp (tmp_len tmp d) d in
  out = Done /\ tmp_bytes tmp d' = content.
Proof.
  intros R [suf Hs] C. unfold complete in C. destruct resp as [e|s body]; [discriminate|].
  apply andb_true_iff in C as [[Cs Cb]%andb_true_iff Ce]. apply bool_decide_eq_true in Ce.
  unfold stream_attempt. rewrite Cs. cbn [negb].
  assert (s =? 416 = false) as -> by (unfold is_success in Cs; lia).
  set (t := if _ && negb (s =? 206) then _ else _).
  assert (exists d1, t = (Ok tt, d1) /\ ready tmp d1 /\ tmp_bytes tmp d1 ++ body_bytes body = content)
    as (d1 & -> & R1 & E1).
  { unfold t. clear t. rewrite Ce, !tmp_len_bytes. destruct (s =? 206); [rewrite andb_false_r|rewrite andb_true_r].
    - eexists. split; [reflexivity|]. split; [exact R|]. change (tmp_bytes tmp (with_metrics d record_attempt)) with (tmp_bytes tmp d).
      rewrite Hs at 2. unfold zlen. rewrite Nat2Z.id, Hs, drop_app_length. reflexivity.
    - destruct (0 <? _) eqn:E0.
      + destruct (ready_write tmp [] (with_metrics d record_attempt) R) as (d1 & Ew & R1). rewrite Ew.
        apply run_write_contents in Ew. eexists. split; [reflexivity|]. split; [exact R1|].
        change (tmp_bytes tmp _) with (tmp_bytes tmp d1). now rewrite Ew.
      + eexists. split; [reflexivity|]. split; [exact R|].
        change (tmp_bytes tmp (with_metrics d record_attempt)) with (tmp_bytes tmp d).
        assert (tmp_bytes tmp d = []) as -> by (apply length_zero_iff_nil; unfold zlen in E0; lia). done. }
  destruct (ready_open tmp d1 R1) as (d2 & Eo & R2). rewrite Eo. apply run_open_contents in Eo.
  assert (forallb retryable_chunk body = true) as Cr.
  { revert Cb. clear. induction body as [|[]]; cbn; auto; discriminate. }
  pose proof (read_body_ready opts tmp body Cr 0 d2 R2) as Hb.
  pose proof (read_body_bytes opts tmp body 0 d2) as Hb'.
  destruct (read_body opts tmp body 0 d2) as [[out n] d3]. destruct Hb as (R3 & _ & Hd).
  destruct Hb' as (got & E3 & _ & Hg). rewrite (Hd Cb). rewrite (Hg (Hd Cb)), Eo, E1 in E3.
  unfold run_fs, bind, sync, op. cbn [with_metrics world]. pose proof R3 as (F & _). rewrite F.
  cbn [tail faults]. split; [reflexivity|exact E3].
Qed.

Lemma complete_transient content off resp : complete content off resp = true -> transient resp = true.
Proof.
  unfold complete, transient. destruct resp as [e|s body]; [discriminate|].
  intros [[Hs Hb]%andb_true_iff _]%andb_true_iff. rewrite Hs.
  apply andb_true_iff. split; [unfold is_success in Hs; lia|].
  revert Hb. clear. induction body as [|[]]; cbn; auto; discriminate.
Qed.

Definition completed (tmp : path) (res : result unit string * loop * dl) : Prop :=
  fst (fst res) = Ok tt /\ ready tmp (snd res).

Lemma attempts_loop_completes opts content get clock tmp deadline todo : honest content get ->
  (forall i, clock i < deadline) -> forall k attempt l d,
  attempt + Z.of_nat todo = max_attempts opts + 1 ->
  (gets_made l <= k < gets_made l + todo)%nat ->
  (forall i off, (i < k)%nat -> transient (get i off) = true) ->
  (forall off, 0 <= off < zlen content -> complete content off (get k off) = true) ->
  ready tmp d -> tmp_bytes tmp d `prefix_of` content ->
  completed tmp (attempts_loop opts get clock tmp (zlen content) deadline todo attempt l d).
Proof.
  intros H Hc. induction todo as [|todo IH]; intros k attempt l d Ha Hk Ht Hok R P; [lia|]. cbn [attempts_loop].
  destruct (tmp_len tmp d =? zlen content) eqn:Ea; [now split|].
  assert (tmp_len tmp d < zlen content) as Hl.
  { rewrite tmp_len_bytes in *. apply prefix_length in P. unfold zlen in *. lia. }
  assert (zlen content <? tmp_len tmp d = false) as -> by lia. cbn [gets_made].
  assert (forall i, deadline <=? clock i = false) as Hc' by (intros i; specialize (Hc i); lia). rewrite Hc'.
  assert (0 <= tmp_len tmp d) as H0 by (rewrite tmp_len_bytes; apply zlen_nonneg).
  destruct (decide (gets_made l = k)) as [<-|Nk].
  - pose proof (stream_attempt_complete opts content (get (gets_made l) (tmp_len tmp d)) tmp d R P
                  (Hok _ (conj H0 Hl))) as C.
    destruct (stream_attempt_ready opts _ tmp (tmp_len tmp d) d R
                (complete_transient _ _ _ (Hok _ (conj H0 Hl)))) as [R1 _].
    destruct (stream_attempt _ _ _ _ d) as [out d1]. destruct C as [-> C]. rewrite tmp_len_bytes, C, Z.eqb_refl.
    now split.
  - pose proof (stream_attempt_prefix opts content get (gets_made l) tmp d H P) as P1. cbv zeta in P1.
    pose proof (stream_attempt_ready opts (get (gets_made l) (tmp_len tmp d)) tmp (tmp_len tmp d) d R
                  (Ht (gets_made l) (tmp_len tmp d) ltac:(lia))) as [R1 G].
    destruct (stream_attempt _ _ _ _ d) as [out d1]. cbn [fst snd] in *.
    assert (attempt =? max_attempts opts = false) as -> by lia. cbn [readings].
    assert (forall i, sat_sub deadline (clock i) =? 0 = false) as Hs by (intros i; specialize (Hc i); unfold sat_sub; lia).
    rewrite Hs. assert (forall l' d', gets_made l' = S (gets_made l) -> ready tmp d' ->
      tmp_bytes tmp d' `prefix_of` content ->
      completed tmp (attempts_loop opts get clock tmp (zlen content) deadline todo (attempt + 1) l' d')) as K.
    { intros l' d' El R' P'. apply (IH k); try done; lia. }
    destruct out; try contradiction; [destruct (tmp_len tmp d1 =? zlen content); [now split|]|]; now apply K.
Qed.

Lemma single_stream_completes opts content get clock tmp k d : honest content get ->
  (forall i, clock i < clock 0%nat + total_timeout opts) -> Z.of_nat k < max_attempts opts ->
  (forall i off, (i < k)%nat -> transient (get i off) = true) ->
  (forall off, 0 <= off < zlen content -> complete content off (get k off) = true) ->
  ready tmp d -> tmp_bytes tmp d `prefix_of` content \/ zlen content < tmp_len tmp d ->
  completed tmp (single_stream_to_tmp opts get clock tmp (zlen content) d).
Proof.
  intros H Hc Hk Ht Hok R Hi. unfold single_stream_to_tmp.
  set (t := if zlen content <? tmp_len tmp d then _ else _).
  assert (exists d1, t = (Ok tt, d1) /\ ready tmp d1 /\ tmp_bytes tmp d1 `prefix_of` content) as (d1 & -> & R1 & P1).
  { unfold t. destruct (zlen content <? tmp_len tmp d) eqn:E.
    - destruct (ready_write tmp [] d R) as (d1 & Ew & R1). exists d1. split; [exact Ew|]. split; [done|].
      apply run_write_contents in Ew. rewrite Ew. apply prefix_nil.
    - exists d. split; [done|]. split; [done|]. destruct Hi; [done|lia]. }
  apply (attempts_loop_completes _ _ _ _ _ _ _ H Hc k); try done; [lia|cbn; lia].
Qed.

(** ** What a download touches *)

Lemma run_fs_keeps {A : Type} k v (c : M A) d : keeps k v c ->
  fs (world d) !! k = v -> fs (world (snd (run_fs c d))) !! k = v.
Proof. intros H Hd. unfold run_fs. specialize (H (world d) Hd). now destruct (c (world d)). Qed.

Lemma read_body_keeps opts tmp k v body : k <> tmp -> forall n d,
  fs (world d) !! k = v -> fs (world (snd (read_body opts tmp body n d))) !! k = v.
Proof.
  intros N. induction body as [|[b|e|] body IH]; intros n d Hd; try exact Hd. cbn [read_body].
  pose proof (run_fs_keeps k v (append tmp b) d (keeps_append _ _ _ _ N) Hd) as H1.
  destruct (run_fs (append tmp b) d) as [[]  d']; [|exact H1]. now apply IH.
Qed.

Lemma stream_attempt_keeps opts resp tmp already k v d : k <> tmp ->
  fs (world d) !! k = v -> fs (world (snd (stream_attempt opts resp tmp already d))) !! k = v.
Proof.
  intros N Hd. unfold stream_attempt. destruct resp as [e|status body]; [exact Hd|].
  destruct (status =? 416); [exact Hd|]. destruct (negb (is_success status)); [exact Hd|].
  set (d0 := with_metrics d record_attempt).
  assert (fs (world d0) !! k = v) as H0 by exact Hd. clearbody d0. clear Hd d.
  set (t := if (0 <? already) && negb (status =? 206) then _ else _).
  assert (fs (world (snd t)) !! k = v) as H1.
  { unfold t. destruct (_ && _); [|exact H0].
    pose proof (run_fs_keeps k v (write tmp []) d0 (keeps_write _ _ _ _ N) H0) as H1.
    destruct (run_fs (write tmp []) d0) as [[] d1]; exact H1. }
  destruct t as [[] d1]; cbn [snd] in *; [|exact H1].
  pose proof (run_fs_keeps k v (open_append tmp) d1 (keeps_open_append _ _ _ N) H1) as H2.
  destruct (run_fs (open_append tmp) d1) as [[] d2]; [|exact H2].
  pose proof (read_body_keeps opts tmp k v body N 0 d2 H2) as H3.
  destruct (read_body opts tmp body 0 d2) as [[[] n] d3]; try exact H3. cbn [snd] in H3.
  assert (keeps k v (sync ;;; sync)) as K by auto with fs.
  pose proof (run_fs_keeps k v _ (with_metrics d3 (fun m => record_attempt_bytes m n)) K H3) as H4.
  destruct (run_fs (sync ;;; sync) _) as [[] d4]; exact H4.
Qed.

Lemma attempts_loop_keeps opts get clock tmp total k v deadline todo : k <> tmp -> forall attempt l d,
  fs (world d) !! k = v ->
  fs (world (snd (attempts_loop opts get clock tmp total deadline todo attempt l d))) !! k = v.
Proof.
  intros N. induction todo as [|todo IH]; intros attempt l d Hd; [exact Hd|]. cbn [attempts_loop].
  destruct (tmp_len tmp d =? total); [exact Hd|].
  set (t := if total <? tmp_len tmp d then _ else _).
  assert (fs (world (snd t)) !! k = v) as H1.
  { unfold t. destruct (_ <? _); [|exact Hd]. now apply run_fs_keeps; [apply keeps_write|]. }
  destruct t as [[] d1]; cbn [snd] in H1; [|exact H1]. destruct (deadline <=? _); [exact H1|].
  pose proof (stream_attempt_keeps opts (get (gets_made (mkLoop (S (readings l)) (gets_made l) (backoff l)
      (range_416_consumed l) (sleeps l))) (tmp_len tmp d)) tmp (tmp_len tmp d) k v d1 N H1) as H2.
  destruct (stream_attempt _ _ _ _ d1) as [out d2]. cbn [snd] in H2.
  destruct out; try exact H2.
  - destruct (_ =? _); [exact H2|]. destruct (_ =? _); [exact H2|]. destruct (_ =? _); [exact H2|]. now apply IH.
  - destruct (_ =? _); [exact H2|]. destruct (_ =? _); [exact H2|]. now apply IH.
  - cbn [range_416_consumed]. destruct (range_416_consumed l); [exact H2|].
    pose proof (run_fs_keeps k v (write tmp []) d2 (keeps_write _ _ _ _ N) H2) as H3.
    destruct (run_fs (write tmp []) d2) as [[] d3]; [|exact H3]. now apply IH.
Qed.

Lemma single_stream_keeps opts get clock tmp total k v d : k <> tmp ->
  fs (world d) !! k = v ->
  fs (world (snd (single_stream_to_tmp opts get clock tmp total d))) !! k = v.
Proof.
  intros N Hd. unfold single_stream_to_tmp. set (t := if total <? tmp_len tmp d then _ else _).
  assert (fs (world (snd t)) !! k = v) as H1.
  { unfold t. destruct (_ <? _); [|exact Hd]. now apply run_fs_keeps; [apply keeps_write|]. }
  destruct t as [[] d1]; cbn [snd] in H1; [|exact H1]. now apply attempts_loop_keeps.
Qed.

Lemma finalize_keeps tmp dest total k v : k <> tmp -> k <> dest -> keeps k v (finalize tmp dest total).
Proof.
  intros N1 N2. unfold finalize. apply keeps_bind; [auto with fs|]. intros [a|]; [|auto with fs].
  destruct (negb _); auto 6 with fs.
Qed.

(** The side condition under which making directories up to [p] keeps [v] at [k]. *)
Definition outside (k p : path) (v : option node) : Prop := k ∉ ancestors p \/ v = Some DirN.

Lemma download_keeps opts net dest k (v : option node) tmp : tmp_path_for dest = Ok tmp ->
  k <> dest -> k <> tmp -> outside k (parent dest) v -> keeps k v (download opts net dest).
Proof.
  intros Et Nd Nt Ho w Hw. unfold download, download_zip.
  set (mk := if bool_decide (parent dest = []) then ret tt else create_dir_all (parent dest)).
  assert (keeps k v mk) as K by (unfold mk; case_bool_decide; auto with fs).
  specialize (K w Hw). destruct (mk w) as [[] w1]; cbn [snd] in K; [|exact K].
  destruct (exists_ (fs w1) dest); [exact K|].
  destruct (n_head net) as [[total ranges]|e]; [|exact K]. rewrite Et.
  pose proof (single_stream_keeps opts (n_get net) (n_clock net) tmp total k v
                (mkDl w1 (record_download_start fetch_default) (prog_new 0)) Nt K) as H1.
  destruct (single_stream_to_tmp _ _ _ _ _ _) as [[[] l] d]; cbn [snd] in H1; [|exact H1].
  pose proof (finalize_keeps tmp dest total k v Nt Nd (world d) H1) as H2.
  destruct (finalize tmp dest total (world d)) as [[] w2]; exact H2.
Qed.

Lemma tmp_path_facts dest tmp : tmp_path_for dest = Ok tmp ->
  dest <> tmp /\ dest ∉ ancestors (parent dest) /\ tmp ∉ ancestors (parent dest).
Proof.
  unfold tmp_path_for. destruct (last dest) as [name|] eqn:E; [|discriminate].
  apply last_Some in E as [l ->]. unfold with_file_name, parent. rewrite removelast_last.
  assert (forall x : string, l ++ [x] ∉ ancestors l) as N.
  { intros x P%ancestors_prefix%prefix_length. rewrite length_app in P. simpl in P. lia. }
  intros [= <-]. split; [|auto]. intros [= E]%app_inv_head.
  apply (f_equal String.length) in E. revert E. clear. induction name as [|c s IH]; simpl; [discriminate|].
  intros [= E]. now apply IH.
Qed.

Lemma finalize_dest tmp dest total w r w' : finalize tmp dest total w = (r, w') ->
  match r with
  | Ok _ => fs w' !! dest = Some (FileN (contents (fs w) tmp))
  | Err _ => fs w' = fs w
  end.
Proof.
  unfold finalize, bind at 1, gets. destruct (file_len (fs w) tmp) as [a|]; [|now intros [= <- <-]].
  destruct (negb _); [now intros [= <- <-]|]. unfold bind, read, sync, rename, op, contents.
  destruct (fs w !! tmp) as [[b|]|] eqn:Et; destruct (faults w) as [|[] [|[] [|[] fl]]]; cbn -[is_dir parent_ok];
    rewrite ?Et; try (intros [= <- <-]; reflexivity);
    (destruct (_ || _); intros [= <- <-]; [reflexivity|]; cbn [fs]; now rewrite lookup_insert_eq).
Qed.

(** C28: a download installs exactly the server's content or nothing: with a
    server that answers HEAD with the content's length and every GET with part
    of that content (cut short, stalled, refused, ignoring the range or not, in
    any pattern), whatever file-system calls fail, a destination that did not
    exist holds the content when [download_zip] returns [Ok] and still does not
    exist when it returns an error; a partial file left by an earlier run is
    resumed when it is a prefix of the content and discarded when it is longer. *)
Theorem download_exact opts net content ranges dest tmp started w r m w' :
  honest content (n_get net) -> n_head net = Ok (zlen content, ranges) ->
  tmp_path_for dest = Ok tmp -> fs w !! dest = None ->
  contents (fs w) tmp `prefix_of` content \/ zlen content < zlen (contents (fs w) tmp) ->
  download_zip opts net dest started w = (r, m, w') ->
  match r with
  | Ok _ => fs w' !! dest = Some (FileN content)
  | Err _ => fs w' !! dest = None
  end.
Proof.
  intros H Eh Et Hd Hi. destruct (tmp_path_facts dest tmp Et) as (Nt & Na & Nb). unfold download_zip.
  set (mk := if bool_decide (parent dest = []) then ret tt else create_dir_all (parent dest)).
  assert (forall k v, k ∉ ancestors (parent dest) -> keeps k v mk) as K.
  { intros k v Hk. unfold mk. case_bool_decide; auto with fs. }
  pose proof (K dest None Na w Hd) as Hd1. pose proof (K tmp _ Nb w eq_refl) as Ht1. clearbody mk. clear K.
  destruct (mk w) as [[u|e] w1]; cbn [snd] in Hd1, Ht1; [|now intros [= <- <- <-]].
  unfold exists_. rewrite Hd1, bool_decide_eq_false_2 by apply is_Some_None. rewrite Eh, Et.
  set (d0 := mkDl w1 _ _).
  assert (tmp_bytes tmp d0 = contents (fs w) tmp) as E0 by (unfold tmp_bytes, contents; cbn [world d0]; now rewrite Ht1).
  rewrite <- E0, <- tmp_len_bytes in Hi.
  pose proof (single_stream_prefix opts content (n_get net) (n_clock net) tmp d0 H Hi) as P.
  pose proof (single_stream_keeps opts (n_get net) (n_clock net) tmp (zlen content) dest None d0 Nt Hd1) as Hd2.
  destruct (single_stream_to_tmp _ _ _ _ _ _) as [[[u'|e] l] d]; cbn [snd] in Hd2; [|now intros [= <- <- <-]].
  destruct P as [P _]. destruct u'. specialize (P eq_refl).
  destruct (finalize tmp dest (zlen content) (world d)) as [r' w2] eqn:Ef. apply finalize_dest in Ef.
  unfold tmp_bytes in P. rewrite P in Ef.
  destruct r'; intros [= <- <- <-]; [exact Ef|now rewrite Ef].
Qed.

Lemma download_keeps_dest_parent (dest tmp : path) (m m1 : FS) : tmp_path_for dest = Ok tmp ->
  mkdirs m (ancestors (parent dest)) = Some m1 -> m !! dest = None -> is_dir m tmp = false ->
  m1 !! dest = None /\ is_dir m1 tmp = false /\ parent_ok m1 tmp = true /\ parent tmp = parent dest /\
  m1 !! tmp = m !! tmp /\ tmp <> [].
Proof.
  intros Et Em Hd Hi. destruct (tmp_path_facts dest tmp Et) as (_ & Na & Nb).
  assert (m1 !! tmp = m !! tmp) as Ht by (destruct (mkdirs_dirs _ _ _ tmp Em) as [?|[? _]]; done).
  assert (parent tmp = parent dest /\ tmp <> []) as [Ep N].
  { unfold tmp_path_for in Et. destruct (last dest); [|discriminate]. injection Et as <-.
    unfold with_file_name. split; [unfold parent; apply removelast_last|]. intros [_ ?]%app_eq_nil. discriminate. }
  repeat split; try done.
  - destruct (mkdirs_dirs _ _ _ dest Em) as [?|[? _]]; [congruence|done].
  - unfold is_dir. now rewrite Ht.
  - unfold parent_ok. rewrite Ep. case_bool_decide; [done|]. unfold is_dir. cbn [orb].
    rewrite (mkdirs_all _ _ _ (parent dest) Em); [done|now apply ancestors_self].
Qed.

Lemma finalize_ready tmp dest total d : ready tmp d -> parent tmp = parent dest ->
  fs (world d) !! dest = None -> tmp_len tmp d = total -> 0 < total ->
  exists w, finalize tmp dest total (world d) = (Ok tt, w).
Proof.
  intros (F & _ & P & _) Ep Hd Hl Hp. unfold finalize, bind, gets, read, sync, rename, op.
  unfold tmp_len, file_len in *. destruct (fs (world d) !! tmp) as [[b|]|] eqn:Et; cbn [default] in Hl;
    [|simpl in Hl; lia|simpl in Hl; lia].
  simpl in Hl. rewrite Hl, Z.eqb_refl. cbn [negb]. rewrite F. cbn [tail faults fs]. rewrite Et. cbn [tail faults fs].
  rewrite Et. unfold is_dir at 1. rewrite Hd.
  unfold parent_ok in P. unfold parent_ok. rewrite <- Ep, P. eexists. reflexivity.
Qed.

(** C27: a download completes: when the file system does not fail, the clock
    does not reach the deadline, and some request before the attempts run out
    is answered with all that is missing, after any number of transient
    failures (connection errors, 5xx, 408 and 429 statuses, broken, stalled or
    short bodies), [download_zip] returns [Ok] and the destination holds the
    content. *)
Theorem download_completes opts net content ranges dest tmp k started w :
  honest content (n_get net) -> n_head net = Ok (zlen content, ranges) -> 0 < zlen content ->
  tmp_path_for dest = Ok tmp -> fs w !! dest = None -> is_dir (fs w) tmp = false ->
  faults w = [] -> is_Some (mkdirs (fs w) (ancestors (parent dest))) ->
  contents (fs w) tmp `prefix_of` content \/ zlen content < zlen (contents (fs w) tmp) ->
  (forall i, n_clock net i < n_clock net 0%nat + total_timeout opts) ->
  Z.of_nat k < max_attempts opts ->
  (forall i off, (i < k)%nat -> transient (n_get net i off) = true) ->
  (forall off, 0 <= off < zlen content -> complete content off (n_get net k off) = true) ->
  exists m w', download_zip opts net dest started w = (Ok tt, m, w') /\ fs w' !! dest = Some (FileN content).
Proof.
  intros H Eh Hpos Et Hd Hdir Hf [m1 Hm] Hi Hc Hk Htr Hok.
  destruct (tmp_path_facts dest tmp Et) as (Nt & _ & _).
  destruct (download_keeps_dest_parent dest tmp _ m1 Et Hm Hd Hdir) as (Hd1 & Hdir1 & Hp1 & Ep & Ht1 & N).
  unfold download_zip.
  set (mk := if bool_decide (parent dest = []) then ret tt else create_dir_all (parent dest)).
  assert (mk w = (Ok tt, mkWorld m1 [])) as ->.
  { unfold mk. case_bool_decide as E; [rewrite E in Hm; injection Hm as <-; destruct w; cbn in *; now subst|].
    unfold create_dir_all, op. now rewrite Hf, Hm. }
  unfold exists_. cbn [fs]. rewrite Hd1, bool_decide_eq_false_2 by apply is_Some_None. rewrite Eh, Et.
  set (d0 := mkDl (mkWorld m1 []) _ _).
  assert (ready tmp d0) as R0 by (repeat split; done).
  assert (tmp_bytes tmp d0 = contents (fs w) tmp) as E0 by (unfold tmp_bytes, contents; cbn [fs world d0]; now rewrite Ht1).
  rewrite <- E0, <- tmp_len_bytes in Hi.
  pose proof (single_stream_prefix opts content (n_get net) (n_clock net) tmp d0 H Hi) as P.
  pose proof (single_stream_keeps opts (n_get net) (n_clock net) tmp (zlen content) dest None d0 Nt Hd1) as Hd2.
  pose proof (single_stream_completes opts content (n_get net) (n_clock net) tmp k d0 H Hc Hk Htr Hok R0 Hi) as [Eo R2].
  destruct (single_stream_to_tmp _ _ _ _ _ _) as [[r l] d]; cbn [fst snd] in *. subst r. destruct P as [P _].
  specialize (P eq_refl).
  destruct (finalize_ready tmp dest (zlen content) d R2 Ep Hd2) as [w2 Ef]; [now rewrite tmp_len_bytes, P|done|].
  rewrite Ef. apply finalize_dest in Ef. unfold tmp_bytes in P. rewrite P in Ef. eauto.
Qed.

Section FetchFacts.
Variable sha256 : list byte -> list byte.
Variable unzip : list byte -> result (list (result zip_entry string)) string.
Variable canon : path -> path.
Variable opts : DownloadOptions.

Lemma read_pin_keeps rev_dir k (v : option node) : keeps k v (read_pin rev_dir).
Proof. apply preserves_op. intros m H. destruct (m !! pin_path rev_dir) as [[]|]; try done. now case_decide. Qed.

Lemma write_pin_keeps rev_dir hex k (v : option node) :
  k <> join rev_dir ".sha256.tmp" -> k <> pin_path rev_dir -> outside k rev_dir v ->
  keeps k v (write_pin rev_dir hex).
Proof. intros. unfold write_pin. auto 8 with fs. Qed.

Lemma check_sha_keeps rev_dir zip k (v : option node) :
  k <> join rev_dir ".sha256.tmp" -> k <> pin_path rev_dir -> outside k rev_dir v ->
  keeps k v (check_sha_result sha256 rev_dir zip).
Proof.
  intros N1 N2 Ho. unfold check_sha_result. apply keeps_bind; [apply read_pin_keeps|].
  assert (keeps k v (sha256_hex sha256 zip)) as Ks by (unfold sha256_hex; auto with fs).
  intros [expected|] w Hw.
  - assert (keeps k v (verify_against sha256 zip expected)) as Kv.
    { unfold verify_against. apply keeps_bind; [done|]. intros a. case_match; auto with fs. }
    specialize (Kv w Hw). now destruct (verify_against sha256 zip expected w).
  - specialize (Ks w Hw). destruct (sha256_hex sha256 zip w) as [[actual|e] w1]; [|exact Ks].
    apply (keeps_bind k v (write_pin rev_dir actual) (fun _ => ret (Ok tt))); auto using write_pin_keeps with fs.
Qed.

Lemma sha_loop_keeps rev_dir zip tmp k (v : option node) nets : tmp_path_for zip = Ok tmp ->
  k <> zip -> k <> tmp -> k <> join rev_dir ".sha256.tmp" -> k <> pin_path rev_dir ->
  outside k rev_dir v -> outside k (parent zip) v ->
  keeps k v (sha_loop sha256 opts rev_dir zip nets).
Proof.
  intros Et Nz Nt N1 N2 Ho Hz. induction nets as [|net nets IH]; [apply keeps_fail|]. cbn [sha_loop].
  apply keeps_bind; [now apply download_keeps with tmp|]. intros _.
  apply keeps_bind; [now apply check_sha_keeps|]. intros [|e]; [auto with fs|].
  destruct nets as [|net' nets]; [auto with fs|].
  assert (with_file_name zip (default "" (last zip) +:+ ".tmp") = tmp) as ->.
  { unfold tmp_path_for in Et. destruct (last zip); [|discriminate]. now injection Et. }
  apply keeps_bind; [auto with fs|]. intros _. apply keeps_bind; [auto with fs|]. intros _. exact IH.
Qed.

(** Extracting over an existing directory destroys an archive kept inside it. *)
Lemma extract_inside_fails zip rev_dir w w' : rev_dir <> [] ->
  rev_dir `prefix_of` zip -> zip <> rev_dir ->
  fs w !! rev_dir = Some DirN -> is_complete (fs w) rev_dir = false ->
  extract unzip canon zip rev_dir w <> (Ok tt, w').
Proof.
  intros Hne [suf Hsuf] Hz Hd Hc E. unfold extract in E. apply bind_ok in E as (c & w1 & E1 & E).
  injection E1 as <- <-. rewrite Hc in E.
  apply bind_ok in E as (pr & w1 & E1 & E). injection E1 as <- <-.
  unfold exists_ in E. rewrite bool_decide_eq_true_2 in E by eauto.
  apply bind_ok in E as ([] & w2 & E1 & E).
  unfold rm_rf in E1. apply bind_ok in E1 as (pr & w1 & E0 & E1). injection E0 as <- <-.
  unfold exists_ in E1. rewrite bool_decide_eq_true_2 in E1 by eauto. cbn [negb] in E1.
  apply bind_ok in E1 as (dd & w1 & E0 & E1). injection E0 as <- <-. unfold is_dir in E1. rewrite Hd in E1.
  apply remove_dir_all_ok in E1 as [G _].
  apply bind_ok in E as ([] & w3 & E1 & E). apply create_dir_all_ok in E1 as [_ F]; [|done].
  apply bind_ok in E as (b & w4 & E1 & E). apply op_ok in E1.
  assert (fs w3 !! zip = None) as Z.
  { destruct (F zip) as [->|[[k Hk] _]]; [apply G; now exists suf|].
    exfalso. apply Hz. rewrite Hsuf in Hk. rewrite Hsuf.
    destruct suf as [|x suf]; [now rewrite app_nil_r|].
    apply (f_equal length) in Hk. rewrite !length_app in Hk. simpl in Hk. lia. }
  rewrite Z in E1. discriminate.
Qed.

(** *** Unpacking *)

(** Every entry but directories, in order, with its path and bytes. *)
Definition entry_file (e : result zip_entry string) : option (path * list byte) :=
  match e with
  | Ok (mkEntry (Some name) false (Ok b)) => Some (name, b)
  | _ => None
  end.

Lemma extract_entry_keeps dest_dir e k (v : option node) : ~ dest_dir `prefix_of` k ->
  outside k dest_dir v -> keeps k v (extract_entry canon dest_dir e).
Proof.
  intros Hk Ho. unfold extract_entry. destruct e as [entry|msg]; [|auto with fs].
  destruct (z_name entry) as [name|]; [|auto with fs].
  assert (k <> dest_dir ++ name) as Nk by (intros ->; apply Hk; now exists name).
  assert (forall p, dest_dir `prefix_of` p -> outside k p v) as O.
  { intros p [suf ->]. destruct Ho as [Ho|Ho]; [|now right].
    destruct (decide (k ∈ ancestors (dest_dir ++ suf))) as [Hin|Hin]; [|now left]. exfalso.
    unfold ancestors in Hin. apply list_elem_of_In, in_map_iff in Hin as (n & <- & Hn%in_seq).
    destruct (decide (n <= length dest_dir)%nat) as [L|L].
    - rewrite take_app_le in Ho by done. apply Ho. unfold ancestors. apply list_elem_of_In, in_map_iff.
      exists n. split; [done|]. apply in_seq. lia.
    - apply Hk. rewrite take_app_ge by lia. now eexists. }
  destruct (_ && _) eqn:E; [auto with fs|]. destruct (z_is_dir entry).
  { apply keeps_create_dir_all, O. now exists name. }
  assert (outside k (parent (dest_dir ++ name)) v) as Op.
  { destruct name as [|x name _] using rev_ind.
    - rewrite app_nil_r in *. destruct Ho as [Ho|Ho]; [left|now right]. intros Hin. apply Ho. revert Hin.
      unfold ancestors, parent. destruct dest_dir as [|y l _] using rev_ind; [done|].
      rewrite removelast_last, length_app. cbn [length].
      intros (n & <- & Hn%in_seq)%list_elem_of_In%in_map_iff. apply list_elem_of_In, in_map_iff.
      exists n. rewrite take_app_le by lia. split; [done|]. apply in_seq. lia.
    - apply O. rewrite (assoc_L (++)). unfold parent. rewrite removelast_last. now eexists. }
  destruct (z_data entry); auto 8 with fs.
Qed.

Lemma extract_entries_keeps dest_dir es k (v : option node) : ~ dest_dir `prefix_of` k ->
  outside k dest_dir v -> keeps k v (extract_entries canon dest_dir es).
Proof.
  intros Hk Ho. induction es as [|e es IH]; cbn [extract_entries]; auto using extract_entry_keeps with fs.
Qed.

(** A file survives what succeeds without writing to its path. *)
Lemma mkdirs_file ps : forall m m' q b, mkdirs m ps = Some m' ->
  m !! q = Some (FileN b) -> m' !! q = Some (FileN b).
Proof.
  induction ps as [|p ps IH]; intros m m' q b; cbn; [now intros [= <-]|].
  unfold mkdir_one. destruct (m !! p) as [[]|] eqn:E; cbn; [discriminate| |]; intros H Hq; apply (IH _ _ _ _ H); [done|].
  rewrite lookup_insert_ne; congruence.
Qed.
Lemma create_dir_all_file p w w' q b : create_dir_all p w = (Ok tt, w') ->
  fs w !! q = Some (FileN b) -> fs w' !! q = Some (FileN b).
Proof.
  intros E%op_ok Hq. destruct (mkdirs (fs w) (ancestors p)) as [m|] eqn:Em; [|discriminate].
  injection E as E. rewrite <- E. now apply (mkdirs_file _ _ _ _ _ Em).
Qed.
Lemma write_ok p b w w' : write p b w = (Ok tt, w') -> fs w' = <[p := FileN b]> (fs w).
Proof. intros E%op_ok. destruct (_ || _); [discriminate|]. congruence. Qed.
Lemma append_ok p b w w' : append p b w = (Ok tt, w') -> fs w' = <[p := FileN (contents (fs w) p ++ b)]> (fs w).
Proof. intros E%op_ok. congruence. Qed.
Lemma sync_ok w w' : sync w = (Ok tt, w') -> fs w' = fs w.
Proof. intros E%op_ok. congruence. Qed.

Lemma extract_entry_ok dest_dir e w w' : extract_entry canon dest_dir e w = (Ok tt, w') ->
  match entry_file e with
  | Some (name, b) => fs w' !! (dest_dir ++ name) = Some (FileN b)
  | None => True
  end /\
  (forall k b, option_map fst (entry_file e) <> Some k ->
     fs w !! (dest_dir ++ k) = Some (FileN b) -> fs w' !! (dest_dir ++ k) = Some (FileN b)).
Proof.
  unfold extract_entry. destruct e as [[zn zd zb]|msg]; [|discriminate]. cbn [z_name z_is_dir z_data].
  destruct zn as [name|]; [|discriminate]. destruct (_ && _); [discriminate|].
  destruct zd; cbn [entry_file].
  { intros E. split; [done|]. intros k b _. now apply create_dir_all_file with (1 := E). }
  intros E. apply bind_ok in E as ([] & w1 & E1 & E). apply bind_ok in E as ([] & w2 & E2 & E).
  destruct zb as [b|]; [|discriminate]. apply bind_ok in E as ([] & w3 & E3 & E4).
  apply write_ok in E2. apply append_ok in E3. apply sync_ok in E4. rewrite E4, E3, E2. cbn [option_map fst]. split.
  - rewrite lookup_insert_eq. unfold contents. now rewrite lookup_insert_eq.
  - intros k b' Nk Hk. assert (dest_dir ++ name <> dest_dir ++ k) by (intros ?%app_inv_head; congruence).
    rewrite !lookup_insert_ne by done. now apply create_dir_all_file with (1 := E1).
Qed.

Lemma extract_entries_ok dest_dir es : forall w w', extract_entries canon dest_dir es w = (Ok tt, w') ->
  (forall pre e post name b, es = pre ++ e :: post -> entry_file e = Some (name, b) ->
     Forall (fun e' => option_map fst (entry_file e') <> Some name) post ->
     fs w' !! (dest_dir ++ name) = Some (FileN b)) /\
  (forall k b, Forall (fun e' => option_map fst (entry_file e') <> Some k) es ->
     fs w !! (dest_dir ++ k) = Some (FileN b) -> fs w' !! (dest_dir ++ k) = Some (FileN b)).
Proof.
  induction es as [|e es IH]; intros w w'; cbn [extract_entries].
  { intros [= <-]. split; [|done]. intros [] ????; discriminate. }
  intros E. apply bind_ok in E as ([] & w1 & E1 & E2). apply extract_entry_ok in E1 as [A B].
  destruct (IH _ _ E2) as [C D]. split.
  - intros [|e' pre] x post name b Ees Hf Hp; injection Ees as -> ->; [|now apply (C pre x post)].
    apply D; [done|]. now rewrite Hf in A.
  - intros k b [Hk Hks]%Forall_cons Hw. apply D; [done|]. now apply B.
Qed.

Lemma extract_marked zip_path rev_dir w w' : is_complete (fs w) rev_dir = true ->
  extract unzip canon zip_path rev_dir w = (Ok tt, w') -> w' = w.
Proof.
  intros Hc E. unfold extract in E. apply bind_ok in E as (c & w0 & E0 & E). injection E0 as <- <-.
  rewrite Hc in E. now injection E.
Qed.

Lemma not_prefix_app (p l : path) : l <> [] -> ~ p ++ l `prefix_of` p.
Proof. intros N P%prefix_length. rewrite length_app in P. destruct l; [done|]. simpl in P. lia. Qed.

Lemma zip_facts rev_dir plat :
  exists tmp, tmp_path_for (zip_path_of rev_dir plat) = Ok tmp /\
    parent (zip_path_of rev_dir plat) = rev_dir /\
    forall k, k = complete_marker rev_dir \/ k = binary_path rev_dir plat \/ k = rev_dir ->
      k <> zip_path_of rev_dir plat /\ k <> tmp /\ k <> join rev_dir ".sha256.tmp" /\ k <> pin_path rev_dir.
Proof.
  unfold tmp_path_for, zip_path_of, with_file_name, parent, join. rewrite last_snoc, removelast_last.
  eexists. split; [reflexivity|]. split; [reflexivity|].
  assert (forall a b : string, a <> b -> rev_dir ++ [a] <> rev_dir ++ [b]) as J.
  { intros a b N E. apply app_inv_head in E. congruence. }
  assert (forall (a b : string) l, l <> [] -> (rev_dir ++ [a]) ++ l <> rev_dir ++ [b] /\ rev_dir <> rev_dir ++ [b]) as L.
  { intros a b l N. split; intros E; apply (f_equal length) in E; rewrite !length_app in E; simpl in E;
      [destruct l; [done|]; simpl in E|]; lia. }
  intros k [->|[-> | ->]].
  - unfold complete_marker, pin_path, join. destruct plat; repeat split; apply J; discriminate.
  - unfold binary_path, join. repeat split; (apply L; destruct plat; discriminate).
  - repeat split; now apply (L "" _ [""]).
Qed.

(** Only paths above [dest_dir] can change outside it, and only into directories. *)
Lemma extract_frame zip_path dest_dir w r w' k : dest_dir <> [] -> ~ dest_dir `prefix_of` k ->
  extract unzip canon zip_path dest_dir w = (r, w') ->
  fs w' !! k = fs w !! k \/ (k `prefix_of` dest_dir /\ fs w' !! k = Some DirN).
Proof.
  intros N Hk. unfold extract, bind at 1, gets at 1. cbn [fs].
  destruct (is_complete (fs w) dest_dir); [intros [= <- <-]; now left|].
  unfold bind at 1, gets at 1.
  assert (forall v, keeps k v (rm_rf dest_dir)) as Krm.
  { intros v. unfold rm_rf. apply keeps_bind; [auto with fs|]. intros b. destruct (negb b); [auto with fs|].
    apply keeps_bind; [auto with fs|]. intros [].
    - apply preserves_op. intros m Hm. cbn [snd]. subst v. destruct (m !! k) as [x|] eqn:Ex.
      + now apply map_lookup_filter_Some.
      + apply map_lookup_filter_None. now left.
    - apply keeps_remove_file. intros ->. now apply Hk. }
  assert (forall v (b : bool), keeps k v (if b then rm_rf dest_dir else ret tt)) as K1 by (intros v []; auto with fs).
  assert (forall v b, outside k dest_dir v ->
    keeps k v (match unzip b with Err e => fail e
               | Ok es => extract_entries canon dest_dir es ;;; mark_complete dest_dir end)) as K3.
  { intros v b Ho. destruct (unzip b); [|auto with fs]. apply keeps_bind; [now apply extract_entries_keeps|].
    intros _. apply keeps_write. intros ->. apply Hk. now exists [".complete"]. }
  intros E. destruct (decide (k ∈ ancestors dest_dir)) as [Hin|Hin].
  - unfold bind at 1 in E. specialize (K1 (fs w !! k) (exists_ (fs w) dest_dir) w eq_refl).
    set (c1 := if exists_ (fs w) dest_dir then rm_rf dest_dir else ret tt) in *.
    destruct (c1 w) as [[u|e] w1]; cbn [snd] in K1;
      [|injection E as _ <-; now left].
    unfold bind at 1 in E. destruct (create_dir_all dest_dir w1) as [[[]|e] w2] eqn:E1.
    + right. split; [now apply ancestors_prefix|].
      apply op_ok in E1. destruct (mkdirs (fs w1) (ancestors dest_dir)) as [m|] eqn:Em; [|discriminate].
      injection E1 as E1. pose proof (mkdirs_all _ _ _ k Em Hin) as Hd. rewrite E1 in Hd.
      assert (keeps k (Some DirN) (b <- read zip_path ;; match unzip b with Err e => fail e
               | Ok es => extract_entries canon dest_dir es ;;; mark_complete dest_dir end)) as K.
      { apply keeps_bind; [auto with fs|]. intros b. apply K3. now right. }
      specialize (K w2 Hd). now rewrite E in K.
    + left. injection E as _ <-. rewrite <- K1. unfold create_dir_all, op in E1.
      destruct (faults w1) as [|[] fl]; [|injection E1 as _ <-; reflexivity|];
        destruct (mkdirs (fs w1) (ancestors dest_dir)); try discriminate; injection E1 as _ <-; reflexivity.
  - left. set (v := fs w !! k). assert (outside k dest_dir v) as Ho by now left.
    assert (keeps k v ((if exists_ (fs w) dest_dir then rm_rf dest_dir else ret tt) ;;;
      create_dir_all dest_dir ;;; b <- read zip_path ;; match unzip b with Err e => fail e
               | Ok es => extract_entries canon dest_dir es ;;; mark_complete dest_dir end)) as K.
    { apply keeps_bind; [apply K1|]. intros _. apply keeps_bind; [now apply keeps_create_dir_all|]. intros _.
      apply keeps_bind; [auto with fs|]. intros b. now apply K3. }
    specialize (K w eq_refl). now rewrite E in K.
Qed.

Lemma extract_result zip_path dest_dir w w' : dest_dir <> [] ->
  extract unzip canon zip_path dest_dir w = (Ok tt, w') -> is_complete (fs w) dest_dir = false ->
  fs w' !! complete_marker dest_dir = Some (FileN (String.list_byte_of_string "ok" ++ [Byte.x0a])) /\
  exists archive es, unzip archive = Ok es /\
    (~ dest_dir `prefix_of` zip_path -> fs w !! zip_path = Some (FileN archive)) /\
    forall pre e post name b, es = pre ++ e :: post -> entry_file e = Some (name, b) ->
      Forall (fun e' => option_map fst (entry_file e') <> Some name) post -> name <> [".complete"] ->
      fs w' !! (dest_dir ++ name) = Some (FileN b).
Proof.
  intros N E Hc. unfold extract in E. apply bind_ok in E as (c & w1 & E1 & E). injection E1 as <- <-. rewrite Hc in E.
  apply bind_ok in E as (pr & w1 & E1 & E). injection E1 as <- <-.
  apply bind_ok in E as ([] & w2 & E1 & E). apply bind_ok in E as ([] & w3 & E2 & E).
  apply bind_ok in E as (archive & w4 & E3 & E). apply op_ok in E3.
  destruct (fs w3 !! zip_path) as [[b3|]|] eqn:Ez; try discriminate. injection E3 as -> E34.
  destruct (unzip archive) as [es|] eqn:Eu; [|discriminate].
  apply bind_ok in E as ([] & w5 & E4 & E5). apply write_ok in E5.
  apply extract_entries_ok in E4 as [F _]. rewrite E5. split; [apply lookup_insert_eq|].
  exists archive, es. split; [done|]. split.
  - intros Hz. apply create_dir_all_ok in E2 as [_ E2]; [|done].
    assert (fs w2 !! zip_path = fs w !! zip_path) as E0.
    { destruct (exists_ (fs w) dest_dir); [|now injection E1 as <-]. unfold rm_rf in E1.
      apply bind_ok in E1 as (p & w0 & E0 & E1). injection E0 as <- <-.
      destruct (negb _); [now injection E1 as <-|]. apply bind_ok in E1 as (p & w0 & E0 & E1). injection E0 as <- <-.
      destruct (is_dir (fs w) dest_dir); [apply remove_dir_all_ok in E1 as [_ E1]; now apply E1|].
      apply op_ok in E1. destruct (fs w !! dest_dir) as [[]|]; try discriminate. injection E1 as E1.
      rewrite <- E1. apply lookup_delete_ne. intros ->. now apply Hz. }
    destruct (E2 zip_path) as [?|[_ ?]]; congruence.
  - intros pre e post name b Hes Hf Hp Hn. rewrite lookup_insert_ne; [now apply (F pre e post)|].
    unfold complete_marker, join. intros ?%app_inv_head. congruence.
Qed.

End FetchFacts.

(** unpacking is confined and complete.  Whatever the archive and the file
    system do, [extract] changes nothing outside [dest_dir] except to make
    missing directories above it, and it refuses an entry without a safe name;
    and when it returns [Ok] on a directory not yet marked complete, every file
    entry of the archive is there with its bytes (the last one of its name) and
    the completion marker is written. *)
Theorem extract_spec unzip canon zip_path dest_dir w r w' : dest_dir <> [] ->
  extract unzip canon zip_path dest_dir w = (r, w') ->
  (forall k, ~ dest_dir `prefix_of` k ->
     fs w' !! k = fs w !! k \/ (k `prefix_of` dest_dir /\ fs w' !! k = Some DirN)) /\
  (r = Ok tt -> is_complete (fs w) dest_dir = false ->
   fs w' !! complete_marker dest_dir = Some (FileN (String.list_byte_of_string "ok" ++ [Byte.x0a])) /\
   exists archive es, unzip archive = Ok es /\
     (~ dest_dir `prefix_of` zip_path -> fs w !! zip_path = Some (FileN archive)) /\
     forall pre e post name b, es = pre ++ e :: post -> entry_file e = Some (name, b) ->
       Forall (fun e' => option_map fst (entry_file e') <> Some name) post -> name <> [".complete"] ->
       fs w' !! (dest_dir ++ name) = Some (FileN b)).
Proof.
  intros N E. split; [intros k Hk; now apply (extract_frame unzip canon zip_path dest_dir w r w')|].
  intros -> Hc. now apply (extract_result unzip canon zip_path dest_dir w w').
Qed.

(** [fetch] succeeds only when the revision was already installed: whatever
    the network, the archive and the file system do, if it returns a path then
    the completion marker and the binary were there when it was called, and it
    did nothing.  The archive is downloaded into the revision directory, which
    [extract] removes as a partial extract before it opens the archive; and with
    a marker but no binary [extract] does nothing, so the binary stays missing. *)
Theorem fetch_only_from_cache sha256 unzip canon opts root plat resolved net0 net1 w bin w' :
  let rev_dir := join root (rd_version resolved) in
  fetch_resolved sha256 unzip canon opts root plat resolved net0 net1 w = (Ok bin, w') ->
  bin = binary_path rev_dir plat /\ is_complete (fs w) rev_dir = true /\
  exists_ (fs w) bin = true /\ w' = w.
Proof.
  cbv zeta. intros E. unfold fetch_resolved in E.
  apply bind_ok in E as (hit & w1 & E1 & E). injection E1 as E0 <-.
  set (rev_dir := join root (rd_version resolved)) in *.
  destruct hit; [injection E as <- <-; apply andb_true_iff in E0 as [? ?]; done|]. exfalso.
  assert (rev_dir <> []) as Hr by (unfold rev_dir, join; destruct root; discriminate).
  destruct (zip_facts rev_dir plat) as (tmp & Et & Ep & D).
  apply bind_ok in E as ([] & w2 & E1 & E). apply create_dir_all_ok in E1 as [Hd F]; [|done].
  apply bind_ok in E as ([] & w3 & E2 & E). apply bind_ok in E as ([] & w4 & E3 & E).
  assert (forall k v, k = complete_marker rev_dir \/ k = binary_path rev_dir plat \/ k = rev_dir ->
            outside k rev_dir v -> fs w2 !! k = v -> fs w3 !! k = v) as K.
  { intros k v Hk Ho Hv. destruct (D k Hk) as (D1 & D2 & D3 & D4).
    pose proof (sha_loop_keeps sha256 opts rev_dir (zip_path_of rev_dir plat) tmp k v [net0; net1] Et D1 D2 D3 D4 Ho
                  ltac:(now rewrite Ep)) as K. specialize (K w2 Hv). now rewrite E2 in K. }
  assert (forall k l, k = rev_dir ++ l -> l <> [] -> k ∉ ancestors rev_dir /\ fs w2 !! k = fs w !! k) as U.
  { intros k l -> Hl. pose proof (not_prefix_app rev_dir l Hl) as P.
    split; [intros ?%ancestors_prefix; done|]. now destruct (F (rev_dir ++ l)) as [?|[? _]]. }
  destruct (is_complete (fs w) rev_dir) eqn:Ec.
  - (* marker without binary *)
    cbn [andb] in E0.
    apply bind_ok in E as ([] & w5 & E4 & E). apply bind_ok in E as (there & w6 & E5 & E).
    injection E5 as Eb <-. destruct there; [|discriminate].
    destruct (U (binary_path rev_dir plat) (extracted_subdir plat :: binary_relpath plat)) as [Ub Fb];
      [unfold binary_path, join; now rewrite <- (assoc_L (++))|done|].
    destruct (U (complete_marker rev_dir) [".complete"]) as [Uc Fc]; [done|done|].
    assert (fs w3 !! binary_path rev_dir plat = None) as B3.
    { apply K; [auto|now left|]. rewrite Fb. unfold exists_ in E0.
      destruct (fs w !! binary_path rev_dir plat); [|done].
      rewrite bool_decide_eq_true_2 in E0 by eauto. discriminate. }
    assert (fs w3 !! complete_marker rev_dir = fs w !! complete_marker rev_dir) as C3.
    { apply K; [auto|now left|done]. }
    apply extract_marked in E3; [|unfold is_complete, exists_ in *; now rewrite C3]. subst w4.
    assert (keeps (binary_path rev_dir plat) None (ignore (remove_file (zip_path_of rev_dir plat)))) as Kr.
    { apply keeps_ignore, keeps_remove_file. now apply D; auto. }
    specialize (Kr w3 B3). rewrite E4 in Kr. cbn [snd] in Kr. unfold exists_ in Eb. rewrite Kr in Eb. discriminate.
  - (* no marker: the archive is removed with the directory *)
    revert E3. apply extract_inside_fails; [done|exists [extracted_subdir plat +:+ ".zip"]; reflexivity| | |].
    + intros Ez. destruct (D rev_dir) as [D1 _]; [auto|]. congruence.
    + apply K; [auto|now right|done].
    + destruct (U (complete_marker rev_dir) [".complete"]) as [Uc Fc]; [done|done|].
      unfold is_complete, exists_ in *. rewrite (K _ (fs w !! complete_marker rev_dir)); [done|auto|now left|done].
Qed.

End Fetcher.

(** ** Runs *)

Module FetcherExamples.
Import Fetcher.

Definition content4 : list byte := [Byte.x01; Byte.x02; Byte.x03; Byte.x04].
(** The first answer stalls after two bytes, the others resume. *)
Definition get4 (i : nat) (off : Z) : response :=
  match i with
  | O => Response 200 [CBytes [Byte.x01; Byte.x02]; CStall]
  | _ => if off <? 4 then Response 206 [CBytes (drop (Z.to_nat off) content4)] else Response 416 []
  end.
Definition net4 : network := mkNet (Ok (4, true)) get4 (fun i => Z.of_nat (Nat.min i 9)) 12.
Definition dest4 : path := ["cache"; "a.zip"].
Definition empty_world : World := mkWorld ∅ [].

Lemma honest4 : honest content4 get4.
Proof.
  intros i off Hoff. destruct i as [|i]; cbn [get4].
  - intros _. exists [Byte.x03; Byte.x04]. reflexivity.
  - destruct (off <? 4) eqn:E; [|intros H; discriminate]. intros _. cbn [body_bytes].
    rewrite app_nil_r. split; [unfold content4, zlen; simpl; lia|done].
Qed.

Lemma download_exact_witness :
  exists m w', download_zip opts_default net4 dest4 fetch_default empty_world = (Ok tt, m, w') /\
    fs w' !! dest4 = Some (FileN content4).
Proof.
  destruct (download_zip opts_default net4 dest4 fetch_default empty_world) as [[r m] w'] eqn:E.
  pose proof (download_exact opts_default net4 content4 true dest4 ["cache"; "a.zip.tmp"] fetch_default empty_world
    r m w' honest4 eq_refl eq_refl ltac:(vm_compute; reflexivity) (or_introl (prefix_nil content4)) E) as H.
  assert (fst (fst (download_zip opts_default net4 dest4 fetch_default empty_world)) = Ok tt) as Er
    by (vm_compute; reflexivity).
  rewrite E in Er. cbn [fst] in Er. subst r. exists m, w'. split; [reflexivity|exact H].
Defined.

Lemma download_completes_witness :
  exists m w', download_zip opts_default net4 dest4 fetch_default empty_world = (Ok tt, m, w') /\
    fs w' !! dest4 = Some (FileN content4).
Proof.
  apply (download_completes opts_default net4 content4 true dest4 ["cache"; "a.zip.tmp"] 1 fetch_default empty_world).
  - exact honest4.
  - reflexivity.
  - vm_compute. reflexivity.
  - reflexivity.
  - vm_compute. reflexivity.
  - vm_compute. reflexivity.
  - reflexivity.
  - vm_compute. eexists. reflexivity.
  - left. apply prefix_nil.
  - intros i. unfold net4, n_clock, opts_default, total_timeout. lia.
  - vm_compute. reflexivity.
  - intros i off Hi. assert (i = 0%nat) as -> by lia. reflexivity.
  - intros off Hoff. change (n_get net4 1%nat off) with (get4 1%nat off). cbn [get4].
    assert (off <? 4 = true) as -> by (unfold content4, zlen in Hoff; simpl in Hoff; lia).
    cbn [complete body_bytes forallb is_bytes]. rewrite app_nil_r.
    change (206 =? 206) with true. cbn [andb is_success]. now rewrite bool_decide_eq_true_2.
Defined.

(** An archive of one directory and two files; other bytes are no archive. *)
Definition unzip4 (b : list byte) : result (list (result zip_entry string)) string :=
  if bool_decide (b = content4)
  then Ok [Ok (mkEntry (Some ["d"]) true (Ok [])); Ok (mkEntry (Some ["d"; "f"]) false (Ok [Byte.x07]));
           Ok (mkEntry (Some ["g"]) false (Ok [Byte.x08]))]
  else Err "not an archive".
Definition zip_world : World := mkWorld (<[["z"] := FileN content4]> ∅) [].

Lemma extract_spec_witness :
  exists w', extract unzip4 id ["z"] ["out"] zip_world = (Ok tt, w') /\
    fs w' !! ["out"; ".complete"] = Some (FileN (String.list_byte_of_string "ok" ++ [Byte.x0a])).
Proof.
  destruct (extract unzip4 id ["z"] ["out"] zip_world) as [r w'] eqn:E.
  assert (fst (extract unzip4 id ["z"] ["out"] zip_world) = Ok tt) as Er by (vm_compute; reflexivity).
  rewrite E in Er. cbn [fst] in Er. subst r. exists w'. split; [reflexivity|].
  destruct (extract_spec unzip4 id ["z"] ["out"] zip_world (Ok tt) w' ltac:(discriminate) E) as [_ H].
  apply H; [reflexivity|vm_compute; reflexivity].
Defined.

(** A revision that is installed. *)
Definition installed : World :=
  mkWorld (<[["root"; "1.2"; ".complete"] := FileN []]>
          (<[["root"; "1.2"; "chrome-linux64"; "chrome"] := FileN [Byte.x07]]> ∅)) [].
Definition rev12 : ResolvedDownload := mkResolved "1.2" "https://example.invalid/chrome.zip".

Lemma fetch_only_from_cache_witness :
  fetch_resolved id unzip4 id opts_default ["root"] Linux64 rev12 net4 net4 installed
    = (Ok ["root"; "1.2"; "chrome-linux64"; "chrome"], installed) /\
  is_complete (fs installed) ["root"; "1.2"] = true.
Proof.
  assert (fetch_resolved id unzip4 id opts_default ["root"] Linux64 rev12 net4 net4 installed
    = (Ok ["root"; "1.2"; "chrome-linux64"; "chrome"], installed)) as E by (vm_compute; reflexivity).
  split; [exact E|].
  apply (fetch_only_from_cache id unzip4 id opts_default ["root"] Linux64 rev12 net4 net4 installed _ _ E).
Defined.

(** A first fetch with a perfect server downloads and verifies the archive, and fails to open it. *)
Example first_fetch_fails :
  fst (fetch_resolved id unzip4 id opts_default ["root"] Linux64 rev12 net4 net4 empty_world) = Err "cannot read".
Proof. vm_compute. reflexivity. Qed.

End FetcherExamples.
