(* ===== verification/Privacy.v ===== *)
(** * Privacy: the redaction engine of a session

    Models [native-control/src/privacy.rs], whole: the policy of a session, its
    patterns and its list of blocked applications, and what they do to a text
    and to a clipboard entry.  The regex engine is a parameter.  Used by the
    terminal tools and by the tools on native applications. *)
From S2P Require Import Prelude Text.

(** ** Redaction, [privacy.rs] *)
Module Privacy.

Class RegexEngine := {
  Rx : Type;
  rx_new : string -> option Rx;
  rx_match : Rx -> string -> bool;
  rx_replace_all : Rx -> string -> string -> string
}.
Record PrivacyPolicy := mkPolicy { app_blocklist : list string; redact_patterns : list string }.

Section Engine.
Context `{Re : RegexEngine}.

Record RedactionEngine := mkEngine { patterns : list Rx; sources : list string; blocklist : list string }.
Definition engine_new : RedactionEngine := mkEngine [] [] [].
(** A pattern that does not compile is skipped. *)
Definition compiled (p : PrivacyPolicy) : list (Rx * string) :=
  omap (fun src => match rx_new src with Some r => Some (r, src) | None => None end) (redact_patterns p).
Definition install (p : PrivacyPolicy) (_ : RedactionEngine) : RedactionEngine :=
  mkEngine (map fst (compiled p)) (map snd (compiled p)) (app_blocklist p).

(** [str::contains] *)
Definition contains (needle s : string) : bool := match String.index 0 needle s with Some _ => true | None => false end.
Definition is_blocked (bundle_id : string) (e : RedactionEngine) : bool :=
  match blocklist e with
  | [] => false
  | l => existsb (fun needle => negb (bool_decide (needle = "")) && contains needle bundle_id) l
  end.
Definition has_blocklist (e : RedactionEngine) : bool := existsb (fun needle => negb (bool_decide (needle = ""))) (blocklist e).
Definition matches (s : string) (e : RedactionEngine) : bool := existsb (fun re => rx_match re s) (patterns e).

Inductive ClipboardKind : Type := KindString | KindFiles | KindImage | KindOther.
Record ClipboardItem := mkItem {
  it_change_count : Z; it_timestamp_ms : Z; it_types : list string; it_kind : ClipboardKind; it_text : option string;
  it_files : list string; it_redacted : bool
}.
Definition apply_clipboard (i : ClipboardItem) (e : RedactionEngine) : ClipboardItem :=
  let needs := match it_kind i, it_text i with KindString, Some t => matches t e | _, _ => false end in
  if negb needs then i
  else mkItem (it_change_count i) (it_timestamp_ms i) (it_types i) (it_kind i) None (it_files i) true.

Definition scrub_step (st : bool * string) (re : Rx) : bool * string :=
  let '(matched, current) := st in
  if rx_match re current then (true, rx_replace_all re current "<REDACTED>") else (matched, current).
Definition scrub_text (s : string) (e : RedactionEngine) : option string :=
  if bool_decide (length (patterns e) = 0%nat) then None
  else let '(matched, current) := foldl scrub_step (false, s) (patterns e) in if matched then Some current else None.
Definition redact_text (s : string) (e : RedactionEngine) : option string :=
  if negb (matches s e) then None
  else Some ("[redacted len=" +:+ String.string_of_list_byte (Text.fmt_dec (zlen (Text.str_chars s))) +:+ "]").
Definition is_empty (e : RedactionEngine) : bool := bool_decide (length (patterns e) = 0%nat) && bool_decide (blocklist e = []).

(** The replacement says something exactly when some pattern matches the text itself. *)
Lemma scrub_none s e : scrub_text s e = None <-> matches s e = false.
Proof.
  unfold scrub_text, matches. destruct (patterns e) as [|r rs] eqn:E; [now rewrite bool_decide_eq_true_2|].
  rewrite bool_decide_eq_false_2 by done. rewrite <- E. clear.
  assert (forall l c, fst (foldl scrub_step (true, c) l) = true) as T.
  { induction l as [|x l IH]; intros c; cbn; [done|]. destruct (rx_match x c); apply IH. }
  induction (patterns e) as [|x l IH]; cbn; [done|]. destruct (rx_match x s); cbn; [|exact IH].
  specialize (T l (rx_replace_all x s "<REDACTED>")). destruct (foldl _ _ l) as [m c]. cbn in T. now subst m.
Qed.

End Engine.
End Privacy.
