(* ===== verification/Sandbox.v ===== *)
(** * Sandbox: inherited paths and the generated confinement profile

    Models [sandbox/src/inherit.rs], [sbpl.rs], [spawn.rs], [limits.rs] and the
    macOS isolator of [portable.rs].  [generate_sbpl] builds the profile text
    by the same pushes as the source; [lex] is a reader of that text, used to
    state what the text says whatever the paths contain. *)
From Stdlib Require Import Ascii.
From S2P Require Import Prelude Text.
Import Text.

Inductive SandboxError : Type :=
| CloneRetriesExhausted (src dst : Path) (attempts : Z)
| CloneUnsupported (src dst : Path)
| CloneUnavailableOnPlatform
| DestinationExists (p : Path)
| SourceMissing (p : Path)
| FileVaultBlocked (p : Path)
| SandboxExecMissing
| HomeDirUnresolvable
| RsyncFailed (message : string)
| FdesetupParseFailure (text : string)
| SandboxIo (p : Path) (message : string)
| BareIo (message : string)
| InvalidInheritKey (key : string).

Inductive InheritMode : Type := ReadWrite | ReadOnly.
Record InheritSpec := mkInherit { host_path : Path; mode : InheritMode }.

Module Sandbox.

(** ** [inherit.rs] *)

Definition rw (p : Path) : InheritSpec := mkInherit p ReadWrite.
Definition ro (p : Path) : InheritSpec := mkInherit p ReadOnly.

Section Inherit.
Context `{Os}.

Definition default_allowlist : list InheritSpec :=
  match home_dir with
  | Some h => [rw (join h [Normal "Downloads"])]
  | None => []
  end.

Definition starts_with_slash (s : string) : bool :=
  match s with String c _ => bool_decide (c = "/"%char) | EmptyString => false end.

Fixpoint parse_keys (home : Path) (keys : list string) (out : list InheritSpec)
    : result (list InheritSpec) SandboxError :=
  match keys with
  | [] => Ok out
  | k :: keys =>
      if decide (k = "cookies") then parse_keys home keys out
      else if decide (k = "downloads")
      then parse_keys home keys (out ++ [rw (join home [Normal "Downloads"])])
      else if decide (k = "documents")
      then parse_keys home keys (out ++ [rw (join home [Normal "Documents"])])
      else if decide (k = "ssh-readonly")
      then parse_keys home keys (out ++ [ro (join home [Normal ".ssh"])])
      else if decide (k = "config-readonly")
      then parse_keys home keys (out ++ [ro (join home [Normal ".config"])])
      else if starts_with_slash k
      then parse_keys home keys (out ++ [rw (path_of_string k)])
      else Err (InvalidInheritKey k)
  end.

Definition parse_inherit_keys (keys : list string) : result (list InheritSpec) SandboxError :=
  match home_dir with
  | None => Err HomeDirUnresolvable
  | Some home => parse_keys home keys []
  end.

End Inherit.

(** ** [sbpl.rs] *)

Record SbplParams := mkParams {
  session_id : string; rootfs : Path;
  allowed_rw : list Path; allowed_ro : list Path;
  network_outbound : bool; native_ax_allowed : bool
}.

Definition inherit_step (rootfs : Path) (st : list Path * list Path) (spec : InheritSpec)
    : list Path * list Path :=
  match file_name (host_path spec) with
  | None => st
  | Some l =>
      let leaf := join rootfs [Normal l] in
      match mode spec with
      | ReadWrite => (st.1 ++ [leaf], st.2)
      | ReadOnly => (st.1, st.2 ++ [leaf])
      end
  end.

Definition from_inherit (session_id : string) (rootfs : Path) (allowlist : list InheritSpec)
    : SbplParams :=
  let '(rw, ro) := foldl (inherit_step rootfs) ([rootfs], []) allowlist in
  mkParams session_id rootfs rw ro true false.

(** [escape]: backslash and double quote, the only characters with a meaning
    inside a quoted string. *)
Definition backslash : ascii := "\"%char.
Definition dquote : ascii := "034"%char.
Definition newline : ascii := "010"%char.
Definition str1 (c : ascii) : string := String c EmptyString.

Fixpoint escape_str (s : string) : string :=
  match s with
  | EmptyString => EmptyString
  | String c s =>
      if decide (c = backslash) then String backslash (String backslash (escape_str s))
      else if decide (c = dquote) then String backslash (String dquote (escape_str s))
      else String c (escape_str s)
  end.
Definition escape (p : Path) : string := escape_str (path_to_string p).

Definition nl : string := str1 newline.
Definition quoted (s : string) : string := str1 dquote +:+ s +:+ str1 dquote.
Definition subpath_line (s : string) : string := "    (subpath " +:+ quoted s +:+ ")" +:+ nl.
Definition path_line (s : string) : string := "    (path " +:+ quoted s +:+ ")" +:+ nl.
Definition name_line (s : string) : string := "    (global-name " +:+ quoted s +:+ ")" +:+ nl.
Definition concat_str : list string -> string := foldr String.app "".

(** [limits.rs] *)
Definition CHROMIUM_MEMORY_BYTES : Z := 4 * 1024 * 1024 * 1024.
Definition CHROMIUM_CPU_SECONDS_SOFT : Z := 3600.

Definition system_read_paths : list string :=
  ["/"; "/usr/lib"; "/usr/share"; "/System"; "/Library/Frameworks"; "/Library/Preferences";
   "/Library/Fonts"; "/private/etc"; "/private/var/db"; "/dev/null"; "/dev/random";
   "/dev/urandom"; "/dev/zero"].
Definition mach_services : list string :=
  ["com.apple.system.notification_center"; "com.apple.distributed_notifications.2";
   "com.apple.cfprefsd.daemon"; "com.apple.cfprefsd.agent";
   "com.apple.coreservices.launchservicesd"; "com.apple.lsd.mapdb"; "com.apple.lsd.modifydb";
   "com.apple.fonts"; "com.apple.FontServer"; "com.apple.windowserver.active";
   "com.apple.SecurityServer"; "com.apple.system.opendirectoryd.libinfo";
   "com.apple.system.logger"; "com.apple.logd"; "com.apple.diagnosticd"].
Definition native_services : list string :=
  ["com.apple.tccd"; "com.apple.tccd.system"; "com.apple.AppleEventsService";
   "com.apple.coreservices.appleevents"].

Definition dec (z : Z) : string := String.string_of_list_byte (fmt_dec z).

Definition sbpl_header (p : SbplParams) : string :=
  concat_str
    [";; one-for-all SPEC §11 V3 sandbox profile — auto-generated" +:+ nl;
     ";; session_id = " +:+ session_id p +:+ nl;
     ";; rootfs     = " +:+ path_to_string (rootfs p) +:+ nl;
     ";; rlimit_as  = " +:+ dec CHROMIUM_MEMORY_BYTES
       +:+ " bytes (SPEC §10 M9; enforced via pre_exec setrlimit)" +:+ nl;
     ";; rlimit_cpu = " +:+ dec CHROMIUM_CPU_SECONDS_SOFT
       +:+ " seconds soft (SPEC §10 M9; enforced via pre_exec setrlimit)" +:+ nl].

Definition sbpl_base : string :=
  concat_str
    ["(version 1)" +:+ nl; "(deny default)" +:+ nl; "(debug deny)" +:+ nl +:+ nl;
     "(allow process-fork)" +:+ nl; "(allow process-exec)" +:+ nl;
     "(allow signal (target self))" +:+ nl;
     "(allow process-info* (target self))" +:+ nl +:+ nl;
     "(allow sysctl-read)" +:+ nl; "(allow iokit-open)" +:+ nl;
     "(allow mach-priv-host-port)" +:+ nl; "(allow ipc-posix-shm)" +:+ nl;
     "(allow ipc-posix-sem)" +:+ nl +:+ nl;
     "(allow file-read*" +:+ nl;
     concat_str (map subpath_line system_read_paths);
     ")" +:+ nl +:+ nl].

Definition sbpl_rw (p : SbplParams) : string :=
  concat_str
    ["(allow file-read* file-write*" +:+ nl;
     subpath_line (escape (rootfs p));
     concat_str (map (fun r => if decide (r = rootfs p) then "" else subpath_line (escape r))
       (allowed_rw p));
     path_line "/dev/null"; path_line "/dev/dtracehelper"; ")" +:+ nl +:+ nl].

Definition sbpl_ro (p : SbplParams) : string :=
  match allowed_ro p with
  | [] => ""
  | ros => concat_str ["(allow file-read*" +:+ nl;
      concat_str (map (fun r => subpath_line (escape r)) ros); ")" +:+ nl +:+ nl]
  end.

Definition sbpl_mach (p : SbplParams) : string :=
  concat_str
    [";; V-R8: mach service allowlist — every entry must be justified." +:+ nl;
     "(allow mach-lookup" +:+ nl;
     concat_str (map name_line mach_services);
     if native_ax_allowed p
     then concat_str (map (fun svc =>
       "    (global-name " +:+ quoted svc +:+ ") ;; V2: native AX" +:+ nl) native_services)
     else "";
     ")" +:+ nl +:+ nl].

Definition sbpl_network (p : SbplParams) : string :=
  if network_outbound p
  then concat_str
    [";; outbound network only; inbound listen denied." +:+ nl;
     "(allow network-outbound)" +:+ nl; "(allow system-socket)" +:+ nl;
     "(allow network-bind (local ip " +:+ quoted "localhost:*" +:+ "))" +:+ nl +:+ nl]
  else ";; network isolation requested — agent is offline." +:+ nl +:+ nl.

Definition generate_sbpl (p : SbplParams) : string :=
  concat_str [sbpl_header p; sbpl_base; sbpl_rw p; sbpl_ro p; sbpl_mach p; sbpl_network p].

(** ** [spawn.rs] *)

Definition SANDBOX_EXEC_PATH : string := "/usr/bin/sandbox-exec".

Definition wrap_argv `{Os} (profile original_binary : Path) (original_args : list string)
    : result (Path * list string) SandboxError :=
  let sb := path_of_string SANDBOX_EXEC_PATH in
  if negb (path_exists sb) then Err SandboxExecMissing
  else Ok (sb, ["-f"; path_to_string profile; "--"; path_to_string original_binary]
               ++ original_args).

(** ** [MacOsIsolator::prepare] of [portable.rs] *)

Record PreparedSandbox := mkPrepared {
  prep_rootfs : Path; argv_prefix : list string; enforced : bool
}.

(** The outcomes of the file-system work: creating the rootfs, cloning the
    browser profile and the inherited directories, writing the profile. *)
Record PrepareIo := mkIo {
  io_clone_profile : result unit SandboxError;
  io_clone_dirs : result unit SandboxError;
  io_write : result unit SandboxError
}.

(** The result, and the profile file written (path and text). *)
Definition prepare `{Os} (io : PrepareIo) (sid : string) (root : Path)
    (host_chrome_profile : option Path) (inherit : list InheritSpec) (net : bool)
    : result (PreparedSandbox * (Path * string)) SandboxError :=
  match create_dir_all root with
  | Err e => Err (SandboxIo root e)
  | Ok _ =>
      _ <-? match host_chrome_profile with
            | None => Ok tt
            | Some _ =>
                match io_clone_profile io with
                | Ok _ | Err (DestinationExists _) | Err (CloneUnsupported _ _) => Ok tt
                | Err e => Err e
                end
            end;;
      _ <-? match inherit with
            | [] => Ok tt
            | _ =>
                match io_clone_dirs io with
                | Ok _ | Err (CloneUnsupported _ _) => Ok tt
                | Err e => Err e
                end
            end;;
      match canonicalize root with
      | Err e => Err (SandboxIo root e)
      | Ok canonical =>
          let p := from_inherit sid canonical inherit in
          let p := mkParams (session_id p) (rootfs p) (allowed_rw p)
                     (allowed_ro p) net (native_ax_allowed p) in
          let text := generate_sbpl p in
          let profile := join canonical [Normal "sandbox.sb"] in
          _ <-? io_write io;;
          Ok (mkPrepared canonical
                [SANDBOX_EXEC_PATH; "-f"; path_to_string profile; "--"] true,
              (profile, text))
      end
  end.

(** ** A reader of profile text *)

Inductive token : Type := LP | RP | Atom (s : string) | Str (s : string).
Inductive lstate : Type := Idle | InAtom (a : string) | InStr (a : string) | Esc (a : string) | Comment.

Definition is_blank (c : ascii) : bool := bool_decide (c = " "%char \/ c = newline).
Definition snoc_char (a : string) (c : ascii) : string := a +:+ str1 c.

Definition lex_step (st : lstate) (c : ascii) : lstate * list token :=
  match st with
  | InStr a =>
      if decide (c = backslash) then (Esc a, [])
      else if decide (c = dquote) then (Idle, [Str a]) else (InStr (snoc_char a c), [])
  | Esc a => (InStr (snoc_char a c), [])
  | Comment => (if decide (c = newline) then Idle else Comment, [])
  | Idle | InAtom _ =>
      let flush := match st with InAtom a => [Atom a] | _ => [] end in
      if decide (c = "("%char) then (Idle, flush ++ [LP])
      else if decide (c = ")"%char) then (Idle, flush ++ [RP])
      else if decide (c = ";"%char) then (Comment, flush)
      else if decide (c = dquote) then (InStr "", flush)
      else if is_blank c then (Idle, flush)
      else (InAtom (snoc_char (match st with InAtom a => a | _ => "" end) c), [])
  end.

Fixpoint lex (st : lstate) (s : string) : lstate * list token :=
  match s with
  | EmptyString => (st, [])
  | String c s =>
      let '(st1, ts1) := lex_step st c in
      let '(st2, ts2) := lex st1 s in (st2, ts1 ++ ts2)
  end.

(** ** What the profile grants *)

Inductive filter : Type := Subpath (p : Path) | Literal (p : Path).
Record clause := mkClause { ops : list string; filters : list filter }.

Definition filter_tokens (f : filter) : list token :=
  match f with
  | Subpath p => [LP; Atom "subpath"; Str (path_to_string p); RP]
  | Literal p => [LP; Atom "path"; Str (path_to_string p); RP]
  end.
Definition clause_tokens (c : clause) : list token :=
  LP :: Atom "allow" :: map Atom (ops c) ++ concat (map filter_tokens (filters c)) ++ [RP].

Definition system_clause : clause :=
  mkClause ["file-read*"] (map (fun s => Subpath (path_of_string s)) system_read_paths).
Definition rw_clause (p : SbplParams) : clause :=
  mkClause ["file-read*"; "file-write*"]
    (Subpath (rootfs p)
     :: map Subpath (base.filter (fun r => r <> rootfs p) (allowed_rw p))
     ++ [Literal (path_of_string "/dev/null"); Literal (path_of_string "/dev/dtracehelper")]).
Definition file_policy (p : SbplParams) : list clause :=
  [system_clause; rw_clause p]
  ++ match allowed_ro p with [] => [] | ros => [mkClause ["file-read*"] (map Subpath ros)] end.

Definition form (l : list string) : list token := LP :: map Atom l ++ [RP].
Definition allow_self (op : string) : list token :=
  [LP; Atom "allow"; Atom op; LP; Atom "target"; Atom "self"; RP; RP].
Definition prologue : list token :=
  form ["version"; "1"] ++ form ["deny"; "default"] ++ form ["debug"; "deny"]
  ++ form ["allow"; "process-fork"] ++ form ["allow"; "process-exec"]
  ++ allow_self "signal" ++ allow_self "process-info*"
  ++ form ["allow"; "sysctl-read"] ++ form ["allow"; "iokit-open"]
  ++ form ["allow"; "mach-priv-host-port"] ++ form ["allow"; "ipc-posix-shm"]
  ++ form ["allow"; "ipc-posix-sem"].
Definition mach_tokens (p : SbplParams) : list token :=
  [LP; Atom "allow"; Atom "mach-lookup"]
  ++ concat (map (fun s => [LP; Atom "global-name"; Str s; RP])
       (mach_services ++ if native_ax_allowed p then native_services else []))
  ++ [RP].
Definition network_tokens (p : SbplParams) : list token :=
  if network_outbound p
  then form ["allow"; "network-outbound"] ++ form ["allow"; "system-socket"]
       ++ [LP; Atom "allow"; Atom "network-bind"; LP; Atom "local"; Atom "ip";
           Str "localhost:*"; RP; RP]
  else [].

(** Default deny: an operation on a path is permitted when some clause lists
    the operation and one of its filters matches the path. *)
Definition filter_matches (q : Path) (f : filter) : bool :=
  match f with Subpath r => starts_with q r | Literal r => bool_decide (q = r) end.
Definition permits (cs : list clause) (op : string) (q : Path) : bool :=
  existsb (fun c => bool_decide (op ∈ ops c) && existsb (filter_matches q) (filters c)) cs.

(** ** Reading the text back *)

Lemma str_app_cons c (s t : string) : String c s +:+ t = String c (s +:+ t).
Proof. reflexivity. Qed.

Lemma str_app_nil (s : string) : s +:+ "" = s.
Proof. induction s as [|c s IH]; [done|]. by rewrite str_app_cons, IH. Qed.

Lemma str_app_assoc (a b c : string) : a +:+ (b +:+ c) = (a +:+ b) +:+ c.
Proof. induction a as [|x a IH]; [done|]. by rewrite !str_app_cons, IH. Qed.

Lemma lex_app a b st :
  lex st (a +:+ b) = let '(st1, t1) := lex st a in let '(st2, t2) := lex st1 b in (st2, t1 ++ t2).
Proof.
  revert st. induction a as [|c a IH]; intros st; [by simpl; change ("" +:+ b) with b; destruct (lex st b)|].
  rewrite str_app_cons. simpl.
  destruct (lex_step st c) as [st1 t1]. rewrite IH. destruct (lex st1 a) as [st2 t2].
  destruct (lex st2 b) as [st3 t3]. by rewrite app_assoc.
Qed.

Lemma lex_escape s : forall a, lex (InStr a) (escape_str s) = (InStr (a +:+ s), []).
Proof.
  induction s as [|c s IH]; intros a; simpl; [by rewrite str_app_nil|].
  assert (E : a +:+ String c s = snoc_char a c +:+ s)
    by (unfold snoc_char; by rewrite <- str_app_assoc).
  repeat case_decide; subst; simpl; rewrite ?decide_True, ?decide_False by done; simpl;
    rewrite IH, E; done.
Qed.

(** [s] is read from and back to the idle state, as the tokens [ts]. *)
Definition lexes (s : string) (ts : list token) : Prop := lex Idle s = (Idle, ts).

Lemma lexes_app a b ta tb : lexes a ta -> lexes b tb -> lexes (a +:+ b) (ta ++ tb).
Proof. unfold lexes. intros Ha Hb. by rewrite lex_app, Ha, Hb. Qed.

Lemma lexes_concat ss tss : Forall2 lexes ss tss -> lexes (concat_str ss) (concat tss).
Proof. induction 1; simpl; [done|]. by apply lexes_app. Qed.

Lemma lexes_concat_map {A} (f : A -> string) (g : A -> list token) l :
  (forall x, lexes (f x) (g x)) -> lexes (concat_str (map f l)) (concat (map g l)).
Proof. intros Hf. apply lexes_concat. induction l; simpl; constructor; auto. Qed.

Lemma lexes_subpath p : lexes (subpath_line (escape p)) (filter_tokens (Subpath p)).
Proof.
  unfold lexes, subpath_line, quoted, escape. rewrite !lex_app.
  change (lex Idle "    (subpath ") with (Idle, [LP; Atom "subpath"]). cbv iota beta.
  rewrite !lex_app. change (lex Idle (str1 dquote)) with (InStr "", @nil token). cbv iota beta.
  rewrite !lex_app, lex_escape. reflexivity.
Qed.

Fixpoint no_newline (s : string) : bool :=
  match s with
  | EmptyString => true
  | String c s => negb (bool_decide (c = newline)) && no_newline s
  end.

Lemma lex_comment s : no_newline s = true -> lex Comment s = (Comment, []).
Proof.
  induction s as [|c s IH]; simpl; [done|]. intros [Hc Hs]%andb_prop.
  case_bool_decide; [done|]. rewrite decide_False by done. by rewrite IH.
Qed.

(** A comment line whose text has no newline reads as nothing. *)
Lemma lexes_comment pre s : lex Idle pre = (Comment, []) -> no_newline s = true ->
  lexes (pre +:+ s +:+ nl) [].
Proof. intros Hp Hs. unfold lexes. by rewrite lex_app, Hp, lex_app, lex_comment. Qed.

Lemma header_lexes p : no_newline (session_id p) = true ->
  no_newline (path_to_string (rootfs p)) = true -> lexes (sbpl_header p) [].
Proof.
  intros Hs Hr. apply (lexes_concat _ [[]; []; []; []; []]).
  repeat constructor; try (by apply lexes_comment); vm_compute; reflexivity.
Qed.

Lemma base_lexes : lexes sbpl_base (prologue ++ clause_tokens system_clause).
Proof. vm_compute. reflexivity. Qed.

Lemma rw_lexes p : lexes (sbpl_rw p) (clause_tokens (rw_clause p)).
Proof.
  unfold clause_tokens, rw_clause. cbn [ops filters map concat].
  set (ds := [Literal _; Literal _]).
  replace (_ :: _ :: _) with (concat
    [[LP; Atom "allow"; Atom "file-read*"; Atom "file-write*"];
     filter_tokens (Subpath (rootfs p));
     concat (map (fun r => if decide (r = rootfs p) then [] else filter_tokens (Subpath r)) (allowed_rw p));
     filter_tokens (Literal (path_of_string "/dev/null"));
     filter_tokens (Literal (path_of_string "/dev/dtracehelper")); [RP]]).
  - apply lexes_concat. repeat constructor; try (vm_compute; reflexivity).
    + apply lexes_subpath.
    + apply lexes_concat_map. intros r. case_decide; [done|]. apply lexes_subpath.
  - cbn [concat map app filter_tokens]. rewrite map_app, concat_app, <- !app_assoc. do 8 f_equal.
    f_equal. induction (allowed_rw p) as [|r l IH]; [done|]. rewrite filter_cons. simpl.
    repeat case_decide; try done. simpl. by rewrite IH.
Qed.

Lemma ro_lexes p : lexes (sbpl_ro p)
  (concat (map clause_tokens (drop 2 (file_policy p)))).
Proof.
  unfold sbpl_ro, file_policy. cbn [app skipn]. destruct (allowed_ro p) as [|r ros]; [done|].
  rewrite drop_0. unfold clause_tokens. set (fs := map Subpath (r :: ros)).
  cbn [map concat ops filters app].
  rewrite app_nil_r. unfold fs. rewrite map_map.
  apply (lexes_concat [_; _; _]
    [[LP; Atom "allow"; Atom "file-read*"];
     concat (map (fun r => filter_tokens (Subpath r)) (r :: ros)); [RP]]).
  repeat constructor; try (vm_compute; reflexivity).
  apply (lexes_concat_map (fun r => subpath_line (escape r))
    (fun r => filter_tokens (Subpath r)) (r :: ros)), lexes_subpath.
Qed.

Lemma mach_lexes p : lexes (sbpl_mach p) (mach_tokens p).
Proof. unfold lexes, sbpl_mach, mach_tokens. destruct (native_ax_allowed p); vm_compute; reflexivity. Qed.

Lemma network_lexes p : lexes (sbpl_network p) (network_tokens p).
Proof. unfold lexes, sbpl_network, network_tokens. destruct (network_outbound p); vm_compute; reflexivity. Qed.

Lemma generate_sbpl_lexes p :
  no_newline (session_id p) = true -> no_newline (path_to_string (rootfs p)) = true ->
  lexes (generate_sbpl p)
    (prologue ++ concat (map clause_tokens (file_policy p)) ++ mach_tokens p ++ network_tokens p).
Proof.
  intros Hs Hr.
  pose proof (lexes_concat
    [sbpl_header p; sbpl_base; sbpl_rw p; sbpl_ro p; sbpl_mach p; sbpl_network p]
    [[]; prologue ++ clause_tokens system_clause; clause_tokens (rw_clause p);
     concat (map clause_tokens (drop 2 (file_policy p))); mach_tokens p; network_tokens p]) as H.
  unfold generate_sbpl, lexes in *. rewrite H.
  - cbn [concat app]. rewrite app_nil_r. f_equal. rewrite <- !app_assoc. f_equal.
    replace (file_policy p) with (system_clause :: rw_clause p :: drop 2 (file_policy p)) at 2
      by reflexivity.
    cbn [map concat]. by rewrite <- !app_assoc.
  - constructor; [by apply header_lexes|]. constructor; [apply base_lexes|].
    constructor; [apply rw_lexes|]. constructor; [apply ro_lexes|].
    constructor; [apply mach_lexes|]. constructor; [apply network_lexes|]. constructor.
Qed.


(** ** Confinement *)

Lemma permits_write p q :
  permits (file_policy p) "file-write*" q = true <->
  starts_with q (rootfs p) = true
  \/ (exists r, r ∈ allowed_rw p /\ starts_with q r = true)
  \/ q = path_of_string "/dev/null" \/ q = path_of_string "/dev/dtracehelper".
Proof.
  assert (E : permits (file_policy p) "file-write*" q = permits [system_clause; rw_clause p] "file-write*" q).
  { unfold permits, file_policy. rewrite existsb_app. destruct (allowed_ro p); apply orb_false_r. }
  rewrite E. unfold permits. cbn [existsb ops filters rw_clause system_clause].
  rewrite bool_decide_eq_false_2, bool_decide_eq_true_2 by set_solver.
  rewrite orb_false_l, orb_false_r, andb_true_l, existsb_app, !orb_true_iff. cbn [existsb filter_matches].
  rewrite !orb_true_iff, !bool_decide_eq_true, existsb_exists.
  split.
  - intros [?|[(f & [r [<- Hr]]%in_map_iff & Hm)|[?|[?|?]]]]; auto; [|done].
    right. left. apply list_elem_of_In, list_elem_of_filter in Hr as [_ Hr]. eauto.
  - intros [?|[(r & Hr & Hm)|[?|?]]]; auto.
    destruct (decide (r = rootfs p)) as [->|Hne]; [auto|]. right. left.
    exists (Subpath r). split; [|done]. apply in_map, list_elem_of_In, list_elem_of_filter. done.
Qed.

Lemma from_inherit_fold root al : forall rw0 ro0,
  root <> [] -> (forall r, r ∈ rw0 ++ ro0 -> starts_with r root = true) ->
  let st := foldl (inherit_step root) (rw0, ro0) al in
  (forall r, r ∈ st.1 ++ st.2 -> starts_with r root = true)
  /\ (forall r, r ∈ ro0 -> r ∈ st.2)
  /\ (forall spec leaf, spec ∈ al -> mode spec = ReadOnly -> file_name (host_path spec) = Some leaf ->
      join root [Normal leaf] ∈ st.2).
Proof.
  induction al as [|s al IH]; intros rw0 ro0 Hroot H0; cbn [foldl]; [set_solver|].
  assert (Hj : forall l, starts_with (join root [Normal l]) root = true).
  { intros l. rewrite join_plain by (done || by repeat constructor). apply starts_with_spec. eauto. }
  set (st0 := inherit_step root (rw0, ro0) s).
  assert (Hst : (forall r, r ∈ st0.1 ++ st0.2 -> starts_with r root = true)
    /\ (forall r, r ∈ ro0 -> r ∈ st0.2)
    /\ (mode s = ReadOnly -> forall leaf, file_name (host_path s) = Some leaf ->
        join root [Normal leaf] ∈ st0.2)).
  { unfold st0, inherit_step. destruct (file_name (host_path s)) as [l|]; [|set_solver].
    destruct (mode s); simpl; (split; [|set_solver]); intros r Hr; rewrite !elem_of_app in Hr;
      rewrite ?list_elem_of_singleton in Hr; specialize (H0 r); rewrite elem_of_app in H0;
      naive_solver. }
  destruct Hst as (Hin & Hkeep & Hnew). destruct st0 as [rw1 ro1]. simpl in *.
  destruct (IH rw1 ro1 Hroot Hin) as (A & B & C). split; [exact A|]. split; [auto|].
  intros spec leaf Hs Hm Hl. apply elem_of_cons in Hs as [->|Hs]; [|by eapply C].
  apply B. by apply Hnew.
Qed.

Lemma from_inherit_spec sid root al : root <> [] ->
  let p := from_inherit sid root al in
  rootfs p = root
  /\ (forall r, r ∈ allowed_rw p ++ allowed_ro p -> starts_with r root = true)
  /\ (forall spec leaf, spec ∈ al -> mode spec = ReadOnly -> file_name (host_path spec) = Some leaf ->
      join root [Normal leaf] ∈ allowed_ro p).
Proof.
  intros Hr. unfold from_inherit.
  destruct (from_inherit_fold root al [root] [] Hr) as (A & _ & C).
  - intros r. rewrite app_nil_r, list_elem_of_singleton. intros ->. apply starts_with_spec.
    exists []. by rewrite app_nil_r.
  - destruct (foldl _ _ _) as [rw0 ro0]. done.
Qed.

Lemma starts_with_trans a b c : starts_with a b = true -> starts_with b c = true -> starts_with a c = true.
Proof.
  rewrite !starts_with_spec. intros [x ->] [y ->]. exists (y ++ x). by rewrite app_assoc.
Qed.

Lemma confined_write p root q :
  rootfs p = root -> (forall r, r ∈ allowed_rw p -> starts_with r root = true) ->
  permits (file_policy p) "file-write*" q = true <->
  starts_with q root = true
  \/ q = path_of_string "/dev/null" \/ q = path_of_string "/dev/dtracehelper".
Proof.
  intros <- Hrw. rewrite permits_write.
  split; [|naive_solver]. intros [?|[(r & Hin & Hm)|?]]; auto. left.
  eapply starts_with_trans; [exact Hm|]. by apply Hrw.
Qed.

(** Write confinement: the profile built from any inherit list lets the
    session write exactly under its rootfs and to the two device files. *)
Theorem profile_write_confinement (sid : string) (root : Path) (al : list InheritSpec) (q : Path) :
  root <> [] ->
  permits (file_policy (from_inherit sid root al)) "file-write*" q = true <->
  starts_with q root = true
  \/ q = path_of_string "/dev/null" \/ q = path_of_string "/dev/dtracehelper".
Proof.
  intros Hr. destruct (from_inherit_spec sid root al Hr) as (E & Hrw & _).
  apply confined_write; [done|]. intros r ?. apply Hrw, elem_of_app. auto.
Qed.

(** A directory inherited read-only is nevertheless writable: its copy lies
    under the rootfs, which the profile grants for writing as a whole. *)
Theorem readonly_inherit_writable (sid : string) (root : Path) (al : list InheritSpec)
    (spec : InheritSpec) (leaf : string) (q : Path) :
  root <> [] -> spec ∈ al -> mode spec = ReadOnly -> file_name (host_path spec) = Some leaf ->
  starts_with q (join root [Normal leaf]) = true ->
  join root [Normal leaf] ∈ allowed_ro (from_inherit sid root al)
  /\ permits (file_policy (from_inherit sid root al)) "file-write*" q = true.
Proof.
  intros Hr Hs Hm Hl Hq. destruct (from_inherit_spec sid root al Hr) as (E & Hrw & Hro).
  specialize (Hro spec leaf Hs Hm Hl). split; [done|].
  apply permits_write. left. rewrite E. eapply starts_with_trans; [exact Hq|].
  apply Hrw, elem_of_app. auto.
Qed.

(** A prepared sandbox is confined to its canonical rootfs: when [prepare]
    succeeds, the rootfs it reports is the canonical one, the command prefix
    names a profile inside it, the text written there reads as a policy that
    permits writing only under that rootfs and to the two device files, and
    the network clause is present exactly when asked for. *)
Theorem prepare_confines `{Os} (io : PrepareIo) (sid : string) (root : Path)
    (host : option Path) (al : list InheritSpec) (net : bool)
    (ps : PreparedSandbox) (profile : Path) (text : string) :
  prepare io sid root host al net = Ok (ps, (profile, text)) ->
  prep_rootfs ps <> [] -> no_newline sid = true ->
  no_newline (path_to_string (prep_rootfs ps)) = true ->
  canonicalize root = Ok (prep_rootfs ps)
  /\ starts_with profile (prep_rootfs ps) = true
  /\ argv_prefix ps = [SANDBOX_EXEC_PATH; "-f"; path_to_string profile; "--"]
  /\ exists p, network_outbound p = net
     /\ lex Idle text = (Idle, prologue ++ concat (map clause_tokens (file_policy p))
                                 ++ mach_tokens p ++ network_tokens p)
     /\ (forall q, permits (file_policy p) "file-write*" q = true ->
         starts_with q (prep_rootfs ps) = true
         \/ q = path_of_string "/dev/null" \/ q = path_of_string "/dev/dtracehelper").
Proof.
  unfold prepare. intros E Hne Hsid Hroot.
  destruct (create_dir_all root); [|done].
  case_match; [|done]. case_match; [|done].
  destruct (canonicalize root) as [canon|] eqn:Ec; [|done].
  destruct (io_write io); [|done]. injection E as <- <- <-. cbn [prep_rootfs argv_prefix] in *.
  split; [done|]. split.
  { rewrite join_plain by (done || by repeat constructor). apply starts_with_spec. eauto. }
  split; [done|]. destruct (from_inherit_spec sid canon al Hne) as (E & Hrw & _).
  set (p0 := from_inherit sid canon al) in *.
  assert (Hs0 : session_id p0 = sid) by (unfold p0, from_inherit; by destruct (foldl _ _ _)).
  exists (mkParams (session_id p0) (rootfs p0) (allowed_rw p0) (allowed_ro p0) net
            (native_ax_allowed p0)).
  split; [done|]. split.
  - apply generate_sbpl_lexes; cbn [session_id rootfs]; congruence.
  - intros q. rewrite (confined_write _ canon); [done|done|].
    intros r ?. apply Hrw, elem_of_app. auto.
Qed.

End Sandbox.

Module SandboxExamples.
Import Sandbox OsExamples.

Definition root1 : Path := path_of_string ("/sessions/a" +:+ str1 dquote +:+ "b").
Definition al1 : list InheritSpec :=
  [rw (path_of_string "/home/u/Downloads"); ro (path_of_string "/home/u/.ssh")].
Definition io_ok : PrepareIo := mkIo (Ok tt) (Err (CloneUnsupported [] [])) (Ok tt).
Definition prepared1 : PreparedSandbox :=
  mkPrepared root1 [SANDBOX_EXEC_PATH; "-f"; path_to_string (root1 ++ [Normal "sandbox.sb"]); "--"] true.


Lemma profile_write_confinement_witness :
  permits (file_policy (from_inherit "s1" root1 al1)) "file-write*" (root1 ++ [Normal "x"]) = true <->
  starts_with (root1 ++ [Normal "x"]) root1 = true
  \/ root1 ++ [Normal "x"] = path_of_string "/dev/null"
  \/ root1 ++ [Normal "x"] = path_of_string "/dev/dtracehelper".
Proof. apply profile_write_confinement. discriminate. Defined.

Lemma readonly_inherit_writable_witness :
  join root1 [Normal ".ssh"] ∈ allowed_ro (from_inherit "s1" root1 al1)
  /\ permits (file_policy (from_inherit "s1" root1 al1)) "file-write*"
       (root1 ++ [Normal ".ssh"; Normal "config"]) = true.
Proof.
  apply (readonly_inherit_writable "s1" root1 al1 (ro (path_of_string "/home/u/.ssh")) ".ssh");
    [discriminate | by apply list_elem_of_further, list_elem_of_here | reflexivity | reflexivity | reflexivity].
Defined.

Lemma prepare_confines_witness :
  exists text,
  prepare io_ok "s1" root1 None al1 false = Ok (prepared1, (root1 ++ [Normal "sandbox.sb"], text))
  /\ canonicalize root1 = Ok (prep_rootfs prepared1)
  /\ starts_with (root1 ++ [Normal "sandbox.sb"]) (prep_rootfs prepared1) = true.
Proof.
  eexists. split; [reflexivity|].
  edestruct (prepare_confines io_ok "s1" root1 None al1 false prepared1
    (root1 ++ [Normal "sandbox.sb"])) as (A & B & _);
    [reflexivity | discriminate | reflexivity | reflexivity | exact (conj A B)].
Defined.

End SandboxExamples.
