(* ===== verification/Clone.v ===== *)
(** * Clone: copying the user's files into a session, and snapshots of it

    Models [sandbox/src/clone.rs] and [snapshot.rs] on macOS: the clone system
    call with its retries, the walk that clones file by file, the copy programs
    tried last, the choice of the browser profile and the snapshots of a
    session.  A world is the files with scripts of what goes wrong: the errors
    of the next clone calls, failing directory and link calls, and the answers
    of the clock, which says at last that the time is up.  The programs [cp] and
    [ditto], the meaning of a link's text, the order of a directory and the JSON
    parser are parameters.  Of a path only the last name is followed when it is
    a link. *)
From S2P Require Import Prelude Json Text Input Sandbox.
Import Text.

Module Clone.

(** ** Files *)

Inductive cnode : Type := CFile (content : list byte) | CDir | CLink (target : string).
#[export] Instance cnode_eq_dec : EqDecision cnode.
Proof. solve_decision. Defined.
#[export] Instance component_countable : Countable component.
Proof.
  refine (inj_countable'
    (fun c => match c with RootDir => inl 0%nat | CurDir => inl 1%nat | ParentDir => inl 2%nat | Normal n => inr n end)
    (fun s => match s with inl 0%nat => RootDir | inl 1%nat => CurDir | inl _ => ParentDir | inr n => Normal n end) _).
  by intros [].
Defined.
Abbreviation Files := (gmap Path cnode).

Inductive Errno : Type := EXDEV | ENOTSUP | EEXIST | ENOENT | EDEADLK | EOther.
Record World := mkWorld {
  files : Files; errnos : list (option Errno); faults : list bool; clock : list bool; slept : list Z; ran : list string
}.
Definition set_files (m : Files) (w : World) : World := mkWorld m (errnos w) (faults w) (clock w) (slept w) (ran w).
Definition set_clock (c : list bool) (w : World) : World := mkWorld (files w) (errnos w) (faults w) c (slept w) (ran w).
Definition sleep (ms : Z) (w : World) : World := mkWorld (files w) (errnos w) (faults w) (clock w) (slept w ++ [ms]) (ran w).
Definition running (prog : string) (w : World) : World := mkWorld (files w) (errnos w) (faults w) (clock w) (slept w) (ran w ++ [prog]).

(** What the operating system and its programs decide. *)
Class Host := {
  (** Where the link at a path leads that holds a text. *)
  leads_to : Path -> string -> Path;
  dir_order : Path -> list string -> list string;
  dir_order_perm p l : dir_order p l ≡ₚ l;
  (** [cp -cR] and [ditto]: whether they succeed, and the files they leave. *)
  cp_cr : Files -> Path -> Path -> result (bool * Files) string;
  ditto : Files -> Path -> Path -> result (bool * Files) string
}.

Definition M (A : Type) : Type := World -> result A SandboxError * World.
Definition ret {A} (a : A) : M A := fun w => (Ok a, w).
Definition fail {A} (e : SandboxError) : M A := fun w => (Err e, w).
Definition bind {A B} (c : M A) (k : A -> M B) : M B :=
  fun w => match c w with (Ok a, w) => k a w | (Err e, w) => (Err e, w) end.
(** A call that may fail by the script. *)
Definition faulty (w : World) : bool * World :=
  (default false (head (faults w)), mkWorld (files w) (errnos w) (tail (faults w)) (clock w) (slept w) (ran w)).
Declare Scope clone_scope.
Delimit Scope clone_scope with clone.
#[local] Open Scope clone_scope.
Notation "x <- c ;; k" := (bind c (fun x => k)) (at level 100, c at next level, right associativity) : clone_scope.
Notation "c ;;; k" := (bind c (fun _ => k)) (at level 100, right associativity) : clone_scope.

Definition parent (p : Path) : Path := removelast p.
Definition child (p : Path) (name : string) : Path := p ++ [Normal name].

Section Calls.
Context `{Hst : Host}.

(** The path a path leads to; 32 links are followed. *)
Fixpoint resolve (fuel : nat) (m : Files) (p : Path) : option Path :=
  match m !! p with
  | None => None
  | Some (CLink t) => match fuel with O => None | S fuel => resolve fuel m (leads_to p t) end
  | Some _ => Some p
  end.
Definition stat (m : Files) (p : Path) : option cnode := resolve 32 m p ≫= fun q => m !! q.
Definition exists_ (m : Files) (p : Path) : bool := bool_decide (is_Some (stat m p)).
Definition is_dir (m : Files) (p : Path) : bool := match stat m p with Some CDir => true | _ => false end.

(** The names in a directory. *)
Definition name_in (p q : Path) : option string :=
  match strip_prefix q p with Some [Normal n] => Some n | _ => None end.
Definition names (m : Files) (p : Path) : list string := omap (fun e => name_in p e.1) (map_to_list m).
Definition read_dir (p : Path) (w : World) : option (list string) * World :=
  let '(f, w) := faulty w in
  (if f || negb (is_dir (files w) p) then None else Some (dir_order p (names (files w) p)), w).

(** [create_dir_all] *)
Definition mkdir_one (m : Files) (p : Path) : option Files :=
  match stat m p with
  | Some CDir => Some m
  | Some _ => None
  | None => match m !! p with Some _ => None | None => Some (<[p := CDir]> m) end
  end.
Fixpoint mkdirs (m : Files) (ps : list Path) : option Files :=
  match ps with [] => Some m | p :: ps => mkdir_one m p ≫= fun m => mkdirs m ps end.
Definition ancestors (p : Path) : list Path := map (fun n => take n p) (seq 1 (length p)).
Definition create_dir_all (p : Path) : M unit := fun w =>
  let '(f, w) := faulty w in
  if f then (Err (SandboxIo p "io error"), w)
  else match mkdirs (files w) (ancestors p) with
       | Some m => (Ok tt, set_files m w)
       | None => (Err (SandboxIo p "not a directory"), w)
       end.

(** ** The clone system call *)

(** The files under a path, at another one. *)
Definition entries (m : Files) (src dst : Path) : list (Path * cnode) :=
  omap (fun e => option_map (fun r => (dst ++ r, e.2)) (strip_prefix e.1 src)) (map_to_list m).
Definition copies (m : Files) (src dst : Path) : Files := list_to_map (entries m src dst).
Definition graft (m : Files) (src dst : Path) : Files := copies m src dst ∪ m.
(** [clonefile(src, dst, 0)]: the error number, if any. *)
Definition clonefile (src dst : Path) (w : World) : option Errno * World :=
  let w' := mkWorld (files w) (tail (errnos w)) (faults w) (clock w) (slept w) (ran w) in
  match errnos w with
  | Some e :: _ => (Some e, w')
  | _ =>
      match resolve 32 (files w) src with
      | None => (Some ENOENT, w')
      | Some s =>
          match files w !! dst with
          | Some _ => (Some EEXIST, w')
          | None => if is_dir (files w) (parent dst) then (None, set_files (graft (files w) s dst) w') else (Some ENOENT, w')
          end
      end
  end.

Definition EDEADLK_BACKOFFS_MS : list Z := [50; 100; 200; 400; 800].
Definition has_nul (p : Path) : bool :=
  existsb (fun c => match c with Normal n => bool_decide (Byte.x00 ∈ String.list_byte_of_string n) | _ => false end) p.
Definition errno_error (src dst : Path) (attempt : Z) (e : Errno) : SandboxError :=
  match e with
  | EXDEV | ENOTSUP => CloneUnsupported src dst
  | EEXIST => DestinationExists dst
  | ENOENT => SourceMissing src
  | EDEADLK => CloneRetriesExhausted src dst (attempt + 1)
  | EOther => SandboxIo src "io error"
  end.
Fixpoint retry_loop (backoffs : list Z) (attempt : Z) (src dst : Path) (w : World) : result unit SandboxError * World :=
  match clonefile src dst w with
  | (None, w) => (Ok tt, w)
  | (Some EDEADLK, w) =>
      match backoffs with
      | ms :: backoffs => retry_loop backoffs (attempt + 1) src dst (sleep ms w)
      | [] => (Err (errno_error src dst attempt EDEADLK), w)
      end
  | (Some e, w) => (Err (errno_error src dst attempt e), w)
  end.
Definition clonefile_with_retry (src dst : Path) : M unit := fun w =>
  if has_nul src then (Err (SourceMissing src), w)
  else if has_nul dst then (Err (DestinationExists dst), w)
  else retry_loop EDEADLK_BACKOFFS_MS 0 src dst w.

(** ** Statistics and whole trees *)

(** Without the time taken. *)
Record CloneStats := mkStats { bytes_apparent : Z; file_count : Z }.
Definition sat_add (a b : Z) : Z := Z.min (2 ^ 64 - 1) (a + b).
(** A stack of paths, its top first. *)
Fixpoint stats_loop (fuel : nat) (stack : list Path) (st : CloneStats) (w : World) : CloneStats * World :=
  match fuel, stack with
  | S fuel, p :: stack =>
      match files w !! p with
      | Some CDir =>
          match read_dir p w with
          | (None, w) => stats_loop fuel stack st w
          | (Some ns, w) => stats_loop fuel (reverse (map (child p) ns) ++ stack) st w
          end
      | Some (CFile b) => stats_loop fuel stack (mkStats (sat_add (bytes_apparent st) (zlen b)) (file_count st + 1)) w
      | _ => stats_loop fuel stack st w
      end
  | _, _ => (st, w)
  end.
Definition walk_stats (root : Path) : M CloneStats := fun w =>
  let '(st, w) := stats_loop (S (size (files w))) [root] (mkStats 0 0) w in (Ok st, w).

Definition clone_tree (src dst : Path) : M CloneStats := fun w =>
  if negb (exists_ (files w) src) then (Err (SourceMissing src), w)
  else if exists_ (files w) dst then (Err (DestinationExists dst), w)
  else (match dst with [] | [RootDir] => ret tt | _ => create_dir_all (parent dst) end ;;;
        clonefile_with_retry src dst ;;; walk_stats dst) w.

(** ** The walk, file by file *)

(** The loop: the queue of pairs of paths, and the clock, which is asked once
    for each of them. *)
Fixpoint walk (clock : list bool) (q : list (Path * Path)) (st : CloneStats) (w : World) : result CloneStats SandboxError * World :=
  match q with
  | [] => (Ok st, set_clock clock w)
  | (s, d) :: q =>
      match clock with
      | [] => (Ok st, set_clock [] w)
      | true :: clock => (Ok st, set_clock clock w)
      | false :: clock =>
          match files w !! s with
          | None => walk clock q st w
          | Some CDir =>
              match (if exists_ (files w) d then ret tt else create_dir_all d) w with
              | (Err e, w) => (Err e, set_clock clock w)
              | (Ok _, w) =>
                  match read_dir s w with
                  | (None, w) => walk clock q st w
                  | (Some ns, w) => walk clock (q ++ map (fun n => (child s n, child d n)) ns) st w
                  end
              end
          | Some (CFile b) =>
              match clonefile_with_retry s d w with
              | (Err _, w) => walk clock q st w
              | (Ok _, w) => walk clock q (mkStats (sat_add (bytes_apparent st) (zlen b)) (file_count st + 1)) w
              end
          | Some (CLink t) =>
              let '(f, w) := faulty w in
              let link := match files w !! d with None => is_dir (files w) (parent d) && negb f | Some _ => false end in
              walk clock q st (if link then set_files (<[d := CLink t]> (files w)) w else w)
          end
      end
  end.
Definition per_file_clone_walk (src dst : Path) : M CloneStats := fun w =>
  if exists_ (files w) dst then (Err (DestinationExists dst), w)
  else (create_dir_all dst ;;; fun w => walk (clock w) [(src, dst)] (mkStats 0 0) w) w.

(** ** The copy programs *)

Definition run_program (name : string) (prog : Files -> Path -> Path -> result (bool * Files) string) (src dst : Path) : M bool :=
  fun w => match prog (files w) src dst with
           | Err e => (Err (SandboxIo src e), running name w)
           | Ok (ok, m) => (Ok ok, running name (set_files m w))
           end.
Definition usize_max : Z := 2 ^ 64 - 1.
Definition cp_c_r_fallback (src dst : Path) : M CloneStats := fun w =>
  if exists_ (files w) dst then (Err (DestinationExists dst), w)
  else
    let up := default true (head (clock w)) in
    let w := set_clock (tail (clock w)) w in
    if up then (Err (CloneRetriesExhausted src dst usize_max), w)
    else (ok <- run_program "/bin/cp" cp_cr src dst ;;
          (if ok then ret tt
           else ok <- run_program "/usr/bin/ditto" ditto src dst ;;
                if (ok : bool) then ret tt else fail (SandboxIo dst "cp -cR and ditto failed")) ;;;
          walk_stats dst) w.

Definition clone_tree_with_fallback (src dst : Path) : M CloneStats := fun w =>
  match clone_tree src dst w with
  | (Ok s, w) => (Ok s, w)
  | (Err (DestinationExists _), w) => (Err (DestinationExists dst), w)
  | (Err (SourceMissing _), w) => (Err (SourceMissing src), w)
  | (Err _, w) =>
      match per_file_clone_walk src dst w with
      | (Ok s, w) => (Ok s, w)
      | (Err _, w) => cp_c_r_fallback src dst w
      end
  end.

Fixpoint clone_dirs_loop (allowlist : list InheritSpec) (dest_root : Path) (out : list (InheritSpec * CloneStats)) (w : World)
    : list (InheritSpec * CloneStats) * World :=
  match allowlist with
  | [] => (out, w)
  | spec :: allowlist =>
      let src := host_path spec in
      if negb (exists_ (files w) src) then clone_dirs_loop allowlist dest_root out w
      else match file_name src with
           | None => clone_dirs_loop allowlist dest_root out w
           | Some leaf =>
               match clone_tree_with_fallback src (child dest_root leaf) w with
               | (Ok s, w) => clone_dirs_loop allowlist dest_root (out ++ [(spec, s)]) w
               | (Err _, w) => clone_dirs_loop allowlist dest_root out w
               end
           end
  end.
Definition clone_user_dirs (allowlist : list InheritSpec) (dest_root : Path) : M (list (InheritSpec * CloneStats)) :=
  create_dir_all dest_root ;;; fun w => let '(out, w) := clone_dirs_loop allowlist dest_root [] w in (Ok out, w).

(** ** The browser profile *)

Definition clone_chrome_profile_via (host_profile dest_udd : Path) (clone_fn : Path -> Path -> M CloneStats) : M CloneStats :=
  let dest := child dest_udd "Default" in
  create_dir_all dest_udd ;;; fun w =>
  match clone_fn host_profile dest w with
  | (Ok stats, w) => (Ok stats, w)
  | (Err ((CloneUnsupported _ _ | CloneRetriesExhausted _ _ _) as e), w) =>
      match cp_c_r_fallback host_profile dest w with
      | (Ok stats, w) => (Ok stats, w)
      | (Err _, w) => (Err e, w)
      end
  | (Err e, w) => (Err e, w)
  end.
Definition clone_chrome_profile (host_profile dest_udd : Path) : M CloneStats :=
  clone_chrome_profile_via host_profile dest_udd clone_tree.

(** [push_unique_profile_name] *)
Definition push_unique_profile_name (out : list string) (name : string) : list string :=
  let trimmed := Input.trim name in
  if bool_decide (trimmed = "") || bool_decide (trimmed ∈ out) then out else out ++ [trimmed].

Section Profile.
Context {V E : Type} `{JsonView V, JsonCodec V E}.

Definition read_file (p : Path) (w : World) : option (list byte) * World :=
  let '(f, w) := faulty w in
  (match stat (files w) p with Some (CFile b) => if f then None else Some b | _ => None end, w).
Definition entry_names (profile : V) (key : string) : list string :=
  match vget key profile ≫= as_array with Some entries => omap as_str entries | None => [] end.
Definition profile_names (value : V) : list string :=
  match vget "profile" value with
  | None => []
  | Some profile =>
      foldl push_unique_profile_name []
        (match vget_str "last_used" profile with Some n => [n] | None => [] end ++
         entry_names profile "last_active_profiles" ++ entry_names profile "profiles_order")
  end.
Definition preferred_profile_names_from_local_state (chrome_root : Path) (w : World) : list string * World :=
  match read_file (child chrome_root "Local State") w with
  | (None, w) => ([], w)
  | (Some bytes, w) => (match from_slice bytes with Ok value => profile_names value | Err _ => [] end, w)
  end.

(** The order of file names, by their bytes. *)
Fixpoint bytes_le (a b : list byte) : bool :=
  match a, b with
  | [], _ => true
  | _ :: _, [] => false
  | x :: a, y :: b => if byte_val x <? byte_val y then true else if byte_val y <? byte_val x then false else bytes_le a b
  end.
Definition name_le (a b : string) : bool := bytes_le (String.list_byte_of_string a) (String.list_byte_of_string b).
Definition least_name (l : list string) : option string :=
  foldl (fun best n => match best with Some b => if name_le b n then Some b else Some n | None => Some n end) None l.
Definition is_profile_name (n : string) : bool := bool_decide (n = "Default") || String.prefix "Profile " n.
(** [chrome_root.join(name)]: an absolute name replaces the root. *)
Definition default_chrome_profile_path_from (chrome_root : Path) (w : World) : option Path * World :=
  let '(preferred, w) := preferred_profile_names_from_local_state chrome_root w in
  match List.find (is_dir (files w)) (map (fun n => join chrome_root (path_of_string n)) preferred) with
  | Some p => (Some p, w)
  | None =>
      if is_dir (files w) (child chrome_root "Default") then (Some (child chrome_root "Default"), w)
      else match read_dir chrome_root w with
           | (None, w) => (None, w)
           | (Some ns, w) =>
               (option_map (child chrome_root)
                  (least_name (List.filter (fun n => is_dir (files w) (child chrome_root n) && is_profile_name n) ns)), w)
           end
  end.
Definition chrome_user_data_root `{Os} : option Path :=
  option_map (fun home => join home [Normal "Library"; Normal "Application Support"; Normal "Google"; Normal "Chrome"]) home_dir.
Definition default_chrome_profile_path `{Os} (w : World) : option Path * World :=
  match chrome_user_data_root with Some root => default_chrome_profile_path_from root w | None => (None, w) end.
End Profile.

(** ** FileVault *)

Inductive FileVaultState : Type := Off | OnUnlocked | OnLocked | Unknown.
(** The text [fdesetup] prints, and whether the home directory can be listed. *)
Definition detect_filevault_via (status : option string) (home_readable : bool) : FileVaultState :=
  match status with
  | None => Unknown
  | Some s =>
      let t := Input.trim s in
      if String.prefix "FileVault is Off" t then Off
      else if String.prefix "FileVault is On" t then (if home_readable then OnUnlocked else OnLocked)
      else Unknown
  end.

(** ** Snapshots, [snapshot.rs] *)

Record SnapshotMeta := mkMeta {
  sm_name : string; source_session_id : string; created_at_unix_ms : Z; sm_bytes_apparent : Z; sm_file_count : Z
}.
(** The JSON text of a snapshot's description. *)
Class MetaSerde := {
  meta_to_vec_pretty : SnapshotMeta -> result (list byte) string;
  meta_from_slice : list byte -> result SnapshotMeta string
}.
Definition snapshot_root `{Os} (name : string) : result Path SandboxError :=
  match home_dir with
  | None => Err HomeDirUnresolvable
  | Some home => Ok (join (join home [Normal ".one-for-all"; Normal "snapshots"]) (path_of_string name))
  end.
Definition write_file (p : Path) (b : list byte) : M unit := fun w =>
  let '(f, w) := faulty w in
  if f || negb (is_dir (files w) (parent p)) || match files w !! p with Some CDir => true | _ => false end then (Err (SandboxIo p "io error"), w)
  else (Ok tt, set_files (<[p := CFile b]> (files w)) w).
(** [std::fs::copy] *)
Definition copy_file (src dst : Path) : M unit := fun w =>
  match read_file src w with
  | (None, w) => (Err (SandboxIo dst "io error"), w)
  | (Some b, w) => match write_file dst b w with (Ok _, w) => (Ok tt, w) | (Err _, w) => (Err (SandboxIo dst "io error"), w) end
  end.
Definition take_snapshot `{MetaSerde} (session_rootfs snapshot_dir : Path) (meta : SnapshotMeta) : M SnapshotMeta := fun w =>
  if exists_ (files w) snapshot_dir then (Err (DestinationExists snapshot_dir), w)
  else (create_dir_all snapshot_dir ;;;
        stats <- clone_tree session_rootfs (child snapshot_dir "rootfs") ;;
        (let meta := mkMeta (sm_name meta) (source_session_id meta) (created_at_unix_ms meta) (bytes_apparent stats) (file_count stats) in
         (fun w => (if exists_ (files w) (child session_rootfs "sandbox.sb")
                    then copy_file (child session_rootfs "sandbox.sb") (child snapshot_dir "sandbox.sb.copy") else ret tt) w) ;;;
         match meta_to_vec_pretty meta with
         | Err e => fail (SandboxIo (child snapshot_dir "meta.json") e)
         | Ok json => write_file (child snapshot_dir "meta.json") json ;;; ret meta
         end)) w.
Definition restore_snapshot (snapshot_dir target_session_rootfs : Path) : M unit := fun w =>
  if negb (exists_ (files w) snapshot_dir) then (Err (SourceMissing snapshot_dir), w)
  else if exists_ (files w) target_session_rootfs then (Err (DestinationExists target_session_rootfs), w)
  else let src_rootfs := child snapshot_dir "rootfs" in
       if negb (exists_ (files w) src_rootfs) then (Err (SourceMissing src_rootfs), w)
       else (clone_tree src_rootfs target_session_rootfs ;;; ret tt) w.
Definition read_snapshot_meta `{MetaSerde} (snapshot_dir : Path) : M (option SnapshotMeta) := fun w =>
  let p := child snapshot_dir "meta.json" in
  if negb (exists_ (files w) p) then (Ok None, w)
  else match read_file p w with
       | (None, w) => (Err (SandboxIo p "io error"), w)
       | (Some bytes, w) => (match meta_from_slice bytes with Ok meta => Ok (Some meta) | Err e => Err (SandboxIo p e) end, w)
       end.
End Calls.
End Clone.
