(* ===== verification/CloneSpec.v ===== *)
(** * CloneSpec: what cloning leaves

    The theorems about [Clone]: nothing outside the destination changes; the
    copy is complete, whichever way it was made; a snapshot restores the
    session it was taken of; and where the fallbacks fall short. *)
From S2P Require Import Prelude Json Text Input Sandbox Clone.
From stdpp Require Import list_numbers.
Import Text.

Module CloneSpec.
Import Clone.

(** ** Paths *)

(** Neither path is inside the other. *)
Definition apart (a b : Path) : Prop := ~ a `prefix_of` b /\ ~ b `prefix_of` a.
Lemma apart_sym a b : apart a b -> apart b a.
Proof. unfold apart. tauto. Qed.
Lemma apart_app a b x y : apart a b -> a ++ x <> b ++ y.
Proof.
  intros [H1 H2] E. destruct (prefix_weak_total a b (a ++ x)); [apply prefix_app_r; done|rewrite E; by apply prefix_app_r|tauto|tauto].
Qed.
Lemma prefix_dec_app (d k : Path) : {exists r, k = d ++ r} + {~ d `prefix_of` k}.
Proof. destruct (decide (d `prefix_of` k)) as [H|H]; [left|right]; [exact H|exact H]. Defined.

Lemma strip_prefix_app (d r : Path) : strip_prefix (d ++ r) d = Some r.
Proof. by apply strip_prefix_Some. Qed.
Lemma strip_prefix_None (k d : Path) : ~ d `prefix_of` k -> strip_prefix k d = None.
Proof. intros H. unfold strip_prefix, starts_with. by rewrite bool_decide_eq_false_2. Qed.

(** ** Copying entries *)

Lemma elem_of_entries m s d k n : (k, n) ∈ entries m s d <-> exists r, k = d ++ r /\ m !! (s ++ r) = Some n.
Proof.
  unfold entries. rewrite list_elem_of_omap. split.
  - intros ([p x] & Hp%elem_of_map_to_list & E). cbn in E. destruct (strip_prefix p s) as [r|] eqn:Es; [|done].
    apply strip_prefix_Some in Es as ->. injection E as <- <-. eauto.
  - intros (r & -> & Hr). exists (s ++ r, n). split; [by apply elem_of_map_to_list|]. cbn. by rewrite strip_prefix_app.
Qed.
Lemma entries_fun m s d k n n' : (k, n) ∈ entries m s d -> (k, n') ∈ entries m s d -> n = n'.
Proof.
  rewrite !elem_of_entries. intros (r & -> & Hr) (r' & E & Hr'). apply app_inv_head in E as <-. congruence.
Qed.
Lemma graft_lookup m s d k :
  graft m s d !! k = match strip_prefix k d with Some r => match m !! (s ++ r) with Some n => Some n | None => m !! k end | None => m !! k end.
Proof.
  unfold graft. rewrite lookup_union.
  destruct (strip_prefix k d) as [r|] eqn:Es; [apply strip_prefix_Some in Es as ->; destruct (m !! (s ++ r)) as [n|] eqn:En|].
  - assert (copies m s d !! (d ++ r) = Some n) as ->; [|by destruct (m !! (d ++ r))].
    apply elem_of_list_to_map_1'; [|apply elem_of_entries; eauto].
    intros n' Hn'. eapply entries_fun; [|exact Hn']. apply elem_of_entries; eauto.
  - assert (copies m s d !! (d ++ r) = None) as ->; [|by destruct (m !! (d ++ r))].
    apply not_elem_of_list_to_map_1. intros ([k n] & E & Hk)%list_elem_of_fmap. cbn in E. subst k.
    apply elem_of_entries in Hk as (r' & E & Hr'). apply app_inv_head in E as <-. congruence.
  - assert (copies m s d !! k = None) as ->; [|by destruct (m !! k)].
    apply not_elem_of_list_to_map_1. intros ([k' n] & E & Hk)%list_elem_of_fmap. cbn in E. subst k'.
    apply elem_of_entries in Hk as (r' & -> & _). by rewrite strip_prefix_app in Es.
Qed.

(** ** What may change

    Outside [D] nothing changes, but for directories above it that are made. *)
Definition outside_kept (D : Path) (m m' : Files) : Prop :=
  forall k, ~ D `prefix_of` k -> m' !! k = m !! k \/ (m !! k = None /\ m' !! k = Some CDir /\ k `prefix_of` D).
#[export] Instance outside_kept_preorder D : PreOrder (outside_kept D).
Proof.
  split; [intros m k _; by left|]. intros m1 m2 m3 H1 H2 k Hk.
  destruct (H1 k Hk) as [E1|(N1 & E1 & P1)], (H2 k Hk) as [E2|(N2 & E2 & P2)]; try (left; congruence); right; split; congruence || (split; congruence || done).
Qed.
Lemma outside_insert D m k n : D `prefix_of` k -> outside_kept D m (<[k := n]> m).
Proof. intros P q Hq. left. rewrite lookup_insert_ne; [done|]. by intros ->. Qed.
Lemma outside_graft D m s d : D `prefix_of` d -> outside_kept D m (graft m s d).
Proof.
  intros P q Hq. left. rewrite graft_lookup, strip_prefix_None; [done|]. intros Hd. apply Hq. by etrans.
Qed.

Lemma outside_weaken D d m m' : D `prefix_of` d -> outside_kept d m m' -> outside_kept D m m'.
Proof.
  intros P H k Hk. destruct (H k) as [?|(? & ? & Pk)]; [intros Hd; apply Hk; by etrans|by left|].
  right. split; [done|]. split; [done|]. by destruct (prefix_weak_total _ _ _ Pk P).
Qed.

(** The copy programs work on their destination only. *)
Class HostLaws `{Host} := {
  cp_confined m s d b m' : cp_cr m s d = Ok (b, m') -> outside_kept d m m';
  ditto_confined m s d b m' : ditto m s d = Ok (b, m') -> outside_kept d m m'
}.

Definition stays {A} (D : Path) (c : M A) : Prop := forall w, outside_kept D (files w) (files (snd (c w))).
Lemma stays_ret {A} D (a : A) : stays D (ret a).
Proof. intros w. reflexivity. Qed.
Lemma stays_fail {A} D e : stays (A := A) D (fail e).
Proof. intros w. reflexivity. Qed.
Lemma stays_bind {A B} D (c : M A) (k : A -> M B) : stays D c -> (forall a, stays D (k a)) -> stays D (bind c k).
Proof.
  intros Hc Hk w. unfold bind. specialize (Hc w). destruct (c w) as [[a|e] w1]; [|done]. etrans; [exact Hc|]. apply Hk.
Qed.
Lemma stays_conv {A} D (c c' : M A) : (forall w, c w = c' w) -> stays D c -> stays D c'.
Proof. intros E H w. rewrite <- E. apply H. Qed.
Create HintDb clone discriminated.
#[export] Hint Resolve stays_ret stays_fail stays_bind outside_insert outside_graft : clone.

Section Confined.
Context {Hst : Host} {Hl : HostLaws}.

Lemma stat_None m k : m !! k = None -> stat m k = None.
Proof. intros E. unfold stat. cbn. by rewrite E. Qed.
Lemma stat_plain m k n : m !! k = Some n -> (forall t, n <> CLink t) -> stat m k = Some n.
Proof. intros E Hn. unfold stat. cbn. rewrite E. destruct n; cbn; try done. by destruct (Hn target). Qed.

Lemma mkdirs_kept D ps : Forall (fun p => p `prefix_of` D \/ D `prefix_of` p) ps ->
  forall m m', mkdirs m ps = Some m' -> outside_kept D m m'.
Proof.
  induction 1 as [|p ps Hp _ IH]; intros m m'; cbn; [intros [= <-]; reflexivity|].
  unfold mkdir_one. destruct (stat m p) as [[]|] eqn:Es; cbn; [done|apply IH|done|].
  destruct (m !! p) eqn:Ep; cbn; [done|]. intros Hm%IH. etrans; [|exact Hm].
  intros k Hk. destruct (decide (k = p)) as [->|N]; [|left; by rewrite lookup_insert_ne].
  right. split; [done|]. split; [by rewrite lookup_insert_eq|]. by destruct Hp.
Qed.
Lemma ancestors_comparable D p : p `prefix_of` D \/ D `prefix_of` p -> Forall (fun q => q `prefix_of` D \/ D `prefix_of` q) (ancestors p).
Proof.
  intros H. apply Forall_forall. intros q (n & -> & _)%list_elem_of_fmap.
  assert (take n p `prefix_of` p) as Hq by (exists (drop n p); by rewrite take_drop).
  destruct H as [H|H]; [left; by etrans|]. eapply prefix_weak_total; eassumption.
Qed.
Lemma stays_create_dir_all D p : p `prefix_of` D \/ D `prefix_of` p -> stays D (create_dir_all p).
Proof.
  intros H w. unfold create_dir_all, faulty. destruct (default false _); cbn; [reflexivity|].
  destruct (mkdirs (files w) (ancestors p)) as [m|] eqn:E; cbn; [|reflexivity].
  eapply mkdirs_kept; [|exact E]. by apply ancestors_comparable.
Qed.
Lemma clonefile_kept D s d w : D `prefix_of` d -> outside_kept D (files w) (files (snd (clonefile s d w))).
Proof. intros H. unfold clonefile. repeat case_match; cbn [snd files set_files]; try reflexivity; by apply outside_graft. Qed.
Lemma stays_retry_loop D backoffs attempt s d : D `prefix_of` d -> stays D (retry_loop backoffs attempt s d).
Proof.
  intros H. revert attempt. induction backoffs as [|ms backoffs IH]; intros attempt w; cbn [retry_loop];
    pose proof (clonefile_kept D s d w H) as Hc; destruct (clonefile s d w) as [[[]|] w1]; try exact Hc.
  etrans; [exact Hc|]. apply (IH _ (sleep ms w1)).
Qed.
Lemma stays_clonefile_with_retry D s d : D `prefix_of` d -> stays D (clonefile_with_retry s d).
Proof. intros H w. unfold clonefile_with_retry. do 2 (case_match; [reflexivity|]). by apply stays_retry_loop. Qed.

Lemma stats_loop_files fuel : forall stack st w, files (snd (stats_loop fuel stack st w)) = files w.
Proof.
  induction fuel as [|fuel IH]; intros [|p stack] st w; cbn; try done.
  destruct (files w !! p) as [[]|]; try apply IH. unfold read_dir, faulty. cbn. case_match; by rewrite IH.
Qed.
Lemma stays_walk_stats D root : stays D (walk_stats root).
Proof.
  intros w. unfold walk_stats. pose proof (stats_loop_files (S (size (files w))) [root] (mkStats 0 0) w) as E.
  destruct (stats_loop _ _ _ _) as [st w']. cbn in *. rewrite E. reflexivity.
Qed.
Lemma stays_clone_tree D s d : D `prefix_of` d -> stays D (clone_tree s d).
Proof.
  intros H w. unfold clone_tree. do 2 (case_match; [reflexivity|]). apply stays_bind.
  - assert (parent d `prefix_of` D \/ D `prefix_of` parent d) as Hp.
    { apply (prefix_weak_total _ _ d); [|done]. unfold parent. destruct (decide (d = [])) as [->|N]; [done|].
      rewrite (app_removelast_last RootDir N) at 2. by apply prefix_app_r. }
    pose proof (stays_create_dir_all D (parent d) Hp). destruct d as [|[] [|]]; auto using stays_ret.
  - intros _. apply stays_bind; [by apply stays_clonefile_with_retry|]. intros _. apply stays_walk_stats.
Qed.
Lemma stays_walk D c : forall q st, Forall (fun sd => D `prefix_of` sd.2) q -> stays D (walk c q st).
Proof.
  induction c as [|b c IH]; intros [|[s d] q] st Hq w; cbn [walk]; try reflexivity.
  apply Forall_cons in Hq as [Hd Hq]. cbn in Hd. destruct b; [reflexivity|].
  destruct (files w !! s) as [[b| |t]|]; [| | |by apply IH].
  - pose proof (stays_clonefile_with_retry D s d Hd w) as Hc. destruct (clonefile_with_retry s d w) as [[[]|e] w1];
      (etrans; [exact Hc|by apply IH]).
  - assert (stays D (if exists_ (files w) d then ret tt else create_dir_all d)) as Hm.
    { case_match; [apply stays_ret|]. apply stays_create_dir_all. by right. }
    specialize (Hm w). set (c0 := (if exists_ (files w) d then ret tt else create_dir_all d) w) in *.
    destruct c0 as [[[]|e] w1]; [|exact Hm].
    etrans; [exact Hm|]. unfold read_dir, faulty. case_match; [|exact (IH q st Hq (snd (faulty w1)))].
    refine (IH (q ++ _) st _ (snd (faulty w1))). apply Forall_app. split; [done|]. apply Forall_forall. intros ? (n & -> & _)%list_elem_of_fmap.
    cbn. by apply prefix_app_r.
  - unfold faulty. case_match; [|exact (IH q st Hq (snd (faulty w)))]. etrans; [|by apply IH]. by apply outside_insert.
Qed.
Lemma stays_run_program D name prog s d :
  (forall m b m', prog m s d = Ok (b, m') -> outside_kept D m m') -> stays D (run_program name prog s d).
Proof. intros H w. unfold run_program. destruct (prog (files w) s d) as [[b m]|e] eqn:E; [by eapply H|reflexivity]. Qed.
Lemma stays_cp D s d : D `prefix_of` d -> stays D (cp_c_r_fallback s d).
Proof.
  intros H w. unfold cp_c_r_fallback. case_match; [reflexivity|]. case_match; [reflexivity|].
  refine (stays_bind D _ _ _ _ (set_clock (tail (clock w)) w)).
  - apply stays_run_program. intros m b m' E. eapply outside_weaken, cp_confined, E; done.
  - intros ok. apply stays_bind; [|intros _; apply stays_walk_stats]. destruct ok; [apply stays_ret|].
    apply stays_bind; [|intros []; auto using stays_ret, stays_fail].
    apply stays_run_program. intros m b m' E. eapply outside_weaken, ditto_confined, E; done.
Qed.
Lemma stays_clone_tree_with_fallback D s d : D `prefix_of` d -> stays D (clone_tree_with_fallback s d).
Proof.
  intros H w. unfold clone_tree_with_fallback. pose proof (stays_clone_tree D s d H w) as Hc.
  assert (stays D (fun w => match per_file_clone_walk s d w with (Ok st, w) => (Ok st, w) | (Err _, w) => cp_c_r_fallback s d w end)) as Hf.
  { intros w1. assert (stays D (per_file_clone_walk s d)) as Hp.
    { intros w2. unfold per_file_clone_walk. case_match; [reflexivity|]. apply stays_bind; [apply stays_create_dir_all; by right|].
      intros _ w3. apply stays_walk. by repeat constructor. }
    specialize (Hp w1). destruct (per_file_clone_walk s d w1) as [[st|e] w2]; [exact Hp|]. etrans; [exact Hp|]. by apply stays_cp. }
  destruct (clone_tree s d w) as [[st|[]] w1]; try exact Hc; (etrans; [exact Hc|exact (Hf w1)]).
Qed.
Lemma clone_dirs_kept l D : forall out w, outside_kept D (files w) (files (snd (clone_dirs_loop l D out w))).
Proof.
  induction l as [|spec l IH]; intros out w; cbn [clone_dirs_loop]; [reflexivity|]. case_match; [apply IH|].
  destruct (file_name (host_path spec)) as [leaf|]; [|apply IH].
  pose proof (stays_clone_tree_with_fallback D (host_path spec) (child D leaf) (prefix_app_r _ _ _ (reflexivity _)) w) as Hc.
  destruct (clone_tree_with_fallback _ _ w) as [[st|e] w1]; (etrans; [exact Hc|apply IH]).
Qed.
Lemma stays_write_file D p b : D `prefix_of` p -> stays D (write_file p b).
Proof. intros H w. unfold write_file, faulty. case_match; [reflexivity|]. by apply outside_insert. Qed.
Lemma stays_copy_file D s d : D `prefix_of` d -> stays D (copy_file s d).
Proof.
  intros H w. unfold copy_file, read_file, faulty. case_match; [|reflexivity].
  match goal with |- context [write_file d ?b ?w'] => pose proof (stays_write_file D d b H w') as Hc; destruct (write_file d b w') as [[[]|e] w1] end;
    exact Hc.
Qed.

(** C37: The files a session is made of are only read: whatever fails on the way,
    cloning the inherited directories and the browser profile into a session,
    taking a snapshot and restoring it change nothing outside their
    destination, except for directories above it that did not exist. *)
Theorem cloning_confined `{MetaSerde} w :
  (forall allowlist root, outside_kept root (files w) (files (snd (clone_user_dirs allowlist root w)))) /\
  (forall profile udd, outside_kept udd (files w) (files (snd (clone_chrome_profile profile udd w)))) /\
  (forall rootfs dir meta, outside_kept dir (files w) (files (snd (take_snapshot rootfs dir meta w)))) /\
  (forall dir target, outside_kept target (files w) (files (snd (restore_snapshot dir target w)))).
Proof.
  split; [|split; [|split]].
  - intros l D. apply stays_bind; [apply stays_create_dir_all; by left|]. intros _ w1.
    pose proof (clone_dirs_kept l D [] w1) as Hc. destruct (clone_dirs_loop _ _ _ _). exact Hc.
  - intros p D. assert (D `prefix_of` child D "Default") as HD by by apply prefix_app_r.
    apply stays_bind; [apply stays_create_dir_all; by left|]. intros _ w1.
    pose proof (stays_clone_tree D p (child D "Default") HD w1) as Hc.
    destruct (clone_tree p (child D "Default") w1) as [[st|[]] w2]; try exact Hc; (etrans; [exact Hc|]);
      pose proof (stays_cp D p (child D "Default") HD w2) as Hd;
      destruct (cp_c_r_fallback p (child D "Default") w2) as [[st'|e'] w3]; exact Hd.
  - intros s D meta. unfold take_snapshot. case_match; [reflexivity|].
    apply stays_bind; [apply stays_create_dir_all; by left|]. intros _.
    apply stays_bind; [apply stays_clone_tree; by apply prefix_app_r|]. intros st. cbn zeta.
    apply stays_bind; [intros w1; case_match; [apply stays_copy_file; by apply prefix_app_r|reflexivity]|]. intros _.
    case_match; [|apply stays_fail]. apply stays_bind; [apply stays_write_file; by apply prefix_app_r|]. intros _. apply stays_ret.
  - intros D t. unfold restore_snapshot. do 3 (case_match; [reflexivity|]).
    apply stays_bind; [by apply stays_clone_tree|]. intros _. apply stays_ret.
Qed.
End Confined.

(** ** Trees *)

(** Every file but the root of a tree lies in a directory, under a plain name. *)
Record tree_ok (m : Files) : Prop := {
  ok_parent p c : p <> [] -> is_Some (m !! (p ++ [c])) -> m !! p = Some CDir /\ exists n, c = Normal n;
  ok_plain p : is_Some (m !! p) -> has_nul p = false
}.
Lemma tree_ancestor m p t : tree_ok m -> p <> [] -> t <> [] -> is_Some (m !! (p ++ t)) -> m !! p = Some CDir.
Proof.
  intros T Hp. induction t as [|c t IH] using rev_ind; [done|]. intros _ Hs. rewrite app_assoc in Hs.
  destruct (ok_parent m T (p ++ t) c) as [Hd _]; [by destruct p|done|].
  destruct (decide (t = [])) as [->|Ht]; [by rewrite app_nil_r in Hd|]. apply IH; [done|by eexists].
Qed.
Lemma tree_child m p c t : tree_ok m -> p <> [] -> is_Some (m !! (p ++ c :: t)) -> is_Some (m !! (p ++ [c])) /\ exists n, c = Normal n.
Proof.
  intros T Hp Hs. change (c :: t) with ([c] ++ t) in Hs. rewrite app_assoc in Hs.
  assert (is_Some (m !! (p ++ [c]))) as Hc.
  { destruct (decide (t = [])) as [->|Ht]; [by rewrite app_nil_r in Hs|].
    rewrite (tree_ancestor m (p ++ [c]) t); [by eexists|done|by destruct p|done|done]. }
  split; [done|]. by apply (ok_parent m T p c Hp).
Qed.
Lemma tree_below m p t : tree_ok m -> p <> [] -> m !! p <> Some CDir -> t <> [] -> m !! (p ++ t) = None.
Proof. intros T Hp Hd Ht. apply eq_None_not_Some. intros Hs. apply Hd. by eapply tree_ancestor. Qed.

(** The files under a path, the path included. *)
Definition sub (m : Files) (p : Path) : list (Path * cnode) := filter (fun e => p `prefix_of` e.1) (map_to_list m).
Lemma elem_of_sub m p k n : (k, n) ∈ sub m p <-> m !! k = Some n /\ exists t, k = p ++ t.
Proof. unfold sub. rewrite list_elem_of_filter, elem_of_map_to_list. cbn. unfold prefix. tauto. Qed.
Lemma NoDup_sub m p : NoDup (sub m p).
Proof. apply NoDup_filter, NoDup_map_to_list. Qed.
Lemma elem_of_names m p n : n ∈ names m p <-> is_Some (m !! child p n).
Proof.
  unfold names, name_in. rewrite list_elem_of_omap. split.
  - intros ([k x] & Hk%elem_of_map_to_list & E). cbn in E. destruct (strip_prefix k p) as [[|[| | |n'] [|]]|] eqn:Es; try done.
    injection E as ->. apply strip_prefix_Some in Es as ->. by eexists.
  - intros [x Hx]. exists (child p n, x). split; [by apply elem_of_map_to_list|]. cbn. unfold child. by rewrite strip_prefix_app.
Qed.
Lemma name_in_Some p k n : name_in p k = Some n <-> k = child p n.
Proof.
  unfold name_in, child. split; [|intros ->; by rewrite strip_prefix_app].
  destruct (strip_prefix k p) as [[|[| | |n'] [|]]|] eqn:Es; try done. intros [= ->]. by apply strip_prefix_Some in Es.
Qed.
Lemma NoDup_omap_inj {A B} (f : A -> option B) l :
  (forall x y z, x ∈ l -> y ∈ l -> f x = Some z -> f y = Some z -> x = y) -> NoDup l -> NoDup (omap f l).
Proof.
  intros Hf. induction 1 as [|x l Hx _ IH]; [constructor|]. cbn.
  assert (NoDup (omap f l)) as Hl by (apply IH; intros; eapply Hf; try eassumption; set_solver).
  destruct (f x) as [z|] eqn:Ez; [|done]. constructor; [|done]. intros (y & Hy & Ey)%list_elem_of_omap.
  apply Hx. rewrite (Hf x y z); [done|set_solver|set_solver|done|done].
Qed.
Lemma NoDup_names m p : NoDup (names m p).
Proof.
  apply NoDup_omap_inj; [|apply NoDup_map_to_list].
  intros [k x] [k' x'] n Hk%elem_of_map_to_list Hk'%elem_of_map_to_list E E'. cbn in E, E'.
  apply name_in_Some in E, E'. subst. congruence.
Qed.

(** The files under a directory are the directory and those under its entries. *)
Lemma sub_dir m p : tree_ok m -> p <> [] -> m !! p = Some CDir -> sub m p ≡ₚ (p, CDir) :: (names m p ≫= fun n => sub m (child p n)).
Proof.
  intros T Hp Hd. apply NoDup_Permutation; [apply NoDup_sub| |].
  - constructor.
    + intros (n & Hk & Hn)%list_elem_of_bind. apply elem_of_sub in Hk as (_ & t & E). unfold child in E.
      apply (f_equal length) in E. rewrite !length_app in E. cbn in E. lia.
    + apply NoDup_bind; [|intros; apply NoDup_sub|apply NoDup_names].
      intros n n' [k x] _ _ (_ & t & ->)%elem_of_sub (_ & t' & E)%elem_of_sub.
      unfold child in E. rewrite <- !app_assoc in E. apply app_inv_head in E. cbn in E. congruence.
  - intros [k x]. rewrite elem_of_cons, elem_of_sub, list_elem_of_bind. split.
    + intros (Hk & [|c t] & ->); [left; rewrite app_nil_r in *; congruence|].
      right. destruct (tree_child m p c t T Hp) as [Hc [n ->]]; [by eexists|].
      exists n. split; [|by apply elem_of_names]. apply elem_of_sub. split; [done|]. exists t. unfold child. by rewrite <- app_assoc.
    + intros [[= -> ->]|(n & (Hk & t & ->)%elem_of_sub & Hn)]; [split; [done|]; exists []; by rewrite app_nil_r|].
      split; [done|]. exists (Normal n :: t). unfold child. by rewrite <- app_assoc.
Qed.
Lemma sub_leaf m p x : tree_ok m -> p <> [] -> m !! p = Some x -> x <> CDir -> sub m p ≡ₚ [(p, x)].
Proof.
  intros T Hp Hx Hd. apply NoDup_Permutation; [apply NoDup_sub|apply NoDup_singleton|].
  intros [k y]. rewrite elem_of_sub, list_elem_of_singleton. split.
  - intros (Hk & t & ->). destruct (decide (t = [])) as [->|Ht]; [rewrite app_nil_r in *; congruence|].
    rewrite (tree_below m p t T Hp) in Hk; [done|congruence|done].
  - intros [= -> ->]. split; [done|]. exists []. by rewrite app_nil_r.
Qed.

(** ** What a walk counts *)

Definition node_bytes (e : Path * cnode) : nat := match e.2 with CFile b => length b | _ => 0 end.
Definition node_files (e : Path * cnode) : nat := match e.2 with CFile _ => 1 | _ => 0 end.
(** The sum of a weight over the files under some paths. *)
Definition under (f : Path * cnode -> nat) (m : Files) (ps : list Path) : nat := sum_list_with (fun p => sum_list_with f (sub m p)) ps.
Definition nodes : Files -> list Path -> nat := under (fun _ => 1%nat).
Definition tree_stats (m : Files) (p : Path) : CloneStats :=
  mkStats (Z.min (2 ^ 64 - 1) (Z.of_nat (under node_bytes m [p]))) (Z.of_nat (under node_files m [p])).

Lemma under_app f m ps qs : under f m (ps ++ qs) = (under f m ps + under f m qs)%nat.
Proof. apply sum_list_with_app. Qed.
Lemma under_perm f m ps qs : ps ≡ₚ qs -> under f m ps = under f m qs.
Proof. intros H. unfold under. by rewrite H. Qed.
Lemma under_bind f (l : list string) (g : string -> list (Path * cnode)) :
  sum_list_with f (l ≫= g) = sum_list_with (fun n => sum_list_with f (g n)) l.
Proof. induction l as [|n l IH]; [done|]. cbn. by rewrite sum_list_with_app, IH. Qed.
Lemma under_map f m p (l : list string) : under f m (map (child p) l) = sum_list_with (fun n => sum_list_with f (sub m (child p n))) l.
Proof. unfold under. induction l as [|n l IH]; [done|]. cbn. by rewrite IH. Qed.
Lemma under_dir f m p ns ps : tree_ok m -> p <> [] -> m !! p = Some CDir -> ns ≡ₚ names m p ->
  under f m (p :: ps) = (f (p, CDir) + (under f m (map (child p) ns) + under f m ps))%nat.
Proof.
  intros T Hp Hd Hn. change (under f m (p :: ps)) with (sum_list_with f (sub m p) + under f m ps)%nat.
  rewrite (sub_dir m p T Hp Hd). cbn. rewrite under_bind, under_map. rewrite Hn. lia.
Qed.
Lemma under_leaf f m p x ps : tree_ok m -> p <> [] -> m !! p = Some x -> x <> CDir -> under f m (p :: ps) = (f (p, x) + under f m ps)%nat.
Proof.
  intros T Hp Hx Hd. change (under f m (p :: ps)) with (sum_list_with f (sub m p) + under f m ps)%nat.
  rewrite (sub_leaf m p x T Hp Hx Hd). cbn. lia.
Qed.
Lemma nodes_size m p : (nodes m [p] <= size m)%nat.
Proof.
  unfold nodes, under. cbn. rewrite Nat.add_0_r. assert (forall l : list (Path * cnode), sum_list_with (fun _ => 1%nat) l = length l) as ->
    by (induction l; cbn; congruence). unfold sub. etrans; [apply length_filter|]. by rewrite length_map_to_list.
Qed.

Definition counted (B C : nat) (st : CloneStats) : Prop := st = mkStats (Z.min (2 ^ 64 - 1) (Z.of_nat B)) (Z.of_nat C).
Lemma counted_file B C st (b : list byte) : counted B C st ->
  counted (B + length b) (C + 1) (mkStats (sat_add (bytes_apparent st) (zlen b)) (file_count st + 1)).
Proof. intros ->. unfold counted, sat_add, zlen. cbn [bytes_apparent file_count]. f_equal; lia. Qed.
Lemma faulty_nil w : faults w = [] -> faulty w = (false, w).
Proof. destruct w. cbn. intros ->. done. Qed.

Section Complete.
Context {Hst : Host}.

Lemma is_dir_dir m p : m !! p = Some CDir -> is_dir m p = true.
Proof. intros E. unfold is_dir. by rewrite (stat_plain m p CDir E). Qed.
Lemma read_dir_ok p w : faults w = [] -> files w !! p = Some CDir -> read_dir p w = (Some (dir_order p (names (files w) p)), w).
Proof. intros F E. unfold read_dir. rewrite (faulty_nil w F), (is_dir_dir _ _ E). done. Qed.

Lemma child_ne p n : child p n <> [].
Proof. unfold child. by destruct p. Qed.
Lemma stats_loop_exact fuel : forall w stack st B C,
  tree_ok (files w) -> faults w = [] -> Forall (fun p => p <> [] /\ is_Some (files w !! p)) stack ->
  (nodes (files w) stack <= fuel)%nat -> counted B C st ->
  exists st', stats_loop fuel stack st w = (st', w) /\ counted (B + under node_bytes (files w) stack) (C + under node_files (files w) stack) st'.
Proof.
  induction fuel as [|fuel IH]; intros w [|p stack] st B C T F Hall Hn Hc.
  - exists st. split; [done|]. by rewrite !Nat.add_0_r.
  - apply Forall_cons in Hall as [[Hp [x Hx]] _]. exfalso. unfold nodes in Hn. destruct (decide (x = CDir)) as [->|Hd].
    + rewrite (under_dir _ _ _ _ _ T Hp Hx (reflexivity _)) in Hn. lia.
    + rewrite (under_leaf _ _ _ _ _ T Hp Hx Hd) in Hn. lia.
  - exists st. split; [done|]. by rewrite !Nat.add_0_r.
  - apply Forall_cons in Hall as [[Hp [x Hx]] Hall]. cbn [stats_loop]. rewrite Hx. unfold nodes in *. destruct x as [b| |t].
    + rewrite (under_leaf (fun _ => 1%nat) _ _ _ _ T Hp Hx) in Hn by done.
      rewrite (under_leaf node_bytes _ _ _ _ T Hp Hx), (under_leaf node_files _ _ _ _ T Hp Hx) by done.
      destruct (IH w stack (mkStats (sat_add (bytes_apparent st) (zlen b)) (file_count st + 1)) (B + length b)%nat (C + 1)%nat)
        as (st' & E & Hst'); [done|done|done|lia|by apply counted_file|].
      exists st'. split; [done|]. rewrite !Nat.add_assoc. exact Hst'.
    + rewrite (read_dir_ok _ _ F Hx). set (ns := dir_order p (names (files w) p)).
      assert (ns ≡ₚ names (files w) p) as Hns by apply dir_order_perm.
      rewrite (under_dir (fun _ => 1%nat) _ _ _ _ T Hp Hx Hns) in Hn.
      rewrite (under_dir node_bytes _ _ _ _ T Hp Hx Hns), (under_dir node_files _ _ _ _ T Hp Hx Hns).
      assert (forall g, under g (files w) (reverse (map (child p) ns) ++ stack) = (under g (files w) (map (child p) ns) + under g (files w) stack)%nat) as Hu.
      { intros g. rewrite under_app. f_equal. apply under_perm. apply reverse_Permutation. }
      destruct (IH w (reverse (map (child p) ns) ++ stack) st B C) as (st' & E & Hst'); [done|done| |rewrite Hu; cbn in Hn; lia|done|].
      { apply Forall_app. split; [|done]. apply Forall_reverse, Forall_forall. intros ? (n & -> & Hin)%list_elem_of_fmap.
        split; [apply child_ne|]. apply elem_of_names. by rewrite <- Hns. }
      exists st'. split; [done|]. rewrite !Hu in Hst'. exact Hst'.
    + rewrite (under_leaf (fun _ => 1%nat) _ _ _ _ T Hp Hx) in Hn by done.
      rewrite (under_leaf node_bytes _ _ _ _ T Hp Hx), (under_leaf node_files _ _ _ _ T Hp Hx) by done.
      destruct (IH w stack st B C) as (st' & E & Hst'); [done|done|done|cbn in Hn; lia|done|]. by exists st'.
Qed.
(** The statistics of a tree are exact. *)
Lemma walk_stats_exact w root : tree_ok (files w) -> faults w = [] -> root <> [] -> is_Some (files w !! root) ->
  walk_stats root w = (Ok (tree_stats (files w) root), w).
Proof.
  intros T F Hr Hs. unfold walk_stats.
  destruct (stats_loop_exact (S (size (files w))) w [root] (mkStats 0 0) 0 0) as (st & -> & Hc); [done|done|by repeat constructor| |done|].
  - pose proof (nodes_size (files w) root). lia.
  - by rewrite Hc.
Qed.

(** ** The walk copies the tree

    [rs] are the paths still in the queue, relative to the two roots: each is a
    file of the source whose place in the copy is free, in a directory unless
    it is the root. *)
Record ready (m0 : Files) (src dst : Path) (m : Files) (rs : list Path) : Prop := {
  rd_source t : m !! (src ++ t) = m0 !! (src ++ t);
  rd_nodup : NoDup rs;
  rd_prefix r r' : r ∈ rs -> r' ∈ rs -> r `prefix_of` r' -> r = r';
  rd_some r : r ∈ rs -> is_Some (m0 !! (src ++ r));
  rd_dir r : r ∈ rs -> r <> [] -> exists r0 c, r = r0 ++ [c] /\ m !! (dst ++ r0) = Some CDir;
  rd_free r t : r ∈ rs -> m !! (dst ++ r ++ t) = None
}.
(** The trees at [rs] are copied, and nothing else. *)
Record copied_at (m0 : Files) (src dst : Path) (rs : list Path) (m m' : Files) : Prop := {
  cp_in r t : r ∈ rs -> m' !! (dst ++ r ++ t) = m0 !! (src ++ r ++ t);
  cp_out k : (forall r, r ∈ rs -> ~ (dst ++ r) `prefix_of` k) -> m' !! k = m !! k
}.
Definition kids (r : Path) (ns : list string) : list Path := map (fun n => r ++ [Normal n]) ns.
Lemma elem_of_kids r ns c : c ∈ kids r ns <-> exists n, c = r ++ [Normal n] /\ n ∈ ns.
Proof. apply list_elem_of_fmap. Qed.
Lemma snoc_ne (r : Path) c : r ++ [c] <> r.
Proof. intros E. apply (f_equal length) in E. rewrite length_app in E. cbn in E. lia. Qed.
Lemma prefix_snoc_inv (a r : Path) c : a `prefix_of` r ++ [c] -> a = r ++ [c] \/ a `prefix_of` r.
Proof.
  intros [t E]. destruct t as [|d t _] using rev_ind; [left; by rewrite app_nil_r in E|].
  right. rewrite app_assoc in E. apply app_inj_tail in E as [-> _]. by apply prefix_app_r.
Qed.
Lemma root_not_kid r rs ns : [] ∉ rs -> [] ∉ rs ++ kids r ns.
Proof. intros H [?|(n & E & _)%elem_of_kids]%elem_of_app; [done|]. by destruct r. Qed.
Lemma NoDup_kids r ns : NoDup ns -> NoDup (kids r ns).
Proof. apply NoDup_fmap_2. intros n n' E. apply app_inv_head in E. congruence. Qed.

Lemma ready_step m0 src dst m r rs x ns :
  apart src dst -> ready m0 src dst m (r :: rs) -> NoDup ns -> (ns <> [] -> x = CDir) ->
  (forall n, n ∈ ns -> is_Some (m0 !! (src ++ r ++ [Normal n]))) ->
  ready m0 src dst (<[dst ++ r := x]> m) (rs ++ kids r ns).
Proof.
  intros Hap R Hns Hx Hin. pose proof (rd_nodup _ _ _ _ _ R) as [Hr Hrs]%NoDup_cons.
  assert (forall r', r' ∈ rs -> ~ r `prefix_of` r' /\ ~ r' `prefix_of` r) as Hrr.
  { intros r' Hr'. split; intros P; [assert (r = r')|assert (r' = r)]; try (eapply (rd_prefix _ _ _ _ _ R); eauto; set_solver); congruence. }
  split.
  - intros t. rewrite lookup_insert_ne; [apply R|]. intros E. symmetry in E. by apply (apart_app src dst t r Hap).
  - apply NoDup_app. split; [done|]. split; [|by apply NoDup_kids].
    intros r' Hr' (n & -> & _)%elem_of_kids. apply (proj1 (Hrr _ Hr')). by apply prefix_app_r.
  - intros a b [Ha|(n & -> & Hn)%elem_of_kids]%elem_of_app [Hb|(n' & -> & Hn')%elem_of_kids]%elem_of_app P.
    + apply (rd_prefix _ _ _ _ _ R); set_solver.
    + exfalso. destruct (prefix_snoc_inv _ _ _ P) as [->|P']; [apply (proj1 (Hrr _ Ha)); by apply prefix_app_r|by apply (proj2 (Hrr _ Ha))].
    + exfalso. apply (proj1 (Hrr _ Hb)). etrans; [|exact P]. by apply prefix_app_r.
    + apply prefix_length_eq in P; [done|]. rewrite !length_app. cbn. lia.
  - intros a [Ha|(n & -> & Hn)%elem_of_kids]%elem_of_app; [apply (rd_some _ _ _ _ _ R); set_solver|by apply Hin].
  - intros a [Ha|(n & -> & Hn)%elem_of_kids]%elem_of_app.
    + intros Hne. destruct (rd_dir _ _ _ _ _ R a) as (r0 & c & -> & Hd); [set_solver|done|]. exists r0, c. split; [done|].
      rewrite lookup_insert_ne; [done|]. intros E%app_inv_head. apply (proj1 (Hrr _ Ha)). rewrite E. by apply prefix_app_r.
    + intros _. exists r, (Normal n). split; [done|]. rewrite lookup_insert_eq. f_equal. apply Hx. intros ->. by apply not_elem_of_nil in Hn.
  - intros a t [Ha|(n & -> & Hn)%elem_of_kids]%elem_of_app.
    + rewrite lookup_insert_ne; [apply (rd_free _ _ _ _ _ R); set_solver|]. intros E%app_inv_head. apply (proj2 (Hrr _ Ha)). rewrite E. by apply prefix_app_r.
    + rewrite <- app_assoc, lookup_insert_ne; [apply (rd_free _ _ _ _ _ R); set_solver|].
      intros E%app_inv_head. apply (f_equal length) in E. rewrite !length_app in E. cbn in E. lia.
Qed.
Lemma copied_step m0 src dst m m' r rs x ns :
  ready m0 src dst m (r :: rs) -> m0 !! (src ++ r) = Some x ->
  (forall c t, is_Some (m0 !! (src ++ r ++ c :: t)) -> exists n, c = Normal n /\ n ∈ ns) ->
  copied_at m0 src dst (rs ++ kids r ns) (<[dst ++ r := x]> m) m' -> copied_at m0 src dst (r :: rs) m m'.
Proof.
  intros R Hx Hkids [Hi Ho]. pose proof (rd_nodup _ _ _ _ _ R) as [Hr _]%NoDup_cons.
  assert (forall t r', r' ∈ rs -> ~ (dst ++ r') `prefix_of` (dst ++ r ++ t)) as Hrr.
  { intros t r' Hr' P%prefix_app_inv. assert (r' `prefix_of` r \/ r `prefix_of` r') as Hc
      by (eapply prefix_weak_total; [exact P|by apply prefix_app_r]).
    destruct Hc as [Hc|Hc]; [assert (r' = r)|assert (r = r')]; try (eapply (rd_prefix _ _ _ _ _ R); eauto; set_solver); congruence. }
  split.
  - intros a t [->|Ha]%elem_of_cons; [|apply Hi; set_solver].
    assert ((exists n t', t = Normal n :: t' /\ n ∈ ns) \/ ~ (exists n t', t = Normal n :: t' /\ n ∈ ns)) as Hcase.
    { destruct t as [|[| | |n] t']; [right; naive_solver..|]. destruct (decide (n ∈ ns)); [left|right]; naive_solver. }
    destruct Hcase as [(n & t' & -> & Hn)|Hno].
    { change (Normal n :: t') with ([Normal n] ++ t'). rewrite !(app_assoc r [Normal n] t'). apply Hi.
      apply elem_of_app. right. apply elem_of_kids. eauto. }
    rewrite Ho.
    + destruct t as [|c t]; [rewrite !app_nil_r, lookup_insert_eq; done|].
      rewrite lookup_insert_ne; [rewrite (rd_free _ _ _ _ _ R) by set_solver|].
      * symmetry. apply eq_None_not_Some. intros Hs. destruct (Hkids c t Hs) as (n & -> & Hn). apply Hno. eauto.
      * intros E%app_inv_head. apply (f_equal length) in E. rewrite length_app in E. cbn in E. lia.
    + intros b [Hb|(n & -> & Hn)%elem_of_kids]%elem_of_app; [by apply Hrr|]. intros P%prefix_app_inv%prefix_app_inv.
      destruct P as [t' ->]. apply Hno. exists n, t'. done.
  - intros k Hk. rewrite Ho.
    + rewrite lookup_insert_ne; [done|]. intros <-. apply (Hk r); [set_solver|reflexivity].
    + intros b [Hb|(n & -> & Hn)%elem_of_kids]%elem_of_app P; [apply (Hk b); [set_solver|done]|].
      apply (Hk r); [set_solver|]. etrans; [|exact P]. rewrite app_assoc. by apply prefix_app_r.
Qed.

(** ** Single calls that succeed *)

Lemma has_nul_app a b : has_nul (a ++ b) = has_nul a || has_nul b.
Proof. apply existsb_app. Qed.
Lemma resolve_plain m p x : m !! p = Some x -> (forall t, x <> CLink t) -> resolve 32 m p = Some p.
Proof. intros E Hx. cbn. rewrite E. destruct x; try done. by destruct (Hx target). Qed.
Lemma parent_snoc (p : Path) c : parent (p ++ [c]) = p.
Proof. apply removelast_last. Qed.
Lemma clonefile_ok s d w x :
  errnos w = [] -> files w !! s = Some x -> (forall t, x <> CLink t) -> files w !! d = None -> files w !! parent d = Some CDir ->
  clonefile s d w = (None, set_files (graft (files w) s d) w).
Proof.
  intros He Hs Hx Hd Hp. unfold clonefile. rewrite He, (resolve_plain _ _ _ Hs Hx), Hd, (is_dir_dir _ _ Hp). destruct w. cbn in *. by rewrite He.
Qed.
Lemma clone_ok s d w x :
  errnos w = [] -> has_nul s = false -> has_nul d = false -> files w !! s = Some x -> (forall t, x <> CLink t) ->
  files w !! d = None -> files w !! parent d = Some CDir ->
  clonefile_with_retry s d w = (Ok tt, set_files (graft (files w) s d) w).
Proof.
  intros He Ns Nd Hs Hx Hd Hp. unfold clonefile_with_retry. rewrite Ns, Nd. cbn [retry_loop EDEADLK_BACKOFFS_MS].
  by rewrite (clonefile_ok s d w x).
Qed.
Lemma graft_leaf m s d x : m !! s = Some x -> (forall t, t <> [] -> m !! (s ++ t) = None) -> graft m s d = <[d := x]> m.
Proof.
  intros Hs Hb. apply map_eq. intros k. rewrite graft_lookup. destruct (strip_prefix k d) as [t|] eqn:E.
  - apply strip_prefix_Some in E as ->. destruct (decide (t = [])) as [->|Ht].
    + by rewrite !app_nil_r, Hs, lookup_insert_eq.
    + rewrite Hb, lookup_insert_ne; [done| |done]. intros E. apply Ht. apply (f_equal length) in E. rewrite length_app in E.
      destruct t; [done|]. cbn in E. lia.
  - rewrite lookup_insert_ne; [done|]. intros ->. rewrite <- (app_nil_r k), strip_prefix_app in E at 1. done.
Qed.

Lemma mkdirs_app m ps qs : mkdirs m (ps ++ qs) = mkdirs m ps ≫= fun m => mkdirs m qs.
Proof. revert m. induction ps as [|p ps IH]; intros m; [done|]. cbn. destruct (mkdir_one m p); [apply IH|done]. Qed.
Lemma mkdirs_noop m ps : Forall (fun p => m !! p = Some CDir) ps -> mkdirs m ps = Some m.
Proof. induction 1 as [|p ps Hp _ IH]; [done|]. cbn. unfold mkdir_one. by rewrite (stat_plain m p CDir Hp). Qed.
Lemma ancestors_snoc (p : Path) c : ancestors (p ++ [c]) = ancestors p ++ [p ++ [c]].
Proof.
  unfold ancestors. rewrite length_app. cbn [length]. rewrite seq_app, map_app. cbn [map seq].
  f_equal; [|f_equal; apply take_ge; rewrite length_app; cbn; lia].
  apply map_ext_in. intros n Hn%in_seq. rewrite take_app_le; [done|lia].
Qed.
Lemma ancestors_dirs m p : tree_ok m -> p <> [] -> m !! p = Some CDir -> Forall (fun q => m !! q = Some CDir) (ancestors p).
Proof.
  intros T Hp Hd. apply Forall_forall. intros q (n & -> & Hn)%list_elem_of_fmap. apply elem_of_seq in Hn.
  destruct (decide (drop n p = [])) as [E|E]; [rewrite <- (take_drop n p), E, app_nil_r in Hd; done|].
  apply (tree_ancestor m (take n p) (drop n p)); [done| |done|rewrite take_drop; by eexists].
  destruct p; [done|]. destruct n; [lia|]. done.
Qed.
Lemma create_dir_noop p w : faults w = [] -> tree_ok (files w) -> p <> [] -> files w !! p = Some CDir -> create_dir_all p w = (Ok tt, w).
Proof.
  intros F T Hp Hd. unfold create_dir_all. rewrite (faulty_nil w F), mkdirs_noop by by apply ancestors_dirs. by destruct w.
Qed.
Lemma create_dir_one p c w :
  faults w = [] -> tree_ok (files w) -> p <> [] -> files w !! p = Some CDir -> files w !! (p ++ [c]) = None ->
  create_dir_all (p ++ [c]) w = (Ok tt, set_files (<[p ++ [c] := CDir]> (files w)) w).
Proof.
  intros F T Hp Hd Hn. unfold create_dir_all. rewrite (faulty_nil w F), ancestors_snoc, mkdirs_app, mkdirs_noop by by apply ancestors_dirs.
  cbn [mbind option_bind mkdirs]. unfold mkdir_one. by rewrite (stat_None _ _ Hn), Hn.
Qed.
Lemma exists_false m p : m !! p = None -> exists_ m p = false.
Proof. intros E. unfold exists_. rewrite (stat_None _ _ E). done. Qed.
Lemma exists_true m p x : m !! p = Some x -> (forall t, x <> CLink t) -> exists_ m p = true.
Proof. intros E Hx. unfold exists_. rewrite (stat_plain _ _ _ E Hx). done. Qed.

Lemma tree_ok_insert m p n x : tree_ok m -> p <> [] -> m !! p = Some CDir -> has_nul (child p n) = false ->
  (forall t, m !! (child p n ++ t) = None) -> tree_ok (<[child p n := x]> m).
Proof.
  intros T Hp Hd Hn Hf. assert (m !! child p n = None) as H0 by (rewrite <- (app_nil_r (child p n)); apply Hf).
  split.
  - intros q c Hq Hs. destruct (decide (q = child p n)) as [->|Nq].
    { rewrite lookup_insert_ne, Hf in Hs by (intros E; symmetry in E; by apply snoc_ne in E). by destruct Hs. }
    rewrite (lookup_insert_ne _ _ q) by done. destruct (decide (q ++ [c] = child p n)) as [E|N].
    + apply app_inj_tail in E as [-> ->]. eauto.
    + rewrite lookup_insert_ne in Hs by done. by apply (ok_parent m T).
  - intros q Hs. destruct (decide (q = child p n)) as [->|N]; [done|]. rewrite lookup_insert_ne in Hs by done. by apply (ok_plain m T).
Qed.

Lemma walk_nil c st w : walk c [] st w = (Ok st, set_clock c w).
Proof. by destruct c. Qed.
Definition pair_of (src dst r : Path) : Path * Path := (src ++ r, dst ++ r).
Lemma kids_pairs src dst r ns :
  map (fun n => (child (src ++ r) n, child (dst ++ r) n)) ns = map (pair_of src dst) (kids r ns).
Proof. unfold kids, pair_of, child. rewrite map_map. apply map_ext. intros n. by rewrite !app_assoc. Qed.
Lemma kids_paths src r ns : map (app src) (kids r ns) = map (child (src ++ r)) ns.
Proof. unfold kids, child. rewrite map_map. apply map_ext. intros n. by rewrite app_assoc. Qed.
Lemma names_agree m m0 p : (forall t, m !! (p ++ t) = m0 !! (p ++ t)) -> names m p ≡ₚ names m0 p.
Proof.
  intros H. apply NoDup_Permutation; [apply NoDup_names..|]. intros n. rewrite !elem_of_names. unfold child. by rewrite H.
Qed.

Section Walk.
Context (m0 : Files) (src dst : Path).
Hypotheses (T0 : tree_ok m0) (Hsrc : src <> []) (Hdst : dst <> []) (Ndst : has_nul dst = false) (Hap : apart src dst).

(** What the first path of the queue is, and what putting its node at its place gives. *)
Lemma queue_head w r rs x : r <> [] -> ready m0 src dst (files w) (r :: rs) -> tree_ok (files w) -> m0 !! (src ++ r) = Some x ->
  files w !! (src ++ r) = Some x /\ files w !! (dst ++ r) = None /\ files w !! parent (dst ++ r) = Some CDir /\
  has_nul (src ++ r) = false /\ has_nul (dst ++ r) = false /\ (exists r0 n, r = r0 ++ [Normal n]) /\
  tree_ok (<[dst ++ r := x]> (files w)).
Proof.
  intros Hr R T Hx. destruct (rd_dir _ _ _ _ _ R r) as (r0 & c & -> & Hd); [set_solver|done|].
  destruct (ok_parent m0 T0 (src ++ r0) c) as [_ [n ->]]; [by destruct src|rewrite <- app_assoc; by eexists|].
  pose proof (ok_plain m0 T0 (src ++ r0 ++ [Normal n])) as Hn. rewrite has_nul_app in Hn.
  apply orb_false_iff in Hn as [Hn1 Hn2]; [|by eexists].
  assert (has_nul (dst ++ r0 ++ [Normal n]) = false) as Hdn by (by rewrite has_nul_app, Ndst, Hn2).
  assert (forall t, files w !! (dst ++ (r0 ++ [Normal n]) ++ t) = None) as Hfree by (intros t; apply (rd_free _ _ _ _ _ R); set_solver).
  split; [by rewrite (rd_source _ _ _ _ _ R)|]. split; [by rewrite <- (Hfree []), app_nil_r|].
  split; [by rewrite app_assoc, parent_snoc|]. split; [by rewrite has_nul_app, Hn1, Hn2|]. split; [done|]. split; [eauto|].
  rewrite app_assoc in *. apply (tree_ok_insert (files w) (dst ++ r0) n x T); [by destruct dst|done|done|].
  intros t. rewrite <- (Hfree t). unfold child. by rewrite <- !app_assoc.
Qed.
Lemma leaf_kids r x : m0 !! (src ++ r) = Some x -> x <> CDir ->
  forall c t, is_Some (m0 !! (src ++ r ++ c :: t)) -> exists n, c = Normal n /\ n ∈ ([] : list string).
Proof.
  intros Hx Hd c t Hs. rewrite app_assoc, (tree_below m0 (src ++ r) (c :: t) T0) in Hs; [by destruct Hs|by destruct src|congruence|done].
Qed.

Lemma leaf_step m r rs x : ready m0 src dst m (r :: rs) -> m0 !! (src ++ r) = Some x -> x <> CDir ->
  ready m0 src dst (<[dst ++ r := x]> m) rs /\
  (forall m', copied_at m0 src dst rs (<[dst ++ r := x]> m) m' -> copied_at m0 src dst (r :: rs) m m') /\
  forall f, under f m0 ((src ++ r) :: map (app src) rs) = (f (src ++ r, x) + under f m0 (map (app src) rs))%nat.
Proof.
  intros R Hx Hd. split; [|split].
  - rewrite <- (app_nil_r rs). apply (ready_step m0 src dst m r rs x []); [done|done|constructor|done|set_solver].
  - intros m' Hm'. apply (copied_step m0 src dst m m' r rs x []); [done|done|by apply (leaf_kids r x)|]. by rewrite app_nil_r.
  - intros f. apply under_leaf; [done|by destruct src|done|done].
Qed.

Lemma walk_copies k : forall rs c st B C w,
  [] ∉ rs -> ready m0 src dst (files w) rs -> tree_ok (files w) -> faults w = [] -> errnos w = [] ->
  (nodes m0 (map (app src) rs) <= k)%nat -> counted B C st ->
  exists st' w', walk (replicate k false ++ c) (map (pair_of src dst) rs) st w = (Ok st', w') /\
    counted (B + under node_bytes m0 (map (app src) rs)) (C + under node_files m0 (map (app src) rs)) st' /\
    copied_at m0 src dst rs (files w) (files w') /\ tree_ok (files w').
Proof.
  induction k as [|k IH]; intros [|r rs] c st B C w Hroot R T F E Hk Hc.
  1, 3: exists st; eexists; rewrite walk_nil; split; [reflexivity|]; split; [by rewrite !Nat.add_0_r|];
    split; [split; [set_solver|done]|done].
  all: destruct (rd_some _ _ _ _ _ R r) as [x Hx]; [set_solver|];
    assert (src ++ r <> []) as Hne by (by destruct src); apply not_elem_of_cons in Hroot as [Hr Hroot]; cbn [map] in *; unfold nodes in *.
  { exfalso. destruct (decide (x = CDir)) as [->|Hd].
    - rewrite (under_dir _ _ _ _ _ T0 Hne Hx (reflexivity _)) in Hk. lia.
    - rewrite (under_leaf _ _ _ _ _ T0 Hne Hx Hd) in Hk. lia. }
  destruct (queue_head w r rs x (not_eq_sym Hr) R T Hx) as (Hs & Hfree & Hpar & Ns & Nd & _ & Tput).
  cbn [replicate app]. unfold pair_of at 1. cbn [walk]. rewrite Hs.
  pose proof (leaf_step (files w) r rs x R Hx) as Hleaf.
  destruct x as [b| |t].
  - destruct (Hleaf ltac:(done)) as (R' & Hcp & Hu).
    rewrite (clone_ok _ _ w (CFile b) E Ns Nd Hs ltac:(done) Hfree Hpar).
    rewrite (graft_leaf (files w) (src ++ r) (dst ++ r) (CFile b) Hs); [|intros t Ht; apply tree_below; [done|done|congruence|done]].
    rewrite (Hu (fun _ => 1%nat)) in Hk.
    destruct (IH rs c (mkStats (sat_add (bytes_apparent st) (zlen b)) (file_count st + 1)) (B + length b)%nat (C + 1)%nat
                (set_files (<[dst ++ r := CFile b]> (files w)) w)) as (st' & w' & Ew & Hc' & Hcopy & T'); [done|done|done|done|done|lia|by apply counted_file|].
    exists st', w'. split; [exact Ew|]. split; [|split; [by apply Hcp|done]]. rewrite !Hu, !Nat.add_assoc. exact Hc'.
  - rewrite (exists_false _ _ Hfree). destruct (rd_dir _ _ _ _ _ R r) as (r0 & c0 & Er & Hd0); [set_solver|done|].
    assert (create_dir_all (dst ++ r) w = (Ok tt, set_files (<[dst ++ r := CDir]> (files w)) w)) as ->.
    { subst r. rewrite app_assoc in Hfree |- *. apply create_dir_one; [done|done|by destruct dst|done|done]. }
    set (w1 := set_files (<[dst ++ r := CDir]> (files w)) w).
    assert (forall t, files w1 !! (src ++ t) = m0 !! (src ++ t)) as Hsame.
    { intros t. cbn. rewrite lookup_insert_ne; [apply (rd_source _ _ _ _ _ R)|].
      intros Eq. symmetry in Eq. by apply (apart_app src dst t r Hap). }
    rewrite (read_dir_ok (src ++ r) w1 F) by by rewrite Hsame. set (ns := dir_order _ _).
    assert (ns ≡ₚ names m0 (src ++ r)) as Hns.
    { subst ns. rewrite dir_order_perm. apply names_agree. intros t. by rewrite <- app_assoc, Hsame. }
    assert (forall n, n ∈ ns <-> is_Some (m0 !! (src ++ r ++ [Normal n]))) as Hin.
    { intros n. rewrite Hns, elem_of_names. unfold child. by rewrite <- app_assoc. }
    rewrite kids_pairs, <- map_app.
    rewrite (under_dir (fun _ => 1%nat) m0 _ ns _ T0 Hne Hx Hns), <- kids_paths in Hk.
    assert (forall f, under f m0 (map (app src) (rs ++ kids r ns)) =
      (under f m0 (map (app src) (kids r ns)) + under f m0 (map (app src) rs))%nat) as Hu.
    { intros f. rewrite map_app, under_app. lia. }
    destruct (IH (rs ++ kids r ns) c st B C w1) as (st' & w' & Ew & Hc' & Hcopy & T'); [by apply root_not_kid| |done|done|done|rewrite Hu; lia|done|].
    { apply ready_step; [done|done|rewrite Hns; apply NoDup_names|done|]. intros n Hn. by apply Hin. }
    exists st', w'. split; [exact Ew|]. split; [|split; [|done]].
    + rewrite !(under_dir _ m0 _ ns _ T0 Hne Hx Hns), <- !kids_paths. rewrite !Hu in Hc'. exact Hc'.
    + apply (copied_step m0 src dst (files w) (files w') r rs CDir ns R Hx); [|done].
      intros c1 t1 Ht. rewrite app_assoc in Ht. destruct (tree_child m0 (src ++ r) c1 t1 T0 Hne Ht) as [Hs1 [n ->]].
      exists n. split; [done|]. apply Hin. by rewrite app_assoc.
  - destruct (Hleaf ltac:(done)) as (R' & Hcp & Hu). rewrite (faulty_nil w F), Hfree, (is_dir_dir _ _ Hpar). cbn [andb negb].
    rewrite (Hu (fun _ => 1%nat)) in Hk.
    destruct (IH rs c st B C (set_files (<[dst ++ r := CLink t]> (files w)) w)) as (st' & w' & Ew & Hc' & Hcopy & T'); [done|done|done|done|done|lia|done|].
    exists st', w'. split; [exact Ew|]. split; [|split; [by apply Hcp|done]]. rewrite !Hu. exact Hc'.
Qed.
End Walk.

(** ** The whole copy *)

(** A directory to be copied to a free place in another directory. *)
Record clean (m : Files) (src dst : Path) : Prop := {
  cl_tree : tree_ok m;
  cl_src : src <> [];
  cl_dir : m !! src = Some CDir;
  cl_dst : exists p n, dst = child p n /\ p <> [] /\ m !! p = Some CDir;
  cl_free : m !! dst = None;
  cl_plain : has_nul dst = false;
  cl_apart : apart src dst
}.
(** The copy holds what the source holds, and nothing else has changed. *)
Definition copied (m : Files) (src dst : Path) (m' : Files) : Prop :=
  (forall r, m' !! (dst ++ r) = m !! (src ++ r)) /\ forall k, ~ dst `prefix_of` k -> m' !! k = m !! k.

Lemma clean_below m src dst t : clean m src dst -> m !! (dst ++ t) = None.
Proof.
  intros Cl. destruct (cl_dst _ _ _ Cl) as (p & n & -> & Hp & _). destruct (decide (t = [])) as [->|Ht].
  - rewrite app_nil_r. apply Cl.
  - apply tree_below; [apply Cl|apply child_ne|rewrite (cl_free _ _ _ Cl); done|done].
Qed.
Lemma graft_copied m src dst : clean m src dst -> copied m src dst (graft m src dst).
Proof.
  intros Cl. split.
  - intros r. rewrite graft_lookup, strip_prefix_app, (clean_below m src dst r Cl). by destruct (m !! _).
  - intros k Hk. by rewrite graft_lookup, strip_prefix_None.
Qed.
Lemma copied_source m src dst m' t : clean m src dst -> copied m src dst m' -> m' !! (src ++ t) = m !! (src ++ t).
Proof. intros Cl [_ Ho]. apply Ho. intros [r E]. by apply (apart_app src dst t r (cl_apart _ _ _ Cl)). Qed.
Lemma copied_tree_ok m src dst m' : clean m src dst -> copied m src dst m' -> tree_ok m'.
Proof.
  intros Cl [Hi Ho]. pose proof (cl_tree _ _ _ Cl) as T. destruct (cl_dst _ _ _ Cl) as (p & n & Ed & Hp & Hpd). split.
  - intros q c Hq Hs. destruct (prefix_dec_app dst (q ++ [c])) as [[r E]|N].
    + destruct r as [|c' r _] using rev_ind.
      * rewrite app_nil_r, Ed in E. apply app_inj_tail in E as [-> ->]. split; [|eauto].
        rewrite Ho; [done|]. rewrite Ed. apply prefix_snoc_not.
      * rewrite app_assoc in E. apply app_inj_tail in E as [-> ->]. rewrite <- app_assoc, Hi, app_assoc in Hs. rewrite Hi.
        apply (ok_parent m T); [|done]. pose proof (cl_src _ _ _ Cl). by destruct src.
    + rewrite Ho in Hs by done. rewrite Ho; [by apply (ok_parent m T)|]. intros P. apply N. etrans; [exact P|]. by apply prefix_app_r.
  - intros q Hs. destruct (prefix_dec_app dst q) as [[r ->]|N]; [|rewrite Ho in Hs by done; by apply (ok_plain m T)].
    rewrite Hi in Hs. apply (ok_plain m T) in Hs. rewrite has_nul_app in *. apply orb_false_iff in Hs as [_ ->]. by rewrite (cl_plain _ _ _ Cl).
Qed.
Lemma copied_sub m src dst m' : copied m src dst m' ->
  sub m' dst ≡ₚ map (fun e => (dst ++ drop (length src) e.1, e.2)) (sub m src).
Proof.
  intros [Hi _]. apply NoDup_Permutation; [apply NoDup_sub| |].
  - apply NoDup_fmap_2_strong; [|apply NoDup_sub]. intros [k x] [k' x'] (_ & t & ->)%elem_of_sub (_ & t' & ->)%elem_of_sub.
    cbn. rewrite !drop_app_length. by intros [= ->%app_inv_head ->].
  - intros [k x]. rewrite elem_of_sub, list_elem_of_fmap. split.
    + intros (Hk & r & ->). exists (src ++ r, x). cbn. rewrite drop_app_length. split; [done|]. apply elem_of_sub. rewrite <- Hi. eauto.
    + intros ([k' x'] & [= -> ->] & (Hk & r & ->)%elem_of_sub). cbn. rewrite drop_app_length, Hi. eauto.
Qed.
Lemma copied_stats m src dst m' : copied m src dst m' -> tree_stats m' dst = tree_stats m src.
Proof.
  intros Hc. unfold tree_stats, under. cbn [sum_list_with]. rewrite (copied_sub _ _ _ _ Hc).
  assert (forall (f : Path * cnode -> nat) g l, (forall e, f (g e) = f e) -> sum_list_with f (map g l) = sum_list_with f l) as Hm.
  { intros f g l Hf. induction l as [|e l IH]; cbn; congruence. }
  by rewrite !Hm.
Qed.

(** [k] clone calls meet a locked directory, and then none does. *)
Lemma retry_loop_ok src dst x : forall k backoffs attempt w,
  (k <= length backoffs)%nat -> errnos w = replicate k (Some EDEADLK) -> files w !! src = Some x -> (forall t, x <> CLink t) ->
  files w !! dst = None -> files w !! parent dst = Some CDir ->
  exists w', retry_loop backoffs attempt src dst w = (Ok tt, w') /\ files w' = graft (files w) src dst /\ faults w' = faults w /\
    slept w' = slept w ++ take k backoffs.
Proof.
  intros k. induction k as [|k IH]; intros backoffs attempt w Hk He Hs Hx Hd Hp.
  - assert (retry_loop backoffs attempt src dst w = (Ok tt, set_files (graft (files w) src dst) w)) as ->.
    { destruct backoffs; cbn [retry_loop]; by rewrite (clonefile_ok src dst w x He Hs Hx Hd Hp). }
    eexists. split; [done|]. cbn. by rewrite app_nil_r.
  - destruct backoffs as [|ms backoffs]; [cbn in Hk; lia|]. cbn [retry_loop]. unfold clonefile at 1. rewrite He. cbn [replicate tail].
    match goal with |- context [retry_loop backoffs _ _ _ ?w1] =>
      destruct (IH backoffs (attempt + 1)%Z w1) as (w' & E & Hf & Hfa & Hsl); try done; [cbn in Hk; lia|] end.
    exists w'. split; [exact E|]. split; [exact Hf|]. split; [exact Hfa|]. rewrite Hsl. cbn. by rewrite <- app_assoc.
Qed.
Lemma parent_child p n : parent (child p n) = p.
Proof. apply parent_snoc. Qed.

Lemma clone_tree_enter src dst w : clean (files w) src dst -> faults w = [] ->
  clone_tree src dst w = (clonefile_with_retry src dst ;;; walk_stats dst)%clone w.
Proof.
  intros Cl F. destruct (cl_dst _ _ _ Cl) as (p & n & Ed & Hp & Hpd). unfold clone_tree.
  rewrite (exists_true _ _ CDir (cl_dir _ _ _ Cl)), (exists_false _ _ (cl_free _ _ _ Cl)) by done. cbn [negb].
  assert (create_dir_all (parent dst) w = (Ok tt, w)) as Hc.
  { rewrite Ed, parent_child. apply create_dir_noop; [done|apply Cl|done|done]. }
  assert (match dst with [] | [RootDir] => ret tt | _ => create_dir_all (parent dst) end = create_dir_all (parent dst)) as ->.
  { rewrite Ed. unfold child. destruct p as [|[] [|]]; done. }
  unfold bind at 1. by rewrite Hc.
Qed.
Lemma clone_tree_copies src dst w k : clean (files w) src dst -> faults w = [] -> errnos w = replicate k (Some EDEADLK) -> (k <= 5)%nat ->
  exists w', clone_tree src dst w = (Ok (tree_stats (files w) src), w') /\ copied (files w) src dst (files w') /\ faults w' = [] /\
    slept w' = slept w ++ take k EDEADLK_BACKOFFS_MS.
Proof.
  intros Cl F He Hk. rewrite (clone_tree_enter src dst w Cl F). unfold bind, clonefile_with_retry.
  destruct (cl_dst _ _ _ Cl) as (p & n & Ed & Hp & Hpd).
  rewrite (ok_plain _ (cl_tree _ _ _ Cl) src), (cl_plain _ _ _ Cl) by (rewrite (cl_dir _ _ _ Cl); by eexists).
  destruct (retry_loop_ok src dst CDir k EDEADLK_BACKOFFS_MS 0 w) as (w' & -> & Hf & Hfa & Hsl);
    [done|done|apply Cl|done|apply Cl|by rewrite Ed, parent_child|].
  pose proof (graft_copied _ _ _ Cl) as Hc. rewrite <- Hf in Hc.
  rewrite walk_stats_exact, (copied_stats _ _ _ _ Hc).
  - exists w'. split; [done|]. split; [done|]. split; [congruence|done].
  - by eapply copied_tree_ok.
  - congruence.
  - rewrite Ed. apply child_ne.
  - rewrite <- (app_nil_r dst), (proj1 Hc), app_nil_r, (cl_dir _ _ _ Cl). by eexists.
Qed.

(** The clone call on the directory fails for good, and later calls do not. *)
Definition blocked (es : list (option Errno)) : Prop :=
  es = replicate 6 (Some EDEADLK) \/ exists e, e ∈ [EXDEV; ENOTSUP; EOther] /\ es = [Some e].
Definition escalates (e : SandboxError) : bool := match e with DestinationExists _ | SourceMissing _ => false | _ => true end.
(** The world but for what was slept. *)
Definition unspent (w w' : World) : Prop := files w' = files w /\ faults w' = faults w /\ errnos w' = [] /\ clock w' = clock w.
Lemma retry_exhausted src dst : forall backoffs attempt w, errnos w = replicate (S (length backoffs)) (Some EDEADLK) ->
  exists n w', retry_loop backoffs attempt src dst w = (Err (CloneRetriesExhausted src dst n), w') /\ unspent w w'.
Proof.
  intros backoffs. induction backoffs as [|ms backoffs IH]; intros attempt w He; cbn [retry_loop]; unfold clonefile at 1; rewrite He.
  - do 2 eexists. split; [reflexivity|]. done.
  - cbn [length replicate tail].
    match goal with |- context [retry_loop backoffs _ _ _ ?w1] => destruct (IH (attempt + 1)%Z w1) as (n & w' & E & H1 & H2 & H3 & H4); [done|] end.
    exists n, w'. split; [exact E|]. done.
Qed.
Lemma retry_refused src dst backoffs e w : errnos w = [Some e] -> e <> EDEADLK ->
  exists w', retry_loop backoffs 0 src dst w = (Err (errno_error src dst 0 e), w') /\ unspent w w'.
Proof.
  intros He Hne. destruct backoffs; cbn [retry_loop]; unfold clonefile at 1; rewrite He; eexists; (split; [destruct e; done|by repeat split]).
Qed.
Lemma clone_tree_blocked src dst w : clean (files w) src dst -> faults w = [] -> blocked (errnos w) ->
  exists e w', clone_tree src dst w = (Err e, w') /\ escalates e = true /\ unspent w w'.
Proof.
  intros Cl F Hb. rewrite (clone_tree_enter src dst w Cl F). unfold bind, clonefile_with_retry.
  rewrite (ok_plain _ (cl_tree _ _ _ Cl) src), (cl_plain _ _ _ Cl) by (rewrite (cl_dir _ _ _ Cl); by eexists).
  destruct Hb as [Hb|(e & He & Hb)].
  - destruct (retry_exhausted src dst EDEADLK_BACKOFFS_MS 0 w Hb) as (n & w' & -> & Hu). by eexists _, w'.
  - destruct (retry_refused src dst EDEADLK_BACKOFFS_MS e w Hb) as (w' & -> & Hu); [intros ->; set_solver|].
    eexists _, w'. split; [done|]. split; [|done]. by apply elem_of_cons in He as [->|[->|[->|[]%not_elem_of_nil]%elem_of_cons]%elem_of_cons].
Qed.

(** The walk from the root of the tree. *)
Lemma per_file_walk_copies src dst w k c : clean (files w) src dst -> faults w = [] -> errnos w = [] ->
  clock w = replicate k false ++ c -> (nodes (files w) [src] <= k)%nat ->
  exists w', per_file_clone_walk src dst w = (Ok (tree_stats (files w) src), w') /\ copied (files w) src dst (files w').
Proof.
  intros Cl F He Hc Hk. destruct (cl_dst _ _ _ Cl) as (p & n & Ed & Hp & Hpd). unfold per_file_clone_walk.
  rewrite (exists_false _ _ (cl_free _ _ _ Cl)). unfold bind.
  assert (create_dir_all dst w = (Ok tt, set_files (<[dst := CDir]> (files w)) w)) as ->.
  { rewrite Ed. apply create_dir_one; [done|apply Cl|done|done|]. change (p ++ [Normal n]) with (child p n). rewrite <- Ed. apply Cl. }
  set (m0 := files w) in *. set (w1 := set_files _ w). cbn [clock]. change (clock w1) with (clock w). rewrite Hc.
  unfold nodes in Hk. pose proof (cl_src _ _ _ Cl) as Hsrc. pose proof (cl_tree _ _ _ Cl) as T0. pose proof (cl_dir _ _ _ Cl) as Hdir.
  set (ns := dir_order src (names (files w1) src)).
  assert (forall t, files w1 !! (src ++ t) = m0 !! (src ++ t)) as Hsame.
  { intros t. cbn. rewrite lookup_insert_ne; [done|]. rewrite <- (app_nil_r dst). intros E. symmetry in E. by apply (apart_app src dst t [] (cl_apart _ _ _ Cl)). }
  assert (ns ≡ₚ names m0 src) as Hns by (subst ns; rewrite dir_order_perm; by apply names_agree).
  assert (forall n, n ∈ ns <-> is_Some (m0 !! (src ++ [] ++ [Normal n]))) as Hin by (intros; rewrite Hns; apply elem_of_names).
  assert (ready m0 src dst m0 [[]]) as R.
  { split; [done|apply NoDup_singleton|intros ? ? ->%list_elem_of_singleton ->%list_elem_of_singleton; done| | |].
    - intros ? ->%list_elem_of_singleton. rewrite app_nil_r, Hdir. by eexists.
    - intros ? ->%list_elem_of_singleton. done.
    - intros ? t ->%list_elem_of_singleton. by apply (clean_below m0 src dst). }
  pose proof (ready_step m0 src dst m0 [] [] CDir ns (cl_apart _ _ _ Cl) R) as R1. rewrite app_nil_r in R1.
  assert (forall f, under f m0 [src] = (f (src, CDir) + under f m0 (map (app src) (kids [] ns)))%nat) as Hu.
  { intros f. rewrite (under_dir f m0 src ns [] T0 Hsrc Hdir Hns), kids_paths, app_nil_r. cbn. lia. }
  rewrite Hu in Hk. destruct k as [|k]; [lia|]. cbn [replicate app walk].
  assert (files w1 !! src = Some CDir) as Hs1 by (rewrite <- (app_nil_r src), Hsame, app_nil_r; done).
  assert (files w1 !! dst = Some CDir) as Hd1 by apply lookup_insert_eq. rewrite Hs1, (exists_true (files w1) dst CDir Hd1 ltac:(done)).
  cbn [ret]. rewrite (read_dir_ok src w1 F Hs1). fold ns. cbn [app].
  replace (map (fun n0 => (child src n0, child dst n0)) ns) with (map (pair_of src dst) (kids [] ns))
    by (rewrite <- kids_pairs, !app_nil_r; done).
  destruct (walk_copies m0 src dst T0 Hsrc ltac:(rewrite Ed; apply child_ne) (cl_plain _ _ _ Cl) (cl_apart _ _ _ Cl) k (kids [] ns) c (mkStats 0 0) 0 0 w1)
    as (st' & w' & Ew & Hc' & Hcopy & _); [apply (root_not_kid [] []), not_elem_of_nil| | |done|done|unfold nodes; lia|done|].
  { apply R1; [rewrite Hns; apply NoDup_names|done|]. intros n0 Hn0. by apply Hin. }
  { cbn. rewrite Ed. apply tree_ok_insert; [done|done|done|rewrite <- Ed; exact (cl_plain _ _ _ Cl)|]. intros t. rewrite <- Ed. by apply (clean_below m0 src). }
  exists w'. split.
  - rewrite Ew. f_equal. f_equal. rewrite Hc'. unfold tree_stats. by rewrite !Hu.
  - assert (copied_at m0 src dst [[]] m0 (files w')) as [Hi Ho].
    { apply (copied_step m0 src dst m0 (files w') [] [] CDir ns R); [by rewrite app_nil_r| |by rewrite app_nil_r].
      intros c1 t1 Ht. destruct (tree_child m0 src c1 t1 T0 Hsrc Ht) as [Hs2 [n1 ->]]. exists n1. split; [done|]. by apply Hin. }
    split; [intros r; apply (Hi [] r); set_solver|]. intros k' Hk'. apply Ho. intros ? ->%list_elem_of_singleton. by rewrite app_nil_r.
Qed.


(** ** Snapshots *)

Lemma write_file_ok p n b w : faults w = [] -> files w !! p = Some CDir -> files w !! child p n = None ->
  write_file (child p n) b w = (Ok tt, set_files (<[child p n := CFile b]> (files w)) w).
Proof. intros F Hp Hn. unfold write_file. rewrite (faulty_nil w F), parent_child, (is_dir_dir _ _ Hp), Hn. done. Qed.
Lemma read_file_ok p b w : faults w = [] -> files w !! p = Some (CFile b) -> read_file p w = (Some b, w).
Proof. intros F Hp. unfold read_file. rewrite (faulty_nil w F), (stat_plain _ _ _ Hp) by done. done. Qed.
Lemma child_inj p n n' : child p n = child p n' -> n = n'.
Proof. unfold child. intros E%app_inv_head. congruence. Qed.
Lemma child_app_ne p n n' t : n <> n' -> child p n <> child p n' ++ t.
Proof. unfold child. intros N E. rewrite <- app_assoc in E. apply app_inv_head in E. cbn in E. congruence. Qed.
(** The profile of the session is copied beside the tree. *)
Lemma copy_profile_ok root dir w : faults w = [] -> files w !! dir = Some CDir -> files w !! child dir "sandbox.sb.copy" = None ->
  match files w !! child root "sandbox.sb" with Some (CFile _) | None => True | _ => False end ->
  exists m, (if exists_ (files w) (child root "sandbox.sb") then copy_file (child root "sandbox.sb") (child dir "sandbox.sb.copy") else ret tt) w
    = (Ok tt, set_files m w) /\ forall k, k <> child dir "sandbox.sb.copy" -> m !! k = files w !! k.
Proof.
  intros F Hd Hn Hsb. destruct (files w !! child root "sandbox.sb") as [[b| |]|] eqn:E; try done.
  - rewrite (exists_true _ _ _ E) by done. unfold copy_file. rewrite (read_file_ok _ b w F E), (write_file_ok dir _ b w F Hd Hn).
    eexists. split; [done|]. intros k Hk. by rewrite lookup_insert_ne.
  - rewrite (exists_false _ _ E). exists (files w). split; [by destruct w|done].
Qed.

Lemma tree_stats_agree m m' p : (forall t, m !! (p ++ t) = m' !! (p ++ t)) -> tree_stats m p = tree_stats m' p.
Proof.
  intros H. assert (sub m p ≡ₚ sub m' p) as Hs.
  { apply NoDup_Permutation; [apply NoDup_sub..|]. intros [k x]. rewrite !elem_of_sub. split; intros (Hk & t & ->); split; eauto; congruence. }
  unfold tree_stats, under. cbn [sum_list_with]. by rewrite Hs.
Qed.

(** A session that may be snapshotted. *)
Record snapshottable (m : Files) (rootfs dir : Path) : Prop := {
  sn_clean : clean m rootfs dir;
  sn_profile : match m !! child rootfs "sandbox.sb" with Some (CFile _) | None => True | _ => False end
}.
Lemma has_nul_child p n : has_nul (child p n) = has_nul p || has_nul [Normal n].
Proof. apply has_nul_app. Qed.
Lemma apart_below a b t : apart a b -> apart a (b ++ t).
Proof.
  intros [H1 H2]. split; intros P.
  - destruct (prefix_weak_total a b (b ++ t) P); [by apply prefix_app_r|done|done].
  - apply H2. etrans; [|exact P]. by apply prefix_app_r.
Qed.

Lemma take_snapshot_ok `{MetaSerde} rootfs dir meta w :
  snapshottable (files w) rootfs dir -> faults w = [] -> errnos w = [] ->
  let stats := tree_stats (files w) rootfs in
  let meta' := mkMeta (sm_name meta) (source_session_id meta) (created_at_unix_ms meta) (bytes_apparent stats) (file_count stats) in
  forall json, meta_to_vec_pretty meta' = Ok json ->
  exists w', take_snapshot rootfs dir meta w = (Ok meta', w') /\ files w' !! dir = Some CDir /\ files w' !! child dir "meta.json" = Some (CFile json) /\
    (forall r, files w' !! (child dir "rootfs" ++ r) = files w !! (rootfs ++ r)) /\ forall k, ~ dir `prefix_of` k -> files w' !! k = files w !! k.
Proof.
  intros [Cl Hsb] F E stats meta' json Hj. destruct (cl_dst _ _ _ Cl) as (p & n & Ed & Hp & Hpd). unfold take_snapshot.
  rewrite (exists_false _ _ (cl_free _ _ _ Cl)). unfold bind at 1.
  assert (create_dir_all dir w = (Ok tt, set_files (<[dir := CDir]> (files w)) w)) as ->.
  { pose proof (cl_free _ _ _ Cl) as Hfree. rewrite Ed in *. by apply create_dir_one; [|apply Cl| | |]. }
  set (w1 := set_files _ w).
  assert (forall k, k <> dir -> files w1 !! k = files w !! k) as H1 by (intros k Hk; cbn; by rewrite lookup_insert_ne).
  assert (files w1 !! dir = Some CDir) as Hd1 by apply lookup_insert_eq.
  assert (forall t, rootfs ++ t <> dir) as Hrd.
  { intros t. rewrite <- (app_nil_r dir). apply apart_app, Cl. }
  assert (clean (files w1) rootfs (child dir "rootfs")) as Cl1.
  { split.
    - cbn. rewrite Ed. apply tree_ok_insert; [apply Cl|done|done|rewrite <- Ed; apply (cl_plain _ _ _ Cl)|].
      intros t. rewrite <- Ed. by apply (clean_below (files w) rootfs).
    - apply Cl.
    - rewrite H1; [apply Cl|]. rewrite <- (app_nil_r rootfs). apply Hrd.
    - exists dir, "rootfs". split; [done|]. split; [rewrite Ed; apply child_ne|done].
    - rewrite H1; [by apply (clean_below (files w) rootfs dir)|]. apply snoc_ne.
    - rewrite has_nul_child, (cl_plain _ _ _ Cl). done.
    - apply apart_below, Cl. }
  unfold bind at 1. destruct (clone_tree_copies rootfs (child dir "rootfs") w1 0 Cl1 F E ltac:(lia)) as (w2 & -> & [Hi Ho] & F2 & _).
  assert (tree_stats (files w1) rootfs = stats) as -> by (apply tree_stats_agree; intros t; by apply H1, Hrd).
  fold meta'. assert (forall k, ~ child dir "rootfs" `prefix_of` k -> files w2 !! k = files w1 !! k) as H2 by done.
  assert (forall n, n <> "rootfs" -> files w2 !! child dir n = None) as Hfree.
  { intros n' Hn'. rewrite H2; [rewrite H1; [by apply (clean_below (files w) rootfs dir)|apply snoc_ne]|]. intros [t Et].
    by apply (child_app_ne dir n' "rootfs" t). }
  assert (files w2 !! dir = Some CDir) as Hd2 by (rewrite H2; [done|apply prefix_snoc_not]).
  unfold bind at 1.
  destruct (copy_profile_ok rootfs dir w2 F2 Hd2) as (m3 & -> & H3); [by apply Hfree| |].
  { rewrite H2, H1; [done|apply (Hrd [Normal "sandbox.sb"])|]. intros [t Et]. apply (apart_app rootfs dir [Normal "sandbox.sb"] ([Normal "rootfs"] ++ t)); [apply Cl|].
    rewrite app_assoc. exact Et. }
  rewrite Hj. unfold bind. rewrite (write_file_ok dir "meta.json" json (set_files m3 w2) F2).
  2: { cbn. rewrite H3; [done|]. apply not_eq_sym, snoc_ne. }
  2: { cbn. rewrite H3; [by apply Hfree|]. intros Eq%child_inj. done. }
  eexists. split; [done|]. cbn [files set_files]. split; [|split; [apply lookup_insert_eq|split]].
  - rewrite lookup_insert_ne by apply snoc_ne. rewrite H3; [done|]. apply not_eq_sym, snoc_ne.
  - intros r. rewrite lookup_insert_ne by by apply child_app_ne. rewrite H3.
    + rewrite Hi. apply H1, Hrd.
    + intros Eq. symmetry in Eq. by apply (child_app_ne dir "sandbox.sb.copy" "rootfs" r).
  - intros k Hk. assert (forall n t, k <> child dir n ++ t) as Hkd.
    { intros n' t ->. apply Hk. unfold child. rewrite <- app_assoc. by apply prefix_app_r. }
    rewrite lookup_insert_ne, H3, H2, H1; [done|by intros ->| | |].
    + intros [t Et]. by apply (Hkd "rootfs" t).
    + intros ->. apply (Hkd "sandbox.sb.copy" []). by rewrite app_nil_r.
    + intros <-. apply (Hkd "meta.json" []). by rewrite app_nil_r.
Qed.

(** C36: A snapshot restores the session it was taken of.  Taking one copies the
    tree of the session and describes it with the number and sizes of its
    files; whatever happens to the other files afterwards, the description
    reads back, and restoring to a free place gives exactly the files,
    directories and links the session had. *)
Theorem snapshot_roundtrip `{MetaSerde} rootfs dir meta w target :
  snapshottable (files w) rootfs dir -> faults w = [] -> errnos w = [] ->
  (forall meta, exists json, meta_to_vec_pretty meta = Ok json /\ meta_from_slice json = Ok meta) ->
  exists meta' w', take_snapshot rootfs dir meta w = (Ok meta', w') /\
    mkStats (sm_bytes_apparent meta') (sm_file_count meta') = tree_stats (files w) rootfs /\
  forall w1, faults w1 = [] -> errnos w1 = [] -> (forall t, files w1 !! (dir ++ t) = files w' !! (dir ++ t)) ->
    clean (files w1) (child dir "rootfs") target ->
    read_snapshot_meta dir w1 = (Ok (Some meta'), w1) /\
    exists w2, restore_snapshot dir target w1 = (Ok tt, w2) /\ (forall r, files w2 !! (target ++ r) = files w !! (rootfs ++ r)) /\
      forall k, ~ target `prefix_of` k -> files w2 !! k = files w1 !! k.
Proof.
  intros Hsn F E Hser. set (stats := tree_stats (files w) rootfs).
  set (meta' := mkMeta (sm_name meta) (source_session_id meta) (created_at_unix_ms meta) (bytes_apparent stats) (file_count stats)).
  destruct (Hser meta') as (json & Hj & Hr).
  destruct (take_snapshot_ok rootfs dir meta w Hsn F E json Hj) as (w' & Ht & Hd & Hm & Hi & _).
  exists meta', w'. split; [exact Ht|]. split; [by destruct stats|]. intros w1 F1 E1 Hsame Cl.
  assert (files w1 !! dir = Some CDir) as Hd1 by (rewrite <- (app_nil_r dir), Hsame, app_nil_r; done).
  assert (files w1 !! child dir "meta.json" = Some (CFile json)) as Hm1 by (unfold child; by rewrite Hsame).
  split.
  - unfold read_snapshot_meta. rewrite (exists_true _ _ _ Hm1), (read_file_ok _ json w1 F1 Hm1), Hr by done. done.
  - unfold restore_snapshot. rewrite (exists_true _ _ _ Hd1), (exists_false _ _ (cl_free _ _ _ Cl)), (exists_true _ _ _ (cl_dir _ _ _ Cl)) by done.
    cbn [negb]. unfold bind. destruct (clone_tree_copies (child dir "rootfs") target w1 0 Cl F1 E1 ltac:(lia)) as (w2 & -> & [Hi2 Ho2] & _).
    exists w2. split; [done|]. split; [|done]. intros r. rewrite Hi2. rewrite <- Hi. unfold child. rewrite <- !app_assoc. apply Hsame.
Qed.

(** ** Where the fallbacks stop *)

(** No file appears that was not there. *)
Definition no_new_files (m m' : Files) : Prop := forall k b, m' !! k = Some (CFile b) -> m !! k = Some (CFile b).
#[local] Instance no_new_files_preorder : PreOrder no_new_files.
Proof. split; [intros m k b; done|]. intros m1 m2 m3 H1 H2 k b H. apply H1, H2, H. Qed.
Lemma no_new_insert m k x : (forall b, x <> CFile b) -> no_new_files m (<[k := x]> m).
Proof. intros Hx q b. destruct (decide (q = k)) as [->|N]; [rewrite lookup_insert_eq|by rewrite lookup_insert_ne]. intros [= E]. by destruct (Hx b). Qed.
Lemma mkdirs_only_dirs ps : forall m m', mkdirs m ps = Some m' -> no_new_files m m' /\ forall k x, m !! k = Some x -> m' !! k = Some x.
Proof.
  induction ps as [|p ps IH]; intros m m'; cbn; [by intros [= <-]|]. unfold mkdir_one.
  destruct (stat m p) as [[]|]; cbn; [done|apply IH|done|]. destruct (m !! p) eqn:Ep; cbn; [done|]. intros [Hn Hk]%IH. split.
  - etrans; [|exact Hn]. by apply no_new_insert.
  - intros k x Hx. apply Hk. rewrite lookup_insert_ne; [done|]. congruence.
Qed.

(** The state of a call that copies nothing and runs nothing. *)
Definition keeps_root (dst : Path) (w w' : World) : Prop :=
  ran w' = ran w /\ (files w !! dst = Some CDir -> files w' !! dst = Some CDir).
#[local] Instance keeps_root_preorder dst : PreOrder (keeps_root dst).
Proof. split; [intros w; split; done|]. intros w1 w2 w3 [R1 D1] [R2 D2]. split; [congruence|auto]. Qed.
Lemma create_dir_keeps dst p w : keeps_root dst w (create_dir_all p w).2 /\ no_new_files (files w) (files (create_dir_all p w).2) /\
  errnos (create_dir_all p w).2 = errnos w.
Proof.
  unfold create_dir_all, faulty. destruct (default false _); [by repeat split|]. cbn [files].
  destruct (mkdirs (files w) (ancestors p)) as [m|] eqn:E; [|by repeat split]. destruct (mkdirs_only_dirs _ _ _ E) as [Hn Hk].
  split; [split; [done|by apply Hk]|done].
Qed.
Lemma clonefile_keeps dst s d w : dst `prefix_of` d -> keeps_root dst w (clonefile s d w).2.
Proof.
  intros P. unfold clonefile. repeat case_match; try (split; done); (split; [done|]); cbn [snd files set_files]; intros Hd;
    (rewrite graft_lookup, strip_prefix_None; [done|]); intros P'; assert (d = dst) by (by apply (anti_symm prefix)); congruence.
Qed.
Lemma retry_keeps dst s d backoffs : dst `prefix_of` d -> forall attempt w, keeps_root dst w (retry_loop backoffs attempt s d w).2.
Proof.
  intros P. induction backoffs as [|ms backoffs IH]; intros attempt w; cbn [retry_loop]; pose proof (clonefile_keeps dst s d w P) as Hc;
    destruct (clonefile s d w) as [[[]|] w1]; try exact Hc. etrans; [exact Hc|]. apply (IH _ (sleep ms w1)).
Qed.
Lemma clone_retry_keeps dst s d w : dst `prefix_of` d -> keeps_root dst w (clonefile_with_retry s d w).2.
Proof. intros P. unfold clonefile_with_retry. do 2 (case_match; [reflexivity|]). by apply retry_keeps. Qed.
(** On another volume every clone call fails. *)
Lemma clone_retry_refused s d w n : errnos w = replicate (S n) (Some EXDEV) ->
  exists e w', clonefile_with_retry s d w = (Err e, w') /\ files w' = files w /\ (errnos w' = errnos w \/ errnos w' = replicate n (Some EXDEV)).
Proof.
  intros He. unfold clonefile_with_retry. do 2 (case_match; [do 2 eexists; split; [done|]; auto|]).
  cbn [retry_loop EDEADLK_BACKOFFS_MS]. unfold clonefile at 1. rewrite He. do 2 eexists. split; [done|]. auto.
Qed.
Lemma replicate_weaken {A} n k (x : A) l : l = replicate n x \/ l = replicate (S n) x -> (k <= n)%nat -> exists j, (k <= j)%nat /\ l = replicate j x.
Proof. intros [->| ->] H; eexists; (split; [|reflexivity]); lia. Qed.

Lemma walk_keeps dst : forall c q st w, Forall (fun sd => dst `prefix_of` sd.2) q -> keeps_root dst w (walk c q st w).2.
Proof.
  intros c. induction c as [|b c IH]; intros [|[s d] q] st w Hq; cbn [walk]; try (split; done).
  apply Forall_cons in Hq as [Hd Hq]. cbn in Hd. destruct b; [split; done|].
  destruct (files w !! s) as [[b| |t]|]; [| | |by apply IH].
  - pose proof (clone_retry_keeps dst s d w Hd) as Hc. destruct (clonefile_with_retry s d w) as [[[]|e] w1]; (etrans; [exact Hc|by apply IH]).
  - assert (keeps_root dst w ((if exists_ (files w) d then ret tt else create_dir_all d) w).2) as Hm.
    { case_match; [reflexivity|]. apply create_dir_keeps. }
    set (c0 := (if exists_ (files w) d then ret tt else create_dir_all d) w) in *. destruct c0 as [[[]|e] w1]; [|exact Hm].
    etrans; [exact Hm|]. unfold read_dir, faulty. case_match; refine (IH _ st (snd (faulty w1)) _); [|done].
    apply Forall_app. split; [done|]. apply Forall_forall. intros ? (n & -> & _)%list_elem_of_fmap. cbn. by apply prefix_app_r.
  - unfold faulty. case_match eqn:El; [|exact (IH q st (snd (faulty w)) Hq)]. etrans; [|by apply IH]. split; [done|].
    intros Hd0. cbn. rewrite lookup_insert_ne; [done|]. intros ->. cbn in El. by rewrite Hd0 in El.
Qed.
Lemma walk_refused n : forall c q st w, errnos w = replicate n (Some EXDEV) -> (length c <= n)%nat ->
  no_new_files (files w) (files (walk c q st w).2) /\ match (walk c q st w).1 with Ok st' => st' = st | Err _ => True end.
Proof.
  intros c. revert n. induction c as [|b c IH]; intros n [|[s d] q] st w He Hn; cbn [walk]; try (split; done).
  destruct b; [split; done|]. cbn in Hn. destruct n as [|n]; [lia|].
  destruct (files w !! s) as [[b| |t]|].
  - destruct (clone_retry_refused s d w n He) as (e & w1 & -> & Hf & He1). rewrite <- Hf.
    destruct He1 as [He1|He1]; [rewrite He in He1; apply (IH (S n)); [done|lia]|apply (IH n); [done|lia]].
  - assert (no_new_files (files w) (files ((if exists_ (files w) d then ret tt else create_dir_all d) w).2) /\
      errnos ((if exists_ (files w) d then ret tt else create_dir_all d) w).2 = errnos w) as Hm.
    { case_match; [done|]. apply (create_dir_keeps d). }
    set (c0 := (if exists_ (files w) d then ret tt else create_dir_all d) w) in *. destruct c0 as [[[]|e] w1]; [|by destruct Hm].
    destruct Hm as [Hm He1]. cbn in Hm, He1. unfold read_dir, faulty.
    case_match; (match goal with |- context [walk c ?q1 st _] => destruct (IH (S n) q1 st (snd (faulty w1))) as [H1 H2] end;
      [change (errnos w1 = replicate (S n) (Some EXDEV)); congruence|lia|split; [etrans; [exact Hm|exact H1]|exact H2]]).
  - unfold faulty. case_match.
    + match goal with |- context [walk c q st ?w1] => destruct (IH (S n) q st w1) as [H1 H2] end; [done|lia|].
      split; [etrans; [|exact H1]|exact H2]. by apply no_new_insert.
    + apply (IH (S n) q st (snd (faulty w))); [done|lia].
  - apply (IH (S n)); [done|lia].
Qed.

(** A clone of the tree that fails leaves the files as they were. *)
Lemma retry_failed src dst : forall backoffs attempt w e w', retry_loop backoffs attempt src dst w = (Err e, w') -> files w' = files w /\ faults w' = faults w /\ clock w' = clock w.
Proof.
  intros backoffs. induction backoffs as [|ms backoffs IH]; intros attempt w e w'; cbn [retry_loop];
    assert (forall x w1, clonefile src dst w = (Some x, w1) -> files w1 = files w /\ faults w1 = faults w /\ clock w1 = clock w) as Hc
      by (unfold clonefile; intros x w1; repeat case_match; by intros [= _ <-]);
    destruct (clonefile src dst w) as [[[]|] w1]; try done; try (intros [= _ <-]; by eapply Hc).
  intros (Hf & Ha & Hk)%IH. destruct (Hc _ _ eq_refl) as (Hf' & Ha' & Hk'). cbn in *. split; [congruence|]. split; congruence.
Qed.
Lemma clone_tree_failed src dst w e w' : clean (files w) src dst -> faults w = [] -> clone_tree src dst w = (Err e, w') ->
  files w' = files w /\ faults w' = [] /\ clock w' = clock w /\ ran w' = ran w.
Proof.
  intros Cl F. rewrite (clone_tree_enter src dst w Cl F). unfold bind, clonefile_with_retry.
  rewrite (ok_plain _ (cl_tree _ _ _ Cl) src), (cl_plain _ _ _ Cl) by (rewrite (cl_dir _ _ _ Cl); by eexists).
  pose proof (retry_keeps dst src dst EDEADLK_BACKOFFS_MS (reflexivity _) 0 w) as [Hr _].
  destruct (retry_loop _ 0 src dst w) as [[[]|e'] w1] eqn:E.
  - unfold walk_stats. by destruct (stats_loop _ _ _ _).
  - intros [= -> ->]. apply retry_failed in E as (? & ? & ?). rewrite F in *. done.
Qed.

Lemma stats_loop_ran fuel : forall stack st w, ran (snd (stats_loop fuel stack st w)) = ran w.
Proof.
  induction fuel as [|fuel IH]; intros [|p stack] st w; cbn; try done.
  destruct (files w !! p) as [[]|]; try apply IH. unfold read_dir, faulty. cbn. case_match; by rewrite IH.
Qed.
Lemma clone_tree_ran src dst w : clean (files w) src dst -> faults w = [] -> ran (clone_tree src dst w).2 = ran w.
Proof.
  intros Cl F. rewrite (clone_tree_enter src dst w Cl F). unfold bind.
  pose proof (clone_retry_keeps dst src dst w (reflexivity _)) as [Hr _].
  destruct (clonefile_with_retry src dst w) as [[[]|e] w1]; [|done]. unfold walk_stats.
  pose proof (stats_loop_ran (S (size (files w1))) [dst] (mkStats 0 0) w1). destruct (stats_loop _ _ _ _). cbn in *. congruence.
Qed.
(** What the walk and the copy programs do together. *)
Definition walk_or_copy (src dst : Path) : M CloneStats := fun w =>
  match per_file_clone_walk src dst w with (Ok s, w) => (Ok s, w) | (Err _, w) => cp_c_r_fallback src dst w end.
Lemma walk_or_copy_runs_nothing src dst w : clean (files w) src dst -> faults w = [] ->
  let '(r, w') := walk_or_copy src dst w in
  ran w' = ran w /\
  forall n, errnos w = replicate n (Some EXDEV) -> (length (clock w) <= n)%nat ->
    no_new_files (files w) (files w') /\ (r = Ok (mkStats 0 0) \/ r = Err (DestinationExists dst)).
Proof.
  intros Cl F. destruct (cl_dst _ _ _ Cl) as (p & n & Ed & Hp & Hpd). unfold walk_or_copy, per_file_clone_walk.
  rewrite (exists_false _ _ (cl_free _ _ _ Cl)). unfold bind.
  assert (create_dir_all dst w = (Ok tt, set_files (<[dst := CDir]> (files w)) w)) as ->.
  { pose proof (cl_free _ _ _ Cl) as Hfree. rewrite Ed in *. by apply create_dir_one; [|apply Cl| | |]. }
  set (w1 := set_files _ w). assert (files w1 !! dst = Some CDir) as Hd1 by apply lookup_insert_eq.
  pose proof (walk_keeps dst (clock w1) [(src, dst)] (mkStats 0 0) w1) as Hk. pose proof (walk_refused) as Hx.
  destruct Hk as [Hr Hd]; [by repeat constructor|]. specialize (Hd Hd1).
  assert (forall n, errnos w = replicate n (Some EXDEV) -> (length (clock w) <= n)%nat ->
    no_new_files (files w) (files (walk (clock w1) [(src, dst)] (mkStats 0 0) w1).2) /\
    match (walk (clock w1) [(src, dst)] (mkStats 0 0) w1).1 with Ok st' => st' = mkStats 0 0 | Err _ => True end) as Hex.
  { intros j He Hj. destruct (walk_refused j (clock w1) [(src, dst)] (mkStats 0 0) w1 He Hj) as [H1 H2]. split; [|done].
    etrans; [|exact H1]. by apply no_new_insert. }
  destruct (walk (clock w1) [(src, dst)] (mkStats 0 0) w1) as [[st|e] w2]; cbn [fst snd] in *.
  - split; [exact Hr|]. intros j He Hj. destruct (Hex j He Hj) as [H1 ->]. auto.
  - unfold cp_c_r_fallback. rewrite (exists_true _ _ _ Hd) by done. split; [exact Hr|]. intros j He Hj. destruct (Hex j He Hj) as [H1 _]. auto.
Qed.

(** The last fallback is out of reach.  When the walk has begun it has made the
    destination, and the copy programs refuse to run when it exists; so neither
    of them ever runs, whatever the clone calls and the clock do.  In particular
    the files of another volume, where every clone call fails, are all skipped
    by the walk: no file is copied, and yet the outcome is a success with no
    files, or the error that says the destination was already there. *)
Theorem copy_programs_unreachable src dst w : clean (files w) src dst -> faults w = [] ->
  let '(r, w') := clone_tree_with_fallback src dst w in
  ran w' = ran w /\
  forall n, errnos w = replicate n (Some EXDEV) -> (length (clock w) < n)%nat ->
    no_new_files (files w) (files w') /\ (r = Ok (mkStats 0 0) \/ r = Err (DestinationExists dst)).
Proof.
  intros Cl F. unfold clone_tree_with_fallback. pose proof (clone_tree_ran src dst w Cl F) as Hran.
  assert (forall n, errnos w = replicate n (Some EXDEV) -> (length (clock w) < n)%nat ->
    exists w1, clone_tree src dst w = (Err (CloneUnsupported src dst), w1) /\ errnos w1 = replicate (n - 1) (Some EXDEV)) as Hx.
  { intros [|n] He Hn; [lia|]. rewrite (clone_tree_enter src dst w Cl F). unfold bind, clonefile_with_retry.
    rewrite (ok_plain _ (cl_tree _ _ _ Cl) src), (cl_plain _ _ _ Cl) by (rewrite (cl_dir _ _ _ Cl); by eexists).
    cbn [retry_loop EDEADLK_BACKOFFS_MS]. unfold clonefile at 1. rewrite He. eexists. split; [done|]. cbn. by rewrite Nat.sub_0_r. }
  destruct (clone_tree src dst w) as [[st|e] w1] eqn:E.
  { split; [done|]. intros n He Hn. destruct (Hx n He Hn) as (w2 & [=] & _). }
  destruct (clone_tree_failed src dst w e w1 Cl F E) as (Hf & F1 & Hc & _).
  pose proof (walk_or_copy_runs_nothing src dst w1) as Hw. rewrite Hf in Hw. specialize (Hw Cl F1). unfold walk_or_copy in Hw. cbn in Hran.
  destruct e; try (split; [done|]; intros n He Hn; by destruct (Hx n He Hn) as (w2 & [=] & _));
    (destruct (match per_file_clone_walk src dst w1 with (Ok s, w) => (Ok s, w) | (Err _, w) => cp_c_r_fallback src dst w end) as [r w2];
     destruct Hw as [Hw1 Hw2]; split; [congruence|]; intros n He Hn; destruct (Hx n He Hn) as (w3 & E3 & He1); try done; simplify_eq;
     apply (Hw2 (n - 1)%nat); first [done|rewrite Hc; lia]).
Qed.
End Complete.
End CloneSpec.

Module CloneExamples.
Import Clone CloneSpec JsonTree.

(** A host whose links lead nowhere and whose [cp] copies. *)
#[export] Instance toy_host : Host := {|
  leads_to _ _ := [];
  dir_order _ l := l;
  dir_order_perm _ l := reflexivity l;
  cp_cr m s d := Ok (true, graft m s d);
  ditto m s d := Ok (true, graft m s d)
|}.
#[export] Instance toy_host_laws : HostLaws.
Proof. split; intros m s d b m' [= _ <-]; by apply outside_graft. Qed.

(** Trees by computation. *)
Definition entry_ok (m : Files) (e : Path * cnode) : bool :=
  negb (has_nul e.1) &&
  match last e.1 with
  | Some c => bool_decide (parent e.1 = []) || (bool_decide (m !! parent e.1 = Some CDir) && match c with Normal _ => true | _ => false end)
  | None => true
  end.
Lemma tree_ok_check m : forallb (entry_ok m) (map_to_list m) = true -> tree_ok m.
Proof.
  rewrite forallb_forall. intros H.
  assert (forall p x, m !! p = Some x -> entry_ok m (p, x) = true) as He.
  { intros p x Hp. apply H, list_elem_of_In, elem_of_map_to_list, Hp. }
  split.
  - intros p c Hp [x Hx]. specialize (He _ _ Hx). unfold entry_ok in He. cbn in He. apply andb_true_iff in He as [_ He].
    rewrite last_snoc, parent_snoc in He. rewrite (bool_decide_eq_false_2 (p = [])) in He by done. cbn in He.
    apply andb_true_iff in He as [Hd%bool_decide_eq_true Hc]. destruct c; try done. eauto.
  - intros p [x Hx]. specialize (He _ _ Hx). unfold entry_ok in He. cbn in He. by apply andb_true_iff in He as [?%negb_true_iff _].
Qed.

Definition pth : string -> Path := path_of_string.
Definition hello : list byte := String.list_byte_of_string "hello".
Definition home : Files := list_to_map
  [(pth "/", CDir); (pth "/s", CDir); (pth "/h", CDir); (pth "/h/docs", CDir); (pth "/h/docs/a.txt", CFile hello);
   (pth "/h/docs/sub", CDir); (pth "/h/docs/sub/b.txt", CFile hello); (pth "/h/docs/link", CLink "../a.txt"); (pth "/h/rc", CFile hello)].
Definition world (errnos : list (option Errno)) (faults : list bool) : World := mkWorld home errnos faults (replicate 20 false) [] [].
Lemma home_ok : tree_ok home.
Proof. apply tree_ok_check. vm_compute. reflexivity. Qed.
Lemma home_clean : clean home (pth "/h/docs") (pth "/s/docs").
Proof.
  split; [exact home_ok|done|vm_compute; reflexivity| |vm_compute; reflexivity|vm_compute; reflexivity|].
  - exists (pth "/s"), "docs". split; [done|]. split; [done|]. vm_compute. reflexivity.
  - split; apply (bool_decide_unpack _); vm_compute; exact I.
Qed.


(** A description as the number of its text's bytes. *)
#[export] Instance meta_eq_dec : EqDecision SnapshotMeta.
Proof. solve_decision. Defined.
#[export] Instance meta_countable : Countable SnapshotMeta.
Proof.
  refine (inj_countable' (fun m => (sm_name m, source_session_id m, created_at_unix_ms m, sm_bytes_apparent m, sm_file_count m))
    (fun '(a, b, c, d, e) => mkMeta a b c d e) _).
  by intros [].
Defined.
#[export] Instance count_serde : MetaSerde := {|
  meta_to_vec_pretty m := Ok (replicate (Pos.to_nat (encode m)) Byte.x00);
  meta_from_slice l := match decode (Pos.of_nat (length l)) with Some m => Ok m | None => Err "unread" end
|}.
Lemma count_serde_roundtrip (meta : SnapshotMeta) : exists json, meta_to_vec_pretty meta = Ok json /\ meta_from_slice json = Ok meta.
Proof. eexists. split; [reflexivity|]. cbn. by rewrite length_replicate, Pos2Nat.id, decode_encode. Qed.

Lemma snap_clean : clean home (pth "/h/docs") (pth "/s/snap").
Proof.
  split; [exact home_ok|done|vm_compute; reflexivity| |vm_compute; reflexivity|vm_compute; reflexivity|].
  - exists (pth "/s"), "snap". split; [done|]. split; [done|]. vm_compute. reflexivity.
  - split; apply (bool_decide_unpack _); vm_compute; exact I.
Qed.
Lemma snapshot_roundtrip_witness : exists meta' w',
  take_snapshot (pth "/h/docs") (pth "/s/snap") (mkMeta "s1" "agent" 7 0 0) (world [] []) = (Ok meta', w') /\ sm_file_count meta' = 2%Z.
Proof.
  assert (snapshottable home (pth "/h/docs") (pth "/s/snap")) as Hs.
  { split; [exact snap_clean|]. assert (home !! child (pth "/h/docs") "sandbox.sb" = None) as -> by (vm_compute; reflexivity). exact I. }
  destruct (snapshot_roundtrip (pth "/h/docs") (pth "/s/snap") (mkMeta "s1" "agent" 7 0 0) (world [] []) (pth "/s/back") Hs eq_refl eq_refl
    count_serde_roundtrip) as (meta' & w' & E & S & _).
  exists meta', w'. split; [exact E|].
  assert (tree_stats home (pth "/h/docs") = mkStats 10 2) as T by (vm_compute; reflexivity).
  change (files (world [] [])) with home in S. rewrite T in S. now injection S.
Defined.

Lemma cloning_confined_witness : outside_kept (pth "/s")
  home (files (snd (clone_user_dirs [mkInherit (pth "/h/docs") ReadWrite] (pth "/s") (world [] [])))).
Proof. exact (proj1 (cloning_confined (world [] [])) [mkInherit (pth "/h/docs") ReadWrite] (pth "/s")). Defined.

Lemma copy_programs_unreachable_witness :
  ran (snd (clone_tree_with_fallback (pth "/h/docs") (pth "/s/docs") (world (replicate 30 (Some EXDEV)) []))) = [].
Proof.
  pose proof (copy_programs_unreachable (pth "/h/docs") (pth "/s/docs") (world (replicate 30 (Some EXDEV)) []) home_clean eq_refl) as H.
  destruct (clone_tree_with_fallback _ _ _) as [r w']. exact (proj1 H).
Defined.
(** An outcome, and what it leaves at some paths. *)
Definition seen {A} (ps : list string) (o : result A SandboxError * World) : result A SandboxError * list (option cnode) :=
  (o.1, map (fun p => files o.2 !! pth p) ps).
(** The directories and links of another volume are made, and no file. *)
Example cross_volume_outcome :
  seen ["/s/docs/sub"; "/s/docs/link"; "/s/docs/a.txt"]
    (clone_tree_with_fallback (pth "/h/docs") (pth "/s/docs") (world (replicate 30 (Some EXDEV)) []))
  = (Ok (mkStats 0 0), [Some CDir; Some (CLink "../a.txt"); None]).
Proof. vm_compute. reflexivity. Qed.
(** A file whose clone call fails for good becomes an empty directory. *)
Example file_becomes_directory :
  seen ["/s/rc"] (clone_tree_with_fallback (pth "/h/rc") (pth "/s/rc") (world (replicate 6 (Some EDEADLK)) []))
  = (Ok (mkStats 0 0), [Some CDir]).
Proof. vm_compute. reflexivity. Qed.
(** A directory that cannot be made in the middle of the walk ends it: the
    partial copy is taken for one that was there before, and nothing says so. *)
Example partial_copy_kept :
  seen ["/s/docs"; "/s/docs/sub"]
    (clone_user_dirs [mkInherit (pth "/h/docs") ReadWrite] (pth "/s")
       (world (replicate 6 (Some EDEADLK)) [false; false; false; false; false; true]))
  = (Ok [], [Some CDir; None]).
Proof. vm_compute. reflexivity. Qed.

End CloneExamples.
