(* ===== verification/Merge.v ===== *)
(** * Merge: promoting session files back to the host

    Models [sandbox/src/merge.rs]: the [rsync] plan, and the line diff with its
    longest-common-subsequence table. *)
From Stdlib Require Import Ascii.
From S2P Require Import Prelude Text Sandbox.
Import Text.

Module Merge.

Inductive MergeStrategy : Type := Ours | Theirs | Prompt | ThreeWay.
#[export] Instance MergeStrategy_eq_dec : EqDecision MergeStrategy.
Proof. solve_decision. Defined.

Definition as_str (s : MergeStrategy) : string :=
  match s with
  | Ours => "ours" | Theirs => "theirs" | Prompt => "prompt" | ThreeWay => "three-way"
  end.

Record MergePlan := mkPlan {
  session_rootfs : Path; paths : list Path; strategy : MergeStrategy; dry_run : bool
}.
Record MergeReport := mkReport {
  considered : Z; copied : Z; skipped_unchanged : Z; skipped_conflicting : Z;
  itemize_lines : list string
}.

(** ** Lines of text ([str::lines]) *)

Fixpoint split_inclusive (s : string) : list (string * bool) :=
  match s with
  | EmptyString => []
  | String c s =>
      if decide (c = Sandbox.newline) then ("", true) :: split_inclusive s
      else match split_inclusive s with
           | [] => [(String c "", false)]
           | (l, t) :: rest => (String c l, t) :: rest
           end
  end.
Fixpoint strip_cr (s : string) : string :=
  match s with
  | EmptyString => ""
  | String c EmptyString => if decide (c = "013"%char) then "" else s
  | String c s' => String c (strip_cr s')
  end.
Definition lines (s : string) : list string :=
  map (fun '(l, terminated) => if (terminated : bool) then strip_cr l else l) (split_inclusive s).

(** ** [MergePlan::execute] *)

Definition first_char (s : string) : option ascii :=
  match s with String c _ => Some c | EmptyString => None end.

Definition count_line (r : MergeReport) (line : string) : MergeReport :=
  let r := mkReport (considered r) (copied r) (skipped_unchanged r) (skipped_conflicting r)
             (itemize_lines r ++ [line]) in
  if bool_decide (first_char line = Some ">"%char) || bool_decide (first_char line = Some "<"%char)
  then mkReport (considered r) (copied r + 1) (skipped_unchanged r) (skipped_conflicting r)
         (itemize_lines r)
  else if bool_decide (first_char line = Some "."%char)
  then mkReport (considered r) (copied r) (skipped_unchanged r + 1) (skipped_conflicting r)
         (itemize_lines r)
  else r.

Definition strategy_args (s : MergeStrategy) : list string :=
  match s with
  | Ours => ["--ignore-existing"]
  | Theirs => []
  | Prompt => ["--dry-run"]
  | ThreeWay => ["--ignore-existing"]
  end.

Section Execute.
Context `{Os}.
(** One run of [rsync]: its standard output and success, or a spawn error. *)
Variable rsync : list string -> result (string * bool) string.

Definition rsync_args (plan : MergePlan) (agent_path host : Path) : list string :=
  ["-aHAX"; "--itemize-changes"]
  ++ (if dry_run plan then ["--dry-run"] else [])
  ++ strategy_args (strategy plan)
  ++ [if path_is_dir agent_path then path_to_string agent_path +:+ "/" else path_to_string agent_path;
      path_to_string host].

Definition agent_path_of (plan : MergePlan) (home host : Path) : Path :=
  let rel := match strip_prefix host home with Some r => r | None => host end in
  join (session_rootfs plan) rel.

(** The loop of [execute]; the second component is the commands run. *)
Fixpoint execute_loop (plan : MergePlan) (home : Path) (ps : list Path) (r : MergeReport)
    (ran : list (list string)) : result MergeReport SandboxError * list (list string) :=
  match ps with
  | [] => (Ok r, ran)
  | host :: ps =>
      let r := mkReport (considered r + 1) (copied r) (skipped_unchanged r)
                 (skipped_conflicting r) (itemize_lines r) in
      let agent_path := agent_path_of plan home host in
      if negb (path_exists agent_path) then execute_loop plan home ps r ran
      else
        let args := rsync_args plan agent_path host in
        match rsync args with
        | Err e => (Err (RsyncFailed ("spawn rsync: " +:+ e)), ran)
        | Ok (stdout, success) =>
            let r := foldl count_line r (lines stdout) in
            let ran := ran ++ [args] in
            if success then execute_loop plan home ps r ran
            else (Err (RsyncFailed ("rsync exit for " +:+ path_to_string host)), ran)
        end
  end.

Definition execute (plan : MergePlan) : result MergeReport SandboxError * list (list string) :=
  match home_dir with
  | None => (Err HomeDirUnresolvable, [])
  | Some home => execute_loop plan home (paths plan) (mkReport 0 0 0 0 []) []
  end.

End Execute.

(** ** [lcs_lines] *)

Definition dp_get (dp : list (list nat)) (i j : nat) : nat :=
  default O (dp !! i ≫= fun r => r !! j).
Definition dp_set (dp : list (list nat)) (i j v : nat) : list (list nat) :=
  alter (fun r => <[j := v]> r) i dp.

Section Lcs.
Variables a b : list string.

Definition dp_cell (dp : list (list nat)) (i j : nat) : nat :=
  if decide (a !! i = b !! j) then (dp_get dp i j + 1)%nat
  else Nat.max (dp_get dp (i + 1) j) (dp_get dp i (j + 1)).
Definition dp_row (dp : list (list nat)) (i : nat) : list (list nat) :=
  foldl (fun dp j => dp_set dp (i + 1) (j + 1) (dp_cell dp i j)) dp (seq 0 (length b)).
Definition dp_table : list (list nat) :=
  foldl dp_row (replicate (length a + 1) (replicate (length b + 1) O)) (seq 0 (length a)).

(** Reading a longest common subsequence off the table, last pair first. *)
Fixpoint trace (fuel : nat) (dp : list (list nat)) (i j : nat) (out : list (nat * nat))
    : list (nat * nat) :=
  match fuel, i, j with
  | S fuel, S i', S j' =>
      if decide (a !! i' = b !! j') then trace fuel dp i' j' (out ++ [(i', j')])
      else if (dp_get dp i j' <=? dp_get dp i' j)%nat then trace fuel dp i' j out
      else trace fuel dp i j' out
  | _, _, _ => out
  end.

Definition lcs_lines : list (nat * nat) :=
  if (length a =? 0)%nat || (length b =? 0)%nat then []
  else reverse (trace (length a + length b) dp_table (length a) (length b) []).

End Lcs.

(** ** [render_unified_diff] *)

Inductive edit : Type := Del (s : string) | Add (s : string) | Ctx (s : string).
Definition fmt_edit (e : edit) : string :=
  match e with
  | Del s => "-" +:+ s +:+ Sandbox.nl
  | Add s => "+" +:+ s +:+ Sandbox.nl
  | Ctx s => " " +:+ s +:+ Sandbox.nl
  end.

(** The inner loops push lines [i..hi]; [None] is an out-of-range index. *)
Definition push_lines (f : string -> edit) (l : list string) (i hi : nat) : option (list edit) :=
  mapM (fun k => f <$> l !! k) (seq i (hi - i)).

Fixpoint diff_loop (lhs rhs : list string) (lcs : list (nat * nat)) (i j : nat)
    : option (list edit) :=
  if negb ((i <? length lhs)%nat || (j <? length rhs)%nat) then Some []
  else
    match lcs with
    | (ci, cj) :: lcs =>
        dels ← push_lines Del lhs i ci;
        adds ← push_lines Add rhs j cj;
        let i := Nat.max i ci in
        let j := Nat.max j cj in
        s ← lhs !! i;
        rest ← diff_loop lhs rhs lcs (i + 1) (j + 1);
        Some (dels ++ adds ++ Ctx s :: rest)
    | [] =>
        dels ← push_lines Del lhs i (length lhs);
        adds ← push_lines Add rhs j (length rhs);
        Some (dels ++ adds)
    end.

Definition render_unified_diff (left_label right_label left right : string) : option string :=
  let lhs := lines left in
  let rhs := lines right in
  hunk ← diff_loop lhs rhs (lcs_lines lhs rhs) 0 0;
  Some ("--- " +:+ left_label +:+ Sandbox.nl +:+ "+++ " +:+ right_label +:+ Sandbox.nl
        +:+ Sandbox.concat_str (map fmt_edit hunk)).

(** Where a session's files live. *)
Definition session_rootfs_of `{Os} (session_id : string) : result Path SandboxError :=
  match home_dir with
  | None => Err HomeDirUnresolvable
  | Some home =>
      Ok (join (join (join home [Normal ".one-for-all"]) [Normal "sessions"])
            (path_of_string session_id))
  end.

(** ** Longest common subsequences *)

Section LcsProof.
Variables a b : list string.

Definition common (i j : nat) (c : list string) : Prop :=
  c `sublist_of` take i a /\ c `sublist_of` take j b.
Definition is_lcs (i j v : nat) : Prop :=
  (exists c, common i j c /\ length c = v) /\ forall c, common i j c -> (length c <= v)%nat.

Lemma is_lcs_unique i j v w : is_lcs i j v -> is_lcs i j w -> v = w.
Proof.
  intros [(c & Hc & <-) Hmax] [(d & Hd & <-) Hmax'].
  apply Nat.le_antisymm; auto.
Qed.

Lemma common_zero i j c : i = O \/ j = O -> common i j c -> c = [].
Proof.
  intros [->| ->] [Ha Hb]; rewrite take_0 in *; by apply sublist_nil_r.
Qed.

Lemma is_lcs_zero i j : i = O \/ j = O -> is_lcs i j 0.
Proof.
  intros Hz. split.
  - exists []. split; [split; apply sublist_nil_l|done].
  - intros c Hc. by rewrite (common_zero i j c Hz Hc).
Qed.

(** A subsequence of [x ++ [s]] either ends with [s] or is one of [x]. *)
Lemma sublist_snoc_inv (c x : list string) s : c `sublist_of` x ++ [s] ->
  c `sublist_of` x \/ exists d, c = d ++ [s] /\ d `sublist_of` x.
Proof.
  intros (c1 & c2 & -> & H1 & H2)%sublist_app_r.
  apply sublist_cons_r in H2 as [H2|(d & -> & H2)].
  - apply sublist_nil_r in H2 as ->. rewrite app_nil_r. auto.
  - apply sublist_nil_r in H2 as ->. right. eauto.
Qed.

Lemma sublist_snoc_le (c x : list string) s : c ++ [s] `sublist_of` x -> c `sublist_of` x.
Proof. intros H. etransitivity; [|exact H]. by apply sublist_inserts_r. Qed.

Lemma is_lcs_eq i j s v : a !! i = Some s -> b !! j = Some s ->
  is_lcs i j v -> is_lcs (S i) (S j) (S v).
Proof.
  intros Ha Hb [(c & [Hc1 Hc2] & <-) Hmax]. unfold is_lcs, common.
  rewrite (take_S_r _ _ s Ha), (take_S_r _ _ s Hb). split.
  - exists (c ++ [s]). rewrite length_app. simpl. split; [|lia]. split; by apply sublist_app.
  - intros d [Hd1 Hd2].
    apply sublist_snoc_inv in Hd1 as [Hd1|(d1 & -> & Hd1)];
      apply sublist_snoc_inv in Hd2 as [Hd2|(d2 & E & Hd2)].
    + apply Nat.le_le_succ_r, Hmax. done.
    + subst d. rewrite length_app. simpl. assert (length d2 <= length c)%nat; [|lia].
      apply Hmax. split; [by apply sublist_snoc_le in Hd1|done].
    + rewrite length_app. simpl. assert (length d1 <= length c)%nat; [|lia].
      apply Hmax. split; [done|by apply sublist_snoc_le in Hd2].
    + apply app_inj_tail in E as [-> _]. rewrite length_app. simpl.
      assert (length d2 <= length c)%nat; [by apply Hmax|lia].
Qed.

Lemma common_mono i i' j j' c : (i <= i')%nat -> (j <= j')%nat -> common i j c -> common i' j' c.
Proof.
  intros Hi Hj [H1 H2]. split; [etransitivity; [exact H1|] | etransitivity; [exact H2|]].
  - replace (take i a) with (take i (take i' a)) by (rewrite take_take; f_equal; lia).
    apply sublist_take.
  - replace (take j b) with (take j (take j' b)) by (rewrite take_take; f_equal; lia).
    apply sublist_take.
Qed.

Lemma is_lcs_ne i j s t u w : a !! i = Some s -> b !! j = Some t -> s <> t ->
  is_lcs (S i) j u -> is_lcs i (S j) w -> is_lcs (S i) (S j) (Nat.max u w).
Proof.
  intros Ha Hb Hst [(cu & Hu & Lu) Hmu] [(cw & Hw & Lw) Hmw]. split.
  - destruct (Nat.max_spec u w) as [[_ ->]|[_ ->]].
    + exists cw. split; [|done]. revert Hw. apply common_mono; lia.
    + exists cu. split; [|done]. revert Hu. apply common_mono; lia.
  - intros c [Hc1 Hc2]. assert (Hc1' := Hc1). assert (Hc2' := Hc2).
    rewrite (take_S_r _ _ s Ha) in Hc1. rewrite (take_S_r _ _ t Hb) in Hc2.
    apply sublist_snoc_inv in Hc1 as [Hc1|(d1 & -> & _)].
    + assert (length c <= w)%nat by (apply Hmw; done). lia.
    + apply sublist_snoc_inv in Hc2 as [Hc2|(d2 & E & _)].
      * assert (length (d1 ++ [s]) <= u)%nat by (apply Hmu; done). lia.
      * apply app_inj_tail in E as [_ E]. done.
Qed.

(** ** The table *)

Definition shape (dp : list (list nat)) : Prop :=
  length dp = (length a + 1)%nat /\ Forall (fun r => length r = (length b + 1)%nat) dp.
(** Cells up to row [i] and, in row [S i], up to column [j] hold the lengths;
    the first row and column are zero. *)
Definition filled (i j : nat) (dp : list (list nat)) : Prop :=
  shape dp
  /\ (forall x y, (x <= length a)%nat -> (y <= length b)%nat ->
      (x <= i)%nat \/ y = O \/ (x = S i /\ (y <= j)%nat) -> is_lcs x y (dp_get dp x y)).

Lemma dp_get_set dp i j v x y : shape dp -> (i <= length a)%nat -> (j <= length b)%nat ->
  dp_get (dp_set dp i j v) x y = if decide (x = i /\ y = j) then v else dp_get dp x y.
Proof.
  intros [Hl Hr] Hi Hj. unfold dp_get, dp_set. rewrite list_lookup_alter.
  destruct (decide (i = x)) as [->|Hne]; [|rewrite decide_False by naive_solver; done].
  destruct (dp !! x) as [r|] eqn:E; simpl.
  - pose proof (proj1 (Forall_lookup _ _) Hr _ _ E) as Hlr. simpl in Hlr.
    destruct (decide (j = y)) as [->|Hny].
    + rewrite list_lookup_insert_eq by lia. by rewrite decide_True.
    + rewrite list_lookup_insert_ne by done. rewrite decide_False by naive_solver. done.
  - apply lookup_ge_None in E. lia.
Qed.

Lemma shape_set dp i j v : shape dp -> shape (dp_set dp i j v).
Proof.
  intros [Hl Hr]. split; unfold dp_set; [by rewrite length_alter|].
  apply Forall_alter; [done|]. intros r _ ?. by rewrite length_insert.
Qed.

Lemma filled_init : filled 0 0 (replicate (length a + 1) (replicate (length b + 1) O)).
Proof.
  split.
  - split; [by rewrite length_replicate|]. apply Forall_replicate, length_replicate.
  - intros x y Hx Hy Hz. unfold dp_get. rewrite lookup_replicate_2 by lia. simpl.
    rewrite lookup_replicate_2 by lia. apply is_lcs_zero. lia.
Qed.

Lemma filled_cell i j dp : (i < length a)%nat -> (j < length b)%nat ->
  filled i j dp -> filled i (S j) (dp_set dp (i + 1) (j + 1) (dp_cell a b dp i j)).
Proof.
  intros Hi Hj [Hs Hf]. split; [by apply shape_set|]. intros x y Hx Hy Hz.
  rewrite dp_get_set by (done || lia).
  destruct (decide (x = (i + 1)%nat /\ y = (j + 1)%nat)) as [[-> ->]|Hne].
  - destruct (lookup_lt_is_Some_2 a i Hi) as [s Es]. destruct (lookup_lt_is_Some_2 b j Hj) as [t Et].
    unfold dp_cell. rewrite Es, Et. rewrite !Nat.add_1_r. case_decide as E.
    + injection E as ->. eapply is_lcs_eq; [done..|]. apply Hf; lia.
    + apply (is_lcs_ne i j s t); [done|done|congruence| |]; apply Hf; lia.
  - apply Hf; [done|done|]. destruct Hz as [?|[?|[? ?]]]; auto.
    right. right. split; [done|]. lia.
Qed.

Lemma filled_row i dp : (i < length a)%nat -> filled i 0 dp -> filled (S i) 0 (dp_row a b dp i).
Proof.
  intros Hi Hf.
  assert (H : forall k, (k <= length b)%nat -> filled i k
    (foldl (fun dp j => dp_set dp (i + 1) (j + 1) (dp_cell a b dp i j)) dp (seq 0 k))).
  { induction k as [|k IH]; intros Hk; [done|].
    rewrite seq_S, foldl_snoc. simpl. apply filled_cell; [done|lia|]. apply IH. lia. }
  destruct (H (length b) ltac:(lia)) as [Hs Hall]. split; [done|].
  intros x y Hx Hy Hz. apply Hall; [done|done|]. lia.
Qed.

Lemma dp_table_correct x y : (x <= length a)%nat -> (y <= length b)%nat ->
  is_lcs x y (dp_get (dp_table a b) x y).
Proof.
  assert (H : forall k, (k <= length a)%nat -> filled k 0
    (foldl (dp_row a b) (replicate (length a + 1) (replicate (length b + 1) O)) (seq 0 k))).
  { induction k as [|k IH]; intros Hk; [apply filled_init|].
    rewrite seq_S, foldl_snoc. simpl. apply filled_row; [lia|]. apply IH. lia. }
  destruct (H (length a) ltac:(lia)) as [_ Hall]. intros Hx Hy. apply Hall; auto.
Qed.

(** ** Reading the table *)

Definition matched (p q : nat) : Prop := exists s, a !! p = Some s /\ b !! q = Some s.

(** Matching pairs, increasing in both coordinates, from [(i, j)] below [(hi, hj)]. *)
Fixpoint increasing (hi hj i j : nat) (ps : list (nat * nat)) : Prop :=
  match ps with
  | [] => (i <= hi)%nat /\ (j <= hj)%nat
  | (p, q) :: ps => (i <= p)%nat /\ (j <= q)%nat /\ matched p q /\ increasing hi hj (S p) (S q) ps
  end.

Lemma increasing_snoc p q hi hj ps : matched p q -> (p < hi)%nat -> (q < hj)%nat ->
  forall i j, increasing p q i j ps -> increasing hi hj i j (ps ++ [(p, q)]).
Proof.
  intros Hm Hp Hq. induction ps as [|[p' q'] ps IH]; intros i j; simpl; [|naive_solver].
  intros [? ?]. split_and!; done || lia.
Qed.

Lemma increasing_mono hi hj hi' hj' ps : (hi <= hi')%nat -> (hj <= hj')%nat ->
  forall i j, increasing hi hj i j ps -> increasing hi' hj' i j ps.
Proof.
  intros Hi Hj. induction ps as [|[p q] ps IH]; intros i j; simpl; [lia|naive_solver].
Qed.

Lemma trace_spec fuel : forall i j out,
  (i <= length a)%nat -> (j <= length b)%nat -> (i + j <= fuel)%nat ->
  exists T, trace a b fuel (dp_table a b) i j out = out ++ T
    /\ increasing i j 0 0 (reverse T) /\ is_lcs i j (length T).
Proof.
  induction fuel as [|fuel IH]; intros i j out Hi Hj Hf.
  { exists []. rewrite app_nil_r. destruct i, j; try lia. split_and!; [done|simpl; lia..|].
    apply is_lcs_zero. auto. }
  destruct i as [|i]; [|destruct j as [|j]].
  1,2: exists []; rewrite app_nil_r; simpl; (split; [done|split; [lia|apply is_lcs_zero; auto]]).
  destruct (lookup_lt_is_Some_2 a i ltac:(lia)) as [s Es].
  destruct (lookup_lt_is_Some_2 b j ltac:(lia)) as [t Et].
  cbn [trace]. rewrite Es, Et. case_decide as E.
  - injection E as <-.
    destruct (IH i j (out ++ [(i, j)])) as (T & -> & Hinc & Hl); [lia..|].
    exists ((i, j) :: T). rewrite <- app_assoc. split; [done|]. rewrite reverse_cons. split.
    + apply increasing_snoc; [by exists s|lia|lia|done].
    + simpl. by eapply is_lcs_eq.
  - pose proof (dp_table_correct (S i) j ltac:(lia) ltac:(lia)) as Hu.
    pose proof (dp_table_correct i (S j) ltac:(lia) ltac:(lia)) as Hw.
    pose proof (is_lcs_ne i j s t _ _ Es Et ltac:(congruence) Hu Hw) as Hm.
    destruct (Nat.leb_spec (dp_get (dp_table a b) (S i) j) (dp_get (dp_table a b) i (S j))) as [Hle|Hlt].
    + destruct (IH i (S j) out) as (T & -> & Hinc & Hl); [lia..|].
      exists T. split; [done|]. split; [by eapply increasing_mono; [..|exact Hinc]; lia|].
      rewrite (is_lcs_unique _ _ _ _ Hl Hw). by rewrite Nat.max_r in Hm by lia.
    + destruct (IH (S i) j out) as (T & -> & Hinc & Hl); [lia..|].
      exists T. split; [done|]. split; [by eapply increasing_mono; [..|exact Hinc]; lia|].
      rewrite (is_lcs_unique _ _ _ _ Hl Hu). by rewrite Nat.max_l in Hm by lia.
Qed.

Lemma lcs_lines_correct :
  increasing (length a) (length b) 0 0 (lcs_lines a b)
  /\ is_lcs (length a) (length b) (length (lcs_lines a b)).
Proof.
  unfold lcs_lines.
  destruct (Nat.eqb_spec (length a) 0) as [Ea|Ea]; simpl.
  { split; [lia|]. apply is_lcs_zero. auto. }
  destruct (Nat.eqb_spec (length b) 0) as [Eb|Eb]; simpl.
  { split; [lia|]. apply is_lcs_zero. auto. }
  destruct (trace_spec (length a + length b) (length a) (length b) []) as (T & -> & Hinc & Hl);
    [lia..|]. simpl. rewrite length_reverse. done.
Qed.

End LcsProof.

(** ** The diff *)

Definition old_lines (es : list edit) : list string :=
  es ≫= fun e => match e with Del s | Ctx s => [s] | Add _ => [] end.
Definition new_lines (es : list edit) : list string :=
  es ≫= fun e => match e with Add s | Ctx s => [s] | Del _ => [] end.
Definition kept_lines (es : list edit) : list string :=
  es ≫= fun e => match e with Ctx s => [s] | _ => [] end.

Lemma push_lines_spec f l n : forall i, (i + n <= length l)%nat ->
  push_lines f l i (i + n) = Some (map f (take n (drop i l))).
Proof.
  unfold push_lines. induction n as [|n IH]; intros i Hi.
  - by replace (i + 0 - i)%nat with O by lia.
  - replace (i + S n - i)%nat with (S (S i + n - S i)) by lia. cbn [seq mapM].
    destruct (lookup_lt_is_Some_2 l i ltac:(lia)) as [x Ex].
    cbn [mbind option_bind]. rewrite Ex. simpl.
    specialize (IH (S i) ltac:(lia)). simpl in IH. rewrite IH. simpl.
    by rewrite (drop_S l x i Ex).
Qed.

Lemma push_lines_range f l i hi : (i <= hi <= length l)%nat ->
  push_lines f l i hi = Some (map f (take (hi - i) (drop i l))).
Proof.
  intros H. rewrite <- (push_lines_spec f l (hi - i) i) by lia. f_equal. lia.
Qed.

Lemma projections_dels ss :
  old_lines (map Del ss) = ss /\ new_lines (map Del ss) = [] /\ kept_lines (map Del ss) = [].
Proof.
  unfold old_lines, new_lines, kept_lines. induction ss as [|s ss (A & B & C)]; [done|].
  cbn [map mbind list_bind app] in *. by rewrite A, B, C.
Qed.

Lemma projections_adds ss :
  old_lines (map Add ss) = [] /\ new_lines (map Add ss) = ss /\ kept_lines (map Add ss) = [].
Proof.
  unfold old_lines, new_lines, kept_lines. induction ss as [|s ss (A & B & C)]; [done|].
  cbn [map mbind list_bind app] in *. by rewrite A, B, C.
Qed.

Lemma drop_split (l : list string) i p s : (i <= p)%nat -> l !! p = Some s ->
  drop i l = take (p - i) (drop i l) ++ s :: drop (S p) l.
Proof.
  intros Hi Hs. rewrite <- (drop_S l s p Hs). rewrite <- (take_drop (p - i) (drop i l)) at 1.
  f_equal. rewrite drop_drop. f_equal. lia.
Qed.

Lemma diff_loop_spec lhs rhs lcs : forall i j,
  increasing lhs rhs (length lhs) (length rhs) i j lcs ->
  exists es, diff_loop lhs rhs lcs i j = Some es
    /\ old_lines es = drop i lhs /\ new_lines es = drop j rhs
    /\ length (kept_lines es) = length lcs.
Proof.
  induction lcs as [|[p q] lcs IH]; intros i j; cbn [increasing diff_loop].
  - intros [Hi Hj]. case_match eqn:E.
    + apply negb_true_iff, orb_false_iff in E as [?%Nat.ltb_ge ?%Nat.ltb_ge].
      exists []. by rewrite !drop_ge by lia.
    + rewrite !push_lines_range by lia. simpl. eexists. split; [done|].
      rewrite !take_ge by (rewrite length_drop; lia).
      destruct (projections_dels (drop i lhs)) as (A & B & C).
      destruct (projections_adds (drop j rhs)) as (A' & B' & C').
      unfold old_lines, new_lines, kept_lines in *. rewrite !bind_app.
      rewrite A, B, C, A', B', C'. by rewrite app_nil_r.
  - intros (Hi & Hj & (s & Hp & Hq) & Hinc).
    pose proof (lookup_lt_Some _ _ _ Hp). pose proof (lookup_lt_Some _ _ _ Hq).
    case_match eqn:E.
    { apply negb_true_iff, orb_false_iff in E as [?%Nat.ltb_ge ?%Nat.ltb_ge]. lia. }
    rewrite !push_lines_range by lia. simpl. rewrite !Nat.max_r by lia. rewrite Hp. simpl.
    destruct (IH (S p) (S q) Hinc) as (es & He & Hold & Hnew & Hlen).
    rewrite !Nat.add_1_r, He. simpl. eexists. split; [done|].
    destruct (projections_dels (take (p - i) (drop i lhs))) as (A & B & C).
    destruct (projections_adds (take (q - j) (drop j rhs))) as (A' & B' & C').
    unfold old_lines, new_lines, kept_lines in *. rewrite !bind_app. cbn [mbind list_bind].
    rewrite A, B, C, A', B', C', Hold, Hnew. cbn [app]. cbn [length]. rewrite Hlen.
    split; [symmetry; by apply drop_split|]. split; [symmetry; by apply drop_split|done].
Qed.

(** C38: The rendered diff never fails and is a minimal line diff: after its two
    label lines come the edits, whose kept and deleted lines are the left text,
    whose kept and added lines are the right text, and no common subsequence
    of the two is longer than the lines it keeps. *)
Theorem render_unified_diff_correct (ll rl left right : string) :
  exists es,
    render_unified_diff ll rl left right
    = Some ("--- " +:+ ll +:+ Sandbox.nl +:+ "+++ " +:+ rl +:+ Sandbox.nl
            +:+ Sandbox.concat_str (map fmt_edit es))
    /\ old_lines es = lines left /\ new_lines es = lines right
    /\ (forall c, c `sublist_of` lines left -> c `sublist_of` lines right ->
        (length c <= length (kept_lines es))%nat).
Proof.
  destruct (lcs_lines_correct (lines left) (lines right)) as [Hinc [_ Hmax]].
  destruct (diff_loop_spec _ _ _ 0 0 Hinc) as (es & He & Hold & Hnew & Hlen).
  exists es. unfold render_unified_diff. rewrite He. split; [done|]. split; [done|]. split; [done|].
  intros c Hl Hr. rewrite Hlen. apply Hmax. split; by rewrite take_ge by lia.
Qed.

(** ** The plan *)

Section Plan.
Context `{Os} (rsync : list string -> result (string * bool) string).

Definition command_for (plan : MergePlan) (home : Path) (ps : list Path) (args : list string) : Prop :=
  exists host, host ∈ ps /\ path_exists (agent_path_of plan home host) = true
    /\ args = rsync_args plan (agent_path_of plan home host) host.

Lemma count_line_considered r l : considered (foldl count_line r l) = considered r.
Proof.
  revert r. induction l as [|x l IH]; intros r; simpl; [done|]. rewrite IH.
  unfold count_line. by repeat case_match.
Qed.

Lemma execute_loop_spec plan home ps : forall r ran,
  let '(res, ran') := execute_loop rsync plan home ps r ran in
  (forall args, args ∈ ran' -> args ∈ ran \/ command_for plan home ps args)
  /\ match res with Ok r' => considered r' = considered r + zlen ps | Err _ => True end.
Proof.
  induction ps as [|host ps IH]; intros r ran; cbn [execute_loop]; [split; [auto|zlen_solve]|].
  assert (Hmono : forall args, command_for plan home ps args -> command_for plan home (host :: ps) args).
  { intros args (h & ? & ? & ?). exists h. split; [by apply list_elem_of_further|done]. }
  destruct (path_exists (agent_path_of plan home host)) eqn:Ee; cbn [negb].
  - destruct (rsync _) as [[stdout ok]|e] eqn:Er; [|split; [auto|done]].
    assert (Hhere : command_for plan home (host :: ps) (rsync_args plan (agent_path_of plan home host) host)).
    { exists host. split; [apply list_elem_of_here|done]. }
    destruct ok.
    + set (r1 := foldl count_line _ _). set (ran1 := ran ++ _). specialize (IH r1 ran1).
      destruct (execute_loop rsync plan home ps r1 ran1) as [res ran']. destruct IH as [Hc Hr]. split.
      * intros args Ha. destruct (Hc args Ha) as [Hin|]; [|auto].
        apply elem_of_app in Hin as [?|Hin%list_elem_of_singleton]; [auto|]. subst. auto.
      * destruct res; [|done]. rewrite Hr. unfold r1. rewrite count_line_considered. cbn [considered]. zlen_solve.
    + split; [|done]. intros args [?|Hin%list_elem_of_singleton]%elem_of_app; [auto|]. subst. auto.
  - set (r1 := mkReport _ _ _ _ _). specialize (IH r1 ran).
    destruct (execute_loop rsync plan home ps r1 ran) as [res ran']. destruct IH as [Hc Hr]. split.
    + intros args Ha. destruct (Hc args Ha); auto.
    + destruct res; [|done]. rewrite Hr. unfold r1. cbn [considered]. zlen_solve.
Qed.

(** A dry-run merge never changes the host: every command [execute] runs,
    whether it succeeds or fails, is an [rsync] for one of the plan's paths
    whose session copy exists; under [dry_run] or the [Prompt] strategy each
    carries [--dry-run], and under [Ours] and [ThreeWay] [--ignore-existing].
    A successful run has considered every path. *)
Theorem execute_commands (plan : MergePlan) (home : Path) :
  home_dir = Some home ->
  let '(res, ran) := execute rsync plan in
  (forall args, args ∈ ran ->
     command_for plan home (paths plan) args
     /\ (dry_run plan = true \/ strategy plan = Prompt -> "--dry-run" ∈ args)
     /\ (strategy plan = Ours \/ strategy plan = ThreeWay -> "--ignore-existing" ∈ args))
  /\ match res with Ok r => considered r = zlen (paths plan) | Err _ => True end.
Proof.
  intros Hh. unfold execute. rewrite Hh.
  pose proof (execute_loop_spec plan home (paths plan) (mkReport 0 0 0 0 []) []) as Hs.
  destruct (execute_loop _ _ _ _ _ _) as [res ran]. destruct Hs as [Hc Hr]. split; [|done].
  intros args Ha. destruct (Hc args Ha) as [Hn|Hcmd]; [by apply not_elem_of_nil in Hn|].
  split; [done|]. destruct Hcmd as (host & _ & _ & ->). unfold rsync_args, strategy_args.
  split; intros [E|E]; rewrite E; set_solver.
Qed.

(** For a host path outside the home directory the plan compares the host
    with itself: joining an absolute path onto the session rootfs yields that
    path, so the source of the copy is the destination. *)
Theorem merge_outside_home_is_host (plan : MergePlan) (home host : Path) :
  is_absolute host = true -> strip_prefix host home = None ->
  agent_path_of plan home host = host
  /\ (path_is_dir host = false ->
      exists opts, rsync_args plan (agent_path_of plan home host) host
                   = opts ++ [path_to_string host; path_to_string host]).
Proof.
  intros Ha Hp.
  assert (E : agent_path_of plan home host = host) by (unfold agent_path_of, join; by rewrite Hp, Ha).
  split; [done|]. intros Hd. rewrite E. unfold rsync_args. rewrite Hd.
  rewrite !app_assoc. eauto.
Qed.
End Plan.

End Merge.

Module MergeExamples.
Import Merge OsExamples.

Definition rsync_ok (args : list string) : result (string * bool) string :=
  Ok (">f+++++++++ a.txt" +:+ Sandbox.nl, true).
Definition plan1 : MergePlan :=
  mkPlan (path_of_string "/sessions/s1") [path_of_string "/home/u/a.txt"; path_of_string "/etc/hosts"] Ours true.

Lemma execute_commands_witness :
  (forall args, args ∈ (execute rsync_ok plan1).2 ->
     command_for plan1 (path_of_string "/home/u") (paths plan1) args
     /\ (dry_run plan1 = true \/ strategy plan1 = Prompt -> "--dry-run" ∈ args)
     /\ (strategy plan1 = Ours \/ strategy plan1 = ThreeWay -> "--ignore-existing" ∈ args))
  /\ match (execute rsync_ok plan1).1 with Ok r => considered r = zlen (paths plan1) | Err _ => True end.
Proof. exact (execute_commands rsync_ok plan1 (path_of_string "/home/u") eq_refl). Defined.

Example plan1_copied : match (execute rsync_ok plan1).1 with Ok r => copied r | Err _ => 0 end = 2.
Proof. reflexivity. Qed.

Lemma merge_outside_home_is_host_witness :
  agent_path_of plan1 (path_of_string "/home/u") (path_of_string "/etc/hosts")
    = path_of_string "/etc/hosts"
  /\ (path_is_dir (path_of_string "/etc/hosts") = false ->
      exists opts, rsync_args plan1 (agent_path_of plan1 (path_of_string "/home/u") (path_of_string "/etc/hosts"))
                     (path_of_string "/etc/hosts")
                   = opts ++ [path_to_string (path_of_string "/etc/hosts"); path_to_string (path_of_string "/etc/hosts")]).
Proof. apply (merge_outside_home_is_host plan1); reflexivity. Defined.

Example diff_small :
  render_unified_diff "a" "b" ("x" +:+ Sandbox.nl +:+ "y") ("y" +:+ Sandbox.nl +:+ "z")
  = Some ("--- a" +:+ Sandbox.nl +:+ "+++ b" +:+ Sandbox.nl +:+ "-x" +:+ Sandbox.nl
          +:+ " y" +:+ Sandbox.nl +:+ "+z" +:+ Sandbox.nl).
Proof. reflexivity. Qed.

End MergeExamples.
