(* ===== verification/TermState.v ===== *)
(** * TermState: the shared state of a terminal session

    Models [terminal-control/src/state.rs] and the data of [types.rs]: the raw
    output ring, the screen snapshot with its attribute runs, the scrollback
    reader and the exit record.  The [vt100] crate is the class [Vt100]. *)
From S2P Require Import Prelude Text.

(** ** Data of [types.rs] *)

Inductive TermError : Type :=
| SessionNotFound (id : string)
| InvalidSize (rows cols : Z)
| MissingSandboxProfile
| EmptyShell
| CwdOutsideRootfs (p : Text.Path)
| CwdNotFound (p : Text.Path)
| MouseTrackingDisabled
| MouseOutOfBounds (rows cols row col : Z)
| InvalidUtf8
| UnsupportedSignal (name : list Z)
| Io (message : string)
| Spawn (message : string)
| Internal (message : string).

Record TermReadChunk := mkChunk { data : list byte; eof : bool; dropped_bytes : Z }.
Record TermCursor := mkCursor { cur_row : Z; cur_col : Z }.

Inductive TermColor : Type := DefaultColor | Indexed (idx : Z) | Rgb (r g b : Z).
#[export] Instance TermColor_eq_dec : EqDecision TermColor.
Proof. solve_decision. Defined.

Record TermStyle := mkStyle {
  fg : TermColor; bg : TermColor;
  bold : bool; dim : bool; italic : bool; underline : bool; inverse : bool
}.
#[export] Instance TermStyle_eq_dec : EqDecision TermStyle.
Proof. solve_decision. Defined.

Record TermAttrRun := mkRun { start_col : Z; end_col : Z; run_style : TermStyle }.
Record TermSnapshotRow := mkRow {
  row : Z; text : list byte; wrapped : bool; attrs : list TermAttrRun
}.
Record TermScrollbackLine := mkLine { index : Z; line_text : list byte; line_wrapped : bool }.

Inductive TermMouseMode : Type :=
| ModeNone | ModePress | ModePressRelease | ModeButtonMotion | ModeAnyMotion.
Inductive TermMouseEncoding : Type := EncDefault | EncUtf8 | EncSgr.

Record TermAltScreenState := mkAlt {
  active : bool; alt_mouse_mode : TermMouseMode; alt_mouse_encoding : TermMouseEncoding;
  alt_cursor_hidden : bool; alt_window_title : option (list byte)
}.
Record TermExitState := mkExit {
  exited : bool; exit_code : option Z; exit_signal : option string
}.
Record TermSnapshot := mkSnapshot {
  snap_seq : Z; snap_session_id : string; snap_rows : Z; snap_cols : Z;
  cursor : TermCursor; alt_screen_active : bool;
  mouse_mode : TermMouseMode; mouse_encoding : TermMouseEncoding;
  cursor_hidden : bool; snap_window_title : option (list byte);
  visible_rows : list TermSnapshotRow; snap_exit : TermExitState
}.

(** ** The [vt100] crate: what the sources call *)

Module VtColor.
Inductive t : Type := Default | Idx (i : Z) | Rgb (r g b : Z).
End VtColor.
Module MouseProtocolMode.
Inductive t : Type := None | Press | PressRelease | ButtonMotion | AnyMotion.
End MouseProtocolMode.
Module MouseProtocolEncoding.
Inductive t : Type := Default | Utf8 | Sgr.
End MouseProtocolEncoding.
Inductive callback : Type :=
| SetWindowTitle (title : list byte)
| SetWindowIconName (title : list byte).

Class Vt100 := {
  Screen : Type;
  Cell : Type;
  new_screen : Z -> Z -> Z -> Screen;
  process : Screen -> list byte -> Screen * list callback;
  size : Screen -> Z * Z;
  cursor_position : Screen -> Z * Z;
  rows_text : Screen -> Z -> Z -> list (list byte);
  cell : Screen -> Z -> Z -> option Cell;
  row_wrapped : Screen -> Z -> bool;
  alternate_screen : Screen -> bool;
  mouse_protocol_mode : Screen -> MouseProtocolMode.t;
  mouse_protocol_encoding : Screen -> MouseProtocolEncoding.t;
  hide_cursor : Screen -> bool;
  set_size : Screen -> Z -> Z -> Screen;
  set_scrollback : Screen -> Z -> Screen;
  scrollback : Screen -> Z;
  contents : Screen -> list byte;
  has_contents : Cell -> bool;
  is_wide_continuation : Cell -> bool;
  fgcolor : Cell -> VtColor.t;
  bgcolor : Cell -> VtColor.t;
  cell_bold : Cell -> bool;
  cell_dim : Cell -> bool;
  cell_italic : Cell -> bool;
  cell_underline : Cell -> bool;
  cell_inverse : Cell -> bool
}.

Module TermState.

Definition DEFAULT_RAW_OUTPUT_BYTES : Z := 256 * 1024.
Definition DEFAULT_SCROLLBACK_LINES : Z := 4096.

(** ** [ByteRing] *)

Record ByteRing := mkBytes { max_bytes : Z; bytes : list byte; dropped_since_read : Z }.

Definition ring_new (max_bytes : Z) : ByteRing := mkBytes max_bytes [] 0.

(** The loop body of [push]: evict the oldest byte when full, then append. *)
Definition push_byte (m : Z) (st : list byte * Z) (b : byte) : list byte * Z :=
  let '(q, dropped) := st in
  let '(q, dropped) :=
    if m <=? zlen q then
      match q with
      | _ :: q' => (q', sat_add u64_max dropped 1)
      | [] => (q, dropped)
      end
    else (q, dropped) in
  (q ++ [b], dropped).

Definition push (r : ByteRing) (d : list byte) : ByteRing * Z :=
  let '(q, dropped) := foldl (push_byte (max_bytes r)) (bytes r, 0) d in
  (mkBytes (max_bytes r) q (sat_add u64_max (dropped_since_read r) dropped), dropped).

Fixpoint pop_loop (n : nat) (q d : list byte) : list byte * list byte :=
  match n with
  | O => (q, d)
  | S n =>
      match q with
      | b :: q => pop_loop n q (d ++ [b])
      | [] => pop_loop n q d
      end
  end.

Definition take_chunk (r : ByteRing) (limit : Z) (eof : bool) : ByteRing * TermReadChunk :=
  let n := Z.min limit (zlen (bytes r)) in
  let '(q, d) := pop_loop (Z.to_nat n) (bytes r) [] in
  (mkBytes (max_bytes r) q 0, mkChunk d eof (dropped_since_read r)).

(** ** Styles and attribute runs *)

Definition default_style : TermStyle :=
  mkStyle DefaultColor DefaultColor false false false false false.

Definition map_color (c : VtColor.t) : TermColor :=
  match c with
  | VtColor.Default => DefaultColor
  | VtColor.Idx i => Indexed i
  | VtColor.Rgb r g b => Rgb r g b
  end.

Definition map_mouse_mode (m : MouseProtocolMode.t) : TermMouseMode :=
  match m with
  | MouseProtocolMode.None => ModeNone
  | MouseProtocolMode.Press => ModePress
  | MouseProtocolMode.PressRelease => ModePressRelease
  | MouseProtocolMode.ButtonMotion => ModeButtonMotion
  | MouseProtocolMode.AnyMotion => ModeAnyMotion
  end.

Definition map_mouse_encoding (e : MouseProtocolEncoding.t) : TermMouseEncoding :=
  match e with
  | MouseProtocolEncoding.Default => EncDefault
  | MouseProtocolEncoding.Utf8 => EncUtf8
  | MouseProtocolEncoding.Sgr => EncSgr
  end.

Section Screen.
Context `{Vt100}.

Definition style_for_cell (c : Cell) : TermStyle :=
  mkStyle (map_color (fgcolor c)) (map_color (bgcolor c))
    (cell_bold c) (cell_dim c) (cell_italic c) (cell_underline c) (cell_inverse c).

(** First loop of [row_attr_runs]: one past the last column worth reporting. *)
Definition interesting (c : Cell) : bool :=
  has_contents c || bool_decide (style_for_cell c <> default_style) || is_wide_continuation c.
Definition interesting_end (s : Screen) (row cols : Z) : Z :=
  foldl (fun e col =>
    match cell s row col with
    | Some c => if interesting c then sat_add u16_max col 1 else e
    | None => e
    end) 0 (seqZ 0 cols).

Definition style_at (s : Screen) (row col : Z) : TermStyle :=
  match cell s row col with Some c => style_for_cell c | None => default_style end.

Record run_state := mkRS {
  rs_runs : list TermAttrRun; rs_start : Z; rs_current : TermStyle; rs_seeded : bool
}.
Definition run_step (s : Screen) (row : Z) (st : run_state) (col : Z) : run_state :=
  let style := style_at s row col in
  if negb (rs_seeded st) then mkRS (rs_runs st) col style true
  else if decide (style <> rs_current st)
  then mkRS (rs_runs st ++ [mkRun (rs_start st) col (rs_current st)]) col style true
  else st.

Definition row_attr_runs (s : Screen) (row cols : Z) : list TermAttrRun :=
  let e := interesting_end s row cols in
  if e =? 0 then []
  else
    let st := foldl (run_step s row) (mkRS [] 0 default_style false) (seqZ 0 e) in
    if rs_seeded st
    then rs_runs st ++ [mkRun (rs_start st) e (rs_current st)]
    else rs_runs st.

(** ** [SharedState] *)

Record CallbackState := mkCb { window_title : option (list byte) }.

Record SharedState := mkShared {
  parser : Screen;
  callbacks : CallbackState;
  output : ByteRing;
  exit : TermExitState;
  snapshot_seq : Z;
  output_seq : Z
}.

Definition shared_new (rows cols raw_output_bytes scrollback_lines : Z) : SharedState :=
  mkShared (new_screen rows cols scrollback_lines) (mkCb None)
    (ring_new raw_output_bytes) (mkExit false None None) 0 0.

(** [set_window_title] and [set_window_icon_name] both set the title. *)
Definition run_callback (cb : CallbackState) (c : callback) : CallbackState :=
  match c with
  | SetWindowTitle t => mkCb (Some (Text.from_utf8_lossy t))
  | SetWindowIconName t => mkCb (Some (Text.from_utf8_lossy t))
  end.

Definition process_output (s : SharedState) (d : list byte) : SharedState * Z :=
  let '(ring, dropped) := push (output s) d in
  let '(scr, cbs) := process (parser s) d in
  (mkShared scr (foldl run_callback (callbacks s) cbs) ring (exit s)
     (snapshot_seq s) (output_seq s), dropped).

Definition next_output_seq (s : SharedState) : SharedState * Z :=
  (mkShared (parser s) (callbacks s) (output s) (exit s) (snapshot_seq s)
     (wrap_add u64_max (output_seq s) 1), wrap_add u64_max (output_seq s) 1).

Definition read_output (s : SharedState) (max_bytes : Z) : SharedState * TermReadChunk :=
  let '(ring, chunk) := take_chunk (output s) max_bytes (exited (exit s)) in
  (mkShared (parser s) (callbacks s) ring (exit s) (snapshot_seq s) (output_seq s), chunk).

Definition mark_exit (s : SharedState) (code : option Z) (sig : option string) : SharedState :=
  mkShared (parser s) (callbacks s) (output s) (mkExit true code sig)
    (snapshot_seq s) (output_seq s).

Definition resize (s : SharedState) (rows cols : Z) : SharedState :=
  mkShared (set_size (parser s) rows cols) (callbacks s) (output s) (exit s)
    (snapshot_seq s) (output_seq s).

Definition snapshot_row (scr : Screen) (texts : list (list byte)) (cols i : Z) : TermSnapshotRow :=
  mkRow i (default [] (texts !! Z.to_nat i)) (row_wrapped scr i) (row_attr_runs scr i cols).

Definition build_snapshot (s : SharedState) (session_id : string) : SharedState * TermSnapshot :=
  let seq := wrap_add u64_max (snapshot_seq s) 1 in
  let scr := parser s in
  let '(rows, cols) := size scr in
  let '(crow, ccol) := cursor_position scr in
  let texts := rows_text scr 0 cols in
  (mkShared (parser s) (callbacks s) (output s) (exit s) seq (output_seq s),
   mkSnapshot seq session_id rows cols (mkCursor crow ccol) (alternate_screen scr)
     (map_mouse_mode (mouse_protocol_mode scr))
     (map_mouse_encoding (mouse_protocol_encoding scr)) (hide_cursor scr)
     (window_title (callbacks s))
     (map (snapshot_row scr texts cols) (seqZ 0 rows)) (exit s)).

Definition alt_screen_state (s : SharedState) : TermAltScreenState :=
  let scr := parser s in
  mkAlt (alternate_screen scr) (map_mouse_mode (mouse_protocol_mode scr))
    (map_mouse_encoding (mouse_protocol_encoding scr)) (hide_cursor scr)
    (window_title (callbacks s)).

(** ** Scrollback *)

(** [str::split] at newlines. *)
Fixpoint split_nl (l : list byte) : list (list byte) :=
  match l with
  | [] => [[]]
  | b :: l =>
      if decide (b = Byte.x0a) then [] :: split_nl l
      else match split_nl l with
           | seg :: segs => (b :: seg) :: segs
           | [] => [[b]]
           end
  end.

(** [None] when the fuel runs out. *)
Fixpoint scrollback_loop (fuel : nat) (scr : Screen) (rows total current : Z)
    (lines : list TermScrollbackLine) : option (list TermScrollbackLine) :=
  if negb (current <? total) then Some lines
  else
    match fuel with
    | O => None
    | S fuel =>
        let offset := sat_sub total current in
        let window := set_scrollback scr offset in
        let take_count := Z.min (Z.min offset rows) (sat_sub total current) in
        let texts := take (Z.to_nat take_count) (split_nl (contents window)) in
        let lines := lines ++ imap (fun idx t =>
          let i := Z.of_nat idx in
          mkLine (current + i) t (row_wrapped window (if i <=? u16_max then i else 0))) texts in
        if take_count =? 0 then Some lines
        else scrollback_loop fuel scr rows total (sat_add u64_max current take_count) lines
    end.

Definition scrollback_total (scr : Screen) : Z := scrollback (set_scrollback scr u64_max).

(** One window per iteration and at least one line per window: [total] steps. *)
Definition scrollback_lines (s : SharedState) (n_lines : Z) : option (list TermScrollbackLine) :=
  let scr := parser s in
  let total := scrollback_total scr in
  scrollback_loop (Z.to_nat total) scr (size scr).1 total (sat_sub total n_lines) [].

End Screen.

(** ** The ring as a window on the output stream *)

Inductive ring_op : Type :=
| Push (d : list byte)
| Take (limit : Z) (at_eof : bool).

Definition run_op (st : ByteRing * list TermReadChunk) (op : ring_op)
    : ByteRing * list TermReadChunk :=
  match op with
  | Push d => ((push st.1 d).1, st.2)
  | Take n e => let '(r, c) := take_chunk st.1 n e in (r, st.2 ++ [c])
  end.
Definition run_ops (m : Z) (ops : list ring_op) : ByteRing * list TermReadChunk :=
  foldl run_op (ring_new m, []) ops.

Definition pushed (ops : list ring_op) : list byte :=
  ops ≫= fun op => match op with Push d => d | Take _ _ => [] end.

(** The chunks a reader received, with the evicted bytes before each. *)
Definition stream (gaps : list (list byte)) (cs : list TermReadChunk) : list byte :=
  concat (zip_with (fun g c => g ++ data c) gaps cs).

Lemma pop_loop_spec n : forall q d, pop_loop n q d = (drop n q, d ++ take n q).
Proof.
  induction n as [|n IH]; intros [|b q] d; simpl; rewrite ?IH, ?app_nil_r; [done..|by rewrite drop_nil, take_nil, app_nil_r|].
  by rewrite <- app_assoc.
Qed.

Lemma push_fold m (Hm : 0 <= m) d : forall q k,
  0 <= k -> k + zlen d <= u64_max -> zlen q <= Z.max 1 m ->
  exists g q', foldl (push_byte m) (q, k) d = (q', k + zlen g) /\ q ++ d = g ++ q'
    /\ zlen q' <= Z.max 1 m /\ zlen g = Z.max 0 (zlen q + zlen d - Z.max 1 m).
Proof.
  induction d as [|b d IH]; intros q k Hk Hd Hq.
  - exists [], q. simpl. rewrite app_nil_r, Z.add_0_r. zlen_solve || (split_and!; zlen_solve || done).
  - rewrite zlen_cons in Hd. pose proof (zlen_nonneg d). simpl.
    destruct (Z.leb_spec m (zlen q)) as [Hf|Hf].
    + destruct q as [|x q]; simpl.
      * destruct (IH [b] k) as (g & q' & -> & E & ? & ?); [done|lia|zlen_solve|].
        exists g, q'. rewrite <- E. split_and!; [done..|zlen_solve].
      * rewrite sat_add_exact by lia.
        destruct (IH (q ++ [b]) (k + 1)) as (g & q' & -> & E & ? & ?); [lia|lia|zlen_solve|].
        exists (x :: g), q'. rewrite <- app_assoc in E. simpl in *. rewrite <- E.
        split_and!; [f_equal; zlen_solve|done|done|zlen_solve].
    + destruct (IH (q ++ [b]) k) as (g & q' & -> & E & ? & ?); [done|lia|zlen_solve|].
      rewrite <- app_assoc in E. exists g, q'. split_and!; [done|done|done|zlen_solve].
Qed.

Lemma stream_snoc gaps cs g c : length gaps = length cs ->
  stream (gaps ++ [g]) (cs ++ [c]) = stream gaps cs ++ g ++ data c.
Proof.
  intros Hl. unfold stream. rewrite zip_with_app by done. by rewrite concat_app; simpl; rewrite app_nil_r.
Qed.

Definition ring_rep (m : Z) (ops : list ring_op) (gaps : list (list byte)) (y : list byte)
    (st : ByteRing * list TermReadChunk) : Prop :=
  pushed ops = stream gaps st.2 ++ y ++ bytes st.1
  /\ map zlen gaps = map dropped_bytes st.2
  /\ zlen y = dropped_since_read st.1
  /\ zlen (bytes st.1) <= Z.max 1 m
  /\ max_bytes st.1 = m
  /\ (zlen (pushed ops) <= Z.max 1 m -> y = [] /\ Forall (fun g => g = []) gaps).

Lemma ring_rep_push m ops gaps y st d : 0 <= m ->
  zlen (pushed (ops ++ [Push d])) <= u64_max ->
  ring_rep m ops gaps y st -> exists y', ring_rep m (ops ++ [Push d]) gaps y' (run_op st (Push d)).
Proof.
  intros Hm Hd (E & Hg & Hy & Hb & Hmx & Hsmall). destruct st as [r cs]; simpl in *.
  assert (Ep : pushed (ops ++ [Push d]) = pushed ops ++ d).
  { unfold pushed. rewrite bind_app. simpl. by rewrite app_nil_r. }
  rewrite Ep in Hd. pose proof (zlen_nonneg y). rewrite E in Hd.
  destruct (push_fold m Hm d (bytes r) 0) as (g & q' & F & G & Hq & Hlg); [lia|zlen_solve|done|].
  unfold push. rewrite Hmx, F, Z.add_0_l. simpl. exists (y ++ g). unfold ring_rep. simpl.
  assert (Hd' := Hd). rewrite !zlen_app in Hd'. pose proof (zlen_nonneg (stream gaps cs)).
  pose proof (zlen_nonneg d). pose proof (zlen_nonneg (bytes r)).
  assert (HG := f_equal zlen G). rewrite !zlen_app in HG. pose proof (zlen_nonneg q').
  split_and!; try done.
  - rewrite Ep, E, <- !app_assoc. by rewrite G.
  - rewrite zlen_app, Hy, sat_add_exact; [done|]. lia.
  - intros Hs. rewrite Ep, E in Hs. rewrite !zlen_app in Hs.
    destruct Hsmall as [-> ?]; [rewrite E; zlen_solve|]. split; [|done].
    assert (zlen g = 0) by lia. destruct g; [done|]. rewrite zlen_cons in *.
    pose proof (zlen_nonneg g). lia.
Qed.

Lemma ring_rep_take m ops gaps y st n e :
  ring_rep m ops gaps y st ->
  ring_rep m (ops ++ [Take n e]) (gaps ++ [y]) [] (run_op st (Take n e)).
Proof.
  intros (E & Hg & Hy & Hb & Hmx & Hsmall). destruct st as [r cs]; simpl in *.
  unfold take_chunk. rewrite pop_loop_spec. unfold ring_rep. simpl.
  assert (Ep : pushed (ops ++ [Take n e]) = pushed ops).
  { unfold pushed. rewrite bind_app. simpl. by rewrite app_nil_r. }
  assert (length gaps = length cs) by (rewrite <- (length_map zlen gaps), Hg; apply length_map).
  rewrite Ep. split_and!; try done.
  - rewrite stream_snoc by done. simpl. rewrite <- !app_assoc, take_drop. done.
  - rewrite !map_app, Hg. simpl. by rewrite Hy.
  - rewrite zlen_drop. pose proof (zlen_nonneg (bytes r)). lia.
  - intros Hs. destruct (Hsmall Hs) as [-> ?]. split; [done|]. apply Forall_app; auto.
Qed.

Lemma run_ops_rep m ops : 0 <= m -> zlen (pushed ops) <= u64_max ->
  exists gaps y, ring_rep m ops gaps y (run_ops m ops).
Proof.
  intros Hm. induction ops as [|op ops IH] using rev_ind; intros Hp.
  - exists [], []. unfold ring_rep; simpl. rewrite zlen_nil. split_and!; done || lia.
  - unfold run_ops. rewrite foldl_snoc. fold (run_ops m ops).
    assert (zlen (pushed ops) <= u64_max).
    { unfold pushed in *. rewrite bind_app, zlen_app in Hp. pose proof (zlen_nonneg ([op] ≫= (λ op, match op with Push d => d | Take _ _ => [] end))). lia. }
    destruct IH as (gaps & y & HR); [done|]. destruct op as [d|n e].
    + destruct (ring_rep_push m ops gaps y _ d Hm Hp HR) as [y' ?]. eauto.
    + eexists _, _. by apply ring_rep_take.
Qed.

(** C32: Refinement of the output ring to the byte stream of the terminal: after
    any sequence of pushes and takes, the stream pushed so far is the chunks
    the reader received, each preceded by exactly [dropped_bytes] evicted
    bytes, then [dropped_since_read] evicted bytes, then the bytes still in the
    ring, which never exceed the capacity (one byte when it is zero).  When the
    stream fits the capacity nothing is evicted. *)
Theorem byte_ring_stream (m : Z) (ops : list ring_op) :
  0 <= m -> zlen (pushed ops) <= u64_max ->
  let '(r, cs) := run_ops m ops in
  exists gaps y,
    pushed ops = stream gaps cs ++ y ++ bytes r
    /\ map zlen gaps = map dropped_bytes cs
    /\ zlen y = dropped_since_read r
    /\ zlen (bytes r) <= Z.max 1 m
    /\ (zlen (pushed ops) <= Z.max 1 m -> y = [] /\ Forall (fun g => g = []) gaps).
Proof.
  intros Hm Hp. destruct (run_ops_rep m ops Hm Hp) as (gaps & y & HR).
  destruct (run_ops m ops) as [r cs]. exists gaps, y. unfold ring_rep in HR. naive_solver.
Qed.

(** ** Attribute runs *)

(** [rs] tiles [a, b) with maximal runs of the styles [f]. *)
Fixpoint tile (f : Z -> TermStyle) (a b : Z) (rs : list TermAttrRun) : Prop :=
  match rs with
  | [] => a = b
  | r :: rs' =>
      start_col r = a /\ a < end_col r
      /\ (forall c, a <= c < end_col r -> f c = run_style r)
      /\ match rs' with r' :: _ => run_style r' <> run_style r | [] => True end
      /\ tile f (end_col r) b rs'
  end.

Lemma tile_extend f k st cur rs : forall a,
  tile f a k (rs ++ [mkRun st k cur]) -> f k = cur ->
  tile f a (k + 1) (rs ++ [mkRun st (k + 1) cur]).
Proof.
  induction rs as [|r rs IH]; intros a; simpl.
  - intros (-> & ? & Hc & _ & _) Hk. split_and!; [done|lia| |done|done].
    intros c Hr. destruct (decide (c = k)) as [->|]; [done|]. apply Hc. lia.
  - intros (? & ? & ? & Hd & Ht) Hk. split_and!; auto. by destruct rs.
Qed.

Lemma tile_break f k st cur rs : forall a,
  tile f a k (rs ++ [mkRun st k cur]) -> f k <> cur ->
  tile f a (k + 1) ((rs ++ [mkRun st k cur]) ++ [mkRun k (k + 1) (f k)]).
Proof.
  induction rs as [|r rs IH]; intros a; simpl.
  - intros (-> & ? & Hc & _ & _) Hk. split_and!; auto; [lia|].
    intros c ?. f_equal. lia.
  - intros (? & ? & ? & Hd & Ht) Hk. split_and!; auto. by destruct rs.
Qed.

Section Runs.
Context `{Vt100} (s : Screen) (row : Z).

Lemma run_fold (n : nat) :
  let st := foldl (run_step s row) (mkRS [] 0 default_style false) (seqZ 0 (Z.of_nat (S n))) in
  rs_seeded st = true
  /\ tile (style_at s row) 0 (Z.of_nat (S n))
       (rs_runs st ++ [mkRun (rs_start st) (Z.of_nat (S n)) (rs_current st)]).
Proof.
  induction n as [|n IH].
  - simpl. split_and!; auto; [lia|]. intros c ?. f_equal. lia.
  - rewrite seqZ_S, foldl_snoc. cbv zeta in IH.
    destruct (foldl _ _ _) as [rs st cur sd]. simpl in IH. destruct IH as [-> Ht].
    replace (Z.of_nat (S (S n))) with (Z.of_nat (S n) + 1) by lia.
    rewrite Z.add_0_l. unfold run_step. simpl rs_seeded. simpl rs_runs. cbn [negb rs_current rs_start].
    case_decide as Hd; cbn [rs_seeded rs_runs rs_current rs_start]; (split; [done|]).
    + by apply tile_break.
    + apply tile_extend; [done|].
      destruct (decide (style_at s row (Z.of_nat (S n)) = cur)); [done|]. by destruct Hd.
Qed.

Lemma interesting_end_spec (n : nat) : Z.of_nat n <= u16_max ->
  let e := interesting_end s row (Z.of_nat n) in
  0 <= e <= Z.of_nat n
  /\ (0 < e -> exists c, cell s row (e - 1) = Some c /\ interesting c = true)
  /\ (forall col c, e <= col < Z.of_nat n -> cell s row col = Some c -> interesting c = false).
Proof.
  induction n as [|n IH]; intros Hn.
  - unfold interesting_end; simpl. split; [lia|]. split; intros; lia.
  - cbv zeta in *. destruct IH as (Hr & Hi & Hb); [lia|]. unfold interesting_end in *.
    rewrite seqZ_S, foldl_snoc, Z.add_0_l.
    set (e := foldl _ _ _) in *.
    assert (Hkeep : forall col c, e <= col < Z.of_nat (S n) -> col <> Z.of_nat n ->
      cell s row col = Some c -> interesting c = false) by (intros; apply (Hb col); [lia|done]).
    destruct (cell s row (Z.of_nat n)) as [c|] eqn:Ec.
    + destruct (interesting c) eqn:Ei.
      * rewrite sat_add_exact by lia. split; [lia|]. split; [|intros; lia].
        intros _. exists c. by replace (Z.of_nat n + 1 - 1) with (Z.of_nat n) by lia.
      * split; [lia|]. split; [done|]. intros col c' Hc Hcell.
        destruct (decide (col = Z.of_nat n)) as [->|]; [congruence|]. by apply (Hkeep col).
    + split; [lia|]. split; [done|]. intros col c' Hc Hcell.
      destruct (decide (col = Z.of_nat n)) as [->|]; [congruence|]. by apply (Hkeep col).
Qed.

(** The attribute runs of a row tile the columns from 0 to the last
    interesting one: they are contiguous, non-empty, maximal (neighbours differ)
    and carry the style of every cell they cover; the last covered cell has
    contents or a style, and every cell after it is blank. *)
Theorem row_attr_runs_spec (cols : Z) : in_u16 cols ->
  exists e,
    tile (style_at s row) 0 e (row_attr_runs s row cols)
    /\ 0 <= e <= cols
    /\ (0 < e -> exists c, cell s row (e - 1) = Some c /\ interesting c = true)
    /\ (forall col c, e <= col < cols -> cell s row col = Some c -> interesting c = false).
Proof.
  intros Hc. unfold in_u16 in Hc.
  pose proof (interesting_end_spec (Z.to_nat cols)) as Hs. rewrite Z2Nat.id in Hs by lia.
  destruct Hs as (Hr & Hi & Hb); [lia|].
  exists (interesting_end s row cols). split; [|done]. unfold row_attr_runs.
  destruct (Z.eqb_spec (interesting_end s row cols) 0) as [->|Hz]; [done|].
  set (e := interesting_end s row cols) in *.
  pose proof (run_fold (Nat.pred (Z.to_nat e))) as [Hsd Ht].
  replace (Z.of_nat (S (Nat.pred (Z.to_nat e)))) with e in * by lia. by rewrite Hsd.
Qed.
End Runs.

(** ** Scrollback *)

Lemma imap_index {A} (c : Z) (l : list A) : imap (fun i _ => c + Z.of_nat i) l = seqZ c (zlen l).
Proof.
  apply list_eq. intros i. rewrite list_lookup_imap. unfold zlen.
  destruct (l !! i) eqn:E; simpl.
  - apply lookup_lt_Some in E. symmetry. apply lookup_seqZ. lia.
  - apply lookup_ge_None in E. symmetry. apply lookup_seqZ_ge. lia.
Qed.

Lemma imap_id {A} (l : list A) : imap (fun _ t => t) l = l.
Proof. apply list_eq. intros i. rewrite list_lookup_imap. by destruct (l !! i). Qed.

Lemma map_imap {A B C} (g : B -> C) (f : nat -> A -> B) (l : list A) :
  map g (imap f l) = imap (fun i x => g (f i x)) l.
Proof. revert f. induction l as [|x l IH]; intros f; simpl; [done|]. f_equal. apply IH. Qed.

Section Scrollback.
Context `{Vt100} (scr : Screen) (hist : list (list byte)).

(** Scrolled back by [o] lines, the screen shows the history from the [o]-th
    last line on, one row per line of text. *)
Definition history_view : Prop :=
  forall o k, 0 < o <= zlen hist -> 0 <= k < Z.min o (size scr).1 ->
  split_nl (contents (set_scrollback scr o)) !! Z.to_nat k = hist !! Z.to_nat (zlen hist - o + k).

Lemma window_texts current rows : history_view -> rows = (size scr).1 ->
  0 <= current < zlen hist -> 0 <= rows ->
  let tc := Z.min (zlen hist - current) rows in
  take (Z.to_nat tc) (split_nl (contents (set_scrollback scr (zlen hist - current))))
  = take (Z.to_nat tc) (drop (Z.to_nat current) hist).
Proof.
  intros Hv -> Hc Hr tc. apply list_eq. intros i.
  destruct (decide (i < Z.to_nat tc)%nat) as [Hi|Hi].
  - rewrite !lookup_take_lt by done. rewrite lookup_drop.
    specialize (Hv (zlen hist - current) (Z.of_nat i)).
    rewrite Nat2Z.id in Hv. rewrite Hv by (unfold tc in *; lia).
    f_equal. lia.
  - by rewrite !lookup_take_ge by lia.
Qed.

Lemma scrollback_loop_spec rows : history_view -> rows = (size scr).1 -> 0 < rows ->
  zlen hist <= u64_max ->
  forall fuel current lines, 0 <= current <= zlen hist -> zlen hist - current <= Z.of_nat fuel ->
  exists new, scrollback_loop fuel scr rows (zlen hist) current lines = Some (lines ++ new)
    /\ map line_text new = drop (Z.to_nat current) hist
    /\ map index new = seqZ current (zlen hist - current).
Proof.
  intros Hv Hrows Hr Hmax. induction fuel as [|fuel IH]; intros current lines Hc Hf;
    cbn [scrollback_loop]; destruct (Z.ltb_spec current (zlen hist)) as [Hlt|Hge]; simpl; try lia.
  1,3: exists []; rewrite app_nil_r; replace current with (zlen hist) by lia;
    rewrite Z.sub_diag; unfold zlen; rewrite Nat2Z.id, drop_all; done.
  unfold sat_sub. rewrite (Z.max_r 0 (zlen hist - current)) by lia.
  set (tc := Z.min (Z.min (zlen hist - current) rows) (zlen hist - current)).
  assert (Etc : tc = Z.min (zlen hist - current) rows) by lia.
  rewrite Etc, (window_texts current rows) by (done || lia). rewrite <- Etc.
  destruct (Z.eqb_spec tc 0); [lia|]. rewrite sat_add_exact by lia.
  set (texts := take (Z.to_nat tc) _). set (here := imap _ texts).
  destruct (IH (current + tc) (lines ++ here)) as (new & -> & Ht & Hi); [lia|lia|].
  exists (here ++ new). rewrite <- app_assoc. split; [done|].
  assert (Hlen : zlen texts = tc).
  { unfold texts, zlen. rewrite length_take, length_drop. unfold zlen in *. lia. }
  rewrite !map_app, Ht, Hi. unfold here. split.
  - rewrite (map_imap line_text). cbn [line_text]. rewrite imap_id. unfold texts.
    rewrite <- (take_drop (Z.to_nat tc) (drop (Z.to_nat current) hist)) at 2.
    f_equal. rewrite drop_drop. f_equal. lia.
  - rewrite (map_imap index). cbn [index]. rewrite imap_index, Hlen. rewrite <- seqZ_app by lia. f_equal. lia.
Qed.

(** Reading the scrollback terminates and returns exactly the last
    [min n total] lines of the history, in order, numbered by their position,
    when the screen shows one history line per row. *)
Theorem scrollback_lines_spec (st : SharedState) (n : Z) :
  parser st = scr -> scrollback_total scr = zlen hist -> history_view ->
  0 < (size scr).1 -> zlen hist <= u64_max -> 0 <= n ->
  exists lines, scrollback_lines st n = Some lines
    /\ map line_text lines = drop (Z.to_nat (zlen hist - n)) hist
    /\ map index lines = seqZ (Z.max 0 (zlen hist - n)) (Z.min n (zlen hist)).
Proof.
  intros Ep Et Hv Hr Hmax Hn. unfold scrollback_lines. rewrite Ep, Et. unfold sat_sub.
  pose proof (zlen_nonneg hist).
  destruct (scrollback_loop_spec (size scr).1 Hv eq_refl Hr Hmax (Z.to_nat (zlen hist))
    (Z.max 0 (zlen hist - n)) []) as (new & -> & Htx & Hix); [lia|lia|].
  exists new. split; [done|]. rewrite Htx, Hix. split; f_equal; lia.
Qed.
End Scrollback.

End TermState.

(** ** A small screen, and the theorems applied to it *)
Module TermStateExamples.
Import TermState.

Record grid := mkGrid {
  g_rows : Z; g_cols : Z; g_hist : list (list byte); g_sb : Z; g_cells : gmap (Z * Z) VtColor.t
}.

Fixpoint join_nl (ls : list (list byte)) : list byte :=
  match ls with
  | [] => []
  | [l] => l
  | l :: ls => l ++ Byte.x0a :: join_nl ls
  end.

#[export] Instance grid_vt : Vt100 := {|
  Screen := grid;
  Cell := VtColor.t;
  new_screen r c _ := mkGrid r c [] 0 ∅;
  process g d := (mkGrid (g_rows g) (g_cols g) (g_hist g ++ [d]) (g_sb g) (g_cells g), []);
  size g := (g_rows g, g_cols g);
  cursor_position _ := (0, 0);
  rows_text _ _ _ := [];
  cell g r c := g_cells g !! (r, c);
  row_wrapped _ _ := false;
  alternate_screen _ := false;
  mouse_protocol_mode _ := MouseProtocolMode.Press;
  mouse_protocol_encoding _ := MouseProtocolEncoding.Sgr;
  hide_cursor _ := false;
  set_size g r c := mkGrid r c (g_hist g) (g_sb g) (g_cells g);
  set_scrollback g o := mkGrid (g_rows g) (g_cols g) (g_hist g) (Z.min o (zlen (g_hist g))) (g_cells g);
  scrollback g := g_sb g;
  contents g := join_nl (take (Z.to_nat (g_rows g))
    (drop (Z.to_nat (zlen (g_hist g) - g_sb g)) (g_hist g) ++ replicate (Z.to_nat (g_rows g)) []));
  has_contents _ := true;
  is_wide_continuation _ := false;
  fgcolor c := c;
  bgcolor _ := VtColor.Default;
  cell_bold _ := false;
  cell_dim _ := false;
  cell_italic _ := false;
  cell_underline _ := false;
  cell_inverse _ := false
|}.

Definition hist3 : list (list byte) := [[Byte.x61]; [Byte.x62]; [Byte.x63]].
Definition scr3 : grid :=
  mkGrid 2 4 hist3 0 {[ (0, 0) := VtColor.Default; (0, 1) := VtColor.Idx 3; (0, 2) := VtColor.Idx 3 ]}.
Definition st3 : @SharedState grid_vt :=
  @mkShared grid_vt scr3 (mkCb None) (ring_new 4) (mkExit false None None) 0 0.

Definition ops5 : list ring_op :=
  [Push [Byte.x61; Byte.x62; Byte.x63]; Take 1 false; Push [Byte.x64]].

Lemma byte_ring_stream_witness :
  let '(r, cs) := run_ops 2 ops5 in
  exists gaps y,
    pushed ops5 = stream gaps cs ++ y ++ bytes r
    /\ map zlen gaps = map dropped_bytes cs
    /\ zlen y = dropped_since_read r
    /\ zlen (bytes r) <= Z.max 1 2
    /\ (zlen (pushed ops5) <= Z.max 1 2 -> y = [] /\ Forall (fun g => g = []) gaps).
Proof. apply (byte_ring_stream 2 ops5); vm_compute; discriminate. Defined.

Example ops5_chunks : (run_ops 2 ops5).2 = [mkChunk [Byte.x62] false 1].
Proof. reflexivity. Qed.

Lemma row_attr_runs_spec_witness :
  in_u16 4 /\
  exists e,
    tile (@style_at grid_vt scr3 0) 0 e (@row_attr_runs grid_vt scr3 0 4)
    /\ 0 <= e <= 4
    /\ (0 < e -> exists c, @cell grid_vt scr3 0 (e - 1) = Some c /\ @interesting grid_vt c = true)
    /\ (forall col c, e <= col < 4 -> @cell grid_vt scr3 0 col = Some c -> @interesting grid_vt c = false).
Proof.
  split; [vm_compute; split; discriminate|].
  apply (@row_attr_runs_spec grid_vt scr3 0 4). vm_compute; split; discriminate.
Defined.

Example scr3_runs : map (fun r => (start_col r, end_col r)) (@row_attr_runs grid_vt scr3 0 4) = [(0, 1); (1, 3)].
Proof. reflexivity. Qed.

Lemma hist3_view : @history_view grid_vt scr3 hist3.
Proof.
  intros o k Ho Hk. change (zlen hist3) with 3 in *. change (@size grid_vt scr3).1 with 2 in *.
  assert (o = 1 \/ o = 2 \/ o = 3) as [->|[->| ->]] by lia;
    assert (k = 0 \/ k = 1) as [->| ->] by lia; (reflexivity || lia).
Qed.

Lemma scrollback_lines_spec_witness :
  exists lines, @scrollback_lines grid_vt st3 2 = Some lines
    /\ map line_text lines = drop (Z.to_nat (zlen hist3 - 2)) hist3
    /\ map index lines = seqZ (Z.max 0 (zlen hist3 - 2)) (Z.min 2 (zlen hist3)).
Proof.
  apply (@scrollback_lines_spec grid_vt scr3 hist3 st3 2);
    [reflexivity | reflexivity | exact hist3_view | reflexivity | vm_compute; discriminate | lia].
Defined.

End TermStateExamples.
