(* ===== verification/TermControl.v ===== *)
(** * TermControl: the terminal controller

    Models [terminal-control/src/controller.rs]: sessions and their ids, the
    reader and exit tasks, the escalating [close], the working-directory and
    environment policy, signals and mouse reports.  The pseudo-terminal and the
    child process are outcome arguments of the operations that use them. *)
From S2P Require Import Prelude Text Sandbox TermState.
Import Text.

(** ** Data *)

Inductive MouseEventKind : Type := KPress | KRelease | KMove | KScrollUp | KScrollDown.
Inductive MouseButton : Type := BLeft | BMiddle | BRight | BNone.
Record MouseEventRequest := mkMouse {
  m_row : Z; m_col : Z; m_kind : MouseEventKind; m_button : option MouseButton;
  m_shift : bool; m_alt : bool; m_ctrl : bool
}.
Inductive Signal : Type :=
| SIGHUP | SIGINT | SIGQUIT | SIGTERM | SIGKILL | SIGUSR1 | SIGUSR2 | SIGTSTP | SIGCONT.
#[export] Instance Signal_eq_dec : EqDecision Signal.
Proof. solve_decision. Defined.

Record SessionSandbox := mkSandbox {
  sb_rootfs : Path; sb_user_data_dir : Path; sb_profile_path : Path; sb_seed_plan_path : Path;
  sb_inherit : list InheritSpec; sb_network_outbound : bool; sb_native_ax_allowed : bool;
  sb_enforced : bool
}.
Record SpawnTerminalRequest := mkSpawn {
  req_shell : string; req_cwd : option Path; req_env : list (string * string);
  req_rows : Z; req_cols : Z; req_sandbox : option SessionSandbox
}.
Record SpawnTerminalResult := mkSpawned { res_session_id : string; res_rows : Z; res_cols : Z }.

Record TermOutputEvent := mkOut {
  o_session_id : string; o_seq : Z; o_data : list byte; o_dropped_bytes : Z; o_eof : bool
}.
Record TermExitEvent := mkExitEv { e_session_id : string; e_exit : TermExitState }.
Inductive TerminalEvent : Type := Output (o : TermOutputEvent) | Exit (e : TermExitEvent).

(** The command built for the child: argument vector, directory, environment. *)
Record Command := mkCmd { argv : list string; cmd_cwd : Path; cmd_env : gmap string string }.

Module TermControl.

Definition CLOSE_WAIT_TRIES : nat := 20.
Definition DEFAULT_PATH : string :=
  "/usr/bin:/bin:/usr/sbin:/sbin:/opt/homebrew/bin:/usr/local/bin".

(** ** Sizes, shell and working directory *)

Definition validate_size (rows cols : Z) : result unit TermError :=
  if (rows =? 0) || (cols =? 0) then Err (InvalidSize rows cols) else Ok tt.

Section Paths.
Context `{Os}.

Fixpoint split_colon (s : string) : list string :=
  match s with
  | EmptyString => [EmptyString]
  | String c s =>
      match split_colon s with
      | seg :: segs =>
          if decide (c = Ascii.ascii_of_nat 58) then EmptyString :: seg :: segs
          else String c seg :: segs
      | [] => [String c EmptyString]
      end
  end.

Definition path_dirs : list Path :=
  map path_of_string (split_colon (default DEFAULT_PATH (env_var "PATH"))).

Fixpoint find_on_path (shell : Path) (dirs : list Path) : option Path :=
  match dirs with
  | [] => None
  | d :: dirs =>
      let full := join d shell in
      if path_is_file full then Some full else find_on_path shell dirs
  end.

Definition resolve_shell_path (shell : string) : result Path TermError :=
  if bool_decide (trim (str_chars shell) = []) then Err EmptyShell
  else
    let candidate := path_of_string shell in
    if is_absolute candidate then Ok candidate
    else match find_on_path candidate path_dirs with
         | Some full => Ok full
         | None => Err (Spawn ("shell not found on PATH: " +:+ shell))
         end.

Fixpoint map_into (rootfs hp : Path) (inherit : list InheritSpec) : result Path TermError :=
  match inherit with
  | [] => Err (CwdOutsideRootfs hp)
  | spec :: inherit =>
      if bool_decide (hp = host_path spec)
         || starts_with hp (host_path spec)
      then match file_name (host_path spec) with
           | None => map_into rootfs hp inherit
           | Some leaf =>
               match strip_prefix hp (host_path spec) with
               | None => Err (Internal "strip_prefix failed")
               | Some suffix => Ok (join (join rootfs [Normal leaf]) suffix)
               end
           end
      else map_into rootfs hp inherit
  end.

Definition map_host_path_into_rootfs (rootfs : Path) (inherit : list InheritSpec) (hp : Path)
    : result Path TermError :=
  if bool_decide (home_dir = Some hp) then Ok rootfs
  else map_into rootfs hp inherit.

Definition sandbox_candidate (sb : SessionSandbox) (cwd : option Path) : result Path TermError :=
  let rootfs := sb_rootfs sb in
  match cwd with
  | None => Ok rootfs
  | Some p =>
      if bool_decide (p = [RootDir]) then Ok rootfs
      else if starts_with p rootfs then Ok p
      else if negb (is_absolute p) then Ok (join rootfs p)
      else map_host_path_into_rootfs rootfs (sb_inherit sb) p
  end.

Definition resolve_sandbox_cwd (sb : SessionSandbox) (cwd : option Path) : result Path TermError :=
  candidate <-? sandbox_candidate sb cwd;;
  if negb (path_exists candidate) || negb (path_is_dir candidate)
  then Err (CwdNotFound candidate)
  else match canonicalize candidate with
       | Err e => Err (Io e)
       | Ok canonical =>
           if negb (starts_with canonical (sb_rootfs sb)) then Err (CwdOutsideRootfs canonical)
           else Ok canonical
       end.

Definition resolve_cwd (sandbox : option SessionSandbox) (cwd : option Path)
    : result Path TermError :=
  match sandbox with
  | Some sb => resolve_sandbox_cwd sb cwd
  | None =>
      candidate <-? match cwd with
                    | Some p =>
                        if is_absolute p then Ok p
                        else match current_dir with
                             | Ok d => Ok (join d p)
                             | Err e => Err (Io e)
                             end
                    | None => match current_dir with Ok d => Ok d | Err e => Err (Io e) end
                    end;;
      if path_is_dir candidate then Ok candidate else Err (CwdNotFound candidate)
  end.

(** ** The child's command *)

Definition base_env (shell cwd : Path) : gmap string string :=
  let env := <["SHELL" := path_to_string shell]>
    (<["PWD" := path_to_string cwd]>
    (<["TERM" := "xterm-256color"]>
    (<["PATH" := default DEFAULT_PATH (env_var "PATH")]> ∅))) in
  match env_var "LANG" with Some lang => <["LANG" := lang]> env | None => env end.

Definition build_command (shell cwd : Path) (sandbox : option SessionSandbox)
    (env_overrides : list (string * string)) : result Command TermError :=
  argv <-? match sandbox with
           | Some sb =>
               match Sandbox.wrap_argv (sb_profile_path sb) shell [] with
               | Ok (binary, argv) => Ok (path_to_string binary :: argv)
               | Err _ => Err (Spawn "sandbox-exec not found")
               end
           | None => Ok [path_to_string shell]
           end;;
  let env := base_env shell cwd in
  env <-? match sandbox with
          | Some sb =>
              let tmpdir := join (sb_rootfs sb) [Normal "tmp"] in
              match create_dir_all tmpdir with
              | Err e => Err (Io e)
              | Ok _ => Ok (<["TMPDIR" := path_to_string tmpdir]>
                            (<["HOME" := path_to_string (sb_rootfs sb)]> env))
              end
          | None =>
              let env := <["HOME" := path_to_string (default [RootDir] home_dir)]> env in
              Ok (match env_var "TMPDIR" with Some t => <["TMPDIR" := t]> env | None => env end)
          end;;
  Ok (mkCmd argv cwd (foldl (fun env kv => <[kv.1 := kv.2]> env) env env_overrides)).

End Paths.

(** ** Signals *)

Definition chars_of (s : string) : list Z := str_chars s.

Definition strip_sig (l : list Z) : list Z :=
  if bool_decide (take 3 l = chars_of "SIG") then drop 3 l else l.

Definition parse_signal (name : list Z) : result Signal TermError :=
  let n := strip_sig (map to_ascii_uppercase (trim name)) in
  if decide (n = chars_of "HUP") then Ok SIGHUP
  else if decide (n = chars_of "INT") then Ok SIGINT
  else if decide (n = chars_of "QUIT") then Ok SIGQUIT
  else if decide (n = chars_of "TERM") then Ok SIGTERM
  else if decide (n = chars_of "KILL") then Ok SIGKILL
  else if decide (n = chars_of "USR1") then Ok SIGUSR1
  else if decide (n = chars_of "USR2") then Ok SIGUSR2
  else if decide (n = chars_of "TSTP") then Ok SIGTSTP
  else if decide (n = chars_of "CONT") then Ok SIGCONT
  else Err (UnsupportedSignal n).

(** ** Mouse reports *)

Definition modifier_bits (shift alt ctrl : bool) : Z :=
  let bits := 0 in
  let bits := if shift then sat_add u8_max bits 4 else bits in
  let bits := if alt then sat_add u8_max bits 8 else bits in
  if ctrl then sat_add u8_max bits 16 else bits.

Definition button_code (b : MouseButton) : result Z TermError :=
  match b with
  | BLeft => Ok 0 | BMiddle => Ok 1 | BRight => Ok 2
  | BNone => Err (Internal "buttonless press is invalid")
  end.

Definition motion_button_code (b : MouseButton) : result Z TermError :=
  match b with BLeft => Ok 0 | BMiddle => Ok 1 | BRight => Ok 2 | BNone => Ok 3 end.

Definition mouse_code (q : MouseEventRequest) : result Z TermError :=
  let code := modifier_bits (m_shift q) (m_alt q) (m_ctrl q) in
  match m_kind q with
  | KPress => b <-? button_code (default BLeft (m_button q));; Ok (sat_add u8_max code b)
  | KRelease => Ok (sat_add u8_max code 3)
  | KMove => b <-? motion_button_code (default BNone (m_button q));;
             Ok (sat_add u8_max (sat_add u8_max code 32) b)
  | KScrollUp => Ok (sat_add u8_max code 64)
  | KScrollDown => Ok (sat_add u8_max code 65)
  end.

Definition is_release (k : MouseEventKind) : bool := match k with KRelease => true | _ => false end.
Definition ESC : byte := Byte.x1b.
Definition LBRACKET : byte := Byte.x5b.
Definition LESS : byte := Byte.x3c.
Definition SEMI : byte := Byte.x3b.
Definition UPPER_M : byte := Byte.x4d.
Definition LOWER_M : byte := Byte.x6d.

Definition encode_mouse_event (mode : TermMouseMode) (encoding : TermMouseEncoding)
    (q : MouseEventRequest) : result (list byte) TermError :=
  match mode with
  | ModeNone => Err MouseTrackingDisabled
  | _ =>
      code <-? mouse_code q;;
      let x := sat_add u16_max (m_col q) 1 in
      let y := sat_add u16_max (m_row q) 1 in
      match encoding with
      | EncSgr =>
          Ok ([ESC; LBRACKET; LESS] ++ fmt_dec code ++ [SEMI] ++ fmt_dec x ++ [SEMI] ++ fmt_dec y
              ++ [if is_release (m_kind q) then LOWER_M else UPPER_M])
      | EncDefault | EncUtf8 =>
          let c1 := sat_add u16_max x 32 in
          let c2 := sat_add u16_max y 32 in
          if (255 <? c1) || (255 <? c2) then Err (MouseOutOfBounds y x (m_row q) (m_col q))
          else match char_from_u32 (sat_add u8_max code 32) with
               | None => Err (Internal "invalid mouse event button encoding")
               | Some b0 =>
                   match char_from_u32 c1 with
                   | None => Err (Internal "invalid mouse event x encoding")
                   | Some b1 =>
                       match char_from_u32 c2 with
                       | None => Err (Internal "invalid mouse event y encoding")
                       | Some b2 =>
                           Ok ([ESC; LBRACKET; UPPER_M]
                               ++ encode_utf8 b0 ++ encode_utf8 b1 ++ encode_utf8 b2)
                       end
                   end
               end
      end
  end.

(** ** Sessions *)

Section Session.
Context `{Vt100}.

(** [writer]: whether the writer is still open, with the bytes written so far;
    [read_handle], [exit_handle]: whether the session still holds the task. *)
Record TermSession := mkSession {
  session_id : string;
  writer : option (list byte);
  shared : TermState.SharedState;
  read_handle : bool;
  exit_handle : bool
}.

Definition set_shared (s : TermSession) (sh : TermState.SharedState) : TermSession :=
  mkSession (session_id s) (writer s) sh (read_handle s) (exit_handle s).
Definition set_writer (s : TermSession) (w : option (list byte)) : TermSession :=
  mkSession (session_id s) w (shared s) (read_handle s) (exit_handle s).
Definition abort_tasks (s : TermSession) : TermSession :=
  mkSession (session_id s) (writer s) (shared s) false false.

(** [io]: the outcome of [write_all] followed by [flush]. *)
Definition write_bytes (io : result unit string) (s : TermSession) (d : list byte)
    : result Z TermError * TermSession :=
  match writer s with
  | None => (Err (Internal "terminal writer already closed"), s)
  | Some w =>
      match io with
      | Err e => (Err (Io e), s)
      | Ok _ => (Ok (zlen d), set_writer s (Some (w ++ d)))
      end
  end.

(** The reader task: the outcomes of successive reads, the sink's events. *)
Fixpoint reader_loop (sink : bool) (id : string) (reads : list (result (list byte) string))
    (sh : TermState.SharedState) (events : list TermOutputEvent)
    : TermState.SharedState * list TermOutputEvent :=
  match reads with
  | [] => (sh, events)
  | Ok [] :: _ => (sh, events)
  | Ok chunk :: reads =>
      let '(sh, dropped) := TermState.process_output sh chunk in
      if sink then
        let '(sh, seq) := TermState.next_output_seq sh in
        reader_loop sink id reads sh (events ++ [mkOut id seq chunk dropped false])
      else reader_loop sink id reads sh events
  | Err _ :: _ => (sh, events)
  end.

(** The child process: what successive [try_wait] calls report (an exit code
    and a signal name once it is gone), its process group and pid, and what
    [kill] answers. *)
Record Child := mkChild {
  try_wait : nat -> result (option (Z * option string)) string;
  pgid : option Z;
  pid : option Z;
  kill_ret : Z -> Signal -> result unit string;
  child_kill : result unit string
}.

Definition as_i32 (z : Z) : Z := (z + 2 ^ 31) mod 2 ^ 32 - 2 ^ 31.

(** The result and the [kill] calls made. *)
Definition send_signal (c : Child) (sg : Signal) : result unit TermError * list (Z * Signal) :=
  let kill_at t := (match kill_ret c t sg with Ok _ => Ok tt | Err e => Err (Io e) end, [(t, sg)]) in
  match pgid c with
  | Some g => kill_at (- g)
  | None =>
      match pid c with
      | Some p => kill_at (as_i32 p)
      | None => (Err (Internal "terminal child has no pid"), [])
      end
  end.

Definition try_wait_once (c : Child) (k : nat) : result (option TermExitState) TermError :=
  match try_wait c k with
  | Err e => Err (Io e)
  | Ok None => Ok None
  | Ok (Some (code, sig)) => Ok (Some (mkExit true (Some code) sig))
  end.

(** [wait_for_exit] from poll number [k]: the result, the session, the next poll. *)
Fixpoint wait_loop (c : Child) (tries : nat) (k : nat) (s : TermSession)
    : result (option TermExitState) TermError * TermSession * nat :=
  match tries with
  | O => (Ok None, s, k)
  | S tries =>
      match try_wait_once c k with
      | Err e => (Err e, s, S k)
      | Ok (Some e) =>
          (Ok (Some e), set_shared s (TermState.mark_exit (shared s) (exit_code e) (exit_signal e)), S k)
      | Ok None => wait_loop c tries (S k) s
      end
  end.
Definition wait_for_exit (c : Child) : nat -> TermSession -> _ := wait_loop c CLOSE_WAIT_TRIES.

(** [TermSession::close]: the result, the session, the signals sent and the
    number of polls made. *)
Definition close (c : Child) (s : TermSession)
    : result TermExitState TermError * TermSession * list (Z * Signal) * nat :=
  let s := set_writer s None in
  let sent := (send_signal c SIGHUP).2 in
  match wait_for_exit c 0 s with
  | (Err e, s, k) => (Err e, s, sent, k)
  | (Ok (Some e), s, k) => (Ok e, abort_tasks s, sent, k)
  | (Ok None, s, k) =>
      let sent := sent ++ (send_signal c SIGTERM).2 in
      match wait_for_exit c k s with
      | (Err e, s, k) => (Err e, s, sent, k)
      | (Ok (Some e), s, k) => (Ok e, abort_tasks s, sent, k)
      | (Ok None, s, k) =>
          match child_kill c with
          | Err e => (Err (Io e), s, sent, k)
          | Ok _ =>
              match wait_for_exit c k s with
              | (Err e, s, k) => (Err e, s, sent, k)
              | (Ok o, s, k) =>
                  let e := default (mkExit true None (Some "SIGKILL")) o in
                  let s := set_shared s
                    (TermState.mark_exit (shared s) (exit_code e) (exit_signal e)) in
                  (Ok e, abort_tasks s, sent, k)
              end
          end
      end
  end.

(** ** The controller *)

Record TerminalController := mkCtl {
  sessions : gmap string TermSession;
  next_id : Z;
  notification_sink : bool
}.

Definition ctl_new (sink : bool) : TerminalController := mkCtl ∅ 1 sink.
Definition set_notification_sink (c : TerminalController) (sink : bool) : TerminalController :=
  mkCtl (sessions c) (next_id c) sink.
Definition set_session (c : TerminalController) (id : string) (s : TermSession) : TerminalController :=
  mkCtl (<[id := s]> (sessions c)) (next_id c) (notification_sink c).

Definition session (c : TerminalController) (id : string) : result TermSession TermError :=
  match sessions c !! id with Some s => Ok s | None => Err (SessionNotFound id) end.

Definition fmt_session_id (n : Z) : string := "term_" +:+ String.string_of_list_byte (fmt_hex n).

(** [pty]: the outcome of opening the pseudo-terminal and spawning the command. *)
Definition spawn_terminal `{Os} (pty : Command -> result unit string) (c : TerminalController)
    (q : SpawnTerminalRequest) : result SpawnTerminalResult TermError * TerminalController :=
  match validate_size (req_rows q) (req_cols q) with
  | Err e => (Err e, c)
  | Ok _ =>
  match resolve_shell_path (req_shell q) with
  | Err e => (Err e, c)
  | Ok shell =>
  match resolve_cwd (req_sandbox q) (req_cwd q) with
  | Err e => (Err e, c)
  | Ok cwd =>
  match build_command shell cwd (req_sandbox q) (req_env q) with
  | Err e => (Err e, c)
  | Ok cmd =>
  match pty cmd with
  | Err e => (Err (Spawn e), c)
  | Ok _ =>
      let id := fmt_session_id (next_id c) in
      let sh := TermState.shared_new (req_rows q) (req_cols q)
                  TermState.DEFAULT_RAW_OUTPUT_BYTES TermState.DEFAULT_SCROLLBACK_LINES in
      let s := mkSession id (Some []) sh true true in
      (Ok (mkSpawned id (req_rows q) (req_cols q)),
       mkCtl (<[id := s]> (sessions c)) (wrap_add u64_max (next_id c) 1) (notification_sink c))
  end end end end end.

Definition ctl_write_bytes (io : result unit string) (c : TerminalController) (id : string)
    (d : list byte) : result Z TermError * TerminalController :=
  match session c id with
  | Err e => (Err e, c)
  | Ok s => let '(r, s') := write_bytes io s d in (r, set_session c id s')
  end.

Definition ctl_read_output (c : TerminalController) (id : string) (max_bytes : Z)
    : result TermReadChunk TermError * TerminalController :=
  match session c id with
  | Err e => (Err e, c)
  | Ok s => let '(sh, chunk) := TermState.read_output (shared s) max_bytes in
            (Ok chunk, set_session c id (set_shared s sh))
  end.

Definition ctl_snapshot (c : TerminalController) (id : string)
    : result TermSnapshot TermError * TerminalController :=
  match session c id with
  | Err e => (Err e, c)
  | Ok s => let '(sh, snap) := TermState.build_snapshot (shared s) id in
            (Ok snap, set_session c id (set_shared s sh))
  end.

Definition ctl_resize (io : result unit string) (c : TerminalController) (id : string)
    (rows cols : Z) : result unit TermError * TerminalController :=
  match validate_size rows cols with
  | Err e => (Err e, c)
  | Ok _ =>
      match session c id with
      | Err e => (Err e, c)
      | Ok s =>
          match io with
          | Err e => (Err (Io e), c)
          | Ok _ => (Ok tt, set_session c id (set_shared s (TermState.resize (shared s) rows cols)))
          end
      end
  end.

Definition ctl_send_signal (ch : Child) (c : TerminalController) (id : string) (name : list Z)
    : result unit TermError * list (Z * Signal) :=
  match session c id with
  | Err e => (Err e, [])
  | Ok _ =>
      match parse_signal name with
      | Err e => (Err e, [])
      | Ok sg => send_signal ch sg
      end
  end.

Definition mouse_event (io : result unit string) (c : TerminalController) (id : string)
    (q : MouseEventRequest) : result unit TermError * TerminalController :=
  match session c id with
  | Err e => (Err e, c)
  | Ok s =>
      let '(sh, snap) := TermState.build_snapshot (shared s) id in
      let s := set_shared s sh in
      let c := set_session c id s in
      if (snap_rows snap <=? m_row q) || (snap_cols snap <=? m_col q)
      then (Err (MouseOutOfBounds (snap_rows snap) (snap_cols snap) (m_row q) (m_col q)), c)
      else match encode_mouse_event (mouse_mode snap) (mouse_encoding snap) q with
           | Err e => (Err e, c)
           | Ok bs =>
               let '(r, s) := write_bytes io s bs in
               (match r with Ok _ => Ok tt | Err e => Err e end, set_session c id s)
           end
  end.

Definition ctl_close (ch : Child) (c : TerminalController) (id : string)
    : result TermExitState TermError * TerminalController * option TermSession :=
  match sessions c !! id with
  | None => (Err (SessionNotFound id), c, None)
  | Some s =>
      let '(r, s', _, _) := close ch s in
      (r, mkCtl (delete id (sessions c)) (next_id c) (notification_sink c), Some s')
  end.

(** [shutdown_all] closes every id present at the start, ignoring errors. *)
Definition shutdown_all (child_of : string -> Child) (c : TerminalController) : TerminalController :=
  foldl (fun c id => (ctl_close (child_of id) c id).1.2) c (map fst (map_to_list (sessions c))).

Definition session_count (c : TerminalController) : Z := Z.of_nat (base.size (sessions c)).

End Session.

(** ** Closing a session *)

Section Closing.
Context `{Vt100} (c : Child).

Lemma try_wait_once_cases k :
  match try_wait_once c k with
  | Ok None => try_wait c k = Ok None
  | Ok (Some e) => exited e = true
  | Err e => exists m, e = Io m /\ try_wait c k = Err m
  end.
Proof. unfold try_wait_once. destruct (try_wait c k) as [[[code sig]|]|m]; eauto. Qed.

Definition marked (s : TermSession) (e : TermExitState) : TermSession :=
  set_shared s (TermState.mark_exit (shared s) (exit_code e) (exit_signal e)).

Lemma marked_exit s e : exited e = true -> TermState.exit (shared (marked s e)) = e.
Proof. destruct e; simpl. by intros ->. Qed.

Lemma wait_loop_spec tries : forall k s,
  let '(r, s', k') := wait_loop c tries k s in
  (k <= k' <= k + tries)%nat
  /\ match r with
     | Ok None => s' = s /\ k' = (k + tries)%nat /\ forall j, (k <= j < k')%nat -> try_wait c j = Ok None
     | Ok (Some e) => exited e = true /\ s' = marked s e
     | Err e => s' = s /\ exists m j, e = Io m /\ (j < k')%nat /\ try_wait c j = Err m
     end.
Proof.
  induction tries as [|tries IH]; intros k s; cbn [wait_loop].
  - split; [lia|]. split_and!; [done|lia|]. intros. lia.
  - pose proof (try_wait_once_cases k) as Hc. destruct (try_wait_once c k) as [[e|]|e].
    + split; [lia|]. done.
    + specialize (IH (S k) s). destruct (wait_loop c tries (S k) s) as [[r s'] k'].
      destruct IH as [Hk IH]. split; [lia|]. destruct r as [[e|]|e]; [done| |done].
      destruct IH as (-> & -> & Hall). split_and!; [done|lia|].
      intros j Hj. destruct (decide (j = k)) as [->|]; [done|]. apply Hall. lia.
    + destruct Hc as (m & -> & Hm). split; [lia|]. split; [done|]. exists m, k. split_and!; [done|lia|done].
Qed.

(** What a finished close guarantees, by its result. *)
Definition close_result (s s' : TermSession) (k : nat) (r : result TermExitState TermError) : Prop :=
  match r with
  | Ok e => exited e = true /\ TermState.exit (shared s') = e
            /\ read_handle s' = false /\ exit_handle s' = false
  | Err e => (exists m, e = Io m /\ ((exists j, (j < k)%nat /\ try_wait c j = Err m) \/ child_kill c = Err m))
             /\ read_handle s' = read_handle s /\ exit_handle s' = exit_handle s
  end.

End Closing.

(** ** Session ids *)

Lemma fmt_session_id_inj m n : 0 <= m -> 0 <= n -> fmt_session_id m = fmt_session_id n -> m = n.
Proof.
  intros Hm Hn E. unfold fmt_session_id in E. apply (inj (String.app "term_")) in E.
  apply (f_equal String.list_byte_of_string) in E.
  rewrite !String.list_byte_of_string_of_list_byte in E.
  by apply (fmt_radix_inj 16) in E.
Qed.

Section Ids.
Context `{Vt100} `{Os}.

(** States after [n] controller operations. *)
Inductive reach (sink : bool) : nat -> TerminalController -> Prop :=
| reach_new : reach sink 0 (ctl_new sink)
| reach_spawn n c pty q r c' : reach sink n c -> spawn_terminal pty c q = (r, c') -> reach sink (S n) c'
| reach_update n c id s s' : reach sink n c -> sessions c !! id = Some s ->
    session_id s' = session_id s -> reach sink (S n) (set_session c id s')
| reach_close n c ch id : reach sink n c -> reach sink (S n) (ctl_close ch c id).1.2.

Definition ids_inv (n : nat) (c : TerminalController) : Prop :=
  1 <= next_id c <= 1 + Z.of_nat n
  /\ forall id s, sessions c !! id = Some s ->
     session_id s = id /\ exists k, 1 <= k < next_id c /\ id = fmt_session_id k.

Lemma spawn_cases pty c q :
  (exists e, spawn_terminal pty c q = (Err e, c))
  \/ exists s, session_id s = fmt_session_id (next_id c)
     /\ spawn_terminal pty c q
        = (Ok (mkSpawned (session_id s) (req_rows q) (req_cols q)),
           mkCtl (<[session_id s := s]> (sessions c)) (wrap_add u64_max (next_id c) 1)
             (notification_sink c)).
Proof.
  unfold spawn_terminal. repeat (case_match; [|left; eauto]).
  right. by eexists (mkSession _ _ _ _ _).
Qed.

Lemma ids_inv_S n c : ids_inv n c -> ids_inv (S n) c.
Proof. intros [? ?]. split; [lia|done]. Qed.

Lemma ids_reach sink n c : reach sink n c -> Z.of_nat n < u64_max -> ids_inv n c.
Proof.
  induction 1 as [|n c pty q r c' _ IH E|n c id s s' _ IH Hs Hid|n c ch id _ IH]; intros Hn.
  - split; [simpl; lia|]. intros id s Hs. simpl in Hs. by rewrite lookup_empty in Hs.
  - specialize (IH ltac:(lia)). destruct (spawn_cases pty c q) as [[e E']|(s & Hid & E')];
      rewrite E' in E; simplify_eq; [by apply ids_inv_S|].
    destruct IH as [Hnx Hall]. split; cbn [next_id sessions].
    + rewrite wrap_add_exact; lia.
    + rewrite wrap_add_exact by lia. intros id s' [[<- <-]|[_ Hs]]%lookup_insert_Some.
      * split; [done|]. exists (next_id c). split; [lia|done].
      * destruct (Hall id s' Hs) as (? & k & ? & ?). split; [done|]. exists k. split; [lia|done].
  - specialize (IH ltac:(lia)). destruct IH as [Hnx Hall]. split; cbn [next_id sessions set_session]; [lia|].
    intros id' s0 [[<- <-]|[_ Hs']]%lookup_insert_Some; [|auto].
    rewrite Hid. auto.
  - specialize (IH ltac:(lia)). unfold ctl_close. destruct (sessions c !! id) as [s|]; [|by apply ids_inv_S].
    destruct (close ch s) as [[[r s'] sent] k]. destruct IH as [Hnx Hall].
    split; cbn [fst snd next_id sessions]; [lia|]. intros id' s0 [_ Hs]%lookup_delete_Some. auto.
Qed.

(** Spawning never disturbs a live session: in every state reached by fewer
    than 2^64 operations, a successful spawn returns an id that no session has,
    registers exactly one more session under it and leaves the others as they
    were; a failing spawn changes nothing. *)
Theorem spawn_id_fresh (sink : bool) (n : nat) (c c' : TerminalController)
    (pty : Command -> result unit string) (q : SpawnTerminalRequest)
    (r : result SpawnTerminalResult TermError) :
  reach sink n c -> Z.of_nat n < u64_max -> spawn_terminal pty c q = (r, c') ->
  match r with
  | Ok res =>
      sessions c !! res_session_id res = None
      /\ is_Some (sessions c' !! res_session_id res)
      /\ session_count c' = session_count c + 1
      /\ forall id, id <> res_session_id res -> sessions c' !! id = sessions c !! id
  | Err _ => c' = c
  end.
Proof.
  intros Hr Hn E. destruct (ids_reach sink n c Hr Hn) as [Hnx Hall].
  destruct (spawn_cases pty c q) as [[e E']|(s & Hid & E')]; rewrite E' in E; simplify_eq; [done|].
  cbn [res_session_id sessions].
  assert (Hfresh : sessions c !! session_id s = None).
  { destruct (sessions c !! session_id s) as [s0|] eqn:Es; [|done].
    destruct (Hall _ _ Es) as (_ & k & Hk & Hid'). rewrite Hid in Hid'.
    apply fmt_session_id_inj in Hid'; lia. }
  split_and!; [done|by rewrite lookup_insert_eq| |].
  - unfold session_count. cbn [sessions]. rewrite map_size_insert_None by done. lia.
  - intros id Hne. by rewrite lookup_insert_ne.
Qed.
End Ids.

(** ** The reader task *)

Section Reader.
Context `{Vt100}.

(** The chunks the reader gets before the end of file or the first error. *)
Fixpoint live_chunks (reads : list (result (list byte) string)) : list (list byte) :=
  match reads with
  | Ok (b :: d) :: reads => (b :: d) :: live_chunks reads
  | _ => []
  end.

(** The reader task delivers the output stream: every chunk read before the
    end of file or an error goes through the ring and the parser in order; with
    a sink, one event per chunk carries exactly its bytes under consecutive
    sequence numbers, and without one there are no events. *)
Theorem reader_loop_stream (sink : bool) (id : string) (reads : list (result (list byte) string))
    (sh : TermState.SharedState) :
  0 <= TermState.output_seq sh ->
  TermState.output_seq sh + zlen (live_chunks reads) <= u64_max ->
  let '(sh', ev) := reader_loop sink id reads sh [] in
  TermState.output sh' = foldl (fun r d => (TermState.push r d).1) (TermState.output sh) (live_chunks reads)
  /\ TermState.parser sh' = foldl (fun p d => (process p d).1) (TermState.parser sh) (live_chunks reads)
  /\ map o_data ev = (if sink then live_chunks reads else [])
  /\ map o_seq ev = (if sink then seqZ (TermState.output_seq sh + 1) (zlen (live_chunks reads)) else []).
Proof.
  intros H0 Hmax.
  cut (forall ev0, let '(sh', ev) := reader_loop sink id reads sh ev0 in
    TermState.output sh' = foldl (fun r d => (TermState.push r d).1) (TermState.output sh) (live_chunks reads)
    /\ TermState.parser sh' = foldl (fun p d => (process p d).1) (TermState.parser sh) (live_chunks reads)
    /\ map o_data ev = map o_data ev0 ++ (if sink then live_chunks reads else [])
    /\ map o_seq ev = map o_seq ev0
         ++ (if sink then seqZ (TermState.output_seq sh + 1) (zlen (live_chunks reads)) else [])).
  { intros Hc. apply (Hc []). }
  revert sh H0 Hmax. induction reads as [|rd reads IH]; intros sh H0 Hmax ev0.
  { simpl. destruct sink; by rewrite !app_nil_r. }
  destruct rd as [[|b d]|e]; [simpl; destruct sink; by rewrite !app_nil_r| |simpl; destruct sink; by rewrite !app_nil_r].
  cbn [live_chunks reader_loop foldl] in *. rewrite zlen_cons in *.
  pose proof (zlen_nonneg (live_chunks reads)). unfold TermState.process_output.
  destruct (TermState.push (TermState.output sh) (b :: d)) as [ring dropped].
  destruct (process (TermState.parser sh) (b :: d)) as [scr cbs].
  destruct sink; unfold TermState.next_output_seq;
    cbn [TermState.output_seq TermState.output TermState.parser TermState.callbacks TermState.exit TermState.snapshot_seq].
  - rewrite !wrap_add_exact by lia. match goal with |- context [reader_loop _ _ _ ?sh1 ?ev1] =>
      specialize (IH sh1); cbn [TermState.output_seq TermState.output TermState.parser] in IH;
      specialize (IH ltac:(lia) ltac:(lia) ev1);
      destruct (reader_loop true id reads sh1 ev1) as [sh' ev] end.
    destruct IH as (A & B & C & D). split_and!; [done|done| |].
    + rewrite C, map_app, <- app_assoc. done.
    + rewrite D, map_app, <- app_assoc. f_equal. simpl.
      rewrite (seqZ_cons (TermState.output_seq sh + 1)) by lia. f_equal. f_equal; lia.
  - match goal with |- context [reader_loop _ _ _ ?sh1 ?ev1] =>
      specialize (IH sh1); cbn [TermState.output_seq TermState.output TermState.parser] in IH;
      specialize (IH ltac:(lia) ltac:(lia) ev1);
      destruct (reader_loop false id reads sh1 ev1) as [sh' ev] end.
    destruct IH as (A & B & C & D). done.
Qed.
End Reader.

(** ** Confinement of the working directory *)

Section Cwd.
Context `{Os}.

Lemma map_into_inside rootfs hp inherit p :
  rootfs <> [] -> path_wf hp -> map_into rootfs hp inherit = Ok p -> starts_with p rootfs = true.
Proof.
  intros Hr Hw. induction inherit as [|spec inherit IH]; cbn [map_into]; [done|].
  case_match; [|done]. destruct (file_name (host_path spec)) as [leaf|] eqn:Ef; [|done].
  destruct (strip_prefix hp (host_path spec)) as [suffix|] eqn:Es; [|done].
  intros [= <-]. apply strip_prefix_Some in Es. subst hp.
  rewrite join_plain, join_plain.
  - apply starts_with_spec. rewrite <- app_assoc. eauto.
  - done.
  - by repeat constructor.
  - rewrite join_plain by (done || by repeat constructor). by destruct rootfs.
  - apply (path_wf_suffix (host_path spec)); [|done]. intros E. by rewrite E in Ef.
Qed.

Lemma sandbox_candidate_inside sb cwd p :
  sb_rootfs sb <> [] -> (forall q, cwd = Some q -> path_wf q) ->
  sandbox_candidate sb cwd = Ok p -> starts_with p (sb_rootfs sb) = true.
Proof.
  intros Hr Hw. assert (Hself : starts_with (sb_rootfs sb) (sb_rootfs sb) = true).
  { apply starts_with_spec. exists []. by rewrite app_nil_r. }
  unfold sandbox_candidate. destruct cwd as [q|]; [|by intros [= <-]].
  specialize (Hw q eq_refl). case_bool_decide; [by intros [= <-]|].
  destruct (starts_with q (sb_rootfs sb)) eqn:Eq; [by intros [= <-]|].
  destruct (is_absolute q) eqn:Ea; cbn [negb].
  - unfold map_host_path_into_rootfs. case_bool_decide; [by intros [= <-]|]. by apply map_into_inside.
  - intros [= <-]. unfold join. rewrite Ea. destruct (sb_rootfs sb) as [|c l]; [done|].
    apply starts_with_spec. eauto.
Qed.

(** A sandboxed terminal starts inside its rootfs: whatever directory is
    asked for, a resolved one is an existing directory whose canonical path is
    under the rootfs, found from a candidate that is itself under it. *)
Theorem sandbox_cwd_confined (sb : SessionSandbox) (cwd : option Path) (p : Path) :
  sb_rootfs sb <> [] -> (forall q, cwd = Some q -> path_wf q) ->
  resolve_cwd (Some sb) cwd = Ok p ->
  starts_with p (sb_rootfs sb) = true
  /\ exists candidate, starts_with candidate (sb_rootfs sb) = true
     /\ path_is_dir candidate = true /\ canonicalize candidate = Ok p.
Proof.
  intros Hr Hw. cbn [resolve_cwd]. unfold resolve_sandbox_cwd.
  destruct (sandbox_candidate sb cwd) as [cand|] eqn:Ec; [|done].
  pose proof (sandbox_candidate_inside sb cwd cand Hr Hw Ec) as Hin.
  destruct (path_exists cand), (path_is_dir cand) eqn:Ed; cbn [negb orb]; try done.
  destruct (canonicalize cand) as [canon|] eqn:Ek; [|done].
  destruct (starts_with canon (sb_rootfs sb)) eqn:Es; cbn [negb]; [|done].
  intros [= <-]. eauto.
Qed.

(** ** The child's environment *)

Definition allowed_keys : list string := ["PATH"; "TERM"; "PWD"; "SHELL"; "LANG"; "HOME"; "TMPDIR"].

Definition keys_in (ks : list string) (env : gmap string string) : Prop :=
  forall k, is_Some (env !! k) -> k ∈ ks.

Lemma keys_in_insert ks env k v : keys_in ks env -> k ∈ ks -> keys_in ks (<[k := v]> env).
Proof. intros He Hk k' Hs. apply lookup_insert_is_Some in Hs as [->|[_ ?]]; auto. Qed.

Lemma base_env_keys shell cwd : keys_in allowed_keys (base_env shell cwd).
Proof.
  unfold base_env. assert (He : keys_in allowed_keys ∅) by (intros k [x Hx]; by rewrite lookup_empty in Hx).
  case_match; repeat apply keys_in_insert; try done; set_solver.
Qed.

Definition overrides (ov : list (string * string)) (env : gmap string string) : gmap string string :=
  foldl (fun env kv => <[kv.1 := kv.2]> env) env ov.

Lemma overrides_keys ov : forall env k, is_Some (overrides ov env !! k) ->
  is_Some (env !! k) \/ k ∈ map fst ov.
Proof.
  induction ov as [|[a v] ov IH]; intros env k Hs; simpl in *; [auto|].
  destruct (IH _ _ Hs) as [Hi|Hi]; [|set_solver].
  apply lookup_insert_is_Some in Hi as [->|[_ ?]]; set_solver.
Qed.

Lemma overrides_other ov : forall env k, k ∉ map fst ov -> overrides ov env !! k = env !! k.
Proof.
  induction ov as [|[a v] ov IH]; intros env k Hk; simpl in *; [done|].
  unfold overrides in *. rewrite IH by set_solver. apply lookup_insert_ne. set_solver.
Qed.

(** The child's command: nothing of the parent's environment leaks beyond a
    fixed set of variables and the caller's overrides; a sandboxed child runs
    under sandbox-exec with the session's profile, and its HOME and TMPDIR are
    the rootfs and its tmp directory unless the caller overrides them. *)
Theorem build_command_spec (shell cwd : Path) (sandbox : option SessionSandbox)
    (ov : list (string * string)) (cmd : Command) :
  build_command shell cwd sandbox ov = Ok cmd ->
  cmd_cwd cmd = cwd
  /\ (forall k, is_Some (cmd_env cmd !! k) -> k ∈ allowed_keys \/ k ∈ map fst ov)
  /\ match sandbox with
     | None => argv cmd = [path_to_string shell]
     | Some sb =>
         argv cmd = [Sandbox.SANDBOX_EXEC_PATH; "-f"; path_to_string (sb_profile_path sb); "--";
                     path_to_string shell]
         /\ ("HOME" ∉ map fst ov -> cmd_env cmd !! "HOME" = Some (path_to_string (sb_rootfs sb)))
         /\ ("TMPDIR" ∉ map fst ov ->
             cmd_env cmd !! "TMPDIR" = Some (path_to_string (join (sb_rootfs sb) [Normal "tmp"])))
     end.
Proof.
  unfold build_command. pose proof (base_env_keys shell cwd) as Hb.
  assert (Hkeys : forall env, keys_in allowed_keys env -> forall k,
    is_Some (overrides ov env !! k) -> k ∈ allowed_keys \/ k ∈ map fst ov).
  { intros env He k Hs. destruct (overrides_keys ov env k Hs); [left; by apply He|auto]. }
  destruct sandbox as [sb|].
  - unfold Sandbox.wrap_argv. destruct (path_exists _); cbn [negb]; [|done].
    destruct (create_dir_all _); [|done]. intros [= <-]. cbn [cmd_cwd cmd_env argv].
    split; [done|]. split; [|split; [done|]].
    + apply Hkeys. repeat apply keys_in_insert; try done; set_solver.
    + split; intros Hno; (etransitivity; [by apply (overrides_other ov)|]).
      * rewrite lookup_insert_ne by done. apply lookup_insert_eq.
      * apply lookup_insert_eq.
  - intros [= <-]. cbn [cmd_cwd cmd_env argv]. split; [done|]. split; [|done]. apply Hkeys.
    case_match; repeat apply keys_in_insert; try done; set_solver.
Qed.
End Cwd.

(** ** Mouse reports read back *)

(** A terminal application's reader of mouse reports: code, column, row (from
    one) and whether the report is a release in the SGR form. *)
Definition decode_mouse (l : list byte) : option (Z * Z * Z * bool) :=
  match l with
  | e :: b :: k :: rest =>
      if negb (bool_decide (e = ESC) && bool_decide (b = LBRACKET)) then None
      else if bool_decide (k = LESS) then
        let '(code, r1) := read_dec rest in
        match r1 with
        | s1 :: r1 =>
            let '(x, r2) := read_dec r1 in
            match r2 with
            | s2 :: r2 =>
                let '(y, r3) := read_dec r2 in
                if negb (bool_decide (s1 = SEMI) && bool_decide (s2 = SEMI)) then None
                else if bool_decide (r3 = [UPPER_M]) then Some (code, x, y, false)
                else if bool_decide (r3 = [LOWER_M]) then Some (code, x, y, true)
                else None
            | [] => None
            end
        | [] => None
        end
      else if bool_decide (k = UPPER_M) then
        match lossy_chars rest with
        | [c; x; y] => Some (c - 32, x - 32, y - 32, false)
        | _ => None
        end
      else None
  | _ => None
  end.

(** The code of a report: modifier bits plus the button or wheel number. *)
Definition button_number (b : MouseButton) : Z :=
  match b with BLeft => 0 | BMiddle => 1 | BRight => 2 | BNone => 3 end.
Definition mouse_bits (q : MouseEventRequest) : Z :=
  (if m_shift q then 4 else 0) + (if m_alt q then 8 else 0) + (if m_ctrl q then 16 else 0)
  + match m_kind q with
    | KPress => button_number (default BLeft (m_button q))
    | KRelease => 3
    | KMove => 32 + button_number (default BNone (m_button q))
    | KScrollUp => 64
    | KScrollDown => 65
    end.

Lemma modifier_bits_spec s a c :
  modifier_bits s a c = (if s then 4 else 0) + (if a then 8 else 0) + (if c then 16 else 0).
Proof. by destruct s, a, c. Qed.

Lemma mouse_bits_range q : 0 <= mouse_bits q <= 93.
Proof.
  unfold mouse_bits, button_number. destruct (m_shift q), (m_alt q), (m_ctrl q), (m_kind q);
    repeat case_match; lia.
Qed.

Lemma mouse_code_spec q : (m_kind q = KPress -> m_button q <> Some BNone) ->
  mouse_code q = Ok (mouse_bits q).
Proof.
  intros Hp. unfold mouse_code, mouse_bits. rewrite modifier_bits_spec.
  destruct (m_kind q), (m_button q) as [[]|], (m_shift q), (m_alt q), (m_ctrl q);
    try reflexivity; by destruct (Hp eq_refl).
Qed.

Lemma decode_sgr code x y (rel : bool) : 0 <= code -> 0 <= x -> 0 <= y ->
  decode_mouse ([ESC; LBRACKET; LESS] ++ fmt_dec code ++ [SEMI] ++ fmt_dec x ++ [SEMI] ++ fmt_dec y
    ++ [if rel then LOWER_M else UPPER_M]) = Some (code, x, y, rel).
Proof.
  intros Hc Hx Hy. cbn [app decode_mouse]. rewrite !bool_decide_eq_true_2 by done. cbn [andb negb].
  rewrite (read_dec_fmt code) by done. rewrite (read_dec_fmt x) by done.
  rewrite (read_dec_fmt y) by (done || by destruct rel).
  rewrite !bool_decide_eq_true_2 by done. by destruct rel.
Qed.

Lemma decode_legacy c x y : 0 <= c <= 255 -> 0 <= x <= 255 -> 0 <= y <= 255 ->
  decode_mouse ([ESC; LBRACKET; UPPER_M] ++ encode_utf8 c ++ encode_utf8 x ++ encode_utf8 y)
  = Some (c - 32, x - 32, y - 32, false).
Proof.
  intros Hc Hx Hy. cbn [app decode_mouse]. rewrite !(bool_decide_eq_true_2 (_ = _)) by done.
  replace (encode_utf8 c ++ encode_utf8 x ++ encode_utf8 y) with (utf8_bytes [c; x; y])
    by (unfold utf8_bytes; cbn; by rewrite app_nil_r).
  rewrite lossy_chars_bytes; [done|].
  repeat constructor; unfold is_scalar; lia.
Qed.

Lemma encode_legacy mode enc q : mode <> ModeNone -> enc <> EncSgr ->
  0 <= m_row q < u16_max -> 0 <= m_col q < u16_max ->
  (m_kind q = KPress -> m_button q <> Some BNone) ->
  encode_mouse_event mode enc q
  = if (m_col q <=? 222) && (m_row q <=? 222)
    then Ok ([ESC; LBRACKET; UPPER_M] ++ encode_utf8 (mouse_bits q + 32)
             ++ encode_utf8 (m_col q + 33) ++ encode_utf8 (m_row q + 33))
    else Err (MouseOutOfBounds (m_row q + 1) (m_col q + 1) (m_row q) (m_col q)).
Proof.
  intros Hm He Hr Hc Hp. pose proof (mouse_bits_range q).
  assert (Hu : u16_max = 65535) by done. assert (Hu8 : u8_max = 255) by done.
  assert (Hch : forall z, 0 <= z <= 255 -> char_from_u32 z = Some z).
  { intros z Hz. unfold char_from_u32, is_scalar. case_match; [done|lia]. }
  unfold encode_mouse_event. rewrite (mouse_code_spec q Hp).
  rewrite (sat_add_exact u16_max (m_col q) 1), (sat_add_exact u16_max (m_row q) 1) by lia.
  rewrite (sat_add_exact u8_max _ 32) by lia.
  replace (255 <? sat_add u16_max (m_col q + 1) 32) with (negb (m_col q <=? 222))
    by (unfold sat_add; lia).
  replace (255 <? sat_add u16_max (m_row q + 1) 32) with (negb (m_row q <=? 222))
    by (unfold sat_add; lia).
  replace (m_col q + 33) with (m_col q + 1 + 32) by lia.
  replace (m_row q + 33) with (m_row q + 1 + 32) by lia.
  destruct mode; [done|..]; (destruct enc; [..|done]);
    destruct (Z.leb_spec (m_col q) 222), (Z.leb_spec (m_row q) 222); cbn [andb negb orb];
    rewrite ?sat_add_exact, ?Hch by lia; done.
Qed.

(** Mouse reports say what was asked: when tracking is on, a valid event is
    encoded so that reading the report back gives its modifier and button code
    and its one-based column and row (and the release flag in the SGR form);
    the legacy forms refuse exactly the positions past column or row 222. *)
Theorem mouse_report_roundtrip (mode : TermMouseMode) (enc : TermMouseEncoding)
    (q : MouseEventRequest) :
  mode <> ModeNone -> 0 <= m_row q < u16_max -> 0 <= m_col q < u16_max ->
  (m_kind q = KPress -> m_button q <> Some BNone) ->
  match enc with
  | EncSgr => exists bs, encode_mouse_event mode enc q = Ok bs
      /\ decode_mouse bs = Some (mouse_bits q, m_col q + 1, m_row q + 1, is_release (m_kind q))
  | _ =>
      if (m_col q <=? 222) && (m_row q <=? 222)
      then exists bs, encode_mouse_event mode enc q = Ok bs
        /\ decode_mouse bs = Some (mouse_bits q, m_col q + 1, m_row q + 1, false)
      else encode_mouse_event mode enc q
           = Err (MouseOutOfBounds (m_row q + 1) (m_col q + 1) (m_row q) (m_col q))
  end.
Proof.
  intros Hm Hr Hc Hp. pose proof (mouse_bits_range q).
  assert (Hu : u16_max = 65535) by done. assert (Hu8 : u8_max = 255) by done.
  assert (Hd : decode_mouse ([ESC; LBRACKET; UPPER_M] ++ encode_utf8 (mouse_bits q + 32)
      ++ encode_utf8 (m_col q + 33) ++ encode_utf8 (m_row q + 33))
      = Some (mouse_bits q + 32 - 32, m_col q + 33 - 32, m_row q + 33 - 32, false)
    \/ ((m_col q <=? 222) && (m_row q <=? 222) = false)).
  { destruct (Z.leb_spec (m_col q) 222), (Z.leb_spec (m_row q) 222); auto. left.
    apply decode_legacy; lia. }
  replace (mouse_bits q + 32 - 32) with (mouse_bits q) in Hd by lia.
  replace (m_col q + 33 - 32) with (m_col q + 1) in Hd by lia.
  replace (m_row q + 33 - 32) with (m_row q + 1) in Hd by lia.
  destruct enc.
  1,2: rewrite (encode_legacy mode) by done; destruct (_ && _); [destruct Hd; eauto|done]; done.
  unfold encode_mouse_event. rewrite (mouse_code_spec q Hp).
  rewrite (sat_add_exact _ (m_col q)), (sat_add_exact _ (m_row q)) by lia.
  destruct mode; [done|..]; eexists; (split; [done|]); apply decode_sgr; lia.
Qed.

End TermControl.

Module TermControlExamples.
Import TermControl OsExamples TermStateExamples.

Definition req1 : SpawnTerminalRequest := mkSpawn "/bin/sh" None [] 24 80 None.
Definition pty_ok (_ : Command) : result unit string := Ok tt.
Definition ctl1 : @TerminalController grid_vt := (spawn_terminal pty_ok (ctl_new true) req1).2.

Lemma ctl1_reach : reach true 1 ctl1.
Proof. eapply (reach_spawn _ _ _ pty_ok req1); [apply reach_new|reflexivity]. Qed.

Example first_ids : fmt_session_id 1 = "term_1" /\ fmt_session_id 255 = "term_ff".
Proof. split; reflexivity. Qed.

Lemma spawn_id_fresh_witness :
  sessions ctl1 !! "term_2" = None
  /\ is_Some (sessions (spawn_terminal pty_ok ctl1 req1).2 !! "term_2")
  /\ session_count (spawn_terminal pty_ok ctl1 req1).2 = session_count ctl1 + 1
  /\ forall id, id <> "term_2" ->
     sessions (spawn_terminal pty_ok ctl1 req1).2 !! id = sessions ctl1 !! id.
Proof.
  apply (spawn_id_fresh true 1 ctl1 (spawn_terminal pty_ok ctl1 req1).2 pty_ok req1
    (Ok (mkSpawned "term_2" 24 80)) ctl1_reach); reflexivity.
Defined.

Definition reads1 : list (result (list byte) string) :=
  [Ok [Byte.x61]; Ok [Byte.x62; Byte.x63]; Ok []; Ok [Byte.x64]].

Lemma reader_loop_stream_witness :
  let '(sh', ev) := reader_loop true "term_1" reads1 st3 [] in
  TermState.output sh' = foldl (fun r d => (TermState.push r d).1) (TermState.output st3) (live_chunks reads1)
  /\ TermState.parser sh' = foldl (fun p d => (process p d).1) (TermState.parser st3) (live_chunks reads1)
  /\ map o_data ev = live_chunks reads1
  /\ map o_seq ev = seqZ (TermState.output_seq st3 + 1) (zlen (live_chunks reads1)).
Proof. apply (reader_loop_stream true "term_1" reads1 st3); vm_compute; discriminate. Defined.

Definition sb1 : SessionSandbox :=
  mkSandbox (path_of_string "/sessions/s1") [] (path_of_string "/sessions/s1/sandbox.sb") []
    [Sandbox.rw (path_of_string "/home/u/Downloads")] true false true.

Lemma sandbox_cwd_confined_witness :
  resolve_cwd (Some sb1) (Some (path_of_string "/home/u/Downloads/x"))
    = Ok (path_of_string "/sessions/s1/Downloads/x")
  /\ starts_with (path_of_string "/sessions/s1/Downloads/x") (sb_rootfs sb1) = true.
Proof.
  split; [reflexivity|].
  apply (sandbox_cwd_confined sb1 (Some (path_of_string "/home/u/Downloads/x")));
    [discriminate | intros q [= <-]; apply path_of_string_wf | reflexivity].
Defined.

Definition cmd1 : Command :=
  match build_command (path_of_string "/bin/sh") (sb_rootfs sb1) (Some sb1) [("A", "1")] with
  | Ok c => c | Err _ => mkCmd [] [] ∅
  end.

Lemma build_command_spec_witness :
  cmd_cwd cmd1 = sb_rootfs sb1
  /\ (forall k, is_Some (cmd_env cmd1 !! k) -> k ∈ allowed_keys \/ k ∈ ["A"])
  /\ argv cmd1 = [Sandbox.SANDBOX_EXEC_PATH; "-f"; "/sessions/s1/sandbox.sb"; "--"; "/bin/sh"].
Proof.
  destruct (build_command_spec (path_of_string "/bin/sh") (sb_rootfs sb1) (Some sb1) [("A", "1")] cmd1)
    as (A & B & C & _); [vm_compute; reflexivity|].
  exact (conj A (conj B C)).
Defined.

Definition press_at (row col : Z) : MouseEventRequest :=
  mkMouse row col KPress (Some BRight) true false false.

Lemma mouse_report_roundtrip_witness :
  exists bs, encode_mouse_event ModePress EncSgr (press_at 9 300) = Ok bs
  /\ decode_mouse bs = Some (6, 301, 10, false).
Proof.
  apply (mouse_report_roundtrip ModePress EncSgr (press_at 9 300));
    [discriminate | split; reflexivity || discriminate | split; reflexivity || discriminate | discriminate].
Defined.

(** Past column 94 the single-byte form needs two bytes. *)
Example legacy_two_bytes :
  match encode_mouse_event ModePress EncDefault (press_at 0 95) with Ok bs => length bs | Err _ => O end = 7%nat.
Proof. reflexivity. Qed.

End TermControlExamples.
