(* ===== verification/WorldModel.v ===== *)
(** * WorldModel: the fused world state

    Models [world-model/src/model.rs] and [store.rs]: the streams ingested by
    [WorldModel::apply], the state they are folded into and the snapshot
    published after each.  Floating-point coordinates are only copied, so they
    are an abstract type; [serde_json::to_value] is a parameter. *)
From S2P Require Import Prelude Text FrameRing.
Import Text.

(** ** Data of the streams *)

Inductive Coherence : Type :=
| Coherent
| Skewed (stale_ms : Z) (reason : string)
| Degraded (reason : string).

Inductive SnapshotSource : Type :=
| AxStructure | Capture | LifecycleSource | WindowServer | CursorInput.

Inductive InputEventKind : Type := MouseMove | MouseDown | MouseUp | KeyDown | KeyUp | Scroll.

Inductive AxEventTopic : Type :=
| ValueChanged | FocusedChanged | WindowCreated | WindowDestroyed | SelectionChanged.

Inductive FsEventFlag : Type :=
| Created | Removed | Renamed | Modified | InodeMetaModified | OwnerChanged | XattrChanged
| IsFile | IsDir | IsSymlink | MountPoint | UnmountPoint | HistoryDone | RootChanged.

Record AppHandle := mkApp { app_bundle_id : string; app_pid : Z; app_name : string; has_focus : bool }.
(** Of a snapshot and its elements, the fields the store reads. *)
Record AppElement := mkElement { element_ref : string; app_id : string }.
Record AppSnapshot := mkAppSnapshot {
  as_snapshot_seq : Z; as_title : string; as_focused_ref : option string;
  as_elements : list AppElement
}.
Record AxEvent := mkAxEvent {
  ax_bundle_id : string; ax_topic : AxEventTopic; ax_timestamp_ms : Z;
  ax_element_ref : option string; ax_role : option string; ax_name : option string;
  ax_value : option string
}.
Record FsEvent := mkFsEvent {
  fs_watch_id : string; fs_path : Path; fs_flags : list FsEventFlag; fs_event_id : Z; fs_ts_ns : Z
}.
Record AxEventSummary := mkAxSummary {
  axs_bundle_id : string; axs_topic : string; axs_timestamp_ms : Z;
  axs_role : option string; axs_name : option string
}.
Record FsEventSummary := mkFsSummary {
  fss_watch_id : string; fss_path : string; fss_flags : list string; fss_event_id : Z; fss_at_ms : Z
}.
Record FocusedWindow := mkFocused { fw_bundle_id : string; fw_window_id : string; fw_title : string }.
Record FrameRef := mkFrameRef {
  fr_shm_path : string; fr_slot_seq : Z; fr_slot_index : Z; fr_offset : Z; fr_len : Z; fr_ts_us : Z
}.

Module WorldModel.

Definition RECENT_AX_CAP : nat := 64.
Definition RECENT_FS_CAP : nat := 64.
Definition RECENT_INPUT_CAP : nat := 64.

(** The [Debug] rendering of the enums. *)
Definition topic_debug (t : AxEventTopic) : string :=
  match t with
  | ValueChanged => "ValueChanged" | FocusedChanged => "FocusedChanged"
  | WindowCreated => "WindowCreated" | WindowDestroyed => "WindowDestroyed"
  | SelectionChanged => "SelectionChanged"
  end.
Definition flag_debug (f : FsEventFlag) : string :=
  match f with
  | Created => "Created" | Removed => "Removed" | Renamed => "Renamed" | Modified => "Modified"
  | InodeMetaModified => "InodeMetaModified" | OwnerChanged => "OwnerChanged"
  | XattrChanged => "XattrChanged" | IsFile => "IsFile" | IsDir => "IsDir"
  | IsSymlink => "IsSymlink" | MountPoint => "MountPoint" | UnmountPoint => "UnmountPoint"
  | HistoryDone => "HistoryDone" | RootChanged => "RootChanged"
  end.

Definition ax_summary (e : AxEvent) : AxEventSummary :=
  mkAxSummary (ax_bundle_id e) (topic_debug (ax_topic e)) (ax_timestamp_ms e) (ax_role e) (ax_name e).
Definition fs_summary (e : FsEvent) : FsEventSummary :=
  mkFsSummary (fs_watch_id e) (path_to_string (fs_path e)) (map flag_debug (fs_flags e))
    (fs_event_id e) ((fs_ts_ns e / 1000000) mod 2 ^ 64).
Definition frame_ref (h : FrameRing.FrameHandle) : FrameRef :=
  mkFrameRef (FrameRing.h_path h) (FrameRing.h_slot_seq h) (FrameRing.h_slot_index h)
    (FrameRing.h_offset h) (FrameRing.h_len h) (FrameRing.h_ts_us h).

Section World.
Context {f64 json : Type} (to_value : AppSnapshot -> option json) (json_null : json).

Record WindowHandle := mkWindow {
  window_id : string; win_bundle_id : string; win_title : string;
  win_bbox : f64 * f64 * f64 * f64; minimized : bool; fullscreen : bool; main : bool
}.
Record Display := mkDisplay {
  disp_id : Z; width : Z; height : Z; origin_x : Z; origin_y : Z; is_main : bool; scale : f64
}.
Record CursorState := mkCursorState { cs_x : f64; cs_y : f64 }.
Record InputEvent := mkInput {
  at_ms : Z; kind : InputEventKind; in_x : option f64; in_y : option f64; key : option string
}.
Record SnapshotSummary := mkSummary {
  ss_snapshot_seq : Z; ss_focused_ref : option string; ss_title : string; payload : json
}.
Record AppWorld := mkAppWorld {
  handle : AppHandle; windows : list WindowHandle; snapshot : option SnapshotSummary
}.
Record DisplayWorld := mkDisplayWorld { display : Display; latest_frame : option FrameRef }.

Inductive WorldModelInput : Type :=
| AxSnapshotIn (app : AppHandle) (snap : AppSnapshot)
| Lifecycle (apps : list AppHandle)
| WindowInventory (bundle_id : string) (ws : list WindowHandle)
| FrameReady (display_id : Z) (frame : FrameRing.FrameHandle)
| Displays (ds : list Display)
| Cursor (x y : f64)
| InputIn (event : InputEvent)
| AxEventIn (event : AxEvent)
| FsEventIn (event : FsEvent).

Record Inner := mkInner {
  generation : Z;
  apps : gmap string AppWorld;
  displays : gmap Z DisplayWorld;
  focused_window : option FocusedWindow;
  cursor : option CursorState;
  recent_ax_events : list AxEventSummary;
  recent_fs_events : list FsEventSummary;
  recent_input : list InputEvent;
  sources : list SnapshotSource;
  coherence : Coherence
}.

Definition not_primed : Coherence := Degraded "world model not yet primed".
Definition inner_new : Inner := mkInner 0 ∅ ∅ None None [] [] [] [] not_primed.

(** [while len > cap { pop_front }]. *)
Fixpoint trim_front {A} (cap : nat) (l : list A) : list A :=
  match l with
  | [] => []
  | _ :: l' => if (cap <? length l)%nat then trim_front cap l' else l
  end.
Definition push_capped {A} (cap : nat) (l : list A) (x : A) : list A := trim_front cap (l ++ [x]).

(** Record updates of the handler's fields. *)
Definition with_apps (g : Inner) (m : gmap string AppWorld) (f : option FocusedWindow) : Inner :=
  mkInner (generation g) m (displays g) f (cursor g) (recent_ax_events g) (recent_fs_events g)
    (recent_input g) (sources g) (coherence g).
Definition with_displays (g : Inner) (m : gmap Z DisplayWorld) : Inner :=
  mkInner (generation g) (apps g) m (focused_window g) (cursor g) (recent_ax_events g)
    (recent_fs_events g) (recent_input g) (sources g) (coherence g).
Definition with_input (g : Inner) (c : option CursorState) (e : InputEvent) : Inner :=
  mkInner (generation g) (apps g) (displays g) (focused_window g) c (recent_ax_events g)
    (recent_fs_events g) (push_capped RECENT_INPUT_CAP (recent_input g) e) (sources g) (coherence g).
Definition with_coherence (g : Inner) (c : Coherence) : Inner :=
  mkInner (generation g) (apps g) (displays g) (focused_window g) (cursor g) (recent_ax_events g)
    (recent_fs_events g) (recent_input g) (sources g) c.
Definition push_source (g : Inner) (s : SnapshotSource) : Inner :=
  mkInner (generation g) (apps g) (displays g) (focused_window g) (cursor g) (recent_ax_events g)
    (recent_fs_events g) (recent_input g) (sources g ++ [s]) (coherence g).

(** The common start of [apply]. *)
Definition begin_apply (g : Inner) : Inner :=
  mkInner (sat_add u64_max (generation g) 1) (apps g) (displays g) (focused_window g) (cursor g)
    (recent_ax_events g) (recent_fs_events g) (recent_input g) [] Coherent.

Definition on_ax_snapshot (g : Inner) (app : AppHandle) (s : AppSnapshot) : Inner :=
  let b := app_bundle_id app in
  let ws := match apps g !! b with Some a => windows a | None => [] end in
  let m := <[b := mkAppWorld app ws (Some (mkSummary (as_snapshot_seq s) (as_focused_ref s)
              (as_title s) (default json_null (to_value s))))]> (apps g) in
  let f := match as_focused_ref s with
           | Some r =>
               match List.find (fun e => bool_decide (element_ref e = r)) (as_elements s) with
               | Some e => Some (mkFocused b (app_id e) (as_title s))
               | None => focused_window g
               end
           | None => focused_window g
           end in
  push_source (with_apps g m f) AxStructure.

(** [entry(..).or_insert_with(..)] followed by [entry.handle = app]. *)
Definition upsert_app (m : gmap string AppWorld) (app : AppHandle) : gmap string AppWorld :=
  let b := app_bundle_id app in
  match m !! b with
  | Some a => <[b := mkAppWorld app (windows a) (snapshot a)]> m
  | None => <[b := mkAppWorld app [] None]> m
  end.

Definition on_lifecycle (g : Inner) (l : list AppHandle) : Inner :=
  let focused_bundle := app_bundle_id <$> List.find has_focus l in
  let m := foldl upsert_app (apps g) l in
  let f := match focused_bundle with
           | Some b =>
               match m !! b with
               | Some a =>
                   match List.find main (windows a) with
                   | Some w => Some (mkFocused b (window_id w) (win_title w))
                   | None => focused_window g
                   end
               | None => focused_window g
               end
           | None => focused_window g
           end in
  push_source (with_apps g m f) LifecycleSource.

Definition on_window_inventory (g : Inner) (b : string) (ws : list WindowHandle) : Inner :=
  let g :=
    match apps g !! b with
    | Some a =>
        let m := <[b := mkAppWorld (handle a) ws (snapshot a)]> (apps g) in
        let f := if has_focus (handle a)
                 then match List.find main ws with
                      | Some w => Some (mkFocused b (window_id w) (win_title w))
                      | None => focused_window g
                      end
                 else focused_window g in
        with_apps g m f
    | None =>
        with_coherence g
          (Skewed 0 ("window inventory arrived before lifecycle for " +:+ b))
    end in
  push_source g WindowServer.

Definition on_frame_ready (g : Inner) (d : Z) (h : FrameRing.FrameHandle) : Inner :=
  let g :=
    match displays g !! d with
    | Some w => with_displays g (<[d := mkDisplayWorld (display w) (Some (frame_ref h))]> (displays g))
    | None =>
        with_coherence g
          (Skewed 0 ("frame arrived before display inventory for display "
                     +:+ String.string_of_list_byte (fmt_dec d)))
    end in
  push_source g Capture.

(** [collect] into a map: a later display with the same id wins. *)
Definition collect_displays (ds : list Display) : gmap Z DisplayWorld :=
  foldl (fun m d => <[disp_id d := mkDisplayWorld d None]> m) ∅ ds.

(** One input, at clock reading [now] (milliseconds). *)
Definition apply_state (now : Z) (g : Inner) (i : WorldModelInput) : Inner :=
  let g := begin_apply g in
  match i with
  | AxSnapshotIn app s => on_ax_snapshot g app s
  | Lifecycle l => on_lifecycle g l
  | WindowInventory b ws => on_window_inventory g b ws
  | FrameReady d h => on_frame_ready g d h
  | Displays ds => push_source (with_displays g (collect_displays ds)) WindowServer
  | Cursor x y =>
      push_source (with_input g (Some (mkCursorState x y))
                     (mkInput now MouseMove (Some x) (Some y) None)) CursorInput
  | InputIn e => push_source (with_input g (cursor g) e) CursorInput
  | AxEventIn e =>
      push_source
        (mkInner (generation g) (apps g) (displays g) (focused_window g) (cursor g)
           (push_capped RECENT_AX_CAP (recent_ax_events g) (ax_summary e)) (recent_fs_events g)
           (recent_input g) (sources g) (coherence g)) AxStructure
  | FsEventIn e =>
      push_source
        (mkInner (generation g) (apps g) (displays g) (focused_window g) (cursor g)
           (recent_ax_events g) (push_capped RECENT_FS_CAP (recent_fs_events g) (fs_summary e))
           (recent_input g) (sources g) (coherence g)) WindowServer
  end.

Record WorldSnapshot := mkWorld {
  ws_generation : Z; captured_at_ms : Z; ws_sources : list SnapshotSource;
  ws_coherence : Coherence; ws_apps : list AppWorld; ws_displays : list DisplayWorld;
  ws_focused_window : option FocusedWindow; ws_cursor : option CursorState;
  ws_recent_ax_events : list AxEventSummary; ws_recent_fs_events : list FsEventSummary;
  ws_recent_input : list InputEvent
}.

Definition snapshot_of (now : Z) (g : Inner) : WorldSnapshot :=
  mkWorld (generation g) now (sources g) (coherence g)
    (map snd (map_to_list (apps g))) (map snd (map_to_list (displays g)))
    (focused_window g) (cursor g) (recent_ax_events g) (recent_fs_events g) (recent_input g).

Definition world_empty (now : Z) : WorldSnapshot :=
  mkWorld 0 now [] not_primed [] [] None None [] [] [].

(** [apply] with the clock readings of its event and of its snapshot. *)
Definition apply (now now' : Z) (g : Inner) (i : WorldModelInput) : Inner * WorldSnapshot :=
  let g := apply_state now g i in (g, snapshot_of now' g).

Definition latest (now : Z) (g : Inner) : WorldSnapshot :=
  if generation g =? 0 then world_empty now else snapshot_of now g.

(** ** The state as a function of the history *)

Definition run (ins : list (Z * WorldModelInput)) : Inner :=
  foldl (fun g i => apply_state i.1 g i.2) inner_new ins.

Definition lastn {A} (n : nat) (l : list A) : list A := drop (length l - n) l.

Lemma trim_front_lastn {A} cap (l : list A) : trim_front cap l = lastn cap l.
Proof.
  unfold lastn. induction l as [|x l IH]; [done|]. cbn [trim_front].
  destruct (Nat.ltb_spec cap (length (x :: l))) as [Hl|Hl].
  - rewrite IH. replace (length (x :: l) - cap)%nat with (S (length l - cap)) by (simpl in *; lia). done.
  - by replace (length (x :: l) - cap)%nat with O by lia.
Qed.

Lemma push_capped_lastn {A} cap (l : list A) x :
  push_capped cap (lastn cap l) x = lastn cap (l ++ [x]).
Proof.
  unfold push_capped. rewrite trim_front_lastn. unfold lastn.
  rewrite !length_app, length_drop. simpl.
  destruct (decide (length l <= cap)%nat) as [Hle|Hgt].
  - replace (length l - cap)%nat with O by lia. rewrite drop_0. f_equal. lia.
  - rewrite <- (drop_app_le l [x]) by lia. rewrite drop_drop. f_equal. lia.
Qed.

(** What each stream contributes. *)
Definition ax_of (i : Z * WorldModelInput) : option AxEventSummary :=
  match i.2 with AxEventIn e => Some (ax_summary e) | _ => None end.
Definition fs_of (i : Z * WorldModelInput) : option FsEventSummary :=
  match i.2 with FsEventIn e => Some (fs_summary e) | _ => None end.
Definition input_of (i : Z * WorldModelInput) : option InputEvent :=
  match i.2 with
  | Cursor x y => Some (mkInput i.1 MouseMove (Some x) (Some y) None)
  | InputIn e => Some e
  | _ => None
  end.
Definition cursor_of (i : Z * WorldModelInput) : option CursorState :=
  match i.2 with Cursor x y => Some (mkCursorState x y) | _ => None end.
Definition source_of (i : WorldModelInput) : SnapshotSource :=
  match i with
  | AxSnapshotIn _ _ | AxEventIn _ => AxStructure
  | Lifecycle _ => LifecycleSource
  | FrameReady _ _ => Capture
  | WindowInventory _ _ | Displays _ | FsEventIn _ => WindowServer
  | Cursor _ _ | InputIn _ => CursorInput
  end.

(** What is known of one display, and of one app, from the inputs that name it. *)
Definition display_view (d : Z) (w : option DisplayWorld) (i : WorldModelInput) : option DisplayWorld :=
  match i with
  | Displays ds => (fun x => mkDisplayWorld x None) <$> last (base.filter (fun x => disp_id x = d) ds)
  | FrameReady d' h =>
      if decide (d' = d) then (fun w => mkDisplayWorld (display w) (Some (frame_ref h))) <$> w else w
  | _ => w
  end.
Definition app_view (b : string) (a : option AppWorld) (i : WorldModelInput) : option AppWorld :=
  match i with
  | AxSnapshotIn app s =>
      if decide (app_bundle_id app = b)
      then Some (mkAppWorld app (from_option windows [] a)
             (Some (mkSummary (as_snapshot_seq s) (as_focused_ref s) (as_title s)
                      (default json_null (to_value s)))))
      else a
  | Lifecycle l =>
      match last (base.filter (fun x => app_bundle_id x = b) l) with
      | Some h => Some (mkAppWorld h (from_option windows [] a) (a ≫= snapshot))
      | None => a
      end
  | WindowInventory b' ws =>
      if decide (b' = b) then (fun a => mkAppWorld (handle a) ws (snapshot a)) <$> a else a
  | _ => a
  end.

Lemma collect_displays_lookup ds d :
  collect_displays ds !! d
  = (fun x => mkDisplayWorld x None) <$> last (base.filter (fun x => disp_id x = d) ds).
Proof.
  unfold collect_displays. induction ds as [|x ds IH] using rev_ind; [done|].
  rewrite foldl_snoc, filter_app, lookup_insert. case_decide as E.
  - rewrite filter_cons_True, filter_nil by done. by rewrite last_snoc.
  - rewrite filter_cons_False, filter_nil, app_nil_r by done. done.
Qed.

Lemma upsert_fold_lookup l b : forall m,
  foldl upsert_app m l !! b
  = match last (base.filter (fun x => app_bundle_id x = b) l) with
    | Some h => Some (mkAppWorld h (from_option windows [] (m !! b)) ((m !! b) ≫= snapshot))
    | None => m !! b
    end.
Proof.
  induction l as [|x l IH] using rev_ind; intros m; [done|].
  rewrite foldl_snoc, filter_app.
  assert (Hu : forall m', upsert_app m' x !! b
    = if decide (app_bundle_id x = b)
      then Some (mkAppWorld x (from_option windows [] (m' !! b)) ((m' !! b) ≫= snapshot))
      else m' !! b).
  { intros m'. unfold upsert_app. case_decide as E; [subst b|].
    - destruct (m' !! app_bundle_id x) as [a|]; by rewrite lookup_insert_eq.
    - destruct (m' !! app_bundle_id x); by rewrite lookup_insert_ne. }
  rewrite Hu, IH. case_decide as E.
  - rewrite filter_cons_True, filter_nil by done. rewrite last_snoc. by case_match.
  - rewrite filter_cons_False, filter_nil, app_nil_r by done. done.
Qed.

Lemma apply_displays now g i d :
  displays (apply_state now g i) !! d = display_view d (displays g !! d) i.
Proof.
  destruct i as [app s|l|b ws|d' h|ds|x y|e|e|e]; try done.
  - cbn. unfold on_window_inventory. by case_match.
  - cbn [apply_state display_view]. unfold on_frame_ready. change (displays (begin_apply g)) with (displays g).
    destruct (decide (d' = d)) as [->|Hd]; destruct (displays g !! _) as [w|] eqn:E;
      cbn [displays push_source with_displays with_coherence begin_apply];
      rewrite ?lookup_insert_eq, ?lookup_insert_ne, ?E by done; done.
  - apply collect_displays_lookup.
Qed.

Lemma apply_apps now g i b :
  apps (apply_state now g i) !! b = app_view b (apps g !! b) i.
Proof.
  destruct i as [app s|l|b' ws|d' h|ds|x y|e|e|e]; try done.
  - cbn [apply_state app_view]. unfold on_ax_snapshot.
    cbn [apps push_source with_apps begin_apply].
    destruct (decide (app_bundle_id app = b)) as [->|Hb]; [|by rewrite lookup_insert_ne].
    rewrite lookup_insert_eq. by destruct (apps g !! b).
  - apply upsert_fold_lookup.
  - cbn [apply_state app_view]. unfold on_window_inventory. change (apps (begin_apply g)) with (apps g).
    destruct (decide (b' = b)) as [->|Hd]; destruct (apps g !! _) as [a|] eqn:E;
      cbn [apps push_source with_apps with_coherence begin_apply];
      rewrite ?lookup_insert_eq, ?lookup_insert_ne, ?E by done; done.
  - cbn. unfold on_frame_ready. by case_match.
Qed.

Lemma apply_streams now g i :
  recent_ax_events (apply_state now g i)
    = (match ax_of (now, i) with Some x => push_capped RECENT_AX_CAP (recent_ax_events g) x | None => recent_ax_events g end)
  /\ recent_fs_events (apply_state now g i)
    = (match fs_of (now, i) with Some x => push_capped RECENT_FS_CAP (recent_fs_events g) x | None => recent_fs_events g end)
  /\ recent_input (apply_state now g i)
    = (match input_of (now, i) with Some x => push_capped RECENT_INPUT_CAP (recent_input g) x | None => recent_input g end)
  /\ cursor (apply_state now g i) = (match cursor_of (now, i) with Some x => Some x | None => cursor g end)
  /\ generation (apply_state now g i) = sat_add u64_max (generation g) 1
  /\ sources (apply_state now g i) = [source_of i].
Proof.
  destruct i as [app s|l|b ws|d h|ds|x y|e|e|e]; cbn -[push_capped]; try done.
  - unfold on_window_inventory. by case_match.
  - unfold on_frame_ready. by case_match.
Qed.

(** C39: The world state is exactly the fused history: after any inputs the
    generation counts them (up to its width), the three event rings hold the
    last 64 events of their streams in order, the cursor is the last one
    sampled, and each display and each app is what the inputs naming it say,
    whatever the other streams did in between. *)
Theorem run_history (ins : list (Z * WorldModelInput)) :
  generation (run ins) = Z.min u64_max (zlen ins)
  /\ recent_ax_events (run ins) = lastn RECENT_AX_CAP (omap ax_of ins)
  /\ recent_fs_events (run ins) = lastn RECENT_FS_CAP (omap fs_of ins)
  /\ recent_input (run ins) = lastn RECENT_INPUT_CAP (omap input_of ins)
  /\ cursor (run ins) = last (omap cursor_of ins)
  /\ (forall d, displays (run ins) !! d = foldl (display_view d) None (map snd ins))
  /\ (forall b, apps (run ins) !! b = foldl (app_view b) None (map snd ins)).
Proof.
  induction ins as [|[now i] ins (Hg & Hax & Hfs & Hin & Hc & Hd & Ha)] using rev_ind; [done|].
  unfold run in *. rewrite foldl_snoc. cbn [fst snd].
  destruct (apply_streams now (foldl (fun g i => apply_state i.1 g i.2) inner_new ins) i)
    as (Eax & Efs & Ein & Ec & Eg & _).
  rewrite Eax, Efs, Ein, Ec, Eg, Hax, Hfs, Hin, Hc, Hg, !omap_app. cbn [omap list_omap].
  split; [|split; [|split; [|split; [|split; [|split]]]]].
  - unfold sat_add. rewrite zlen_app, zlen_cons, zlen_nil. lia.
  - destruct (ax_of (now, i)); [apply push_capped_lastn|by rewrite app_nil_r].
  - destruct (fs_of (now, i)); [apply push_capped_lastn|by rewrite app_nil_r].
  - destruct (input_of (now, i)); [apply push_capped_lastn|by rewrite app_nil_r].
  - destruct (cursor_of (now, i)); [by rewrite last_snoc|by rewrite app_nil_r].
  - intros d. rewrite apply_displays, Hd, map_app, foldl_app. done.
  - intros b. rewrite apply_apps, Ha, map_app, foldl_app. done.
Qed.

(** Every published snapshot is one coherent generation: [apply] returns
    exactly what [latest] then reports (up to the clock), names the one stream
    it came from, and is marked skewed exactly when a window inventory names an
    unknown app or a frame an unknown display. *)
Theorem apply_publishes (now now' now'' : Z) (g : Inner) (i : WorldModelInput) :
  0 <= generation g ->
  let '(g', snap) := apply now now' g i in
  latest now'' g' = mkWorld (ws_generation snap) now'' (ws_sources snap) (ws_coherence snap)
    (ws_apps snap) (ws_displays snap) (ws_focused_window snap) (ws_cursor snap)
    (ws_recent_ax_events snap) (ws_recent_fs_events snap) (ws_recent_input snap)
  /\ ws_generation snap = sat_add u64_max (generation g) 1
  /\ ws_sources snap = [source_of i]
  /\ match i with
     | WindowInventory b _ =>
         (ws_coherence snap = Coherent <-> is_Some (apps g !! b))
         /\ (apps g !! b = None -> exists reason, ws_coherence snap = Skewed 0 reason)
     | FrameReady d _ =>
         (ws_coherence snap = Coherent <-> is_Some (displays g !! d))
         /\ (displays g !! d = None -> exists reason, ws_coherence snap = Skewed 0 reason)
     | _ => ws_coherence snap = Coherent
     end.
Proof.
  intros H0. unfold apply. cbn [ws_generation ws_sources ws_coherence snapshot_of].
  destruct (apply_streams now g i) as (_ & _ & _ & _ & Eg & Es).
  split; [|split; [done|split; [done|]]].
  - unfold latest. rewrite Eg. destruct (Z.eqb_spec (sat_add u64_max (generation g) 1) 0) as [E|E].
    + unfold sat_add in E. assert (0 < u64_max) by done. lia.
    + unfold snapshot_of. cbn. by rewrite Eg.
  - destruct i; try done; cbn.
    + unfold on_window_inventory. cbn. destruct (apps g !! bundle_id); cbn; split; naive_solver.
    + unfold on_frame_ready. cbn. destruct (displays g !! display_id); cbn; split; naive_solver.
Qed.

(** Apps that have quit stay in the world: no input removes an app, so one
    that a lifecycle report no longer lists is still published, with its old
    handle, as part of a snapshot marked coherent. *)
Theorem quit_app_remains (now now' : Z) (g : Inner) (l : list AppHandle) (b : string) (a : AppWorld) :
  apps g !! b = Some a -> Forall (fun h => app_bundle_id h <> b) l ->
  let '(g', snap) := apply now now' g (Lifecycle l) in
  apps g' !! b = Some a /\ a ∈ ws_apps snap /\ ws_coherence snap = Coherent.
Proof.
  intros Ha Hl. unfold apply.
  assert (E : apps (apply_state now g (Lifecycle l)) !! b = Some a).
  { rewrite apply_apps. cbn. rewrite Ha.
    assert (Hf : base.filter (fun x => app_bundle_id x = b) l = []).
    { induction Hl as [|h l Hh _ IH]; [done|]. by rewrite filter_cons_False. }
    by rewrite Hf. }
  split; [done|]. split; [|done]. cbn [ws_apps snapshot_of].
  apply list_elem_of_In, in_map_iff. exists (b, a). split; [done|].
  by apply list_elem_of_In, elem_of_map_to_list.
Qed.

(** An accessibility snapshot replaces the focused window's id by the bundle
    id of the focused element: after a window inventory the id is that of the
    focused app's main window; a following snapshot of the same app changes it
    to the element's app id, although the app's windows are unchanged. *)
Theorem ax_focus_overwrites_window_id (now1 now2 : Z) (g : Inner) (app : AppHandle) (a : AppWorld)
    (ws : list WindowHandle) (w : WindowHandle) (s : AppSnapshot) (r : string) (e : AppElement) :
  apps g !! app_bundle_id app = Some a -> has_focus (handle a) = true -> List.find main ws = Some w ->
  as_focused_ref s = Some r ->
  List.find (fun e => bool_decide (element_ref e = r)) (as_elements s) = Some e ->
  let g1 := apply_state now1 g (WindowInventory (app_bundle_id app) ws) in
  let g2 := apply_state now2 g1 (AxSnapshotIn app s) in
  focused_window g1 = Some (mkFocused (app_bundle_id app) (window_id w) (win_title w))
  /\ focused_window g2 = Some (mkFocused (app_bundle_id app) (app_id e) (as_title s))
  /\ (windows <$> apps g2 !! app_bundle_id app) = Some ws.
Proof.
  intros Ha Hf Hw Hr He g1 g2.
  assert (E1 : focused_window g1 = Some (mkFocused (app_bundle_id app) (window_id w) (win_title w))).
  { unfold g1. cbn. unfold on_window_inventory. cbn. rewrite Ha. cbn. by rewrite Hf, Hw. }
  split; [done|]. split.
  - unfold g2. cbn. by rewrite Hr, He.
  - unfold g2, g1. rewrite !apply_apps. cbn. rewrite !decide_True by done. by rewrite Ha.
Qed.

End World.

End WorldModel.

Module WorldModelExamples.
Import WorldModel.

Abbreviation input := (@WorldModelInput Z).
Abbreviation inner := (@Inner Z unit).
Definition to_unit (_ : AppSnapshot) : option unit := Some tt.

Definition app1 : AppHandle := mkApp "com.a" 10 "A" true.
Definition win1 : @WindowHandle Z := mkWindow "w0" "com.a" "T" (0, 0, 1, 1) false false true.
Definition aw1 : @AppWorld Z unit := mkAppWorld app1 [] None.
Definition g1 : inner := apply_state to_unit tt 0 inner_new (Lifecycle [app1]).
Definition snap1 : AppSnapshot := mkAppSnapshot 1 "T" (Some "e0") [mkElement "e0" "com.a"].

Lemma apply_publishes_witness :
  0 <= generation g1 /\
  ws_coherence (apply to_unit tt 1 2 g1 (WindowInventory "com.b" [win1])).2 <> Coherent.
Proof.
  split; [discriminate|].
  pose proof (apply_publishes to_unit tt 1 2 3 g1 (WindowInventory "com.b" [win1]) ltac:(discriminate)) as H.
  destruct H as (_ & _ & _ & Hc & _). intros E. apply Hc in E. by destruct E.
Defined.

Lemma quit_app_remains_witness :
  apps (apply to_unit tt 1 2 g1 (Lifecycle [])).1 !! "com.a" = Some aw1
  /\ aw1 ∈ ws_apps (apply to_unit tt 1 2 g1 (Lifecycle [])).2
  /\ ws_coherence (apply to_unit tt 1 2 g1 (Lifecycle [])).2 = Coherent.
Proof. apply (quit_app_remains to_unit tt 1 2 g1 [] "com.a" aw1); [reflexivity|constructor]. Defined.

Lemma ax_focus_overwrites_window_id_witness :
  let g2 := apply_state to_unit tt 1 g1 (WindowInventory "com.a" [win1]) in
  let g3 := apply_state to_unit tt 2 g2 (AxSnapshotIn app1 snap1) in
  focused_window g2 = Some (mkFocused "com.a" "w0" "T")
  /\ focused_window g3 = Some (mkFocused "com.a" "com.a" "T")
  /\ (windows <$> apps g3 !! "com.a") = Some [win1].
Proof.
  apply (ax_focus_overwrites_window_id to_unit tt 1 2 g1 app1 aw1 [win1] win1 snap1 "e0"
    (mkElement "e0" "com.a")); reflexivity.
Defined.

End WorldModelExamples.
