(* ===== verification/BrokerSession.v ===== *)
(** * BrokerSession: session entries, crash recovery and idle drain

    Models [broker/src/registry.rs], [recovery.rs] and [lifecycle.rs], with the
    exit receiver and the shutdown of [browser-engine/src/browser.rs] they
    share.  Clock readings (milliseconds) are arguments. *)
From S2P Require Import Prelude Json.
Import JsonTree.

(** [protocol.rs] *)
Record ServerEvent := mkEvent { jsonrpc : string; method : string; params : json }.

Module BrokerSession.

(** ** The browser handle *)

(** Whether the exit receiver is still there to be taken; whether SIGKILL was sent. *)
Record Browser := mkBrowser { closed_rx : bool; killed : bool }.
Definition launched : Browser := mkBrowser true false.

Definition wait_for_exit (b : Browser) : bool * Browser := (closed_rx b, mkBrowser false (killed b)).

(** [shutdown]: after [Browser.close], wait for the exit signal if the receiver
    is there; [exits]: whether the child exits within five seconds. The first
    component says whether an exit was waited for. *)
Definition shutdown (exits : bool) (b : Browser) : bool * Browser :=
  if closed_rx b
  then (true, mkBrowser false (if exits then killed b else true))
  else (false, mkBrowser false (killed b)).

(** ** [SessionEntry] *)

Definition OUTBOUND_DROP_WARN_INTERVAL : Z := 5000.

Record DurableNetworkObserve := mkObserve {
  subscription_id : string; tab_id : string; filter : option string
}.

Inductive queue_state : Type := QOpen | QFull | QClosed.

Record SessionEntry := mkEntry {
  session_id : string;
  created_at : Z;
  last_activity : Z;
  conn_tx : option (list ServerEvent);
  last_outbound_drop_warn_at : option Z;
  outbound_drop_count : Z;
  warnings : list Z;
  durable_network_observe : list DurableNetworkObserve;
  capabilities : gset string
}.

Definition entry_new (id : string) (now : Z) : SessionEntry :=
  mkEntry id now 0 None None 0 [] [] ∅.

Definition set_capabilities (e : SessionEntry) (caps : list string) : SessionEntry :=
  mkEntry (session_id e) (created_at e) (last_activity e) (conn_tx e)
    (last_outbound_drop_warn_at e) (outbound_drop_count e) (warnings e)
    (durable_network_observe e) (foldl (fun w c => {[ c ]} ∪ w) ∅ caps).
Definition has_capability (e : SessionEntry) (name : string) : bool :=
  bool_decide (name ∈ capabilities e).
Definition has_native_capability (e : SessionEntry) : bool := has_capability e "native".

(** [created_at.elapsed()] at [now]. *)
Definition elapsed (e : SessionEntry) (now : Z) : Z := sat_sub now (created_at e).
Definition touch (e : SessionEntry) (now : Z) : SessionEntry :=
  mkEntry (session_id e) (created_at e) (elapsed e now mod 2 ^ 64) (conn_tx e)
    (last_outbound_drop_warn_at e) (outbound_drop_count e) (warnings e)
    (durable_network_observe e) (capabilities e).
Definition last_activity_ms (e : SessionEntry) : Z := last_activity e.
Definition last_activity_age_ms (e : SessionEntry) (now : Z) : Z :=
  sat_sub (elapsed e now) (last_activity_ms e) mod 2 ^ 64.

Definition set_conn (e : SessionEntry) (c : option (list ServerEvent)) : SessionEntry :=
  mkEntry (session_id e) (created_at e) (last_activity e) c
    (last_outbound_drop_warn_at e) (outbound_drop_count e) (warnings e)
    (durable_network_observe e) (capabilities e).
Definition bind_conn (e : SessionEntry) : SessionEntry := set_conn e (Some []).
Definition unbind_conn (e : SessionEntry) : SessionEntry := set_conn e None.

Definition warn_outbound_drop (e : SessionEntry) (now : Z) : SessionEntry :=
  let should_warn :=
    match last_outbound_drop_warn_at e with
    | Some last => OUTBOUND_DROP_WARN_INTERVAL <=? sat_sub now last
    | None => true
    end in
  if should_warn
  then mkEntry (session_id e) (created_at e) (last_activity e) (conn_tx e) (Some now)
         (outbound_drop_count e) (warnings e ++ [now]) (durable_network_observe e) (capabilities e)
  else e.

Definition count_drop (e : SessionEntry) : SessionEntry :=
  mkEntry (session_id e) (created_at e) (last_activity e) (conn_tx e)
    (last_outbound_drop_warn_at e) (wrap_add u64_max (outbound_drop_count e) 1) (warnings e)
    (durable_network_observe e) (capabilities e).

(** [q]: what [try_send] finds. *)
Definition try_push (q : queue_state) (now : Z) (e : SessionEntry) (ev : ServerEvent)
    : SessionEntry * bool :=
  match conn_tx e with
  | None => (e, false)
  | Some sent =>
      match q with
      | QOpen => (set_conn e (Some (sent ++ [ev])), true)
      | QFull | QClosed => (warn_outbound_drop (count_drop e) now, false)
      end
  end.

Fixpoint upsert (l : list DurableNetworkObserve) (o : DurableNetworkObserve)
    : list DurableNetworkObserve :=
  match l with
  | [] => [o]
  | x :: l => if decide (subscription_id x = subscription_id o) then o :: l else x :: upsert l o
  end.
Definition upsert_durable_network_observe (e : SessionEntry) (o : DurableNetworkObserve) : SessionEntry :=
  mkEntry (session_id e) (created_at e) (last_activity e) (conn_tx e)
    (last_outbound_drop_warn_at e) (outbound_drop_count e) (warnings e)
    (upsert (durable_network_observe e) o) (capabilities e).
Definition clear_durable_network_observe (e : SessionEntry) : SessionEntry :=
  mkEntry (session_id e) (created_at e) (last_activity e) (conn_tx e)
    (last_outbound_drop_warn_at e) (outbound_drop_count e) (warnings e) [] (capabilities e).

(** ** Crash recovery *)

Definition RESPAWN_ACTIVITY_WINDOW_MS : Z := 30000.
Definition MAX_RESPAWN_ATTEMPTS : Z := 3.

Definition is_within_respawn_window (last_activity_ms : Z) : bool :=
  negb (last_activity_ms =? 0) && (last_activity_ms <? RESPAWN_ACTIVITY_WINDOW_MS).

Definition strs (l : list string) : json := JArr (map JStr l).
Definition build_recovered_event (id : string) (previous_tab_ids new_tab_ids : list string)
    : ServerEvent :=
  mkEvent "2.0" "event/notify"
    (JObj [("topic", JStr "session.recovered"); ("session_id", JStr id);
           ("previous_tab_ids", strs previous_tab_ids); ("new_tab_ids", strs new_tab_ids);
           ("payload", JObj [])]).
Definition build_recovery_failed_event (id : string) (attempts : Z) (last_error : string)
    : ServerEvent :=
  mkEvent "2.0" "event/notify"
    (JObj [("topic", JStr "session.recovery_failed"); ("session_id", JStr id);
           ("attempts", JNum attempts); ("last_error", JStr last_error); ("payload", JObj [])]).

Record RespawnOutcome := mkRespawn { previous_tab_ids : list string; new_tab_ids : list string }.

(** One exit of the browser: the [last_activity_ms] found then, and what
    [respawn_and_swap] answers if it is tried. *)
Record exit_event := mkExitEvent { activity : Z; respawn : result RespawnOutcome string }.

Inductive watch_end : Type := Watching | ChannelUnavailable | Drained | GaveUp.

Record watch := mkWatch {
  w_browser : Browser;
  w_events : list ServerEvent;
  recovery_count : Z;
  recovery_failed_count : Z
}.

(** The watcher's loop over the exits of its session's browsers; [Watching] when
    it waits for the next one. *)
Fixpoint run (id : string) (script : list exit_event) (consecutive_failures : Z) (w : watch)
    : watch_end * watch :=
  let '(exit_rx, b) := wait_for_exit (w_browser w) in
  let w := mkWatch b (w_events w) (recovery_count w) (recovery_failed_count w) in
  if negb exit_rx then (ChannelUnavailable, w)
  else
    match script with
    | [] => (Watching, w)
    | ex :: script =>
        if negb (is_within_respawn_window (activity ex)) then (Drained, w)
        else
          match respawn ex with
          | Ok o =>
              run id script 0
                (mkWatch launched
                   (w_events w ++ [build_recovered_event id (previous_tab_ids o) (new_tab_ids o)])
                   (recovery_count w + 1) (recovery_failed_count w))
          | Err e =>
              let failures := sat_add u32_max consecutive_failures 1 in
              let w := mkWatch (w_browser w) (w_events w) (recovery_count w)
                         (recovery_failed_count w + 1) in
              if MAX_RESPAWN_ATTEMPTS <=? failures
              then (GaveUp, mkWatch (w_browser w)
                      (w_events w ++ [build_recovery_failed_event id failures e])
                      (recovery_count w) (recovery_failed_count w))
              else run id script failures w
          end
    end.

Definition spawn_crash_watch (id : string) (script : list exit_event) : watch_end * watch :=
  run id script 0 (mkWatch launched [] 0 0).

(** ** Idle drain ([lifecycle.rs]) *)

Inductive LifecycleMessage : Type := Connected | Disconnected | Shutdown.
Inductive life_end : Type :=
| DrainElapsed (at_ : Z) | ShutdownRequested (at_ : Z) | ChannelClosed | StillRunning.

Record life := mkLife { connected_count : Z; drain_deadline : option Z }.

(** One message at time [now]. *)
Definition on_message (drain_after : Z) (l : life) (now : Z) (m : LifecycleMessage)
    : option life :=
  match m with
  | Connected => Some (mkLife (sat_add u64_max (connected_count l) 1) None)
  | Disconnected =>
      let n := sat_sub (connected_count l) 1 in
      Some (mkLife n (if n =? 0 then Some (now + drain_after) else drain_deadline l))
  | Shutdown => None
  end.

(** The task over the messages it will be sent, in order of arrival, and whether
    the channel is then closed.  A message that arrives when the deadline has
    passed comes too late; [tie]: which of the two is taken at the same instant. *)
Fixpoint life_loop (tie : Z -> bool) (drain_after : Z) (msgs : list (Z * LifecycleMessage))
    (closes : bool) (l : life) : life_end :=
  let late := fun now =>
    match drain_deadline l with
    | Some d => if d <? now then true else if d =? now then tie now else false
    | None => false
    end in
  match msgs with
  | [] =>
      match drain_deadline l with
      | Some d => if closes then ChannelClosed else DrainElapsed d
      | None => if closes then ChannelClosed else StillRunning
      end
  | (now, m) :: msgs =>
      if late now
      then DrainElapsed (default 0 (drain_deadline l))
      else match on_message drain_after l now m with
           | None => ShutdownRequested now
           | Some l => life_loop tie drain_after msgs closes l
           end
  end.

Definition drain_after_default : Z := 300000.
Definition lifecycle_run (tie : Z -> bool) (drain_after : Z) (msgs : list (Z * LifecycleMessage))
    (closes : bool) : life_end := life_loop tie drain_after msgs closes (mkLife 0 None).

(** ** The registry *)

Definition SessionRegistry := gmap string SessionEntry.
Definition registry_insert (r : SessionRegistry) (e : SessionEntry) : SessionRegistry :=
  <[session_id e := e]> r.
Definition registry_get (r : SessionRegistry) (id : string) : option SessionEntry := r !! id.
Definition registry_remove (r : SessionRegistry) (id : string)
    : option SessionEntry * SessionRegistry := (r !! id, delete id r).

(** ** What the crash watcher does *)

(** The respawns that succeed before the first exit outside the window or the
    first failing respawn, and how the watch then ends. *)
Fixpoint recovered (script : list exit_event) : list RespawnOutcome :=
  match script with
  | ex :: script =>
      if is_within_respawn_window (activity ex)
      then match respawn ex with Ok o => o :: recovered script | Err _ => [] end
      else []
  | [] => []
  end.
Fixpoint verdict (script : list exit_event) : watch_end :=
  match script with
  | [] => Watching
  | ex :: script =>
      if is_within_respawn_window (activity ex)
      then match respawn ex with Ok _ => verdict script | Err _ => ChannelUnavailable end
      else Drained
  end.
Definition failed (v : watch_end) : Z := match v with ChannelUnavailable => 1 | _ => 0 end.

Lemma run_spec id script : forall events rc rf,
  run id script 0 (mkWatch launched events rc rf)
  = (verdict script,
     mkWatch (mkBrowser false false)
       (events ++ map (fun o => build_recovered_event id (previous_tab_ids o) (new_tab_ids o))
                    (recovered script))
       (rc + zlen (recovered script)) (rf + failed (verdict script))).
Proof.
  induction script as [|ex script IH]; intros events rc rf; cbn [run verdict recovered].
  - cbn. by rewrite app_nil_r, !Z.add_0_r.
  - cbn [wait_for_exit launched closed_rx killed w_browser w_events recovery_count
         recovery_failed_count negb].
    destruct (is_within_respawn_window (activity ex)); cbn [negb].
    + destruct (respawn ex) as [o|e].
      * rewrite IH. cbn [map]. by rewrite <- app_assoc, zlen_cons, Z.add_assoc.
      * cbn. rewrite app_nil_r, Z.add_0_r. by destruct script.
    + cbn. by rewrite app_nil_r, !Z.add_0_r.
Qed.

(** What the crash watcher achieves: it recovers every crash in turn as long
    as each falls in the window and its respawn succeeds, with one
    session.recovered event each; the first exit outside the window ends it,
    and so does the first failing respawn, because the receiver of the old
    browser is already taken.  It therefore never gives up after three
    attempts, never counts more than one failure, and never sends
    session.recovery_failed. *)
Theorem crash_watch_spec (id : string) (script : list exit_event) :
  let '(e, w) := spawn_crash_watch id script in
  e = verdict script
  /\ w_events w = map (fun o => build_recovered_event id (previous_tab_ids o) (new_tab_ids o))
                    (recovered script)
  /\ recovery_count w = zlen (recovered script)
  /\ recovery_failed_count w = failed (verdict script)
  /\ e <> GaveUp /\ recovery_failed_count w <= 1
  /\ Forall (fun ev => vget_str "topic" (params ev) = Some "session.recovered") (w_events w).
Proof.
  unfold spawn_crash_watch. rewrite run_spec. cbn [app w_events recovery_count recovery_failed_count].
  split_and!; try done.
  - induction script as [|ex script IH]; [done|]. cbn. by repeat case_match.
  - unfold failed. case_match; lia.
  - apply Forall_map, Forall_true. done.
Qed.

(** A browser under crash watch is never waited for or killed: the watcher
    holds the exit receiver from its first step on, so [shutdown] returns at
    once, whether or not the child exits. *)
Theorem watched_shutdown_does_not_wait (id : string) (script : list exit_event) (exits : bool) :
  let w := (spawn_crash_watch id script).2 in
  shutdown exits (w_browser w) = (false, mkBrowser false false).
Proof. unfold spawn_crash_watch. by rewrite run_spec. Qed.

(** The respawn window measures the wrong thing: [last_activity_ms] is the
    session's age at its last activity.  A session touched 30 s or more after
    its creation is never respawned, however recent the activity; one touched
    within its first 30 s is, however long it has been idle. *)
Theorem respawn_window_misjudges (e : SessionEntry) (t now : Z) :
  created_at e < t <= now -> now - created_at e < 2 ^ 64 ->
  is_within_respawn_window (last_activity_ms (touch e t))
    = bool_decide (t - created_at e < RESPAWN_ACTIVITY_WINDOW_MS)
  /\ last_activity_age_ms (touch e t) now = now - t.
Proof.
  intros Ht Hnow. unfold is_within_respawn_window, last_activity_age_ms, last_activity_ms, touch, elapsed.
  cbn [last_activity created_at]. unfold sat_sub.
  rewrite (Z.max_r 0 (t - created_at e)), (Z.max_r 0 (now - created_at e)) by lia.
  rewrite (Z.mod_small (t - created_at e)) by lia.
  split.
  - destruct (Z.eqb_spec (t - created_at e) 0); [lia|]. cbn [negb andb].
    destruct (Z.ltb_spec (t - created_at e) RESPAWN_ACTIVITY_WINDOW_MS);
      [by rewrite bool_decide_eq_true_2 | by rewrite bool_decide_eq_false_2 by lia].
  - rewrite Z.max_r by lia. rewrite Z.mod_small by lia. lia.
Qed.

(** ** Draining *)

(** The state after messages, none of them too late. *)
Definition after (drain_after : Z) (l : life) (msgs : list (Z * LifecycleMessage)) : option life :=
  foldl (fun o tm => o ≫= fun l => on_message drain_after l tm.1 tm.2) (Some l) msgs.

(** A pending deadline means no connection and a last message that disconnected. *)
Definition life_inv (drain_after : Z) (hist : list (Z * LifecycleMessage)) (l : life) : Prop :=
  after drain_after (mkLife 0 None) hist = Some l /\ 0 <= connected_count l
  /\ forall d, drain_deadline l = Some d ->
     connected_count l = 0 /\ exists pre t, hist = pre ++ [(t, Disconnected)] /\ d = t + drain_after.

Lemma on_message_inv drain_after hist l now m l' :
  life_inv drain_after hist l -> on_message drain_after l now m = Some l' ->
  life_inv drain_after (hist ++ [(now, m)]) l'.
Proof.
  intros (Ha & H0 & Hd) Hm. split; [|split].
  - unfold after in *. rewrite foldl_snoc, Ha. done.
  - destruct m; simpl in Hm; simplify_eq; cbn [connected_count]; unfold sat_add, sat_sub; [|lia].
    assert (0 < u64_max) by done. lia.
  - destruct m; simpl in Hm; simplify_eq; cbn [connected_count drain_deadline]; [done|].
    intros d. destruct (Z.eqb_spec (sat_sub (connected_count l) 1) 0) as [E|E].
    + intros [= <-]. split; [done|]. eauto.
    + intros Hdl. destruct (Hd d Hdl) as [Hc _]. unfold sat_sub in E. lia.
Qed.

Lemma life_loop_drain tie drain_after msgs closes : forall hist l d,
  life_inv drain_after hist l ->
  life_loop tie drain_after msgs closes l = DrainElapsed d ->
  exists pre post l', hist ++ msgs = pre ++ post
    /\ life_inv drain_after pre l' /\ drain_deadline l' = Some d
    /\ match post with (now, _) :: _ => d <= now | [] => True end.
Proof.
  induction msgs as [|[now m] msgs IH]; intros hist l d Hi; cbn [life_loop].
  - destruct (drain_deadline l) as [d'|] eqn:E, closes; intros Hr; simplify_eq.
    exists hist, [], l. done.
  - destruct (drain_deadline l) as [d'|] eqn:E.
    + destruct (Z.ltb_spec d' now); [|destruct (Z.eqb_spec d' now); [destruct (tie now)|]]; cbn.
      1,2: intros [= <-]; exists hist, ((now, m) :: msgs), l; split_and!; [done|done|done|lia].
      all: destruct (on_message drain_after l now m) as [l'|] eqn:Em; [|done]; intros Hr;
        destruct (IH _ _ _ (on_message_inv _ _ _ _ _ _ Hi Em) Hr) as (pre & post & l0 & Ep & ?);
        exists pre, post, l0; by rewrite <- app_assoc in Ep.
    + destruct (on_message drain_after l now m) as [l'|] eqn:Em; [|done]; intros Hr.
      destruct (IH _ _ _ (on_message_inv _ _ _ _ _ _ Hi Em) Hr) as (pre & post & l0 & Ep & ?).
      exists pre, post, l0. by rewrite <- app_assoc in Ep.
Qed.

(** A session is drained only when it is idle: if the drain elapses at time
    [d], the messages handled by then end with a disconnect exactly
    [drain_after] before [d], leave no connection open, and the next message,
    if any, arrives no earlier than [d]. *)
Theorem drained_only_when_idle (tie : Z -> bool) (drain_after : Z)
    (msgs : list (Z * LifecycleMessage)) (closes : bool) (d : Z) :
  lifecycle_run tie drain_after msgs closes = DrainElapsed d ->
  exists pre post t l, msgs = pre ++ (t, Disconnected) :: post
    /\ d = t + drain_after
    /\ after drain_after (mkLife 0 None) (pre ++ [(t, Disconnected)]) = Some l
    /\ connected_count l = 0
    /\ match post with (now, _) :: _ => d <= now | [] => True end.
Proof.
  intros H.
  assert (Hi : life_inv drain_after [] (mkLife 0 None)) by (split; [done|split; [simpl; lia|done]]).
  destruct (life_loop_drain tie drain_after msgs closes [] _ d Hi H) as (pre & post & l & E & (Ha & _ & Hd) & Hdl & Hp).
  destruct (Hd d Hdl) as (Hc & pre' & t & -> & ->).
  exists pre', post, t, l. split; [|done]. simpl in E. by rewrite <- app_assoc in E.
Qed.

(** ** Outbound accounting *)

Definition push_all (e : SessionEntry) (pushes : list (queue_state * Z * ServerEvent)) : SessionEntry :=
  foldl (fun e p => (try_push p.1.1 p.1.2 e p.2).1) e pushes.
Definition is_open (q : queue_state) : bool := match q with QOpen => true | _ => false end.

(** Warnings at least an interval apart, the last one remembered. *)
Fixpoint spaced (l : list Z) : Prop :=
  match l with
  | a :: (b :: _) as l' => a + OUTBOUND_DROP_WARN_INTERVAL <= b /\ spaced l'
  | _ => True
  end.

Lemma spaced_snoc l x : spaced l ->
  (forall y, last l = Some y -> y + OUTBOUND_DROP_WARN_INTERVAL <= x) -> spaced (l ++ [x]).
Proof.
  induction l as [|a [|b l] IH]; intros Hs Hl; [done|simpl; auto|].
  destruct Hs as [Hab Hs]. change (spaced (a :: (b :: l) ++ [x])). split; [done|]. apply IH; auto.
Qed.

(** What a run of pushes has done to a bound entry. *)
Definition accounted (sent : list ServerEvent) (pushes : list (queue_state * Z * ServerEvent))
    (e : SessionEntry) : Prop :=
  conn_tx e = Some (sent ++ map snd (base.filter (fun p => is_open p.1.1 = true) pushes))
  /\ outbound_drop_count e = zlen (base.filter (fun p => is_open p.1.1 = false) pushes)
  /\ spaced (warnings e) /\ last (warnings e) = last_outbound_drop_warn_at e.

Lemma filter_zlen_le {A} (P : A -> Prop) `{forall x, Decision (P x)} l :
  zlen (base.filter P l) <= zlen l.
Proof. unfold zlen. pose proof (length_filter P l). lia. Qed.

Lemma push_accounted sent pushes e q now ev : zlen pushes < u64_max ->
  accounted sent pushes e -> accounted sent (pushes ++ [(q, now, ev)]) (try_push q now e ev).1.
Proof.
  intros Hz (Hc & Hd & Hs & Hl). unfold try_push. rewrite Hc.
  pose proof (filter_zlen_le (fun p : queue_state * Z * ServerEvent => is_open p.1.1 = false) pushes).
  assert (Hdrop : q <> QOpen -> accounted sent (pushes ++ [(q, now, ev)]) (warn_outbound_drop (count_drop e) now)).
  { intros Hq. unfold accounted. rewrite !filter_app.
    assert (is_open q = false) by (by destruct q).
    rewrite (filter_cons_False (fun p => is_open p.1.1 = true)) by (cbn; congruence).
    rewrite (filter_cons_True (fun p => is_open p.1.1 = false)) by done.
    rewrite !filter_nil, app_nil_r, zlen_app, zlen_cons, zlen_nil.
    unfold warn_outbound_drop. cbn [count_drop last_outbound_drop_warn_at].
    case_match eqn:Ew; cbn [conn_tx outbound_drop_count warnings last_outbound_drop_warn_at count_drop].
    - split_and!; [done| | |].
      + rewrite wrap_add_exact; [rewrite Hd; lia|rewrite Hd; apply zlen_nonneg|lia|lia].
      + apply spaced_snoc; [done|]. rewrite Hl. intros y Hy. rewrite Hy in Ew.
        unfold sat_sub, OUTBOUND_DROP_WARN_INTERVAL in *. lia.
      + by rewrite last_snoc.
    - split_and!; [done| |done|done].
      rewrite wrap_add_exact; [rewrite Hd; lia|rewrite Hd; apply zlen_nonneg|lia|lia]. }
  destruct q; [|by apply Hdrop|by apply Hdrop]. unfold accounted. cbn [fst set_conn].
  rewrite !filter_app.
  rewrite (filter_cons_True (fun p => is_open p.1.1 = true)) by done.
  rewrite (filter_cons_False (fun p => is_open p.1.1 = false)) by done.
  rewrite !filter_nil, app_nil_r, map_app. cbn.
  by rewrite app_assoc.
Qed.

Lemma push_all_accounted sent e pushes : accounted sent [] e -> zlen pushes <= u64_max ->
  accounted sent pushes (push_all e pushes).
Proof.
  intros H0. induction pushes as [|[[q now] ev] pushes IH] using rev_ind; intros Hz; [done|].
  rewrite zlen_app, zlen_cons, zlen_nil in Hz. unfold push_all. rewrite foldl_snoc.
  apply push_accounted; [lia|]. apply IH. lia.
Qed.

(** Outbound events are delivered in order or counted: with a client bound,
    a run of pushes hands over exactly those that found room, in order, counts
    every other one as dropped, and logs warnings at least five seconds apart. *)
Theorem outbound_accounting (id : string) (created : Z) (pushes : list (queue_state * Z * ServerEvent)) :
  zlen pushes <= u64_max ->
  let e := push_all (bind_conn (entry_new id created)) pushes in
  conn_tx e = Some (map snd (base.filter (fun p => is_open p.1.1 = true) pushes))
  /\ outbound_drop_count e = zlen (base.filter (fun p => is_open p.1.1 = false) pushes)
  /\ spaced (warnings e).
Proof.
  intros Hz. destruct (push_all_accounted [] (bind_conn (entry_new id created)) pushes) as (A & B & C & _);
    [by split_and!|done|done].
Qed.

End BrokerSession.

Module BrokerSessionExamples.
Import BrokerSession.

Definition e0 : SessionEntry := entry_new "s_1" 1000.

(** Touched 31 s after creation, crashed 10 ms later: outside the window. *)
Lemma respawn_window_misjudges_witness :
  is_within_respawn_window (last_activity_ms (touch e0 32000)) = false
  /\ last_activity_age_ms (touch e0 32000) 32010 = 10.
Proof.
  destruct (respawn_window_misjudges e0 32000 32010) as [A B]; [split; [reflexivity|discriminate]|reflexivity|].
  split; [rewrite A; reflexivity|exact B].
Defined.

Definition msgs1 : list (Z * LifecycleMessage) :=
  [(0, Connected); (10, Connected); (20, Disconnected); (30, Disconnected)].

Lemma drained_only_when_idle_witness :
  lifecycle_run (fun _ => true) 300 msgs1 false = DrainElapsed 330 /\
  exists pre post t l, msgs1 = pre ++ (t, Disconnected) :: post
    /\ 330 = t + 300
    /\ after 300 (mkLife 0 None) (pre ++ [(t, Disconnected)]) = Some l
    /\ connected_count l = 0
    /\ match post with (now, _) :: _ => 330 <= now | [] => True end.
Proof.
  split; [reflexivity|]. apply (drained_only_when_idle (fun _ => true) 300 msgs1 false). reflexivity.
Defined.

Definition ev1 : ServerEvent := build_recovered_event "s_1" [] ["t_1"].
Definition pushes1 : list (queue_state * Z * ServerEvent) :=
  [(QOpen, 0, ev1); (QFull, 100, ev1); (QClosed, 200, ev1); (QFull, 6000, ev1)].

Lemma outbound_accounting_witness :
  let e := push_all (bind_conn (entry_new "s_1" 0)) pushes1 in
  conn_tx e = Some [ev1] /\ outbound_drop_count e = 3 /\ spaced (warnings e).
Proof. apply (outbound_accounting "s_1" 0 pushes1). discriminate. Defined.

Example pushes1_warnings : warnings (push_all (bind_conn (entry_new "s_1" 0)) pushes1) = [100; 6000].
Proof. reflexivity. Qed.

Definition script1 : list exit_event :=
  [mkExitEvent 5000 (Ok (mkRespawn ["t_1"] ["t_2"])); mkExitEvent 6000 (Err "launch");
   mkExitEvent 7000 (Err "launch"); mkExitEvent 8000 (Err "launch")].
Example script1_end : (spawn_crash_watch "s_1" script1).1 = ChannelUnavailable.
Proof. reflexivity. Qed.

End BrokerSessionExamples.
