(* ===== verification/Wire.v ===== *)
(** * Wire: the broker socket

    Models [broker/src/protocol.rs] (the frame types, [decode_line] and
    [encode_vision_frame_into]), the per-connection writer task of
    [broker/src/server.rs], and the client end in
    [mcp-server/src/broker_client.rs]: the request path ([send_once],
    [send_with_timeout]), the reader task and its dispatch.

    The codecs (bincode, serde_json) are not in the repository: they are the
    fields of [WireCodec], with the documented facts used of them in
    [WireCodecLaws].  A float is its bit pattern; [num_f64] and [num_f32] are
    serde_json's conversions of floats to values. *)
From S2P Require Import Prelude Json Text BrokerSession.
Import JsonTree.

Module Wire.

(** ** [protocol.rs] *)

Record JsonRpcRequest := mkRequest {
  rq_jsonrpc : string; rq_id : option json; rq_method : string; rq_params : option json
}.
Record JsonRpcError := mkRpcError { err_code : Z; err_message : string; err_data : option json }.
Record JsonRpcResponse := mkResponse {
  rs_jsonrpc : string; rs_id : json; rs_result : option json; rs_error : option JsonRpcError
}.

Inductive ErrorCode : Type :=
| ParseError | InvalidRequest | MethodNotFound | InvalidParams | InternalError
| SessionNotFound | TabNotFound | ContextNotFound | ElementStale | ElementNotActionable
| NavigationFailed | TimeoutCode | ChromiumLaunchFailed | PermissionDenied | ProtocolError
| BrokerUnavailableCode | SessionLimitExceeded.

Definition code_i64 (c : ErrorCode) : Z :=
  match c with
  | ParseError => -32700
  | InvalidRequest => -32600
  | MethodNotFound => -32601
  | InvalidParams => -32602
  | InternalError => -32603
  | SessionNotFound => -32001
  | TabNotFound => -32002
  | ContextNotFound => -32003
  | ElementStale => -32004
  | ElementNotActionable => -32005
  | NavigationFailed => -32006
  | TimeoutCode => -32007
  | ChromiumLaunchFailed => -32008
  | PermissionDenied => -32009
  | ProtocolError => -32010
  | BrokerUnavailableCode => -32011
  | SessionLimitExceeded => -32012
  end.

Definition response_ok (id result : json) : JsonRpcResponse := mkResponse "2.0" id (Some result) None.
Definition response_err (id : json) (code : ErrorCode) (message : string) (data : option json)
    : JsonRpcResponse :=
  mkResponse "2.0" id None (Some (mkRpcError (code_i64 code) message data)).

Definition BINARY_TOPIC_MAGIC : byte := Byte.x01.

Record FrameHandle := mkHandle {
  ring_path : string; slot : Z; slot_seq : Z; fh_offset : Z; fh_len : Z; ts_us : Z
}.
Record Viewport := mkViewport {
  offset_top : Z; page_scale_factor : Z; device_width : Z; device_height : Z;
  scroll_offset_x : Z; scroll_offset_y : Z; timestamp : Z
}.
Record TileRect := mkTile {
  tile_x : Z; tile_y : Z; t_x : Z; t_y : Z; t_w : Z; t_h : Z; prev_hash : Z; next_hash : Z
}.
Record OcrEntry := mkOcr { o_x : Z; o_y : Z; o_w : Z; o_h : Z; o_text : string; o_confidence : Z }.
Record VisionFrameEvent := mkVision {
  vf_session_id : string; vf_tab_id : string; ts_ms : Z; frame_seq : Z; captured_us : Z;
  frame_handle : FrameHandle; vf_viewport : Viewport;
  changed_tiles : list TileRect; ocr_delta : list OcrEntry;
  stability : option Z; vf_state : option string
}.

Inductive WireFrame : Type := WfJson (r : JsonRpcRequest) | WfVisionFrame (ev : VisionFrameEvent).
Inductive WireError : Type :=
| WeEmpty | WeMalformedBinary (what : string) | WeBincode (e : string) | WeJson (e : string).

(** The events of the outbound queue ([events.rs]). *)
Inductive ClientEvent : Type :=
| CeReply (r : JsonRpcResponse)
| CeNotify (n : ServerEvent)
| CeVisionFrame (vf : VisionFrameEvent).

(** The client's view of a JSON line ([broker_client.rs]). *)
Record JsonRpcFrame := mkFrame {
  f_id : option Z; f_result : option json; f_error : option JsonRpcError;
  f_method : option string; f_params : option json
}.
Record BrokerNotification := mkNotif { n_method : string; n_params : json }.

(** ** The codecs *)

Class WireCodec := {
  (** [bincode::encode_into_std_write]: bytes appended and the error, if any. *)
  bc_encode : VisionFrameEvent -> list byte * option string;
  (** [bincode::decode_from_slice] *)
  bc_decode : list byte -> result VisionFrameEvent string;
  (** [serde_json::to_writer] of a response, of a notification, and
      [to_vec] of a client request (id, method, params). *)
  ser_response : JsonRpcResponse -> list byte * option string;
  ser_event : ServerEvent -> list byte * option string;
  ser_request : Z -> string -> json -> result (list byte) string;
  (** [serde_json::from_slice] at the two frame types. *)
  de_request : list byte -> result JsonRpcRequest string;
  de_frame : list byte -> result JsonRpcFrame string;
  num_f64 : Z -> json;
  num_f32 : Z -> json
}.

(** What a [JsonRpcFrame] holds after a response was serialized and read back:
    an [Option] field is absent for [null], and the id must be a [u64]. *)
Definition non_null (v : option json) : option json :=
  match v with Some JNull => None | v => v end.
Definition fix_error (e : JsonRpcError) : JsonRpcError :=
  mkRpcError (err_code e) (err_message e) (non_null (err_data e)).
Definition frame_of_response (r : JsonRpcResponse) : option JsonRpcFrame :=
  match rs_id r with
  | JNull => Some (mkFrame None (non_null (rs_result r)) (fix_error <$> rs_error r) None None)
  | JNum z =>
      if (0 <=? z) && (z <=? u64_max)
      then Some (mkFrame (Some z) (non_null (rs_result r)) (fix_error <$> rs_error r) None None)
      else None
  | _ => None
  end.
Definition frame_of_event (n : ServerEvent) : JsonRpcFrame :=
  mkFrame None None None (Some (method n)) (non_null (Some (params n))).

(** A line of compact JSON: nonempty, no newline, neither the binary magic at
    its start nor a carriage return at its end, and valid UTF-8. *)
Definition json_line (b : list byte) : Prop :=
  b <> [] /\ Byte.x0a ∉ b /\ head b <> Some BINARY_TOPIC_MAGIC /\ last b <> Some Byte.x0d /\
  Text.from_utf8_lossy b = b.

(** The parser refuses values nested 128 deep; the laws speak of shallower ones. *)
Fixpoint json_depth (v : json) : nat :=
  match v with
  | JArr l => S (foldr (fun x a => Nat.max (json_depth x) a) 0%nat l)
  | JObj kvs => S (foldr (fun kv a => Nat.max (json_depth (snd kv)) a) 0%nat kvs)
  | _ => 0%nat
  end.
Definition shallow_opt (v : option json) : Prop := (default 0 (json_depth <$> v) < 120)%nat.
Definition shallow_response (r : JsonRpcResponse) : Prop :=
  shallow_opt (rs_result r) /\ shallow_opt (rs_error r ≫= err_data).

Class WireCodecLaws `{WireCodec} := {
  bc_roundtrip ev p : bc_encode ev = (p, None) -> bc_decode p = Ok ev;
  ser_response_line r b : ser_response r = (b, None) -> json_line b;
  ser_event_line n b : ser_event n = (b, None) -> json_line b;
  de_response r b : ser_response r = (b, None) -> shallow_response r ->
    match frame_of_response r with Some f => de_frame b = Ok f | None => is_ok (de_frame b) = false end;
  de_event n b : ser_event n = (b, None) -> shallow_opt (Some (params n)) ->
    de_frame b = Ok (frame_of_event n)
}.

(** ** Frames *)

Definition u32_le (z : Z) : list byte :=
  [byte_of_Z z; byte_of_Z (Z.shiftr z 8); byte_of_Z (Z.shiftr z 16); byte_of_Z (Z.shiftr z 24)].
Definition u32_from_le (a b c d : byte) : Z :=
  Z.lor (byte_val a) (Z.lor (Z.shiftl (byte_val b) 8)
    (Z.lor (Z.shiftl (byte_val c) 16) (Z.shiftl (byte_val d) 24))).

Section Codec.
Context `{WireCodec}.

Definition decode_line (bytes : list byte) : result WireFrame WireError :=
  match bytes with
  | [] => Err WeEmpty
  | first :: _ =>
      if decide (first = BINARY_TOPIC_MAGIC) then
        match bytes with
        | _ :: b1 :: b2 :: b3 :: b4 :: payload =>
            if zlen bytes =? 5 + u32_from_le b1 b2 b3 b4 then
              match bc_decode payload with
              | Ok ev => Ok (WfVisionFrame ev)
              | Err e => Err (WeBincode e)
              end
            else Err (WeMalformedBinary "declared length mismatch")
        | _ => Err (WeMalformedBinary "line shorter than header")
        end
      else match de_request bytes with Ok r => Ok (WfJson r) | Err e => Err (WeJson e) end
  end.

(** The scratch buffer afterwards and the outcome. The length is patched into
    its slot after the payload has been written. *)
Definition encode_vision_frame_into (scratch : list byte) (ev : VisionFrameEvent)
    : list byte * result () WireError :=
  let s1 := scratch ++ [BINARY_TOPIC_MAGIC] in
  let len_pos := length s1 in
  let s2 := s1 ++ replicate 4 Byte.x00 in
  let payload_start := length s2 in
  let '(p, err) := bc_encode ev in
  let s3 := s2 ++ p in
  match err with
  | Some e => (s3, Err (WeBincode e))
  | None =>
      let payload_len := Z.of_nat (length s3 - payload_start) in
      let s4 := list_inserts len_pos (u32_le (payload_len mod 2 ^ 32)) s3 in
      (s4 ++ [Byte.x0a], Ok ())
  end.

(** ** The writer task *)

(** One event encoded into the cleared scratch; [None]: the event is dropped. *)
Definition encode_event (ev : ClientEvent) : option (list byte) :=
  match ev with
  | CeReply r => match ser_response r with (b, None) => Some (b ++ [Byte.x0a]) | _ => None end
  | CeNotify n => match ser_event n with (b, None) => Some (b ++ [Byte.x0a]) | _ => None end
  | CeVisionFrame vf =>
      match encode_vision_frame_into [] vf with (b, Ok _) => Some b | _ => None end
  end.

(** [write_ok i]: whether the [i]-th write to the socket succeeds; a failed
    write ends the task. *)
Fixpoint writer_task (write_ok : nat -> bool) (i : nat) (evs : list ClientEvent) : list byte :=
  match evs with
  | [] => []
  | ev :: evs =>
      match encode_event ev with
      | None => writer_task write_ok i evs
      | Some b => if write_ok i then b ++ writer_task write_ok (S i) evs else []
      end
  end.

(** ** The client: dispatch *)

Inductive BridgeError : Type :=
| BrokerUnavailable (msg : string)
| BrokerError (code : Z) (message : string) (data : option json)
| Cancelled
| Timeout (ms : Z)
| InvalidParamsErr (method reason : string)
| Protocol (msg : string)
| Internal (msg : string).

(** [Inner]: the next id, whether the write half is there, the ids with a reply
    sender, the results sent to them and the notifications broadcast. *)
Record Inner := mkInner {
  next_id : Z;
  writer : bool;
  inflight : gset Z;
  replies : list (Z * result json BridgeError);
  notifications : list BrokerNotification;
  client_session : option string
}.

Definition inner_new : Inner := mkInner 1 false ∅ [] [] None.

Definition set_inflight (s : Inner) (m : gset Z) : Inner :=
  mkInner (next_id s) (writer s) m (replies s) (notifications s) (client_session s).
Definition set_writer (s : Inner) (w : bool) : Inner :=
  mkInner (next_id s) w (inflight s) (replies s) (notifications s) (client_session s).
Definition notify (s : Inner) (n : BrokerNotification) : Inner :=
  mkInner (next_id s) (writer s) (inflight s) (replies s) (notifications s ++ [n]) (client_session s).
Definition reply (s : Inner) (id : Z) (r : result json BridgeError) : Inner :=
  mkInner (next_id s) (writer s) (inflight s ∖ {[ id ]}) (replies s ++ [(id, r)])
    (notifications s) (client_session s).

Definition dispatch_json_message (msg : JsonRpcFrame) (s : Inner) : Inner :=
  match f_id msg, f_method msg with
  | Some id, _ =>
      if decide (id ∈ inflight s)
      then reply s id
             match f_error msg with
             | Some e => Err (BrokerError (err_code e) (err_message e) (err_data e))
             | None => Ok (default JNull (f_result msg))
             end
      else s
  | None, Some m => notify s (mkNotif m (default JNull (f_params msg)))
  | None, None => s
  end.

Definition bbox (x y w h : Z) : json :=
  JObj [("x", JNum x); ("y", JNum y); ("w", JNum w); ("h", JNum h)].
Definition broker_vision_frame_to_json (ev : VisionFrameEvent) : json :=
  let vp := vf_viewport ev in
  let fh := frame_handle ev in
  JObj ([("topic", JStr "vision.frame");
         ("session_id", JStr (vf_session_id ev));
         ("tab_id", JStr (vf_tab_id ev));
         ("seq", JNum (frame_seq ev));
         ("captured_us", JNum (captured_us ev));
         ("viewport", JObj
            [("offset_top", num_f64 (offset_top vp));
             ("page_scale_factor", num_f64 (page_scale_factor vp));
             ("device_width", num_f64 (device_width vp));
             ("device_height", num_f64 (device_height vp));
             ("scroll_offset_x", num_f64 (scroll_offset_x vp));
             ("scroll_offset_y", num_f64 (scroll_offset_y vp));
             ("timestamp", num_f64 (timestamp vp))]);
         ("frame", JObj
            [("shm_path", JStr (ring_path fh));
             ("slot_seq", JNum (slot_seq fh));
             ("slot_index", JNum (slot fh));
             ("offset", JNum (fh_offset fh));
             ("len", JNum (fh_len fh));
             ("ts_us", JNum (ts_us fh))]);
         ("changed_tiles", JArr (map (fun tile => JObj
            [("tile_x", JNum (tile_x tile));
             ("tile_y", JNum (tile_y tile));
             ("bbox", bbox (t_x tile) (t_y tile) (t_w tile) (t_h tile));
             ("prev_hash", JNum (prev_hash tile));
             ("next_hash", JNum (next_hash tile))]) (changed_tiles ev)));
         ("ocr_delta", JArr (map (fun entry => JObj
            [("bbox", bbox (o_x entry) (o_y entry) (o_w entry) (o_h entry));
             ("text", JStr (o_text entry));
             ("confidence", num_f32 (o_confidence entry))]) (ocr_delta ev)))]
        ++ match stability ev with Some x => [("stability", num_f32 x)] | None => [] end
        ++ match vf_state ev with Some x => [("state", JStr x)] | None => [] end).

Definition decode_binary_vision_frame (line : list byte) : result json BridgeError :=
  match line with
  | [] => Err (Protocol "empty broker frame")
  | first :: _ =>
      if decide (first = Byte.x01) then
        match line with
        | _ :: b1 :: b2 :: b3 :: b4 :: payload =>
            if zlen line =? 5 + u32_from_le b1 b2 b3 b4 then
              match bc_decode payload with
              | Ok ev => Ok (broker_vision_frame_to_json ev)
              | Err e => Err (Protocol ("binary vision.frame decode: " +:+ e))
              end
            else Err (Protocol "binary broker frame length mismatch")
        | _ => Err (Protocol "binary broker frame shorter than header")
        end
      else Err (Protocol "not a binary broker frame")
  end.

Definition dispatch_binary_message (line : list byte) (s : Inner) : Inner :=
  match decode_binary_vision_frame line with
  | Ok payload => notify s (mkNotif "event/notify" payload)
  | Err _ => s
  end.

(** ** The client: reader task *)

Definition MAX_LINE_BYTES : Z := 16 * 1024 * 1024.

(** [if let Some(c) = buf.last() { buf.pop() }] *)
Definition pop_last (c : byte) (buf : list byte) : list byte :=
  if decide (last buf = Some c) then removelast buf else buf.

Definition handle_line (buf : list byte) (s : Inner) : Inner :=
  if MAX_LINE_BYTES <? zlen buf then s
  else
    let buf := pop_last Byte.x0d (pop_last Byte.x0a buf) in
    match buf with
    | [] => s
    | b0 :: _ =>
        if decide (b0 = Byte.x01) then dispatch_binary_message buf s
        else if decide (Text.from_utf8_lossy buf = buf) then
          match de_frame buf with Ok msg => dispatch_json_message msg s | Err _ => s end
        else s
    end.

(** The buffers successive [read_until(b'\n')] calls return on a stream that
    ends after [input]; a last line without newline is returned only at a clean
    end of file. *)
Fixpoint read_until_lines (eof : bool) (buf input : list byte) : list (list byte) :=
  match input with
  | [] => if eof && negb (bool_decide (buf = [])) then [buf] else []
  | b :: input =>
      if decide (b = Byte.x0a) then (buf ++ [b]) :: read_until_lines eof [] input
      else read_until_lines eof (buf ++ [b]) input
  end.

(** [map.drain()] *)
Definition drain (s : Inner) : Inner :=
  mkInner (next_id s) (writer s) ∅
    (replies s ++ map (fun id => (id, Err (BrokerUnavailable "socket closed"))) (elements (inflight s)))
    (notifications s) (client_session s).

Definition reader_loop (lines : list (list byte)) (s : Inner) : Inner :=
  foldl (fun s l => handle_line l s) s lines.
Definition reader_task (eof : bool) (input : list byte) (s : Inner) : Inner :=
  drain (reader_loop (read_until_lines eof [] input) s).

(** ** The client: requests *)

Definition dec (n : Z) : string := String.string_of_list_byte (Text.fmt_dec n).

(** [send_once] up to the wait for the reply: the id waited on, or the error.
    [write_err]: the error of the socket write, if it fails. *)
Definition send_begin (write_err : option string) (method : string) (params : json) (s : Inner)
    : Inner * result Z BridgeError :=
  let id := next_id s in
  let s := mkInner (wrap_add u64_max id 1) (writer s) (inflight s) (replies s) (notifications s)
             (client_session s) in
  match ser_request id method params with
  | Err e => (s, Err (Internal ("serialize: " +:+ e)))
  | Ok frame =>
      if MAX_LINE_BYTES <? zlen frame
      then (s, Err (Protocol ("outbound frame " +:+ dec (zlen frame) +:+ " bytes exceeds 16MB cap")))
      else
        let s := set_inflight s ({[ id ]} ∪ inflight s) in
        if writer s then
          match write_err with
          | None => (s, Ok id)
          | Some e => (set_writer (set_inflight s (inflight s ∖ {[ id ]})) false,
                       Err (BrokerUnavailable ("write: " +:+ e)))
          end
        else (s, Err (BrokerUnavailable "writer absent"))
  end.

(** What the wait ends with: a sent result, a dropped sender, the timeout. *)
Inductive rx_outcome : Type := RxSent (r : result json BridgeError) | RxDropped | RxElapsed.

Definition send_end (per_call : Z) (id : Z) (o : rx_outcome) (s : Inner)
    : Inner * result json BridgeError :=
  match o with
  | RxSent r => (s, r)
  | RxDropped => (set_inflight s (inflight s ∖ {[ id ]}), Err (BrokerUnavailable "inflight dropped"))
  | RxElapsed => (set_inflight s (inflight s ∖ {[ id ]}), Err (Timeout per_call))
  end.

(** What the surroundings do during one attempt: whether the write fails,
    what other tasks do while it waits, how a redial ends and whether the
    deadline has passed afterwards. *)
Record attempt_env := mkEnv {
  e_write_err : option string;
  e_wait : Z -> Inner -> Inner * rx_outcome;
  e_dial : Inner -> Inner * option BridgeError;
  e_elapsed : Z
}.

Definition send_once (env : attempt_env) (method : string) (params : json) (per_call : Z) (s : Inner)
    : Inner * result json BridgeError :=
  match send_begin (e_write_err env) method params s with
  | (s, Err e) => (s, Err e)
  | (s, Ok id) => let '(s, o) := e_wait env id s in send_end per_call id o s
  end.

(** The loop over the remaining attempts; [first] is [attempt == 0]. *)
Fixpoint send_attempts (envs : list attempt_env) (first : bool) (method : string) (params : json)
    (per_call : Z) (last_err : option BridgeError) (s : Inner) : Inner * result json BridgeError :=
  match envs with
  | [] => (s, Err (default (BrokerUnavailable "redial failed") last_err))
  | env :: envs =>
      match send_once env method params per_call s with
      | (s, Ok v) => (s, Ok v)
      | (s, Err (BrokerUnavailable msg)) =>
          if first then
            let '(s, e2) := e_dial env s in
            let last_err := match e2 with Some e => Some e | None => last_err end in
            if per_call <=? e_elapsed env then (s, Err (Timeout per_call))
            else send_attempts envs false method params per_call last_err s
          else (s, Err (BrokerUnavailable msg))
      | (s, Err e) => (s, Err e)
      end
  end.

Definition send_with_timeout (env0 env1 : attempt_env) (method : string) (params : json)
    (per_call : Z) (s : Inner) : Inner * result json BridgeError :=
  send_attempts [env0; env1] true method params per_call None s.

(** ** The specification of delivery *)

(** What an event means to the client. *)
Definition deliver (s : Inner) (ev : ClientEvent) : Inner :=
  match ev with
  | CeReply r =>
      match as_u64 (rs_id r) with
      | Some id =>
          if decide (id ∈ inflight s)
          then reply s id
                 match rs_error r with
                 | Some e => Err (BrokerError (err_code e) (err_message e) (non_null (err_data e)))
                 | None => Ok (default JNull (rs_result r))
                 end
          else s
      | None => s
      end
  | CeNotify n => notify s (mkNotif (method n) (params n))
  | CeVisionFrame vf => notify s (mkNotif "event/notify" (broker_vision_frame_to_json vf))
  end.

(** A body that survives being read as a line. *)
Definition line_safe (body : list byte) : Prop := Byte.x0a ∉ body /\ last body <> Some Byte.x0d.

(** A binary frame before its newline. *)
Definition vision_body (p : list byte) : list byte := BINARY_TOPIC_MAGIC :: u32_le (zlen p) ++ p.

(** An event that is encoded, fits a line and, if binary, is line-safe. *)
Definition sendable (ev : ClientEvent) : Prop :=
  exists b, encode_event ev = Some b /\ zlen b <= MAX_LINE_BYTES /\
  match ev with
  | CeReply r => shallow_response r
  | CeNotify n => shallow_opt (Some (params n))
  | CeVisionFrame vf => exists p, bc_encode vf = (p, None) /\ line_safe (vision_body p)
  end.

(** What is left of a byte string after its first newline. *)
Fixpoint after_newline (l : list byte) : list byte :=
  match l with
  | [] => []
  | b :: l => if decide (b = Byte.x0a) then l else after_newline l
  end.

(** ** Lemmas *)

Lemma encode_vision_eq ev p scratch : bc_encode ev = (p, None) -> zlen p < 2 ^ 32 ->
  encode_vision_frame_into scratch ev = (scratch ++ vision_body p ++ [Byte.x0a], Ok ()).
Proof.
  intros E L. unfold encode_vision_frame_into. rewrite E.
  rewrite !length_app, length_replicate. cbn [length].
  replace (length scratch + 1 + 4 + length p - (length scratch + 1 + 4))%nat with (length p) by lia.
  fold (zlen p). rewrite Z.mod_small by (pose proof (zlen_nonneg p); lia).
  replace (length scratch + 1)%nat with (length (scratch ++ [BINARY_TOPIC_MAGIC]) + 0)%nat
    by (rewrite length_app; simpl; lia).
  rewrite <- (assoc_L (++) (scratch ++ _)), list_inserts_app_r.
  unfold vision_body. rewrite <- !(assoc_L (++)). reflexivity.
Qed.

Lemma encode_vision_length ev p b : bc_encode ev = (p, None) ->
  encode_event (CeVisionFrame ev) = Some b -> zlen b = 6 + zlen p.
Proof.
  intros E. cbn [encode_event]. unfold encode_vision_frame_into. rewrite E.
  set (s4 := list_inserts _ _ _). assert (length s4 = 5 + length p)%nat as L.
  { unfold s4. rewrite length_inserts. reflexivity. }
  clearbody s4. intros Hb. assert (b = s4 ++ [Byte.x0a]) as -> by congruence.
  rewrite zlen_app, zlen_cons, zlen_nil. unfold zlen. lia.
Qed.

Lemma u32_le_roundtrip z : 0 <= z < 2 ^ 32 ->
  exists a b c d, u32_le z = [a; b; c; d] /\ u32_from_le a b c d = z.
Proof.
  intros. unfold u32_le. do 4 eexists. split; [reflexivity|].
  unfold u32_from_le. rewrite !byte_val_of_Z.
  apply Z.bits_inj'; intros n Hn.
  change 256 with (2 ^ 8).
  rewrite !Z.lor_spec, !Z.shiftl_spec by lia.
  destruct (decide (n < 8)); [|destruct (decide (n < 16)); [|destruct (decide (n < 24)); [|destruct (decide (n < 32))]]].
  all: repeat first
    [ rewrite Z.mod_pow2_bits_low by lia
    | rewrite Z.mod_pow2_bits_high by lia
    | rewrite (Z.testbit_neg_r _ (n - _)) by lia
    | rewrite Z.shiftr_spec by lia ].
  all: rewrite ?orb_false_r, ?orb_false_l; try (f_equal; lia).
  symmetry. rewrite <- (Z.mod_small z (2 ^ 32)) by lia. now rewrite Z.mod_pow2_bits_high by lia.
Qed.

Lemma zlen_vision_body p : zlen (vision_body p) = 5 + zlen p.
Proof. unfold vision_body, u32_le. simpl. unfold zlen. simpl. lia. Qed.

Lemma read_line eof buf l rest : Byte.x0a ∉ l ->
  read_until_lines eof buf (l ++ Byte.x0a :: rest)
  = (buf ++ l ++ [Byte.x0a]) :: read_until_lines eof [] rest.
Proof.
  revert buf. induction l as [|b l IH]; intros buf; simpl.
  - intros _. reflexivity.
  - intros N. apply not_elem_of_cons in N as [Nb Nl]. case_decide; [congruence|].
    rewrite IH by done. now rewrite <- (assoc_L (++)).
Qed.

Lemma pop_last_snoc c l : pop_last c (l ++ [c]) = l.
Proof. unfold pop_last. rewrite last_snoc. rewrite decide_True by done. apply removelast_last. Qed.

Lemma pop_last_other c l : last l <> Some c -> pop_last c l = l.
Proof. intros. unfold pop_last. now rewrite decide_False. Qed.

(** One line of the reader, its terminators removed. *)
Lemma handle_line_body l s : zlen l < MAX_LINE_BYTES ->
  handle_line (l ++ [Byte.x0a]) s =
  match pop_last Byte.x0d l with
  | [] => s
  | (b0 :: _) as buf =>
      if decide (b0 = Byte.x01) then dispatch_binary_message buf s
      else if decide (Text.from_utf8_lossy buf = buf) then
        match de_frame buf with Ok msg => dispatch_json_message msg s | Err _ => s end
      else s
  end.
Proof.
  intros L. unfold handle_line. rewrite zlen_app, zlen_cons, zlen_nil.
  destruct (Z.ltb_spec MAX_LINE_BYTES (zlen l + (1 + 0))); [lia|].
  rewrite pop_last_snoc. cbn zeta. now destruct (pop_last Byte.x0d l).
Qed.

Lemma decode_vision_body `{!WireCodecLaws} ev p : bc_encode ev = (p, None) -> zlen p < 2 ^ 32 ->
  decode_binary_vision_frame (vision_body p) = Ok (broker_vision_frame_to_json ev).
Proof.
  intros E L. pose proof (zlen_nonneg p).
  destruct (u32_le_roundtrip (zlen p) ltac:(lia)) as (a & b & c & d & E1 & E2).
  pose proof (zlen_vision_body p) as HL. unfold vision_body in *. rewrite E1 in *.
  cbn [app] in *. unfold decode_binary_vision_frame.
  rewrite decide_True by done. rewrite HL, E2, Z.eqb_refl, (bc_roundtrip _ _ E). reflexivity.
Qed.

(** A proper prefix of a binary frame is refused. *)
Lemma decode_prefix_refused line p : zlen p < 2 ^ 32 ->
  line `prefix_of` vision_body p -> zlen line < zlen (vision_body p) ->
  exists e, decode_binary_vision_frame line = Err e.
Proof.
  intros L [k Hk] Hlt. pose proof (zlen_nonneg p). rewrite zlen_vision_body in Hlt.
  destruct (u32_le_roundtrip (zlen p) ltac:(lia)) as (a & b & c & d & E1 & E2).
  unfold vision_body in Hk. rewrite E1 in Hk. cbn [app] in Hk.
  do 5 (destruct line as [|? line]; [eexists; cbn; try (case_decide; reflexivity); reflexivity|
    cbn [app] in Hk; injection Hk as <- Hk]).
  unfold decode_binary_vision_frame. rewrite decide_True by done. rewrite E2.
  rewrite (proj2 (Z.eqb_neq _ _)) by (rewrite !zlen_cons in *; lia). eauto.
Qed.

Lemma fits_u32 (p : list byte) : 5 + zlen p < MAX_LINE_BYTES -> zlen p < 2 ^ 32.
Proof. unfold MAX_LINE_BYTES. lia. Qed.

Lemma first_newline l : exists pre,
  l ++ [Byte.x0a] = pre ++ Byte.x0a :: after_newline (l ++ [Byte.x0a]) /\
  Byte.x0a ∉ pre /\ pre `prefix_of` l /\ (Byte.x0a ∈ l -> pre <> l).
Proof.
  induction l as [|b l (pre & E & N & P & Q)]; simpl.
  - exists []. repeat split; [apply not_elem_of_nil|reflexivity|]. now intros ?%not_elem_of_nil.
  - case_decide as Hb.
    + subst b. exists []. repeat split; [apply not_elem_of_nil|apply prefix_nil|done].
    + exists (b :: pre). repeat split.
      * simpl. now rewrite <- E.
      * now apply not_elem_of_cons.
      * now apply prefix_cons.
      * rewrite elem_of_cons. intros [?|?] [=]; [congruence|]. now apply Q.
Qed.

Lemma pop_last_prefix c l : pop_last c l `prefix_of` l.
Proof.
  unfold pop_last. case_decide as E; [|reflexivity].
  apply last_Some in E as [k ->]. rewrite removelast_last. now exists [c].
Qed.

Lemma prefix_zlen {A} (k l : list A) : k `prefix_of` l -> zlen k <= zlen l.
Proof. intros P%prefix_length. unfold zlen. lia. Qed.

Lemma vision_delivered `{!WireCodecLaws} eof ev p rest s :
  bc_encode ev = (p, None) -> 5 + zlen p < MAX_LINE_BYTES -> line_safe (vision_body p) ->
  reader_loop (read_until_lines eof [] (vision_body p ++ Byte.x0a :: rest)) s
  = reader_loop (read_until_lines eof [] rest) (deliver s (CeVisionFrame ev)).
Proof.
  intros E L [Sn Sr]. rewrite read_line by done. unfold reader_loop. cbn [foldl app].
  rewrite handle_line_body by (rewrite zlen_vision_body; lia).
  rewrite pop_last_other by done. unfold vision_body at 1. rewrite decide_True by done.
  unfold dispatch_binary_message. fold (vision_body p).
  rewrite (decode_vision_body ev p E (fits_u32 p L)). reflexivity.
Qed.

Lemma vision_cut eof p rest s : 5 + zlen p < MAX_LINE_BYTES -> ~ line_safe (vision_body p) ->
  reader_loop (read_until_lines eof [] (vision_body p ++ Byte.x0a :: rest)) s
  = reader_loop (read_until_lines eof [] (after_newline (vision_body p ++ [Byte.x0a]) ++ rest)) s.
Proof.
  intros L U. destruct (first_newline (vision_body p)) as (pre & E & N & P & Q).
  replace (vision_body p ++ Byte.x0a :: rest) with ((vision_body p ++ [Byte.x0a]) ++ rest)
    by now rewrite <- (assoc_L (++)).
  rewrite E at 1. rewrite <- (assoc_L (++)). cbn [app]. rewrite read_line by done.
  unfold reader_loop. cbn [foldl app].
  rewrite handle_line_body by (pose proof (prefix_zlen _ _ P); rewrite zlen_vision_body in *; lia).
  assert (exists e, decode_binary_vision_frame (pop_last Byte.x0d pre) = Err e) as [e He].
  { apply decode_prefix_refused with p; [now apply fits_u32| |].
    - etrans; [apply pop_last_prefix|done].
    - pose proof (prefix_zlen _ _ (pop_last_prefix Byte.x0d pre)) as H1.
      destruct (decide (pre = vision_body p)) as [->|Hne].
      + unfold pop_last in *. case_decide as Hl.
        * apply last_Some in Hl as [k ->]. rewrite removelast_last, zlen_app, zlen_cons. pose proof (@zlen_nonneg byte []). lia.
        * destruct U. split; done.
      + destruct P as [k Hk]. destruct k as [|x k]; [rewrite app_nil_r in Hk; congruence|].
        rewrite Hk, zlen_app, zlen_cons. pose proof (zlen_nonneg k). lia. }
  destruct (pop_last Byte.x0d pre) as [|b0 l] eqn:El; [reflexivity|].
  assert (b0 = Byte.x01) as ->.
  { pose proof (pop_last_prefix Byte.x0d pre) as P'. rewrite El in P'.
    destruct (transitivity P' P) as [k Hk]. now injection Hk. }
  rewrite decide_True by done. unfold dispatch_binary_message. now rewrite He.
Qed.

(** A JSON line reaches [dispatch_json_message] as the parsed frame. *)
Lemma json_line_handled eof b rest s : json_line b -> zlen b < MAX_LINE_BYTES ->
  reader_loop (read_until_lines eof [] (b ++ Byte.x0a :: rest)) s
  = reader_loop (read_until_lines eof [] rest)
      match de_frame b with Ok msg => dispatch_json_message msg s | Err _ => s end.
Proof.
  intros (Hne & Hn & Hh & Hr & Hu) L. rewrite read_line by done. unfold reader_loop. cbn [foldl app].
  rewrite handle_line_body, pop_last_other by done.
  destruct b as [|b0 b]; [done|]. rewrite decide_False by (intros ->; now apply Hh).
  now rewrite decide_True by done.
Qed.

Lemma event_dispatch n s :
  dispatch_json_message (frame_of_event n) s = deliver s (CeNotify n).
Proof. unfold dispatch_json_message, frame_of_event. simpl. now destruct (params n). Qed.

Lemma response_dispatch r s :
  match frame_of_response r with Some f => dispatch_json_message f s | None => s end
  = deliver s (CeReply r).
Proof.
  unfold frame_of_response, deliver. destruct (rs_id r); try reflexivity. simpl.
  destruct (_ && _); [|reflexivity].
  unfold dispatch_json_message. simpl. case_decide; [|reflexivity].
  f_equal. destruct (rs_error r); simpl; [reflexivity|]. destruct (rs_result r) as [[]|]; reflexivity.
Qed.

Lemma snoc_fits (k : list byte) c : zlen (k ++ [c]) <= MAX_LINE_BYTES -> zlen k < MAX_LINE_BYTES.
Proof. rewrite zlen_app, zlen_cons, zlen_nil. lia. Qed.

Lemma event_delivered `{!WireCodecLaws} eof ev b rest s :
  encode_event ev = Some b -> sendable ev ->
  reader_loop (read_until_lines eof [] (b ++ rest)) s
  = reader_loop (read_until_lines eof [] rest) (deliver s ev).
Proof.
  intros E (b' & E' & L & X). replace b' with b in * by congruence. clear b' E'.
  destruct ev as [r|n|vf]; cbn [encode_event] in E.
  - destruct (ser_response r) as [k [|]] eqn:Er; [discriminate|]. injection E as <-.
    rewrite <- (assoc_L (++)). cbn [app].
    rewrite (json_line_handled _ k) by (eauto using ser_response_line, snoc_fits).
    pose proof (de_response r k Er X) as D. rewrite <- response_dispatch.
    destruct (frame_of_response r); [now rewrite D|]. destruct (de_frame k); [discriminate|done].
  - destruct (ser_event n) as [k [|]] eqn:Er; [discriminate|]. injection E as <-.
    rewrite <- (assoc_L (++)). cbn [app].
    rewrite (json_line_handled _ k) by (eauto using ser_event_line, snoc_fits).
    rewrite (de_event n k Er X). now rewrite event_dispatch.
  - destruct X as (p & Ep & Sp).
    assert (zlen p < 2 ^ 32) as Lp.
    { destruct (Z.lt_ge_cases (zlen p) (2 ^ 32)) as [|G]; [done|].
      unfold MAX_LINE_BYTES in L. rewrite (encode_vision_length vf p b Ep E) in L. lia. }
    rewrite (encode_vision_eq vf p [] Ep Lp) in E.
    assert (b = vision_body p ++ [Byte.x0a]) as -> by (cbn [app] in E; congruence). rewrite <- (assoc_L (++)). cbn [app].
    apply vision_delivered; [done| |done].
    rewrite zlen_app, zlen_vision_body, zlen_cons, zlen_nil in L. lia.
Qed.

(** C5: Whatever the broker's writer task sends to a client, replies and
    notifications as JSON lines and vision frames in binary, reaches the
    client's reader in order and exactly once: each reply resolves the call
    waiting for its id with the broker's result or error, each notification and
    each frame is broadcast, and reading goes on with what follows.  For vision
    frames this holds only when the length and payload bytes contain no newline
    and do not end in a carriage return.  Any other frame is lost: its first
    line is refused as too short, and what follows its first newline byte is
    read as if it were the next message. *)
Theorem wire_delivery `{!WireCodecLaws} eof evs rest s :
  (Forall sendable evs ->
   reader_loop (read_until_lines eof [] (writer_task (fun _ => true) 0 evs ++ rest)) s
   = reader_loop (read_until_lines eof [] rest) (foldl deliver s evs)) /\
  (forall vf p b, bc_encode vf = (p, None) -> 5 + zlen p < MAX_LINE_BYTES ->
   ~ line_safe (vision_body p) -> encode_event (CeVisionFrame vf) = Some b ->
   reader_loop (read_until_lines eof [] (b ++ rest)) s
   = reader_loop (read_until_lines eof [] (after_newline b ++ rest)) s).
Proof.
  split.
  - intros F. generalize 0%nat. revert s. induction F as [|ev evs Hev F IH]; intros s i; [reflexivity|].
    cbn [writer_task foldl]. destruct Hev as (b & E & Hx). rewrite E. rewrite <- (assoc_L (++)).
    rewrite (event_delivered eof ev b _ s E) by (exists b; done). apply IH.
  - intros vf p b E L U. cbn [encode_event].
    rewrite (encode_vision_eq vf p [] E (fits_u32 p L)).
    intros Eb. assert (b = vision_body p ++ [Byte.x0a]) as -> by (cbn [app] in Eb; congruence).
    rewrite <- (assoc_L (++) (vision_body p)). now apply vision_cut.
Qed.

(** ** Exactly-once resolution *)

(** What happens to the shared map while a connection lives: the reader handles
    a line, a call is started, a call gives up waiting. *)
Inductive client_event : Type :=
| ELine (buf : list byte)
| EBegin (write_err : option string) (method : string) (params : json)
| EGiveUp (id : Z).

Definition client_step (s : Inner) (ev : client_event) : Inner :=
  match ev with
  | ELine buf => handle_line buf s
  | EBegin e m ps => fst (send_begin e m ps s)
  | EGiveUp id => set_inflight s (inflight s ∖ {[ id ]})
  end.
Definition client_run (evs : list client_event) (s : Inner) : Inner := foldl client_step s evs.

(** The ids of the calls that went on to wait for a reply. *)
Fixpoint begun (evs : list client_event) (s : Inner) : gset Z :=
  match evs with
  | [] => ∅
  | ev :: evs =>
      match ev with
      | EBegin e m ps => match send_begin e m ps s with (_, Ok id) => {[ id ]} | _ => ∅ end
      | _ => ∅
      end ∪ begun evs (client_step s ev)
  end.

(** From [s0] to [s]: [new] are the replies sent, at most one per id, to ids
    that waited at [s0] or were made since; a call in [waiting] is in the map,
    answered, or given up. *)
Record resolved_since (s0 : Inner) (waiting given_up : gset Z) (s : Inner)
    (new : list (Z * result json BridgeError)) : Prop := {
  rs_replies : replies s = replies s0 ++ new;
  rs_once : NoDup (new.*1);
  rs_disjoint : inflight s ## list_to_set (new.*1);
  rs_bound id : id ∈ inflight s ∪ list_to_set (new.*1) ->
    id < next_id s /\ (id ∈ inflight s0 \/ next_id s0 <= id);
  rs_next : 0 <= next_id s0 <= next_id s;
  rs_all : waiting ⊆ inflight s ∪ list_to_set (new.*1) ∪ given_up
}.

Lemma resolved_start s : 0 <= next_id s -> (forall id, id ∈ inflight s -> id < next_id s) ->
  resolved_since s (inflight s) ∅ s [].
Proof.
  intros H0 B. split; [now rewrite app_nil_r|constructor|set_solver| |lia|set_solver].
  intros id Hid. assert (id ∈ inflight s) by set_solver. split; [now apply B|now left].
Qed.

Lemma resolved_reply s0 w g s new id r : resolved_since s0 w g s new -> id ∈ inflight s ->
  resolved_since s0 w g (reply s id r) (new ++ [(id, r)]).
Proof.
  intros [R D X B N A] Hid. split; cbn [replies inflight next_id reply];
    rewrite ?fmap_app, ?list_to_set_app_L; cbn [fmap list_fmap list_to_set fst].
  - now rewrite R, <- (assoc_L (++)).
  - apply NoDup_app. split; [done|]. split; [|apply NoDup_singleton].
    intros x Hx ->%list_elem_of_singleton. set_solver.
  - set_solver.
  - intros x Hx. apply B. set_solver.
  - done.
  - intros x Hx. destruct (decide (x = id)); [set_solver|]. specialize (A x Hx). set_solver.
Qed.

Lemma resolved_notify s0 w g s new n : resolved_since s0 w g s new ->
  resolved_since s0 w g (notify s n) new.
Proof. intros [R D X B N A]. now split. Qed.

#[local] Hint Resolve resolved_reply resolved_notify : core.

Lemma resolved_line l s0 w g s new : resolved_since s0 w g s new ->
  exists new', resolved_since s0 w g (handle_line l s) new'.
Proof.
  intros R. unfold handle_line, dispatch_binary_message, dispatch_json_message.
  repeat case_match; eauto.
Qed.

Lemma resolved_give_up id s0 w g s new : resolved_since s0 w g s new ->
  resolved_since s0 w ({[ id ]} ∪ g) (set_inflight s (inflight s ∖ {[ id ]})) new.
Proof.
  intros [R D X B N A]. split; cbn [replies inflight next_id set_inflight]; try done.
  - set_solver.
  - intros x Hx. apply B. set_solver.
  - intros x Hx. destruct (decide (x = id)); [set_solver|]. specialize (A x Hx). set_solver.
Qed.

(** ** Requests *)

(** The bookkeeping of the request path on every branch. *)
Lemma send_begin_spec write_err m ps s s' r : 0 <= next_id s < u64_max ->
  send_begin write_err m ps s = (s', r) ->
  next_id s' = next_id s + 1 /\ replies s' = replies s /\ notifications s' = notifications s /\
  match r with
  | Ok id => id = next_id s /\ writer s = true /\ inflight s' = {[ id ]} ∪ inflight s
  | Err _ =>
      next_id s ∉ inflight s ->
      inflight s' = inflight s \/ (writer s = false /\ inflight s' = {[ next_id s ]} ∪ inflight s)
  end.
Proof.
  intros Hid. unfold send_begin. rewrite wrap_add_exact by lia.
  repeat case_match; intros [= <- <-]; cbn; repeat split; try done; auto; intros; try (left; set_solver).
Qed.

Lemma resolved_begin e m ps s0 w g s new : next_id s < u64_max -> resolved_since s0 w g s new ->
  resolved_since s0
    (match send_begin e m ps s with (_, Ok id) => {[ id ]} | _ => ∅ end ∪ w) g
    (fst (send_begin e m ps s)) new.
Proof.
  intros Hlt [R D X B N A].
  assert (next_id s ∉ inflight s) as F by (intros H0; destruct (B (next_id s)); [set_solver|lia]).
  assert (next_id s ∉ new.*1) as F' by (intros H0; destruct (B (next_id s)); [set_solver|lia]).
  destruct (send_begin e m ps s) as [s' r] eqn:E.
  apply send_begin_spec in E as (En & Er & _ & Ei); [|lia]. cbn [fst].
  assert (inflight s' = inflight s \/ inflight s' = {[ next_id s ]} ∪ inflight s) as I.
  { destruct r; [right; now destruct Ei as (-> & _ & ->)|]. destruct (Ei F) as [->|[_ ->]]; auto. }
  split; rewrite ?En, ?Er; try done; try lia.
  - destruct I as [-> | ->]; set_solver.
  - intros id Hid. assert (id ∈ inflight s ∪ list_to_set new.*1 \/ id = next_id s) as [Hx| ->].
    { destruct I as [I | I]; rewrite I in Hid; set_solver. }
    + destruct (B _ Hx). split; [lia|done].
    + split; [lia|right; lia].
  - destruct r as [id|]; [destruct Ei as (-> & _ & ->); set_solver|]. destruct I as [-> | ->]; set_solver.
Qed.

Definition given_up (evs : list client_event) : gset Z :=
  foldr (fun ev g => match ev with EGiveUp id => {[ id ]} ∪ g | _ => g end) ∅ evs.

Lemma resolved_run evs s0 w g s new : next_id s + zlen evs <= u64_max ->
  resolved_since s0 w g s new ->
  exists w' g' new', resolved_since s0 w' g' (client_run evs s) new' /\
    w ∪ begun evs s ⊆ w' /\ g' ⊆ g ∪ given_up evs.
Proof.
  revert w g s new. induction evs as [|ev evs IH]; intros w g s new L R.
  - exists w, g, new. split; [done|set_solver].
  - rewrite zlen_cons in L. cbn [client_run foldl begun given_up foldr].
    pose proof (zlen_nonneg evs). destruct ev as [buf|e m ps|id]; cbn [client_step].
    + destruct (resolved_line buf _ _ _ _ _ R) as [new1 R1].
      destruct (IH w g (handle_line buf s) new1) as (w' & g' & new' & R' & W & G); [|done|].
      { assert (next_id (handle_line buf s) = next_id s) as ->; [|lia].
        unfold handle_line, dispatch_binary_message, dispatch_json_message. repeat case_match; reflexivity. }
      exists w', g', new'. split; [done|]. split; [set_solver|done].
    + apply (resolved_begin e m ps) in R as R1; [|lia].
      destruct (send_begin e m ps s) as [s1 r] eqn:E. cbn [fst] in *.
      apply send_begin_spec in E as (En & _); [|destruct R; lia].
      assert (next_id s1 + zlen evs <= u64_max) as L1 by lia.
      destruct (IH _ _ _ _ L1 R1) as (w' & g' & new' & R' & W & G).
      exists w', g', new'. split; [done|]. split; [set_solver|done].
    + apply (resolved_give_up id) in R as R1.
      assert (next_id (set_inflight s (inflight s ∖ {[ id ]})) + zlen evs <= u64_max) as L1 by (cbn; lia).
      destruct (IH _ _ _ _ L1 R1) as (w' & g' & new' & R' & W & G).
      exists w', g', new'. split; [done|]. split; [set_solver|].
      etrans; [exact G|]. unfold given_up. set_solver.
Qed.

(** C6: While a connection to the broker lives, lines arrive, calls are made
    and calls give up in any order; then the reader ends and drains the map.
    After that the map is empty; each id was answered at most once; every call
    that was waiting at the start, or was made meanwhile and went on to wait,
    has been answered unless it gave up itself; and only such ids, or ids made
    meanwhile, were answered.  No caller is left hanging.  (The map is shared by
    the readers of successive connections, so a reader that ends fails the
    calls already sent on a newer connection too.) *)
Theorem every_call_answered evs s :
  0 <= next_id s -> next_id s + zlen evs <= u64_max ->
  (forall id, id ∈ inflight s -> id < next_id s) ->
  exists new, replies (drain (client_run evs s)) = replies s ++ new /\
    NoDup (new.*1) /\ inflight (drain (client_run evs s)) = ∅ /\
    inflight s ∪ begun evs s ⊆ list_to_set (new.*1) ∪ given_up evs /\
    (forall id, id ∈ new.*1 -> id ∈ inflight s \/ next_id s <= id < next_id (client_run evs s)).
Proof.
  intros H0 L B.
  destruct (resolved_run evs s (inflight s) ∅ s [] L (resolved_start s H0 B))
    as (w & g & new & [R D X Bd N A] & W & G).
  unfold drain. cbn [replies inflight]. set (s' := client_run evs s) in *.
  set (out := map _ (elements (inflight s'))).
  assert (out.*1 = elements (inflight s')) as Ho.
  { unfold out. rewrite <- list_fmap_compose. apply list_fmap_id. }
  exists (new ++ out). rewrite R, (assoc_L (++)), fmap_app, list_to_set_app_L, Ho.
  repeat split.
  - apply NoDup_app. repeat split; [done| |apply NoDup_elements]. set_solver.
  - set_solver.
  - intros id Hid. destruct (Bd id) as [? [?|?]]; [set_solver|auto|auto].
Qed.

(** At most two attempts are made, the second only after the broker was
    unavailable to the first and before the deadline; its outcome is the
    call's outcome, and the error of a failed redial is not reported. *)
Lemma send_with_timeout_spec env0 env1 m ps per_call s :
  send_with_timeout env0 env1 m ps per_call s =
  match send_once env0 m ps per_call s with
  | (s1, Err (BrokerUnavailable _)) =>
      let '(s2, _) := e_dial env0 s1 in
      if per_call <=? e_elapsed env0 then (s2, Err (Timeout per_call))
      else send_once env1 m ps per_call s2
  | out => out
  end.
Proof.
  unfold send_with_timeout. cbn [send_attempts].
  destruct (send_once env0 m ps per_call s) as [s1 [v|[]]]; try reflexivity.
  destruct (e_dial env0 s1) as [s2 e2]. destruct (_ <=? _); [reflexivity|].
  destruct (send_once env1 m ps per_call s2) as [s3 [v|[]]]; reflexivity.
Qed.

End Codec.
End Wire.

Module WireExamples.
Import Wire.

#[local] Instance handle_eq_dec : EqDecision FrameHandle.
Proof. solve_decision. Defined.
#[local] Instance viewport_eq_dec : EqDecision Viewport.
Proof. solve_decision. Defined.
#[local] Instance tile_eq_dec : EqDecision TileRect.
Proof. solve_decision. Defined.
#[local] Instance ocr_eq_dec : EqDecision OcrEntry.
Proof. solve_decision. Defined.
#[local] Instance vision_eq_dec : EqDecision VisionFrameEvent.
Proof. solve_decision. Defined.

(** A codec that knows two frames, one reply and one notification. *)
Definition demo_frame (seq : Z) : VisionFrameEvent :=
  mkVision "s" "t" 0 seq 0 (mkHandle "/ring" 0 1 64 4 0) (mkViewport 0 0 0 0 0 0 0) [] [] None None.
Definition plain_payload : list byte := [Byte.x07; Byte.x08].
Definition newline_payload : list byte := [Byte.x07; Byte.x0a; Byte.x08].
Definition reply_bytes : list byte := String.list_byte_of_string "{R}".
Definition event_bytes : list byte := String.list_byte_of_string "{E}".

#[local] Instance demo_codec : WireCodec := {
  bc_encode ev :=
    if decide (ev = demo_frame 1) then (plain_payload, None)
    else if decide (ev = demo_frame 10) then (newline_payload, None) else ([], Some "unknown");
  bc_decode p :=
    if decide (p = plain_payload) then Ok (demo_frame 1)
    else if decide (p = newline_payload) then Ok (demo_frame 10) else Err "unknown";
  ser_response r :=
    match rs_id r, rs_result r, rs_error r with
    | JNum id, Some (JBool true), None =>
        if decide (id = 7) then (reply_bytes, None) else ([], Some "unknown")
    | _, _, _ => ([], Some "unknown")
    end;
  ser_event n :=
    match params n with
    | JBool true => if decide (method n = "event/notify") then (event_bytes, None) else ([], Some "unknown")
    | _ => ([], Some "unknown")
    end;
  ser_request _ _ _ := Ok reply_bytes;
  de_request _ := Err "unknown";
  de_frame b :=
    if decide (b = reply_bytes) then Ok (mkFrame (Some 7) (Some (JBool true)) None None None)
    else if decide (b = event_bytes)
      then Ok (mkFrame None None None (Some "event/notify") (Some (JBool true)))
    else Err "unknown";
  num_f64 z := JNum z;
  num_f32 z := JNum z
}.

Lemma demo_lines : json_line reply_bytes /\ json_line event_bytes.
Proof.
  split; (split; [discriminate|]; split; [apply (bool_decide_unpack _); vm_compute; exact I|];
    split; [discriminate|]; split; [discriminate|vm_compute; reflexivity]).
Qed.

#[local] Instance demo_laws : @WireCodecLaws demo_codec.
Proof.
  destruct demo_lines as [LR LE]. split.
  - intros ev p. cbn. repeat case_decide; intros [= <-]; subst; done.
  - intros [j i re er] b. cbn. repeat case_match; intros [= <-]; exact LR.
  - intros [j m ps] b. cbn. repeat case_match; intros [= <-]; exact LE.
  - intros [j i re er] b E _.
    assert (i = JNum 7 /\ re = Some (JBool true) /\ er = None /\ b = reply_bytes) as (-> & -> & -> & ->).
    { revert E. cbn. repeat case_match; intros [= <-]; subst; auto. }
    reflexivity.
  - intros [j m ps] b. cbn. repeat case_match; intros [= <-]; subst; intros _; done.
Qed.

Definition demo_events : list ClientEvent :=
  [CeReply (response_ok (JNum 7) (JBool true)); CeVisionFrame (demo_frame 1);
   CeNotify (mkEvent "2.0" "event/notify" (JBool true))].
Definition waiting : Inner := mkInner 8 true {[ 7 ]} [] [] None.

(** Call 7 is answered; call 8 is made and fails when the connection ends. *)
Lemma every_call_answered_witness :
  let evs := [ELine (reply_bytes ++ [Byte.x0a]); EBegin None "tab.open" (JObj [])] in
  replies (drain (client_run evs waiting))
    = [(7, Ok (JBool true)); (8, Err (BrokerUnavailable "socket closed"))] /\
  exists new, replies (drain (client_run evs waiting)) = replies waiting ++ new /\
    NoDup (new.*1) /\ inflight (drain (client_run evs waiting)) = ∅ /\
    inflight waiting ∪ begun evs waiting ⊆ list_to_set (new.*1) ∪ given_up evs /\
    (forall id, id ∈ new.*1 -> id ∈ inflight waiting \/ next_id waiting <= id < next_id (client_run evs waiting)).
Proof.
  split; [vm_compute; reflexivity|]. apply every_call_answered.
  - vm_compute. discriminate.
  - vm_compute. discriminate.
  - intros id. cbn [inflight waiting]. rewrite elem_of_singleton. intros ->. reflexivity.
Defined.

Lemma demo_sendable : Forall sendable demo_events.
Proof.
  repeat constructor; eexists; (split; [reflexivity|]; split; [vm_compute; discriminate|]).
  - split; unfold shallow_opt; simpl; lia.
  - eexists. split; [reflexivity|]. split; [apply (bool_decide_unpack _); vm_compute; exact I|discriminate].
  - unfold shallow_opt; simpl; lia.
Qed.

Lemma wire_delivery_witness :
  reader_loop (read_until_lines true [] (writer_task (fun _ => true) 0 demo_events ++ [])) waiting
  = foldl deliver waiting demo_events /\
  (exists b, encode_event (CeVisionFrame (demo_frame 10)) = Some b /\
   reader_loop (read_until_lines true [] (b ++ [])) waiting
   = reader_loop (read_until_lines true [] (after_newline b ++ [])) waiting).
Proof.
  pose proof (wire_delivery true demo_events [] waiting) as [W1 W2]. split.
  - rewrite (W1 demo_sendable). reflexivity.
  - eexists. split; [reflexivity|].
    apply (W2 (demo_frame 10) newline_payload); [reflexivity|reflexivity| |reflexivity].
    intros [N _]. apply N. apply (bool_decide_unpack _). vm_compute. exact I.
Defined.

(** The reply reaches its caller and the frame and the notification the
    subscribers; the frame whose payload has a newline does not arrive. *)
Example delivery_run :
  replies (reader_task true (writer_task (fun _ => true) 0 demo_events) waiting) = [(7, Ok (JBool true))] /\
  length (notifications (reader_task true (writer_task (fun _ => true) 0 demo_events) waiting)) = 2%nat /\
  notifications (reader_task true (writer_task (fun _ => true) 0 [CeVisionFrame (demo_frame 10)]) waiting) = [].
Proof. vm_compute. auto. Qed.

(** A call made while the write half is absent leaves its id in the map. *)
Example writer_absent_leak :
  let '(s, r) := send_begin None "tab.open" (JObj []) inner_new in
  r = Err (BrokerUnavailable "writer absent") /\ inflight s = {[ 1 ]}.
Proof. vm_compute. auto. Qed.

End WireExamples.
