(* ===== verification/Router.v ===== *)
(** * Router: method dispatch of the broker

    Models [broker/src/router/mod.rs]: the method table of [dispatch], the lists
    a client is told on registration, error values, parameter helpers, and the
    part of [dispatch] around the tool: which requests are answered without a
    session, and what is counted and traced.  The tools themselves are a
    parameter of [dispatch_end]. *)
From S2P Require Import Prelude Json Text AxMerge BrokerSession Wire.
Import JsonTree Wire.

Module Router.

(** ** Errors *)

Record RouterError := mkErr { re_code : ErrorCode; re_message : string; re_data : option json }.
Definition method_not_found (method : string) : RouterError :=
  mkErr MethodNotFound ("method not found: " +:+ method) None.
Definition invalid_params (msg : string) : RouterError := mkErr InvalidParams msg None.
Definition nav (msg : string) : RouterError := mkErr NavigationFailed msg None.
Definition timeout (msg : string) : RouterError := mkErr TimeoutCode msg None.
Definition tab_not_found : RouterError := mkErr TabNotFound "tab not found" None.
Definition not_actionable : RouterError := mkErr ElementNotActionable "element not actionable" None.
Definition internal (msg : string) : RouterError := mkErr InternalError msg None.

(** ** Parameters *)

Definition required_str (params : json) (field : string) : result string RouterError :=
  match vget_str field params with
  | Some s => Ok s
  | None => Err (invalid_params ("missing " +:+ field))
  end.

Definition json_type_name (v : json) : string :=
  match v with
  | JNull => "null"
  | JBool _ => "bool"
  | JNum _ | JFloat _ => "number"
  | JStr _ => "string"
  | JArr _ => "array"
  | JObj _ => "object"
  end.

Inductive WaitUntil : Type := WaitNone | Load | DomContentLoaded | NetworkIdle.
(** [dbg]: the [Debug] form of a string, as it appears in messages. *)
Definition parse_wait_until (dbg : string -> string) (v : option json) : result WaitUntil RouterError :=
  match v with
  | None | Some JNull => Ok WaitNone
  | Some (JStr s) =>
      if bool_decide (s = "load") then Ok Load
      else if bool_decide (s = "domcontentloaded") then Ok DomContentLoaded
      else if bool_decide (s = "networkidle") then Ok NetworkIdle
      else Err (invalid_params ("invalid wait_until " +:+ dbg s +:+ "; expected one of: "
                  +:+ dbg "load" +:+ ", " +:+ dbg "domcontentloaded" +:+ ", " +:+ dbg "networkidle"))
  | Some other => Err (invalid_params ("invalid wait_until: expected string, got " +:+ json_type_name other))
  end.

Definition resolve_ref_str (dbg : string -> string) (elements : list AxMerge.PageElement) (r : string)
    : result AxMerge.PageElement RouterError :=
  match List.find (fun e => bool_decide (AxMerge.element_ref e = r)) elements with
  | Some e => Ok e
  | None => Err (mkErr ElementStale ("ref " +:+ dbg r +:+ " not found in current snapshot") None)
  end.
Definition resolve_ref (dbg : string -> string) (elements : list AxMerge.PageElement) (params : json)
    : result AxMerge.PageElement RouterError :=
  match vget_str "ref" params with
  | Some r => resolve_ref_str dbg elements r
  | None => Err (invalid_params "missing ref")
  end.

(** [wrapping_mul] and [^] on [u64]. *)
Definition wrapping_mul (a b : Z) : Z := (a * b) mod (u64_max + 1).
Definition deterministic_seed (snapshot_seq : Z) (url : string) : Z :=
  let s := 0x9E3779B97F4A7C15 in
  let s := Z.lxor s (wrapping_mul snapshot_seq 0xBF58476D1CE4E5B9) in
  Z.lxor s (wrapping_mul (Z.of_nat (String.length url)) 0x94D049BB133111EB).

(** ** The method table *)

(** The arms of the [match] in [dispatch], in order: the methods of the arm and
    the function it calls. *)
Definition routes : list (list string * string) := [
  (["browser.context.create"], "browser::browser_context_create");
  (["browser.context.list"], "browser::browser_context_list");
  (["browser.context.destroy"], "browser::browser_context_destroy"); (["tab.open"], "tab::tab_open");
  (["tab.list"], "tab::tab_list"); (["tab.close"], "tab::tab_close"); (["tab.focus"], "tab::tab_focus");
  (["tab.navigate"], "tab::tab_navigate"); (["tab.wait"], "tab::tab_wait");
  (["page.snapshot"], "page::page_snapshot"); (["page.screenshot"], "page::page_screenshot");
  (["page.read_text"], "page::page_read_text"); (["page.click"], "page::page_click");
  (["page.type"], "page::page_type"); (["page.keypress"], "page::page_keypress");
  (["page.scroll"], "page::page_scroll"); (["page.hover"], "page::page_hover");
  (["page.drag"], "page::page_drag"); (["page.touch.tap"], "page::page_touch_tap");
  (["page.touch.swipe"], "page::page_touch_swipe"); (["page.touch.pinch"], "page::page_touch_pinch");
  (["page.touch.rotate"], "page::page_touch_rotate"); (["page.pointer.press"], "page::page_pointer_press");
  (["page.pointer.move"], "page::page_pointer_move");
  (["page.pointer.release"], "page::page_pointer_release");
  (["page.gesture.pinch"], "page::page_gesture_pinch");
  (["page.gesture.rotate"], "page::page_gesture_rotate");
  (["page.gesture.longpress"], "page::page_gesture_longpress");
  (["page.drag.file_drop"], "page::page_drag_file_drop");
  (["page.keyboard.shortcut"], "page::page_keyboard_shortcut");
  (["page.keyboard.ime"], "page::page_keyboard_ime"); (["page.dead_key"], "page::page_dead_key");
  (["page.scroll.precise"], "page::page_scroll_precise");
  (["page.tab_traversal"], "page::page_tab_traversal");
  (["page.right_click_menu_navigate"], "page::page_right_click_menu_navigate");
  (["page.eval"], "page::page_eval"); (["page.cookies"], "page::page_cookies");
  (["page.cookies.deep_set"], "page::page_cookies_deep_set"); (["page.storage"], "page::page_storage");
  (["page.localstorage.get"], "page::page_localstorage_get");
  (["page.localstorage.set"], "page::page_localstorage_set");
  (["page.localstorage.delete"], "page::page_localstorage_delete");
  (["page.localstorage.clear"], "page::page_localstorage_clear");
  (["page.localstorage.cas"], "page::page_localstorage_cas");
  (["page.sessionstorage.get"], "page::page_sessionstorage_get");
  (["page.sessionstorage.set"], "page::page_sessionstorage_set");
  (["page.sessionstorage.delete"], "page::page_sessionstorage_delete");
  (["page.sessionstorage.clear"], "page::page_sessionstorage_clear");
  (["page.sessionstorage.cas"], "page::page_sessionstorage_cas");
  (["page.indexeddb.list_databases"], "page::page_indexeddb_list_databases");
  (["page.indexeddb.list_stores"], "page::page_indexeddb_list_stores");
  (["page.indexeddb.query"], "page::page_indexeddb_query");
  (["page.indexeddb.put"], "page::page_indexeddb_put");
  (["page.indexeddb.delete"], "page::page_indexeddb_delete");
  (["page.indexeddb.delete_database"], "page::page_indexeddb_delete_database");
  (["page.cache_api.list"], "page::page_cache_api_list");
  (["page.cache_api.inspect"], "page::page_cache_api_inspect");
  (["page.cache_api.delete"], "page::page_cache_api_delete");
  (["page.permissions.query"], "page::page_permissions_query");
  (["page.permissions.grant"], "page::page_permissions_grant");
  (["page.permissions.revoke"], "page::page_permissions_revoke");
  (["page.storage.quota"], "page::page_storage_quota"); (["page.viewport"], "page::page_viewport");
  (["page.user_agent"], "page::page_user_agent"); (["page.geo"], "page::page_geo");
  (["page.dark_mode"], "page::page_dark_mode");
  (["page.network_conditions"], "page::page_network_conditions"); (["page.emulate"], "page::page_emulate");
  (["page.performance.timeline_start"; "page.performance_timeline_start"], "page::page_performance_timeline_start");
  (["page.performance.timeline_stop"; "page.performance_timeline_stop"], "page::page_performance_timeline_stop");
  (["page.performance.metrics"; "page.performance_metrics"], "page::page_performance_metrics");
  (["page.coverage.js_start"; "page.coverage_js_start"], "page::page_coverage_js_start");
  (["page.coverage.js_take"; "page.coverage_js_take"], "page::page_coverage_js_take");
  (["page.coverage.css_start"; "page.coverage_css_start"], "page::page_coverage_css_start");
  (["page.coverage.css_take"; "page.coverage_css_take"], "page::page_coverage_css_take");
  (["page.heap.snapshot"; "page.heap_snapshot"], "page::page_heap_snapshot");
  (["page.heap.sample_alloc"; "page.heap_sample_alloc"], "page::page_heap_sample_alloc");
  (["page.cpu.profile"; "page.cpu_profile"], "page::page_cpu_profile");
  (["page.layout.metrics"; "page.layout_metrics"], "page::page_layout_metrics");
  (["page.paint.flash"; "page.paint_flash"], "page::page_paint_flash"); (["page.pdf"], "page::page_pdf");
  (["page.print_preview"], "page::page_print_preview");
  (["net.intercept"; "net.mock"; "net.observe"; "net.intercept.fulfill_with_body"; "net.intercept.modify_request"; "net.intercept.fail"; "net.replay"; "net.websocket.observe"; "net.websocket.inject_frame"; "net.eventsource.observe"; "net.har.export"; "net.proxy"; "net.mitm_cert.install"], "net::net_dispatch");
  (["vision.read_text"], "page::vision_read_text"); (["vision.find_text"], "page::vision_find_text");
  (["vision.compare"], "page::vision_compare"); (["vision.fps"], "page::vision_fps");
  (["vision.stability"], "page::vision_stability"); (["vision.changed_since"], "page::vision_changed_since");
  (["vision.verify_action"], "page::vision_verify_action"); (["vision.pixel"], "page::vision_pixel");
  (["vision.region.classify"], "page::vision_region_classify");
  (["vision.color.palette"], "page::vision_color_palette");
  (["vision.text.style"], "page::vision_text_style");
  (["vision.layout.segments"], "page::vision_layout_segments");
  (["vision.icon.recognize"], "page::vision_icon_recognize");
  (["vision.qr_barcode"], "page::vision_qr_barcode");
  (["vision.scrollbar.position"], "page::vision_scrollbar_position");
  (["vision.loading.detect"], "page::vision_loading_detect");
  (["vision.tooltip.detect"], "page::vision_tooltip_detect");
  (["vision.modal.detect"], "page::vision_modal_detect");
  (["vision.diff.semantic"], "page::vision_diff_semantic");
  (["vision.animation.frames"], "page::vision_animation_frames");
  (["vision.face_blur"], "page::vision_face_blur"); (["term.spawn"], "term::term_spawn");
  (["term.write"], "term::term_write"); (["term.read"], "term::term_read");
  (["term.snapshot"], "term::term_snapshot"); (["term.resize"], "term::term_resize");
  (["term.close"], "term::term_close"); (["term.send_signal"], "term::term_send_signal");
  (["term.scrollback"], "term::term_scrollback");
  (["term.alt_screen_active"], "term::term_alt_screen_active");
  (["term.mouse_event"], "term::term_mouse_event");
  (["system.audio.output"; "system.audio.input"; "system.audio.select"; "system.audio.volume"; "system.audio.mute"; "system.audio.capture_to_file"; "system.mic.capture"; "system.camera.snapshot"; "system.screen.capture_region"; "system.screen.list_displays"; "system.bluetooth.scan"; "system.bluetooth.connect"; "system.bluetooth.disconnect"; "system.usb.devices"; "system.battery"; "system.network.interfaces"; "system.network.routes"; "system.network.connections"; "system.process.list"; "system.process.info"; "system.process.signal"; "system.fsevents.watch"; "system.spotlight.query"; "system.metadata"], "system::system_dispatch");
  (["app.list"], "internal::app_list"); (["app.snapshot"], "internal::app_snapshot");
  (["app.click"], "internal::app_click"); (["app.type"], "internal::app_type");
  (["app.scroll"], "internal::app_scroll"); (["app.eval"], "internal::app_eval");
  (["app.menu.list"], "native::app_menu_list"); (["app.menu.click"], "native::app_menu_click");
  (["app.statusmenu.click"], "native::app_statusmenu_click");
  (["app.notification_center.open"], "native::app_notif_open");
  (["app.notification_center.list"], "native::app_notif_list");
  (["app.notification_center.click"], "native::app_notif_click");
  (["app.notification_center.dismiss"], "native::app_notif_dismiss");
  (["app.spotlight.open"], "native::app_spotlight_open");
  (["app.spotlight.query"], "native::app_spotlight_query");
  (["app.spotlight.select"], "native::app_spotlight_select");
  (["app.spaces.list"], "native::app_spaces_list"); (["app.spaces.switch_to"], "native::app_spaces_switch");
  (["app.spaces.move_window"], "native::app_spaces_move_window");
  (["app.dock.list"], "native::app_dock_list"); (["app.dock.click"], "native::app_dock_click");
  (["app.dock.reveal_app"], "native::app_dock_reveal_app"); (["app.window.list"], "native::app_window_list");
  (["app.window.raise"], "native::app_window_raise");
  (["app.window.minimize"], "native::app_window_minimize");
  (["app.window.fullscreen"], "native::app_window_fullscreen");
  (["app.window.move"], "native::app_window_move"); (["app.window.resize"], "native::app_window_resize");
  (["app.touchbar.tap"], "native::app_touchbar_tap");
  (["app.gesture.three_finger_swipe"], "native::app_gesture_swipe");
  (["app.force_touch"], "native::app_force_touch"); (["app.ime.list"], "native::app_ime_list");
  (["app.ime.switch"], "native::app_ime_switch"); (["app.ime.set_input_source"], "native::app_ime_set");
  (["app.shortcut.run"], "native::app_shortcut_run"); (["app.automator.run"], "native::app_automator_run");
  (["app.applescript"], "native::app_applescript"); (["app.javascript_for_automation"], "native::app_jxa");
  (["app.terminal.spawn_session"], "native::app_terminal_spawn");
  (["app.quicklook.preview"], "native::app_quicklook_preview");
  (["app.quicklook.close"], "native::app_quicklook_close");
  (["clipboard.read_string"], "native::clipboard_read_string");
  (["clipboard.write_string"], "native::clipboard_write_string");
  (["clipboard.read_files"], "native::clipboard_read_files");
  (["clipboard.write_files"], "native::clipboard_write_files");
  (["clipboard.read_image"], "native::clipboard_read_image");
  (["clipboard.write_image"], "native::clipboard_write_image");
  (["clipboard.types"], "native::clipboard_types"); (["clipboard.history"], "native::clipboard_history");
  (["drag.from_finder"], "native::drag_from_finder"); (["drag.between_apps"], "native::drag_between_apps");
  (["app.subscribe"], "native::app_subscribe"); (["app.unsubscribe"], "native::app_unsubscribe")].

Definition route (method : string) : option string :=
  option_map snd (List.find (fun arm => bool_decide (method ∈ fst arm)) routes).

(** The methods handled before a session is looked at. *)
Definition control_methods : list string :=
  ["session.register"; "session.unregister"; "_internal.ping"; "_internal.status"; "_internal.metrics"].

Definition supported_methods : list string := [
  "session.register"; "session.unregister"; "_internal.ping"; "_internal.status"; "_internal.metrics";
  "browser.context.create"; "browser.context.list"; "browser.context.destroy"; "tab.open"; "tab.list";
  "tab.close"; "tab.focus"; "tab.navigate"; "tab.wait"; "page.snapshot"; "page.screenshot"; "page.read_text";
  "page.click"; "page.type"; "page.keypress"; "page.scroll"; "page.hover"; "page.drag"; "page.touch.tap";
  "page.touch.swipe"; "page.touch.pinch"; "page.touch.rotate"; "page.pointer.press"; "page.pointer.move";
  "page.pointer.release"; "page.gesture.pinch"; "page.gesture.rotate"; "page.gesture.longpress";
  "page.drag.file_drop"; "page.keyboard.shortcut"; "page.keyboard.ime"; "page.dead_key";
  "page.scroll.precise"; "page.tab_traversal"; "page.right_click_menu_navigate"; "page.eval"; "page.cookies";
  "page.cookies.deep_set"; "page.storage"; "page.localstorage.get"; "page.localstorage.set";
  "page.localstorage.delete"; "page.localstorage.clear"; "page.localstorage.cas"; "page.sessionstorage.get";
  "page.sessionstorage.set"; "page.sessionstorage.delete"; "page.sessionstorage.clear";
  "page.sessionstorage.cas"; "page.indexeddb.list_databases"; "page.indexeddb.list_stores";
  "page.indexeddb.query"; "page.indexeddb.put"; "page.indexeddb.delete"; "page.indexeddb.delete_database";
  "page.cache_api.list"; "page.cache_api.inspect"; "page.cache_api.delete"; "page.permissions.query";
  "page.permissions.grant"; "page.permissions.revoke"; "page.storage.quota"; "page.viewport";
  "page.user_agent"; "page.geo"; "page.dark_mode"; "page.network_conditions";
  "page.performance.timeline_start"; "page.performance.timeline_stop"; "page.performance.metrics";
  "page.coverage.js_start"; "page.coverage.js_take"; "page.coverage.css_start"; "page.coverage.css_take";
  "page.heap.snapshot"; "page.heap.sample_alloc"; "page.cpu.profile"; "page.layout.metrics";
  "page.paint.flash"; "page.pdf"; "page.print_preview"; "net.intercept"; "net.mock"; "net.observe";
  "net.intercept.fulfill_with_body"; "net.intercept.modify_request"; "net.intercept.fail"; "net.replay";
  "net.websocket.observe"; "net.websocket.inject_frame"; "net.eventsource.observe"; "net.har.export";
  "net.proxy"; "net.mitm_cert.install"; "vision.read_text"; "vision.find_text"; "vision.compare";
  "vision.fps"; "vision.stability"; "vision.changed_since"; "vision.verify_action"; "vision.pixel";
  "vision.region.classify"; "vision.color.palette"; "vision.text.style"; "vision.layout.segments";
  "vision.icon.recognize"; "vision.qr_barcode"; "vision.scrollbar.position"; "vision.loading.detect";
  "vision.tooltip.detect"; "vision.modal.detect"; "vision.diff.semantic"; "vision.animation.frames";
  "vision.face_blur"; "term.spawn"; "term.write"; "term.read"; "term.snapshot"; "term.resize"; "term.close";
  "term.send_signal"; "term.scrollback"; "term.alt_screen_active"; "term.mouse_event"; "system.audio.output";
  "system.audio.input"; "system.audio.select"; "system.audio.volume"; "system.audio.mute";
  "system.audio.capture_to_file"; "system.mic.capture"; "system.camera.snapshot";
  "system.screen.capture_region"; "system.screen.list_displays"; "system.bluetooth.scan";
  "system.bluetooth.connect"; "system.bluetooth.disconnect"; "system.usb.devices"; "system.battery";
  "system.network.interfaces"; "system.network.routes"; "system.network.connections"; "system.process.list";
  "system.process.info"; "system.process.signal"; "system.fsevents.watch"; "system.spotlight.query";
  "system.metadata"; "app.list"; "app.snapshot"; "app.click"; "app.type"; "app.scroll"; "app.eval";
  "app.menu.list"; "app.menu.click"; "app.statusmenu.click"; "app.notification_center.open";
  "app.notification_center.list"; "app.notification_center.click"; "app.notification_center.dismiss";
  "app.spotlight.open"; "app.spotlight.query"; "app.spotlight.select"; "app.spaces.list";
  "app.spaces.switch_to"; "app.spaces.move_window"; "app.dock.list"; "app.dock.click"; "app.dock.reveal_app";
  "app.window.list"; "app.window.raise"; "app.window.minimize"; "app.window.fullscreen"; "app.window.move";
  "app.window.resize"; "app.touchbar.tap"; "app.gesture.three_finger_swipe"; "app.force_touch";
  "app.ime.list"; "app.ime.switch"; "app.ime.set_input_source"; "app.shortcut.run"; "app.automator.run";
  "app.applescript"; "app.javascript_for_automation"; "app.terminal.spawn_session"; "app.quicklook.preview";
  "app.quicklook.close"; "clipboard.read_string"; "clipboard.write_string"; "clipboard.read_files";
  "clipboard.write_files"; "clipboard.read_image"; "clipboard.write_image"; "clipboard.types";
  "clipboard.history"; "drag.from_finder"; "drag.between_apps"; "app.subscribe"; "app.unsubscribe"].

Definition supported_events : list string := [
  "console.message"; "page.exception"; "network.request"; "network.response"; "network.websocket";
  "network.eventsource"; "session.recovered"; "session.recovery_failed"; "broker.shutdown"; "vision.frame";
  "term.output"; "term.exit"; "app.event"; "system.fsevents"].

(** ** [dispatch] *)

(** Where a request goes: no reply (a notification), the control methods, the
    refusal without a session, the refusal of an unknown method, or a tool. *)
Inductive dispatched : Type :=
| DNone
| DRegister (id : json) (params : option json)
| DUnregister (id : json)
| DInternal (id : json) (method : string)
| DNoSession (resp : JsonRpcResponse)
| DTool (id : json) (method tool : string) (params : json)
| DUnknown (id : json) (e : RouterError).

Definition dispatch_begin (has_session : bool) (req : JsonRpcRequest) : dispatched :=
  match rq_id req with
  | None => DNone
  | Some id =>
      let m := rq_method req in
      if bool_decide (m = "session.register") then DRegister id (rq_params req)
      else if bool_decide (m = "session.unregister") then DUnregister id
      else if bool_decide (m ∈ ["_internal.ping"; "_internal.status"; "_internal.metrics"]) then DInternal id m
      else if negb has_session then
        DNoSession (response_err id SessionNotFound "no session bound to this connection" None)
      else
        let params := default JNull (rq_params req) in
        match route m with
        | Some tool => DTool id m tool params
        | None => DUnknown id (method_not_found m)
        end
  end.

(** The counters of [State]. *)
Record Counters := mkCounters { request_counter : Z; error_counter : Z }.
Definition dispatch_end (id : json) (r : result json RouterError) (c : Counters) : JsonRpcResponse * Counters :=
  match r with
  | Ok v => (response_ok id v, mkCounters (wrap_add u64_max (request_counter c) 1) (error_counter c))
  | Err e => (response_err id (re_code e) (re_message e) (re_data e),
              mkCounters (request_counter c) (wrap_add u64_max (error_counter c) 1))
  end.

(** ** The table is consistent *)

(** Methods that are routed and not advertised. *)
Definition unadvertised : list string :=
  ["page.emulate"; "page.performance_timeline_start"; "page.performance_timeline_stop";
   "page.performance_metrics"; "page.coverage_js_start"; "page.coverage_js_take"; "page.coverage_css_start";
   "page.coverage_css_take"; "page.heap_snapshot"; "page.heap_sample_alloc"; "page.cpu_profile";
   "page.layout_metrics"; "page.paint_flash"].

Lemma route_some m : is_Some (route m) <-> m ∈ routes ≫= fst.
Proof.
  unfold route. rewrite list_elem_of_bind. split.
  - intros [t E]. destruct (List.find _ _) as [arm|] eqn:F; [|discriminate].
    apply List.find_some in F as [F1 F2]. exists arm. apply list_elem_of_In in F1.
    now apply bool_decide_eq_true in F2.
  - intros (arm & Hm & Ha). destruct (List.find _ _) as [arm'|] eqn:F; [eauto|].
    apply list_elem_of_In in Ha. pose proof (List.find_none _ _ F _ Ha) as N. cbn in N.
    now apply bool_decide_eq_false in N.
Qed.

Lemma routed_split : routes ≫= fst ≡ₚ (List.filter (fun m => bool_decide (m ∉ control_methods)) supported_methods) ++ unadvertised.
Proof. apply (bool_decide_unpack _). vm_compute. exact I. Qed.

Lemma routed_iff m : is_Some (route m) <->
  (m ∈ supported_methods /\ m ∉ control_methods) \/ m ∈ unadvertised.
Proof.
  rewrite route_some, routed_split, elem_of_app. split; (intros [E|E]; [left|now right]).
  - apply list_elem_of_In, filter_In in E as [E F%bool_decide_eq_true]. now rewrite <- list_elem_of_In in E.
  - apply list_elem_of_In, filter_In. rewrite <- list_elem_of_In, bool_decide_eq_true. exact E.
Qed.

Lemma routes_nodup : NoDup (routes ≫= fst).
Proof. apply (bool_decide_unpack _). vm_compute. exact I. Qed.
Lemma unadvertised_not_control m : m ∈ unadvertised -> m ∉ control_methods.
Proof.
  assert (Forall (fun m => m ∉ control_methods) unadvertised) as F by (apply (bool_decide_unpack _); vm_compute; exact I).
  rewrite Forall_forall in F. auto.
Qed.
Lemma route_not_control m : is_Some (route m) -> m ∉ control_methods.
Proof. rewrite routed_iff. intros [[_ H]|H]; [done|now apply unadvertised_not_control]. Qed.
Lemma control_supported m : m ∈ control_methods -> m ∈ supported_methods.
Proof.
  assert (Forall (fun m => m ∈ supported_methods) control_methods) as F by (apply (bool_decide_unpack _); vm_compute; exact I).
  rewrite Forall_forall in F. auto.
Qed.

(** What happens to a request whose method is a control method, is routed, or is neither. *)
Lemma dispatch_begin_cases has req id : rq_id req = Some id ->
  match dispatch_begin has req with
  | DNone => False
  | DRegister i p => i = id /\ p = rq_params req /\ rq_method req = "session.register"
  | DUnregister i => i = id /\ rq_method req = "session.unregister"
  | DInternal i m => i = id /\ m = rq_method req /\ m ∈ control_methods
  | DNoSession r => has = false /\ rs_id r = id /\ rq_method req ∉ control_methods
  | DTool i m t p => has = true /\ i = id /\ m = rq_method req /\ route m = Some t /\ p = default JNull (rq_params req)
  | DUnknown i e => has = true /\ i = id /\ route (rq_method req) = None /\ re_code e = MethodNotFound
                    /\ rq_method req ∉ control_methods
  end.
Proof.
  intros E. unfold dispatch_begin. rewrite E. cbv zeta.
  case_bool_decide as H1; [done|]. case_bool_decide as H2; [done|]. case_bool_decide as H3.
  { split; [done|]. split; [done|]. unfold control_methods. set_solver. }
  assert (rq_method req ∉ control_methods) as Hc by (unfold control_methods; set_solver).
  destruct has; cbn [negb]; [|done]. destruct (route _) eqn:R; done.
Qed.


End Router.

Module RouterExamples.
Import Router.

Definition call (m : string) : JsonRpcRequest := mkRequest "2.0" (Some (JNum 1)) m None.


(** An element reference is looked up by its text. *)
Example seed_of_first : deterministic_seed 0 "" = 0x9E3779B97F4A7C15.
Proof. reflexivity. Qed.
Example wait_until_typo dbg : exists m, parse_wait_until dbg (Some (JStr "loaded")) = Err (invalid_params m).
Proof. eexists. reflexivity. Qed.

End RouterExamples.
