(* ===== verification/Pump.v ===== *)
(** * Pump: the events of a page and waiting for them

    Models the event pump of [browser-engine/src/page.rs], whole, over the page
    state of [Snapshot] and the network state of [Network], and the waits of
    [wait.rs].  A broadcast channel is the list of what was sent on it; what a
    receiver gets is a list of outcomes related to that list by [delivers].
    Times are nanoseconds of a monotonic clock.  The generated names and
    serializers of CDP events, base64, the regex engine and Debug texts are
    parameters. *)
From S2P Require Import Prelude Json Text F64 Snapshot Network Trace Router.
Import JsonTree.

Module Pump.

(** ** Channels *)

(** What [Receiver::recv] returns. *)
Inductive received (A : Type) : Type := Got (a : A) | Lagged (n : Z) | Closed.
Arguments Got {A} a.
Arguments Lagged {A} n.
Arguments Closed {A}.

(** What a receiver may get of the values sent after it subscribed: each once
    and in order, save those it is told it was too slow for. *)
Inductive delivers {A} : list A -> list (received A) -> Prop :=
| delivers_stop sent : delivers sent []
| delivers_got x sent rs : delivers sent rs -> delivers (x :: sent) (Got x :: rs)
| delivers_lag skipped sent rs : skipped <> [] -> delivers sent rs ->
    delivers (skipped ++ sent) (Lagged (zlen skipped) :: rs)
| delivers_closed : delivers [] [Closed].

(** The values a receiver got. *)
Definition got {A} (rs : list (received A)) : list A :=
  omap (fun r => match r with Got a => Some a | _ => None end) rs.

(** ** What the pump sends on *)

Record LifecycleEvent := mkLifecycle { lc_frame_id : string; lc_name : string; lc_timestamp : f64 }.
Record ConsoleMessage := mkConsole {
  cm_level : string; cm_text : string; cm_source : string; cm_ts_ms : f64; cm_stack : option string
}.
Record PageException := mkException { ex_text : string; ex_stack : string; ex_ts_ms : f64 }.
Record ScreencastFramePayload := mkFrame { data_b64 : string; metadata : json; cdp_frame_session_id : Z }.
Inductive WsFrameKind : Type := Created | HandshakeRequest | HandshakeResponse | FrameSent | FrameReceived | FrameError | WsClosed.
Record WsFrame := mkWs {
  ws_request_id : string; ws_kind : WsFrameKind; ws_ts_ms : f64; payload_base64 : option string; ws_url : option string;
  ws_error : option string
}.
Record EsMessage := mkEs {
  es_request_id : string; es_event_name : string; es_event_id : string; es_data : string; es_ts_ms : f64
}.

Record ProxyAuth := mkAuth { user : string; pass : string }.
Record ProxyConfig := mkProxy {
  px_scheme : string; px_host : string; px_port : Z; px_auth : option ProxyAuth; px_bypass : option string
}.

(** ** Events, the fields of the generated types that the pump reads *)

Inductive CdpEvent : Type :=
| PageLifecycleEvent (frame_id : json) (name : string) (timestamp : json)
| PageFrameNavigated (frame : json)
| NetworkRequestWillBeSent (e : Network.RequestWillBeSent (V:=json))
| NetworkResponseReceived (e : Network.ResponseReceived (V:=json))
| NetworkLoadingFinished (e : Network.LoadingFinished (V:=json))
| NetworkLoadingFailed (e : Network.LoadingFailed (V:=json))
| FetchRequestPaused (request_id request : json) (network_id : option json)
| FetchAuthRequired (request_id auth_challenge : json)
| NetworkWebSocketCreated (request_id : json) (url : string)
| NetworkWebSocketWillSendHandshakeRequest (request_id timestamp : json)
| NetworkWebSocketHandshakeResponseReceived (request_id timestamp : json)
| NetworkWebSocketFrameSent (request_id timestamp response : json)
| NetworkWebSocketFrameReceived (request_id timestamp response : json)
| NetworkWebSocketFrameError (request_id timestamp : json) (error_message : string)
| NetworkWebSocketClosed (request_id timestamp : json)
| NetworkEventSourceMessageReceived (request_id timestamp : json) (event_name event_id data : string)
| RuntimeConsoleApiCalled (type : string) (args : json) (stack_trace : option json) (timestamp : json)
| RuntimeExceptionThrown (timestamp exception_details : json)
| PageScreencastFrame (data : string) (metadata : json) (session_id : Z)
| OtherEvent (method : string) (params : json).

(** The commands the pump sends. *)
Inductive fetch_cmd : Type :=
| ContinueRequest (request_id : json) (url method post_data : option string) (headers : option (list (string * string)))
| FulfillRequest (request_id : json) (response_code : Z) (response_headers : option (list (string * string)))
    (body : option string)
| FailRequest (request_id error_reason : json)
| ContinueWithAuth (request_id auth_challenge_response : json).
Definition cmd_request_id (c : fetch_cmd) : json :=
  match c with ContinueRequest i _ _ _ _ | FulfillRequest i _ _ _ | FailRequest i _ | ContinueWithAuth i _ => i end.

(** [CdpEvent::method] and its serialized form, [Value::to_string], base64. *)
Class PumpText := {
  ev_method : CdpEvent -> string;
  ev_value : CdpEvent -> option json;
  json_str : json -> string;
  b64 : list byte -> string
}.

Section EventPump.
Context `{Txt : PumpText} {Regex : Type}.
Variable is_match : Regex -> string -> bool.
Variables cdp_session_id target_id : string.

(** The handles: the page and network state, and what went out on each channel. *)
Record Handles := mkHandles {
  pg : Snapshot.Page (C:=ConsoleMessage) (X:=PageException);
  net : Network.State (V:=json) (Regex:=Regex);
  lifecycle_tx : list LifecycleEvent; nav_tx : list string; console_tx : list ConsoleMessage;
  exception_tx : list PageException; screencast_tx : list ScreencastFramePayload;
  ws_tx : list WsFrame; es_tx : list EsMessage;
  commands : list fetch_cmd;
  traced : list Trace.TraceEvent
}.
(** The browser's answer to a command does not come back into the state. *)
Record Around := mkAround {
  trace_now : option Z;                                   (* the trace sink's clock, when there is a sink *)
  values : list (Network.HandlerSpec (Regex:=Regex));     (* the handlers in the order of the map *)
  unix_secs : f64
}.
Definition handles_init (u t : string) : Handles :=
  mkHandles (Snapshot.page_init u t) Network.state_new [] [] [] [] [] [] [] [] [].

Definition with_pg (h : Handles) (p : Snapshot.Page) : Handles :=
  mkHandles p (net h) (lifecycle_tx h) (nav_tx h) (console_tx h) (exception_tx h) (screencast_tx h) (ws_tx h) (es_tx h)
    (commands h) (traced h).
Definition with_net (h : Handles) (n : Network.State) : Handles :=
  mkHandles (pg h) n (lifecycle_tx h) (nav_tx h) (console_tx h) (exception_tx h) (screencast_tx h) (ws_tx h) (es_tx h)
    (commands h) (traced h).
Definition on_pg (ev : Snapshot.CdpEvent) (h : Handles) : Handles := with_pg h (Snapshot.event_pump ev (pg h)).
Definition send_command (c : fetch_cmd) (h : Handles) : Handles :=
  mkHandles (pg h) (net h) (lifecycle_tx h) (nav_tx h) (console_tx h) (exception_tx h) (screencast_tx h) (ws_tx h) (es_tx h)
    (commands h ++ [c]) (traced h).
Definition record_ws (f : WsFrame) (h : Handles) : Handles :=
  mkHandles (pg h) (net h) (lifecycle_tx h) (nav_tx h) (console_tx h) (exception_tx h) (screencast_tx h) (ws_tx h ++ [f])
    (es_tx h) (commands h) (traced h).
Definition record_es (m : EsMessage) (h : Handles) : Handles :=
  mkHandles (pg h) (net h) (lifecycle_tx h) (nav_tx h) (console_tx h) (exception_tx h) (screencast_tx h) (ws_tx h)
    (es_tx h ++ [m]) (commands h) (traced h).

(** ** Pieces *)

Definition str_of (v : json) : string := default "" (as_str v).
Definition f64_of (v : json) : f64 := default f64_zero (as_f64 v).
Definition ms_of (v : json) : f64 := f64_mul (f64_of v) (f64_of_Z 1000).
(** Always [Some] in the code's [Option] once there is a payload. *)
Definition ws_payload_b64 (response : json) : option string :=
  match vget_str "payloadData" response with
  | None => None
  | Some payload =>
      let opcode := default 1 (vget "opcode" response ≫= as_i64) in
      if opcode =? 2 then Some payload else Some (b64 (String.list_byte_of_string payload))
  end.

Definition console_text (args : json) : string :=
  match as_array args with
  | None => ""
  | Some args =>
      String.concat " " (map (fun a => default (json_str a) (vget_str "value" a)) args)
  end.
(** [v.get(0)] *)
Definition vfirst (v : json) : option json := as_array v ≫= head.
Definition console_message (type : string) (args : json) (stack_trace : option json) (timestamp : json) : ConsoleMessage :=
  mkConsole type (console_text args)
    (default "" ((((stack_trace ≫= vget "callFrames") ≫= vfirst) ≫= vget "url") ≫= as_str))
    (f64_of timestamp) (json_str <$> stack_trace).
Definition page_exception (timestamp details : json) : PageException :=
  mkException (default "" (vget_str "text" details)) (default "" (json_str <$> vget "stackTrace" details)) (f64_of timestamp).

(** The answer to an authentication challenge. *)
Definition provide (a : ProxyAuth) : json :=
  JObj [("response", JStr "ProvideCredentials"); ("username", JStr (user a)); ("password", JStr (pass a))].
Definition default_response : json := JObj [("response", JStr "Default")].
Definition auth_response (proxy : option ProxyConfig) (auth_challenge : json) : json :=
  match proxy ≫= px_auth with
  | Some auth => if bool_decide (vget_str "source" auth_challenge = Some "Proxy") then provide auth else default_response
  | None => default_response
  end.

(** The command of a dispatch; an error of it is only logged. *)
Definition run_fetch_dispatch (d : Network.FetchDispatch (V:=json)) : fetch_cmd :=
  match d with
  | Network.DContinue request_id url method post headers => ContinueRequest request_id url method post headers
  | Network.DFulfill request_id status headers body =>
      FulfillRequest request_id status headers (if bool_decide (body = "") then None else Some body)
  | Network.DFail request_id error_reason => FailRequest request_id (JStr error_reason)
  end.

(** ** The pump *)

(** The frame of a WebSocket event. *)
Definition ws_frame (ev : CdpEvent) : option WsFrame :=
  match ev with
  | NetworkWebSocketCreated request_id url => Some (mkWs (str_of request_id) Created f64_zero None (Some url) None)
  | NetworkWebSocketWillSendHandshakeRequest request_id timestamp =>
      Some (mkWs (str_of request_id) HandshakeRequest (ms_of timestamp) None None None)
  | NetworkWebSocketHandshakeResponseReceived request_id timestamp =>
      Some (mkWs (str_of request_id) HandshakeResponse (ms_of timestamp) None None None)
  | NetworkWebSocketFrameSent request_id timestamp response =>
      Some (mkWs (str_of request_id) FrameSent (ms_of timestamp) (ws_payload_b64 response) None None)
  | NetworkWebSocketFrameReceived request_id timestamp response =>
      Some (mkWs (str_of request_id) FrameReceived (ms_of timestamp) (ws_payload_b64 response) None None)
  | NetworkWebSocketFrameError request_id timestamp error_message =>
      Some (mkWs (str_of request_id) FrameError (ms_of timestamp) None None (Some error_message))
  | NetworkWebSocketClosed request_id timestamp => Some (mkWs (str_of request_id) WsClosed (ms_of timestamp) None None None)
  | _ => None
  end.
Definition on_lifecycle (frame_id : json) (name : string) (timestamp : json) (h : Handles) : Handles :=
  mkHandles (pg h) (net h) (lifecycle_tx h ++ [mkLifecycle (str_of frame_id) name (f64_of timestamp)]) (nav_tx h)
    (console_tx h) (exception_tx h) (screencast_tx h) (ws_tx h) (es_tx h) (commands h) (traced h).
Definition on_navigated (frame : json) (h : Handles) : Handles :=
  let h := on_pg Snapshot.PageFrameNavigated h in
  match vget_str "url" frame with
  | Some url =>
      mkHandles (pg h) (net h) (lifecycle_tx h) (nav_tx h ++ [url]) (console_tx h) (exception_tx h) (screencast_tx h)
        (ws_tx h) (es_tx h) (commands h) (traced h)
  | None => h
  end.
Definition on_paused (w : Around) (request_id request : json) (network_id : option json) (h : Handles) : Handles :=
  let h := match network_id with
           | None => with_net h (Network.record_synthetic_request request_id request (unix_secs w) (net h))
           | Some _ => h
           end in
  send_command (run_fetch_dispatch (Network.dispatch_fetch_event is_match (values w) request_id request)) h.
Definition on_console (msg : ConsoleMessage) (h : Handles) : Handles :=
  let h := on_pg (Snapshot.RuntimeConsoleApiCalled msg) h in
  mkHandles (pg h) (net h) (lifecycle_tx h) (nav_tx h) (console_tx h ++ [msg]) (exception_tx h) (screencast_tx h)
    (ws_tx h) (es_tx h) (commands h) (traced h).
Definition on_exception (exc : PageException) (h : Handles) : Handles :=
  let h := on_pg (Snapshot.RuntimeExceptionThrown exc) h in
  mkHandles (pg h) (net h) (lifecycle_tx h) (nav_tx h) (console_tx h) (exception_tx h ++ [exc]) (screencast_tx h)
    (ws_tx h) (es_tx h) (commands h) (traced h).
Definition on_screencast (data : string) (metadata : json) (session_id : Z) (h : Handles) : Handles :=
  mkHandles (pg h) (net h) (lifecycle_tx h) (nav_tx h) (console_tx h) (exception_tx h)
    (screencast_tx h ++ [mkFrame data metadata session_id]) (ws_tx h) (es_tx h) (commands h) (traced h).

Definition handle_event (proxy : option ProxyConfig) (w : Around) (ev : CdpEvent) (h : Handles) : Handles :=
  match ev with
  | PageLifecycleEvent frame_id name timestamp => on_lifecycle frame_id name timestamp h
  | PageFrameNavigated frame => on_navigated frame h
  | NetworkRequestWillBeSent e =>
      let h := on_pg (Snapshot.NetworkRequestWillBeSent (as_str (Network.q_request_id e))) h in
      with_net h (Network.record_request e (net h))
  | NetworkResponseReceived e => with_net h (Network.record_response e (net h))
  | NetworkLoadingFinished e =>
      let h := on_pg (Snapshot.NetworkLoadingFinished (as_str (Network.f_request_id e))) h in
      with_net h (Network.record_finished e (net h))
  | NetworkLoadingFailed e =>
      let h := on_pg (Snapshot.NetworkLoadingFailed (as_str (Network.x_request_id e))) h in
      with_net h (Network.record_failed e (net h))
  | FetchRequestPaused request_id request network_id => on_paused w request_id request network_id h
  | FetchAuthRequired request_id auth_challenge =>
      send_command (ContinueWithAuth request_id (auth_response proxy auth_challenge)) h
  | NetworkEventSourceMessageReceived request_id timestamp event_name event_id data =>
      record_es (mkEs (str_of request_id) event_name event_id data (ms_of timestamp)) h
  | RuntimeConsoleApiCalled type args stack_trace timestamp => on_console (console_message type args stack_trace timestamp) h
  | RuntimeExceptionThrown timestamp exception_details => on_exception (page_exception timestamp exception_details) h
  | PageScreencastFrame data metadata session_id => on_screencast data metadata session_id h
  | OtherEvent _ _ => h
  | ws => match ws_frame ws with Some f => record_ws f h | None => h end
  end.

Definition trace_event (w : Around) (ev : CdpEvent) (h : Handles) : Handles :=
  match trace_now w with
  | Some ts =>
      mkHandles (pg h) (net h) (lifecycle_tx h) (nav_tx h) (console_tx h) (exception_tx h) (screencast_tx h) (ws_tx h) (es_tx h)
        (commands h) (traced h ++ [Trace.CdpEvent ts cdp_session_id (Some target_id) (ev_method ev) (default JNull (ev_value ev))])
  | None => h
  end.

Definition pump_step (proxy : option ProxyConfig) (h : Handles) (x : Around * CdpEvent) : Handles :=
  handle_event proxy (fst x) (snd x) (trace_event (fst x) (snd x) h).
Fixpoint event_pump (proxy : option ProxyConfig) (rs : list (Around * received CdpEvent)) (h : Handles) : Handles :=
  match rs with
  | [] => h
  | (w, Got ev) :: rs => event_pump proxy rs (pump_step proxy h (w, ev))
  | (_, Lagged _) :: rs => event_pump proxy rs h
  | (_, Closed) :: _ => h
  end.

End EventPump.

(** ** Waiting, [wait.rs] *)

(** Debug forms of a duration and a string, Display of [RecvError], the regex engine. *)
Class WaitText := {
  dbg_duration : Z -> string;
  dbg_string : string -> string;
  closed_text : string;
  lagged_text : Z -> string;
  Rx : Type;
  rx_new : string -> result Rx string;
  rx_match : Rx -> string -> bool
}.

Definition from_millis (ms : Z) : Z := ms * 1000000.
Definition from_secs (s : Z) : Z := s * 1000000000.

Section Waits.
Context `{WTxt : WaitText}.

Definition lifecycle_target (until : Router.WaitUntil) : option string :=
  match until with
  | Router.WaitNone => None
  | Router.Load => Some "load"
  | Router.DomContentLoaded => Some "DOMContentLoaded"
  | Router.NetworkIdle => Some "networkIdle"
  end.

(** [rs]: what the receiver gets before the timer fires. *)
Fixpoint recv_until {A B} (channel : string) (accept : A -> option B) (rs : list (received A)) : option (result B string) :=
  match rs with
  | [] => None
  | Got a :: rs => match accept a with Some b => Some (Ok b) | None => recv_until channel accept rs end
  | Lagged n :: _ => Some (Err (channel +:+ " channel error: " +:+ lagged_text n))
  | Closed :: _ => Some (Err (channel +:+ " channel error: " +:+ closed_text))
  end.
Definition wait_for_lifecycle (until : Router.WaitUntil) (deadline : Z) (rs : list (received LifecycleEvent)) :
    result unit string :=
  match lifecycle_target until with
  | None => Ok tt
  | Some target =>
      match recv_until "lifecycle" (fun ev => if bool_decide (lc_name ev = target) then Some tt else None) rs with
      | Some r => r
      | None => Err ("timed out waiting for lifecycle " +:+ target +:+ " after " +:+ dbg_duration deadline)
      end
  end.

(** [url]: the URL last stored for the page; [rs]: of the navigations after it was read. *)
Definition wait_for_url (pattern : string) (deadline : Z) (url : string) (rs : list (received string)) : result string string :=
  match rx_new pattern with
  | Err e => Err ("invalid url_regex: " +:+ e)
  | Ok re =>
      if negb (bool_decide (url = "")) && rx_match re url then Ok url
      else
        match recv_until "nav" (fun url => if rx_match re url then Some url else None) rs with
        | Some r => r
        | None => Err ("timed out waiting for url " +:+ dbg_string pattern +:+ " after " +:+ dbg_duration deadline)
        end
  end.

(** A round of [wait_for_selector]: the answer and the clock read after it. *)
Record Probe := mkProbe { pr_answer : result json string; pr_clock : Z }.
Fixpoint selector_loop (fuel k : nat) (selector : string) (deadline start : Z) (r : nat -> Probe) : option (result unit string) :=
  match fuel with
  | O => None
  | S fuel =>
      match pr_answer (r k) with
      | Err _ => Some (Err "Runtime.evaluate while wait_for_selector")
      | Ok v =>
          if default false (vget "value" v ≫= as_bool) then Some (Ok tt)
          else if deadline <=? pr_clock (r k) - start then
            Some (Err ("timed out waiting for selector " +:+ dbg_string selector +:+ " after " +:+ dbg_duration deadline))
          else selector_loop fuel (S k) selector deadline start r
      end
  end.
Definition selector_expr (json_text : string -> string) (selector : string) : string :=
  "(()=>{const e=document.querySelector(" +:+ json_text selector +:+ "); return !!e})()".
Definition wait_for_selector (fuel : nat) (selector : string) (deadline start : Z) (r : nat -> Probe) :
    option (result unit string) := selector_loop fuel 0 selector deadline start r.

(** A round of [wait_for_network_idle]: the requests in flight, and the clock
    where the round compares or stores the time of the last activity and where
    it compares the deadline. *)
Record Round := mkRound { in_flight_count : Z; idle_clock : Z; deadline_clock : Z }.
Fixpoint idle_loop (fuel k : nat) (idle_window deadline start last_busy_at : Z) (r : nat -> Round) :
    option (result unit string) :=
  match fuel with
  | O => None
  | S fuel =>
      let x := r k in
      if (in_flight_count x =? 0) && (idle_window <=? idle_clock x - last_busy_at) then Some (Ok tt)
      else
        let last_busy_at := if in_flight_count x =? 0 then last_busy_at else idle_clock x in
        if deadline <=? deadline_clock x - start then
          Some (Err ("network-idle window " +:+ dbg_duration idle_window +:+ " not reached within " +:+ dbg_duration deadline))
        else idle_loop fuel (S k) idle_window deadline start last_busy_at r
  end.
Definition wait_for_network_idle (fuel : nat) (idle_window deadline start last_busy_at : Z) (r : nat -> Round) :
    option (result unit string) := idle_loop fuel 0 idle_window deadline start last_busy_at r.

End Waits.

(** ** What the pump makes of its events *)

(** The events that are handled: those received before the channel closed. *)
Fixpoint pumped {W A} (rs : list (W * received A)) : list (W * A) :=
  match rs with
  | [] | (_, Closed) :: _ => []
  | (w, Got a) :: rs => (w, a) :: pumped rs
  | (_, Lagged _) :: rs => pumped rs
  end.

Definition starts (ev : CdpEvent) : option string :=
  match ev with NetworkRequestWillBeSent e => as_str (Network.q_request_id e) | _ => None end.
Definition ends (ev : CdpEvent) : option string :=
  match ev with
  | NetworkLoadingFinished e => as_str (Network.f_request_id e)
  | NetworkLoadingFailed e => as_str (Network.x_request_id e)
  | _ => None
  end.
(** A request that began and has not ended since. *)
Definition open_in (rid : string) (evs : list CdpEvent) : Prop :=
  exists pre ev post, evs = pre ++ ev :: post /\ starts ev = Some rid /\ Forall (fun e => ends e <> Some rid) post.

Definition har_of (ev : CdpEvent) : option (Network.har_event (V:=json)) :=
  match ev with
  | NetworkRequestWillBeSent e => Some (Network.EvRequest e)
  | NetworkResponseReceived e => Some (Network.EvResponse e)
  | NetworkLoadingFinished e => Some (Network.EvFinished e)
  | NetworkLoadingFailed e => Some (Network.EvFailed e)
  | _ => None
  end.
Definition navigation_of (ev : CdpEvent) : option string :=
  match ev with PageFrameNavigated frame => vget_str "url" frame | _ => None end.
Definition lifecycle_of (ev : CdpEvent) : option LifecycleEvent :=
  match ev with PageLifecycleEvent f n t => Some (mkLifecycle (str_of f) n (f64_of t)) | _ => None end.
Definition asks (ev : CdpEvent) : bool :=
  match ev with FetchRequestPaused _ _ _ | FetchAuthRequired _ _ => true | _ => false end.

Lemma open_in_snoc rid evs ev :
  open_in rid (evs ++ [ev]) <-> starts ev = Some rid \/ (open_in rid evs /\ ends ev <> Some rid).
Proof.
  split.
  - intros (pre & e & post & E & Hs & Hp). destruct post as [|y post] using rev_ind.
    + apply app_inj_tail in E as [-> ->]. now left.
    + clear IHpost. rewrite app_comm_cons, (assoc_L (++)) in E. apply app_inj_tail in E as [-> ->].
      apply Forall_app in Hp as [Hp Hy]. right. split; [now exists pre, e, post|]. now apply Forall_inv in Hy.
  - intros [Hs|[(pre & e & post & -> & Hs & Hp) He]].
    + exists evs, ev, []. now repeat constructor.
    + exists pre, e, (post ++ [ev]). rewrite <- (assoc_L (++)). split; [done|]. split; [done|].
      apply Forall_app. split; [done|]. now constructor.
Qed.

Section PumpFacts.
Context `{Txt : PumpText} {Regex : Type}.
Variable is_match : Regex -> string -> bool.
Variables cdp_session_id target_id : string.
Variable proxy : option ProxyConfig.
Notation step := (pump_step is_match cdp_session_id target_id proxy).
Notation Hs := (Handles (Regex:=Regex)).

Definition console_of (ev : CdpEvent) : option ConsoleMessage :=
  match ev with RuntimeConsoleApiCalled t a s ts => Some (console_message t a s ts) | _ => None end.
Definition exception_of (ev : CdpEvent) : option PageException :=
  match ev with RuntimeExceptionThrown ts d => Some (page_exception ts d) | _ => None end.

Lemma event_pump_foldl rs (h : Hs) :
  event_pump is_match cdp_session_id target_id proxy rs h = foldl step h (pumped rs).
Proof. revert h. induction rs as [|[w [ev|n|]] rs IH]; intros h; cbn; [done|apply IH|apply IH|done]. Qed.

Lemma log_fold {A} (f : Hs -> list A) (v : CdpEvent -> option A) :
  (forall h x, f (step h x) = f h ++ option_list (v (snd x))) ->
  forall evs h, f (foldl step h evs) = f h ++ omap v (map snd evs).
Proof.
  intros E evs. induction evs as [|x evs IH]; intros h; cbn; [by rewrite app_nil_r|]. rewrite IH, E, <- (assoc_L (++)).
  f_equal. now destruct (v (snd x)).
Qed.
Lemma state_fold {S A} (f : Hs -> S) (g : S -> A -> S) (v : CdpEvent -> option A) :
  (forall h x, f (step h x) = from_option (g (f h)) (f h) (v (snd x))) ->
  forall evs h, f (foldl step h evs) = foldl g (f h) (omap v (map snd evs)).
Proof.
  intros E evs. induction evs as [|x evs IH]; intros h; cbn; [done|]. rewrite IH, E. now destruct (v (snd x)).
Qed.

(** One event, whatever it is, with or without a trace. *)
Ltac by_event :=
  let h := fresh in let w := fresh in let ev := fresh in
  intros h [w ev]; unfold pump_step, trace_event; cbn [fst snd]; destruct (trace_now w); destruct ev; cbn; unfold on_navigated, on_paused; cbn;
  try rewrite app_nil_r; repeat case_match; try rewrite app_nil_r; try done.

Lemma in_flight_step h x :
  Snapshot.in_flight (pg (step h x)) =
  from_option (fun rid => Snapshot.in_flight (pg h) ∪ {[rid]})
    (from_option (fun rid => Snapshot.in_flight (pg h) ∖ {[rid]}) (Snapshot.in_flight (pg h)) (ends (snd x))) (starts (snd x)).
Proof.
  revert h x. by_event.
Qed.

Lemma in_flight_open (h : Hs) evs rid : Snapshot.in_flight (pg h) = ∅ ->
  rid ∈ Snapshot.in_flight (pg (foldl step h evs)) <-> open_in rid (map snd evs).
Proof.
  intros E. induction evs as [|x evs IH] using rev_ind.
  - cbn. rewrite E. split; [set_solver|]. intros (pre & ? & ? & H & _). now destruct pre.
  - rewrite foldl_snoc, map_app. cbn [map]. rewrite open_in_snoc, in_flight_step.
    destruct (starts (snd x)) as [s|] eqn:Es; cbn.
    + assert (ends (snd x) = None) as En by (destruct x as [? []]; cbn in *; done). rewrite En. cbn. rewrite elem_of_union, elem_of_singleton, IH.
      split; [intros [?| ->]; [right|left]|intros [[= ->]|[? _]]; [right|left]]; done.
    + destruct (ends (snd x)) as [s|]; cbn; [rewrite elem_of_difference, elem_of_singleton|]; rewrite IH;
        (split; [intros; right|intros [?|?]]); naive_solver.
Qed.

Lemma net_har_step (h : Hs) x :
  Network.har (net (step h x)) = from_option (Network.har_step (Network.har (net h))) (Network.har (net h)) (har_of (snd x)).
Proof.
  unfold pump_step, trace_event. destruct x as [w ev]; cbn [fst snd]. destruct (trace_now w);
    destruct ev; cbn; try done; unfold on_navigated, on_paused; cbn; repeat case_match; try done; unfold Network.record_response, Network.with_har; cbn; repeat case_match; done.
Qed.

(** The commands that may answer an event. *)
Definition answers (ev : CdpEvent) (c : fetch_cmd) : Prop :=
  match ev with
  | FetchRequestPaused id _ _ => cmd_request_id c = id /\ forall i r, c <> ContinueWithAuth i r
  | FetchAuthRequired id challenge =>
      exists r, c = ContinueWithAuth id r /\
        (r = default_response \/
         exists a, r = provide a /\ proxy ≫= px_auth = Some a /\ vget_str "source" challenge = Some "Proxy")
  | _ => False
  end.
Lemma paused_answer vals id request nid :
  answers (FetchRequestPaused id request nid) (run_fetch_dispatch (Network.dispatch_fetch_event is_match vals id request)).
Proof.
  unfold Network.dispatch_fetch_event. destruct (Network.match_url is_match vals _) as [spec|];
    [destruct (Network.hs_action spec)|]; cbn; done.
Qed.
Lemma auth_answer id challenge :
  answers (FetchAuthRequired id challenge) (ContinueWithAuth id (auth_response proxy challenge)).
Proof.
  unfold auth_response, answers. destruct (proxy ≫= px_auth) as [a|] eqn:Ea; [case_bool_decide|]; eauto 10.
Qed.
Lemma commands_step (h : Hs) x :
  exists cs, commands (step h x) = commands h ++ cs /\ Forall2 answers (filter (fun e => asks e = true) [snd x]) cs.
Proof.
  unfold pump_step, trace_event. destruct x as [w ev]; cbn [fst snd].
  destruct (trace_now w); destruct ev; cbn [handle_event asks filter list_filter];
    try (exists []; rewrite app_nil_r; split; [cbn; unfold on_navigated; cbn; repeat case_match; done|constructor]).
  all: eexists; split; [cbn; unfold on_paused; cbn; repeat case_match; reflexivity|]; repeat constructor; auto using auth_answer.
  all: apply (paused_answer _ _ _ None).
Qed.



(** A request whose end was lost stays in flight. *)
Lemma lost_end_stays rid (h : Hs) xs : rid ∈ Snapshot.in_flight (pg h) ->
  Forall (fun x => ends (snd x) <> Some rid) xs -> rid ∈ Snapshot.in_flight (pg (foldl step h xs)).
Proof.
  revert h. induction xs as [|x xs IH]; intros h Hin Hf; cbn; [done|]. apply Forall_cons in Hf as [Hx Hf].
  apply IH; [|done]. rewrite in_flight_step. destruct (starts (snd x)) as [s|]; cbn; [set_solver|].
  destruct (ends (snd x)) as [s|]; cbn; set_solver.
Qed.

End PumpFacts.

(** ** What a wait tells *)

Section WaitFacts.
Context `{WTxt : WaitText}.

(** What the receiver got up to the first value it takes. *)
Lemma recv_until_ok {A B} channel (accept : A -> option B) rs b :
  recv_until channel accept rs = Some (Ok b) <->
  exists pre a rest, rs = map Got pre ++ Got a :: rest /\ accept a = Some b /\ Forall (fun a => accept a = None) pre.
Proof.
  split.
  - induction rs as [|[a|n|] rs IH]; cbn; try done. destruct (accept a) as [b'|] eqn:Ea.
    + intros [= ->]. now exists [], a, rs.
    + intros H. destruct (IH H) as (pre & a' & rest & -> & Ha & Hp). exists (a :: pre), a', rest. repeat split; auto.
  - intros (pre & a & rest & -> & Ha & Hp). induction Hp as [|x pre Hx Hp IH]; cbn; [now rewrite Ha|now rewrite Hx].
Qed.
Lemma delivers_prefix {A} (sent pre : list A) a rest : delivers sent (map Got pre ++ Got a :: rest) ->
  exists later, sent = pre ++ a :: later.
Proof.
  revert sent. induction pre as [|x pre IH]; intros sent H; inversion H; subst; [eauto|].
  destruct (IH _ ltac:(eassumption)) as [later ->]. now exists later.
Qed.

(** The rounds of the idle loop come in the order of the clock, fifty milliseconds apart. *)
Record timed (start last_busy_at : Z) (r : nat -> Round) : Prop := mkTimed {
  t_begin : start <= last_busy_at <= idle_clock (r 0%nat);
  t_round k : idle_clock (r k) <= deadline_clock (r k);
  t_next k : deadline_clock (r k) + from_millis 50 <= idle_clock (r (S k))
}.
Lemma timed_clock start busy r k : timed start busy r -> start + Z.of_nat k * from_millis 50 <= idle_clock (r k).
Proof.
  intros T. destruct T as [B R N]. unfold from_millis in *. induction k as [|k IH]; [lia|]. specialize (R k). specialize (N k). lia.
Qed.

(** What the loop has established when it ends in round [j], started in round [k]. *)
Definition idle_outcome (idle_window deadline start busy : Z) (r : nat -> Round) (k j : nat) (o : result unit string) : Prop :=
  match o with
  | Ok _ =>
      exists i t, (k <= i <= j)%nat /\ idle_window <= idle_clock (r j) - t /\
        (forall m, (i <= m <= j)%nat -> in_flight_count (r m) = 0) /\
        (i = k /\ t = busy \/ exists i', i = S i' /\ (k <= i')%nat /\ t = idle_clock (r i'))
  | Err _ => deadline <= deadline_clock (r j) - start
  end.

Lemma idle_loop_ends idle deadline start r n : forall k busy,
  deadline <= deadline_clock (r (k + n)%nat) - start ->
  exists j o, (k <= j <= k + n)%nat /\ idle_loop (S n) k idle deadline start busy r = Some o /\
    idle_outcome idle deadline start busy r k j o.
Proof.
  induction n as [|n IH]; intros k busy Hd; cbn [idle_loop];
    set (b' := if in_flight_count (r k) =? 0 then busy else idle_clock (r k));
    destruct ((in_flight_count (r k) =? 0) && (idle <=? idle_clock (r k) - busy)) eqn:E.
  - apply andb_true_iff in E as [E1 E2]. exists k, (Ok tt). split; [lia|]. split; [done|]. exists k, busy.
    split; [lia|]. split; [lia|]. split; [intros m Hm; replace m with k by lia; lia|now left].
  - rewrite Nat.add_0_r in Hd. destruct (Z.leb_spec deadline (deadline_clock (r k) - start)); [|lia].
    exists k. eexists. split; [lia|]. split; [done|]. cbn. lia.
  - apply andb_true_iff in E as [E1 E2]. exists k, (Ok tt). split; [lia|]. split; [done|]. exists k, busy.
    split; [lia|]. split; [lia|]. split; [intros m Hm; replace m with k by lia; lia|now left].
  - destruct (Z.leb_spec deadline (deadline_clock (r k) - start)).
    + exists k. eexists. split; [lia|]. split; [done|]. cbn. lia.
    + destruct (IH (S k) b') as (j & o & Hj & Hl & Ho); [now replace (S k + n)%nat with (k + S n)%nat by lia|].
      exists j, o. split; [lia|]. split; [exact Hl|]. destruct o as [[]|e]; [|done].
      destruct Ho as (i & t & Hi & Hw & Hz & [[-> ->]|(i' & -> & Hi' & ->)]).
      * subst b'. destruct (Z.eqb_spec (in_flight_count (r k)) 0) as [Z0|Z0].
        -- exists k, busy. split; [lia|]. split; [done|]. split; [|now left]. intros m Hm.
           destruct (decide (m = k)) as [->|]; [done|]. apply Hz. lia.
        -- exists (S k), (idle_clock (r k)). split; [lia|]. split; [done|]. split; [done|]. right. exists k. lia.
      * exists (S i'), (idle_clock (r i')). split; [lia|]. split; [done|]. split; [done|]. right. exists i'. lia.
Qed.

(** Rounds that are enough for a deadline. *)
Definition idle_rounds (deadline : Z) : nat := Z.to_nat (deadline / from_millis 50) + 2.

Lemma idle_terminates idle deadline start busy r : timed start busy r -> 0 <= deadline ->
  exists j o, (j < idle_rounds deadline)%nat /\
    wait_for_network_idle (idle_rounds deadline) idle deadline start busy r = Some o /\
    idle_outcome idle deadline start busy r 0 j o.
Proof.
  intros T Hd. unfold idle_rounds, wait_for_network_idle. set (n := (Z.to_nat (deadline / from_millis 50) + 1)%nat).
  replace (_ + 2)%nat with (S n) by lia. destruct (idle_loop_ends idle deadline start r n 0 busy) as (j & o & Hj & Hl & Ho).
  - cbn [plus]. pose proof (timed_clock _ _ _ n T). pose proof (t_round _ _ _ T n). subst n. unfold from_millis in *.
    assert (deadline < (deadline / (50 * 1000000) + 1) * (50 * 1000000)) 
      by (pose proof (Z.mul_succ_div_gt deadline (50 * 1000000)); lia).
    rewrite Nat2Z.inj_add, Z2Nat.id in * by (apply Z.div_pos; lia). lia.
  - exists j, o. split; [lia|done].
Qed.


Context `{Txt : PumpText} {Regex : Type}.
Variable is_match : Regex -> string -> bool.
Variables cdp_session_id target_id : string.
Variable proxy : option ProxyConfig.

(** when the end of a request never reaches the pump, because the receiver
    lagged behind the browser or the event never came, every wait for an idle
    network on that page times out, whatever else happens: a request leaves the
    set only by its own end, navigation included. *)
Theorem lost_end_never_idle rid (h : Handles (Regex:=Regex)) xs (upto : nat -> nat) idle deadline start busy r :
  rid ∈ Snapshot.in_flight (pg h) -> Forall (fun x => ends (snd x) <> Some rid) xs ->
  (forall k, in_flight_count (r k) =
     Z.of_nat (size (Snapshot.in_flight (pg (foldl (pump_step is_match cdp_session_id target_id proxy) h (take (upto k) xs)))))) ->
  timed start busy r -> 0 <= deadline ->
  exists e, wait_for_network_idle (idle_rounds deadline) idle deadline start busy r = Some (Err e).
Proof.
  intros Hin Hf Hr T Hd. destruct (idle_terminates idle deadline start busy r T Hd) as (j & o & _ & -> & Ho).
  destruct o as [[]|e]; [exfalso|eauto]. destruct Ho as (i & t & Hi & _ & Hz & _). specialize (Hz j ltac:(lia)).
  rewrite Hr in Hz. apply (Forall_take _ (upto j)) in Hf.
  pose proof (lost_end_stays is_match cdp_session_id target_id proxy rid h _ Hin Hf) as H.
  assert (size (Snapshot.in_flight (pg (foldl (pump_step is_match cdp_session_id target_id proxy) h (take (upto j) xs)))) = 0%nat)
    as H0 by lia.
  apply size_empty_inv in H0. set_solver.
Qed.

End WaitFacts.
End Pump.

Module PumpExamples.
Import Pump.

#[local] Instance text : PumpText := {
  ev_method _ := "m"; ev_value _ := None; json_str _ := "{}"; b64 l := String.string_of_list_byte l
}.
#[local] Instance waits : WaitText := {
  dbg_duration _ := "d"; dbg_string s := s; closed_text := "channel closed"; lagged_text _ := "channel lagged";
  Rx := string; rx_new p := if bool_decide (p = "(") then Err "unclosed group" else Ok p; rx_match p u := bool_decide (p = u)
}.
Definition no_match (r : unit) (u : string) : bool := false.
Definition around : Around (Regex:=unit) := mkAround (Some 7) [] f64_zero.
Definition pump := event_pump no_match "sid" "tid" (Some (mkProxy "http" "p" 80 (Some (mkAuth "u" "pw")) None)).
Definition request (id : string) : CdpEvent :=
  NetworkRequestWillBeSent (Network.mkRwbs (JStr id) (JObj [("url", JStr "http://a/")]) (JNum 1) (JNum 1)).
Definition finished (id : string) : CdpEvent := NetworkLoadingFinished (Network.mkFin (JStr id) (JNum 2) f64_zero).
Definition feed (evs : list CdpEvent) := map (fun e => (around, Got e)) evs.

Example pump_run :
  let h := pump (feed [request "a"; request "b"; finished "a"; PageLifecycleEvent (JStr "f") "load" (JNum 3);
                       FetchRequestPaused (JStr "i1") (JObj []) None;
                       FetchAuthRequired (JStr "i2") (JObj [("source", JStr "Proxy")]);
                       FetchAuthRequired (JStr "i3") (JObj [("source", JStr "Server")])]
                 ++ [(around, Lagged 3); (around, Closed); (around, Got (request "c"))]) (handles_init "" "") in
  elements (Snapshot.in_flight (pg h)) = ["b"] /\ map lc_name (lifecycle_tx h) = ["load"] /\
  commands h = [ContinueRequest (JStr "i1") None None None None; ContinueWithAuth (JStr "i2") (provide (mkAuth "u" "pw"));
                ContinueWithAuth (JStr "i3") default_response] /\ length (traced h) = 7%nat.
Proof. vm_compute. done. Qed.

(** A round every fifty milliseconds. *)
Definition every50 (count : nat -> Z) (k : nat) : Round :=
  mkRound (count k) (from_millis 50 * Z.of_nat k) (from_millis 50 * Z.of_nat k).
Lemma every50_timed count : timed 0 0 (every50 count).
Proof. split; unfold every50, from_millis; cbn [idle_clock deadline_clock]; lia. Qed.

(** Busy in the first two rounds: idle for 500 ms ten rounds after the last of them. *)
Definition busy2 (k : nat) : Z := if (k <? 2)%nat then 1 else 0.

(** A request that starts and ends between two rounds is not seen. *)
Example short_request_unseen :
  let h := pump (feed [request "a"; finished "a"]) (handles_init "" "") in
  size (Snapshot.in_flight (pg h)) = 0%nat /\
  wait_for_network_idle (idle_rounds (from_secs 1)) (from_millis 500) (from_secs 1) 0 0
    (every50 (fun _ => Z.of_nat (size (Snapshot.in_flight (pg h))))) = Some (Ok tt).
Proof. vm_compute. done. Qed.

Definition lost : list (Around (Regex:=unit) * CdpEvent) :=
  [(around, PageFrameNavigated (JObj [("url", JStr "http://b/")])); (around, request "b"); (around, finished "b")].
Definition stuck : Handles (Regex:=unit) := pump (feed [request "a"]) (handles_init "" "").
Definition stuck_rounds (k : nat) : Round :=
  every50 (fun k => Z.of_nat (size (Snapshot.in_flight (pg (foldl (pump_step no_match "sid" "tid" None) stuck (take k lost)))))) k.
Lemma lost_end_never_idle_witness :
  exists e, wait_for_network_idle (idle_rounds (from_secs 1)) (from_millis 500) (from_secs 1) 0 0 stuck_rounds = Some (Err e).
Proof.
  apply (lost_end_never_idle no_match "sid" "tid" None "a" stuck lost id).
  - apply (bool_decide_unpack _). vm_compute. exact I.
  - repeat constructor; done.
  - reflexivity.
  - apply (every50_timed (fun k => Z.of_nat (size (Snapshot.in_flight (pg (foldl (pump_step no_match "sid" "tid" None) stuck (take k lost))))))).
  - unfold from_secs. lia.
Defined.

(** A receiver that is too slow fails its wait even when the event it waits for is still to come. *)
Example lagged_wait_fails :
  let load := mkLifecycle "f" "load" f64_zero in
  delivers [load; load] [Lagged 1; Got load] /\
  wait_for_lifecycle Router.Load 0 [Lagged 1; Got load] = Err "lifecycle channel error: channel lagged".
Proof. split; [|vm_compute; reflexivity]. apply (delivers_lag [_] [_]); [done|]. repeat constructor. Qed.

End PumpExamples.
