(* ===== verification/Tabs.v ===== *)
(** * Tabs: opening, navigating, waiting for and closing tabs

    Models the tabs of a browser: [Page::bootstrap], [navigate] and the other
    commands of [browser-engine/src/page.rs], the registry of [context.rs], the
    URL policy of [browser.rs] and the tab tools of [broker/src/router/tab.rs],
    over the waits of [Pump].  A call is a program whose events are the commands
    it sends, its accesses to the registry and to the page's stored URL and
    title, and what the receivers it creates get.  The stealth and observer
    scripts are parameters. *)
From S2P Require Import Prelude Json Text F64 AxMerge Input Actions Router Pump.
Import JsonTree AxMerge Input Prog Actions Router Pump.

Module Tabs.

(** ** Names and URLs *)

(** [TabId::from_target]; [None]: the slice is not at a character boundary and the thread panics. *)
Definition char_boundary (s : list byte) (i : nat) : bool :=
  match s !! i with None => true | Some b => negb ((128 <=? byte_val b) && (byte_val b <? 192)) end.
Definition from_target (target_id : string) : option string :=
  let b := String.list_byte_of_string target_id in
  let n := Nat.min (length b) 8 in
  if char_boundary b n then Some ("t_" +:+ String.string_of_list_byte (take n b)) else None.

(** [split_once(':')] *)
Fixpoint split_colon (s : string) : option (string * string) :=
  match s with
  | String.EmptyString => None
  | String.String c s =>
      if Ascii.eqb c (Ascii.ascii_of_nat 58) then Some ("", s)
      else match split_colon s with Some (a, b) => Some (String.String c a, b) | None => None end
  end.
(** [starts_with("//")] *)
Definition starts_slashes (s : string) : bool :=
  match s with
  | String.String a (String.String b _) => Ascii.eqb a (Ascii.ascii_of_nat 47) && Ascii.eqb b (Ascii.ascii_of_nat 47)
  | _ => false
  end.
Definition unsafe_schemes : list string :=
  ["file"; "chrome"; "chrome-error"; "chrome-extension"; "javascript"; "data"; "view-source"; "devtools"].
Definition validate_navigable_url (url : string) : result unit string :=
  if bool_decide (url = "about:blank") then Ok tt
  else
    match split_colon url with
    | None => Err "navigation URL must include an explicit scheme"
    | Some (scheme, remainder) =>
        let scheme := to_ascii_lowercase scheme in
        if bool_decide (scheme = "http") || bool_decide (scheme = "https") then
          if starts_slashes remainder then Ok tt
          else Err ("navigation URL must use an absolute " +:+ scheme +:+ ":// URL")
        else if bool_decide (scheme = "about") then Err "only about:blank is allowed for navigation"
        else if bool_decide (scheme ∈ unsafe_schemes) then Err ("unsafe navigation URL scheme: " +:+ scheme)
        else Err ("unsupported navigation URL scheme: " +:+ scheme)
    end.

(** ** Events *)

(** Commands on the session of a page. *)
Inductive pcmd : Type :=
| PageEnable | NetworkEnable | RuntimeEnable | DomEnable | AccessibilityEnable
| SetLifecycleEventsEnabled (enabled : bool)
| FetchEnable (patterns : option json) (handle_auth_requests : option bool)
| AddScriptToEvaluateOnNewDocument (source : string)
| RawEvaluate (expression : string)                       (* [awaitPromise: false, returnByValue: true] *)
| Navigate (url : string)
| BringToFront
| StartScreencast (format : option string) (quality max_width max_height every_nth_frame : option Z)
| StopScreencast
| ScreencastFrameAck (session_id : Z).

Record PageRef := mkRef { tab_id : string; target_id : string; cdp_session_id : string }.

#[export] Instance page_ref_eq_dec : EqDecision PageRef.
Proof. solve_decision. Defined.

Inductive bev : Type -> Type :=
(* the root session *)
| CreateTarget (url : string) (new_window background : bool) : bev (result json string)      (* [targetId] *)
| AttachToTarget (target : string) (flatten : bool) : bev (result json string)               (* [sessionId] *)
| GetTargetInfo (target : string) : bev (result json string)                                 (* [targetInfo] *)
| GetTargets : bev (result json string)                                                      (* [targetInfos] *)
| CloseTarget (target : string) : bev (result unit string)
(* the session of a page *)
| OnPage (sid : string) (c : pcmd) : bev (result unit string)
| OnAct {X} (sid : string) (e : ev X) : bev X
| CdpCall (sid method : string) (params : option json) : bev (result json string)
| SpawnPump (sid : string) : bev unit
| LifecycleUntil (sid : string) (ns : Z) : bev (list (received LifecycleEvent))              (* a new receiver, until the timer *)
| NavUntil (sid : string) (ns : Z) : bev (list (received string))
| ReadUrl (sid : string) : bev string
| ReadTitle (sid : string) : bev string
| StoreUrl (sid url : string) : bev unit
| StoreTitle (sid title : string) : bev unit
| Probes (sid : string) (expression : string) : bev (Z * (nat -> Probe))                     (* the start and the rounds *)
| Rounds (sid : string) : bev (Z * Z * (nat -> Round))                                       (* both starts and the rounds *)
(* the browser *)
| HasProxyAuth : bev bool
| SessionStorageSeed : bev (option string)
(* the registry of the context *)
| PagesInsert (p : PageRef) : bev unit
| PagesRemove (tab : string) : bev (option PageRef)
| PagesGet (tab : string) : bev (option PageRef)
| PagesList : bev (list PageRef)
| PagesReplace (l : list PageRef) : bev unit                                                 (* cleared and filled under the lock *)
(* the broker's session *)
| CurrentSession : bev bool
| TraceWriter : bev bool                                                                     (* tracing is on and there is a writer *)
| AttachForwarders (p : PageRef) : bev unit
| AttachTraceDriver (p : PageRef) : bev unit
| Elapsed : bev Z                                                                            (* milliseconds since the call began *)
| Panic : bev Empty_set.

Definition run (A : Type) : Type := prog bev (result A string).
Definition want {X} (e : bev X) : prog bev X := trigger e.
(** anyhow's [context]: the message shown is the outermost. *)
Definition context {A} (c : string) (p : run A) : run A := map_err (fun _ => c) p.
(** [let _ = p.await], [p.await.ok()] *)
Definition ignore {A} (p : run A) : run unit := bind p (fun _ => ok tt).
Definition unwrap_panic {A} (o : option A) : prog bev A :=
  match o with Some a => Ret a | None => Vis Empty_set Panic (fun x : Empty_set => match x with end) end.

(** The scripts that are installed. *)
Class Scripts := { observer_script : string; stealth_script : Z -> string; debug_json : json -> string }.

Section Engine.
Context `{Scr : Scripts} `{Env : PageEnv} `{WTxt : WaitText}.

(** ** A page *)

Definition cdp_send (p : PageRef) (c : pcmd) : run unit := want (OnPage (cdp_session_id p) c).

Definition install_observer (p : PageRef) : run unit :=
  context "Page.addScriptToEvaluateOnNewDocument" (cdp_send p (AddScriptToEvaluateOnNewDocument observer_script)) ;;!
  ignore (cdp_send p (RawEvaluate observer_script)).

Definition bootstrap (target session : string) : run PageRef :=
  tab <-- unwrap_panic (from_target target) ;;
  let page := mkRef tab target session in
  context "Page.enable" (cdp_send page PageEnable) ;;!
  context "Network.enable" (cdp_send page NetworkEnable) ;;!
  context "Runtime.enable" (cdp_send page RuntimeEnable) ;;!
  context "DOM.enable" (cdp_send page DomEnable) ;;!
  context "Accessibility.enable" (cdp_send page AccessibilityEnable) ;;!
  ignore (cdp_send page (SetLifecycleEventsEnabled true)) ;;!
  auth <-- want HasProxyAuth ;;
  (if auth then context "Fetch.enable (proxy auth)" (cdp_send page (FetchEnable (Some (JArr [])) (Some true))) else ok tt) ;;!
  context "install mutation observer (SPEC §10 M2)" (install_observer page) ;;!
  seed <-- want SessionStorageSeed ;;
  match seed with
  | Some script =>
      context "Page.addScriptToEvaluateOnNewDocument (V-R1 sessionStorage seed)"
        (cdp_send page (AddScriptToEvaluateOnNewDocument script)) ;;!
      ignore (embed (fun X e => OnAct session e) (eval script false))
  | None => ok tt
  end ;;!
  _ <-- want (SpawnPump session) ;;
  ok page.

Definition wait_lifecycle (p : PageRef) (until : WaitUntil) (deadline : Z) : run unit :=
  match until with
  | WaitNone => ok tt
  | _ => rs <-- want (LifecycleUntil (cdp_session_id p) deadline) ;; lift (wait_for_lifecycle until deadline rs)
  end.

Definition refresh_target_info (p : PageRef) : run unit :=
  info <-! context "Target.getTargetInfo" (want (GetTargetInfo (target_id p))) ;;
  match vget_str "url" info with
  | Some u => _ <-- want (StoreUrl (cdp_session_id p) u) ;; ok tt
  | None => ok tt
  end ;;!
  match vget_str "title" info with
  | Some t => _ <-- want (StoreTitle (cdp_session_id p) t) ;; ok tt
  | None => ok tt
  end.

Definition navigate (p : PageRef) (url : string) (wait_until : WaitUntil) : run unit :=
  lift (validate_navigable_url url) ;;!
  context "Page.navigate" (cdp_send p (Navigate url)) ;;!
  match wait_until with WaitNone => ok tt | u => wait_lifecycle p u (from_secs 30) end ;;!
  ignore (refresh_target_info p).

Definition bring_to_front (p : PageRef) : run unit := context "Page.bringToFront" (cdp_send p BringToFront).
Definition close (p : PageRef) : run unit := context "Target.closeTarget" (want (CloseTarget (target_id p))).
Definition start_screencast (p : PageRef) (format : string) (quality every_nth : Z) (max_width max_height : option Z) : run unit :=
  context "Page.startScreencast"
    (cdp_send p (StartScreencast (Some format) (Some quality) max_width max_height (Some (Z.max every_nth 1)))).
Definition stop_screencast (p : PageRef) : run unit := context "Page.stopScreencast" (cdp_send p StopScreencast).
Definition screencast_frame_ack (p : PageRef) (session_id : Z) : run unit :=
  context "Page.screencastFrameAck" (cdp_send p (ScreencastFrameAck session_id)).

(** ** The context, [context.rs] *)

Record BrowserContext := mkContext { cx_id : string; stealth : bool; trace : bool; stealth_seed : Z }.
(** [default_seed]: the seed, and the counter after it. *)
Definition default_seed (counter : Z) : Z * Z := (counter, wrap_add u64_max counter 0x9E3779B97F4A7C15).
Definition SEED_START : Z := 0xCAFEBABEDEADBEEF.
Definition new_default (counter : Z) : BrowserContext * Z :=
  let '(seed, counter) := default_seed counter in (mkContext "default" true false seed, counter).

Definition as_id (what : string) (v : json) : run string :=
  match as_str v with Some s => ok s | None => fail (what +:+ debug_json v) end.

Definition open_tab (cx : BrowserContext) (url : string) (wait_until : WaitUntil) : run PageRef :=
  lift (validate_navigable_url url) ;;!
  res <-! context "Target.createTarget" (want (CreateTarget url false true)) ;;
  target <-! as_id "Target.createTarget returned non-string targetId: " res ;;
  attach <-! context "Target.attachToTarget" (want (AttachToTarget target true)) ;;
  session <-! as_id "Target.attachToTarget returned non-string sessionId: " attach ;;
  page <-! bootstrap target session ;;
  (if stealth cx then
     context "Page.addScriptToEvaluateOnNewDocument (stealth)"
       (cdp_send page (AddScriptToEvaluateOnNewDocument (stealth_script (stealth_seed cx))))
   else ok tt) ;;!
  match wait_until with WaitNone => ok tt | u => wait_lifecycle page u (from_secs 30) end ;;!
  _ <-- want (PagesInsert page) ;;
  ok page.

Definition close_tab (tab : string) : run unit :=
  o <-- want (PagesRemove tab) ;;
  match o with
  | None => fail ("tab not found: " +:+ dbg_string tab)
  | Some page => ignore (close page)
  end.

(** One target of [reattach_existing_targets]: [None] when it is skipped. *)
Definition reattach_one (cx : BrowserContext) (info : json) : prog bev (option PageRef) :=
  if negb (bool_decide (default "" (vget_str "type" info) = "page")) then Ret None
  else
    match vget_str "targetId" info with
    | None => Ret None
    | Some target =>
        a <-- want (AttachToTarget target true) ;;
        match a with
        | Err _ => Ret None
        | Ok v =>
            match as_str v with
            | None => Ret None
            | Some session =>
                b <-- bootstrap target session ;;
                match b with
                | Err _ => Ret None
                | Ok page =>
                    _ <-- (if stealth cx then
                             ignore (cdp_send page (AddScriptToEvaluateOnNewDocument (stealth_script (stealth_seed cx))))
                           else ok tt) ;;
                    _ <-- refresh_target_info page ;;
                    Ret (Some page)
                end
            end
        end
    end.
Fixpoint reattach_all (cx : BrowserContext) (infos : list json) : prog bev (list PageRef) :=
  match infos with
  | [] => Ret []
  | i :: infos => o <-- reattach_one cx i ;; ps <-- reattach_all cx infos ;; Ret (option_list o ++ ps)
  end.
Definition reattach_existing_targets (cx : BrowserContext) : run (list PageRef) :=
  infos <-! context "Target.getTargets" (want GetTargets) ;;
  restored <-- reattach_all cx (default [] (as_array infos)) ;;
  _ <-- want (PagesReplace restored) ;;
  ok restored.

(** ** The tab tools, [router/tab.rs] *)

Definition tab_tool (A : Type) : Type := prog bev (result A RouterError).
Definition nav_error (tool : string) (e : string) : RouterError := nav (tool +:+ ": " +:+ e).
Definition required (params : json) (k : string) : tab_tool string := lift (required_str params k).
Definition find_tab (tab : string) : tab_tool PageRef :=
  o <-- want (PagesGet tab) ;; lift (match o with Some p => Ok p | None => Err tab_not_found end).
Definition ok_true : json := JObj [("ok", JBool true)].

Definition tab_open (cx : BrowserContext) (params : json) : tab_tool json :=
  url <-! required params "url" ;;
  map_err (nav_error "tab.open") (lift (validate_navigable_url url)) ;;!
  wait_until <-! lift (parse_wait_until dbg_string (vget "wait_until" params)) ;;
  page <-! map_err (nav_error "tab.open") (open_tab cx url wait_until) ;;
  _ <-- refresh_target_info page ;;
  session <-- want CurrentSession ;;
  _ <-- (if session then want (AttachForwarders page) else Ret tt) ;;
  writer <-- (if session then want TraceWriter else Ret false) ;;
  _ <-- (if writer then want (AttachTraceDriver page) else Ret tt) ;;
  u <-- want (ReadUrl (cdp_session_id page)) ;;
  t <-- want (ReadTitle (cdp_session_id page)) ;;
  ok (JObj [("tab_id", JStr (tab_id page)); ("target_id", JStr (target_id page)); ("frame_id", JStr "");
            ("url", JStr u); ("title", JStr t)]).

Fixpoint list_entries (ps : list PageRef) : prog bev (list json) :=
  match ps with
  | [] => Ret []
  | p :: ps =>
      u <-- want (ReadUrl (cdp_session_id p)) ;;
      t <-- want (ReadTitle (cdp_session_id p)) ;;
      rest <-- list_entries ps ;;
      Ret (JObj [("tab_id", JStr (tab_id p)); ("url", JStr u); ("title", JStr t); ("active", JBool false)] :: rest)
  end.
Definition tab_list : tab_tool json :=
  ps <-- want PagesList ;; tabs <-- list_entries ps ;; ok (JObj [("tabs", JArr tabs)]).

Definition tab_close (params : json) : tab_tool json :=
  tab <-! required params "tab_id" ;;
  map_err (fun _ => tab_not_found) (close_tab tab) ;;!
  ok ok_true.
Definition tab_focus (params : json) : tab_tool json :=
  tab <-! required params "tab_id" ;;
  page <-! find_tab tab ;;
  map_err (fun e => internal ("Page.bringToFront: " +:+ e)) (bring_to_front page) ;;!
  ok ok_true.
Definition tab_navigate (params : json) : tab_tool json :=
  tab <-! required params "tab_id" ;;
  url <-! required params "url" ;;
  map_err (nav_error "tab.navigate") (lift (validate_navigable_url url)) ;;!
  wait_until <-! lift (parse_wait_until dbg_string (vget "wait_until" params)) ;;
  page <-! find_tab tab ;;
  map_err (nav_error "tab.navigate") (navigate page url wait_until) ;;!
  u <-- want (ReadUrl (cdp_session_id page)) ;;
  t <-- want (ReadTitle (cdp_session_id page)) ;;
  ok (JObj [("frame_id", JStr ""); ("url", JStr u); ("title", JStr t)]).

(** What the predicate of [tab.wait] asks for. *)
Inductive predicate : Type :=
| PLoad | PNetworkIdle | PSelector (sel : string) | PUrl (re : string).
Definition parse_predicate (v : option json) : result predicate RouterError :=
  match v with
  | None => Err (invalid_params "missing predicate")
  | Some v =>
      match as_str v with
      | Some s =>
          if bool_decide (s = "load") then Ok PLoad
          else if bool_decide (s = "networkidle") then Ok PNetworkIdle
          else Err (invalid_params ("unknown predicate: " +:+ s))
      | None =>
          match vget_str "selector" v, vget_str "url_regex" v with
          | Some sel, _ => Ok (PSelector sel)
          | None, Some re => Ok (PUrl re)
          | None, None => Err (invalid_params "malformed predicate")
          end
      end
  end.
(** The wait itself; [None]: still polling after [fuel] rounds. *)
Definition wait_predicate (fuel : nat) (page : PageRef) (p : predicate) (deadline : Z) :
    prog bev (option (result unit string)) :=
  let sid := cdp_session_id page in
  match p with
  | PLoad => r <-- wait_lifecycle page Load deadline ;; Ret (Some r)
  | PNetworkIdle =>
      x <-- want (Rounds sid) ;;
      let '(start, busy, rounds) := x in
      Ret (wait_for_network_idle fuel (from_millis 500) deadline start busy rounds)
  | PSelector sel =>
      x <-- want (Probes sid (selector_expr (fun s => fmt_json (JStr s)) sel)) ;;
      Ret (wait_for_selector fuel sel deadline (fst x) (snd x))
  | PUrl re =>
      match rx_new re with
      | Err e => Ret (Some (Err ("invalid url_regex: " +:+ e)))
      | Ok _ =>
          u <-- want (ReadUrl sid) ;;
          match wait_for_url re deadline u [] with
          | Ok _ => Ret (Some (Ok tt))
          | Err _ =>
              rs <-- want (NavUntil sid deadline) ;;
              Ret (Some (match wait_for_url re deadline u rs with Ok _ => Ok tt | Err e => Err e end))
          end
      end
  end.
Definition tab_wait (fuel : nat) (params : json) : prog bev (option (result json RouterError)) :=
  match required_str params "tab_id" with
  | Err e => Ret (Some (Err e))
  | Ok tab =>
      let timeout_ms := default 30000 (vget "timeout_ms" params ≫= as_u64) in
      f <-- find_tab tab ;;
      match f with
      | Err e => Ret (Some (Err e))
      | Ok page =>
          match parse_predicate (vget "predicate" params) with
          | Err e => Ret (Some (Err e))
          | Ok p =>
              r <-- wait_predicate fuel page p (from_millis timeout_ms) ;;
              match r with
              | None => Ret None
              | Some (Err e) => Ret (Some (Err (timeout e)))
              | Some (Ok _) =>
                  ms <-- want Elapsed ;;
                  Ret (Some (Ok (JObj [("ok", JBool true); ("elapsed_ms", JNum (ms mod (u64_max + 1)))])))
              end
          end
      end
  end.

End Engine.

(** ** What is seen of a call *)

Inductive seen : Type := Did (X : Type) (e : bev X) (x : X).
Definition watch (X : Type) (e : bev X) (x : X) : list seen := [Did X e x].

(** Every event a program can reach, finished or not. *)
Fixpoint every {A} (P : forall X, bev X -> Prop) (p : prog bev A) : Prop :=
  match p with Ret _ => True | Vis X e k => P X e /\ forall x, every P (k x) end.

Lemma every_bind {A B} P (p : prog bev A) (f : A -> prog bev B) :
  every P p -> (forall a, every P (f a)) -> every P (bind p f).
Proof. induction p as [a|X e k IH]; cbn; [auto|]. intros [He Hk] Hf. split; [done|]. auto. Qed.
Lemma every_bind_ok {A B Er} P (p : prog bev (result A Er)) (f : A -> prog bev (result B Er)) :
  every P p -> (forall a, every P (f a)) -> every P (bind_ok p f).
Proof. intros Hp Hf. apply every_bind; [done|]. now intros [a|e]; [apply Hf|]. Qed.
Lemma every_map_err {A Er Er'} P (g : Er -> Er') (p : prog bev (result A Er)) : every P p -> every P (map_err g p).
Proof. intros Hp. now apply every_bind. Qed.
Lemma every_ignore {A} P (p : run A) : every P p -> every P (ignore p).
Proof. intros Hp. now apply every_bind. Qed.
Lemma every_weaken {A} (P Q : forall X, bev X -> Prop) (p : prog bev A) :
  (forall X e, P X e -> Q X e) -> every P p -> every Q p.
Proof. intros PQ. induction p as [a|X e k IH]; cbn; [done|]. intros [He Hk]. split; [auto|]. intros x. now apply IH. Qed.
Lemma every_runs {A} P (p : prog bev A) tr a : every P p -> runs watch p tr a ->
  Forall (fun s => match s with Did X e _ => P X e end) tr.
Proof.
  revert tr. induction p as [b|X e k IH]; intros tr; cbn; [now intros _ [-> _]|].
  intros [He Hk] (x & t & -> & R). constructor; [done|]. now apply (IH x).
Qed.
Lemma every_embed {A} (P : forall X, bev X -> Prop) sid (p : prog ev A) :
  (forall X (e : ev X), P X (OnAct sid e)) -> every P (embed (fun X e => OnAct sid e) p).
Proof. intros H. induction p as [a|X e k IH]; cbn; [done|]. auto. Qed.

(** Walks a program down to its events. *)
Ltac every_step :=
  lazymatch goal with
  | |- every _ (bind_ok _ _) => apply every_bind_ok; [|intros ?]
  | |- every _ (bind _ _) => apply every_bind; [|intros ?]
  | |- every _ (map_err _ _) => apply every_map_err
  | |- every _ (context _ _) => apply every_map_err
  | |- every _ (ignore _) => apply every_ignore
  | |- every _ (embed _ _) => apply every_embed; intros ? ?
  | |- every _ (match ?x with _ => _ end) => destruct x eqn:?
  | |- every _ (if ?x then _ else _) => destruct x eqn:?
  | |- every _ (want _) => split; [|intros ?; exact I]
  | |- every _ (cdp_send _ _) => split; [|intros ?; exact I]
  | |- every _ (Vis _ _ _) => split; [|intros ?]
  | |- every _ _ => exact I
  end.

(** ** The URL policy *)

Definition navigable (url : string) : Prop :=
  url = "about:blank" \/
  exists scheme rest, url = scheme +:+ "://" +:+ rest /\ (to_ascii_lowercase scheme = "http" \/ to_ascii_lowercase scheme = "https").

Lemma split_colon_some s a b : split_colon s = Some (a, b) -> s = a +:+ ":" +:+ b.
Proof.
  revert a. induction s as [|c s IH]; intros a; cbn; [done|]. destruct (Ascii.eqb_spec c (Ascii.ascii_of_nat 58)) as [->|].
  - now intros [= <- <-].
  - destruct (split_colon s) as [[a' b']|]; [|done]. intros [= <- <-]. now rewrite (IH a' eq_refl) at 1.
Qed.
Lemma colon_split_at a b : split_colon a = None -> split_colon (a +:+ ":" +:+ b) = Some (a, b).
Proof.
  induction a as [|c a IH]; [done|]. change (String c a +:+ ":" +:+ b) with (String c (a +:+ ":" +:+ b)).
  cbn [split_colon]. destruct (Ascii.eqb c (Ascii.ascii_of_nat 58)); [done|].
  destruct (split_colon a) as [[]|]; [done|]. intros _. now rewrite IH.
Qed.
Lemma prefix_slashes s : starts_slashes s = true <-> exists rest, s = "//" +:+ rest.
Proof.
  split; [|now intros [rest ->]]. destruct s as [|c [|d s]]; cbn; [done..|].
  destruct (Ascii.eqb_spec c (Ascii.ascii_of_nat 47)) as [->|]; [|done].
  destruct (Ascii.eqb_spec d (Ascii.ascii_of_nat 47)) as [->|]; [|done]. now exists s.
Qed.
Lemma lowercase_cons c s : exists d, to_ascii_lowercase (String c s) = String d (to_ascii_lowercase s).
Proof. eexists. reflexivity. Qed.
Lemma lowercase_no_colon s t : to_ascii_lowercase s = t -> split_colon t = None -> split_colon s = None.
Proof.
  intros <- H. destruct (split_colon s) as [[a b]|] eqn:E; [|done]. apply split_colon_some in E. subst s.
  exfalso. induction a as [|c a IH]; [done|]. change (String c a +:+ ":" +:+ b) with (String c (a +:+ ":" +:+ b)) in H.
  destruct (lowercase_cons c (a +:+ ":" +:+ b)) as [d E]. rewrite E in H. cbn [split_colon] in H.
  destruct (Ascii.eqb d (Ascii.ascii_of_nat 58)); [done|].
  destruct (split_colon (to_ascii_lowercase _)) as [[]|]; [done|]. now apply IH.
Qed.

(** Which URLs pass. *)
Lemma validate_navigable url : validate_navigable_url url = Ok tt <-> navigable url.
Proof.
  unfold validate_navigable_url, navigable. case_bool_decide as Hb; [tauto|]. split.
  - destruct (split_colon url) as [[s r]|] eqn:E; [|done]. apply split_colon_some in E.
    destruct (bool_decide (to_ascii_lowercase s = "http") || bool_decide (to_ascii_lowercase s = "https")) eqn:Es;
      [|repeat case_match; done].
    destruct (starts_slashes r) eqn:Ep; [|done]. apply prefix_slashes in Ep as [rest ->]. intros _. right.
    exists s, rest. split; [done|]. apply orb_true_iff in Es as [H|H]; apply bool_decide_eq_true in H; auto.
  - intros [?|(s & rest & -> & Hs)]; [done|]. change (s +:+ "://" +:+ rest) with (s +:+ ":" +:+ ("//" +:+ rest)).
    rewrite colon_split_at by (destruct Hs as [Hs|Hs]; apply (lowercase_no_colon _ _ Hs); reflexivity).
    destruct Hs as [-> | ->]; reflexivity.
Qed.

Section TabFacts.
Context `{Scr : Scripts} `{Env : PageEnv} `{WTxt : WaitText}.

(** The calls that reach the browser's tabs. *)
Inductive call : Type :=
| COpen (cx : BrowserContext) (params : json) | CList | CClose (params : json) | CFocus (params : json)
| CNavigate (params : json) | CWait (fuel : nat) (params : json) | CReattach (cx : BrowserContext).
Definition perform_call (c : call) : prog bev unit :=
  match c with
  | COpen cx params => bind (tab_open cx params) (fun _ => Ret tt)
  | CList => bind tab_list (fun _ => Ret tt)
  | CClose params => bind (tab_close params) (fun _ => Ret tt)
  | CFocus params => bind (tab_focus params) (fun _ => Ret tt)
  | CNavigate params => bind (tab_navigate params) (fun _ => Ret tt)
  | CWait fuel params => bind (tab_wait fuel params) (fun _ => Ret tt)
  | CReattach cx => bind (reattach_existing_targets cx) (fun _ => Ret tt)
  end.

(** The URL an event makes the browser load. *)
Definition loads {X} (e : bev X) : option string :=
  match e with CreateTarget url _ _ => Some url | OnPage _ (Navigate url) => Some url | _ => None end.
Definition policy (X : Type) (e : bev X) : Prop := forall url, loads e = Some url -> navigable url.

Lemma bootstrap_policy t s : every policy (bootstrap t s).
Proof. unfold bootstrap, unwrap_panic, install_observer. repeat every_step; intros ? [=]. Qed.
Lemma refresh_policy p : every policy (refresh_target_info p).
Proof. unfold refresh_target_info. repeat every_step; intros ? [=]. Qed.
Lemma wait_policy p u d : every policy (wait_lifecycle p u d).
Proof. unfold wait_lifecycle. repeat every_step; intros ? [=]. Qed.
Lemma open_tab_policy cx url u : every policy (open_tab cx url u).
Proof.
  unfold open_tab, as_id, bind_ok at 1, lift. cbn [bind]. destruct (validate_navigable_url url) as [[]|] eqn:E; [|done].
  apply validate_navigable in E.
  repeat first [apply bootstrap_policy|apply wait_policy|every_step]; try solve [intros ? [=]].
  now intros ? [= <-].
Qed.
Lemma navigate_policy p url u : every policy (navigate p url u).
Proof.
  unfold navigate, bind_ok at 1, lift. cbn [bind]. destruct (validate_navigable_url url) as [[]|] eqn:E; [|done].
  apply validate_navigable in E.
  repeat first [apply refresh_policy|apply wait_policy|every_step]; try solve [intros ? [=]].
  now intros ? [= <-].
Qed.

(** C16: whatever the arguments and the browser's answers, a tab call makes the
    browser load only [about:blank] and absolute http and https URLs: no file,
    script, data, extension or browser page. *)
Theorem only_navigable_urls c tr r : runs watch (perform_call c) tr r ->
  forall X (e : bev X) x url, Did X e x ∈ tr -> loads e = Some url -> navigable url.
Proof.
  intros R. assert (every policy (perform_call c)) as H.
  - destruct c; cbn [perform_call]; apply every_bind; try (intros; exact I);
      unfold tab_open, tab_list, tab_close, close_tab, close, tab_focus, bring_to_front, tab_navigate, tab_wait, wait_predicate,
        reattach_existing_targets, find_tab, required.
    all: repeat first [apply open_tab_policy|apply navigate_policy|apply refresh_policy|apply wait_policy|every_step];
      try solve [intros ? [=]].
    + induction a as [|p ps IH]; cbn [list_entries]; [exact I|]. repeat first [exact IH|every_step]; intros ? [=].
    + induction (default [] _) as [|i l IH]; cbn [reattach_all]; [exact I|]. apply every_bind; [|intros; repeat first [exact IH|every_step]].
      unfold reattach_one. repeat first [apply bootstrap_policy|apply refresh_policy|every_step]; intros ? [=].
  - intros X e x url Hin. apply (every_runs _ _ _ _ H) in R. rewrite Forall_forall in R. now apply (R (Did X e x)).
Qed.

(** ** The registry *)

Definition insert_page (m : gmap string PageRef) (p : PageRef) : gmap string PageRef := <[tab_id p := p]> m.
(** The registry after what was seen. *)
Definition registry_step (m : gmap string PageRef) (s : seen) : gmap string PageRef :=
  match s with
  | Did _ e _ =>
      match e with
      | PagesInsert p => insert_page m p
      | PagesRemove t => delete t m
      | PagesReplace l => foldl insert_page ∅ l
      | _ => m
      end
  end.
Definition registry (m : gmap string PageRef) (tr : list seen) : gmap string PageRef := foldl registry_step m tr.

(** Neither writes the registry nor closes a target. *)
Definition quiet (X : Type) (e : bev X) : Prop :=
  match e with PagesInsert _ | PagesRemove _ | PagesReplace _ | CloseTarget _ => False | _ => True end.
Definition hushed (tr : list seen) : Prop := Forall (fun s => match s with Did X e _ => quiet X e end) tr.

Lemma hushed_registry m tr : hushed tr -> registry m tr = m.
Proof.
  unfold registry, hushed. induction 1 as [|[X e x] tr He _ IH]; [done|]. cbn [foldl]. rewrite <- IH at 2. f_equal.
  destruct e; done.
Qed.
Lemma bootstrap_quiet t s : every quiet (bootstrap t s).
Proof. unfold bootstrap, unwrap_panic, install_observer. repeat every_step; exact I. Qed.
Lemma refresh_quiet p : every quiet (refresh_target_info p).
Proof. unfold refresh_target_info. repeat every_step; exact I. Qed.
Lemma wait_quiet p u d : every quiet (wait_lifecycle p u d).
Proof. unfold wait_lifecycle. repeat every_step; exact I. Qed.

(** A call that says nothing until, if it succeeds, it registers its page. *)
Definition registers (p : run PageRef) : Prop :=
  post watch p (fun tr r =>
    match r with
    | Err _ => hushed tr
    | Ok page => exists tr' x, tr = tr' ++ [Did _ (PagesInsert page) x] /\ hushed tr'
    end).
Lemma registers_step {A} (p : run A) f : every quiet p -> (forall a, registers (f a)) -> registers (bind_ok p f).
Proof.
  intros Hp Hf tr r R. apply runs_bind in R as (t1 & t2 & [a|e] & -> & R1 & R2); apply (every_runs _ _ _ _ Hp) in R1.
  - apply Hf in R2. destruct r as [page|e]; [|apply Forall_app; split; [exact R1|exact R2]]. destruct R2 as (t' & x & -> & H). exists (t1 ++ t'), x.
    rewrite (assoc_L (++)). split; [done|]. apply Forall_app. split; [exact R1|exact H].
  - destruct R2 as [-> ->]. rewrite app_nil_r. exact R1.
Qed.
Lemma open_tab_registers cx url u : registers (open_tab cx url u).
Proof.
  unfold open_tab, as_id. repeat (apply registers_step; [repeat first [apply bootstrap_quiet|apply wait_quiet|every_step]; exact I|intros ?]).
  intros tr r ([] & t & -> & -> & ->). exists [], tt. split; [done|constructor].
Qed.

(** C40: opening a tab registers it under its id when it succeeds and not
    otherwise, and it never closes what it has created: when attaching, the set
    up of the page or the wait fails after the browser has made the target, the
    target stays open and no tab id leads to it. *)
Theorem open_tab_registry cx url u m tr r : runs watch (open_tab cx url u) tr r ->
  registry m tr = match r with Ok p => <[tab_id p := p]> m | Err _ => m end /\
  forall t x, Did _ (CloseTarget t) x ∉ tr.
Proof.
  intros R. apply open_tab_registers in R. destruct r as [p|e].
  - destruct R as (t' & x & -> & H). split.
    + unfold registry. rewrite foldl_app. cbn [foldl registry_step]. fold (registry m t'). now rewrite hushed_registry.
    + intros t y Hin. apply elem_of_app in Hin as [Hin|Hin]; [|apply list_elem_of_singleton in Hin; discriminate].
      unfold hushed in H. rewrite Forall_forall in H. now apply H in Hin.
  - split; [now apply hushed_registry|]. intros t y Hin. unfold hushed in R. rewrite Forall_forall in R. now apply R in Hin.
Qed.

(** ** After a crash *)

(** The page targets a list of infos names. *)
Definition page_target (info : json) : option string :=
  if bool_decide (default "" (vget_str "type" info) = "page") then vget_str "targetId" info else None.

Lemma bootstrap_target t s tr p : runs watch (bootstrap t s) tr (Ok p) -> target_id p = t /\ from_target t = Some (tab_id p).
Proof.
  intros R. unfold bootstrap in R. apply runs_bind in R as (t1 & t2 & tab & -> & R1 & R).
  assert (from_target t = Some tab) as E.
  { destruct (from_target t); cbn in R1; [destruct R1 as [_ ->]; done|destruct R1 as ([] & _)]. }
  cbv zeta in R.
  enough (target_id p = t /\ tab_id p = tab) as [-> ->] by done.
  repeat match type of R with
         | runs _ (bind_ok _ _) _ _ =>
             apply runs_bind in R as (? & ? & [?|?] & _ & _ & R); [|destruct R as [_ R]; discriminate]
         | runs _ (bind _ _) _ _ => apply runs_bind in R as (? & ? & ? & _ & _ & R)
         end.
  now destruct R as [_ [= ->]].
Qed.
Lemma reattach_one_spec cx i tr o : runs watch (reattach_one cx i) tr o ->
  hushed tr /\ forall p, o = Some p -> page_target i = Some (target_id p) /\ from_target (target_id p) = Some (tab_id p).
Proof.
  intros R. split.
  - refine (every_runs quiet _ _ _ _ R). unfold reattach_one.
    repeat first [exact I|apply bootstrap_quiet|apply refresh_quiet|every_step].
  - intros p ->. unfold reattach_one, page_target in *. case_bool_decide; cbn [negb] in R; [|now destruct R].
    destruct (vget_str "targetId" i) as [target|]; [|now destruct R]. apply runs_bind in R as (? & ? & a & _ & _ & R).
    destruct a as [v|]; [|now destruct R]. destruct (as_str v) as [session|]; [|now destruct R].
    apply runs_bind in R as (? & ? & b & _ & Rb & R). destruct b as [page|]; [|now destruct R].
    apply runs_bind in R as (? & ? & ? & _ & _ & R). apply runs_bind in R as (? & ? & ? & _ & _ & R).
    destruct R as [_ [= ->]]. apply bootstrap_target in Rb as [<- E]. auto.
Qed.
Lemma reattach_all_spec cx infos tr ps : runs watch (reattach_all cx infos) tr ps ->
  hushed tr /\ map target_id ps `sublist_of` omap page_target infos /\
  Forall (fun p => from_target (target_id p) = Some (tab_id p)) ps.
Proof.
  revert tr ps. induction infos as [|i infos IH]; intros tr ps R; cbn [reattach_all] in R.
  - destruct R as [-> ->]. split; [constructor|]. split; constructor.
  - apply runs_bind in R as (t1 & t2 & o & -> & R1 & R). apply runs_bind in R as (t3 & t4 & ps' & -> & R2 & [-> ->]).
    apply reattach_one_spec in R1 as [H1 Ho]. apply IH in R2 as (H2 & Hs & Hf). rewrite app_nil_r.
    split; [now apply Forall_app|]. destruct o as [p|]; cbn [option_list app map].
    + destruct (Ho p eq_refl) as [E Et]. cbn [omap list_omap]. rewrite E. split; [now constructor|]. now constructor.
    + split; [|done]. cbn [omap list_omap]. destruct (page_target i); [now constructor|done].
Qed.

(** after a crash the registry holds exactly the pages that were
    reattached, under their ids, and nothing of what it held before; they are,
    in order, some of the page targets the browser listed; when the list cannot
    be had the registry is unchanged. *)
Theorem reattach_replaces cx m tr r : runs watch (reattach_existing_targets cx) tr r ->
  match r with
  | Err _ => registry m tr = m
  | Ok restored =>
      registry m tr = foldl insert_page ∅ restored /\
      (forall t p, registry m tr !! t = Some p -> p ∈ restored /\ t = tab_id p) /\
      Forall (fun p => from_target (target_id p) = Some (tab_id p)) restored /\
      exists infos, Did _ GetTargets (Ok infos) ∈ tr /\
        map target_id restored `sublist_of` omap page_target (default [] (as_array infos))
  end.
Proof.
  intros R. apply runs_bind in R as (t1 & t2 & a & -> & R1 & R).
  apply runs_bind in R1 as (t3 & t4 & x & -> & R1 & [-> ->]). destruct R1 as (y & ? & -> & -> & ->).
  destruct y as [infos|e]; [|now destruct R as [-> ->]].
  apply runs_bind in R as (t5 & t6 & ps & -> & R2 & R). destruct R as ([] & t & -> & -> & ->).
  apply reattach_all_spec in R2 as (Hq & Hs & Hf).
  assert (registry m ((([Did _ GetTargets (Ok infos)] ++ []) ++ []) ++ t5 ++ [Did _ (PagesReplace ps) tt]) = foldl insert_page ∅ ps)
    as E by (unfold registry; now rewrite !foldl_app).
  split; [exact E|]. split; [|split; [done|]].
  - intros t p Hl. assert (foldl insert_page ∅ ps !! t = Some p) as Hl' by (rewrite <- E; exact Hl).
    revert Hl'. clear. revert t p. induction ps as [|q ps IH] using rev_ind; intros t p; [done|].
    rewrite foldl_snoc. unfold insert_page at 1. rewrite lookup_insert_Some.
    intros [[<- <-]|[_ H]]; [split; [set_solver|done]|]. apply IH in H as [? ->]. split; [set_solver|done].
  - exists infos. split; [set_solver|done].
Qed.

(** ** Waiting for a page *)

Lemma wait_for_lifecycle_ok u target d rs : lifecycle_target u = Some target ->
  wait_for_lifecycle u d rs = Ok tt <->
  exists pre ev rest, rs = map Got pre ++ Got ev :: rest /\ lc_name ev = target /\ Forall (fun e => lc_name e <> target) pre.
Proof.
  intros E. unfold wait_for_lifecycle. rewrite E.
  set (acc := fun ev : LifecycleEvent => if bool_decide (lc_name ev = target) then Some tt else None).
  assert (forall ev, acc ev = Some tt <-> lc_name ev = target) as Ha by (intros; unfold acc; case_bool_decide; naive_solver).
  assert (forall ev, acc ev = None <-> lc_name ev <> target) as Hn by (intros; unfold acc; case_bool_decide; naive_solver).
  transitivity (recv_until "lifecycle" acc rs = Some (Ok tt)); [destruct (recv_until _ _ _) as [[[]|]|]; naive_solver|].
  rewrite recv_until_ok. split; intros (pre & ev & rest & -> & H1 & H2); exists pre, ev, rest;
    (split; [done|]; split; [now apply Ha|]); eapply Forall_impl; [exact H2| |exact H2|]; cbn; intros; now apply Hn.
Qed.

(** a navigation with a wait succeeds only by a lifecycle event of the
    awaited name that was broadcast after the browser's reply to the
    navigation: the receiver is made then, and an event that came before is
    never seen, so the wait for a page that was already loaded ends in an
    error. *)
Theorem navigate_counts_later_events p url u target tr r :
  runs watch (navigate p url u) tr r -> navigable url -> lifecycle_target u = Some target ->
  r = Err "Page.navigate" \/
  exists rs after,
    tr = Did _ (OnPage (cdp_session_id p) (Navigate url)) (Ok tt) :: Did _ (LifecycleUntil (cdp_session_id p) (from_secs 30)) rs :: after /\
    (r = Ok tt <->
     exists pre ev rest, rs = map Got pre ++ Got ev :: rest /\ lc_name ev = target /\ Forall (fun e => lc_name e <> target) pre) /\
    forall sent, delivers sent rs -> (forall ev, ev ∈ sent -> lc_name ev <> target) -> exists e, r = Err e.
Proof.
  intros R Hn Hu. apply validate_navigable in Hn. unfold navigate in R. rewrite Hn in R.
  change (bind_ok (lift (Ok tt)) ?f) with (f tt) in R. cbv beta in R.
  apply runs_bind in R as (t1 & t2 & a & -> & R1 & R). apply runs_bind in R1 as (t3 & t4 & x & -> & R1 & [-> ->]).
  destruct R1 as (y & ? & -> & -> & ->). destruct y as [[]|e]; [|left; now destruct R as [_ ->]]. right.
  apply runs_bind in R as (t5 & t6 & b & -> & R2 & R).
  assert (exists rs, t5 = [Did _ (LifecycleUntil (cdp_session_id p) (from_secs 30)) rs] /\
                     b = wait_for_lifecycle u (from_secs 30) rs) as (rs & -> & ->)
    by (destruct u; [done|..]; destruct R2 as (rs & ? & -> & -> & ->); now exists rs).
  exists rs, t6. split; [done|].
  assert (r = Ok tt <-> wait_for_lifecycle u (from_secs 30) rs = Ok tt) as E.
  { destruct (wait_for_lifecycle u (from_secs 30) rs) as [[]|e]; [|destruct R as [_ ->]; naive_solver].
    unfold ignore in R. apply runs_bind in R as (? & ? & ? & _ & _ & [_ ->]). done. }
  split; [now rewrite E, (wait_for_lifecycle_ok u target)|]. intros sent D Hs. destruct r as [[]|e]; [exfalso|eauto].
  apply proj1 in E. specialize (E eq_refl). apply (wait_for_lifecycle_ok u target) in E as (pre & ev & rest & -> & Ht & _); [|done].
  apply delivers_prefix in D as [later ->]. apply (Hs ev); [set_solver|done].
Qed.

(** ** Seeds *)

Definition seed_at (n : nat) : Z := fst (default_seed (Nat.iter n (fun c => snd (default_seed c)) SEED_START)).
Lemma seed_at_closed n : seed_at n = (SEED_START + Z.of_nat n * 0x9E3779B97F4A7C15) mod 2 ^ 64.
Proof.
  unfold seed_at. set (f := fun c => snd (default_seed c)). change (fst (default_seed ?c)) with c.
  induction n as [|n IH]; [reflexivity|]. change (Nat.iter (S n) f SEED_START) with (f (Nat.iter n f SEED_START)). rewrite IH.
  unfold f. cbn [snd default_seed].
  unfold wrap_add, u64_max. change (2 ^ 64 - 1 + 1) with (2 ^ 64). rewrite Zplus_mod_idemp_l. f_equal. lia.
Qed.
(** Two contexts of a process never share a seed: a context made after a crash
    has another one than the context it replaces. *)
Lemma seeds_distinct i j : (i < j)%nat -> Z.of_nat j < 2 ^ 64 -> seed_at i <> seed_at j.
Proof.
  intros Hij Hj. rewrite !seed_at_closed. intros E. apply (Z.cong_iff_0 _ _ _) in E.
  replace (_ - _) with (- ((Z.of_nat j - Z.of_nat i) * 0x9E3779B97F4A7C15)) in E by lia.
  apply Z.mod_divide in E; [|done]. rewrite Z.divide_opp_r in E. rewrite Z.mul_comm in E.
  apply Z.gauss in E; [|reflexivity]. apply Z.divide_pos_le in E; lia.
Qed.

End TabFacts.

(** An execution against given answers; [None]: an event is not answered, as a panic. *)
Fixpoint play {A} (answer : forall X, bev X -> option X) (p : prog bev A) : option (list seen * A) :=
  match p with
  | Ret a => Some ([], a)
  | Vis X e k =>
      match answer X e with
      | Some x => match play answer (k x) with Some (tr, a) => Some (Did X e x :: tr, a) | None => None end
      | None => None
      end
  end.
Lemma play_runs {A} answer (p : prog bev A) tr a : play answer p = Some (tr, a) -> runs watch p tr a.
Proof.
  revert tr. induction p as [b|X e k IH]; intros tr; cbn; [now intros [= <- <-]|].
  destruct (answer X e) as [x|]; [|done]. destruct (play answer (k x)) as [[t b]|] eqn:E; [|done].
  intros [= <- <-]. exists x, t. split; [done|]. now apply IH.
Qed.

End Tabs.

Module TabsExamples.
Import Tabs.

#[local] Instance scripts : Scripts := { observer_script := "observe"; stealth_script _ := "stealth"; debug_json _ := "v" }.
#[local] Instance penv : PageEnv := {
  powi x n := x; Actions.sin x := x; Actions.cos x := x; dbg s := s; fmt_f64 _ := "1"; fmt_json _ := "j"; b64_decode _ := Ok [];
  json_strings _ := Ok "[]"; menu_script _ := ""
}.
#[local] Instance wtext : WaitText := {
  dbg_duration _ := "d"; dbg_string s := s; closed_text := "channel closed"; lagged_text _ := "channel lagged";
  Rx := string; rx_new p := if bool_decide (p = "(") then Err "unclosed group" else Ok p; rx_match p u := bool_decide (p = u)
}.

Definition target : string := "ABCDEFGH1234".
Definition page1 : PageRef := mkRef "t_ABCDEFGH" target "s1".
Definition info (t u : string) : json := JObj [("type", JStr "page"); ("targetId", JStr t); ("url", JStr u); ("title", JStr "T")].
(** A browser where all goes well; [rs]: what a lifecycle receiver gets. *)
Definition good (rs : list (received LifecycleEvent)) (X : Type) (e : bev X) : option X :=
  match e in bev X return option X with
  | CreateTarget _ _ _ => Some (Ok (JStr target))
  | AttachToTarget _ _ => Some (Ok (JStr "s1"))
  | GetTargetInfo t => Some (Ok (info t "https://a/"))
  | GetTargets => Some (Ok (JArr [JObj [("type", JStr "worker")]; info target "https://a/"; info "ABCDEFGH9999" "https://b/"]))
  | CloseTarget _ => Some (Ok tt)
  | OnPage _ _ => Some (Ok tt)
  | SpawnPump _ => Some tt
  | LifecycleUntil _ _ => Some rs
  | ReadUrl _ => Some "https://a/"
  | ReadTitle _ => Some "T"
  | StoreUrl _ _ | StoreTitle _ _ => Some tt
  | HasProxyAuth => Some true
  | SessionStorageSeed => Some None
  | PagesInsert _ => Some tt
  | PagesRemove t => Some (if bool_decide (t = "t_ABCDEFGH") then Some page1 else None)
  | PagesGet t => Some (if bool_decide (t = "t_ABCDEFGH") then Some page1 else None)
  | PagesList => Some [page1]
  | PagesReplace _ => Some tt
  | CurrentSession | TraceWriter => Some true
  | AttachForwarders _ | AttachTraceDriver _ => Some tt
  | Elapsed => Some 12
  | _ => None
  end.
Definition loaded : LifecycleEvent := mkLifecycle "f" "load" f64_zero.
Definition cx1 : BrowserContext := fst (new_default SEED_START).
Definition trace_of {A} (o : option (list seen * A)) : list seen := match o with Some (tr, _) => tr | None => [] end.
Definition value_of {A} (o : option (list seen * A)) : option A := match o with Some (_, a) => Some a | None => None end.

Example tab_open_run :
  value_of (play (good [Got loaded]) (tab_open cx1 (JObj [("url", JStr "https://a/"); ("wait_until", JStr "load")]))) =
  Some (Ok (JObj [("tab_id", JStr "t_ABCDEFGH"); ("target_id", JStr target); ("frame_id", JStr "");
                  ("url", JStr "https://a/"); ("title", JStr "T")])).
Proof. vm_compute. reflexivity. Qed.

(** URLs that are refused, and what is answered. *)
Example refused :
  map validate_navigable_url ["HTTPS://a/"; "about:blank"; "file:///etc/passwd"; "javascript:1"; "a/b"; "http:a"; "about:config"; "ftp://a"] =
  [Ok tt; Ok tt; Err "unsafe navigation URL scheme: file"; Err "unsafe navigation URL scheme: javascript";
   Err "navigation URL must include an explicit scheme"; Err "navigation URL must use an absolute http:// URL";
   Err "only about:blank is allowed for navigation"; Err "unsupported navigation URL scheme: ftp"].
Proof. vm_compute. reflexivity. Qed.

Definition open_call : call := COpen cx1 (JObj [("url", JStr "https://a/")]).
Lemma only_navigable_urls_witness :
  value_of (play (good []) (perform_call open_call)) = Some tt /\ navigable "https://a/".
Proof.
  split; [vm_compute; reflexivity|].
  apply (only_navigable_urls open_call (trace_of (play (good []) (perform_call open_call))) tt) with
    (X := result json string) (e := CreateTarget "https://a/" false true) (x := Ok (JStr target)).
  - apply (play_runs (good [])). vm_compute. reflexivity.
  - vm_compute. constructor.
  - reflexivity.
Defined.

(** The load event came while the page was set up, before the receiver was made. *)
Definition opened_late := play (good []) (open_tab cx1 "https://a/" Load).
Lemma open_tab_registry_witness :
  value_of opened_late = Some (Err "timed out waiting for lifecycle load after d") /\
  registry ∅ (trace_of opened_late) = ∅ /\ forall t x, Did _ (CloseTarget t) x ∉ trace_of opened_late.
Proof.
  split; [vm_compute; reflexivity|].
  apply (open_tab_registry cx1 "https://a/" Load ∅ (trace_of opened_late) (Err "timed out waiting for lifecycle load after d")).
  apply (play_runs (good [])). vm_compute. reflexivity.
Defined.

Definition reattached := play (good []) (reattach_existing_targets cx1).
Lemma reattach_replaces_witness :
  registry {[ "old" := page1 ]} (trace_of reattached) = foldl insert_page ∅ [page1; mkRef "t_ABCDEFGH" "ABCDEFGH9999" "s1"] /\
  (forall t p, registry {[ "old" := page1 ]} (trace_of reattached) !! t = Some p ->
     p ∈ [page1; mkRef "t_ABCDEFGH" "ABCDEFGH9999" "s1"] /\ t = tab_id p) /\
  Forall (fun p => from_target (target_id p) = Some (tab_id p)) [page1; mkRef "t_ABCDEFGH" "ABCDEFGH9999" "s1"] /\
  exists infos, Did _ GetTargets (Ok infos) ∈ trace_of reattached /\
    map target_id [page1; mkRef "t_ABCDEFGH" "ABCDEFGH9999" "s1"] `sublist_of` omap page_target (default [] (as_array infos)).
Proof.
  apply (reattach_replaces cx1 {[ "old" := page1 ]} (trace_of reattached) (Ok [page1; mkRef "t_ABCDEFGH" "ABCDEFGH9999" "s1"])).
  apply (play_runs (good [])). vm_compute. reflexivity.
Defined.

(** Targets that agree in their first eight bytes share an id: the first is lost. *)
Example ids_collide :
  (value_of reattached ≫= (fun r => match r with Ok l => Some (length l) | Err _ => None end)) = Some 2%nat /\
  map snd (map_to_list (registry ∅ (trace_of reattached))) = [mkRef "t_ABCDEFGH" "ABCDEFGH9999" "s1"].
Proof. vm_compute. done. Qed.

Definition went := play (good [Got loaded]) (navigate page1 "https://a/" Load).
Lemma navigate_counts_later_events_witness :
  Ok tt = Err "Page.navigate" :> result unit string \/
  exists rs after,
    trace_of went = Did _ (OnPage "s1" (Navigate "https://a/")) (Ok tt) :: Did _ (LifecycleUntil "s1" (from_secs 30)) rs :: after /\
    (Ok tt = Ok tt :> result unit string <->
     exists pre ev rest, rs = map Got pre ++ Got ev :: rest /\ lc_name ev = "load" /\ Forall (fun e => lc_name e <> "load") pre) /\
    forall sent, delivers sent rs -> (forall ev, ev ∈ sent -> lc_name ev <> "load") -> exists e : string, Ok tt = Err e.
Proof.
  apply (navigate_counts_later_events page1 "https://a/" Load "load" (trace_of went) (Ok tt)).
  - apply (play_runs (good [Got loaded])). vm_compute. reflexivity.
  - right. exists "https", "a/". split; [reflexivity|]. right. reflexivity.
  - reflexivity.
Defined.

(** A wait asked with a pattern that does not compile is reported as a timeout. *)
Example bad_pattern_is_timeout :
  value_of (play (good []) (tab_wait 5 (JObj [("tab_id", JStr "t_ABCDEFGH"); ("predicate", JObj [("url_regex", JStr "(")])]))) =
  Some (Some (Err (timeout "invalid url_regex: unclosed group"))).
Proof. vm_compute. reflexivity. Qed.
(** A load event of any frame ends the wait: frame ids are not compared. *)
Example other_frame_counts :
  wait_for_lifecycle Load 0 [Got (mkLifecycle "ad frame" "load" f64_zero)] = Ok tt.
Proof. reflexivity. Qed.
(** A target id whose eighth byte is inside a character. *)
Example split_character :
  from_target (String.string_of_list_byte (repeat (byte_of_Z 97) 7 ++ [byte_of_Z 195; byte_of_Z 169])) = None /\ from_target "abc" = Some "t_abc".
Proof. split; vm_compute; reflexivity. Qed.

End TabsExamples.
