(* ===== verification/PageTools.v ===== *)
(** * PageTools: the page tools of the broker

    Models [broker/src/router/page.rs] (snapshots, pointer, touch and keyboard
    tools, scripts, cookies, storage, permissions, databases, caches and
    emulation) with [browser-engine/src/cookies.rs] and [emulate.rs].  A tool is
    a program over the events of [Actions] on the page it has located and the
    questions it asks of the session, the browser and the file system. *)
From S2P Require Import Prelude Json Text F64 AxMerge Input Actions BrokerSession Wire Router.
From Stdlib Require Import SpecFloat.
Import JsonTree Input Prog AxMerge Actions Wire Router.

(** ** Cookies, [browser-engine/src/cookies.rs] *)
Module Cookies.

Record Cookie := mkCookie {
  c_name : string; c_value : string; c_domain : string; c_path : string; c_expires : f64; c_size : Z; c_http_only : bool;
  c_secure : bool; c_session : bool; c_same_site : option string
}.
Record CookiePartitionKey := mkPartition { top_level_site : string; has_cross_site_ancestor : bool }.
Record DeepSetCookie := mkDeep {
  d_name : string; d_value : string; d_url : option string; d_domain : option string; d_path : option string;
  d_secure : option bool; d_http_only : option bool; d_same_site : option string; d_expires : option f64;
  d_priority : option string; d_source_scheme : option string; d_source_port : option Z;
  d_partition_key : option CookiePartitionKey
}.
(** [v[key] = json!(x)] when [x] is present. *)
Definition field {A} (k : string) (f : A -> json) (o : option A) : list (string * json) :=
  match o with Some x => [(k, f x)] | None => [] end.
Definition to_cdp_set_cookie_param (c : DeepSetCookie) : json :=
  JObj ([("name", JStr (d_name c)); ("value", JStr (d_value c))]
        ++ field "url" JStr (d_url c) ++ field "domain" JStr (d_domain c) ++ field "path" JStr (d_path c)
        ++ field "secure" JBool (d_secure c) ++ field "httpOnly" JBool (d_http_only c) ++ field "sameSite" JStr (d_same_site c)
        ++ field "expires" jfloat (d_expires c) ++ field "priority" JStr (d_priority c)
        ++ field "sourceScheme" JStr (d_source_scheme c) ++ field "sourcePort" JNum (d_source_port c)
        ++ field "partitionKey" (fun p => JObj [("topLevelSite", JStr (top_level_site p));
                                                ("hasCrossSiteAncestor", JBool (has_cross_site_ancestor p))]) (d_partition_key c)).

Definition from_cdp (v : json) : Cookie :=
  mkCookie (default "" (vget_str "name" v)) (default "" (vget_str "value" v)) (default "" (vget_str "domain" v))
    (default "" (vget_str "path" v)) (default (f64_of_Z (-1)) (vget "expires" v ≫= as_f64)) (default 0 (vget "size" v ≫= as_u64))
    (default false (vget "httpOnly" v ≫= as_bool)) (default false (vget "secure" v ≫= as_bool))
    (default true (vget "session" v ≫= as_bool)) (vget_str "sameSite" v).
Definition to_cdp_param (c : Cookie) : json :=
  JObj ([("name", JStr (c_name c)); ("value", JStr (c_value c)); ("domain", JStr (c_domain c)); ("path", JStr (c_path c));
         ("secure", JBool (c_secure c)); ("httpOnly", JBool (c_http_only c))]
        ++ (if f64_le f64_zero (c_expires c) then [("expires", jfloat (c_expires c))] else [])
        ++ field "sameSite" JStr (c_same_site c)).
Definition from_cdp_list (l : list json) : list Cookie := map from_cdp l.
(** The serialized form. *)
Definition cookie_value (c : Cookie) : json :=
  JObj ([("name", JStr (c_name c)); ("value", JStr (c_value c)); ("domain", JStr (c_domain c)); ("path", JStr (c_path c));
         ("expires", jfloat (c_expires c)); ("size", JNum (c_size c)); ("http_only", JBool (c_http_only c));
         ("secure", JBool (c_secure c)); ("session", JBool (c_session c))]
        ++ field "same_site" JStr (c_same_site c)).

End Cookies.

(** ** Emulation, [browser-engine/src/emulate.rs] *)
Module Emulate.

Record NetworkConditions := mkConditions { offline : bool; latency_ms : f64; download_bps : f64; upload_bps : f64 }.
Record EmulateOptions := mkEmulate { locale : option string; timezone : option string; cpu_throttle : option f64 }.
Definition set_network_conditions (c : NetworkConditions) : act unit :=
  send (EmulateNetworkConditions (offline c) (latency_ms c) (download_bps c) (upload_bps c)).
Definition emulate (o : EmulateOptions) : act unit :=
  match locale o with Some l => send (SetLocaleOverride (Some l)) | None => ok tt end ;;!
  match timezone o with Some t => send (SetTimezoneOverride t) | None => ok tt end ;;!
  match cpu_throttle o with Some r => send (SetCpuThrottlingRate r) | None => ok tt end.
Definition unthrottled_network_conditions : NetworkConditions :=
  mkConditions false f64_zero (f64_of_Z (-1)) (f64_of_Z (-1)).
Definition parse_emulate_options (params : json) : EmulateOptions :=
  mkEmulate (vget_str "locale" params) (vget_str "timezone" params) (vget "cpu_throttle" params ≫= as_f64).
Definition parse_network_conditions (params : json) : NetworkConditions :=
  mkConditions (default false (vget "offline" params ≫= as_bool)) (default f64_zero (vget "latency_ms" params ≫= as_f64))
    (default (f64_of_Z (-1)) (vget "download_bps" params ≫= as_f64)) (default (f64_of_Z (-1)) (vget "upload_bps" params ≫= as_f64)).

End Emulate.

Module PageTools.

(** ** Events *)

(** What a tool sees of a snapshot. *)
Record Snap := mkSnap { sn_seq : Z; sn_url : string; sn_elements : list PageElement }.

Inductive tev : Type -> Type :=
| OnPage {X} (e : ev X) : tev X                          (* an action on the located page *)
| GetTab (tab_id : string) : tev bool                    (* the default context has the tab *)
| SnapshotSeq : tev Z                                    (* [current_snapshot_seq] *)
| TakeSnapshot : tev (result Snap string)                (* [page.snapshot] *)
| SnapshotValue (since : option Z) : tev (result json string)  (* [snapshot] or [snapshot_delta_since], as a value *)
| DefaultRealistic : tev bool
| PathExists (path : string) : tev bool
| SessionCapabilities : tev (option (list string))       (* of [current_session] *)
| PageUrl : tev string
| CdpCall (method : string) (params : option json) : tev (result json string)
| RootSend (method : string) (params : json) : tev (result json string)
| EvaluateWithin (ms : Z) (p : EvaluateParams) : tev (option (result (json * option json) string)).
                                                         (* [None]: the timeout came first *)

Definition tool (A : Type) : Type := prog tev (result A RouterError).
Definition want {X} (e : tev X) : prog tev X := trigger e.
(** An action on the page, its error turned into the tool's. *)
Definition on_page {A} (g : string -> RouterError) (p : act A) : tool A := map_err g (embed (@OnPage) p).
Definition after (context : string) (e : string) : RouterError := internal (context +:+ ": " +:+ e).

Definition ok_true : json := JObj [("ok", JBool true)].
Definition dec (z : Z) : string := String.string_of_list_byte (Text.fmt_dec z).
Definition quoted (s : string) : string := char_str 34 +:+ s +:+ char_str 34.
Definition contains (needle s : string) : bool := match String.index 0 needle s with Some _ => true | None => false end.

(** ** Arguments *)

Definition get_f64 (k : string) (params : json) : option f64 := vget k params ≫= as_f64.
Definition get_u64 (k : string) (params : json) : option Z := vget k params ≫= as_u64.
Definition get_i64 (k : string) (params : json) : option Z := vget k params ≫= as_i64.
Definition get_bool (k : string) (params : json) : option bool := vget k params ≫= as_bool.
Definition required_f64 (params : json) (k : string) : result f64 RouterError :=
  match get_f64 k params with Some x => Ok x | None => Err (invalid_params (k +:+ " must be a number")) end.
(** [as u32], [as u8] of a [u64]. *)
Definition as_u32 (z : Z) : Z := z mod 2 ^ 32.
Definition as_u8 (z : Z) : Z := z mod 2 ^ 8.

(** [collect::<Result<Vec<_>, _>>] *)
Fixpoint collect {A B E} (f : A -> result B E) (l : list A) : result (list B) E :=
  match l with
  | [] => Ok []
  | x :: l => y <-? f x ;; ys <-? collect f l ;; Ok (y :: ys)
  end.
Definition all_strings (err : string) (l : list json) : result (list string) RouterError :=
  collect (fun v => match as_str v with Some s => Ok s | None => Err (invalid_params err) end) l.

Definition mouse_button (params : json) : MouseButton :=
  let b := default "left" (vget_str "button" params) in
  if bool_decide (b = "right") then RightButton else if bool_decide (b = "middle") then MiddleButton else LeftButton.

(** serde_json's text and reader, and the cookie shapes of [cookies.rs] read by it. *)
Class PageSerde := {
  json_text : json -> string;
  parse_json : string -> result json string;
  de_cookie : json -> option Cookies.Cookie;
  de_deep_cookie : json -> result Cookies.DeepSetCookie string
}.

Section Tools.
Context `{Env : PageEnv} `{Serde : PageSerde}.

Definition modifier_bits (params : json) : result Z RouterError :=
  match vget "modifiers" params ≫= as_array with
  | None => Ok 0
  | Some values =>
      names <-? all_strings "modifiers must be strings" values ;;
      match parse_modifier_list dbg names with Ok b => Ok b | Err e => Err (invalid_params e) end
  end.
Definition scroll_easing (params : json) : result ScrollEasing RouterError :=
  let e := default "linear" (vget_str "easing" params) in
  if bool_decide (e = "linear") then Ok Linear
  else if bool_decide (e = "ease_out") then Ok EaseOut
  else if bool_decide (e = "ease_in_out") then Ok EaseInOut
  else Err (invalid_params ("unsupported easing " +:+ dbg e)).

(** A range check that a value which is not a number fails. *)
Definition ranged_f64 (params : json) (field : string) (lo hi : Z) : result (option f64) RouterError :=
  match vget field params with
  | None => Ok None
  | Some v =>
      match as_f64 v with
      | None => Err (invalid_params (field +:+ " must be a number"))
      | Some x =>
          if f64_le (f64_of_Z lo) x && f64_le x (f64_of_Z hi) then Ok (Some x)
          else Err (invalid_params (field +:+ " must be in [" +:+ fmt_f64 (f64_of_Z lo) +:+ ", " +:+ fmt_f64 (f64_of_Z hi) +:+ "]"))
      end
  end.
Definition ranged_i64 (params : json) (field : string) (lo hi : Z) : result (option Z) RouterError :=
  match vget field params with
  | None => Ok None
  | Some v =>
      match as_i64 v with
      | None => Err (invalid_params (field +:+ " must be an integer"))
      | Some x => if (lo <=? x) && (x <=? hi) then Ok (Some x)
                  else Err (invalid_params (field +:+ " must be in [" +:+ dec lo +:+ ", " +:+ dec hi +:+ "]"))
      end
  end.
Definition pointer_details (params : json) : result PointerDetails RouterError :=
  force <-? ranged_f64 params "pressure" 0 1 ;;
  tangential <-? ranged_f64 params "tangential_pressure" (-1) 1 ;;
  tilt_x <-? ranged_f64 params "tilt_x" (-90) 90 ;;
  tilt_y <-? ranged_f64 params "tilt_y" (-90) 90 ;;
  twist <-? ranged_i64 params "twist" 0 359 ;;
  Ok (mkPointer force tangential tilt_x tilt_y twist).

(** ** Locating the page and the element *)

Definition locate_page (params : json) : tool unit :=
  tab_id <-! lift (required_str params "tab_id") ;;
  found <-- want (GetTab tab_id) ;;
  if found then ok tt else fail tab_not_found.

Definition validate_snapshot_seq (params : json) : tool (option Z) :=
  match vget "snapshot_seq" params with
  | None => ok None
  | Some raw =>
      match as_u64 raw with
      | None => fail (mkErr InvalidParams "snapshot_seq must be a u64" None)
      | Some provided =>
          current <-- want SnapshotSeq ;;
          if provided <? current then
            fail (mkErr ElementStale ("ref minted from snapshot_seq=" +:+ dec provided +:+ "; page is at snapshot_seq="
                                      +:+ dec current)
                    (Some (JObj [("expected", JNum current); ("got", JNum provided)])))
          else ok (Some provided)
      end
  end.
(** The snapshot that refs are resolved in. *)
Definition pre_snapshot (what : string) (params : json) : tool Snap :=
  validate_snapshot_seq params ;;!
  map_err (after (what +:+ " pre-snapshot")) (want TakeSnapshot).
Definition seed_of (s : Snap) : Z := deterministic_seed (sn_seq s) (sn_url s).
(** An element only when a ref is given. *)
Definition optional_ref (what : string) (params : json) : tool (option PageElement) :=
  match vget "ref" params with
  | Some _ => snap <-! pre_snapshot what params ;; e <-! lift (resolve_ref dbg (sn_elements snap) params) ;; ok (Some e)
  | None => ok None
  end.

(** ** Snapshots and images *)

Definition page_snapshot (params : json) : tool json :=
  locate_page params ;;!
  match get_u64 "since_seq" params with
  | Some n => map_err (after "snapshot_delta") (want (SnapshotValue (Some n)))
  | None => map_err (after "snapshot") (want (SnapshotValue None))
  end.
Definition page_screenshot (params : json) : tool json :=
  locate_page params ;;!
  let format := default "png" (vget_str "format" params) in
  let quality := option_map as_u8 (get_u64 "quality" params) in
  let cbv := default false (get_bool "capture_beyond_viewport" params) in
  elem <-! optional_ref "screenshot" params ;;
  data <-! on_page (after "screenshot") (screenshot format quality cbv (option_map AxMerge.bbox elem)) ;;
  ok (JObj [("format", JStr format); ("data_base64", JStr data); ("width", JNum 0); ("height", JNum 0)]).
Definition page_read_text (params : json) : tool json :=
  locate_page params ;;!
  elem <-! optional_ref "read_text" params ;;
  text <-! on_page (after "read_text") (read_text elem) ;;
  ok (JObj [("text", JStr text)]).

(** ** Mouse, touch and keyboard *)

Definition zero_area (what : string) (e : string) : RouterError :=
  if contains "zero area" e then not_actionable else after what e.

Definition page_click (params : json) : tool json :=
  locate_page params ;;!
  snap <-! pre_snapshot "click" params ;;
  elem <-! lift (resolve_ref dbg (sn_elements snap) params) ;;
  let button := mouse_button params in
  let click_count := as_u32 (default 1 (get_u64 "click_count" params)) in
  realistic <-- match get_bool "realistic" params with Some b => Ret b | None => want DefaultRealistic end ;;
  nav <-! on_page (zero_area "click") (click elem button click_count realistic (seed_of snap)) ;;
  ok (JObj [("ok", JBool true);
            ("navigation", match nav with
                           | Some url => JObj [("frame_id", JStr ""); ("url", JStr url)]
                           | None => JNull
                           end)]).
Definition page_type (params : json) : tool json :=
  locate_page params ;;!
  snap <-! pre_snapshot "type" params ;;
  elem <-! lift (resolve_ref dbg (sn_elements snap) params) ;;
  text <-! lift (required_str params "text") ;;
  on_page (after "type") (type_text elem text (get_u64 "delay_ms" params)
    (default false (get_bool "clear_first" params)) (seed_of snap)) ;;!
  ok ok_true.
Definition page_keypress (params : json) : tool json :=
  locate_page params ;;!
  key <-! lift (required_str params "key") ;;
  modifiers <-! lift (modifier_bits params) ;;
  on_page (after "keypress") (keypress_with_modifiers key modifiers) ;;!
  ok ok_true.
Definition page_scroll (params : json) : tool json :=
  locate_page params ;;!
  let dx := default f64_zero (get_f64 "dx" params) in
  let dy := default f64_zero (get_f64 "dy" params) in
  elem <-! optional_ref "scroll" params ;;
  on_page (after "scroll") (scroll elem dx dy) ;;!
  ok ok_true.
Definition page_hover (params : json) : tool json :=
  locate_page params ;;!
  snap <-! pre_snapshot "hover" params ;;
  elem <-! lift (resolve_ref dbg (sn_elements snap) params) ;;
  on_page (zero_area "hover") (hover elem) ;;!
  ok ok_true.
Definition page_drag (params : json) : tool json :=
  locate_page params ;;!
  snap <-! pre_snapshot "drag" params ;;
  from_ref <-! lift (match vget_str "from_ref" params with Some s => Ok s | None => Err (invalid_params "from_ref") end) ;;
  to_ref <-! lift (match vget_str "to_ref" params with Some s => Ok s | None => Err (invalid_params "to_ref") end) ;;
  from <-! lift (resolve_ref_str dbg (sn_elements snap) from_ref) ;;
  to <-! lift (resolve_ref_str dbg (sn_elements snap) to_ref) ;;
  on_page (after "drag") (drag from to (seed_of snap)) ;;!
  ok ok_true.
Definition page_touch_tap (params : json) : tool json :=
  locate_page params ;;!
  x <-! lift (required_f64 params "x") ;; y <-! lift (required_f64 params "y") ;;
  on_page (after "touch.tap") (touch_tap x y (default 50 (get_u64 "duration_ms" params))
    (as_u32 (default 1 (get_u64 "tap_count" params)))) ;;!
  ok ok_true.
Definition steps_of (params : json) : Z := as_u32 (default 10 (get_u64 "steps" params)).
Definition duration_of (params : json) : Z := default 180 (get_u64 "duration_ms" params).
Definition page_touch_swipe (params : json) : tool json :=
  locate_page params ;;!
  x0 <-! lift (required_f64 params "start_x") ;; y0 <-! lift (required_f64 params "start_y") ;;
  x1 <-! lift (required_f64 params "end_x") ;; y1 <-! lift (required_f64 params "end_y") ;;
  on_page (after "touch.swipe") (touch_swipe (x0, y0) (x1, y1) (steps_of params) (duration_of params)) ;;!
  ok ok_true.
Definition page_touch_pinch (params : json) : tool json :=
  locate_page params ;;!
  cx <-! lift (required_f64 params "center_x") ;; cy <-! lift (required_f64 params "center_y") ;;
  r0 <-! lift (required_f64 params "start_radius") ;; r1 <-! lift (required_f64 params "end_radius") ;;
  on_page (after "touch.pinch") (touch_pinch cx cy r0 r1 (steps_of params) (duration_of params)) ;;!
  ok ok_true.
Definition page_touch_rotate (params : json) : tool json :=
  locate_page params ;;!
  cx <-! lift (required_f64 params "center_x") ;; cy <-! lift (required_f64 params "center_y") ;;
  r <-! lift (required_f64 params "radius") ;; a <-! lift (required_f64 params "angle_deg") ;;
  on_page (after "touch.rotate") (touch_rotate cx cy r a (steps_of params) (duration_of params)) ;;!
  ok ok_true.
Definition page_pointer_press (params : json) : tool json :=
  locate_page params ;;!
  x <-! lift (required_f64 params "x") ;; y <-! lift (required_f64 params "y") ;;
  let click_count := as_u32 (default 1 (get_u64 "click_count" params)) in
  pointer <-! lift (pointer_details params) ;;
  on_page (after "pointer.press") (pointer_press x y (mouse_button params) click_count pointer) ;;!
  ok ok_true.
Definition page_pointer_move (params : json) : tool json :=
  locate_page params ;;!
  x <-! lift (required_f64 params "x") ;; y <-! lift (required_f64 params "y") ;;
  pointer <-! lift (pointer_details params) ;;
  on_page (after "pointer.move") (pointer_move x y (default 1 (get_i64 "buttons" params)) pointer) ;;!
  ok ok_true.
Definition page_pointer_release (params : json) : tool json :=
  locate_page params ;;!
  x <-! lift (required_f64 params "x") ;; y <-! lift (required_f64 params "y") ;;
  let click_count := as_u32 (default 1 (get_u64 "click_count" params)) in
  pointer <-! lift (pointer_details params) ;;
  on_page (after "pointer.release") (pointer_release x y (mouse_button params) click_count pointer) ;;!
  ok ok_true.
Definition page_gesture_pinch (params : json) : tool json :=
  locate_page params ;;!
  cx <-! lift (required_f64 params "center_x") ;; cy <-! lift (required_f64 params "center_y") ;;
  r0 <-! lift (required_f64 params "start_radius") ;; sc <-! lift (required_f64 params "scale_factor") ;;
  on_page (after "gesture.pinch") (gesture_pinch cx cy r0 sc (steps_of params) (duration_of params)) ;;!
  ok ok_true.
Definition page_gesture_rotate (params : json) : tool json :=
  locate_page params ;;!
  cx <-! lift (required_f64 params "center_x") ;; cy <-! lift (required_f64 params "center_y") ;;
  r <-! lift (required_f64 params "radius") ;; a <-! lift (required_f64 params "angle_deg") ;;
  on_page (after "gesture.rotate") (gesture_rotate cx cy r a (steps_of params) (duration_of params)) ;;!
  ok ok_true.
Definition page_gesture_longpress (params : json) : tool json :=
  locate_page params ;;!
  x <-! lift (required_f64 params "x") ;; y <-! lift (required_f64 params "y") ;;
  on_page (after "gesture.longpress") (gesture_longpress x y (default 500 (get_u64 "duration_ms" params))) ;;!
  ok ok_true.
(** Each path is looked up in turn. *)
Fixpoint existing_paths (l : list json) : tool (list string) :=
  match l with
  | [] => ok []
  | v :: l =>
      path <-! lift (match as_str v with
                     | Some s => Ok s
                     | None => Err (invalid_params "file_paths must contain strings")
                     end) ;;
      there <-- want (PathExists path) ;;
      if there then rest <-! existing_paths l ;; ok (path :: rest)
      else fail (invalid_params ("file path does not exist: " +:+ path))
  end.
Definition page_drag_file_drop (params : json) : tool json :=
  locate_page params ;;!
  snap <-! pre_snapshot "file_drop" params ;;
  target <-! lift (required_str params "target_ref") ;;
  elem <-! lift (resolve_ref_str dbg (sn_elements snap) target) ;;
  files <-! lift (match vget "file_paths" params ≫= as_array with
                  | Some l => Ok l
                  | None => Err (invalid_params "file_paths must be an array")
                  end) ;;
  paths <-! existing_paths files ;;
  on_page (after "drag.file_drop") (file_drop (fst (center elem)) (snd (center elem)) paths) ;;!
  ok ok_true.
Definition page_keyboard_shortcut (params : json) : tool json :=
  locate_page params ;;!
  accel <-! lift (required_str params "accel") ;;
  on_page (after "keyboard.shortcut") (keyboard_shortcut accel) ;;!
  ok ok_true.
Definition page_keyboard_ime (params : json) : tool json :=
  locate_page params ;;!
  composition <-! lift (required_str params "composition_string") ;;
  on_page (after "keyboard.ime") (keyboard_ime composition (default "" (vget_str "commit" params))) ;;!
  ok ok_true.
Definition page_dead_key (params : json) : tool json :=
  locate_page params ;;!
  accent <-! lift (required_str params "accent") ;;
  base_str <-! lift (required_str params "base") ;;
  base <-! lift (match Text.str_chars base_str with
                 | [c] => Ok c
                 | _ => Err (invalid_params "base must be one character")
                 end) ;;
  composed <-! on_page (after "dead_key") (dead_key accent base) ;;
  ok (JObj [("ok", JBool true); ("text", JStr composed)]).
Definition page_scroll_precise (params : json) : tool json :=
  locate_page params ;;!
  let dx := default f64_zero (get_f64 "dx" params) in
  let dy := default f64_zero (get_f64 "dy" params) in
  elem <-! optional_ref "scroll.precise" params ;;
  let momentum := default false (get_bool "momentum" params) in
  easing <-! lift (scroll_easing params) ;;
  on_page (after "scroll.precise") (precise_scroll elem dx dy momentum easing) ;;!
  ok ok_true.
Definition page_tab_traversal (params : json) : tool json :=
  locate_page params ;;!
  let d := default "forward" (vget_str "direction" params) in
  direction <-! lift (if bool_decide (d = "forward") then Ok "forward"
                      else if bool_decide (d = "backward") then Ok "backward"
                      else Err (invalid_params ("unsupported direction " +:+ dbg d))) ;;
  on_page (after "tab_traversal") (tab_traversal direction (as_u32 (default 1 (get_u64 "count" params)))) ;;!
  ok ok_true.
Definition page_right_click_menu_navigate (params : json) : tool json :=
  locate_page params ;;!
  snap <-! pre_snapshot "context-menu" params ;;
  elem <-! lift (resolve_ref dbg (sn_elements snap) params) ;;
  items <-! lift (match vget "item_path" params ≫= as_array with
                  | Some l => all_strings "item_path must contain strings" l
                  | None => Err (invalid_params "item_path must be an array")
                  end) ;;
  on_page (after "right_click_menu_navigate") (right_click_menu_navigate elem items) ;;!
  ok ok_true.

(** ** Scripts *)

Definition MAX_EVAL_EXPR_LEN : Z := 64 * 1024.
Definition DEFAULT_EVAL_TIMEOUT_MS : Z := 30000.
Definition MIN_EVAL_TIMEOUT_MS : Z := 100.
Definition MAX_EVAL_TIMEOUT_MS : Z := 60000.
Definition clamp (lo hi v : Z) : Z := Z.max lo (Z.min hi v).
Definition str_len (s : string) : Z := Z.of_nat (String.length s).

Definition denied (capability message : string) (method : option string) : RouterError :=
  mkErr PermissionDenied message
    (Some (JObj (("capability", JStr capability) :: match method with Some m => [("method", JStr m)] | None => [] end))).
Definition page_eval (params : json) : tool json :=
  caps <-- want SessionCapabilities ;;
  lift (match caps with
        | None => Err (denied "eval" "no session bound for page.eval" None)
        | Some l =>
            if bool_decide ("eval" ∈ l) then Ok tt
            else Err (denied "eval" ("session lacks 'eval' capability — pass capabilities: [" +:+ quoted "eval"
                                     +:+ "] to session.register") None)
        end) ;;!
  locate_page params ;;!
  optional_ref "eval" params ;;!
  expr <-! lift (required_str params "expression") ;;
  if MAX_EVAL_EXPR_LEN <? str_len expr then
    fail (mkErr InvalidParams ("expression exceeds " +:+ dec MAX_EVAL_EXPR_LEN +:+ " byte cap (" +:+ dec (str_len expr) +:+ " bytes)")
            (Some (JObj [("max_bytes", JNum MAX_EVAL_EXPR_LEN); ("got_bytes", JNum (str_len expr))])))
  else
    let return_by_value := default true (get_bool "return_by_value" params) in
    let timeout_ms := match get_u64 "timeout_ms" params with
                      | Some v => clamp MIN_EVAL_TIMEOUT_MS MAX_EVAL_TIMEOUT_MS v
                      | None => DEFAULT_EVAL_TIMEOUT_MS
                      end in
    r <-- want (EvaluateWithin timeout_ms (mkEval expr (Some return_by_value) (Some true))) ;;
    match r with
    | None => fail (mkErr TimeoutCode ("page.eval timed out after " +:+ dec timeout_ms +:+ "ms")
                      (Some (JObj [("timeout_ms", JNum timeout_ms); ("expr_len", JNum (str_len expr))])))
    | Some a => match eval_outcome a with
                | Ok v => ok (JObj [("value", v)])
                | Err e => fail (after "eval" e)
                end
    end.

(** ** Storage *)

Definition require_storage_state_capability (method : string) : tool unit :=
  caps <-- want SessionCapabilities ;;
  lift (match caps with
        | None => Err (denied "storage_state" ("no session bound for " +:+ method) (Some method))
        | Some l =>
            if bool_decide ("storage_state" ∈ l) then Ok tt
            else Err (denied "storage_state"
                        ("session lacks 'storage_state' capability — pass capabilities: [" +:+ quoted "storage_state"
                         +:+ "] to session.register for " +:+ method) (Some method))
        end).
Definition protocol_error (message : string) (data : json) : RouterError := mkErr ProtocolError message (Some data).

(** [find]: the text before and after the first occurrence. *)
Definition split_at (sep s : string) : option (string * string) :=
  match String.index 0 sep s with
  | Some i => Some (String.substring 0 i s, String.substring (i + String.length sep) (String.length s) s)
  | None => None
  end.
Definition parse_http_origin (url : string) : option string :=
  match split_at "://" (trim url) with
  | None => None
  | Some (scheme, rest) =>
      if bool_decide (scheme ∈ ["http"; "https"])
      then Some (scheme +:+ "://" +:+ match split_at "/" rest with Some (host, _) => host | None => rest end)
      else None
  end.
Definition page_origin : tool string :=
  url <-- want PageUrl ;;
  match parse_http_origin url with
  | Some o => ok o
  | None => fail (protocol_error ("active page has no http/https origin: " +:+ url) (JObj [("url", JStr url)]))
  end.
Definition strip_null_fields (v : json) : json :=
  match v with
  | JObj kvs => JObj (List.filter (fun kv => match snd kv with JNull => false | _ => true end) kvs)
  | other => other
  end.
Definition permission_origin_or_current (current : string) (requested : option string) (field : string)
    : result string RouterError :=
  match requested with
  | Some origin => match parse_http_origin origin with
                   | Some o => Ok o
                   | None => Err (invalid_params (field +:+ " must be an http/https origin"))
                   end
  | None => Ok current
  end.
Definition opt_str (o : option string) : json := match o with Some s => JStr s | None => JNull end.
Definition opt_num (o : option Z) : json := match o with Some z => JNum z | None => JNull end.
Definition opt_json (o : option json) : json := match o with Some v => v | None => JNull end.

Definition run_json_eval (expression context : string) (data : json) : tool json :=
  raw <-! on_page (fun e => protocol_error (context +:+ ": " +:+ e) data) (eval expression true) ;;
  parsed <-! lift (match as_str raw with
                   | Some s => match parse_json s with
                               | Ok v => Ok v
                               | Err e => Err (protocol_error (context +:+ ": invalid JSON result: " +:+ e) data)
                               end
                   | None => Ok raw
                   end) ;;
  match vget_str "error" parsed with
  | Some err => fail (protocol_error (context +:+ ": " +:+ err) data)
  | None => ok parsed
  end.

(** The scripts of the storage tools. *)
Definition js_get_item (g k : string) : string :=
  "(() => { try { return JSON.stringify({value: "
      +:+ g
      +:+ ".getItem("
      +:+ k
      +:+ ")}); } catch (e) { return JSON.stringify({error: String(e)}); } })()".
Definition js_get_all (g : string) : string :=
  "(() => { try { const o = {}; for (let i = 0; i < "
      +:+ g
      +:+ ".length; i++) { const k = "
      +:+ g
      +:+ ".key(i); o[k] = "
      +:+ g
      +:+ ".getItem(k); } return JSON.stringify({value: o}); } catch (e) { return JSON.stringify({error: String(e)}); } })()".
Definition js_set (g k v : string) : string :=
  "(() => { try { const previous = "
      +:+ g
      +:+ ".getItem("
      +:+ k
      +:+ "); "
      +:+ g
      +:+ ".setItem("
      +:+ k
      +:+ ", "
      +:+ v
      +:+ "); return JSON.stringify({ok: true, previous}); } catch (e) { return JSON.stringify({error: String(e)}); } })()".
Definition js_delete (g k : string) : string :=
  "(() => { try { const previous = "
      +:+ g
      +:+ ".getItem("
      +:+ k
      +:+ "); "
      +:+ g
      +:+ ".removeItem("
      +:+ k
      +:+ "); return JSON.stringify({ok: true, previous}); } catch (e) { return JSON.stringify({error: String(e)}); } })()".
Definition js_clear (g : string) : string :=
  "(() => { try { const size = "
      +:+ g
      +:+ ".length; "
      +:+ g
      +:+ ".clear(); return JSON.stringify({ok: true, cleared_count: size}); } catch (e) { return JSON.stringify({error: String(e)}); } })()".
Definition js_cas (g k v x : string) : string :=
  "(() => { try { const current = "
      +:+ g
      +:+ ".getItem("
      +:+ k
      +:+ "); const expected = "
      +:+ x
      +:+ "; if (current !== expected) return JSON.stringify({ok: false, matched: false, current}); "
      +:+ g
      +:+ ".setItem("
      +:+ k
      +:+ ", "
      +:+ v
      +:+ "); return JSON.stringify({ok: true, matched: true, previous: current}); } catch (e) { return JSON.stringify({error: String(e)}); } })()".
Definition js_permission (d : string) : string :=
  "(async () => { try { const status = await navigator.permissions.query("
      +:+ d
      +:+ "); return JSON.stringify({state: status.state}); } catch (e) { return JSON.stringify({error: String(e)}); } })()".
Definition js_idb_put (db_name store_name key_json value_json version_json : string) : string :=
  "(async () => {
  try {
    const dbName = "
      +:+ db_name
      +:+ ";
    const storeName = "
      +:+ store_name
      +:+ ";
    const key = "
      +:+ key_json
      +:+ ";
    const value = "
      +:+ value_json
      +:+ ";
    const version = "
      +:+ version_json
      +:+ ";
    await new Promise((resolve, reject) => {
      const req = version === undefined ? indexedDB.open(dbName) : indexedDB.open(dbName, version);
      req.onupgradeneeded = () => {
        const db = req.result;
        if (!db.objectStoreNames.contains(storeName)) db.createObjectStore(storeName);
      };
      req.onerror = () => reject(req.error || new Error('indexedDB.open failed'));
      req.onsuccess = () => {
        const db = req.result;
        let tx;
        try {
          tx = db.transaction([storeName], 'readwrite');
        } catch (e) {
          db.close();
          reject(e);
          return;
        }
        tx.onerror = () => reject(tx.error || new Error('indexedDB transaction failed'));
        tx.oncomplete = () => { db.close(); resolve(undefined); };
        tx.objectStore(storeName).put(value, key);
      };
    });
    return JSON.stringify({ok: true});
  } catch (e) {
    return JSON.stringify({error: String(e)});
  }
})()".

Definition page_storage_call (params : json) (scope action method : string) : tool json :=
  require_storage_state_capability method ;;!
  g <-! lift (if bool_decide (scope = "local") then Ok "localStorage"
              else if bool_decide (scope = "session") then Ok "sessionStorage"
              else Err (invalid_params ("unknown storage scope: " +:+ scope))) ;;
  let key := vget_str "key" params in
  let expected := vget_str "expected" params in
  locate_page params ;;!
  js <-! lift (
    if bool_decide (action = "get") then
      Ok match key with Some k => js_get_item g (json_text (JStr k)) | None => js_get_all g end
    else if bool_decide (action = "set") then
      k <-? required_str params "key" ;;
      match vget_str "value" params with
      | Some v => Ok (js_set g (json_text (JStr k)) (json_text (JStr v)))
      | None => Err (invalid_params "value (string) required for set")
      end
    else if bool_decide (action = "delete") then
      k <-? required_str params "key" ;; Ok (js_delete g (json_text (JStr k)))
    else if bool_decide (action = "clear") then Ok (js_clear g)
    else if bool_decide (action = "cas") then
      k <-? required_str params "key" ;;
      match vget_str "value" params with
      | Some v => Ok (js_cas g (json_text (JStr k)) (json_text (JStr v))
                        match expected with Some x => json_text (JStr x) | None => "null" end)
      | None => Err (invalid_params "value (string) required for cas")
      end
    else Err (invalid_params ("unknown action: " +:+ dbg action +:+ " (want get|set|delete|clear|cas)"))) ;;
  run_json_eval js method (JObj [("scope", JStr scope); ("action", JStr action); ("key", opt_str key)]).

Definition page_localstorage_get (params : json) : tool json := page_storage_call params "local" "get" "page.localstorage.get".
Definition page_localstorage_set (params : json) : tool json := page_storage_call params "local" "set" "page.localstorage.set".
Definition page_localstorage_delete (params : json) : tool json :=
  page_storage_call params "local" "delete" "page.localstorage.delete".
Definition page_localstorage_clear (params : json) : tool json := page_storage_call params "local" "clear" "page.localstorage.clear".
Definition page_localstorage_cas (params : json) : tool json := page_storage_call params "local" "cas" "page.localstorage.cas".
Definition page_sessionstorage_get (params : json) : tool json := page_storage_call params "session" "get" "page.sessionstorage.get".
Definition page_sessionstorage_set (params : json) : tool json := page_storage_call params "session" "set" "page.sessionstorage.set".
Definition page_sessionstorage_delete (params : json) : tool json :=
  page_storage_call params "session" "delete" "page.sessionstorage.delete".
Definition page_sessionstorage_clear (params : json) : tool json :=
  page_storage_call params "session" "clear" "page.sessionstorage.clear".
Definition page_sessionstorage_cas (params : json) : tool json := page_storage_call params "session" "cas" "page.sessionstorage.cas".

(** ** Cookies *)

Definition cookies_of (res : json) : list json := default [] (vget "cookies" res ≫= as_array).
(** The loop of [clear]: whether each deletion succeeds is not looked at. *)
Fixpoint delete_matching (domain name : option string) (l : list json) (count : Z) : prog tev Z :=
  match l with
  | [] => Ret count
  | v :: l =>
      let c := Cookies.from_cdp v in
      if match domain with Some d => negb (bool_decide (Cookies.c_domain c = d)) | None => false end
         || match name with Some n => negb (bool_decide (Cookies.c_name c = n)) | None => false end
      then delete_matching domain name l count
      else
        _ <-- want (CdpCall "Network.deleteCookies"
               (Some (JObj [("name", JStr (Cookies.c_name c)); ("domain", JStr (Cookies.c_domain c)); ("path", JStr (Cookies.c_path c))]))) ;;
        delete_matching domain name l (count + 1)
  end.
Definition page_cookies (params : json) : tool json :=
  locate_page params ;;!
  action <-! lift (required_str params "action") ;;
  if bool_decide (action ∈ ["get"; "list"]) then
    res <-! map_err (after "getCookies") (want (CdpCall "Network.getCookies" None)) ;;
    ok (JObj [("cookies", JArr (map Cookies.cookie_value (Cookies.from_cdp_list (cookies_of res))))])
  else if bool_decide (action = "set") then
    let cookies := omap de_cookie (cookies_of params) in
    map_err (after "setCookies")
      (want (CdpCall "Network.setCookies" (Some (JObj [("cookies", JArr (map Cookies.to_cdp_param cookies))])))) ;;!
    ok (JObj [("ok", JBool true); ("set_count", JNum (zlen cookies))])
  else if bool_decide (action = "clear") then
    let domain := vget_str "domain" params in
    let name := vget_str "name" params in
    if bool_decide (is_Some domain) || bool_decide (is_Some name) then
      res <-! map_err (after "getCookies") (want (CdpCall "Network.getCookies" None)) ;;
      count <-- delete_matching domain name (cookies_of res) 0 ;;
      ok (JObj [("ok", JBool true); ("cleared_count", JNum count)])
    else
      map_err (after "clearBrowserCookies") (want (CdpCall "Network.clearBrowserCookies" None)) ;;!
      ok (JObj [("ok", JBool true); ("cleared_count", JNum (-1))])
  else fail (invalid_params ("unknown action: " +:+ action)).
Definition page_cookies_deep_set (params : json) : tool json :=
  require_storage_state_capability "page.cookies.deep_set" ;;!
  locate_page params ;;!
  v <-! lift (match vget "cookie" params with Some v => Ok v | None => Err (invalid_params "missing cookie") end) ;;
  cookie <-! lift (match de_deep_cookie v with
                   | Ok c => Ok c
                   | Err e => Err (invalid_params ("invalid cookie payload: " +:+ e))
                   end) ;;
  let data := JObj [("name", JStr (Cookies.d_name cookie))] in
  res <-! map_err (fun e => protocol_error ("page.cookies.deep_set: " +:+ e) data)
            (want (CdpCall "Network.setCookie" (Some (Cookies.to_cdp_set_cookie_param cookie)))) ;;
  if default false (get_bool "success" res) then ok ok_true
  else fail (protocol_error "page.cookies.deep_set: Network.setCookie returned success=false" data).

(** ** Quota and permissions *)

Definition page_storage_quota (params : json) : tool json :=
  require_storage_state_capability "page.storage.quota" ;;!
  locate_page params ;;!
  origin <-! page_origin ;;
  res <-! map_err (fun e => protocol_error ("page.storage.quota: " +:+ e) (JObj [("origin", JStr origin)]))
            (want (CdpCall "Storage.getUsageAndQuota" (Some (JObj [("origin", JStr origin)])))) ;;
  ok match res with
     | JObj kvs => JObj (("origin", JStr origin) :: List.filter (fun kv => negb (bool_decide (fst kv = "origin"))) kvs)
     | other => JObj [("origin", JStr origin); ("result", other)]
     end.
Definition embedded_origin (origin : string) (params : json) : result (option string) RouterError :=
  match vget_str "embedded_origin" params with
  | Some v => o <-? permission_origin_or_current origin (Some v) "embedded_origin" ;; Ok (Some o)
  | None => Ok None
  end.
Definition permission_descriptor (params : json) : result json RouterError :=
  match vget "permission" params with
  | None => Err (invalid_params "missing permission descriptor")
  | Some (JObj kvs) => Ok (JObj kvs)
  | Some _ => Err (invalid_params "permission descriptor must be an object")
  end.
Definition page_permissions_query (params : json) : tool json :=
  require_storage_state_capability "page.permissions.query" ;;!
  locate_page params ;;!
  current <-! page_origin ;;
  origin <-! lift (permission_origin_or_current current (vget_str "origin" params) "origin") ;;
  embedded <-! lift (embedded_origin origin params) ;;
  if negb (bool_decide (origin = current)) || negb (bool_decide (default current embedded = current))
  then fail (invalid_params "page.permissions.query only supports the active document origin")
  else
    permission <-! lift (permission_descriptor params) ;;
    run_json_eval (js_permission (json_text permission)) "page.permissions.query"
      (JObj [("origin", JStr current); ("permission", permission)]).
Definition set_permission (context setting : string) (permission : json) (origin : string) (embedded : option string)
    (current : string) : tool json :=
  map_err (fun e => protocol_error (context +:+ ": " +:+ e) (JObj [("origin", JStr current)]))
    (want (RootSend "Browser.setPermission"
       (strip_null_fields (JObj [("permission", permission); ("setting", JStr setting); ("origin", JStr origin);
                                 ("embeddedOrigin", opt_str embedded)])))).
Definition page_permissions_grant (params : json) : tool json :=
  require_storage_state_capability "page.permissions.grant" ;;!
  locate_page params ;;!
  current <-! page_origin ;;
  origin <-! lift (permission_origin_or_current current (vget_str "origin" params) "origin") ;;
  embedded <-! lift (embedded_origin origin params) ;;
  permission <-! lift (permission_descriptor params) ;;
  set_permission "page.permissions.grant" "granted" permission origin embedded current ;;!
  ok ok_true.
Definition page_permissions_revoke (params : json) : tool json :=
  require_storage_state_capability "page.permissions.revoke" ;;!
  locate_page params ;;!
  current <-! page_origin ;;
  match vget "permission" params with
  | Some _ =>
      permission <-! lift (permission_descriptor params) ;;
      origin <-! lift (permission_origin_or_current current (vget_str "origin" params) "origin") ;;
      embedded <-! lift (embedded_origin origin params) ;;
      set_permission "page.permissions.revoke" "prompt" permission origin embedded current
  | None =>
      map_err (fun e => protocol_error ("page.permissions.revoke: " +:+ e) (JObj [("origin", JStr current)]))
        (want (RootSend "Browser.resetPermissions" JNull))
  end ;;!
  ok ok_true.

(** ** Databases and caches *)

Definition cdp_or (context : string) (data : json) (method : string) (params : json) : tool json :=
  map_err (fun e => protocol_error (context +:+ ": " +:+ e) data) (want (CdpCall method (Some params))).
Definition page_indexeddb_list_databases (params : json) : tool json :=
  require_storage_state_capability "page.indexeddb.list_databases" ;;!
  locate_page params ;;!
  origin <-! page_origin ;;
  res <-! cdp_or "page.indexeddb.list_databases" (JObj [("origin", JStr origin)]) "IndexedDB.requestDatabaseNames"
            (JObj [("securityOrigin", JStr origin)]) ;;
  ok (JObj [("origin", JStr origin); ("database_names", default (JArr []) (vget "databaseNames" res))]).
Definition page_indexeddb_list_stores (params : json) : tool json :=
  require_storage_state_capability "page.indexeddb.list_stores" ;;!
  locate_page params ;;!
  origin <-! page_origin ;;
  db <-! lift (required_str params "database_name") ;;
  cdp_or "page.indexeddb.list_stores" (JObj [("origin", JStr origin); ("database_name", JStr db)]) "IndexedDB.requestDatabase"
    (JObj [("securityOrigin", JStr origin); ("databaseName", JStr db)]).
Definition page_indexeddb_query (params : json) : tool json :=
  require_storage_state_capability "page.indexeddb.query" ;;!
  locate_page params ;;!
  origin <-! page_origin ;;
  db <-! lift (required_str params "database_name") ;;
  store <-! lift (required_str params "object_store_name") ;;
  res <-! cdp_or "page.indexeddb.query"
            (JObj [("origin", JStr origin); ("database_name", JStr db); ("object_store_name", JStr store)])
            "IndexedDB.requestData"
            (strip_null_fields (JObj [("securityOrigin", JStr origin); ("databaseName", JStr db); ("objectStoreName", JStr store);
               ("indexName", opt_json (vget "index_name" params)); ("skipCount", JNum (default 0 (get_u64 "skip_count" params)));
               ("pageSize", JNum (default 100 (get_u64 "page_size" params))); ("keyRange", opt_json (vget "key_range" params))])) ;;
  ok (JObj [("entries", default (JArr []) (vget "objectStoreDataEntries" res));
            ("has_more", default (JBool false) (vget "hasMore" res))]).
Definition present (params : json) (k : string) : result json RouterError :=
  match vget k params with Some v => Ok v | None => Err (invalid_params ("missing " +:+ k)) end.
Definition page_indexeddb_put (params : json) : tool json :=
  require_storage_state_capability "page.indexeddb.put" ;;!
  locate_page params ;;!
  db <-! lift (required_str params "database_name") ;;
  store <-! lift (required_str params "object_store_name") ;;
  key <-! lift (present params "key") ;;
  value <-! lift (present params "value") ;;
  let version := match get_u64 "database_version" params with Some v => dec v | None => "undefined" end in
  run_json_eval (js_idb_put (json_text (JStr db)) (json_text (JStr store)) (json_text key) (json_text value) version)
    "page.indexeddb.put" (JObj [("database_name", JStr db); ("object_store_name", JStr store)]).
Definition page_indexeddb_delete (params : json) : tool json :=
  require_storage_state_capability "page.indexeddb.delete" ;;!
  locate_page params ;;!
  origin <-! page_origin ;;
  db <-! lift (required_str params "database_name") ;;
  store <-! lift (required_str params "object_store_name") ;;
  range <-! lift (present params "key_range") ;;
  cdp_or "page.indexeddb.delete"
    (JObj [("origin", JStr origin); ("database_name", JStr db); ("object_store_name", JStr store)])
    "IndexedDB.deleteObjectStoreEntries"
    (JObj [("securityOrigin", JStr origin); ("databaseName", JStr db); ("objectStoreName", JStr store); ("keyRange", range)]) ;;!
  ok ok_true.
Definition page_indexeddb_delete_database (params : json) : tool json :=
  require_storage_state_capability "page.indexeddb.delete_database" ;;!
  locate_page params ;;!
  origin <-! page_origin ;;
  db <-! lift (required_str params "database_name") ;;
  cdp_or "page.indexeddb.delete_database" (JObj [("origin", JStr origin); ("database_name", JStr db)]) "IndexedDB.deleteDatabase"
    (JObj [("securityOrigin", JStr origin); ("databaseName", JStr db)]) ;;!
  ok ok_true.
Definition page_cache_api_list (params : json) : tool json :=
  require_storage_state_capability "page.cache_api.list" ;;!
  locate_page params ;;!
  origin <-! page_origin ;;
  res <-! cdp_or "page.cache_api.list" (JObj [("origin", JStr origin)]) "CacheStorage.requestCacheNames"
            (JObj [("securityOrigin", JStr origin)]) ;;
  ok (JObj [("origin", JStr origin); ("caches", default (JArr []) (vget "caches" res))]).
Definition page_cache_api_inspect (params : json) : tool json :=
  require_storage_state_capability "page.cache_api.inspect" ;;!
  locate_page params ;;!
  cache_id <-! lift (required_str params "cache_id") ;;
  match vget_str "request_url" params with
  | Some url =>
      cdp_or "page.cache_api.inspect" (JObj [("cache_id", JStr cache_id); ("request_url", JStr url)])
        "CacheStorage.requestCachedResponse"
        (JObj [("cacheId", JStr cache_id); ("requestURL", JStr url);
               ("requestHeaders", default (JArr []) (vget "request_headers" params))])
  | None =>
      res <-! cdp_or "page.cache_api.inspect" (JObj [("cache_id", JStr cache_id)]) "CacheStorage.requestEntries"
                (strip_null_fields (JObj [("cacheId", JStr cache_id); ("skipCount", opt_num (get_u64 "skip_count" params));
                   ("pageSize", opt_num (get_u64 "page_size" params)); ("pathFilter", opt_str (vget_str "path_filter" params))])) ;;
      ok (JObj [("entries", default (JArr []) (vget "cacheDataEntries" res));
                ("return_count", default JNull (vget "returnCount" res))])
  end.
Definition page_cache_api_delete (params : json) : tool json :=
  require_storage_state_capability "page.cache_api.delete" ;;!
  locate_page params ;;!
  cache_id <-! lift (required_str params "cache_id") ;;
  match vget_str "request_url" params with
  | Some url => cdp_or "page.cache_api.delete" (JObj [("cache_id", JStr cache_id); ("request_url", JStr url)])
                  "CacheStorage.deleteEntry" (JObj [("cacheId", JStr cache_id); ("request", JStr url)])
  | None => cdp_or "page.cache_api.delete" (JObj [("cache_id", JStr cache_id)]) "CacheStorage.deleteCache"
              (JObj [("cacheId", JStr cache_id)])
  end ;;!
  ok ok_true.

(** The arms of [page_storage]. *)
Definition storage_arms : list ((string * string) * (json -> tool json)) :=
  [(("local", "get"), page_localstorage_get); (("local", "set"), page_localstorage_set);
   (("local", "delete"), page_localstorage_delete); (("local", "clear"), page_localstorage_clear);
   (("local", "cas"), page_localstorage_cas); (("session", "get"), page_sessionstorage_get);
   (("session", "set"), page_sessionstorage_set); (("session", "delete"), page_sessionstorage_delete);
   (("session", "clear"), page_sessionstorage_clear); (("session", "cas"), page_sessionstorage_cas);
   (("indexeddb", "list_databases"), page_indexeddb_list_databases);
   (("indexeddb", "list_stores"), page_indexeddb_list_stores); (("indexeddb", "query"), page_indexeddb_query);
   (("indexeddb", "put"), page_indexeddb_put); (("indexeddb", "delete"), page_indexeddb_delete);
   (("indexeddb", "delete_database"), page_indexeddb_delete_database)].
Definition page_storage (params : json) : tool json :=
  require_storage_state_capability "page.storage" ;;!
  lift (match vget "scope" params with
        | Some _ => Err (invalid_params "legacy page.storage {scope,...} shape is no longer accepted; use {kind, action, args} or page.{local,session}storage.*")
        | None => Ok tt
        end) ;;!
  kind <-! lift (required_str params "kind") ;;
  action <-! lift (required_str params "action") ;;
  args <-! lift (match default (JObj []) (vget "args" params) with
                 | JObj kvs => Ok kvs
                 | _ => Err (invalid_params "page.storage args must be an object when present")
                 end) ;;
  tab_id <-! lift (present params "tab_id") ;;
  let delegated := JObj (("tab_id", tab_id) :: List.filter (fun kv => negb (bool_decide (fst kv = "tab_id"))) args) in
  match List.find (fun arm => bool_decide (fst arm = (kind, action))) storage_arms with
  | Some (_, f) => f delegated
  | None => fail (invalid_params ("unsupported page.storage combination: kind=" +:+ dbg kind +:+ " action=" +:+ dbg action))
  end.

(** ** Emulation *)

Definition page_viewport (params : json) : tool json :=
  locate_page params ;;!
  on_page (after "viewport") (set_viewport (as_u32 (default 1280 (get_u64 "width" params)))
    (as_u32 (default 800 (get_u64 "height" params))) (default (f64_of_Z 2) (get_f64 "device_scale_factor" params))
    (default false (get_bool "mobile" params))) ;;!
  ok ok_true.
Definition page_user_agent (params : json) : tool json :=
  locate_page params ;;!
  ua <-! lift (required_str params "user_agent") ;;
  on_page (after "user_agent") (set_user_agent ua (vget_str "accept_language" params) (vget_str "platform" params)) ;;!
  ok ok_true.
Definition page_geo (params : json) : tool json :=
  locate_page params ;;!
  on_page (after "geo") (set_geo (default f64_zero (get_f64 "latitude" params)) (default f64_zero (get_f64 "longitude" params))
    (default (f64_of_Z 50) (get_f64 "accuracy" params))) ;;!
  ok ok_true.
Definition page_dark_mode (params : json) : tool json :=
  locate_page params ;;!
  on_page (after "dark_mode") (set_dark_mode (default false (get_bool "enabled" params))) ;;!
  ok ok_true.
Definition page_network_conditions (params : json) : tool json :=
  locate_page params ;;!
  on_page (after "network_conditions") (Emulate.set_network_conditions (Emulate.parse_network_conditions params)) ;;!
  ok ok_true.
Definition page_emulate (params : json) : tool json :=
  locate_page params ;;!
  on_page (after "emulate") (Emulate.emulate (Emulate.parse_emulate_options params)) ;;!
  ok ok_true.

End Tools.

End PageTools.
