(* ===== verification/Seeds.v ===== *)
(** * Seeds: carrying the user's browser state into a session

    Models [sandbox/src/v_r1.rs], the plan of what to carry over and the reader
    of the host's cookies, and the part of [browser-engine/src/browser.rs] that
    applies a plan to a new browser, over the tabs of [Tabs].  A [BTreeMap] is
    the list of its entries in key order.  Base64 and serde_json are
    parameters, as is the text of the seeding scripts around their data. *)
From S2P Require Import Prelude Json Text F64 Network Input Actions Router Pump Tabs PageTools.
From Stdlib Require Import Sorted.
Import JsonTree Prog Actions Pump Tabs.

Module Seeds.

(** ** The plan, [v_r1.rs] *)

Record CookieRecord := mkCookieRecord {
  ck_name : string; ck_value : string; ck_domain : string; ck_path : string; ck_expires : option f64; ck_http_only : bool;
  ck_secure : bool; ck_same_site : option string
}.
Record StorageEntry := mkStorage { se_origin : string; se_key : string; se_value : string; se_kind : string }.
Record IndexedDbRecord := mkIdb {
  ir_origin : string; ir_database_name : string; ir_database_version : option Z; ir_object_store : string; ir_key_b64 : string;
  ir_value_b64 : string
}.
Record ServiceWorkerReg := mkReg { sw_scope : string; sw_script_url : string }.
Record CacheHeader := mkHeader { ch_name : string; ch_value : string }.
Record CacheStorageEntry := mkCache {
  ce_origin : string; ce_cache_name : string; ce_request_url : string; ce_status : Z; ce_status_text : option string;
  ce_headers : list CacheHeader; ce_body_b64 : string
}.
Record SeedPlan := mkPlan {
  cookies : list CookieRecord; storage : list StorageEntry; indexed_db : list IndexedDbRecord;
  service_workers : list ServiceWorkerReg; cache_storage : list CacheStorageEntry
}.
Definition is_nil {A} (l : list A) : bool := match l with [] => true | _ => false end.
Definition is_empty (p : SeedPlan) : bool :=
  is_nil (cookies p) && is_nil (storage p) && is_nil (indexed_db p) && is_nil (service_workers p) && is_nil (cache_storage p).
Definition count (p : SeedPlan) : Z :=
  zlen (cookies p) + zlen (storage p) + zlen (indexed_db p) + zlen (service_workers p) + zlen (cache_storage p).

(** ** The host's cookies *)

(** [str::lines] *)
Definition strip_cr (l : list byte) : list byte :=
  match reverse l with Byte.x0d :: r => reverse r | _ => l end.
Fixpoint lines_of (segs : list (list byte)) : list (list byte) :=
  match segs with
  | [] => []
  | [last] => if is_nil last then [] else [last]
  | seg :: segs => strip_cr seg :: lines_of segs
  end.
Definition lines (l : list byte) : list (list byte) := lines_of (Network.split_on Byte.x0a l).

Definition same_site_of (s : string) : option string :=
  if bool_decide (s = "0") then Some "None" else if bool_decide (s = "1") then Some "Lax"
  else if bool_decide (s = "2") then Some "Strict" else None.
Definition expires_of (us : Z) : option f64 :=
  if us =? 0 then None else Some (f64_sub (f64_div (f64_of_Z us) (f64_of_Z 1000000)) (f64_of_Z 11644473600)).
(** The columns of a line of the dump; [None]: it is skipped. *)
Definition cookie_of_cols (cols : list string) : option CookieRecord :=
  let col (i : nat) (d : string) := default d (cols !! i) in
  let name := col 0%nat "" in
  let value := col 1%nat "" in
  let expires_us := default 0 (Text.parse_i64 (String.list_byte_of_string (col 4%nat "0"))) in
  if bool_decide (name = "") && bool_decide (value = "") then None
  else Some (mkCookieRecord name value (col 2%nat "") (col 3%nat "/") (expires_of expires_us)
               (bool_decide (col 5%nat "0" = "1")) (bool_decide (col 6%nat "0" = "1")) (same_site_of (col 7%nat "-1"))).
Definition cookie_of_line (line : list byte) : option CookieRecord :=
  cookie_of_cols (map String.string_of_list_byte (Network.split_on Byte.x09 line)).
Definition cookies_of_dump (stdout : list byte) : list CookieRecord :=
  omap cookie_of_line (lines (Text.from_utf8_lossy stdout)).

Inductive sqlite_outcome : Type := NotRun (e : string) | Failed (status stderr : string) | Dumped (stdout : list byte).
(** [temp], [copied]: the temporary file and the copy of the database into it. *)
Definition read_host_cookies (db_exists : bool) (temp copied : result unit string) (out : sqlite_outcome) :
    result (list CookieRecord) string :=
  if negb db_exists then Ok []
  else
    _ <-? temp ;;
    _ <-? copied ;;
    match out with
    | Dumped stdout => Ok (cookies_of_dump stdout)
    | Failed status stderr => Err ("sqlite3 exit " +:+ status +:+ " stderr=" +:+ stderr)
    | NotRun e => Err e
    end.

(** ** Ordered maps *)

Section BTree.
Context {A : Type}.
(** [*m.entry(k).or_insert(d) = f(..)] *)
Fixpoint entry (k : string) (d : A) (f : A -> A) (m : list (string * A)) : list (string * A) :=
  match m with
  | [] => [(k, f d)]
  | (k', a) :: m' =>
      match String.compare k k' with
      | Lt => (k, f d) :: m
      | Eq => (k', f a) :: m'
      | Gt => (k', a) :: entry k d f m'
      end
  end.
Fixpoint find (k : string) (m : list (string * A)) : option A :=
  match m with [] => None | (k', a) :: m => if bool_decide (k = k') then Some a else find k m end.
End BTree.
(** [m.entry(k).or_default().push(v)] *)
Definition push {A} (k : string) (v : A) (m : list (string * list A)) : list (string * list A) :=
  entry k [] (fun l => l ++ [v]) m.

(** ** Grouping, [browser.rs] *)

Definition storage_origin (origin : string) : option string :=
  let trimmed := Input.trim origin in
  if bool_decide (trimmed = "") || bool_decide (trimmed = "null") then None else Some trimmed.

Definition grouped_storage_entries (entries : list StorageEntry) (kind : string) : list (string * list (string * string)) :=
  foldl (fun out e =>
    if negb (bool_decide (se_kind e = kind)) then out
    else match storage_origin (se_origin e) with
         | Some origin => push origin (se_key e, se_value e) out
         | None => out
         end) [] entries.

(** [url.find("://")]: what is before and after. *)
Fixpoint split_scheme (s : string) : option (string * string) :=
  match s with
  | String.EmptyString => None
  | String.String c s' =>
      if Ascii.eqb c (Ascii.ascii_of_nat 58) && starts_slashes s' then Some ("", String.substring 2 (String.length s' - 2) s')
      else match split_scheme s' with Some (a, b) => Some (String.String c a, b) | None => None end
  end.
(** [&rest[..rest.find('/')]] *)
Fixpoint upto_slash (s : string) : string :=
  match s with
  | String.EmptyString => ""
  | String.String c s => if Ascii.eqb c (Ascii.ascii_of_nat 47) then "" else String.String c (upto_slash s)
  end.
Definition js_origin (url : string) : option string :=
  match split_scheme url with
  | None => None
  | Some (scheme, rest) =>
      if negb (bool_decide (scheme = "http")) && negb (bool_decide (scheme = "https")) then None
      else Some (scheme +:+ "://" +:+ upto_slash rest)
  end.

Record IndexedDbRecordSeed := mkRecordSeed { rs_key : json; rs_value : json }.
Record IndexedDbStoreSeed := mkStoreSeed {
  ss_name : string; ss_key_path : option json; ss_auto_increment : bool; ss_records : list IndexedDbRecordSeed
}.
Record IndexedDbDatabaseSeed := mkDbSeed { ds_name : string; ds_version : option Z; ds_stores : list IndexedDbStoreSeed }.
Definition stores_of : Type := list (string * IndexedDbStoreSeed).
Definition dbs_of : Type := list (string * stores_of).

(** Base64, serde_json's reader, and the scripts around their data. *)
Class SeedText := {
  b64_bytes : string -> option (list byte);
  read_json : string -> option json;
  session_seed_script : list (string * list (string * string)) -> string;
  indexed_db_script : list IndexedDbDatabaseSeed -> string;
  service_worker_script : list ServiceWorkerReg -> string;
  cache_script : list CacheStorageEntry -> string
}.

Section Apply.
Context `{Sd : SeedText} `{Scr : Scripts} `{Env : PageEnv} `{WTxt : WaitText}.

Definition build_session_storage_seed_script (entries : list StorageEntry) : option string :=
  let grouped := grouped_storage_entries entries "session" in
  if is_nil grouped then None else Some (session_seed_script grouped).

Definition decode_b64_json_value (encoded : string) : result json string :=
  match b64_bytes encoded with
  | None => Err "base64 decode"
  | Some bytes =>
      if bool_decide (Text.from_utf8_lossy bytes = bytes) then
        match read_json (String.string_of_list_byte bytes) with Some v => Ok v | None => Err "json decode" end
      else Err "utf8 decode"
  end.

Definition add_record (r : IndexedDbRecord) (key value : json) (stores : stores_of) : stores_of :=
  entry (ir_object_store r) (mkStoreSeed (ir_object_store r) None false [])
    (fun s => mkStoreSeed (ss_name s) (ss_key_path s) (ss_auto_increment s) (ss_records s ++ [mkRecordSeed key value])) stores.
Fixpoint group_records (records : list IndexedDbRecord) (grouped : list (string * dbs_of))
    (versions : gmap (string * string) (option Z)) :
    result (list (string * dbs_of) * gmap (string * string) (option Z)) string :=
  match records with
  | [] => Ok (grouped, versions)
  | r :: records =>
      match storage_origin (ir_origin r) with
      | None => group_records records grouped versions
      | Some origin =>
          let what := ir_database_name r +:+ ":" +:+ ir_object_store r in
          match decode_b64_json_value (ir_key_b64 r) with
          | Err _ => Err ("decode IndexedDB key for " +:+ what)
          | Ok key =>
              match decode_b64_json_value (ir_value_b64 r) with
              | Err _ => Err ("decode IndexedDB value for " +:+ what)
              | Ok value =>
                  group_records records
                    (entry origin [] (entry (ir_database_name r) [] (add_record r key value)) grouped)
                    (<[(origin, ir_database_name r) := ir_database_version r]> versions)
              end
          end
      end
  end.
Definition build_indexed_db_seed (records : list IndexedDbRecord) :
    result (list (string * list IndexedDbDatabaseSeed)) string :=
  gv <-? group_records records [] ∅ ;;
  let '(grouped, versions) := gv in
  Ok (map (fun '(origin, dbs) =>
        (origin, map (fun '(db, stores) =>
                   mkDbSeed db (default None (versions !! (origin, db))) (map snd stores)) dbs)) grouped).

(** ** Applying *)

Inductive sev : Type -> Type :=
| OnTabs {X} (e : bev X) : sev X
| ReadSeedPlan : sev (result (option SeedPlan) string)
| RemoveSeedPlan : sev (result unit string)
| SetSessionSeed (script : option string) : sev unit
| SetCookies (params : list json) : sev (result unit string).
Definition seeding (A : Type) : Type := prog sev (result A string).
Definition tabs {A} (p : run A) : seeding A := embed (@OnTabs) p.
Definition because {A} (c : string) (p : seeding A) : seeding A := map_err (fun _ => c) p.

(** The default context of the new browser. *)
Variable cx : BrowserContext.
Variable seed_plan_path : string.

Definition open_bootstrap_page (origin : string) : run PageRef :=
  context ("open bootstrap page for origin " +:+ origin) (open_tab cx origin Router.Load).

Definition seed_cookie (c : CookieRecord) : json :=
  Cookies.to_cdp_param
    (Cookies.mkCookie (ck_name c) (ck_value c) (ck_domain c) (ck_path c) (default (f64_of_Z (-1)) (ck_expires c)) 0
       (ck_http_only c) (ck_secure c) (match ck_expires c with None => true | Some _ => false end) (ck_same_site c)).
Definition apply_seed_cookies (l : list CookieRecord) : seeding unit :=
  because "Network.setCookies (V-R1 seed)" (trigger (SetCookies (map seed_cookie l))).

Definition storage_id (origin : string) : json := JObj [("securityOrigin", JStr origin); ("isLocalStorage", JBool true)].
Definition storage_item (origin key value : string) : json :=
  JObj [("storageId", storage_id origin); ("key", JStr key); ("value", JStr value)].
Definition seed_items (page : PageRef) (origin : string) (kvs : list (string * string)) : run unit :=
  context "DOMStorage.enable (V-R1 localStorage seed)" (want (CdpCall (cdp_session_id page) "DOMStorage.enable" None)) ;;!
  for_each kvs (fun kv =>
    context "DOMStorage.setDOMStorageItem (V-R1 localStorage seed)"
      (want (CdpCall (cdp_session_id page) "DOMStorage.setDOMStorageItem" (Some (storage_item origin (fst kv) (snd kv))))) ;;!
    ok tt).
Definition seed_local (g : string * list (string * string)) : run unit :=
  let '(origin, kvs) := g in
  page <-! open_bootstrap_page origin ;;
  seed_items page origin kvs ;;!
  context "close bootstrap page (localStorage seed)" (close page).
Definition apply_seed_local_storage (entries : list StorageEntry) : run unit :=
  for_each (grouped_storage_entries entries "local") seed_local.

(** Opens a page of the origin, runs the script in it and closes it. *)
Definition seed_by_script (evaluated closed : string) (origin script : string) : run unit :=
  page <-! open_bootstrap_page origin ;;
  (context evaluated (embed (fun X e => OnAct (cdp_session_id page) e) (eval script true)) ;;! ok tt) ;;!
  context closed (close page).
Definition apply_seed_indexed_db (records : list IndexedDbRecord) : run unit :=
  grouped <-! lift (build_indexed_db_seed records) ;;
  for_each grouped (fun '(origin, dbs) =>
    seed_by_script "apply IndexedDB seed" "close bootstrap page (IndexedDB seed)" origin (indexed_db_script dbs)).
Definition group_regs (regs : list ServiceWorkerReg) : list (string * list ServiceWorkerReg) :=
  foldl (fun m r =>
    match match js_origin (sw_script_url r) with Some o => Some o | None => js_origin (sw_scope r) end with
    | Some origin => push origin r m
    | None => m
    end) [] regs.
Definition apply_seed_service_workers (regs : list ServiceWorkerReg) : run unit :=
  for_each (group_regs regs) (fun '(origin, regs) =>
    seed_by_script "apply service worker seed" "close bootstrap page (service worker seed)" origin (service_worker_script regs)).
Definition group_caches (l : list CacheStorageEntry) : list (string * list CacheStorageEntry) :=
  foldl (fun m e => match storage_origin (ce_origin e) with Some origin => push origin e m | None => m end) [] l.
Definition apply_seed_cache_storage (l : list CacheStorageEntry) : run unit :=
  for_each (group_caches l) (fun '(origin, entries) =>
    seed_by_script "apply CacheStorage seed" "close bootstrap page (cache storage seed)" origin (cache_script entries)).

Definition unless_empty {A} (l : list A) (p : seeding unit) : seeding unit := if is_nil l then ok tt else p.
Definition apply_plan (plan : SeedPlan) : seeding unit :=
  _ <-- trigger (SetSessionSeed (build_session_storage_seed_script (storage plan))) ;;
  unless_empty (cookies plan) (apply_seed_cookies (cookies plan)) ;;!
  unless_empty (storage plan) (tabs (apply_seed_local_storage (storage plan))) ;;!
  unless_empty (indexed_db plan) (tabs (apply_seed_indexed_db (indexed_db plan))) ;;!
  unless_empty (service_workers plan) (tabs (apply_seed_service_workers (service_workers plan))) ;;!
  unless_empty (cache_storage plan) (tabs (apply_seed_cache_storage (cache_storage plan))) ;;!
  map_err (fun e => "remove consumed seed plan " +:+ seed_plan_path +:+ ": " +:+ e) (trigger RemoveSeedPlan).
Definition apply_seed_plan : seeding unit :=
  o <-! trigger ReadSeedPlan ;;
  match o with
  | None => ok tt
  | Some plan => if is_empty plan then (_ <-- trigger RemoveSeedPlan ;; ok tt) else apply_plan plan
  end.

End Apply.

(** ** Maps in order *)

Definition before (a b : string) : Prop := String.compare a b = Lt.
#[export] Instance before_trans : Transitive before.
Proof.
  unfold before. intros a. induction a as [|x a IH]; intros [|y b] [|z c]; cbn; try done.
  unfold Ascii.compare. destruct (N.compare_spec (Ascii.N_of_ascii x) (Ascii.N_of_ascii y)) as [E|L|G]; try done.
  - rewrite E. destruct (N.compare_spec (Ascii.N_of_ascii y) (Ascii.N_of_ascii z)); try done. apply IH.
  - destruct (N.compare_spec (Ascii.N_of_ascii y) (Ascii.N_of_ascii z)) as [E'|L'|G']; intros _; try done.
    + rewrite <- E'. now rewrite (proj2 (N.compare_lt_iff _ _) L).
    + now rewrite (proj2 (N.compare_lt_iff _ _) (N.lt_trans _ _ _ L L')).
Qed.
Lemma compare_refl a : String.compare a a = Eq.
Proof. induction a as [|x a IH]; cbn; [done|]. unfold Ascii.compare. now rewrite N.compare_refl. Qed.
Lemma before_irrefl a : ~ before a a.
Proof. unfold before. now rewrite compare_refl. Qed.
Lemma compare_gt a b : String.compare a b = Gt -> before b a.
Proof. intros H. unfold before. now rewrite String.compare_antisym, H. Qed.

Section Ordered.
Context {A : Type}.
Implicit Types (m : list (string * A)).
Definition ordered m : Prop := StronglySorted before (map fst m).

Lemma find_before k m : Forall (before k) (map fst m) -> find k m = None.
Proof.
  induction m as [|[k' a] m IH]; cbn; [done|]. intros [H1 H2]%Forall_cons. rewrite bool_decide_eq_false_2; [now apply IH|].
  intros ->. now apply before_irrefl in H1.
Qed.
Lemma entry_keys k d f m x : x ∈ map fst (entry k d f m) -> x = k \/ x ∈ map fst m.
Proof.
  induction m as [|[k' a] m IH]; cbn; [set_solver|]. destruct (String.compare k k') eqn:E; cbn; set_solver.
Qed.
Lemma entry_ordered k d (f : A -> A) m : ordered m -> ordered (entry k d f m).
Proof.
  unfold ordered. induction m as [|[k' a] m IH]; cbn; [repeat constructor|].
  intros H. apply StronglySorted_inv in H as [H1 H2]. destruct (String.compare k k') eqn:E; cbn.
  - now constructor.
  - constructor; [now constructor|]. constructor; [exact E|]. eapply Forall_impl; [exact H2|]. intros y Hy. now transitivity k'.
  - constructor; [now apply IH|]. apply Forall_forall. intros y Hy. apply entry_keys in Hy as [->|Hy]; [now apply compare_gt|].
    rewrite Forall_forall in H2. now apply H2.
Qed.
Lemma find_entry k d (f : A -> A) m k' : ordered m ->
  find k' (entry k d f m) = if bool_decide (k' = k) then Some (f (default d (find k m))) else find k' m.
Proof.
  unfold ordered. induction m as [|[k0 a] m IH]; cbn; intros H.
  - now case_bool_decide.
  - apply StronglySorted_inv in H as [H1 H2]. destruct (String.compare k k0) eqn:E; cbn.
    + apply String.compare_eq_iff in E as <-. rewrite (bool_decide_eq_true_2 (k = k)) by done. now repeat case_bool_decide; subst.
    + rewrite (bool_decide_eq_false_2 (k = k0)) by (intros ->; now apply before_irrefl in E).
      rewrite (find_before k m); [now case_bool_decide|]. eapply Forall_impl; [exact H2|]. intros y Hy. now transitivity k0.
    + rewrite IH by done. apply compare_gt in E. rewrite (bool_decide_eq_false_2 (k = k0)) by (intros ->; now apply before_irrefl in E).
      repeat case_bool_decide; subst; try done. now apply before_irrefl in E.
Qed.
End Ordered.

Lemma foldl_same {A B} (f g : A -> B -> A) l a : (forall m e, f m e = g m e) -> foldl f a l = foldl g a l.
Proof. intros H. revert a. induction l as [|x l IH]; intros a; cbn; [done|]. now rewrite H. Qed.
Lemma omap_same {A B} (f g : A -> option B) (l : list A) : (forall x, f x = g x) -> omap f l = omap g l.
Proof. intros H. induction l as [|x l IH]; cbn; [done|]. now rewrite H, IH. Qed.

(** What was pushed under a key, in order. *)
Definition nonempty {A} (l : list A) : option (list A) := match l with [] => None | _ => Some l end.
Lemma push_all {A B} (key : B -> option (string * A)) (es : list B) :
  let m := foldl (fun m e => match key e with Some (k, v) => push k v m | None => m end) [] es in
  ordered m /\
  forall k, find k m = nonempty (omap (fun e => match key e with
                                                | Some (k', v) => if bool_decide (k' = k) then Some v else None
                                                | None => None end) es).
Proof.
  cbv zeta. induction es as [|e es [IHo IH]] using rev_ind; [split; [constructor|done]|].
  rewrite foldl_snoc. destruct (key e) as [[k0 v]|] eqn:E.
  - split; [now apply entry_ordered|]. intros k. unfold push. rewrite find_entry by done. rewrite omap_app. cbn [omap list_omap].
    rewrite E, IH. case_bool_decide as Hk; subst.
    + rewrite bool_decide_eq_true_2 by done. now destruct (omap _ es).
    + rewrite bool_decide_eq_false_2 by congruence. now rewrite app_nil_r, IH.
  - split; [done|]. intros k. rewrite omap_app. cbn [omap list_omap]. now rewrite E, app_nil_r.
Qed.

(** Grouping keeps every entry of the kind that has an origin, under it, in
    order, and nothing else. *)
Lemma grouped_storage_spec es kind o :
  ordered (grouped_storage_entries es kind) /\
  find o (grouped_storage_entries es kind) =
  nonempty (omap (fun e => if bool_decide (se_kind e = kind) && bool_decide (storage_origin (se_origin e) = Some o)
                           then Some (se_key e, se_value e) else None) es).
Proof.
  destruct (push_all (fun e => if bool_decide (se_kind e = kind)
                               then (fun o => (o, (se_key e, se_value e))) <$> storage_origin (se_origin e) else None) es) as [H1 H2].
  assert (grouped_storage_entries es kind =
          foldl (fun m e => match (if bool_decide (se_kind e = kind)
                               then (fun o => (o, (se_key e, se_value e))) <$> storage_origin (se_origin e) else None) with
                            Some (k, v) => push k v m | None => m end) [] es) as ->.
  { unfold grouped_storage_entries. apply foldl_same. intros m e. case_bool_decide; cbn; [|done].
    now destruct (storage_origin (se_origin e)). }
  split; [exact H1|]. rewrite H2. f_equal. apply omap_same. intros x. case_bool_decide; cbn; [|done]. destruct (storage_origin (se_origin x)); cbn; [|done].
  repeat case_bool_decide; naive_solver.
Qed.


(** ** What is seen of seeding *)

Inductive sseen : Type := SDid (X : Type) (e : sev X) (x : X).
Definition swatch (X : Type) (e : sev X) (x : X) : list sseen := [SDid X e x].
Definition on_tab (s : seen) : sseen := match s with Did X e x => SDid X (OnTabs e) x end.
Definition tab_event (s : sseen) : option seen :=
  match s with
  | SDid X e x => match e in sev X return X -> option seen with OnTabs e => fun x => Some (Did _ e x) | _ => fun _ => None end x
  end.
Definition tab_events (tr : list sseen) : list seen := omap tab_event tr.

Lemma tab_events_on tr : tab_events (map on_tab tr) = tr.
Proof. unfold tab_events. induction tr as [|[X e x] tr IH]; cbn; [done|]. now rewrite IH. Qed.
Lemma runs_tabs {A} (p : run A) tr a : runs swatch (tabs p) tr a -> exists t, tr = map on_tab t /\ runs watch p t a.
Proof.
  unfold tabs. revert tr. induction p as [b|X e k IH]; intros tr; cbn.
  - intros [-> ->]. now exists [].
  - intros (x & t & -> & R). apply IH in R as (t' & -> & R). exists (Did X e x :: t'). split; [done|]. now exists x, t'.
Qed.

Section Inversion.
Context {E : Type -> Type} {O : Type} (obs : forall X, E X -> X -> list O).
Lemma runs_ok_inv {A B Er} (p : prog E (result A Er)) (f : A -> prog E (result B Er)) tr b :
  runs obs (bind_ok p f) tr (Ok b) ->
  exists t1 t2 a, tr = t1 ++ t2 /\ runs obs p t1 (Ok a) /\ runs obs (f a) t2 (Ok b).
Proof. intros R. apply runs_bind in R as (t1 & t2 & [a|e] & -> & R1 & R2); [eauto 10|]. destruct R2 as [_ R2]. discriminate. Qed.
Lemma runs_map_err_ok {A Er Er'} (g : Er -> Er') (p : prog E (result A Er)) tr a :
  runs obs (map_err g p) tr (Ok a) -> runs obs p tr (Ok a).
Proof.
  intros R. apply runs_bind in R as (t1 & t2 & [x|e] & -> & R1 & [-> R2]); [|discriminate].
  injection R2 as ->. now rewrite app_nil_r.
Qed.
Lemma for_each_ok {A Er} (f : A -> prog E (result unit Er)) l tr x : runs obs (for_each l f) tr (Ok tt) -> x ∈ l ->
  exists pre t post, tr = pre ++ t ++ post /\ runs obs (f x) t (Ok tt).
Proof.
  revert tr. induction l as [|y l IH]; intros tr R Hx; [set_solver|]. cbn [for_each] in R.
  apply runs_ok_inv in R as (t1 & t2 & [] & -> & R1 & R2). apply elem_of_cons in Hx as [->|Hx].
  - now exists [], t1, t2.
  - destruct (IH _ R2 Hx) as (pre & t & post & -> & R). exists (t1 ++ pre), t, post. now rewrite (assoc_L (++)).
Qed.
End Inversion.

(** Membership in a trace put together from parts. *)
Ltac member := rewrite ?elem_of_app, ?elem_of_cons; tauto.

Section SeedFacts.
Context `{Sd : SeedText} `{Scr : Scripts} `{Env : PageEnv} `{WTxt : WaitText}.
Variable cx : BrowserContext.

(** *** The tabs it leaves *)

Definition still (X : Type) (e : bev X) : Prop :=
  match e with PagesInsert _ | PagesRemove _ | PagesReplace _ => False | _ => True end.
Definition keeps (s : seen) : Prop :=
  match s with Did _ e _ => match e with PagesRemove _ | PagesReplace _ => False | _ => True end end.
Definition inserted (s : seen) : option PageRef :=
  match s with Did _ e _ => match e with PagesInsert p => Some p | _ => None end end.
Definition closed_all (tr : list seen) : Prop :=
  forall p x, Did _ (PagesInsert p) x ∈ tr -> exists y, Did _ (CloseTarget (target_id p)) y ∈ tr.
Definition leaves {A} (p : run A) : Prop :=
  post watch p (fun tr r => Forall keeps tr /\ forall a, r = Ok a -> closed_all tr).

Lemma leaves_still {A} (p : run A) : every still p -> leaves p.
Proof.
  intros H tr r R. apply (every_runs _ _ _ _ H) in R. split.
  - eapply Forall_impl; [exact R|]. intros [X e x]. now destruct e.
  - intros _ _ q x Hin. rewrite Forall_forall in R. now apply R in Hin.
Qed.
Lemma closed_all_app t1 t2 : closed_all t1 -> closed_all t2 -> closed_all (t1 ++ t2).
Proof.
  intros H1 H2 p x [Hin|Hin]%elem_of_app; [destruct (H1 _ _ Hin)|destruct (H2 _ _ Hin)]; eexists; apply elem_of_app; eauto.
Qed.
Lemma leaves_bind_ok {A B} (p : run A) (f : A -> run B) : leaves p -> (forall a, leaves (f a)) -> leaves (bind_ok p f).
Proof.
  intros Hp Hf tr r R. apply runs_bind in R as (t1 & t2 & [a|e] & -> & R1 & R2); apply Hp in R1 as [K1 C1].
  - apply Hf in R2 as [K2 C2]. split; [now apply Forall_app|]. intros b ->. apply closed_all_app; eauto.
  - destruct R2 as [-> ->]. rewrite app_nil_r. split; [done|]. discriminate.
Qed.
Lemma leaves_for_each {A} (f : A -> run unit) l : (forall x, leaves (f x)) -> leaves (for_each l f).
Proof. intros H. induction l as [|x l IH]; cbn [for_each]; [now apply leaves_still|]. now apply leaves_bind_ok. Qed.

(** A page opened, used and closed. *)
Lemma leaves_page origin (mid : PageRef -> run unit) c : (forall p, every still (mid p)) ->
  leaves (page <-! open_bootstrap_page cx origin ;; mid page ;;! context c (close page)).
Proof.
  intros Hm tr r R. apply runs_bind in R as (t1 & t2 & o & -> & R1 & R2).
  apply runs_bind in R1 as (t3 & t4 & o' & -> & R1 & [-> ->]). rewrite app_nil_r.
  apply open_tab_registers in R1. assert (forall t, hushed t -> Forall keeps t /\ closed_all t) as Hh.
  { intros t Ht. split.
    - eapply Forall_impl; [exact Ht|]. intros [X e x]. now destruct e.
    - intros q y Hin. unfold hushed in Ht. rewrite Forall_forall in Ht. now apply Ht in Hin. }
  destruct o' as [page|e]; [|destruct R2 as [-> ->]; rewrite app_nil_r; split; [now apply Hh|discriminate]].
  destruct R1 as (t' & x & -> & [K C]%Hh).
  apply runs_bind in R2 as (t5 & t6 & [[]|e] & -> & R2 & R3); apply (leaves_still _ (Hm page)) in R2 as [K2 C2].
  - apply runs_bind in R3 as (t7 & t8 & z & -> & R3 & [-> ->]). destruct R3 as (y & ? & -> & -> & ->). split.
    + rewrite !Forall_app. repeat split; auto; repeat constructor.
    + unfold watch. rewrite !app_nil_r. intros _ _ q w Hin. destruct (decide (q = page)) as [->|N]; [exists y; member|].
      rewrite !elem_of_app, !elem_of_cons in Hin. destruct Hin as [[Hin|[Hin|Hin]]|[Hin|[Hin|Hin]]].
      * destruct (C _ _ Hin) as [v Hv]. exists v. member.
      * apply (f_equal inserted) in Hin. cbn in Hin. congruence.
      * now apply not_elem_of_nil in Hin.
      * destruct (C2 tt eq_refl _ _ Hin) as [v Hv]. exists v. member.
      * now apply (f_equal inserted) in Hin.
      * now apply not_elem_of_nil in Hin.
  - destruct R3 as [-> ->]. rewrite app_nil_r. split; [|discriminate]. rewrite !Forall_app. repeat split; auto; repeat constructor.
Qed.

Definition tidy (tr : list seen) : Prop := Forall keeps tr /\ closed_all tr.
Lemma tidy_app t1 t2 : tidy t1 -> tidy t2 -> tidy (t1 ++ t2).
Proof. intros [K1 C1] [K2 C2]. split; [now apply Forall_app|now apply closed_all_app]. Qed.
Lemma tidy_tabs {A} (l : list A) (p : run unit) t : leaves p ->
  runs swatch (unless_empty l (tabs p)) t (Ok tt) -> tidy (tab_events t).
Proof.
  intros Hp R. unfold unless_empty in R. destruct (is_nil l).
  - destruct R as [-> _]. split; [constructor|]. intros q x Hin. now apply not_elem_of_nil in Hin.
  - apply runs_tabs in R as (t' & -> & R). rewrite tab_events_on. apply Hp in R as [K C]. split; eauto.
Qed.
Lemma tab_events_app t1 t2 : tab_events (t1 ++ t2) = tab_events t1 ++ tab_events t2.
Proof. apply omap_app. Qed.

Lemma seed_local_leaves g : leaves (seed_local cx g).
Proof.
  destruct g as [origin kvs]. apply (leaves_page origin (fun page => seed_items page origin kvs)). intros p. unfold seed_items.
  every_step; [repeat every_step; exact I|].
  induction kvs as [|kv kvs IH]; cbn [for_each]; [exact I|]. repeat first [exact IH|every_step]; exact I.
Qed.
Lemma seed_by_script_leaves e c origin script : leaves (seed_by_script cx e c origin script).
Proof.
  apply (leaves_page origin (fun page => context e (embed _ (eval script true)) ;;! ok tt)). intros p. repeat every_step; exact I.
Qed.
Lemma scripts_leave {A} (l : list (string * A)) e c (f : A -> string) :
  leaves (for_each l (fun '(origin, x) => seed_by_script cx e c origin (f x))).
Proof. apply leaves_for_each. intros [origin x]. apply seed_by_script_leaves. Qed.

Lemma apply_plan_tidy path plan tr : runs swatch (apply_plan cx path plan) tr (Ok tt) -> tidy (tab_events tr).
Proof.
  intros R. apply runs_bind in R as (t0 & t1 & [] & -> & R0 & R). destruct R0 as ([] & ? & -> & -> & _).
  do 5 (let t := fresh "t" in let R1 := fresh "R" in apply runs_ok_inv in R as (t & ? & [] & -> & R1 & R)).
  rewrite !tab_events_app. assert (tidy []) as Hn by (split; [constructor|]; intros ? ? H; now apply not_elem_of_nil in H).
  repeat apply tidy_app; [exact Hn|exact Hn|..].
  - unfold unless_empty in R0. destruct (is_nil _); [destruct R0 as [-> _]; exact Hn|].
    apply runs_map_err_ok in R0. destruct R0 as (? & ? & -> & -> & _). exact Hn.
  - eapply tidy_tabs; [|exact R1]. apply leaves_for_each, seed_local_leaves.
  - eapply tidy_tabs; [|exact R2]. apply leaves_bind_ok; [now apply leaves_still|]. intros g. apply scripts_leave.
  - eapply tidy_tabs; [|exact R3]. apply scripts_leave.
  - eapply tidy_tabs; [|exact R4]. apply scripts_leave.
  - apply runs_map_err_ok in R. destruct R as (? & ? & -> & -> & _). exact Hn.
Qed.

Lemma registry_inserted m tr t p : Forall keeps tr -> registry m tr !! t = Some p ->
  m !! t = Some p \/ exists x, Did _ (PagesInsert p) x ∈ tr.
Proof.
  intros K. revert m. unfold registry. induction K as [|[X e x] tr He K IH]; intros m; cbn [foldl]; [auto|].
  intros H. apply IH in H as [H|[y H]]; [|right; exists y; now constructor].
  destruct e; cbn in *; try (left; exact H); try done. unfold insert_page in H. apply lookup_insert_Some in H as [[_ <-]|[_ H]]; [right|now left].
  exists x. constructor.
Qed.
Lemma registry_present m tr : Forall keeps tr -> (forall t, is_Some (m !! t) -> is_Some (registry m tr !! t)) /\
  forall p x, Did _ (PagesInsert p) x ∈ tr -> is_Some (registry m tr !! tab_id p).
Proof.
  intros K. revert m. unfold registry. induction K as [|[X e x] tr He K IH]; intros m; cbn [foldl].
  - split; [done|]. intros p x H. now apply not_elem_of_nil in H.
  - destruct (IH (registry_step m (Did X e x))) as [I1 I2]. split.
    + intros t Ht. apply I1. destruct e; cbn in *; try exact Ht; try done. unfold insert_page. apply lookup_insert_is_Some'. auto.
    + intros p y Hin. apply elem_of_cons in Hin as [Hin|Hin]; [|now apply (I2 p y)]. apply I1.
      apply (f_equal inserted) in Hin. cbn in Hin. destruct e; try done. injection Hin as ->. cbn. unfold insert_page.
      rewrite lookup_insert_eq. eauto.
Qed.

(** after a plan was applied to a new browser, every tab of its registry is
    one whose target was closed while seeding, and every page that was opened
    for it is still there: closing the page of an origin does not remove it
    from the context. *)
Theorem seeded_tabs_stay path plan tr : runs swatch (apply_plan cx path plan) tr (Ok tt) ->
  (forall t p, registry ∅ (tab_events tr) !! t = Some p -> exists y, Did _ (CloseTarget (target_id p)) y ∈ tab_events tr) /\
  (forall p x, Did _ (PagesInsert p) x ∈ tab_events tr -> is_Some (registry ∅ (tab_events tr) !! tab_id p)).
Proof.
  intros R. apply apply_plan_tidy in R as [K C]. split; [|now apply registry_present].
  intros t p H. apply registry_inserted in H as [H|[x H]]; [done| |done]. now apply C in H.
Qed.

(** *** What it applies *)

Lemma open_tab_navigable c url u tr p : runs watch (open_tab c url u) tr (Ok p) -> navigable url.
Proof. intros R. apply runs_ok_inv in R as (t1 & t2 & [] & -> & [_ R] & _). now apply validate_navigable. Qed.
Lemma elem_of_middle {A} (x : A) pre t post : x ∈ t -> x ∈ pre ++ t ++ post.
Proof. intros H. member. Qed.
Lemma seed_local_sets origin kvs tr kv : runs watch (seed_local cx (origin, kvs)) tr (Ok tt) -> kv ∈ kvs ->
  navigable origin /\
  exists sid v, Did _ (CdpCall sid "DOMStorage.setDOMStorageItem" (Some (storage_item origin (fst kv) (snd kv)))) (Ok v) ∈ tr.
Proof.
  intros R Hkv. apply runs_ok_inv in R as (t1 & t2 & page & -> & R1 & R). split.
  - apply runs_map_err_ok in R1. now apply open_tab_navigable in R1.
  - apply runs_ok_inv in R as (t3 & t4 & [] & -> & R2 & _). apply runs_ok_inv in R2 as (t5 & t6 & ? & -> & _ & R2).
    apply (for_each_ok _ _ _ _ kv) in R2 as (pre & t & post & -> & R2); [|done].
    apply runs_ok_inv in R2 as (t7 & t8 & v & -> & R2 & _). apply runs_map_err_ok in R2.
    destruct R2 as (y & ? & -> & -> & <-). exists (cdp_session_id page), v. unfold watch. member.
Qed.
Lemma find_elem {A} k (m : list (string * A)) a : find k m = Some a -> (k, a) ∈ m.
Proof.
  induction m as [|[k' a'] m IH]; cbn; [done|]. case_bool_decide; [intros [= ->]; subst; constructor|]. intros H'. constructor. auto.
Qed.
Lemma tab_events_tabs pre t post s : s ∈ t -> s ∈ tab_events (pre ++ map on_tab t ++ post).
Proof. intros H. rewrite !tab_events_app, tab_events_on. now apply elem_of_middle. Qed.


Definition removal (s : sseen) : option (result unit string) :=
  match s with
  | SDid X e x => match e in sev X return X -> option _ with RemoveSeedPlan => fun x => Some x | _ => fun _ => None end x
  end.
(** A plan is dropped only when all of it was applied: when seeding fails the
    file, if its removal was asked at all, could not be removed. *)
Lemma failed_plan_kept path plan tr e : runs swatch (apply_plan cx path plan) tr (Err e) ->
  forall x, SDid _ RemoveSeedPlan x ∈ tr -> exists e', x = Err e'.
Proof.
  intros R x Hin.
  assert (forall A (l : list A) (p : run unit) t r y, runs swatch (unless_empty l (tabs p)) t r -> SDid _ RemoveSeedPlan y ∈ t -> False) as Ht.
  { intros A l p t r y R' H. unfold unless_empty in R'. destruct (is_nil l); [destruct R' as [-> _]; now apply not_elem_of_nil in H|].
    apply runs_tabs in R' as (t' & -> & _). apply list_elem_of_fmap in H as ([X ev z] & H & _). 
    apply (f_equal tab_event) in H. discriminate. }
  assert (forall t r y, runs swatch (unless_empty (cookies plan) (apply_seed_cookies (cookies plan))) t r ->
            SDid _ RemoveSeedPlan y ∈ t -> False) as Hc.
  { intros t r y R' H. unfold unless_empty in R'. destruct (is_nil _); [destruct R' as [-> _]; now apply not_elem_of_nil in H|].
    apply runs_bind in R' as (? & ? & ? & -> & (z & ? & -> & -> & _) & [-> _]). unfold swatch in H. cbn in H.
    apply list_elem_of_singleton in H. discriminate. }
  apply runs_bind in R as (t0 & t1 & [] & -> & R0 & R). destruct R0 as ([] & ? & -> & -> & _).
  apply elem_of_app in Hin as [Hin|Hin]; [cbn in Hin; apply list_elem_of_singleton in Hin; discriminate|].
  do 5 (apply runs_bind in R as (? & ? & [?|?] & -> & ?R' & R);
        [apply elem_of_app in Hin as [Hin|Hin]; [exfalso; eauto|]
        |destruct R as [-> _]; rewrite app_nil_r in Hin; exfalso; eauto]).
  apply runs_bind in R as (? & ? & y & -> & (z & ? & -> & -> & <-) & [-> E]). cbn in Hin.
  apply list_elem_of_singleton in Hin. apply (f_equal removal) in Hin. injection Hin as ->. destruct y; [discriminate|eauto].
Qed.

End SeedFacts.

(** *** The dump of the cookies *)

Fixpoint joined (c : byte) (fields : list (list byte)) : list byte :=
  match fields with [] => [] | [f] => f | f :: fields => f ++ c :: joined c fields end.
(** The rows as the program prints them. *)
Definition dump (rows : list (list (list byte))) : list byte := rows ≫= (fun r => joined Byte.x09 r ++ [Byte.x0a]).

Lemma split_on_app c f l : c ∉ f -> Network.split_on c (f ++ c :: l) = f :: Network.split_on c l.
Proof.
  induction f as [|x f IH]; cbn; intros H; [now rewrite bool_decide_eq_true_2|].
  rewrite bool_decide_eq_false_2 by set_solver. now rewrite IH by set_solver.
Qed.
Lemma split_on_none c f : c ∉ f -> Network.split_on c f = [f].
Proof.
  induction f as [|x f IH]; cbn; intros H; [done|]. rewrite bool_decide_eq_false_2 by set_solver. now rewrite IH by set_solver.
Qed.
Lemma split_on_joined c fields : fields <> [] -> Forall (fun f => c ∉ f) fields ->
  Network.split_on c (joined c fields) = fields.
Proof.
  induction fields as [|f [|g fields] IH]; [done|..]; intros _ [H1 H2]%Forall_cons; [now apply split_on_none|].
  change (joined c (f :: g :: fields)) with (f ++ c :: joined c (g :: fields)). rewrite split_on_app by done. now rewrite IH.
Qed.
Lemma elem_of_joined c x fields : x ∈ joined c fields -> x = c \/ Exists (fun f => x ∈ f) fields.
Proof.
  induction fields as [|f [|g fields] IH]; [set_solver|intros H; right; now constructor|].
  change (joined c (f :: g :: fields)) with (f ++ c :: joined c (g :: fields)).
  rewrite elem_of_app, elem_of_cons. intros [H|[->|H]]; [right; now constructor|now left|].
  apply IH in H as [->|H]; [now left|right; now constructor].
Qed.
Definition plain_row (r : list (list byte)) : Prop :=
  r <> [] /\ Forall (fun f => Byte.x09 ∉ f /\ Byte.x0a ∉ f) r /\ strip_cr (joined Byte.x09 r) = joined Byte.x09 r.
Lemma lines_dump rows : Forall plain_row rows -> lines (dump rows) = map (joined Byte.x09) rows.
Proof.
  unfold lines. induction 1 as [|r rows (Hn & Hf & Hc) _ IH]; [done|]. cbn [dump mbind list_bind]. fold (dump rows).
  rewrite <- (assoc_L (++)). cbn [app]. rewrite split_on_app.
  - cbn [map]. rewrite <- IH. destruct (Network.split_on Byte.x0a (dump rows)) as [|l ls] eqn:E.
    + exfalso. destruct (dump rows) as [|x d]; [done|]. cbn in E. destruct (Network.split_on Byte.x0a d); now case_bool_decide.
    + cbn [lines_of]. now rewrite Hc.
  - intros H. apply elem_of_joined in H as [H|H]; [done|]. apply Exists_exists in H as (f & Hin & H).
    rewrite Forall_forall in Hf. now apply Hf in Hin as [_ ?].
Qed.
(** Rows that are printed are read back: columns without tab and newline, and
    a last one that does not end in a carriage return, come out as they are. *)
Lemma cookie_rows_read rows : Text.from_utf8_lossy (dump rows) = dump rows -> Forall plain_row rows ->
  cookies_of_dump (dump rows) = omap (fun r => cookie_of_cols (map String.string_of_list_byte r)) rows.
Proof.
  intros Hu Hp. unfold cookies_of_dump. rewrite Hu, lines_dump by done. clear Hu. induction Hp as [|r rows (Hn & Hf & _) _ IH]; [done|].
  cbn [map omap list_omap]. unfold cookie_of_line at 1. rewrite split_on_joined; [now rewrite IH|done|].
  eapply Forall_impl; [exact Hf|]. now intros f [? _].
Qed.

End Seeds.

Module SeedsExamples.
Import Seeds.

#[local] Instance scripts : Scripts := { observer_script := "observe"; stealth_script _ := "stealth"; debug_json _ := "v" }.
#[local] Instance penv : PageEnv := {
  powi x n := x; Actions.sin x := x; Actions.cos x := x; dbg s := s; fmt_f64 _ := "1"; fmt_json _ := "j"; b64_decode _ := Ok [];
  json_strings _ := Ok "[]"; menu_script _ := ""
}.
#[local] Instance wtext : WaitText := {
  dbg_duration _ := "d"; dbg_string s := s; closed_text := "channel closed"; lagged_text _ := "channel lagged";
  Rx := string; rx_new p := Ok p; rx_match p u := bool_decide (p = u)
}.
#[local] Instance stext : SeedText := {
  b64_bytes s := Some (String.list_byte_of_string s); read_json s := Some (JStr s); session_seed_script _ := "seed";
  indexed_db_script _ := "idb"; service_worker_script _ := "sw"; cache_script _ := "cache"
}.

Fixpoint splay {A} (answer : forall X, bev X -> option X) (p : prog sev A) : option (list sseen * A) :=
  match p with
  | Ret a => Some ([], a)
  | Vis X e k =>
      match (match e in sev X return option X with
             | OnTabs e => answer _ e
             | ReadSeedPlan => Some (Ok None)
             | RemoveSeedPlan => Some (Ok tt)
             | SetSessionSeed _ => Some tt
             | SetCookies _ => Some (Ok tt)
             end) with
      | Some x => match splay answer (k x) with Some (tr, a) => Some (SDid X e x :: tr, a) | None => None end
      | None => None
      end
  end.
Lemma splay_runs {A} answer (p : prog sev A) tr a : splay answer p = Some (tr, a) -> runs swatch p tr a.
Proof.
  revert tr. induction p as [b|X e k IH]; intros tr; cbn; [now intros [= <- <-]|].
  destruct (match e in sev X return option X with OnTabs e => answer _ e | _ => _ end) as [x|]; [|done].
  destruct (splay answer (k x)) as [[t b]|] eqn:E; [|done].
  intros [= <- <-]. exists x, t. split; [done|]. now apply IH.
Qed.

Definition good (X : Type) (e : bev X) : option X :=
  match e in bev X return option X with
  | CreateTarget _ _ _ => Some (Ok (JStr "AAAABBBB1"))
  | AttachToTarget _ _ => Some (Ok (JStr "s1"))
  | CloseTarget _ => Some (Ok tt)
  | OnPage _ _ => Some (Ok tt)
  | CdpCall _ _ _ => Some (Ok JNull)
  | SpawnPump _ => Some tt
  | LifecycleUntil _ _ => Some [Got (mkLifecycle "f" "load" f64_zero)]
  | HasProxyAuth => Some false
  | SessionStorageSeed => Some None
  | PagesInsert _ => Some tt
  | _ => None
  end.
Definition cx1 : BrowserContext := mkContext "default" true false 1.
Definition entry1 : StorageEntry := mkStorage " https://a.example " "k" "v" "local".
Definition plan1 : SeedPlan :=
  mkPlan [mkCookieRecord "n" "v" "a.example" "/" None true true None]
    [entry1; mkStorage "null" "k" "v" "local"; mkStorage "https://a.example" "s" "v" "session"] [] [] [].
Definition seeded := splay good (apply_plan cx1 "p" plan1).
Definition trace1 : list sseen := match seeded with Some (tr, _) => tr | None => [] end.
Lemma seeded_runs : runs swatch (apply_plan cx1 "p" plan1) trace1 (Ok tt).
Proof. apply (splay_runs good). vm_compute. reflexivity. Qed.

Lemma seeded_tabs_stay_witness :
  map fst (map_to_list (registry ∅ (tab_events trace1))) = ["t_AAAABBBB"] /\
  (forall t p, registry ∅ (tab_events trace1) !! t = Some p -> exists y, Did _ (CloseTarget (target_id p)) y ∈ tab_events trace1) /\
  (forall p x, Did _ (PagesInsert p) x ∈ tab_events trace1 -> is_Some (registry ∅ (tab_events trace1) !! tab_id p)).
Proof. split; [vm_compute; reflexivity|]. apply (seeded_tabs_stay cx1 "p" plan1). apply seeded_runs. Defined.


(** An entry of an extension's origin makes the whole plan fail, before anything else is tried. *)
Example extension_origin_fails :
  option_map snd (splay good (apply_plan cx1 "p" (mkPlan [] [mkStorage "chrome-extension://abc" "k" "v" "local"; entry1] [] [] []))) =
  Some (Err "open bootstrap page for origin chrome-extension://abc").
Proof. vm_compute. reflexivity. Qed.

Example cookie_dump :
  map (fun c => (ck_name c, ck_value c, ck_secure c, ck_same_site c, bool_decide (ck_expires c = None)))
    (cookies_of_dump (dump (map (map String.list_byte_of_string)
       [["sid"; "x"; ".a.example"; "/"; "13300000000000000"; "1"; "1"; "2"]; [""; ""; "b"; "/"; "0"; "0"; "0"; "-1"];
        ["t"; ""; "b"; "/"; "0"; "0"; "0"; "-1"]]))) =
  [("sid", "x", true, Some "Strict", false); ("t", "", false, None, true)].
Proof. vm_compute. reflexivity. Qed.

(** The version of a database is that of the last of its records. *)
Example last_version_wins :
  build_indexed_db_seed [mkIdb "https://a" "db" (Some 3) "s" "k1" "v1"; mkIdb "https://a" "db" None "s" "k2" "v2"] =
  Ok [("https://a", [mkDbSeed "db" None [mkStoreSeed "s" None false [mkRecordSeed (JStr "k1") (JStr "v1"); mkRecordSeed (JStr "k2") (JStr "v2")]]])].
Proof. vm_compute. reflexivity. Qed.

Example origins :
  map js_origin ["https://a.b:8/x/y"; "http://c"; "ftp://d/"; "//e"] = [Some "https://a.b:8"; Some "http://c"; None; None].
Proof. vm_compute. reflexivity. Qed.

End SeedsExamples.
