(* ===== verification/TermTools.v ===== *)
(** * TermTools: the terminal tools of the broker

    Models [broker/src/router/term.rs] over the controller of [TermControl] and
    the redaction of [Privacy] that its texts go through.  A tool is a function
    from its arguments and the controller of the session to its result and the
    controller; the outcomes of the operating system are arguments.  Base64 is a
    parameter. *)
From S2P Require Import Prelude Json Text Privacy Network Input Sandbox TermState TermControl BrokerSession Wire Router Trace.
Import JsonTree Wire Router.

Module TermTools.
Import Privacy.

Class TermText := { b64_encode : list byte -> string; b64_decode : string -> result (list byte) string }.

Definition DEFAULT_TERM_ROWS : Z := 24.
Definition DEFAULT_TERM_COLS : Z := 80.
Definition DEFAULT_READ_BYTES : Z := 64 * 1024.

Definition str (l : list byte) : string := String.string_of_list_byte l.
Definition dec (z : Z) : string := str (Text.fmt_dec z).

(** Display of [TermError], [terminal-control/src/types.rs]. *)
Definition term_display (e : TermError) : string :=
  match e with
  | TermState.SessionNotFound id => "terminal session not found: " +:+ id
  | InvalidSize rows cols => "invalid terminal dimensions rows=" +:+ dec rows +:+ " cols=" +:+ dec cols
  | MissingSandboxProfile => "missing sandbox profile for sandboxed terminal spawn"
  | EmptyShell => "shell path is empty"
  | CwdOutsideRootfs p => "cwd escapes sandbox rootfs: " +:+ Text.path_to_string p
  | CwdNotFound p => "cwd does not exist in sandbox rootfs: " +:+ Text.path_to_string p
  | MouseTrackingDisabled => "mouse tracking is disabled for this terminal session"
  | MouseOutOfBounds rows cols row col =>
      "mouse coordinates are out of bounds for rows=" +:+ dec rows +:+ " cols=" +:+ dec cols +:+ ": row=" +:+ dec row
        +:+ " col=" +:+ dec col
  | InvalidUtf8 => "terminal output is not valid utf-8 for this operation"
  | UnsupportedSignal name => "unsupported signal on this platform: " +:+ Input.of_chars name
  | TermState.Io m => "io: " +:+ m
  | TermState.Spawn m => "spawn: " +:+ m
  | TermState.Internal m => "internal: " +:+ m
  end.
Definition map_term_err (e : TermError) : RouterError :=
  match e with
  | TermState.SessionNotFound _ => mkErr Wire.SessionNotFound (term_display e) None
  | InvalidSize _ _ | EmptyShell | MouseTrackingDisabled | MouseOutOfBounds _ _ _ _ | InvalidUtf8 | UnsupportedSignal _ =>
      invalid_params (term_display e)
  | CwdOutsideRootfs _ | MissingSandboxProfile => mkErr PermissionDenied (term_display e) None
  | CwdNotFound _ => tab_not_found
  | TermState.Io _ | TermState.Spawn _ | TermState.Internal _ => internal (term_display e)
  end.
Definition term_result {A} (r : result A TermError) : result A RouterError :=
  match r with Ok a => Ok a | Err e => Err (map_term_err e) end.

(** ** Arguments *)

Fixpoint env_entries (kvs : list (string * json)) : result (list (string * string)) RouterError :=
  match kvs with
  | [] => Ok []
  | (k, v) :: kvs =>
      match as_str v with
      | None => Err (invalid_params ("env." +:+ k +:+ " must be a string"))
      | Some s => rest <-? env_entries kvs ;; Ok ((k, s) :: rest)
      end
  end.
Definition parse_env_map (params : json) : result (list (string * string)) RouterError :=
  match vget "env" params with
  | None => Ok []
  | Some m =>
      match as_object m with
      | None => Err (invalid_params "env must be an object")
      | Some obj => env_entries obj
      end
  end.
Definition optional_path (params : json) (field : string) : option Text.Path := Text.path_of_string <$> vget_str field params.
Definition optional_u16 (params : json) (field : string) : result (option Z) RouterError :=
  match vget field params with
  | None => Ok None
  | Some v =>
      match as_u64 v with
      | None => Err (invalid_params (field +:+ " must be an integer"))
      | Some raw => if raw <=? u16_max then Ok (Some raw) else Err (invalid_params (field +:+ " exceeds u16"))
      end
  end.
Definition required_u16 (params : json) (field : string) : result Z RouterError :=
  o <-? optional_u16 params field ;; match o with Some z => Ok z | None => Err (invalid_params ("missing " +:+ field)) end.
Definition parse_mouse_kind (v : string) : result MouseEventKind RouterError :=
  if bool_decide (v = "press") then Ok KPress else if bool_decide (v = "release") then Ok KRelease
  else if bool_decide (v = "move") then Ok KMove else if bool_decide (v = "scroll_up") then Ok KScrollUp
  else if bool_decide (v = "scroll_down") then Ok KScrollDown else Err (invalid_params ("unsupported mouse kind: " +:+ v)).
Definition parse_mouse_button (v : string) : result MouseButton RouterError :=
  if bool_decide (v = "left") then Ok BLeft else if bool_decide (v = "middle") then Ok BMiddle
  else if bool_decide (v = "right") then Ok BRight else if bool_decide (v = "none") then Ok BNone
  else Err (invalid_params ("unsupported mouse button: " +:+ v)).
Definition parse_mouse (params : json) : result MouseEventRequest RouterError :=
  row <-? required_u16 params "row" ;;
  col <-? required_u16 params "col" ;;
  ks <-? required_str params "kind" ;;
  kind <-? parse_mouse_kind ks ;;
  button <-? match vget_str "button" params with
             | Some b => b <-? parse_mouse_button b ;; Ok (Some b)
             | None => Ok None
             end ;;
  let flag (k : string) := default false (vget k params ≫= as_bool) in
  Ok (mkMouse row col kind button (flag "shift") (flag "alt") (flag "ctrl")).

(** ** Serialized values, [types.rs] *)

Definition opt {A} (k : string) (f : A -> json) (o : option A) : list (string * json) :=
  match o with Some a => [(k, f a)] | None => [] end.
Definition color_value (c : TermColor) : json :=
  match c with
  | DefaultColor => JStr "default"
  | Indexed i => JObj [("indexed", JNum i)]
  | Rgb r g b => JObj [("rgb", JObj [("r", JNum r); ("g", JNum g); ("b", JNum b)])]
  end.
Definition style_value (s : TermStyle) : json :=
  JObj [("fg", color_value (fg s)); ("bg", color_value (bg s)); ("bold", JBool (bold s)); ("dim", JBool (dim s));
        ("italic", JBool (italic s)); ("underline", JBool (underline s)); ("inverse", JBool (inverse s))].
Definition run_value (r : TermAttrRun) : json :=
  JObj [("start_col", JNum (start_col r)); ("end_col", JNum (end_col r)); ("style", style_value (run_style r))].
Definition row_value (r : TermSnapshotRow) : json :=
  JObj [("row", JNum (row r)); ("text", JStr (str (text r))); ("wrapped", JBool (wrapped r)); ("attrs", JArr (map run_value (attrs r)))].
Definition line_value (l : TermScrollbackLine) : json :=
  JObj [("index", JNum (index l)); ("text", JStr (str (line_text l))); ("wrapped", JBool (line_wrapped l))].
Definition mode_value (m : TermMouseMode) : json :=
  JStr (match m with ModeNone => "none" | ModePress => "press" | ModePressRelease => "press_release"
               | ModeButtonMotion => "button_motion" | ModeAnyMotion => "any_motion" end).
Definition encoding_value (e : TermMouseEncoding) : json :=
  JStr (match e with EncDefault => "default" | EncUtf8 => "utf8" | EncSgr => "sgr" end).
Definition alt_value (a : TermAltScreenState) : json :=
  JObj ([("active", JBool (active a)); ("mouse_mode", mode_value (alt_mouse_mode a));
         ("mouse_encoding", encoding_value (alt_mouse_encoding a)); ("cursor_hidden", JBool (alt_cursor_hidden a))]
        ++ opt "window_title" (fun t => JStr (str t)) (alt_window_title a)).
Definition exit_fields (e : TermExitState) : list (string * json) :=
  [("exited", JBool (exited e))] ++ opt "exit_code" JNum (exit_code e) ++ opt "signal" JStr (exit_signal e).
Definition snapshot_value (s : TermSnapshot) : json :=
  JObj ([("snapshot_seq", JNum (snap_seq s)); ("session_id", JStr (snap_session_id s)); ("rows", JNum (snap_rows s));
         ("cols", JNum (snap_cols s));
         ("cursor", JObj [("row", JNum (cur_row (cursor s))); ("col", JNum (cur_col (cursor s)))]);
         ("alt_screen_active", JBool (alt_screen_active s)); ("mouse_mode", mode_value (mouse_mode s));
         ("mouse_encoding", encoding_value (mouse_encoding s)); ("cursor_hidden", JBool (cursor_hidden s))]
        ++ opt "window_title" (fun t => JStr (str t)) (snap_window_title s)
        ++ [("visible_rows", JArr (map row_value (visible_rows s))); ("exit", JObj (exit_fields (snap_exit s)))]).

Section Tools.
Context `{Re : RegexEngine} `{Txt : TermText} `{Vt : Vt100}.
(** The redaction engine of the session's app controller. *)
Variable privacy : RedactionEngine.
Notation Ctl := TermControl.TerminalController.

Definition redact_text (text : list byte) : list byte :=
  match scrub_text (str text) privacy with
  | Some t => String.list_byte_of_string t
  | None =>
      match Privacy.redact_text (str text) privacy with
      | Some t => String.list_byte_of_string t
      | None => text
      end
  end.
Definition redact_snapshot (s : TermSnapshot) : TermSnapshot :=
  mkSnapshot (snap_seq s) (snap_session_id s) (snap_rows s) (snap_cols s) (cursor s) (alt_screen_active s) (mouse_mode s)
    (mouse_encoding s) (cursor_hidden s) (redact_text <$> snap_window_title s)
    (map (fun r => mkRow (row r) (redact_text (text r)) (wrapped r) (attrs r)) (visible_rows s)) (snap_exit s).

(** ** The tools *)

Definition term_spawn `{Text.Os} (sandbox : option SessionSandbox) (pty : Command -> result unit string) (params : json) (c : Ctl) :
    result json RouterError * Ctl :=
  match (shell <-? required_str params "shell" ;;
         env <-? parse_env_map params ;;
         rows <-? optional_u16 params "rows" ;;
         cols <-? optional_u16 params "cols" ;;
         Ok (mkSpawn shell (optional_path params "cwd") env (default DEFAULT_TERM_ROWS rows) (default DEFAULT_TERM_COLS cols) sandbox)) with
  | Err e => (Err e, c)
  | Ok q =>
      let '(r, c) := TermControl.spawn_terminal pty c q in
      (match r with
       | Ok s => Ok (JObj [("session_id", JStr (res_session_id s)); ("rows", JNum (res_rows s)); ("cols", JNum (res_cols s))])
       | Err e => Err (map_term_err e)
       end, c)
  end.

Definition write_data (params : json) : result (list byte) RouterError :=
  match vget_str "text" params, vget_str "data_base64" params with
  | Some t, _ => Ok (String.list_byte_of_string t)
  | None, Some d =>
      match b64_decode d with Ok l => Ok l | Err e => Err (invalid_params ("invalid data_base64: " +:+ e)) end
  | None, None => Err (invalid_params "missing text or data_base64")
  end.
Definition term_write (io : result unit string) (params : json) (c : Ctl) : result json RouterError * Ctl :=
  match (id <-? required_str params "session_id" ;; d <-? write_data params ;; Ok (id, d)) with
  | Err e => (Err e, c)
  | Ok (id, d) =>
      let '(r, c) := TermControl.ctl_write_bytes io c id d in
      (n <-? term_result r ;; Ok (JObj [("bytes_written", JNum n)]), c)
  end.

(** [String::from_utf8(..).ok()], redacted. *)
Definition utf8_text (d : list byte) : json :=
  if bool_decide (Text.from_utf8_lossy d = d) then JStr (str (redact_text d)) else JNull.
Definition term_read (params : json) (c : Ctl) : result json RouterError * Ctl :=
  match required_str params "session_id" with
  | Err e => (Err e, c)
  | Ok id =>
      let max_bytes := default DEFAULT_READ_BYTES (vget "max_bytes" params ≫= as_u64) in
      let '(r, c) := TermControl.ctl_read_output c id max_bytes in
      (chunk <-? term_result r ;;
       Ok (JObj [("bytes", JNum (zlen (data chunk))); ("data_base64", JStr (b64_encode (data chunk)));
                 ("text", utf8_text (data chunk)); ("eof", JBool (eof chunk)); ("dropped_bytes", JNum (dropped_bytes chunk))]), c)
  end.
Definition term_snapshot (params : json) (c : Ctl) : result json RouterError * Ctl :=
  match required_str params "session_id" with
  | Err e => (Err e, c)
  | Ok id =>
      let '(r, c) := TermControl.ctl_snapshot c id in
      (s <-? term_result r ;; Ok (snapshot_value (redact_snapshot s)), c)
  end.
Definition term_resize (io : result unit string) (params : json) (c : Ctl) : result json RouterError * Ctl :=
  match (id <-? required_str params "session_id" ;;
         rows <-? required_u16 params "rows" ;;
         cols <-? required_u16 params "cols" ;; Ok (id, rows, cols)) with
  | Err e => (Err e, c)
  | Ok (id, rows, cols) =>
      let '(r, c) := TermControl.ctl_resize io c id rows cols in
      (_ <-? term_result r ;; Ok (JObj [("ok", JBool true); ("rows", JNum rows); ("cols", JNum cols)]), c)
  end.
Definition term_close (ch : TermControl.Child) (params : json) (c : Ctl) : result json RouterError * Ctl :=
  match required_str params "session_id" with
  | Err e => (Err e, c)
  | Ok id =>
      let '(r, c, _) := TermControl.ctl_close ch c id in
      (e <-? term_result r ;; Ok (JObj (exit_fields e)), c)
  end.
(** With the signals that are sent. *)
Definition term_send_signal (ch : TermControl.Child) (params : json) (c : Ctl) : result json RouterError * list (Z * Signal) :=
  match (id <-? required_str params "session_id" ;; s <-? required_str params "signal" ;; Ok (id, s)) with
  | Err e => (Err e, [])
  | Ok (id, s) =>
      let '(r, sent) := TermControl.ctl_send_signal ch c id (Text.str_chars s) in
      (_ <-? term_result r ;; Ok (JObj [("ok", JBool true); ("signal", JStr s)]), sent)
  end.

(** [TerminalController::scrollback], [None] when the reader's fuel is spent. *)
Definition ctl_scrollback (c : Ctl) (id : string) (n : Z) : option (result (list TermScrollbackLine) TermError) :=
  match TermControl.session c id with
  | Err e => Some (Err e)
  | Ok s => match TermState.scrollback_lines (TermControl.shared s) n with Some l => Some (Ok l) | None => None end
  end.
Definition ctl_alt_screen_state (c : Ctl) (id : string) : result TermAltScreenState TermError :=
  match TermControl.session c id with
  | Err e => Err e
  | Ok s => Ok (TermState.alt_screen_state (TermControl.shared s))
  end.
Definition term_scrollback (params : json) (c : Ctl) : option (result json RouterError) :=
  match (id <-? required_str params "session_id" ;;
         n <-? match vget "n_lines" params ≫= as_u64 with Some n => Ok n | None => Err (invalid_params "missing n_lines") end ;;
         Ok (id, n)) with
  | Err e => Some (Err e)
  | Ok (id, n) =>
      match ctl_scrollback c id n with
      | None => None
      | Some r =>
          Some (lines <-? term_result r ;;
                Ok (JObj [("lines", JArr (map (fun l => line_value (mkLine (index l) (redact_text (line_text l)) (line_wrapped l)))
                                             lines))]))
      end
  end.
Definition term_alt_screen_active (params : json) (c : Ctl) : result json RouterError :=
  id <-? required_str params "session_id" ;;
  a <-? term_result (ctl_alt_screen_state c id) ;;
  Ok (alt_value (mkAlt (active a) (alt_mouse_mode a) (alt_mouse_encoding a) (alt_cursor_hidden a)
                   (redact_text <$> alt_window_title a))).
Definition term_mouse_event (io : result unit string) (params : json) (c : Ctl) : result json RouterError * Ctl :=
  match (id <-? required_str params "session_id" ;; q <-? parse_mouse params ;; Ok (id, q)) with
  | Err e => (Err e, c)
  | Ok (id, q) =>
      let '(r, c) := TermControl.mouse_event io c id q in
      (_ <-? term_result r ;; Ok (JObj [("ok", JBool true)]), c)
  end.

(** ** Notifications *)

Definition build_term_output_params (session_id : string) (o : TermOutputEvent) (text : json) : json :=
  JObj [("topic", JStr "term.output"); ("session_id", JStr session_id);
        ("payload", JObj [("term_session_id", JStr (o_session_id o)); ("seq", JNum (o_seq o)); ("bytes", JNum (zlen (o_data o)));
                          ("data_base64", JStr (b64_encode (o_data o))); ("text", text);
                          ("dropped_bytes", JNum (o_dropped_bytes o)); ("eof", JBool (o_eof o))])].
Definition build_term_exit_params (session_id : string) (e : TermExitEvent) : json :=
  JObj [("topic", JStr "term.exit"); ("session_id", JStr session_id);
        ("payload", JObj ([("term_session_id", JStr (e_session_id e))] ++ exit_fields (e_exit e)))].
Definition notify_params (session_id : string) (ev : TerminalEvent) : json :=
  match ev with
  | Output o => build_term_output_params session_id o (utf8_text (o_data o))
  | Exit e => build_term_exit_params session_id e
  end.
(** What is written to the trace, when it is on and the session has a writer. *)
Definition trace_args (ev : TerminalEvent) : string * json :=
  match ev with
  | Output o =>
      ("term.output", JObj [("term_session_id", JStr (o_session_id o)); ("seq", JNum (o_seq o)); ("bytes", JNum (zlen (o_data o)))])
  | Exit e => ("term.exit", JObj [("term_session_id", JStr (e_session_id e))])
  end.
Definition trace_terminal_event (writer_now : option Z) (session_id : string) (ev : TerminalEvent) : list Trace.TraceEvent :=
  match writer_now with
  | None => []
  | Some ts => let '(tool, args) := trace_args ev in [Trace.Action ts session_id "" tool args (notify_params session_id ev)]
  end.
Definition notify (q : BrokerSession.queue_state) (now : Z) (writer_now : option Z) (ev : TerminalEvent)
    (e : BrokerSession.SessionEntry) : BrokerSession.SessionEntry * list Trace.TraceEvent :=
  let params := notify_params (BrokerSession.session_id e) ev in
  (fst (BrokerSession.try_push q now e (mkEvent "2.0" "event/notify" params)),
   trace_terminal_event writer_now (BrokerSession.session_id e) ev).

End Tools.

(** ** What the tools promise *)

Section Facts.
Context `{Re : RegexEngine} `{Txt : TermText} `{Vt : Vt100} `{Os : Text.Os}.
Variable privacy : RedactionEngine.
Notation Ctl := TermControl.TerminalController.

(** The second attempt of [redact_text] never has anything to do. *)
Lemma redact_text_scrubs t :
  redact_text privacy t = match scrub_text (str t) privacy with Some u => String.list_byte_of_string u | None => t end.
Proof.
  unfold redact_text. destruct (scrub_text (str t) privacy) eqn:E; [done|]. apply scrub_none in E.
  unfold Privacy.redact_text. now rewrite E.
Qed.
(** Text that no pattern matches is shown as it is. *)
Lemma redact_text_clean t : matches (str t) privacy = false -> redact_text privacy t = t.
Proof. intros H. rewrite redact_text_scrubs. now rewrite (proj2 (scrub_none _ _) H). Qed.

(** The calls that may change the controller, with what the system answers. *)
Inductive call : Type :=
| CSpawn (sandbox : option SessionSandbox) (pty : Command -> result unit string)
| CWrite (io : result unit string) | CRead | CSnapshot | CResize (io : result unit string)
| CClose (ch : TermControl.Child) | CMouse (io : result unit string).
Definition perform (k : call) (params : json) (c : Ctl) : result json RouterError * Ctl :=
  match k with
  | CSpawn sandbox pty => term_spawn sandbox pty params c
  | CWrite io => term_write io params c
  | CRead => term_read privacy params c
  | CSnapshot => term_snapshot privacy params c
  | CResize io => term_resize io params c
  | CClose ch => term_close ch params c
  | CMouse io => term_mouse_event io params c
  end.
(** The terminal a call is about: the one it makes or the one it names. *)
Definition subject (k : call) (params : json) (c : Ctl) : option string :=
  match k with
  | CSpawn _ _ => Some (TermControl.fmt_session_id (TermControl.next_id c))
  | _ => vget_str "session_id" params
  end.

(** The controllers that differ at [o] at most. *)
Definition only_at (o : option string) (c c' : Ctl) : Prop :=
  forall t, o <> Some t -> TermControl.sessions c' !! t = TermControl.sessions c !! t.
Lemma only_at_refl o c : only_at o c c.
Proof. done. Qed.
Lemma only_at_set id (c : Ctl) s : only_at (Some id) c (TermControl.set_session c id s).
Proof. intros t N. apply lookup_insert_ne. congruence. Qed.
Lemma only_at_set2 id (c : Ctl) s s' :
  only_at (Some id) c (TermControl.set_session (TermControl.set_session c id s) id s').
Proof. intros t N. unfold TermControl.set_session. cbn. rewrite !lookup_insert_ne by congruence. done. Qed.
#[local] Hint Resolve only_at_refl only_at_set only_at_set2 : core.

Lemma ctl_write_only io (c : Ctl) id d : only_at (Some id) c (TermControl.ctl_write_bytes io c id d).2.
Proof. unfold TermControl.ctl_write_bytes. repeat case_match; cbn; auto. Qed.
Lemma ctl_read_only (c : Ctl) id n : only_at (Some id) c (TermControl.ctl_read_output c id n).2.
Proof. unfold TermControl.ctl_read_output. repeat case_match; cbn; auto. Qed.
Lemma ctl_snapshot_only (c : Ctl) id : only_at (Some id) c (TermControl.ctl_snapshot c id).2.
Proof. unfold TermControl.ctl_snapshot. repeat case_match; cbn; auto. Qed.
Lemma ctl_resize_only io (c : Ctl) id r l : only_at (Some id) c (TermControl.ctl_resize io c id r l).2.
Proof. unfold TermControl.ctl_resize. repeat case_match; cbn; auto. Qed.
Lemma ctl_mouse_only io (c : Ctl) id q : only_at (Some id) c (TermControl.mouse_event io c id q).2.
Proof. unfold TermControl.mouse_event. repeat case_match; cbn; auto. Qed.
Lemma ctl_close_only ch (c : Ctl) id : only_at (Some id) c (TermControl.ctl_close ch c id).1.2.
Proof.
  unfold TermControl.ctl_close. repeat case_match; cbn; auto. intros ? N. apply lookup_delete_ne. congruence.
Qed.
Lemma ctl_spawn_only pty (c : Ctl) q :
  only_at (Some (TermControl.fmt_session_id (TermControl.next_id c))) c (TermControl.spawn_terminal pty c q).2.
Proof.
  destruct (TermControl.spawn_cases pty c q) as [[e ->]|(s & <- & ->)]; cbn; [auto|].
  intros t N. apply lookup_insert_ne. congruence.
Qed.
#[local] Hint Resolve ctl_write_only ctl_read_only ctl_snapshot_only ctl_resize_only ctl_mouse_only ctl_close_only ctl_spawn_only : core.

Lemma required_session params id : required_str params "session_id" = Ok id -> vget_str "session_id" params = Some id.
Proof. unfold required_str. destruct (vget_str _ _); congruence. Qed.

(** Splits on the id a call names. *)
Ltac named_call :=
  match goal with
  | |- context [required_str ?p "session_id"] =>
      let id := fresh "id" in let E := fresh "E" in
      destruct (required_str p "session_id") as [id|] eqn:E; cbv beta iota;
      [apply required_session in E; rewrite ?E|]
  end.

(** A terminal tool touches only the terminal it names, and spawning only the
    one it makes: whatever the arguments and the answers of the system, every
    other terminal of the session is as before. *)
Theorem other_terminals_untouched k params (c : Ctl) : only_at (subject k params c) c (perform k params c).2.
Proof.
  destruct k; cbn [perform subject].
  - unfold term_spawn. case_match; [|done].
    match goal with |- context [TermControl.spawn_terminal ?p c ?q] => pose proof (ctl_spawn_only p c q); destruct (TermControl.spawn_terminal p c q) end.
    done.
  - unfold term_write. named_call; auto. destruct (write_data params) as [d|]; cbn; [|auto].
    pose proof (ctl_write_only io c id d). destruct (TermControl.ctl_write_bytes _ _ _ _). done.
  - unfold term_read. named_call; auto.
    match goal with |- context [TermControl.ctl_read_output c id ?n] => pose proof (ctl_read_only c id n); destruct (TermControl.ctl_read_output c id n) end.
    done.
  - unfold term_snapshot. named_call; auto. pose proof (ctl_snapshot_only c id). destruct (TermControl.ctl_snapshot c id). done.
  - unfold term_resize. named_call; auto.
    destruct (required_u16 params "rows") as [r|]; cbn; [|auto]. destruct (required_u16 params "cols") as [l|]; cbn; [|auto].
    pose proof (ctl_resize_only io c id r l). destruct (TermControl.ctl_resize _ _ _ _ _). done.
  - unfold term_close. named_call; auto. pose proof (ctl_close_only ch c id).
    destruct (TermControl.ctl_close ch c id) as [[? ?] ?]. done.
  - unfold term_mouse_event. named_call; auto. destruct (parse_mouse params) as [q|]; cbn; [|auto].
    pose proof (ctl_mouse_only io c id q). destruct (TermControl.mouse_event _ _ _ _). done.
Qed.

(** The text of a read is redacted and its bytes are not: whatever the policy,
    [data_base64] is the encoding of the very bytes that [text] shows scrubbed. *)
Theorem read_raw_bytes params (c : Ctl) id s (Hb : forall d, b64_decode (b64_encode d) = Ok d) :
  vget_str "session_id" params = Some id -> TermControl.sessions c !! id = Some s ->
  let max_bytes := default DEFAULT_READ_BYTES (vget "max_bytes" params ≫= as_u64) in
  let raw := data (TermState.read_output (TermControl.shared s) max_bytes).2 in
  exists v b, (term_read privacy params c).1 = Ok v /\ vget_str "data_base64" v = Some b /\ b64_decode b = Ok raw /\
    vget "text" v = Some (utf8_text privacy raw).
Proof.
  intros Hid Hs max_bytes raw. unfold term_read, required_str. rewrite Hid. fold max_bytes.
  unfold TermControl.ctl_read_output, TermControl.session. rewrite Hs. subst raw.
  destruct (TermState.read_output _ max_bytes) as [sh chunk]. cbn [fst snd term_result].
  eexists _, _. split_and!; [reflexivity|reflexivity|apply Hb|reflexivity].
Qed.

(** The same of the notification of the output. *)
Lemma notify_raw_bytes sid (o : TermOutputEvent) (Hb : forall d, b64_decode (b64_encode d) = Ok d) :
  exists p b, vget "payload" (notify_params privacy sid (Output o)) = Some p /\ vget_str "data_base64" p = Some b /\
    b64_decode b = Ok (o_data o) /\ vget "text" p = Some (utf8_text privacy (o_data o)).
Proof. eexists _, _. split_and!; [reflexivity|reflexivity|apply Hb|reflexivity]. Qed.

(** Errors of the arguments. *)
Definition arg_error {A} (r : result A RouterError) : Prop := match r with Ok _ => True | Err e => exists m, e = invalid_params m end.
Lemma arg_error_bind {A B} (r : result A RouterError) (f : A -> result B RouterError) :
  arg_error r -> (forall a, arg_error (f a)) -> arg_error (a <-? r ;; f a).
Proof. destruct r; cbn; auto. Qed.
Lemma required_str_arg params field : arg_error (required_str params field).
Proof. unfold required_str. destruct (vget_str _ _); cbn; eauto. Qed.
Lemma write_data_arg params : arg_error (write_data params).
Proof. unfold write_data. repeat case_match; cbn; eauto. Qed.
Lemma required_u16_arg params field : arg_error (required_u16 params field).
Proof. unfold required_u16, optional_u16. repeat case_match; simplify_eq; cbn; eauto. Qed.
Lemma parse_mouse_arg params : arg_error (parse_mouse params).
Proof.
  unfold parse_mouse. repeat first [apply required_u16_arg | apply required_str_arg | apply arg_error_bind; [|intros]].
  - unfold parse_mouse_kind. repeat case_match; try done. eexists. reflexivity.
  - destruct (vget_str "button" params) as [b|]; cbn; [|done]. unfold parse_mouse_button. repeat case_match; simplify_eq; cbn; eauto.
  - done.
Qed.

(** A call on an id that is not that of a terminal changes nothing; its error is
    that the terminal is not found, or that the other arguments are no good. *)
Theorem unknown_terminal k params (c : Ctl) id :
  vget_str "session_id" params = Some id -> TermControl.sessions c !! id = None ->
  match k with
  | CSpawn _ _ => True
  | _ => (perform k params c).2 = c /\
         ((perform k params c).1 = Err (map_term_err (TermState.SessionNotFound id)) \/
          exists m, (perform k params c).1 = Err (invalid_params m))
  end.
Proof.
  intros Hid Hs.
  assert (TermControl.session c id = Err (TermState.SessionNotFound id)) as Hc by (unfold TermControl.session; now rewrite Hs).
  destruct k; [done|..]; cbn [perform];
    unfold term_write, term_read, term_snapshot, term_resize, term_close, term_mouse_event, required_str; rewrite Hid; cbv beta iota.
  - pose proof (write_data_arg params) as Ha. destruct (write_data params) as [d|e]; cbn in Ha |- *; [|naive_solver].
    unfold TermControl.ctl_write_bytes. rewrite Hc. auto.
  - unfold TermControl.ctl_read_output. rewrite Hc. auto.
  - unfold TermControl.ctl_snapshot. rewrite Hc. auto.
  - pose proof (required_u16_arg params "rows") as Hr. pose proof (required_u16_arg params "cols") as Hl.
    destruct (required_u16 params "rows") as [r|e]; cbn in Hr |- *; [|naive_solver].
    destruct (required_u16 params "cols") as [l|e]; cbn in Hl |- *; [|naive_solver].
    unfold TermControl.ctl_resize, TermControl.validate_size. rewrite Hc. destruct (_ || _).
    + split; [done|]. right. eexists. reflexivity.
    + auto.
  - unfold TermControl.ctl_close. rewrite Hs. auto.
  - pose proof (parse_mouse_arg params) as Ha. destruct (parse_mouse params) as [q|e]; cbn in Ha |- *; [|naive_solver].
    unfold TermControl.mouse_event. rewrite Hc. auto.
Qed.

End Facts.
End TermTools.

Module TermToolsExamples.
Import Privacy TermTools OsExamples TermStateExamples TermControlExamples.

(** A pattern is a word, and it matches the texts that contain it; the
    replacement replaces the whole text. *)
#[local] Instance word_rx : RegexEngine := {|
  Rx := string;
  rx_new s := if bool_decide (s = "(") then None else Some s;
  rx_match r s := contains r s;
  rx_replace_all _ _ by_ := by_
|}.
#[local] Instance plain_text : TermText := {|
  b64_encode l := String.string_of_list_byte l;
  b64_decode s := Ok (String.list_byte_of_string s)
|}.
Definition policy1 : RedactionEngine := install (mkPolicy ["com.bank"; "secret."] ["("; "hunter2"]) engine_new.

(** The pattern that does not compile is dropped. *)
Example policy1_installed : patterns policy1 = ["hunter2"] /\ is_blocked "com.bank.app" policy1 = true
  /\ is_blocked "com.shop" policy1 = false /\ scrub_text "pw hunter2" policy1 = Some "<REDACTED>" /\ scrub_text "pw" policy1 = None.
Proof. vm_compute. done. Qed.

Definition out_bytes : list byte := String.list_byte_of_string "pw hunter2".
Definition ctl_out : @TermControl.TerminalController grid_vt :=
  match TermControl.sessions ctl1 !! "term_1" with
  | Some s => TermControl.set_session ctl1 "term_1"
                (TermControl.set_shared s (TermState.process_output (TermControl.shared s) out_bytes).1)
  | None => ctl1
  end.
Definition at_term (id : string) : json := JObj [("session_id", JStr id)].

Example term_read_shows : (term_read policy1 (at_term "term_1") ctl_out).1 =
  Ok (JObj [("bytes", JNum 10); ("data_base64", JStr "pw hunter2"); ("text", JStr "<REDACTED>"); ("eof", JBool false);
            ("dropped_bytes", JNum 0)]).
Proof. vm_compute. done. Qed.

(** A working directory that is missing is reported as a missing tab. *)
Example cwd_missing_is_tab : map_term_err (CwdNotFound (Text.path_of_string "/x")) = tab_not_found.
Proof. done. Qed.

End TermToolsExamples.
