(* ===== verification/Native.v ===== *)
(** * Native: the tools on native applications

    Models [broker/src/router/native.rs], the [app.*] tools of
    [router/internal.rs], and what they call in [native-control]: the controller
    of a session ([controller.rs]), the clipboard cache ([clipboard.rs]), the
    scripts ([scripting.rs], [app_eval] of [actions.rs]) and the guards of the
    calls that take the focus.  The build is that of macOS.

    A tool runs in a monad that threads the controller and records the calls it
    makes to the operating system; the answers are those of the class
    [NativeOs], one instance per request.  Values that only pass through are
    JSON.  The regex engine of the policy is a parameter. *)
From S2P Require Import Prelude Json F64 Text Privacy Network Input WorldModel BrokerSession Wire Router TermControl Trace.
Import JsonTree Wire Router.

(** [NativeControlError] *)
Module NE.
Inductive t : Type :=
| PermissionMissing (settings_url : string) | ScreenRecordingMissing (settings_url : string)
| AppNotFound (bundle_id : string) | RefStale (r : string) | NotActionable (r reason : string) | AxError (c : Z)
| AppleScript (msg : string) | ActivateForbidden (reason : string) | Blocked (bundle_id : string)
| FocusStealForbidden (what : string) | PrivateApiUnavailable (what : string) | Cgs (c : Z) | Tis (c : Z) | Io (s : string)
| Timeout (what : string) | Internal (s : string) | UnsupportedPlatform.
End NE.

Module Native.
Import Privacy.

Record BBox := mkBBox { bx : f64; by_ : f64; bw : f64; bh : f64 }.
Definition is_zero_area (b : BBox) : bool := f64_le (bw b) f64_zero || f64_le (bh b) f64_zero.
Record ElementState := mkState {
  checked : option bool; expanded : option bool; pressed : option bool; selected : option bool; disabled : bool
}.
Record AppElement := mkElement {
  index : Z; element_ref : string; role : string; name : string; value : option string; description : option string;
  state : ElementState; bbox : BBox; interactable : bool; app_id : string; stable_id : string; ax_path : list Z
}.
Record AppSnapshot := mkSnapshot {
  snapshot_seq : Z; snap_app_id : string; bundle_id : string; pid : Z; title : string; focused_ref : option string;
  elements : list AppElement; tree : json; truncated_at : option string
}.
Record AxSubscription := mkSub { subscription_id : string; sub_bundle_id : string; topics : list AxEventTopic }.

(** The calls to the system. *)
Inductive NativeCall : Type :=
| ListApps | SnapshotApp (bundle_id : string) (seq : Z)
| PressElement (e : AppElement) | TypeElement (e : AppElement) (text : string) (clear_first : bool)
| ScrollApp (bundle_id : string) (dx dy : f64) | EvalScript (bundle_id : string) (argv : list string)
| MenuList (bundle_id : string) | MenuClick (bundle_id : string) (path : list string)
| WindowList (bundle_id : string) | WindowRaise (bundle_id window_id : string)
| WindowSetMinimized (bundle_id window_id : string) (value : bool)
| WindowSetFullscreen (bundle_id window_id : string) (value : bool)
| WindowMoveTo (bundle_id window_id : string) (x y : f64) | WindowResize (bundle_id window_id : string) (w h : f64)
| SpacesMoveWindow (bundle_id : string) (delta : Z) | Observe (bundle_id : string) (topics : list AxEventTopic)
| StatusmenuClick (label : string)
| NotifOpen | NotifList | NotifClick (title : string) | NotifDismiss (title : string)
| SpotlightOpen | SpotlightQuery (text : string) | SpotlightSelect (index : Z)
| SpacesList | SpacesSwitch (delta : Z) | DockList | DockClick (label : string) | DockReveal (label : string)
| TouchbarTap (identifier : string) | ThreeFingerSwipe (dx dy : f64) | ForceTouch (x y pressure : f64)
| ImeList | ImeSwitch (id : string) | ImeSet (id : string)
| Exec (argv : list string) | TerminalExec (argv : list string)
| QuicklookPreview (path : string) | QuicklookClose
| PasteboardRead | PasteboardSet (kind : ClipboardKind) (text : string) (paths : list string) (bytes : list byte)
| DragFromFinder (paths : list string) (from_x from_y to_x to_y : f64) | DragBetweenApps (from_x from_y to_x to_y : f64).

(** What a subprocess ends with. *)
Inductive ExecOutcome : Type :=
| JoinFailed (e : string) | ExecIo (e : string)
| Output (success : bool) (code : option Z) (stdout stderr : list byte).

(** The pasteboard; [url_path] is the path of a URL, if it is one and has one. *)
Record Pasteboard := mkPb {
  pb_count : Z; pb_types : option (list string); pb_string : option string; pb_file_url : option string;
  url_path : string -> option string; pb_png : option (list byte); pb_tiff : option (list byte)
}.

Class NativeOs := {
  is_trusted : bool;
  native : NativeCall -> result json NE.t;
  os_apps : result (list AppHandle) NE.t;
  os_snapshot : string -> Z -> result AppSnapshot NE.t;
  os_exec : list string -> ExecOutcome;
  (** Whether a subprocess ends within the 30 s that [scripting.rs] gives it. *)
  os_in_time : list string -> bool;
  pasteboard : Pasteboard;
  (** After a write: whether it was taken, and the count then. *)
  set_ok : bool;
  count_after : Z;
  now_ms : Z;
  (** [Debug] of a string, and [serde_json::from_str]. *)
  dbg : string -> string;
  json_of : string -> option json;
  (** base64 *)
  b64_encode : list byte -> string;
  b64_decode : string -> result (list byte) string
}.

Definition HISTORY_CAPACITY : nat := 16.
Record ClipboardCache := mkCache { cb_history : list ClipboardItem; last_change_count : Z }.
Definition cache_new : ClipboardCache := mkCache [] (-1).
Definition push_history (item : ClipboardItem) (h : list ClipboardItem) : list ClipboardItem :=
  (if bool_decide (length h = HISTORY_CAPACITY) then tail h else h) ++ [item].
Definition cache_push (item : ClipboardItem) (c : ClipboardCache) : ClipboardCache :=
  mkCache (push_history item (cb_history c)) (last_change_count c).

Section Model.
Context `{Re : RegexEngine}.

Record AppController := mkCtl {
  seq : Z; snapshots : gmap string AppSnapshot; clipboard : ClipboardCache; poller : bool;
  subscriptions : list AxSubscription; privacy : RedactionEngine
}.
Definition ctl_new : AppController := mkCtl 0 ∅ cache_new true [] engine_new.

(** ** Computations *)

Definition M (E A : Type) : Type := AppController -> result A E * AppController * list NativeCall.
Definition ret {E A} (a : A) : M E A := fun c => (Ok a, c, []).
Definition bind {E A B} (m : M E A) (f : A -> M E B) : M E B :=
  fun c => match m c with
           | (Ok a, c, l) => let '(r, c, l') := f a c in (r, c, l ++ l')
           | (Err e, c, l) => (Err e, c, l)
           end.
Definition lift {E A} (r : result A E) : M E A := fun c => (r, c, []).
Definition gets {E A} (f : AppController -> A) : M E A := fun c => (Ok (f c), c, []).
Definition modify {E} (f : AppController -> AppController) : M E unit := fun c => (Ok tt, f c, []).
Definition call {E A} (k : NativeCall) (r : result A E) : M E A := fun c => (r, c, [k]).
Definition mapErr {E F A} (f : E -> F) (m : M E A) : M F A :=
  fun c => let '(r, c, l) := m c in (match r with Ok a => Ok a | Err e => Err (f e) end, c, l).

End Model.
Declare Scope native_scope.
Notation "x <- m ;; k" := (bind m (fun x => k)) (at level 100, m at next level, right associativity) : native_scope.
Notation "m ;;; k" := (bind m (fun _ => k)) (at level 100, right associativity) : native_scope.
Open Scope native_scope.

(** [to_lowercase], by which the checks below look for ASCII words: no other
    letter becomes one of theirs. *)
Definition lowercase (s : string) : string := Input.of_chars (map Input.lower (Text.str_chars s)).
Definition trim_lossy (l : list byte) : string := Input.of_chars (Text.trim (Text.lossy_chars l)).
Definition signed_dec (n : Z) : string :=
  (if n <? 0 then "-" else "") +:+ String.string_of_list_byte (Text.fmt_dec (Z.abs n)).
Definition quote : string := Input.char_str 34.
Definition newline : string := Input.char_str 10.

Section Calls.
Context `{Re : RegexEngine} `{Os : NativeOs}.

(** ** [controller.rs] *)

Definition set_seq (n : Z) (c : AppController) : AppController :=
  mkCtl n (snapshots c) (clipboard c) (poller c) (subscriptions c) (privacy c).
Definition set_snapshot (b : string) (s : AppSnapshot) (c : AppController) : AppController :=
  mkCtl (seq c) (<[b := s]> (snapshots c)) (clipboard c) (poller c) (subscriptions c) (privacy c).
Definition set_clipboard (cb : ClipboardCache) (c : AppController) : AppController :=
  mkCtl (seq c) (snapshots c) cb (poller c) (subscriptions c) (privacy c).
Definition set_subscriptions (l : list AxSubscription) (c : AppController) : AppController :=
  mkCtl (seq c) (snapshots c) (clipboard c) (poller c) l (privacy c).
Definition install_privacy (p : PrivacyPolicy) (c : AppController) : AppController :=
  mkCtl (seq c) (snapshots c) (clipboard c) (poller c) (subscriptions c) (install p (privacy c)).
Definition shutdown (c : AppController) : AppController :=
  mkCtl (seq c) (snapshots c) (clipboard c) false [] (privacy c).

Definition require_not_blocked (b : string) : M NE.t unit :=
  pv <- gets privacy ;; lift (if is_blocked b pv then Err (NE.Blocked b) else Ok tt).
(** [fetch_add(1) + 1] *)
Definition next_seq : M NE.t Z :=
  n <- gets seq ;; modify (set_seq (wrap_add u64_max n 1)) ;;; ret (wrap_add u64_max n 1).

Definition redact_or (pv : RedactionEngine) (s : string) : string := default s (redact_text s pv).
Definition redact_element (pv : RedactionEngine) (e : AppElement) : AppElement :=
  mkElement (index e) (element_ref e) (role e) (redact_or pv (name e)) (redact_or pv <$> value e)
    (redact_or pv <$> description e) (state e) (bbox e) (interactable e) (app_id e) (stable_id e) (ax_path e).
Definition tree_entry (e : AppElement) : json :=
  JObj [("ref", JStr (element_ref e)); ("role", JStr (role e)); ("name", JStr (name e)); ("interactable", JBool (interactable e))].
Definition redact_snapshot (pv : RedactionEngine) (s : AppSnapshot) : AppSnapshot :=
  if is_empty pv then s
  else let es := map (redact_element pv) (elements s) in
       mkSnapshot (snapshot_seq s) (snap_app_id s) (bundle_id s) (pid s) (title s) (focused_ref s) es
         (JArr (map tree_entry es)) (truncated_at s).

Definition snapshot (b : string) : M NE.t AppSnapshot :=
  require_not_blocked b ;;;
  n <- next_seq ;;
  snap <- call (SnapshotApp b n) (os_snapshot b n) ;;
  pv <- gets privacy ;;
  let arc := redact_snapshot pv snap in
  modify (set_snapshot b arc) ;;; ret arc.
Definition latest (b : string) (c : AppController) : option AppSnapshot := snapshots c !! b.
Definition resolve_ref (b r : string) (c : AppController) : result AppElement NE.t :=
  match latest b c with
  | None => Err (NE.RefStale r)
  | Some snap =>
      match List.find (fun e => bool_decide (element_ref e = r)) (elements snap) with
      | Some e => Ok e
      | None => Err (NE.RefStale r)
      end
  end.
Definition resolved (b r : string) : M NE.t AppElement := o <- gets (resolve_ref b r) ;; lift o.

(** [app_click] and [app_type] of [actions.rs] *)
Definition act_on (e : AppElement) (k : NativeCall) : M NE.t json :=
  if is_zero_area (bbox e) then lift (Err (NE.NotActionable (element_ref e) "zero area")) else call k (native k).
Definition click (b r : string) : M NE.t json :=
  require_not_blocked b ;;; e <- resolved b r ;; act_on e (PressElement e).
Definition type_text (b r text : string) (clear_first : bool) : M NE.t json :=
  require_not_blocked b ;;; e <- resolved b r ;; act_on e (TypeElement e text clear_first).
Definition scroll (b : string) (r : option string) (dx dy : f64) : M NE.t json :=
  require_not_blocked b ;;;
  match r with Some rs => resolved b rs ;;; ret tt | None => ret tt end ;;;
  call (ScrollApp b dx dy) (native (ScrollApp b dx dy)).

(** ** Scripts: [app_eval] of [actions.rs], and [scripting.rs] *)

Definition validate_no_activate (applescript : string) : result unit NE.t :=
  if contains "activate" (lowercase applescript)
  then Err (NE.ActivateForbidden "AppleScript contains the word 'activate'; remove it to preserve focus-no-steal")
  else Ok tt.
Definition wrap_script (b body : string) : string :=
  let trimmed := Input.of_chars (Text.trim_start (Text.str_chars body)) in
  if String.prefix "tell " (lowercase trimmed) then body
  else "tell application id " +:+ quote +:+ b +:+ quote +:+ newline +:+ body +:+ newline +:+ "end tell".
(** [Debug] of an exit code. *)
Definition code_debug (code : option Z) : string :=
  match code with Some n => "Some(" +:+ signed_dec n +:+ ")" | None => "None" end.
(** The output, as JSON when it is. *)
Definition exec_value (label : string) (o : ExecOutcome) : result json NE.t :=
  match o with
  | JoinFailed e => Err (NE.Internal ("spawn_blocking: " +:+ e))
  | ExecIo e => Err (NE.Io e)
  | Output success code stdout stderr =>
      if negb success then
        let e := trim_lossy stderr in
        Err (NE.AppleScript (if bool_decide (e = "") then label +:+ " exit " +:+ code_debug code else e))
      else let out := trim_lossy stdout in
           Ok (match json_of out with Some v => v | None => JStr out end)
  end.
Definition run_with_timeout (mk : list string -> NativeCall) (argv : list string) (label : string) : M NE.t json :=
  call (mk argv) (if os_in_time argv then exec_value label (os_exec argv) else Err (NE.Timeout label)).
(** Waits for its subprocess however long it takes. *)
Definition app_eval (b applescript : string) : M NE.t json :=
  lift (validate_no_activate applescript) ;;;
  let argv := ["/usr/bin/osascript"; "-e"; wrap_script b applescript] in
  call (EvalScript b argv) (exec_value "osascript" (os_exec argv)).
Definition shortcut_run (name : string) (input : option string) : M NE.t json :=
  run_with_timeout Exec (["/usr/bin/shortcuts"; "run"; "--name"; name] ++ match input with Some i => ["--input"; i] | None => [] end)
    "shortcuts".
Definition automator_run (path : string) : M NE.t json := run_with_timeout Exec ["/usr/bin/automator"; path] "automator".
Definition applescript (source : string) : M NE.t json :=
  if contains "activate" (lowercase source)
  then lift (Err (NE.ActivateForbidden "AppleScript contains the word 'activate'"))
  else run_with_timeout Exec ["/usr/bin/osascript"; "-e"; source] "osascript".
Definition jxa (source : string) : M NE.t json :=
  if contains ".activate(" source then lift (Err (NE.ActivateForbidden "JXA snippet contains a .activate() call"))
  else run_with_timeout Exec ["/usr/bin/osascript"; "-l"; "JavaScript"; "-e"; source] "osascript-jxa".
(** [str::replace] of one character by its escape; first that of the escape itself, then that of the quote. *)
Definition escape_with (c : byte) (l : list byte) : list byte := l ≫= (fun x => if bool_decide (x = c) then [Byte.x5c; x] else [x]).
Definition escape_script (l : list byte) : list byte := escape_with Byte.x22 (escape_with Byte.x5c l).
Definition terminal_script (command : string) : string :=
  "tell application " +:+ quote +:+ "Terminal" +:+ quote +:+ " to do script " +:+ quote
    +:+ String.string_of_list_byte (escape_script (String.list_byte_of_string command)) +:+ quote.
Definition terminal_spawn_session (command : string) (confirm focus_steal : bool) : M NE.t json :=
  if negb (confirm && focus_steal) then lift (Err (NE.FocusStealForbidden "app.terminal.spawn_session"))
  else if contains "activate" command then lift (Err (NE.ActivateForbidden "Terminal command contains 'activate'"))
  else run_with_timeout TerminalExec ["/usr/bin/osascript"; "-e"; terminal_script command] "terminal-spawn".

(** ** The other calls on an application *)

Definition on_app (b : string) (k : NativeCall) : M NE.t json := require_not_blocked b ;;; call k (native k).
Definition eval (b script : string) : M NE.t json := require_not_blocked b ;;; app_eval b script.
Definition menu_list (b : string) : M NE.t json := on_app b (MenuList b).
Definition menu_click (b : string) (path : list string) : M NE.t json := on_app b (MenuClick b path).
Definition window_list (b : string) : M NE.t json := on_app b (WindowList b).
(** [window::raise] *)
Definition raise (b w : string) (confirm focus_steal_capability : bool) : M NE.t json :=
  if negb (confirm && focus_steal_capability) then lift (Err (NE.FocusStealForbidden "app.window.raise"))
  else call (WindowRaise b w) (native (WindowRaise b w)).
Definition window_raise (b w : string) (confirm focus_steal_capability : bool) : M NE.t json :=
  require_not_blocked b ;;; raise b w confirm focus_steal_capability.
Definition window_set_minimized (b w : string) (v : bool) : M NE.t json := on_app b (WindowSetMinimized b w v).
Definition window_set_fullscreen (b w : string) (v : bool) : M NE.t json := on_app b (WindowSetFullscreen b w v).
Definition window_move_to (b w : string) (x y : f64) : M NE.t json := on_app b (WindowMoveTo b w x y).
Definition window_resize (b w : string) (x y : f64) : M NE.t json := on_app b (WindowResize b w x y).
Definition spaces_move_window (b : string) (delta : Z) : M NE.t json := on_app b (SpacesMoveWindow b delta).
(** [dock::click], [notification_center::open], [spotlight::open] *)
Definition guarded (what : string) (k : NativeCall) (confirm focus_steal : bool) : M NE.t json :=
  if negb (confirm && focus_steal) then lift (Err (NE.FocusStealForbidden what)) else call k (native k).

#[local] Instance topic_eq_dec : EqDecision AxEventTopic.
Proof. solve_decision. Defined.
(** [BTreeSet] of the topics, in the order of the enumeration. *)
Definition topic_set (l : list AxEventTopic) : list AxEventTopic :=
  filter (fun t => t ∈ l) [ValueChanged; FocusedChanged; WindowCreated; WindowDestroyed; SelectionChanged].
Definition subscribe (b : string) (ts : list AxEventTopic) : M NE.t AxSubscription :=
  require_not_blocked b ;;;
  n <- next_seq ;;
  let info := mkSub ("axsub-" +:+ String.string_of_list_byte (Text.fmt_dec n)) b (topic_set ts) in
  call (Observe b (topic_set ts)) (native (Observe b (topic_set ts))) ;;;
  subs <- gets subscriptions ;;
  modify (set_subscriptions (subs ++ [info])) ;;; ret info.
Definition unsubscribe (id : string) : M NE.t bool :=
  subs <- gets subscriptions ;;
  let kept := filter (fun s => subscription_id s <> id) subs in
  modify (set_subscriptions kept) ;;; ret (bool_decide (length kept < length subs)%nat).

(** ** [clipboard.rs] *)

Definition TypeFileURL : string := "public.file-url".
Definition TypeString : string := "public.utf8-plain-text".
Definition TypePNG : string := "public.png".
Definition TypeTIFF : string := "public.tiff".
Definition has_type (types : list string) (needle : string) : bool := existsb (fun t => bool_decide (t = needle)) types.
Definition read_file_urls (pb : Pasteboard) : option (list string) :=
  (fun s => [default s (url_path pb s)]) <$> pb_file_url pb.
Definition capture (pb : Pasteboard) (cc now : Z) : ClipboardItem :=
  let types := default [] (pb_types pb) in
  let item kind text files := mkItem cc now types kind text files false in
  match (if has_type types TypeFileURL then read_file_urls pb else None) with
  | Some files => item KindFiles None files
  | None =>
      match (if has_type types TypeString then pb_string pb else None) with
      | Some s => item KindString (Some s) []
      | None => if has_type types TypePNG || has_type types TypeTIFF then item KindImage None [] else item KindOther None []
      end
  end.
(** [poll_once_blocking] *)
Definition poll_cache (pb : Pasteboard) (now : Z) (c : ClipboardCache) : ClipboardCache :=
  if pb_count pb <=? last_change_count c then c
  else mkCache (push_history (capture pb (pb_count pb) now) (cb_history c)) (pb_count pb).
Definition refresh_now : M NE.t unit :=
  call PasteboardRead (Ok tt) ;;; modify (fun c => set_clipboard (poll_cache pasteboard now_ms (clipboard c)) c).
Definition cache_read (e : RedactionEngine) (c : ClipboardCache) : option ClipboardItem :=
  (fun i => apply_clipboard i e) <$> last (cb_history c).
Definition cache_history (e : RedactionEngine) (c : ClipboardCache) : list ClipboardItem :=
  map (fun i => apply_clipboard i e) (cb_history c).
Definition read_string : M NE.t (option string) :=
  refresh_now ;;; pv <- gets privacy ;; cb <- gets clipboard ;; ret (cache_read pv cb ≫= it_text).
Definition read_files : M NE.t (list string) :=
  refresh_now ;;; cb <- gets clipboard ;; ret (default [] (it_files <$> last (cb_history cb))).
Definition types : M NE.t (list string) :=
  refresh_now ;;; cb <- gets clipboard ;; ret (default [] (it_types <$> last (cb_history cb))).
Definition history : M NE.t (list ClipboardItem) :=
  refresh_now ;;; pv <- gets privacy ;; cb <- gets clipboard ;; ret (cache_history pv cb).
(** Into the ring goes what was written; the last count seen stays as it is. *)
Definition push_item (item : ClipboardItem) : M NE.t unit := modify (fun c => set_clipboard (cache_push item (clipboard c)) c).
Definition write_string (text : string) : M NE.t unit :=
  call (PasteboardSet KindString text [] []) (if set_ok then Ok tt else Err (NE.Internal "NSPasteboard setString returned false")) ;;;
  push_item (mkItem count_after now_ms [TypeString] KindString (Some text) [] false).
Definition write_files (paths : list string) : M NE.t unit :=
  if bool_decide (paths = []) then lift (Err (NE.Internal "write_files requires ≥1 path"))
  else call (PasteboardSet KindFiles "" paths []) (Ok tt) ;;;
       push_item (mkItem count_after now_ms [TypeFileURL] KindFiles None paths false).
Definition read_image_blocking (pb : Pasteboard) : result (list byte) NE.t :=
  let usable o := match o with Some (c :: l) => Some (c :: l) | _ => None end in
  match usable (pb_png pb) with
  | Some d => Ok d
  | None => match usable (pb_tiff pb) with Some d => Ok d | None => Err (NE.Internal "no image data on clipboard") end
  end.
Definition read_image : M NE.t (list byte) := call PasteboardRead (read_image_blocking pasteboard).
Definition write_image (png : list byte) : M NE.t unit :=
  if bool_decide (png = []) then lift (Err (NE.Internal "write_image requires non-empty bytes"))
  else call (PasteboardSet KindImage "" [] png)
         (if set_ok then Ok tt else Err (NE.Internal "NSPasteboard setData_forType returned false")) ;;;
       push_item (mkItem count_after now_ms [TypePNG] KindImage None [] false).

(** ** Serialized values *)

Definition opt {A} (k : string) (f : A -> json) (o : option A) : list (string * json) :=
  match o with Some a => [(k, f a)] | None => [] end.
Definition state_value (s : ElementState) : json :=
  JObj (opt "checked" JBool (checked s) ++ opt "expanded" JBool (expanded s) ++ opt "pressed" JBool (pressed s)
        ++ opt "selected" JBool (selected s) ++ [("disabled", JBool (disabled s))]).
Definition bbox_value (b : BBox) : json :=
  JObj [("x", Input.jfloat (bx b)); ("y", Input.jfloat (by_ b)); ("w", Input.jfloat (bw b)); ("h", Input.jfloat (bh b))].
Definition element_value (e : AppElement) : json :=
  JObj ([("index", JNum (index e)); ("ref", JStr (element_ref e)); ("role", JStr (role e)); ("name", JStr (name e))]
        ++ opt "value" JStr (value e) ++ opt "description" JStr (description e)
        ++ [("state", state_value (state e)); ("bbox", bbox_value (bbox e)); ("interactable", JBool (interactable e));
            ("app_id", JStr (app_id e)); ("stable_id", JStr (stable_id e))]).
Definition snapshot_value (s : AppSnapshot) : json :=
  JObj ([("snapshot_seq", JNum (snapshot_seq s)); ("app_id", JStr (snap_app_id s)); ("bundle_id", JStr (bundle_id s));
         ("pid", JNum (pid s)); ("title", JStr (title s))]
        ++ opt "focused_ref" JStr (focused_ref s)
        ++ [("elements", JArr (map element_value (elements s))); ("tree", tree s)]
        ++ opt "truncated_at" JStr (truncated_at s)).
Definition kind_value (k : ClipboardKind) : json :=
  JStr (match k with KindString => "string" | KindFiles => "files" | KindImage => "image" | KindOther => "other" end).
Definition strs (l : list string) : json := JArr (map JStr l).
Definition item_value (i : ClipboardItem) : json :=
  JObj ([("change_count", JNum (it_change_count i)); ("timestamp_ms", JNum (it_timestamp_ms i)); ("types", strs (it_types i));
         ("kind", kind_value (it_kind i))]
        ++ opt "text" JStr (it_text i) ++ match it_files i with [] => [] | l => [("files", strs l)] end
        ++ [("redacted", JBool (it_redacted i))]).
Definition topic_value (t : AxEventTopic) : json :=
  JStr (match t with ValueChanged => "value_changed" | FocusedChanged => "focused_changed" | WindowCreated => "window_created"
               | WindowDestroyed => "window_destroyed" | SelectionChanged => "selection_changed" end).
Definition sub_value (s : AxSubscription) : json :=
  JObj [("subscription_id", JStr (subscription_id s)); ("bundle_id", JStr (sub_bundle_id s)); ("topics", JArr (map topic_value (topics s)))].
Definition app_value (a : AppHandle) : json :=
  JObj [("bundle_id", JStr (app_bundle_id a)); ("pid", JNum (app_pid a)); ("name", JStr (app_name a)); ("has_focus", JBool (has_focus a))].
Definition event_value (ev : AxEvent) : json :=
  JObj ([("bundle_id", JStr (ax_bundle_id ev)); ("topic", topic_value (ax_topic ev)); ("timestamp_ms", JNum (ax_timestamp_ms ev))]
        ++ opt "element_ref" JStr (ax_element_ref ev) ++ opt "role" JStr (ax_role ev) ++ opt "name" JStr (ax_name ev)
        ++ opt "value" JStr (ax_value ev)).

(** ** Guards and errors of the tools *)

Definition SETTINGS_DEEPLINK : string := "x-apple.systempreferences:com.apple.preference.security?Privacy_Accessibility".
Definition denied (msg : string) (data : option json) : RouterError := mkErr PermissionDenied msg data.
Definition quoted (s : string) : string := quote +:+ s +:+ quote.
(** [trusted_msg] is the text of [native.rs] or of [internal.rs]. *)
Definition require_native_with (trusted_msg : string) (e : BrokerSession.SessionEntry) : M RouterError unit :=
  lift (if negb (BrokerSession.has_native_capability e)
        then Err (denied ("session lacks 'native' capability — pass capabilities: [" +:+ quoted "native" +:+ "] to session.register")
                    (Some (JObj [("capability", JStr "native")])))
        else if negb is_trusted then Err (denied trusted_msg (Some (JObj [("settings_url", JStr SETTINGS_DEEPLINK)])))
        else Ok tt).
Definition require_native : BrokerSession.SessionEntry -> M RouterError unit :=
  require_native_with "Accessibility permission missing — grant access in System Settings".
Definition ensure_indirect_app_targeting_allowed (blocklist_active : bool) (method : string) : result unit RouterError :=
  if blocklist_active
  then Err (denied (method +:+ " is denied when app_blocklist is active because the target app cannot be constrained safely")
              (Some (JObj [("app_blocklist_active", JBool true)])))
  else Ok tt.
Definition require_indirect_app_targeting_allowed (method : string) : M RouterError unit :=
  pv <- gets privacy ;; lift (ensure_indirect_app_targeting_allowed (has_blocklist pv) method).
Definition require_focus_steal (e : BrokerSession.SessionEntry) : M RouterError unit :=
  lift (if negb (BrokerSession.has_capability e "focus_steal")
        then Err (denied ("operation requires capabilities:[" +:+ quoted "focus_steal" +:+ "] in session.register")
                    (Some (JObj [("capability", JStr "focus_steal")])))
        else Ok tt).
Definition confirm_or_deny (params : json) (what : string) : M RouterError unit :=
  lift (if negb (default false (vget "confirm" params ≫= as_bool))
        then Err (denied (what +:+ " requires confirm:true to acknowledge focus shift") (Some (JObj [("confirm_required", JBool true)])))
        else Ok tt).

Definition code_dec (c : Z) : string := signed_dec c.
(** [native.rs]; [internal.rs] differs in three entries, given by [inner]. *)
Definition map_native_err_with (inner : bool) (r : string) (e : NE.t) : RouterError :=
  match e with
  | NE.PermissionMissing u => denied "Accessibility permission missing" (Some (JObj [("settings_url", JStr u)]))
  | NE.ScreenRecordingMissing u => denied "Screen Recording permission missing" (Some (JObj [("settings_url", JStr u)]))
  | NE.AppNotFound b => mkErr TabNotFound ("app not found: " +:+ b) None
  | NE.RefStale _ => mkErr ElementStale ("ref " +:+ dbg r +:+ " not found in current snapshot") None
  | NE.NotActionable _ reason => mkErr ElementNotActionable ("element not actionable: " +:+ reason) None
  | NE.ActivateForbidden reason => denied ("AppleScript activate forbidden: " +:+ reason) None
  | NE.Blocked b => denied ("app " +:+ dbg b +:+ " is blocked by session policy") (Some (JObj [("bundle_id", JStr b)]))
  | NE.FocusStealForbidden what =>
      denied ("focus-stealing action forbidden: " +:+ what)
        (Some (JObj ([("capability", JStr "focus_steal")] ++ if inner then [] else [("confirm_required", JBool true)])))
  | NE.PrivateApiUnavailable what =>
      mkErr InternalError ("private API unavailable: " +:+ what)
        (if inner then None else Some (JObj [("reason", JStr "private_api_unavailable")]))
  | NE.Cgs c => internal ("CGS error: " +:+ code_dec c)
  | NE.Tis c => internal ("TIS error: " +:+ code_dec c)
  | NE.AppleScript msg => internal ("AppleScript: " +:+ msg)
  | NE.AxError c => internal ("AX call failed (AXError=" +:+ code_dec c +:+ ")")
  | NE.Io m => internal ("io: " +:+ m)
  | NE.Timeout what => mkErr TimeoutCode ((if inner then "native timeout: " else "native: timeout in ") +:+ what) None
  | NE.Internal m => internal ("internal: " +:+ m)
  | NE.UnsupportedPlatform => internal "native-control unsupported on this platform"
  end.
Definition map_native_err : string -> NE.t -> RouterError := map_native_err_with false.
Definition redact_event_text (pv : RedactionEngine) (ev : AxEvent) : AxEvent :=
  mkAxEvent (ax_bundle_id ev) (ax_topic ev) (ax_timestamp_ms ev) (ax_element_ref ev) (ax_role ev)
    (redact_or pv <$> ax_name ev) (redact_or pv <$> ax_value ev).

(** ** The tools of [internal.rs] *)

Definition ok_true : json := JObj [("ok", JBool true)].
Definition f64_of (k : string) (d : f64) (params : json) : f64 := default d (vget k params ≫= as_f64).
Definition f64_half_one : f64 := f64_half (f64_of_Z 1).
Definition arg (params : json) (k : string) : M RouterError string := lift (required_str params k).
Definition flag (k : string) (d : bool) (params : json) : bool := default d (vget k params ≫= as_bool).
Definition nerr {A} (r : string) (m : M NE.t A) : M RouterError A := mapErr (map_native_err r) m.
Definition ierr {A} (r : string) (m : M NE.t A) : M RouterError A := mapErr (map_native_err_with true r) m.
Definition require_native_i : BrokerSession.SessionEntry -> M RouterError unit :=
  require_native_with "Accessibility permission missing — grant access to one-for-all-broker in System Settings".

Definition app_list (e : BrokerSession.SessionEntry) : M RouterError json :=
  require_native_i e ;;;
  apps <- ierr "" (call ListApps os_apps) ;;
  pv <- gets privacy ;;
  ret (JObj [("apps", JArr (map app_value (filter (fun a => is_blocked (app_bundle_id a) pv = false) apps)))]).
Definition app_snapshot (e : BrokerSession.SessionEntry) (params : json) : M RouterError json :=
  require_native_i e ;;; b <- arg params "app_id" ;; s <- ierr "" (snapshot b) ;; ret (snapshot_value s).
Definition app_click (e : BrokerSession.SessionEntry) (params : json) : M RouterError json :=
  require_native_i e ;;; b <- arg params "app_id" ;; r <- arg params "ref" ;; ierr r (click b r) ;;; ret ok_true.
Definition app_type (e : BrokerSession.SessionEntry) (params : json) : M RouterError json :=
  require_native_i e ;;; b <- arg params "app_id" ;; r <- arg params "ref" ;; text <- arg params "text" ;;
  ierr r (type_text b r text (flag "clear_first" false params)) ;;; ret ok_true.
Definition app_scroll (e : BrokerSession.SessionEntry) (params : json) : M RouterError json :=
  require_native_i e ;;; b <- arg params "app_id" ;;
  let r := vget_str "ref" params in
  ierr (default "" r) (scroll b r (f64_of "dx" f64_zero params) (f64_of "dy" f64_zero params)) ;;; ret ok_true.
Definition app_eval_tool (e : BrokerSession.SessionEntry) (params : json) : M RouterError json :=
  require_native_i e ;;; b <- arg params "app_id" ;; script <- arg params "applescript" ;;
  v <- ierr "" (eval b script) ;; ret (JObj [("value", v)]).

(** ** The tools of [native.rs] *)

Definition str_items (missing : string) (k : string) (params : json) : M RouterError (list string) :=
  lift (match vget k params ≫= as_array with Some l => Ok (omap as_str l) | None => Err (invalid_params missing) end).
Definition direct (k : NativeCall) : M NE.t json := call k (native k).

Definition app_menu_list (e : BrokerSession.SessionEntry) (params : json) : M RouterError json :=
  require_native e ;;; b <- arg params "app_id" ;; v <- nerr "" (menu_list b) ;; ret (JObj [("items", v)]).
Definition app_menu_click (e : BrokerSession.SessionEntry) (params : json) : M RouterError json :=
  require_native e ;;; b <- arg params "app_id" ;; path <- str_items "missing path: array" "path" params ;;
  nerr "" (menu_click b path) ;;; ret ok_true.
Definition app_statusmenu_click (e : BrokerSession.SessionEntry) (params : json) : M RouterError json :=
  require_native e ;;; require_indirect_app_targeting_allowed "app.statusmenu.click" ;;;
  label <- arg params "label" ;; nerr label (direct (StatusmenuClick label)) ;;; ret ok_true.
Definition app_notif_open (e : BrokerSession.SessionEntry) (params : json) : M RouterError json :=
  require_native e ;;; require_indirect_app_targeting_allowed "app.notification_center.open" ;;;
  require_focus_steal e ;;; confirm_or_deny params "app.notification_center.open" ;;;
  nerr "" (guarded "app.notification_center.open" NotifOpen true true) ;;; ret ok_true.
Definition app_notif_list (e : BrokerSession.SessionEntry) : M RouterError json :=
  require_native e ;;; require_indirect_app_targeting_allowed "app.notification_center.list" ;;;
  v <- nerr "" (direct NotifList) ;; ret (JObj [("items", v)]).
Definition app_notif_click (e : BrokerSession.SessionEntry) (params : json) : M RouterError json :=
  require_native e ;;; require_indirect_app_targeting_allowed "app.notification_center.click" ;;;
  t <- arg params "title" ;; nerr t (direct (NotifClick t)) ;;; ret ok_true.
Definition app_notif_dismiss (e : BrokerSession.SessionEntry) (params : json) : M RouterError json :=
  require_native e ;;; require_indirect_app_targeting_allowed "app.notification_center.dismiss" ;;;
  t <- arg params "title" ;; nerr t (direct (NotifDismiss t)) ;;; ret ok_true.
Definition app_spotlight_open (e : BrokerSession.SessionEntry) (params : json) : M RouterError json :=
  require_native e ;;; require_indirect_app_targeting_allowed "app.spotlight.open" ;;;
  require_focus_steal e ;;; confirm_or_deny params "app.spotlight.open" ;;;
  nerr "" (guarded "app.spotlight.open" SpotlightOpen true true) ;;; ret ok_true.
Definition app_spotlight_query (e : BrokerSession.SessionEntry) (params : json) : M RouterError json :=
  require_native e ;;; require_indirect_app_targeting_allowed "app.spotlight.query" ;;;
  t <- arg params "query" ;; nerr "" (direct (SpotlightQuery t)) ;;; ret ok_true.
Definition app_spotlight_select (e : BrokerSession.SessionEntry) (params : json) : M RouterError json :=
  require_native e ;;; require_indirect_app_targeting_allowed "app.spotlight.select" ;;;
  nerr "" (direct (SpotlightSelect (Network.as_u32 (default 0 (vget "index" params ≫= as_u64))))) ;;; ret ok_true.
Definition delta_of (params : json) : Z := TermControl.as_i32 (default 0 (vget "delta" params ≫= as_i64)).
Definition app_spaces_list (e : BrokerSession.SessionEntry) : M RouterError json :=
  require_native e ;;; require_indirect_app_targeting_allowed "app.spaces.list" ;;;
  v <- nerr "" (direct SpacesList) ;; ret (JObj [("spaces", v)]).
Definition app_spaces_switch (e : BrokerSession.SessionEntry) (params : json) : M RouterError json :=
  require_native e ;;; require_indirect_app_targeting_allowed "app.spaces.switch_to" ;;;
  nerr "" (direct (SpacesSwitch (delta_of params))) ;;; ret ok_true.
Definition app_spaces_move_window (e : BrokerSession.SessionEntry) (params : json) : M RouterError json :=
  require_native e ;;; b <- arg params "app_id" ;; nerr "" (spaces_move_window b (delta_of params)) ;;; ret ok_true.
Definition app_dock_list (e : BrokerSession.SessionEntry) : M RouterError json :=
  require_native e ;;; require_indirect_app_targeting_allowed "app.dock.list" ;;;
  v <- nerr "" (direct DockList) ;; ret (JObj [("items", v)]).
Definition app_dock_click (e : BrokerSession.SessionEntry) (params : json) : M RouterError json :=
  require_native e ;;; require_indirect_app_targeting_allowed "app.dock.click" ;;;
  require_focus_steal e ;;; confirm_or_deny params "app.dock.click" ;;;
  label <- arg params "label" ;;
  nerr label (guarded "app.dock.click" (DockClick label) true (BrokerSession.has_capability e "focus_steal")) ;;; ret ok_true.
Definition app_dock_reveal_app (e : BrokerSession.SessionEntry) (params : json) : M RouterError json :=
  require_native e ;;; require_indirect_app_targeting_allowed "app.dock.reveal_app" ;;;
  label <- arg params "label" ;; nerr label (direct (DockReveal label)) ;;; ret ok_true.
Definition app_window_list (e : BrokerSession.SessionEntry) (params : json) : M RouterError json :=
  require_native e ;;; b <- arg params "app_id" ;; v <- nerr "" (window_list b) ;; ret (JObj [("windows", v)]).
Definition app_window_raise (e : BrokerSession.SessionEntry) (params : json) : M RouterError json :=
  require_native e ;;; require_focus_steal e ;;; confirm_or_deny params "app.window.raise" ;;;
  b <- arg params "app_id" ;; w <- arg params "window_id" ;;
  nerr w (window_raise b w true (BrokerSession.has_capability e "focus_steal")) ;;; ret ok_true.
Definition app_window_minimize (e : BrokerSession.SessionEntry) (params : json) : M RouterError json :=
  require_native e ;;; b <- arg params "app_id" ;; w <- arg params "window_id" ;;
  nerr w (window_set_minimized b w (flag "minimized" true params)) ;;; ret ok_true.
Definition app_window_fullscreen (e : BrokerSession.SessionEntry) (params : json) : M RouterError json :=
  require_native e ;;; b <- arg params "app_id" ;; w <- arg params "window_id" ;;
  nerr w (window_set_fullscreen b w (flag "fullscreen" true params)) ;;; ret ok_true.
Definition app_window_move (e : BrokerSession.SessionEntry) (params : json) : M RouterError json :=
  require_native e ;;; b <- arg params "app_id" ;; w <- arg params "window_id" ;;
  nerr w (window_move_to b w (f64_of "x" f64_zero params) (f64_of "y" f64_zero params)) ;;; ret ok_true.
Definition app_window_resize (e : BrokerSession.SessionEntry) (params : json) : M RouterError json :=
  require_native e ;;; b <- arg params "app_id" ;; w <- arg params "window_id" ;;
  nerr w (window_resize b w (f64_of "w" f64_zero params) (f64_of "h" f64_zero params)) ;;; ret ok_true.
Definition app_touchbar_tap (e : BrokerSession.SessionEntry) (params : json) : M RouterError json :=
  require_native e ;;; require_indirect_app_targeting_allowed "app.touchbar.tap" ;;;
  i <- arg params "identifier" ;; nerr "" (direct (TouchbarTap i)) ;;; ret ok_true.
Definition app_gesture_swipe (e : BrokerSession.SessionEntry) (params : json) : M RouterError json :=
  require_native e ;;; require_indirect_app_targeting_allowed "app.gesture.three_finger_swipe" ;;;
  nerr "" (direct (ThreeFingerSwipe (f64_of "dx" f64_zero params) (f64_of "dy" f64_zero params))) ;;; ret ok_true.
Definition app_force_touch (e : BrokerSession.SessionEntry) (params : json) : M RouterError json :=
  require_native e ;;; require_indirect_app_targeting_allowed "app.force_touch" ;;;
  nerr "" (direct (ForceTouch (f64_of "x" f64_zero params) (f64_of "y" f64_zero params) (f64_of "pressure" f64_half_one params))) ;;;
  ret ok_true.
Definition app_ime_list (e : BrokerSession.SessionEntry) : M RouterError json :=
  require_native e ;;; require_indirect_app_targeting_allowed "app.ime.list" ;;;
  v <- nerr "" (direct ImeList) ;; ret (JObj [("input_sources", v)]).
Definition app_ime_switch (e : BrokerSession.SessionEntry) (params : json) : M RouterError json :=
  require_native e ;;; require_indirect_app_targeting_allowed "app.ime.switch" ;;;
  i <- arg params "input_id" ;; nerr "" (direct (ImeSwitch i)) ;;; ret ok_true.
Definition app_ime_set (e : BrokerSession.SessionEntry) (params : json) : M RouterError json :=
  require_native e ;;; require_indirect_app_targeting_allowed "app.ime.set_input_source" ;;;
  i <- arg params "input_id" ;; nerr "" (direct (ImeSet i)) ;;; ret ok_true.
Definition app_shortcut_run (e : BrokerSession.SessionEntry) (params : json) : M RouterError json :=
  require_native e ;;; require_indirect_app_targeting_allowed "app.shortcut.run" ;;;
  n <- arg params "name" ;; v <- nerr "" (shortcut_run n (vget_str "input" params)) ;; ret (JObj [("value", v)]).
Definition app_automator_run (e : BrokerSession.SessionEntry) (params : json) : M RouterError json :=
  require_native e ;;; require_indirect_app_targeting_allowed "app.automator.run" ;;;
  p <- arg params "workflow_path" ;; v <- nerr "" (automator_run p) ;; ret (JObj [("value", v)]).
Definition app_applescript (e : BrokerSession.SessionEntry) (params : json) : M RouterError json :=
  require_native e ;;; require_indirect_app_targeting_allowed "app.applescript" ;;;
  src <- arg params "source" ;; v <- nerr "" (applescript src) ;; ret (JObj [("value", v)]).
Definition app_jxa (e : BrokerSession.SessionEntry) (params : json) : M RouterError json :=
  require_native e ;;; require_indirect_app_targeting_allowed "app.javascript_for_automation" ;;;
  src <- arg params "source" ;; v <- nerr "" (jxa src) ;; ret (JObj [("value", v)]).
Definition app_terminal_spawn (e : BrokerSession.SessionEntry) (params : json) : M RouterError json :=
  require_native e ;;; require_indirect_app_targeting_allowed "app.terminal.spawn_session" ;;;
  require_focus_steal e ;;; confirm_or_deny params "app.terminal.spawn_session" ;;;
  cmd <- arg params "command" ;;
  v <- nerr "" (terminal_spawn_session cmd true (BrokerSession.has_capability e "focus_steal")) ;; ret (JObj [("value", v)]).
Definition app_quicklook_preview (e : BrokerSession.SessionEntry) (params : json) : M RouterError json :=
  require_native e ;;; require_indirect_app_targeting_allowed "app.quicklook.preview" ;;;
  require_focus_steal e ;;; confirm_or_deny params "app.quicklook.preview" ;;;
  p <- arg params "path" ;; nerr "" (direct (QuicklookPreview p)) ;;; ret ok_true.
Definition app_quicklook_close (e : BrokerSession.SessionEntry) : M RouterError json :=
  require_native e ;;; require_indirect_app_targeting_allowed "app.quicklook.close" ;;;
  nerr "" (direct QuicklookClose) ;;; ret ok_true.

Definition clipboard_read_string (e : BrokerSession.SessionEntry) : M RouterError json :=
  require_native e ;;; v <- nerr "" read_string ;; ret (JObj [("text", match v with Some t => JStr t | None => JNull end)]).
Definition clipboard_write_string (e : BrokerSession.SessionEntry) (params : json) : M RouterError json :=
  require_native e ;;; text <- arg params "text" ;; nerr "" (write_string text) ;;; ret ok_true.
Definition clipboard_read_files (e : BrokerSession.SessionEntry) : M RouterError json :=
  require_native e ;;; v <- nerr "" read_files ;; ret (JObj [("files", strs v)]).
Definition clipboard_write_files (e : BrokerSession.SessionEntry) (params : json) : M RouterError json :=
  require_native e ;;; paths <- str_items "missing paths: array" "paths" params ;; nerr "" (write_files paths) ;;; ret ok_true.
Definition clipboard_read_image (e : BrokerSession.SessionEntry) : M RouterError json :=
  require_native e ;;; d <- nerr "" read_image ;; ret (JObj [("png_base64", JStr (b64_encode d))]).
Definition clipboard_write_image (e : BrokerSession.SessionEntry) (params : json) : M RouterError json :=
  require_native e ;;; b <- arg params "png_base64" ;;
  d <- lift (match b64_decode b with Ok d => Ok d | Err m => Err (invalid_params ("png_base64: " +:+ m)) end) ;;
  nerr "" (write_image d) ;;; ret ok_true.
Definition clipboard_types (e : BrokerSession.SessionEntry) : M RouterError json :=
  require_native e ;;; v <- nerr "" types ;; ret (JObj [("types", strs v)]).
Definition clipboard_history (e : BrokerSession.SessionEntry) : M RouterError json :=
  require_native e ;;; v <- nerr "" history ;; ret (JObj [("items", JArr (map item_value v))]).
Definition drag_from_finder (e : BrokerSession.SessionEntry) (params : json) : M RouterError json :=
  require_native e ;;; require_indirect_app_targeting_allowed "drag.from_finder" ;;;
  paths <- str_items "missing paths: array" "paths" params ;;
  nerr "" (direct (DragFromFinder paths (f64_of "from_x" f64_zero params) (f64_of "from_y" f64_zero params)
                     (f64_of "to_x" f64_zero params) (f64_of "to_y" f64_zero params))) ;;; ret ok_true.
Definition drag_between_apps (e : BrokerSession.SessionEntry) (params : json) : M RouterError json :=
  require_native e ;;; require_indirect_app_targeting_allowed "drag.between_apps" ;;;
  nerr "" (direct (DragBetweenApps (f64_of "from_x" f64_zero params) (f64_of "from_y" f64_zero params)
                     (f64_of "to_x" f64_zero params) (f64_of "to_y" f64_zero params))) ;;; ret ok_true.
Definition parse_topic (s : string) : option AxEventTopic :=
  if bool_decide (s = "value_changed") then Some ValueChanged else if bool_decide (s = "focused_changed") then Some FocusedChanged
  else if bool_decide (s = "window_created") then Some WindowCreated
  else if bool_decide (s = "window_destroyed") then Some WindowDestroyed
  else if bool_decide (s = "selection_changed") then Some SelectionChanged else None.
Definition app_subscribe (e : BrokerSession.SessionEntry) (params : json) : M RouterError json :=
  require_native e ;;; b <- arg params "app_id" ;;
  ts <- str_items "missing topics: array" "topics" params ;;
  info <- nerr "" (subscribe b (omap parse_topic ts)) ;; ret (JObj [("subscription", sub_value info)]).
Definition app_unsubscribe (e : BrokerSession.SessionEntry) (params : json) : M RouterError json :=
  require_native e ;;; id <- arg params "subscription_id" ;; b <- nerr "" (unsubscribe id) ;; ret (JObj [("ok", JBool b)]).

(** The task of a subscription, for one event: it is redacted, traced when the
    trace is on and the session has a writer, and pushed to the client. *)
Definition forward_event (pv : RedactionEngine) (q : BrokerSession.queue_state) (now : Z) (writer_now : option Z) (ev : AxEvent)
    (e : BrokerSession.SessionEntry) : BrokerSession.SessionEntry * list Trace.TraceEvent :=
  let redacted := redact_event_text pv ev in
  let payload := event_value redacted in
  let sid := BrokerSession.session_id e in
  (fst (BrokerSession.try_push q now e
          (mkEvent "2.0" "event/notify" (JObj [("topic", JStr "app.event"); ("session_id", JStr sid); ("payload", payload)]))),
   match writer_now with
   | None => []
   | Some ts =>
       [Trace.Action ts sid (ax_bundle_id redacted) "app.event"
          (JObj [("topic", topic_value (ax_topic redacted)); ("bundle_id", JStr (ax_bundle_id redacted))]) payload]
   end).

(** The entries of the dispatcher, [router/mod.rs]. *)
Definition tools : list (string * (BrokerSession.SessionEntry -> json -> M RouterError json)) :=
  [("app.list", (fun e _ => app_list e));
   ("app.snapshot", app_snapshot);
   ("app.click", app_click);
   ("app.type", app_type);
   ("app.scroll", app_scroll);
   ("app.eval", app_eval_tool);
   ("app.menu.list", app_menu_list);
   ("app.menu.click", app_menu_click);
   ("app.statusmenu.click", app_statusmenu_click);
   ("app.notification_center.open", app_notif_open);
   ("app.notification_center.list", (fun e _ => app_notif_list e));
   ("app.notification_center.click", app_notif_click);
   ("app.notification_center.dismiss", app_notif_dismiss);
   ("app.spotlight.open", app_spotlight_open);
   ("app.spotlight.query", app_spotlight_query);
   ("app.spotlight.select", app_spotlight_select);
   ("app.spaces.list", (fun e _ => app_spaces_list e));
   ("app.spaces.switch_to", app_spaces_switch);
   ("app.spaces.move_window", app_spaces_move_window);
   ("app.dock.list", (fun e _ => app_dock_list e));
   ("app.dock.click", app_dock_click);
   ("app.dock.reveal_app", app_dock_reveal_app);
   ("app.window.list", app_window_list);
   ("app.window.raise", app_window_raise);
   ("app.window.minimize", app_window_minimize);
   ("app.window.fullscreen", app_window_fullscreen);
   ("app.window.move", app_window_move);
   ("app.window.resize", app_window_resize);
   ("app.touchbar.tap", app_touchbar_tap);
   ("app.gesture.three_finger_swipe", app_gesture_swipe);
   ("app.force_touch", app_force_touch);
   ("app.ime.list", (fun e _ => app_ime_list e));
   ("app.ime.switch", app_ime_switch);
   ("app.ime.set_input_source", app_ime_set);
   ("app.shortcut.run", app_shortcut_run);
   ("app.automator.run", app_automator_run);
   ("app.applescript", app_applescript);
   ("app.javascript_for_automation", app_jxa);
   ("app.terminal.spawn_session", app_terminal_spawn);
   ("app.quicklook.preview", app_quicklook_preview);
   ("app.quicklook.close", (fun e _ => app_quicklook_close e));
   ("clipboard.read_string", (fun e _ => clipboard_read_string e));
   ("clipboard.write_string", clipboard_write_string);
   ("clipboard.read_files", (fun e _ => clipboard_read_files e));
   ("clipboard.write_files", clipboard_write_files);
   ("clipboard.read_image", (fun e _ => clipboard_read_image e));
   ("clipboard.write_image", clipboard_write_image);
   ("clipboard.types", (fun e _ => clipboard_types e));
   ("clipboard.history", (fun e _ => clipboard_history e));
   ("drag.from_finder", drag_from_finder);
   ("drag.between_apps", drag_between_apps);
   ("app.subscribe", app_subscribe);
   ("app.unsubscribe", app_unsubscribe)].
Definition tool (method : string) : option (BrokerSession.SessionEntry -> json -> M RouterError json) :=
  snd <$> List.find (fun row => bool_decide (fst row = method)) tools.

End Calls.

(** ** What the policy guarantees *)

(** The application a call acts on, when the call names one. *)
Definition app_of (k : NativeCall) : option string :=
  match k with
  | SnapshotApp b _ | ScrollApp b _ _ | EvalScript b _ | MenuList b | MenuClick b _ | WindowList b | WindowRaise b _
  | WindowSetMinimized b _ _ | WindowSetFullscreen b _ _ | WindowMoveTo b _ _ _ | WindowResize b _ _ _
  | SpacesMoveWindow b _ | Observe b _ => Some b
  | PressElement e | TypeElement e _ _ => Some (app_id e)
  | _ => None
  end.
(** The calls that belong to no application in particular. *)
Definition neutral (k : NativeCall) : bool :=
  match k with ListApps | PasteboardRead | PasteboardSet _ _ _ _ => true | _ => false end.
Definition takes_focus (k : NativeCall) : bool :=
  match k with
  | NotifOpen | SpotlightOpen | DockClick _ | WindowRaise _ _ | TerminalExec _ | QuicklookPreview _ => true
  | _ => false
  end.

Section Policy.
Context `{Re : RegexEngine}.

(** A snapshot is kept under the application its elements belong to, and the
    ring of the clipboard does not grow past its capacity. *)
Definition own (c : AppController) : Prop :=
  (forall b s, snapshots c !! b = Some s -> Forall (fun e => app_id e = b) (elements s)) /\
  (length (cb_history (clipboard c)) <= HISTORY_CAPACITY)%nat.
(** The walk of an application's tree labels each element with it. *)
Definition walks_own (Os : NativeOs) : Prop :=
  forall b n s, @os_snapshot Os b n = Ok s -> Forall (fun e => app_id e = b) (elements s).

Definition permitted (Os : NativeOs) (e : BrokerSession.SessionEntry) (params : json) (pv : RedactionEngine) (k : NativeCall) : Prop :=
  BrokerSession.has_native_capability e = true /\ @is_trusted Os = true /\
  match app_of k with
  | Some b => is_blocked b pv = false
  | None => neutral k = true \/ has_blocklist pv = false
  end /\
  (takes_focus k = true -> BrokerSession.has_capability e "focus_steal" = true /\ flag "confirm" false params = true).

Section Logic.
Context `{Os : NativeOs}.
Variables (e : BrokerSession.SessionEntry) (params : json) (pv : RedactionEngine).
Hypothesis Hw : walks_own Os.

Definition good {E A} (m : M E A) (Q : A -> Prop) : Prop :=
  forall c, own c -> privacy c = pv ->
  Forall (permitted Os e params pv) (m c).2 /\ own (m c).1.2 /\ privacy (m c).1.2 = pv /\
  match (m c).1.1 with Ok a => Q a | Err _ => True end.

Lemma good_bind {E A B} (m : M E A) (f : A -> M E B) (Q : A -> Prop) R :
  good m Q -> (forall a, Q a -> good (f a) R) -> good (bind m f) R.
Proof.
  intros Hm Hf c Ho Hp. destruct (Hm c Ho Hp) as (Hl & Ho' & Hp' & HQ). unfold bind.
  destruct (m c) as [[[a|err] c'] l]; cbn in *; [|done].
  destruct (Hf a HQ c' Ho' Hp') as (Hl2 & ? & ? & ?). destruct (f a c') as [[r c''] l']. cbn in *.
  split_and!; [now apply Forall_app|done..].
Qed.
Lemma good_lift {E A} (r : result A E) (Q : A -> Prop) : (forall a, r = Ok a -> Q a) -> good (lift r) Q.
Proof. intros H c Ho Hp. split_and!; [constructor|done|done|]. cbn. destruct r; auto. Qed.
Lemma good_ret {E A} (a : A) (Q : A -> Prop) : Q a -> good (@ret _ E A a) Q.
Proof. intros H c Ho Hp. split_and!; [constructor|done..]. Qed.
Lemma good_call {E A} k (r : result A E) (Q : A -> Prop) :
  permitted Os e params pv k -> (forall a, r = Ok a -> Q a) -> good (call k r) Q.
Proof. intros Hk H c Ho Hp. split_and!; [constructor; [exact Hk|constructor]|done|done|]. cbn. destruct r; auto. Qed.
Lemma good_privacy {E} : good (@gets _ E _ privacy) (fun x => x = pv).
Proof. intros c Ho Hp. split_and!; [constructor|done..]. Qed.
Lemma good_gets {E A} (f : AppController -> A) : good (@gets _ E A f) (fun _ => True).
Proof. intros c Ho Hp. split_and!; [constructor|done..]. Qed.
Lemma good_modify {E} f : (forall c, own c -> own (f c)) -> (forall c, privacy (f c) = privacy c) -> good (@modify _ E f) (fun _ => True).
Proof. intros H1 H2 c Ho Hp. split_and!; [constructor|now apply H1|cbn; now rewrite H2|done]. Qed.
Lemma good_mapErr {E F A} (f : E -> F) (m : M E A) Q : good m Q -> good (mapErr f m) Q.
Proof.
  intros H c Ho Hp. specialize (H c Ho Hp). unfold mapErr. destruct (m c) as [[[a|err] c'] l]; exact H.
Qed.
Lemma good_weaken {E A} (m : M E A) (Q R : A -> Prop) : good m Q -> (forall a, Q a -> R a) -> good m R.
Proof. intros H HR c Ho Hp. destruct (H c Ho Hp) as (? & ? & ? & ?). split_and!; auto. destruct (m c).1.1; auto. Qed.

(** *** The guards *)

Lemma good_native_with msg :
  good (require_native_with msg e) (fun _ => BrokerSession.has_native_capability e = true /\ is_trusted = true).
Proof.
  apply good_lift. intros []. destruct (BrokerSession.has_native_capability e); [|done]. destruct is_trusted; [|done]. auto.
Qed.
Lemma good_indirect method : good (require_indirect_app_targeting_allowed method) (fun _ => has_blocklist pv = false).
Proof.
  eapply good_bind; [apply good_privacy|]. intros ? ->. apply good_lift. intros []. now destruct (has_blocklist pv).
Qed.
Lemma good_focus : good (require_focus_steal e) (fun _ => BrokerSession.has_capability e "focus_steal" = true).
Proof. apply good_lift. intros []. now destruct (BrokerSession.has_capability e "focus_steal"). Qed.
Lemma good_confirm what : good (confirm_or_deny params what) (fun _ => flag "confirm" false params = true).
Proof. apply good_lift. intros []. unfold flag. now destruct (default false _). Qed.
Lemma good_not_blocked b : good (require_not_blocked b) (fun _ => is_blocked b pv = false).
Proof.
  eapply good_bind; [apply good_privacy|]. intros ? ->. apply good_lift. intros []. now destruct (is_blocked b pv).
Qed.
Lemma good_resolved b r : good (resolved b r) (fun el => app_id el = b).
Proof.
  intros c Ho Hp. unfold resolved, bind, gets, lift. cbn. split_and!; [constructor|done|done|].
  unfold resolve_ref, latest. destruct (snapshots c !! b) as [s|] eqn:E; [|done].
  destruct (List.find _ (elements s)) as [el|] eqn:F; [|done]. apply find_some in F as [F _].
  destruct Ho as [Ho _]. specialize (Ho _ _ E). rewrite Forall_forall in Ho. apply Ho. now apply list_elem_of_In.
Qed.
Lemma own_set_seq n c : own c -> own (set_seq n c).
Proof. done. Qed.
Lemma redacted_owner q b s :
  Forall (fun el => app_id el = b) (elements s) -> Forall (fun el => app_id el = b) (elements (redact_snapshot q s)).
Proof. intros H. unfold redact_snapshot. destruct (is_empty q); [done|]. cbn. now apply Forall_map. Qed.
Lemma own_set_snapshot b s c : Forall (fun el => app_id el = b) (elements s) -> own c -> own (set_snapshot b s c).
Proof.
  intros H [Ho Hh]. split; [|exact Hh]. intros b' s' E. cbn in E.
  apply lookup_insert_Some in E as [[<- <-]|[_ E]]; [done|]. now apply Ho.
Qed.
Lemma push_history_bound i h : (length h <= HISTORY_CAPACITY)%nat -> (length (push_history i h) <= HISTORY_CAPACITY)%nat.
Proof.
  unfold push_history. intros H. rewrite length_app. case_bool_decide as E; [|cbn; lia].
  destruct h as [|x h]; cbn in *; [done|lia].
Qed.
Lemma own_poll pb now c : own c -> own (set_clipboard (poll_cache pb now (clipboard c)) c).
Proof.
  intros [Ho Hh]. split; [exact Ho|]. cbn. unfold poll_cache. destruct (_ <=? _); [exact Hh|]. now apply push_history_bound.
Qed.
Lemma own_push i c : own c -> own (set_clipboard (cache_push i (clipboard c)) c).
Proof. intros [Ho Hh]. split; [exact Ho|]. now apply push_history_bound. Qed.

Lemma good_any_lift {E A} (r : result A E) : good (lift r) (fun _ => True).
Proof. now apply good_lift. Qed.
Lemma good_any_ret {E A} (a : A) : good (@ret _ E A a) (fun _ => True).
Proof. now apply good_ret. Qed.
Lemma good_any_call {E A} k (r : result A E) : permitted Os e params pv k -> good (call k r) (fun _ => True).
Proof. intros H. now apply good_call. Qed.

Lemma good_next_seq : good next_seq (fun _ => True).
Proof.
  eapply good_bind; [apply good_gets|intros n _]. eapply good_bind; [|intros ? _; apply good_any_ret].
  apply good_modify; [apply own_set_seq|done].
Qed.
Lemma good_snapshot b :
  BrokerSession.has_native_capability e = true -> is_trusted = true -> good (snapshot b) (fun _ => True).
Proof.
  intros Hn Ht. eapply good_bind; [apply good_not_blocked|intros ? Hb]. eapply good_bind; [apply good_next_seq|intros n _].
  eapply good_bind; [apply (good_call _ _ (fun s => Forall (fun el => app_id el = b) (elements s)))|intros s Hs].
  { unfold permitted. cbn. split_and!; done. }
  { apply Hw. }
  eapply good_bind; [apply good_privacy|intros ? ->]. eapply good_bind; [|intros; apply good_any_ret].
  apply good_modify; [|done]. intros c. apply own_set_snapshot. now apply redacted_owner.
Qed.

(** Follows a computation, collecting what its guards establish; what is left
    is that the calls are permitted. *)
Ltac head_of m := match m with ?f _ => head_of f | _ => m end.
Ltac good_steps :=
  repeat
    (match goal with
     | |- good (bind _ _) _ => eapply good_bind; [|let H := fresh "H" in intros ? H]
     | |- good (mapErr _ _) _ => apply good_mapErr
     | |- good (require_native_with _ e) _ => apply good_native_with
     | |- good (require_indirect_app_targeting_allowed _) _ => apply good_indirect
     | |- good (require_focus_steal e) _ => apply good_focus
     | |- good (confirm_or_deny params _) _ => apply good_confirm
     | |- good (require_not_blocked _) _ => apply good_not_blocked
     | |- good (resolved _ _) _ => apply good_resolved
     | |- good (snapshot _) _ => cbv beta in *; apply good_snapshot; tauto
     | |- good (gets privacy) _ => apply good_privacy
     | |- good (gets _) _ => apply good_gets
     | |- good (lift _) _ => apply good_any_lift
     | |- good (ret _) _ => apply good_any_ret
     | |- good (modify _) _ => apply good_modify; [let Ho := fresh in intros ? Ho; first [exact Ho|now apply own_poll|now apply own_push]|done]
     | |- good (call _ _) _ => apply good_any_call
     | |- good (if ?b then _ else _) _ => destruct b
     | |- good (match ?o with Some _ => _ | None => _ end) _ => destruct o
     | |- good ?m _ => let h := head_of m in unfold h
     end; cbv beta zeta).
Ltac permitted_tac :=
  match goal with |- permitted _ _ _ _ _ => idtac end; unfold permitted; cbn [app_of neutral takes_focus]; cbv beta in *;
  repeat match goal with H : _ /\ _ |- _ => destruct H end; subst;
  split_and!; [assumption|assumption|first [assumption|left; reflexivity|right; assumption]|]; intros; first [done|split; assumption].

Lemma tools_good : Forall (fun row => good (snd row e params) (fun _ => True)) tools.
Proof.
  unfold tools. repeat (apply Forall_cons; split; [cbn [snd]|]); [..|constructor].
  all: good_steps; permitted_tac.
Qed.

Lemma tool_good method f : tool method = Some f -> good (f e params) (fun _ => True).
Proof.
  unfold tool. destruct (List.find _ tools) as [row|] eqn:F; cbn; intros [= <-]. apply find_some in F as [F _].
  pose proof tools_good as H. rewrite Forall_forall in H. apply H. now apply list_elem_of_In.
Qed.

End Logic.

(** The controllers of a session: tools are called, each with its own answers
    of the system, the policy is replaced when the session registers again, the
    clipboard is polled, the session is shut down. *)
Inductive reach : AppController -> Prop :=
| reach_new : reach ctl_new
| reach_tool (Os : NativeOs) e params method f c :
    reach c -> walks_own Os -> @tool _ Os method = Some f -> reach (f e params c).1.2
| reach_policy p c : reach c -> reach (install_privacy p c)
| reach_poll pb now c : reach c -> reach (set_clipboard (poll_cache pb now (clipboard c)) c)
| reach_shutdown c : reach c -> reach (shutdown c).

Lemma reach_own c : reach c -> own c.
Proof.
  induction 1 as [|Os e params method f c _ IH Hw Hf| | |]; [|destruct (tool_good e params (privacy c) Hw _ _ Hf c IH eq_refl); tauto|done|now apply own_poll|done].
  split; [|cbn; lia]. intros b s E. cbn in E. now rewrite lookup_empty in E.
Qed.


(** The ring of the clipboard never holds more than its capacity. *)
Lemma clipboard_bounded c : reach c -> (length (cb_history (clipboard c)) <= HISTORY_CAPACITY)%nat.
Proof. intros H. now destruct (reach_own c H). Qed.

(** *** Scripts *)

Section Scripts.
Context `{Os : NativeOs}.
Variables (e : BrokerSession.SessionEntry) (c : AppController).
Hypothesis Hn : BrokerSession.has_native_capability e = true.
Hypothesis Ht : is_trusted = true.

Lemma require_native_passes msg : require_native_with msg e c = (Ok tt, c, []).
Proof. unfold require_native_with. now rewrite Hn, Ht. Qed.

(** A script of [app.eval] that begins with [tell] is run as it is, whichever
    application it addresses: only the application named beside it is held
    against the policy.  [app.applescript] runs no script at all while one is
    blocked. *)
Theorem eval_runs_any_tell params params' b body :
  required_str params "app_id" = Ok b -> required_str params "applescript" = Ok body ->
  is_blocked b (privacy c) = false -> validate_no_activate body = Ok tt -> wrap_script b body = body ->
  has_blocklist (privacy c) = true ->
  (app_eval_tool e params c).2 = [EvalScript b ["/usr/bin/osascript"; "-e"; body]] /\
  (app_applescript e params' c).2 = [].
Proof.
  intros Hi Ha Hb Hv Hs Hl. split.
  - unfold app_eval_tool, require_native_i, ierr, mapErr, eval, require_not_blocked, app_eval, arg, bind, lift, gets, call, ret.
    rewrite require_native_passes, Hi, Ha, Hb, Hv, Hs. now destruct (exec_value _ _).
  - unfold app_applescript, require_native, require_indirect_app_targeting_allowed, ensure_indirect_app_targeting_allowed, bind, lift, gets.
    now rewrite require_native_passes, Hl.
Qed.
End Scripts.

(** Reading an AppleScript literal: up to the first quote that is not escaped. *)
Fixpoint read_literal (l : list byte) : option (list byte * list byte) :=
  match l with
  | [] => None
  | Byte.x22 :: rest => Some ([], rest)
  | Byte.x5c :: x :: l => (fun '(s, rest) => (x :: s, rest)) <$> read_literal l
  | x :: l => (fun '(s, rest) => (x :: s, rest)) <$> read_literal l
  end.

(** The command given to [app.terminal.spawn_session] stays inside its literal:
    read back, it is the command, and nothing of it is left over. *)
Theorem escape_roundtrip l rest : read_literal (escape_script l ++ Byte.x22 :: rest) = Some (l, rest).
Proof.
  assert (forall c l, escape_script (c :: l) =
    (if bool_decide (c = Byte.x5c) then [Byte.x5c; Byte.x5c] else if bool_decide (c = Byte.x22) then [Byte.x5c; Byte.x22] else [c])
    ++ escape_script l) as S.
  { intros c l'. unfold escape_script, escape_with at 2. cbn. case_bool_decide as E; [now subst c|]. cbn.
    case_bool_decide as E2; [now subst c|done]. }
  induction l as [|c l IH]; [done|]. rewrite S.
  case_bool_decide as E1; [subst c; cbn; now rewrite IH|]. case_bool_decide as E2; [subst c; cbn; now rewrite IH|].
  cbn [app]. destruct c; try done; cbn; now rewrite IH.
Qed.

(** *** Redaction *)

(** A text the policy lets through: no pattern matches it, or it stands for one that a pattern matches. *)
Definition shown (pv : RedactionEngine) (t : string) : Prop :=
  matches t pv = false \/ exists t0, matches t0 pv = true /\ redact_text t0 pv = Some t.
Lemma redact_or_shown pv t : shown pv (redact_or pv t).
Proof.
  unfold redact_or, shown. destruct (redact_text t pv) as [u|] eqn:E; cbn.
  - right. exists t. split; [|done]. unfold redact_text in E. now destruct (matches t pv).
  - left. unfold redact_text in E. now destruct (matches t pv).
Qed.
Lemma empty_shown pv t : is_empty pv = true -> shown pv t.
Proof.
  unfold is_empty. intros [H _]%andb_prop. apply bool_decide_eq_true_1 in H. left. unfold matches.
  now destruct (patterns pv).
Qed.
Definition element_shown (pv : RedactionEngine) (el : AppElement) : Prop :=
  shown pv (name el) /\ (forall v, value el = Some v -> shown pv v) /\ (forall d, description el = Some d -> shown pv d).

(** The names, values and descriptions of a snapshot are redacted before it is
    returned and before it is kept; the title of the window is not. *)
Theorem snapshot_redacted (Os : NativeOs) b c s :
  (@snapshot _ Os b c).1.1 = Ok s ->
  Forall (element_shown (privacy c)) (elements s) /\ snapshots (@snapshot _ Os b c).1.2 !! b = Some s /\
  exists n raw, os_snapshot b n = Ok raw /\ title s = title raw.
Proof.
  unfold snapshot, require_not_blocked, next_seq, bind, gets, lift, modify, ret, call.
  destruct (is_blocked b (privacy c)); [done|]. cbn. set (n := wrap_add _ _ _).
  destruct (os_snapshot b n) as [raw|err] eqn:E; [|done]. cbn. intros [= <-]. split_and!.
  - unfold redact_snapshot. destruct (is_empty (privacy c)) eqn:Em.
    + apply Forall_true. intros el. split_and!; intros; now apply empty_shown.
    + cbn. apply Forall_map, Forall_true. intros el. unfold element_shown, redact_element. cbn.
      split_and!; [apply redact_or_shown|intros v Hv|intros v Hv]; apply fmap_Some in Hv as (? & _ & ->); apply redact_or_shown.
  - apply lookup_insert_eq.
  - exists n, raw. split; [done|]. unfold redact_snapshot. now destruct (is_empty (privacy c)).
Qed.

(** What is read from the clipboard as text, a pattern does not match. *)
Theorem clipboard_text_clean (Os : NativeOs) c t : (@read_string _ Os c).1.1 = Ok (Some t) ->
  exists i, last (cb_history (clipboard (@read_string _ Os c).1.2)) = Some i /\ it_text i = Some t /\
    (it_kind i = KindString -> matches t (privacy c) = false).
Proof.
  unfold read_string, refresh_now, bind, gets, lift, modify, ret, call. cbn -[poll_cache].
  unfold cache_read. destruct (last _) as [i|]; cbn; [|done]. unfold apply_clipboard. intros [= H]. exists i. split; [done|].
  destruct (it_kind i); cbn in H; [|done..]. destruct (it_text i) as [u|] eqn:T; cbn in H; [|now rewrite T in H].
  destruct (matches u (privacy c)) eqn:Em; cbn in H; [done|]. rewrite T in H. now simplify_eq.
Qed.

(** *** What is written is captured again: the ring does not know that the
    change it sees is its own. *)
Lemma push_two i j h :
  exists pre, push_history j (push_history i h) = pre ++ [i; j].
Proof.
  unfold push_history. set (h1 := if bool_decide (length h = _) then tail h else h).
  case_bool_decide; [|exists h1; now rewrite <- app_assoc].
  destruct h1 as [|x h1]; [done|]. exists h1. cbn. now rewrite <- app_assoc.
Qed.
Theorem write_captured_twice (Os : NativeOs) text c pb now :
  (@write_string _ Os text c).1.1 = Ok tt -> last_change_count (clipboard c) < count_after ->
  pb_count pb = count_after -> pb_types pb = Some [TypeString] -> pb_string pb = Some text ->
  let c1 := clipboard (@write_string _ Os text c).1.2 in
  exists pre i j, cb_history (poll_cache pb now c1) = pre ++ [i; j] /\
    it_change_count i = it_change_count j /\ it_text i = Some text /\ it_text j = Some text.
Proof.
  unfold write_string, push_item, bind, lift, modify, call. destruct set_ok; [|done]. intros _ Hl Hc Ht Hs.
  cbn -[poll_cache push_history]. unfold poll_cache. cbn [last_change_count cb_history cache_push].
  destruct (Z.leb_spec (pb_count pb) (last_change_count (clipboard c))); [lia|]. cbn [cb_history].
  destruct (push_two (mkItem count_after now_ms [TypeString] KindString (Some text) [] false) (capture pb (pb_count pb) now)
              (cb_history (clipboard c))) as [pre ->].
  eexists pre, _, _. split; [reflexivity|]. unfold capture. rewrite Ht, Hs. cbn. now rewrite Hc.
Qed.

End Policy.
End Native.

Module NativeExamples.
Import Privacy Native.

(** A pattern is a word, and it matches the texts that contain it. *)
#[local] Instance word_rx : RegexEngine := {|
  Rx := string;
  rx_new s := Some s;
  rx_match r s := contains r s;
  rx_replace_all _ _ by_ := by_
|}.
Definition el1 (b : string) : AppElement :=
  mkElement 0 "e0" "AXButton" "pw hunter2" (Some "on") None (mkState None None None None false)
    (mkBBox f64_zero f64_zero (f64_of_Z 10) (f64_of_Z 10)) true b "id" [0].
Definition pb1 : Pasteboard := mkPb 4 (Some [TypeString]) (Some "pw hunter2") None (fun _ => None) None None.
Definition os1 : NativeOs := {|
  is_trusted := true;
  native _ := Ok JNull;
  os_apps := Ok [mkApp "com.bank.app" 7 "Bank" false; mkApp "com.shop" 8 "Shop" true];
  os_snapshot b n := Ok (mkSnapshot n b b 8 "hunter2 - Shop" None [el1 b] JNull None);
  os_exec _ := Output true (Some 0) [] [];
  os_in_time _ := true;
  pasteboard := pb1;
  set_ok := true;
  count_after := 5;
  now_ms := 1000;
  dbg s := s;
  json_of _ := None;
  b64_encode := String.string_of_list_byte;
  b64_decode s := Ok (String.list_byte_of_string s)
|}.
#[local] Existing Instance os1.
Lemma os1_own : walks_own os1.
Proof. intros b n s [= <-]. now repeat constructor. Qed.

Definition entry1 : BrokerSession.SessionEntry :=
  BrokerSession.set_capabilities (BrokerSession.entry_new "s1" 0) ["native"].
Definition ctl_policy : AppController := install_privacy (mkPolicy ["com.bank"] ["hunter2"]) ctl_new.
Lemma ctl_policy_reach : reach ctl_policy.
Proof. apply reach_policy, reach_new. Qed.
Definition on (b : string) : json := JObj [("app_id", JStr b)].
Definition on_ref (b r : string) : json := JObj [("app_id", JStr b); ("ref", JStr r)].
Definition snapped : AppController := (app_snapshot entry1 (on "com.shop") ctl_policy).1.2.

Example shop_clicked : (app_click entry1 (on_ref "com.shop" "e0") snapped).2 = [PressElement (redact_element (privacy ctl_policy) (el1 "com.shop"))].
Proof. vm_compute. done. Qed.
Example bank_refused : app_snapshot entry1 (on "com.bank.app") ctl_policy =
  (Err (mkErr PermissionDenied "app com.bank.app is blocked by session policy" (Some (JObj [("bundle_id", JStr "com.bank.app")]))),
   ctl_policy, []).
Proof. vm_compute. done. Qed.
Example bank_not_listed : (app_list entry1 ctl_policy).1.1 =
  Ok (JObj [("apps", JArr [app_value (mkApp "com.shop" 8 "Shop" true)])]).
Proof. vm_compute. done. Qed.
(** No status menu and no script while an application is blocked. *)
Example indirect_refused : (app_statusmenu_click entry1 (JObj [("label", JStr "Wi-Fi")]) ctl_policy).2 = []
  /\ (app_jxa entry1 (JObj [("source", JStr "1")]) ctl_policy).2 = [].
Proof. vm_compute. done. Qed.
(** But the script of [app.eval] reaches the blocked application. *)
Definition bank_script : string := "tell application id " +:+ quote +:+ "com.bank.app" +:+ quote +:+ " to get name".
Example eval_reaches_blocked :
  (app_eval_tool entry1 (JObj [("app_id", JStr "com.shop"); ("applescript", JStr bank_script)]) ctl_policy).2 =
  [EvalScript "com.shop" ["/usr/bin/osascript"; "-e"; bank_script]] /\ contains "com.bank" bank_script = true.
Proof. vm_compute. done. Qed.
(** The title that matches a pattern is returned, the name is not. *)
Example title_not_redacted : (snapshot "com.shop" ctl_policy).1.1 =
  Ok (mkSnapshot 1 "com.shop" "com.shop" 8 "hunter2 - Shop" None
        [mkElement 0 "e0" "AXButton" "[redacted len=10]" (Some "on") None (mkState None None None None false)
           (mkBBox f64_zero f64_zero (f64_of_Z 10) (f64_of_Z 10)) true "com.shop" "id" [0]]
        (JArr [JObj [("ref", JStr "e0"); ("role", JStr "AXButton"); ("name", JStr "[redacted len=10]"); ("interactable", JBool true)]])
        None).
Proof. vm_compute. done. Qed.
(** A subscription goes on when its application is blocked later. *)
Definition subscribed : AppController :=
  (app_subscribe entry1 (JObj [("app_id", JStr "com.shop"); ("topics", JArr [JStr "value_changed"; JStr "bogus"])]) ctl_policy).1.2.
Example subscription_outlives_block :
  let c := install_privacy (mkPolicy ["com.shop"] []) subscribed in
  is_blocked "com.shop" (privacy c) = true /\ subscriptions c = [mkSub "axsub-1" "com.shop" [ValueChanged]].
Proof. vm_compute. done. Qed.
Example clipboard_redacted : (clipboard_read_string entry1 ctl_policy).1.1 = Ok (JObj [("text", JNull)]).
Proof. vm_compute. done. Qed.


End NativeExamples.
