(* ===== verification/SystemTools.v ===== *)
(** * SystemTools: the tools on the host system

    Models [broker/src/router/system.rs], whole: the gate of every tool by the
    capabilities of the session, the arguments with their casts, the paths they
    write to, the ids of the watches; and [system-control/src/process.rs], whole:
    reading the output of [ps] and sending signals.  A tool gives its result,
    the watches of the session and the calls it makes to the system; the answers
    are those of the class [SysOs].  Values that only pass through are JSON. *)
From S2P Require Import Prelude Json Text Network BrokerSession Wire Router TermControl Merge Input.
Import JsonTree Wire Router.

Module SystemTools.
Import Text.

Inductive Capability : Type := Camera | Microphone | Screen | Bluetooth | RawUsb | CapNone.
Definition cap_str (c : Capability) : string :=
  match c with
  | Camera => "camera" | Microphone => "mic" | Screen => "screen" | Bluetooth => "bluetooth" | RawUsb => "raw_usb"
  | CapNone => "system"
  end.
Definition settings_deeplink (c : Capability) : string :=
  match c with
  | Camera => "x-apple.systempreferences:com.apple.preference.security?Privacy_Camera"
  | Microphone => "x-apple.systempreferences:com.apple.preference.security?Privacy_Microphone"
  | Screen => "x-apple.systempreferences:com.apple.preference.security?Privacy_ScreenCapture"
  | Bluetooth => "x-apple.systempreferences:com.apple.preference.security?Privacy_Bluetooth"
  | RawUsb | CapNone => "x-apple.systempreferences:com.apple.preference.security"
  end.
Inductive SystemError : Type :=
| PermissionMissing (capability : Capability) (settings_url : string) | NotFound (s : string) | InvalidArgument (s : string)
| OsError (domain : string) (code : Z) | SysIo (s : string) | Subprocess (s : string) | SysTimeout (s : string)
| SysInternal (s : string) | SysUnsupported.
Inductive AudioDirection : Type := DirInput | DirOutput.
Definition required_capability_for_direction (d : AudioDirection) : Capability :=
  match d with DirInput => Microphone | DirOutput => CapNone end.

(** The calls to the system. *)
Inductive SysCall : Type :=
| AudioOutputs | AudioInputs | AudioSelect (d : AudioDirection) (uid : string) | SetVolume (level : Z) | GetVolume
| SetMuted (v : bool) | GetMuted | CreateDir (p : Path) | CaptureAudio (p : Path) (duration_ms : Z)
| CaptureMicrophone (p : Path) (duration_ms : Z) | CameraSnapshot (p : Path) (device_id : option string) | ReadFile (p : Path)
| ListDisplays | CaptureRegion (p : Path) (display_id : option Z) (x y width height : Z)
| BluetoothScan (timeout_ms : Z) | BluetoothConnect (address : string) | BluetoothDisconnect (address : string)
| UsbDevices | BatteryState | NetInterfaces | NetRoutes | NetConnections
| RunPs (args : list string) | Kill (pid signal : Z) | FsWatch (paths : list Path) (id : string)
| SpotlightFind (q : string) | ReadMetadata (p : Path).

Class SysOs := {
  sys : SysCall -> result json SystemError;
  (** Of files and directories. *)
  sys_io : SysCall -> result (list byte) string;
  (** [ps]: the status, the two outputs. *)
  sys_ps : list string -> result (bool * list byte * list byte) string;
  sys_home : option Path;
  sys_now_ms : Z;
  (** [Signal::try_from], [kill] with the error number, [base64], [Debug]. *)
  is_signal : Z -> bool;
  sys_kill : Z -> Z -> result unit Z;
  sys_b64 : list byte -> string;
  sys_dbg : string -> string
}.

Definition dec (z : Z) : string := (if z <? 0 then "-" else "") +:+ String.string_of_list_byte (fmt_dec (Z.abs z)).
Definition as_i32 : Z -> Z := TermControl.as_i32.
Definition as_u32 : Z -> Z := Network.as_u32.
(** [v as u8] *)
Definition as_u8 (z : Z) : Z := z mod 256.

Definition map_system_err (e : SystemError) : RouterError :=
  match e with
  | PermissionMissing c url =>
      mkErr PermissionDenied (cap_str c +:+ " permission missing")
        (Some (JObj [("capability", JStr (cap_str c)); ("settings_url", JStr url)]))
  | NotFound s => mkErr TabNotFound s None
  | InvalidArgument s => invalid_params s
  | OsError domain code =>
      mkErr InternalError (domain +:+ " error: " +:+ dec code) (Some (JObj [("domain", JStr domain); ("code", JNum code)]))
  | SysIo s => internal ("io: " +:+ s)
  | Subprocess s => internal ("subprocess: " +:+ s)
  | SysTimeout s => timeout s
  | SysInternal s => internal s
  | SysUnsupported => internal "system-control unsupported on this platform"
  end.

(** ** [process.rs] *)

(** [str::split_whitespace] *)
Fixpoint split_ws (cur : list Z) (l : list Z) : list (list Z) :=
  match l with
  | [] => match cur with [] => [] | _ => [reverse cur] end
  | c :: l =>
      if is_whitespace c then match cur with [] => split_ws [] l | _ => reverse cur :: split_ws [] l end
      else split_ws (c :: cur) l
  end.
Definition words (line : string) : list string := map Input.of_chars (split_ws [] (str_chars line)).
Definition parse_i32 (s : string) : option Z :=
  match parse_i64 (String.list_byte_of_string s) with
  | Some z => if (- 2 ^ 31 <=? z) && (z <? 2 ^ 31) then Some z else None
  | None => None
  end.
Definition parse_u32 (s : string) : option Z := parse_unsigned u32_max (String.list_byte_of_string s).
Definition parse_u64 (s : string) : option Z := parse_unsigned u64_max (String.list_byte_of_string s).
Definition nth_word (i : nat) (parts : list string) : string := default "" (parts !! i).
Definition trim_lossy (l : list byte) : string := Input.of_chars (trim (lossy_chars l)).
Definition out_lines (l : list byte) : list string := Merge.lines (String.string_of_list_byte (from_utf8_lossy l)).

Record ProcessSummary := mkProc { ps_pid : Z; ps_ppid : Z; ps_uid : Z; ps_name : string; ps_start : Z }.
Record ProcessInfo := mkInfo {
  pi_pid : Z; pi_ppid : Z; pi_uid : Z; pi_gid : Z; pi_name : string; pi_path : string; pi_start : Z; cpu_user_us : Z;
  cpu_system_us : Z; rss_bytes : Z; vsize_bytes : Z
}.
Definition summary_of (now : Z) (parts : list string) : option ProcessSummary :=
  if bool_decide (length parts < 4)%nat then None
  else Some (mkProc (default 0 (parse_i32 (nth_word 0 parts))) (default 0 (parse_i32 (nth_word 1 parts)))
               (default 0 (parse_u32 (nth_word 2 parts))) (nth_word 3 parts) now).
Definition kib (s : string) : Z := (default 0 (parse_u64 s) * 1024) mod (u64_max + 1).
Definition info_of (now : Z) (parts : list string) : ProcessInfo :=
  mkInfo (default 0 (parse_i32 (nth_word 0 parts))) (default 0 (parse_i32 (nth_word 1 parts)))
    (default 0 (parse_u32 (nth_word 2 parts))) (default 0 (parse_u32 (nth_word 3 parts))) (nth_word 4 parts) (nth_word 4 parts)
    now 0 0 (kib (nth_word 7 parts)) (kib (nth_word 8 parts)).

Section Tools.
Context `{Os : SysOs}.

Definition ps_output (args : list string) : result (list string) SystemError :=
  match sys_ps args with
  | Err e => Err (SysIo e)
  | Ok (success, stdout, stderr) => if negb success then Err (Subprocess (trim_lossy stderr)) else Ok (out_lines stdout)
  end.
Definition LIST_ARGS : list string := ["-axo"; "pid=,ppid=,uid=,comm="].
Definition list_processes : result (list ProcessSummary) SystemError :=
  ls <-? ps_output LIST_ARGS ;; Ok (omap (fun l => summary_of sys_now_ms (words l)) ls).
Definition INFO_COLUMNS : string := "pid=,ppid=,uid=,gid=,comm=,etime=,utime=,stime=,rss=,vsz=".
Definition info_args (pid : Z) : list string := ["-p"; dec pid; "-o"; INFO_COLUMNS].
Definition process_info (pid : Z) : result ProcessInfo SystemError :=
  ls <-? ps_output (info_args pid) ;;
  match List.find (fun l => negb (bool_decide (Input.trim l = ""))) ls with
  | None => Err (NotFound ("pid " +:+ dec pid))
  | Some line =>
      let parts := words line in
      if bool_decide (length parts < 9)%nat then Err (SysInternal ("unexpected ps output: " +:+ line))
      else Ok (info_of sys_now_ms parts)
  end.
(** With the signal that is sent. *)
Definition signal (pid sg : Z) : result unit SystemError * list SysCall :=
  if negb (is_signal sg) then (Err (InvalidArgument ("invalid signal " +:+ dec sg)), [])
  else (match sys_kill pid sg with Ok _ => Ok tt | Err c => Err (OsError "kill" c) end, [Kill pid sg]).

(** ** The monad of the tools: the watches, and the calls *)

End Tools.
Record Watches := mkWatches { next_watch_id : Z; system_watches : list string }.
Definition T (A : Type) : Type := Watches -> result A RouterError * Watches * list SysCall.
Definition ret {A} (a : A) : T A := fun w => (Ok a, w, []).
Definition bind {A B} (m : T A) (f : A -> T B) : T B :=
  fun w => match m w with
           | (Ok a, w, l) => let '(r, w, l') := f a w in (r, w, l ++ l')
           | (Err e, w, l) => (Err e, w, l)
           end.
Definition lift {A} (r : result A RouterError) : T A := fun w => (r, w, []).
Definition made {A} (k : SysCall) (r : result A RouterError) : T A := fun w => (r, w, [k]).
Declare Scope system_scope.
Notation "x <- m ;; k" := (bind m (fun x => k)) (at level 100, m at next level, right associativity) : system_scope.
Notation "m ;;; k" := (bind m (fun _ => k)) (at level 100, right associativity) : system_scope.
Open Scope system_scope.

Section Dispatch.
Context `{Os : SysOs}.
Variable e : BrokerSession.SessionEntry.

Definition serr {A} (r : result A SystemError) : result A RouterError :=
  match r with Ok a => Ok a | Err x => Err (map_system_err x) end.
Definition syscall (k : SysCall) : T json := made k (serr (sys k)).

Definition session_root : Path :=
  join (join (join (default (path_of_string ".") sys_home) (path_of_string ".one-for-all")) (path_of_string "sessions"))
    (path_of_string (BrokerSession.session_id e)).
Definition make_watch_id : T string :=
  fun w => (Ok ("fsw-" +:+ String.string_of_list_byte (fmt_hex (next_watch_id w))),
            mkWatches (wrap_add u64_max (next_watch_id w) 1) (system_watches w), []).
Definition register_system_watch (id : string) : T unit :=
  fun w => (Ok tt, mkWatches (next_watch_id w) (system_watches w ++ [id]), []).
Definition quoted (s : string) : string := Input.char_str 34 +:+ s +:+ Input.char_str 34.
Definition require_system (c : Capability) : T unit :=
  lift (if negb (BrokerSession.has_capability e (cap_str CapNone))
        then Err (mkErr PermissionDenied
                    ("session lacks 'system' capability — pass capabilities: [" +:+ quoted "system" +:+ "] to session.register")
                    (Some (JObj [("capability", JStr (cap_str CapNone))])))
        else if match c with CapNone => false | _ => negb (BrokerSession.has_capability e (cap_str c)) end
        then Err (mkErr PermissionDenied ("operation requires capabilities:[" +:+ quoted (cap_str c) +:+ "] in session.register")
                    (Some (JObj [("capability", JStr (cap_str c))])))
        else Ok tt).

Definition arg (params : json) (k : string) : T string := lift (required_str params k).
Definition needed {A} (k : string) (o : option A) : T A :=
  lift (match o with Some a => Ok a | None => Err (invalid_params ("missing " +:+ k)) end).
Definition u64_arg (params : json) (k : string) : T Z := needed k (vget k params ≫= as_u64).
Definition i64_arg (params : json) (k : string) : T Z := needed k (vget k params ≫= as_i64).
(** [Path::parent]: of a root and of the empty path, none. *)
Definition parent (p : Path) : option Path :=
  match last p with None | Some RootDir => None | _ => Some (removelast p) end.
(** The file a capture goes to, its directory made. *)
Definition capture_path (what rel : string) : T Path :=
  let path := join session_root (path_of_string rel) in
  match parent path with
  | None => ret path
  | Some d =>
      made (CreateDir d)
        (match sys_io (CreateDir d) with Ok _ => Ok path | Err m => Err (internal ("create " +:+ what +:+ " dir: " +:+ m)) end)
  end.
Definition one (key : string) (k : SysCall) : T json := v <- syscall k ;; ret (JObj [(key, v)]).
Definition path_str (p : Path) : json := JStr (path_to_string p).
Definition summary_value (p : ProcessSummary) : json :=
  JObj [("pid", JNum (ps_pid p)); ("ppid", JNum (ps_ppid p)); ("uid", JNum (ps_uid p)); ("name", JStr (ps_name p));
        ("start_time_unix_ms", JNum (ps_start p))].
Definition info_value (p : ProcessInfo) : json :=
  JObj [("pid", JNum (pi_pid p)); ("ppid", JNum (pi_ppid p)); ("uid", JNum (pi_uid p)); ("gid", JNum (pi_gid p));
        ("name", JStr (pi_name p)); ("path", JStr (pi_path p)); ("start_time_unix_ms", JNum (pi_start p));
        ("cpu_user_us", JNum (cpu_user_us p)); ("cpu_system_us", JNum (cpu_system_us p)); ("vsize_bytes", JNum (vsize_bytes p));
        ("rss_bytes", JNum (rss_bytes p))].

(** ** The arms of [system_dispatch] *)

Definition audio_output (params : json) : T json := require_system CapNone ;;; one "devices" AudioOutputs.
Definition audio_input (params : json) : T json := require_system Microphone ;;; one "devices" AudioInputs.
Definition audio_select (params : json) : T json :=
  d <- arg params "direction" ;;
  direction <- lift (if bool_decide (d = "input") then Ok DirInput else if bool_decide (d = "output") then Ok DirOutput
                     else Err (invalid_params ("invalid direction " +:+ sys_dbg d +:+ "; expected input|output"))) ;;
  require_system (required_capability_for_direction direction) ;;;
  uid <- arg params "uid" ;; one "device" (AudioSelect direction uid).
Definition audio_volume (params : json) : T json :=
  require_system CapNone ;;;
  one "level" (match as_u8 <$> (vget "level" params ≫= as_u64) with Some level => SetVolume level | None => GetVolume end).
Definition audio_mute (params : json) : T json :=
  require_system CapNone ;;;
  one "muted" (match vget "value" params ≫= as_bool with Some v => SetMuted v | None => GetMuted end).
Definition captured (path : Path) (duration_ms : Z) : json := JObj [("path", path_str path); ("duration_ms", JNum duration_ms)].
Definition audio_capture_to_file (params : json) : T json :=
  require_system Screen ;;; rel <- arg params "path" ;; ms <- u64_arg params "duration_ms" ;;
  path <- capture_path "capture" rel ;; syscall (CaptureAudio path ms) ;;; ret (captured path ms).
Definition mic_capture (params : json) : T json :=
  require_system Microphone ;;; rel <- arg params "path" ;; ms <- u64_arg params "duration_ms" ;;
  path <- capture_path "capture" rel ;; syscall (CaptureMicrophone path ms) ;;; ret (captured path ms).
Definition camera_snapshot (params : json) : T json :=
  require_system Camera ;;; rel <- arg params "path" ;;
  path <- capture_path "snapshot" rel ;; syscall (CameraSnapshot path (vget_str "device_id" params)) ;;;
  bytes <- made (ReadFile path) (match sys_io (ReadFile path) with Ok b => Ok b | Err m => Err (internal ("read snapshot: " +:+ m)) end) ;;
  ret (JObj [("path", path_str path); ("format", JStr "jpeg"); ("data_base64", JStr (sys_b64 bytes))]).
Definition screen_list_displays (params : json) : T json := require_system CapNone ;;; one "displays" ListDisplays.
Definition screen_capture_region (params : json) : T json :=
  require_system Screen ;;; rel <- arg params "path" ;;
  x <- i64_arg params "x" ;; y <- i64_arg params "y" ;;
  width <- u64_arg params "width" ;; height <- u64_arg params "height" ;;
  let display_id := as_u32 <$> (vget "display_id" params ≫= as_u64) in
  path <- capture_path "screenshot" rel ;;
  data <- syscall (CaptureRegion path display_id (as_i32 x) (as_i32 y) (as_u32 width) (as_u32 height)) ;;
  ret (JObj [("path", path_str path); ("format", JStr "png"); ("data_base64", data); ("width", JNum (as_u32 width));
             ("height", JNum (as_u32 height))]).
Definition bluetooth_scan (params : json) : T json :=
  require_system Bluetooth ;;; one "devices" (BluetoothScan (default 5000 (vget "timeout_ms" params ≫= as_u64))).
Definition bluetooth_connect (params : json) : T json :=
  require_system Bluetooth ;;; a <- arg params "address" ;; one "connected" (BluetoothConnect a).
Definition bluetooth_disconnect (params : json) : T json :=
  require_system Bluetooth ;;; a <- arg params "address" ;; one "disconnected" (BluetoothDisconnect a).
Definition usb_devices (params : json) : T json := require_system RawUsb ;;; one "devices" UsbDevices.
Definition battery (params : json) : T json := require_system CapNone ;;; one "battery" BatteryState.
Definition network_interfaces (params : json) : T json := require_system CapNone ;;; one "interfaces" NetInterfaces.
Definition network_routes (params : json) : T json := require_system CapNone ;;; one "routes" NetRoutes.
Definition network_connections (params : json) : T json := require_system CapNone ;;; one "connections" NetConnections.
Definition process_list_tool (params : json) : T json :=
  require_system CapNone ;;; l <- made (RunPs LIST_ARGS) (serr list_processes) ;; ret (JObj [("processes", JArr (map summary_value l))]).
Definition process_info_tool (params : json) : T json :=
  require_system CapNone ;;; pid <- i64_arg params "pid" ;;
  i <- made (RunPs (info_args (as_i32 pid))) (serr (process_info (as_i32 pid))) ;; ret (JObj [("process", info_value i)]).
Definition process_signal_tool (params : json) : T json :=
  require_system CapNone ;;; pid <- i64_arg params "pid" ;; sg <- i64_arg params "signal" ;;
  (fun w => let '(r, l) := signal (as_i32 pid) (as_i32 sg) in (serr r, w, l)) ;;; ret (JObj [("ok", JBool true)]).
Definition fsevents_watch (params : json) : T json :=
  require_system CapNone ;;;
  paths <- lift (match vget "paths" params ≫= as_array with
                 | Some l => Ok (map path_of_string (omap as_str l))
                 | None => Err (invalid_params "missing paths: array")
                 end) ;;
  id <- make_watch_id ;; syscall (FsWatch paths id) ;;; register_system_watch id ;;; ret (JObj [("watch_id", JStr id)]).
Definition spotlight_query (params : json) : T json :=
  require_system CapNone ;;; q <- arg params "q" ;; one "results" (SpotlightFind q).
Definition metadata_tool (params : json) : T json :=
  require_system CapNone ;;; p <- arg params "path" ;; one "metadata" (ReadMetadata (path_of_string p)).

Definition arms : list (string * (json -> T json)) :=
  [("system.audio.output", audio_output); ("system.audio.input", audio_input); ("system.audio.select", audio_select);
   ("system.audio.volume", audio_volume); ("system.audio.mute", audio_mute);
   ("system.audio.capture_to_file", audio_capture_to_file); ("system.mic.capture", mic_capture);
   ("system.camera.snapshot", camera_snapshot); ("system.screen.list_displays", screen_list_displays);
   ("system.screen.capture_region", screen_capture_region); ("system.bluetooth.scan", bluetooth_scan);
   ("system.bluetooth.connect", bluetooth_connect); ("system.bluetooth.disconnect", bluetooth_disconnect);
   ("system.usb.devices", usb_devices); ("system.battery", battery); ("system.network.interfaces", network_interfaces);
   ("system.network.routes", network_routes); ("system.network.connections", network_connections);
   ("system.process.list", process_list_tool); ("system.process.info", process_info_tool);
   ("system.process.signal", process_signal_tool); ("system.fsevents.watch", fsevents_watch);
   ("system.spotlight.query", spotlight_query); ("system.metadata", metadata_tool)].
Definition system_dispatch (method : string) (params : json) : T json :=
  match List.find (fun row => bool_decide (fst row = method)) arms with
  | Some row => snd row params
  | None => lift (Err (method_not_found method))
  end.
(** [BrokerFsSink::notify] *)
Definition fs_notify (q : BrokerSession.queue_state) (now : Z) (payload : json) : BrokerSession.SessionEntry :=
  fst (BrokerSession.try_push q now e
         (mkEvent "2.0" "event/notify"
            (JObj [("topic", JStr "system.fsevents"); ("session_id", JStr (BrokerSession.session_id e)); ("payload", payload)]))).

End Dispatch.

(** ** The capabilities *)

(** What [types.rs] says a call needs beside the bare capability. *)
Definition needs (k : SysCall) : Capability :=
  match k with
  | AudioInputs | AudioSelect DirInput _ | CaptureMicrophone _ _ => Microphone
  | CameraSnapshot _ _ => Camera
  | CaptureAudio _ _ | CaptureRegion _ _ _ _ _ _ => Screen
  | BluetoothScan _ | BluetoothConnect _ | BluetoothDisconnect _ => Bluetooth
  | UsbDevices => RawUsb
  | _ => CapNone
  end.

Section Caps.
Context `{Os : SysOs}.
Variable e : BrokerSession.SessionEntry.
Definition granted (k : SysCall) : Prop :=
  BrokerSession.has_capability e (cap_str CapNone) = true /\ BrokerSession.has_capability e (cap_str (needs k)) = true.

(** What a computation calls is granted; [Q] of its result. *)
Definition gated {A} (m : T A) (Q : A -> Prop) : Prop :=
  forall w, Forall granted (m w).2 /\ match (m w).1.1 with Ok a => Q a | Err _ => True end.
Lemma gated_bind {A B} (m : T A) (f : A -> T B) (Q : A -> Prop) R :
  gated m Q -> (forall a, Q a -> gated (f a) R) -> gated (bind m f) R.
Proof.
  intros Hm Hf w. destruct (Hm w) as [Hl HQ]. unfold bind. destruct (m w) as [[[a|x] w'] l]; cbn in *; [|done].
  destruct (Hf a HQ w') as [Hl' HR]. destruct (f a w') as [[r w''] l']. cbn in *. split; [now apply Forall_app|done].
Qed.
Lemma gated_lift {A} (r : result A RouterError) : gated (lift r) (fun _ => True).
Proof. intros w. split; [constructor|]. now destruct r. Qed.
Lemma gated_ret {A} (a : A) : gated (ret a) (fun _ => True).
Proof. intros w. split; [constructor|done]. Qed.
Lemma gated_made {A} k (r : result A RouterError) : granted k -> gated (made k r) (fun _ => True).
Proof. intros H w. split; [constructor; [exact H|constructor]|]. now destruct r. Qed.
Lemma gated_require c :
  gated (require_system e c)
    (fun _ => BrokerSession.has_capability e (cap_str CapNone) = true /\ BrokerSession.has_capability e (cap_str c) = true).
Proof.
  intros w. unfold require_system, lift. split; [constructor|]. cbn [fst]. cbn [cap_str].
  destruct (BrokerSession.has_capability e "system") eqn:E; [|exact I].
  destruct c; cbn [negb cap_str]; [..|now rewrite E];
    match goal with |- context [BrokerSession.has_capability e ?x] => destruct (BrokerSession.has_capability e x) end; done.
Qed.
Lemma gated_quiet {A} (m : T A) : (forall w, (m w).2 = []) -> gated m (fun _ => True).
Proof. intros H w. rewrite H. split; [constructor|]. now destruct (m w).1.1. Qed.
Lemma gated_signal pid sg : BrokerSession.has_capability e (cap_str CapNone) = true ->
  gated (fun w => let '(r, l) := signal pid sg in (serr r, w, l)) (fun _ => True).
Proof.
  intros H w. unfold signal. destruct (negb (is_signal sg)); cbn -[BrokerSession.has_capability].
  - split; [constructor|done].
  - split; [constructor; [split; exact H|constructor]|]. now destruct (sys_kill pid sg).
Qed.

Ltac head_of m := match m with ?f _ => head_of f | _ => m end.
Ltac gated_steps :=
  repeat
    (match goal with
     | |- gated (bind _ _) _ => eapply gated_bind; [|let H := fresh "H" in intros ? H]
     | |- gated (require_system e _) _ => apply gated_require
     | |- gated (lift _) _ => apply gated_lift
     | |- gated (ret _) _ => apply gated_ret
     | |- gated (made _ _) _ => apply gated_made
     | |- gated make_watch_id _ => apply gated_quiet; reflexivity
     | |- gated (register_system_watch _) _ => apply gated_quiet; reflexivity
     | |- gated (fun w => let '(_, _) := signal _ _ in _) _ => apply gated_signal
     | |- gated (match ?o with Some _ => _ | None => _ end) _ => destruct o
     | |- gated ?m _ => let h := head_of m in unfold h
     end; cbv beta zeta).
Ltac granted_tac :=
  unfold granted; cbv beta in *; repeat match goal with H : _ /\ _ |- _ => destruct H end;
  repeat match goal with |- context [match ?x with _ => _ end] => destruct x end;
  first [assumption|split; assumption].

Lemma arms_gated params : Forall (fun row => gated (snd row params) (fun _ => True)) (arms e).
Proof.
  unfold arms. repeat (apply Forall_cons; split; [cbn [snd]|]); [..|constructor].
  all: gated_steps; granted_tac.
Qed.

(** C18: a session makes a call to the system only with the bare capability and
    the one the call needs: without the first, no tool of this group does
    anything, and recording sound, the camera, the screen, Bluetooth and USB
    each need their own, by whatever tool and with whatever arguments. *)
Theorem system_calls_granted method params w : Forall granted (system_dispatch e method params w).2.
Proof.
  unfold system_dispatch. destruct (List.find _ (arms e)) as [row|] eqn:F; [|constructor]. apply find_some in F as [F _].
  pose proof (arms_gated params) as H. rewrite Forall_forall in H. exact (proj1 (H row (proj2 (list_elem_of_In _ _) F) w)).
Qed.

End Caps.

(** ** Files *)

Section Files.
Context `{Os : SysOs}.
Variable e : BrokerSession.SessionEntry.

(** The file of a capture begins with the directory of the session when the
    path given is relative, though a [..] in it may still lead out; an absolute
    path is taken as it is. *)
Theorem capture_path_confined what rel w p :
  (capture_path e what rel w).1.1 = Ok p ->
  (is_absolute (path_of_string rel) = false -> session_root e <> [] -> starts_with p (session_root e) = true) /\
  (is_absolute (path_of_string rel) = true -> p = path_of_string rel).
Proof.
  unfold capture_path. set (path := join (session_root e) (path_of_string rel)). intros H.
  assert (p = path) as ->.
  { destruct (parent path); cbn in H; [|now simplify_eq]. destruct (sys_io _); cbn in H; now simplify_eq. }
  unfold path, join. split; intros Ha; rewrite Ha; [|done]. intros Hr. apply starts_with_spec.
  destruct (session_root e); [done|]. eauto.
Qed.

End Files.

(** ** Processes *)

(** The ten columns that [ps] is asked for: the resident size is read from the
    one of the system time, and the virtual size from that of the resident. *)
Theorem info_reads_wrong_columns now pid ppid uid gid comm etime utime stime rss vsz :
  let i := info_of now [pid; ppid; uid; gid; comm; etime; utime; stime; rss; vsz] in
  rss_bytes i = kib stime /\ vsize_bytes i = kib rss.
Proof. done. Qed.

(** A process id is cut to 32 bits: the signal goes to the process of the remainder. *)
Theorem signal_pid_cut `{Os : SysOs} e params w pid sg :
  BrokerSession.has_capability e "system" = true -> vget "pid" params = Some (JNum pid) -> vget "signal" params = Some (JNum sg) ->
  - 2 ^ 63 <= pid < 2 ^ 63 -> 0 <= sg < 2 ^ 31 -> is_signal sg = true ->
  (process_signal_tool e params w).2 = [Kill (as_i32 pid) sg].
Proof.
  intros Hc Hp Hs Bp Bs Hsig.
  assert (as_i32 sg = sg) as Es by (unfold as_i32, TermControl.as_i32; rewrite Z.mod_small; lia).
  unfold process_signal_tool, require_system, i64_arg, needed, bind, lift, ret. cbn [cap_str]. rewrite Hc, Hp, Hs. cbn -[signal as_i32].
  rewrite (proj2 (Z.leb_le _ _)) by lia. rewrite (proj2 (Z.ltb_lt pid _)) by lia. cbn -[signal as_i32].
  rewrite (proj2 (Z.leb_le _ _)) by lia. rewrite (proj2 (Z.ltb_lt sg _)) by lia. cbn -[signal as_i32].
  rewrite Es. unfold signal. rewrite Hsig. cbn -[as_i32]. now destruct (sys_kill _ _).
Qed.

End SystemTools.

Module SystemToolsExamples.
Import SystemTools.

Definition bytes_of : string -> list byte := String.list_byte_of_string.
Definition nl : string := Input.char_str 10.
#[local] Instance os1 : SysOs := {|
  sys _ := Ok JNull;
  sys_io _ := Ok [];
  sys_ps _ := Ok (true, bytes_of ("  1     0   0   0 launchd 10-02 1:02.03 0:07.50 20480 410000" +:+ nl), []);
  sys_home := Some (Text.path_of_string "/Users/u");
  sys_now_ms := 1000;
  is_signal n := (1 <=? n) && (n <=? 31);
  sys_kill _ _ := Ok tt;
  sys_b64 := String.string_of_list_byte;
  sys_dbg s := s
|}.
Definition entry1 : BrokerSession.SessionEntry :=
  BrokerSession.set_capabilities (BrokerSession.entry_new "s1" 0) ["system"; "screen"].
Definition w0 : Watches := mkWatches 1 [].
Definition region (path : string) : json :=
  JObj [("path", JStr path); ("x", JNum 0); ("y", JNum 0); ("width", JNum 10); ("height", JNum 10)].

(** The resident size of the line above is 20 MB; it is reported as none, and as the virtual size. *)
Example resident_is_zero : process_info 1 =
  Ok (mkInfo 1 0 0 0 "launchd" "launchd" 1000 0 0 0 (20480 * 1024)).
Proof. vm_compute. done. Qed.
Example first_process_signalled :
  (process_signal_tool entry1 (JObj [("pid", JNum (2 ^ 32 + 1)); ("signal", JNum 9)]) w0).2 = [Kill 1 9].
Proof. vm_compute. done. Qed.
Example volume_wraps : (audio_volume entry1 (JObj [("level", JNum 256)]) w0).2 = [SetVolume 0].
Proof. vm_compute. done. Qed.
Example capture_anywhere :
  (screen_capture_region entry1 (region "/etc/shot.png") w0).2 =
  [CreateDir (Text.path_of_string "/etc"); CaptureRegion (Text.path_of_string "/etc/shot.png") None 0 0 10 10].
Proof. vm_compute. done. Qed.
Example capture_up :
  (screen_capture_region entry1 (region "../s2/shot.png") w0).2 =
  [CreateDir (Text.path_of_string "/Users/u/.one-for-all/sessions/s1/../s2");
   CaptureRegion (Text.path_of_string "/Users/u/.one-for-all/sessions/s1/../s2/shot.png") None 0 0 10 10].
Proof. vm_compute. done. Qed.
Example camera_refused : (camera_snapshot entry1 (region "a.jpg") w0).2 = [].
Proof. vm_compute. done. Qed.
Example watch_registered : (fsevents_watch entry1 (JObj [("paths", JArr [JStr "/tmp"])]) w0).1.2 = mkWatches 2 ["fsw-1"].
Proof. vm_compute. done. Qed.

End SystemToolsExamples.
