(* ===== verification/NetTools.v ===== *)
(** * NetTools: the network tools of the broker

    Models [broker/src/router/net.rs]: the tools over the network state of the
    pages ([Network]), the tasks that forward what pages observe to the client,
    and the replay of the subscriptions on the pages of a new browser.  A tool
    gives its result, the session's state and the commands it sends; the answers
    of the browser and the file system are those of the class [NetOs].  The regex
    engine, the JSON form of an exported archive and the installation of a
    certificate are parameters. *)
From S2P Require Import Prelude Json F64 Text Network Input BrokerSession Wire Router Pump.
Import JsonTree Wire Router.

Module NetTools.
Import Pump.

Record RecoveredPageIdentity := mkIdentity { id_tab : string; id_target : string; id_url : string; id_title : string }.

Section Model.
Context {Rx : Type}.
Abbreviation NetState := (Network.State (V:=json) (Regex:=Rx)).

(** A page: its identity and its network state. *)
Record NetPage := mkPage { np_id : RecoveredPageIdentity; np_net : NetState }.
Inductive Forwarder : Type :=
| FwObserve (tab sub : string) (filter : option Rx) | FwWebSocket (tab sub : string) | FwEventSource (tab sub : string).
Inductive NetCmd : Type :=
| FetchEnable (patterns : list string) | ReplayXhr (request_id : string) | InjectFrame (url_substring payload : string)
| PersistProxy (p : Text.Path) (cfg : ProxyConfig).

(** The session: its entry, its pages, its forwarding tasks, its staged proxy. *)
Record NetSession := mkSession {
  entry : option BrokerSession.SessionEntry; pages : gmap string NetPage; forwarders : list Forwarder; staged_proxy : option ProxyConfig
}.

Class NetOs := {
  (** [Regex::new] of a glob and of a filter; [is_match]. *)
  glob_new : list Z -> option Rx;
  filter_new : string -> result Rx string;
  rx_is_match : Rx -> string -> bool;
  net_answer : NetCmd -> result unit string;
  har_value : list Network.HarEntry -> json;
  ca_install : string -> result json RouterError;
  user_data_root : option Text.Path;
  net_dbg : string -> string;
  json_text : json -> string
}.
Context `{Os : NetOs}.

(** ** Arguments *)

Definition pair_of (h : json) : option (string * string) :=
  arr ← as_array h; a ← head arr ≫= as_str; b ← arr !! 1%nat ≫= as_str; Some (a, b).
Definition header_list (v : json) : list (string * string) :=
  match vget "headers" v ≫= as_array with Some hs => omap pair_of hs | None => [] end.
Definition parse_mock_response (v : option json) : Network.MockResponse :=
  let resp := default (JObj []) v in
  Network.mkMock (default 200 (vget "status" resp ≫= as_u64) mod 2 ^ 16) (header_list resp) (default "" (vget_str "body_base64" resp)).
Definition parse_request_overrides (v : option json) : Network.RequestOverrides :=
  let v := default (JObj []) v in
  Network.mkOv (vget_str "url" v) (vget_str "method" v) (header_list v) (vget_str "post_data_base64" v).
Definition parse_action (v : option json) : result Network.InterceptAction RouterError :=
  match v with
  | None | Some JNull => Ok Network.Continue
  | Some (JStr s) =>
      if bool_decide (s = "continue") then Ok Network.Continue else if bool_decide (s = "fulfill") then Ok Network.Fulfill
      else if bool_decide (s = "fail") then Ok Network.Fail
      else Err (invalid_params ("unknown intercept action " +:+ net_dbg s +:+ "; expected continue|fulfill|fail"))
  | Some other => Err (invalid_params ("unknown intercept action " +:+ json_text other +:+ "; expected continue|fulfill|fail"))
  end.
Definition compile_filter (filter : option string) : result (option Rx) RouterError :=
  match filter with
  | Some expr =>
      match filter_new expr with
      | Ok r => Ok (Some r)
      | Err e => Err (invalid_params ("invalid net.observe.filter regex: " +:+ e))
      end
  | None => Ok None
  end.
Definition observe_matches (rx : option Rx) (url : string) : bool := match rx with Some r => rx_is_match r url | None => true end.

(** ** Forwarding tasks *)

Definition net_notify_event (topic session_id tab_id : string) (payload : json) : ServerEvent :=
  mkEvent "2.0" "event/notify"
    (JObj [("topic", JStr topic); ("session_id", JStr session_id); ("tab_id", JStr tab_id); ("payload", payload)]).
Definition field (k : string) (d v : json) : json := default d (vget k v).
Definition net_observe_to_event (payload : json) (sub : string) : option (string * json) :=
  kind ← vget_str "kind" payload;
  if bool_decide (kind = "request_will_be_sent") then
    Some ("network.request",
          JObj [("subscription_id", JStr sub); ("request_id", field "request_id" JNull payload); ("url", field "url" JNull payload);
                ("method", field "method" JNull payload); ("timestamp", field "timestamp" JNull payload);
                ("synthetic", field "synthetic" (JBool false) payload)])
  else if bool_decide (kind = "response_received") then
    Some ("network.response",
          JObj [("subscription_id", JStr sub); ("request_id", field "request_id" JNull payload);
                ("status", field "status" JNull payload); ("headers", field "headers" (JObj []) payload);
                ("mime_type", field "mime_type" JNull payload); ("timestamp", field "timestamp" JNull payload)])
  else None.
(** What the task sends for one payload. *)
Definition observe_event (rx : option Rx) (session_id tab sub : string) (payload : json) : option ServerEvent :=
  if negb (observe_matches rx (default "" (vget_str "url" payload))) then None
  else '(topic, normalized) ← net_observe_to_event payload sub; Some (net_notify_event topic session_id tab normalized).
Definition kind_str (k : WsFrameKind) : string :=
  match k with
  | Created => "created" | HandshakeRequest => "handshake_request" | HandshakeResponse => "handshake_response"
  | FrameSent => "frame_sent" | FrameReceived => "frame_received" | FrameError => "frame_error" | WsClosed => "closed"
  end.
Definition opt (k : string) (o : option string) : list (string * json) := match o with Some s => [(k, JStr s)] | None => [] end.
Definition ws_value (sub : string) (f : WsFrame) : json :=
  JObj ([("request_id", JStr (ws_request_id f)); ("kind", JStr (kind_str (ws_kind f))); ("ts_ms", Input.jfloat (ws_ts_ms f))]
        ++ opt "payload_base64" (payload_base64 f) ++ opt "url" (ws_url f) ++ opt "error" (ws_error f)
        ++ [("subscription_id", JStr sub)]).
Definition es_value (sub : string) (m : EsMessage) : json :=
  JObj [("request_id", JStr (es_request_id m)); ("event_name", JStr (es_event_name m)); ("event_id", JStr (es_event_id m));
        ("data", JStr (es_data m)); ("ts_ms", Input.jfloat (es_ts_ms m)); ("subscription_id", JStr sub)].
(** A task: it goes on after a lag, and ends when the channel closes; each value
    comes with what [try_push] finds. *)
Fixpoint forward {A} (f : A -> option ServerEvent) (rs : list (BrokerSession.queue_state * Z * received A))
    (e : BrokerSession.SessionEntry) : BrokerSession.SessionEntry :=
  match rs with
  | [] => e
  | (_, _, Closed) :: _ => e
  | (_, _, Lagged _) :: rs => forward f rs e
  | (q, now, Got a) :: rs => forward f rs (match f a with Some ev => fst (BrokerSession.try_push q now e ev) | None => e end)
  end.
Definition forward_network_observe (rx : option Rx) (sid tab sub : string) := forward (observe_event rx sid tab sub).
Definition forward_websocket_observe (sid tab sub : string) :=
  forward (fun f => Some (net_notify_event "network.websocket" sid tab (ws_value sub f))).
Definition forward_eventsource_observe (sid tab sub : string) :=
  forward (fun m => Some (net_notify_event "network.eventsource" sid tab (es_value sub m))).

(** ** Replay on the pages of a new browser *)

Definition match_observe_restored_page (o : BrokerSession.DurableNetworkObserve) (restored : list NetPage)
    (previous : list RecoveredPageIdentity) : option NetPage :=
  prev ← List.find (fun p => bool_decide (id_tab p = BrokerSession.tab_id o)) previous;
  match List.find (fun p => bool_decide (id_target (np_id p) = id_target prev)) restored with
  | Some p => Some p
  | None =>
      match base.filter (fun p => id_url (np_id p) = id_url prev) restored with
      | [p] => Some p
      | _ =>
          match base.filter (fun p => id_url (np_id p) = id_url prev /\ id_title (np_id p) = id_title prev) restored with
          | [p] => Some p
          | _ => None
          end
      end
  end.
Definition replay_one (restored : list NetPage) (previous : list RecoveredPageIdentity)
    (st : BrokerSession.SessionEntry * list Forwarder) (o : BrokerSession.DurableNetworkObserve) :
    BrokerSession.SessionEntry * list Forwarder :=
  match compile_filter (BrokerSession.filter o) with
  | Err _ => st
  | Ok rx =>
      match match_observe_restored_page o restored previous with
      | None => st
      | Some p =>
          let tab := id_tab (np_id p) in
          let sub := BrokerSession.subscription_id o in
          (BrokerSession.upsert_durable_network_observe (fst st) (BrokerSession.mkObserve sub tab (BrokerSession.filter o)),
           snd st ++ [FwObserve tab sub rx])
      end
  end.
Definition replay_network_observe_subscriptions (restored : list NetPage) (previous : list RecoveredPageIdentity)
    (st : BrokerSession.SessionEntry * list Forwarder) : BrokerSession.SessionEntry * list Forwarder :=
  foldl (replay_one restored previous) st (BrokerSession.durable_network_observe (fst st)).

(** ** The tools *)

Definition N (A : Type) : Type := NetSession -> result A RouterError * NetSession * list NetCmd.
Definition ret {A} (a : A) : N A := fun s => (Ok a, s, []).
Definition bind {A B} (m : N A) (f : A -> N B) : N B :=
  fun s => match m s with
           | (Ok a, s, l) => let '(r, s, l') := f a s in (r, s, l ++ l')
           | (Err e, s, l) => (Err e, s, l)
           end.
Definition lift {A} (r : result A RouterError) : N A := fun s => (r, s, []).
Notation "x <- m ;; k" := (bind m (fun x => k)) (at level 100, m at next level, right associativity).
Notation "m ;;; k" := (bind m (fun _ => k)) (at level 100, right associativity).

Definition locate_page (params : json) : N NetPage :=
  tab <- lift (required_str params "tab_id") ;;
  fun s => (match pages s !! tab with Some p => Ok p | None => Err tab_not_found end, s, []).
Definition with_context {A} (what : string) (r : result A string) : result A RouterError :=
  match r with Ok a => Ok a | Err e => Err (internal (what +:+ ": " +:+ e)) end.
Definition send_cmd (what : string) (c : NetCmd) : N unit := fun s => (with_context what (net_answer c), s, [c]).
Definition set_page (p : NetPage) (s : NetSession) : NetSession :=
  mkSession (entry s) (<[id_tab (np_id p) := p]> (pages s)) (forwarders s) (staged_proxy s).
Definition set_net (p : NetPage) (n : NetState) : N unit := fun s => (Ok tt, set_page (mkPage (np_id p) n) s, []).
(** [pattern_set], in some order. *)
Definition pattern_set (n : NetState) : list string := map (fun h => Network.hs_pattern (snd h)) (map_to_list (Network.handlers n)).
(** A registration, then the refresh of the patterns. *)
Definition registered (what pattern : string) (p : NetPage) (r : option (string * NetState)) : N json :=
  match r with
  | None => lift (Err (internal (what +:+ ": " +:+ "compiling URL pattern " +:+ net_dbg pattern)))
  | Some (id, n) => set_net p n ;;; send_cmd what (FetchEnable (pattern_set n)) ;;; ret (JObj [("handler_id", JStr id)])
  end.
Definition net_intercept (params : json) : N json :=
  p <- locate_page params ;; pattern <- lift (required_str params "pattern") ;; a <- lift (parse_action (vget "action" params)) ;;
  registered "net.intercept" pattern p (Network.net_intercept glob_new pattern a (np_net p)).
Definition net_mock (params : json) : N json :=
  p <- locate_page params ;; pattern <- lift (required_str params "url_pattern") ;;
  registered "net.mock" pattern p (Network.net_intercept_fulfill_with_body glob_new pattern (parse_mock_response (vget "response" params)) (np_net p)).
Definition net_fulfill (params : json) : N json :=
  p <- locate_page params ;; pattern <- lift (required_str params "pattern") ;;
  registered "net.intercept.fulfill_with_body" pattern p
    (Network.net_intercept_fulfill_with_body glob_new pattern (parse_mock_response (vget "response" params)) (np_net p)).
Definition net_modify (params : json) : N json :=
  p <- locate_page params ;; pattern <- lift (required_str params "pattern") ;;
  registered "net.intercept.modify_request" pattern p
    (Network.net_intercept_modify_request glob_new pattern (parse_request_overrides (vget "overrides" params)) (np_net p)).
Definition net_fail (params : json) : N json :=
  p <- locate_page params ;; pattern <- lift (required_str params "pattern") ;;
  registered "net.intercept.fail" pattern p
    (Network.net_intercept_fail glob_new pattern (default "Failed" (vget_str "error_reason" params)) (np_net p)).

(** [current_session] *)
Definition current_session : N BrokerSession.SessionEntry :=
  fun s => (match entry s with Some e => Ok e | None => Err (internal "missing current session") end, s, []).
Definition allocate (prefix : string) (p : NetPage) : N string :=
  let '(id, n) := Network.allocate_id prefix (np_net p) in set_net p n ;;; ret id.
Definition spawn (f : Forwarder) : N unit :=
  fun s => (Ok tt, mkSession (entry s) (pages s) (forwarders s ++ [f]) (staged_proxy s), []).
Definition upsert (o : BrokerSession.DurableNetworkObserve) : N unit :=
  fun s => (Ok tt, mkSession ((fun e => BrokerSession.upsert_durable_network_observe e o) <$> entry s) (pages s) (forwarders s)
                     (staged_proxy s), []).
Definition net_observe (params : json) : N json :=
  p <- locate_page params ;;
  let filter := vget_str "filter" params in
  id <- allocate "s" p ;;
  rx <- lift (compile_filter filter) ;;
  current_session ;;;
  let tab := id_tab (np_id p) in
  upsert (BrokerSession.mkObserve id tab filter) ;;; spawn (FwObserve tab id rx) ;;; ret (JObj [("subscription_id", JStr id)]).
Definition net_replay (params : json) : N json :=
  locate_page params ;;; id <- lift (required_str params "request_id") ;; send_cmd "net.replay" (ReplayXhr id) ;;;
  ret (JObj [("ok", JBool true)]).
Definition net_websocket_observe (params : json) : N json :=
  p <- locate_page params ;; id <- allocate "ws" p ;; current_session ;;; spawn (FwWebSocket (id_tab (np_id p)) id) ;;;
  ret (JObj [("subscription_id", JStr id); ("channel", JStr "ws")]).
Definition net_websocket_inject_frame (params : json) : N json :=
  locate_page params ;;; u <- lift (required_str params "url_substring") ;; d <- lift (required_str params "payload_base64") ;;
  send_cmd "net.websocket.inject_frame" (InjectFrame u d) ;;; ret (JObj [("ok", JBool true)]).
Definition net_eventsource_observe (params : json) : N json :=
  p <- locate_page params ;; id <- allocate "es" p ;; current_session ;;; spawn (FwEventSource (id_tab (np_id p)) id) ;;;
  ret (JObj [("subscription_id", JStr id); ("channel", JStr "eventsource")]).
Definition net_har_export (params : json) : N json :=
  p <- locate_page params ;;
  ret (har_value (Network.snapshot_since (default f64_zero (vget "since_ts" params ≫= as_f64)) (Network.har (np_net p)))).
Definition parse_proxy (params : json) : result ProxyConfig RouterError :=
  scheme <-? required_str params "scheme" ;;
  host <-? required_str params "host" ;;
  port <-? match vget "port" params ≫= as_u64 with Some z => Ok z | None => Err (invalid_params "port required") end ;;
  Ok (mkProxy scheme host (port mod 2 ^ 16)
        ((fun a => mkAuth (default "" (vget_str "user" a)) (default "" (vget_str "pass" a))) <$> vget "auth" params)
        (vget_str "bypass" params)).
Definition to_proxy_server_arg (c : ProxyConfig) : string :=
  "--proxy-server=" +:+ px_scheme c +:+ "://" +:+ px_host c +:+ ":" +:+ String.string_of_list_byte (Text.fmt_dec (px_port c)).
Definition session_root (session_id : string) : result Text.Path RouterError :=
  match user_data_root with Some r => Ok (Text.join r (Text.path_of_string session_id)) | None => Err (internal "missing current state") end.
(** Staged in memory first, then on disk. *)
Definition store_staged_proxy (root : Text.Path) (cfg : ProxyConfig) : N unit :=
  fun s => (with_context "net.proxy persist" (net_answer (PersistProxy (Text.join root (Text.path_of_string "staged-proxy.json")) cfg)),
            mkSession (entry s) (pages s) (forwarders s) (Some cfg),
            [PersistProxy (Text.join root (Text.path_of_string "staged-proxy.json")) cfg]).
Definition net_proxy (params : json) : N json :=
  cfg <- lift (parse_proxy params) ;; e <- current_session ;; root <- lift (session_root (BrokerSession.session_id e)) ;;
  store_staged_proxy root cfg ;;;
  ret (JObj [("accepted", JBool true); ("applies_at_next_launch", JBool true); ("argv", JStr (to_proxy_server_arg cfg))]).
Definition net_mitm_cert_install (params : json) : N json := pem <- lift (required_str params "ca_pem") ;; lift (ca_install pem).

Definition net_tools : list (string * (json -> N json)) :=
  [("net.intercept", net_intercept); ("net.mock", net_mock); ("net.observe", net_observe);
   ("net.intercept.fulfill_with_body", net_fulfill); ("net.intercept.modify_request", net_modify); ("net.intercept.fail", net_fail);
   ("net.replay", net_replay); ("net.websocket.observe", net_websocket_observe);
   ("net.websocket.inject_frame", net_websocket_inject_frame); ("net.eventsource.observe", net_eventsource_observe);
   ("net.har.export", net_har_export); ("net.proxy", net_proxy); ("net.mitm_cert.install", net_mitm_cert_install)].
Definition net_dispatch (method : string) (params : json) : N json :=
  match List.find (fun row => bool_decide (fst row = method)) net_tools with
  | Some row => snd row params
  | None => lift (Err (method_not_found method))
  end.

(** ** What the tasks deliver *)

(** The values received before the channel closed. *)
Fixpoint before_close {W A} (rs : list (W * received A)) : list A :=
  match rs with
  | [] | (_, Closed) :: _ => []
  | (_, Lagged _) :: rs => before_close rs
  | (_, Got a) :: rs => a :: before_close rs
  end.
Lemma set_conn_twice e c d : BrokerSession.set_conn (BrokerSession.set_conn e c) d = BrokerSession.set_conn e d.
Proof. done. Qed.
Lemma set_conn_same e c : BrokerSession.conn_tx e = c -> BrokerSession.set_conn e c = e.
Proof. intros <-. now destruct e. Qed.

(** While the client keeps up, a task delivers exactly the events of what it
    received before the channel closed, each once and in order, behind what was
    sent before; a lag loses only what was lagged behind, and nothing else of
    the session changes. *)
Theorem forward_delivers {A} (f : A -> option ServerEvent) rs e sent
    (Hq : Forall (fun r => fst (fst r) = BrokerSession.QOpen) rs) (Hc : BrokerSession.conn_tx e = Some sent) :
  forward f rs e = BrokerSession.set_conn e (Some (sent ++ omap f (before_close rs))).
Proof.
  revert e sent Hc. induction rs as [|[[q now] r] rs IH]; intros e sent Hc; cbn.
  { rewrite app_nil_r. symmetry. now apply set_conn_same. }
  apply Forall_cons in Hq as [Hq Hrs]. cbn in Hq. subst q. destruct r as [a|n|]; cbn.
  - destruct (f a) as [ev|] eqn:Ef; cbn; rewrite ?Ef; [|now apply IH].
    unfold BrokerSession.try_push. rewrite Hc. cbn.
    rewrite (IH Hrs _ (sent ++ [ev])) by done. now rewrite set_conn_twice, <- app_assoc.
  - now apply IH.
  - rewrite app_nil_r. symmetry. now apply set_conn_same.
Qed.

(** ** Replay *)

Abbreviation ids e := (map BrokerSession.subscription_id (BrokerSession.durable_network_observe e)).

(** The page a subscription is moved to, with its compiled filter. *)
Definition target (restored : list NetPage) (previous : list RecoveredPageIdentity) (o : BrokerSession.DurableNetworkObserve) :
    option (NetPage * option Rx) :=
  match compile_filter (BrokerSession.filter o), match_observe_restored_page o restored previous with
  | Ok rx, Some p => Some (p, rx)
  | _, _ => None
  end.
Definition moved restored previous (o : BrokerSession.DurableNetworkObserve) : BrokerSession.DurableNetworkObserve :=
  match target restored previous o with
  | Some (p, _) => BrokerSession.mkObserve (BrokerSession.subscription_id o) (id_tab (np_id p)) (BrokerSession.filter o)
  | None => o
  end.
Definition task restored previous (o : BrokerSession.DurableNetworkObserve) : option Forwarder :=
  (fun '(p, rx) => FwObserve (id_tab (np_id p)) (BrokerSession.subscription_id o) rx) <$> target restored previous o.

Lemma upsert_at l1 o l2 o' :
  BrokerSession.subscription_id o' = BrokerSession.subscription_id o ->
  BrokerSession.subscription_id o ∉ map BrokerSession.subscription_id l1 ->
  BrokerSession.upsert (l1 ++ o :: l2) o' = l1 ++ o' :: l2.
Proof.
  intros E. induction l1 as [|x l1 IH]; cbn; intros H; [now rewrite decide_True|].
  rewrite decide_False by (rewrite E; set_solver). f_equal. apply IH. set_solver.
Qed.
Lemma replay_one_target restored previous st o :
  replay_one restored previous st o =
  match target restored previous o with
  | None => st
  | Some (p, rx) =>
      (BrokerSession.upsert_durable_network_observe (fst st) (moved restored previous o),
       snd st ++ [FwObserve (id_tab (np_id p)) (BrokerSession.subscription_id o) rx])
  end.
Proof.
  unfold replay_one, moved, target. destruct (compile_filter _) as [rx|]; [|done]. now destruct (match_observe_restored_page _ _ _).
Qed.
Lemma replay_durable restored previous l1 l2 e fw :
  BrokerSession.durable_network_observe e = l1 ++ l2 -> NoDup (ids e) ->
  let st := foldl (replay_one restored previous) (e, fw) l2 in
  BrokerSession.durable_network_observe (fst st) = l1 ++ map (moved restored previous) l2 /\
  snd st = fw ++ omap (task restored previous) l2.
Proof.
  revert l1 e fw. induction l2 as [|o l2 IH]; intros l1 e fw Hd Hn; cbn [foldl map omap list_omap].
  { cbn. now rewrite Hd, !app_nil_r. }
  assert (BrokerSession.subscription_id o ∉ map BrokerSession.subscription_id l1) as Hi.
  { rewrite Hd, map_app, NoDup_app in Hn. cbn in Hn. intros Hin. apply Hn in Hin. set_solver. }
  rewrite replay_one_target. unfold task at 1.
  assert (exists e' fw', match target restored previous o with
    | None => (e, fw)
    | Some (p, rx) => (BrokerSession.upsert_durable_network_observe e (moved restored previous o),
                       fw ++ [FwObserve (id_tab (np_id p)) (BrokerSession.subscription_id o) rx]) end = (e', fw') /\
    BrokerSession.durable_network_observe e' = (l1 ++ [moved restored previous o]) ++ l2 /\
    fw' = fw ++ omap (task restored previous) [o]) as (e' & fw' & E & Hd' & Hf).
  { unfold moved, task. cbn. destruct (target restored previous o) as [[p rx]|]; eexists _, _; (split; [reflexivity|]).
    - cbn. rewrite Hd, upsert_at by done. now rewrite <- app_assoc.
    - cbn. rewrite Hd, app_nil_r, <- app_assoc. done. }
  cbn [fst snd] in E |- *. rewrite E. destruct (IH (l1 ++ [moved restored previous o]) e' fw' Hd') as [I1 I2].
  { rewrite Hd' . rewrite Hd in Hn. rewrite !map_app in *. cbn in *. rewrite <- app_assoc. cbn.
    unfold moved. destruct (target _ _ o) as [[p rx]|]; done. }
  rewrite I1, I2, Hf, <- !app_assoc. cbn. unfold task. destruct (target restored previous o) as [[p rx]|]; done.
Qed.

(** After a crash every subscription is kept, under its own id and filter and in
    its place, and moved to the page that takes over its tab; exactly those that
    were moved get a task, with the filter compiled. *)
Theorem replay_moves restored previous e fw (Hn : NoDup (ids e)) :
  let st := replay_network_observe_subscriptions restored previous (e, fw) in
  BrokerSession.durable_network_observe (fst st) = map (moved restored previous) (BrokerSession.durable_network_observe e) /\
  snd st = fw ++ omap (task restored previous) (BrokerSession.durable_network_observe e).
Proof. unfold replay_network_observe_subscriptions. cbn [fst]. now apply (replay_durable restored previous []). Qed.

(** *** Ids of subscriptions are those of a page *)

Lemma upsert_upsert l o o' : BrokerSession.subscription_id o' = BrokerSession.subscription_id o ->
  BrokerSession.upsert (BrokerSession.upsert l o) o' = BrokerSession.upsert l o'.
Proof.
  intros E. induction l as [|x l IH]; cbn; [now rewrite decide_True|]. rewrite E.
  destruct (decide (BrokerSession.subscription_id x = BrokerSession.subscription_id o)); cbn; rewrite E.
  - now rewrite decide_True.
  - rewrite decide_False by done. now rewrite IH.
Qed.
Definition tab_params (tab : string) : json := JObj [("tab_id", JStr tab)].
Lemma net_observe_run tab s p e : pages s !! tab = Some p -> entry s = Some e ->
  let '(id, n) := Network.allocate_id "s" (np_net p) in
  let t := id_tab (np_id p) in
  net_observe (tab_params tab) s =
  (Ok (JObj [("subscription_id", JStr id)]),
   mkSession (Some (BrokerSession.upsert_durable_network_observe e (BrokerSession.mkObserve id t None)))
     (<[t := mkPage (np_id p) n]> (pages s)) (forwarders s ++ [FwObserve t id None]) (staged_proxy s), []).
Proof.
  intros Hp He. destruct (Network.allocate_id "s" (np_net p)) as [id n] eqn:Ha.
  assert (vget_str "tab_id" (tab_params tab) = Some tab) as E1 by done.
  assert (vget_str "filter" (tab_params tab) = None) as E2 by done.
  unfold net_observe, locate_page, allocate, current_session, bind, lift, required_str. rewrite E1, E2, Hp, Ha. cbn.
  now rewrite He.
Qed.

(** Two tabs that have given out equally many ids give the same id to their next
    subscriptions, and the session then remembers only the second: what it
    replays after a crash is as if the first had never been made. *)
Theorem observe_ids_collide a b s pa pb e :
  a <> b -> pages s !! a = Some pa -> pages s !! b = Some pb -> id_tab (np_id pa) = a -> entry s = Some e ->
  Network.next_id (np_net pa) = Network.next_id (np_net pb) ->
  let r1 := net_observe (tab_params a) s in
  let r2 := net_observe (tab_params b) r1.1.2 in
  r2.1.1 = r1.1.1 /\ entry r2.1.2 = entry (net_observe (tab_params b) s).1.2.
Proof.
  intros Hab Ha Hb Ht He Hn. pose proof (net_observe_run a s pa e Ha He) as R1. pose proof (net_observe_run b s pb e Hb He) as R3.
  unfold Network.allocate_id in *. rewrite Hn in R1. cbn -[net_observe tab_params] in R1, R3.
  match type of R1 with _ = (_, ?s1, _) => pose proof (net_observe_run b s1 pb) as R2 end.
  cbn -[net_observe tab_params Network.allocate_id] in R2. rewrite Ht, lookup_insert_ne in R2 by done.
  specialize (R2 _ Hb eq_refl). unfold Network.allocate_id in R2. cbn -[net_observe tab_params] in R2.
  cbv zeta. rewrite R1, Ht. cbn -[net_observe tab_params]. rewrite R2, R3. cbn. split; [done|].
  unfold BrokerSession.upsert_durable_network_observe. cbn. now rewrite upsert_upsert.
Qed.

End Model.
End NetTools.

Module NetToolsExamples.
Import Pump NetTools.

(** Patterns and filters are words; a filter that is a parenthesis does not compile. *)
#[local] Instance os1 : NetOs (Rx:=string) := {|
  glob_new l := Some (Input.of_chars l);
  filter_new s := if bool_decide (s = "(") then Err "unclosed group" else Ok s;
  rx_is_match r u := match String.index 0 r u with Some _ => true | None => false end;
  net_answer c := match c with FetchEnable _ => Err "Fetch.enable" | _ => Ok tt end;
  har_value _ := JNull;
  ca_install _ := Err (internal "net.mitm_cert.install: unsupported on this platform");
  user_data_root := Some (Text.path_of_string "/data");
  net_dbg s := s;
  json_text _ := ""
|}.
Definition page_of (tab target url title : string) : NetPage (Rx:=string) :=
  mkPage (mkIdentity tab target url title) Network.state_new.
Definition s1 : NetSession (Rx:=string) :=
  mkSession (Some (BrokerSession.entry_new "s1" 0))
    {[ "t1" := page_of "t1" "T1" "http://a/" "A"; "t2" := page_of "t2" "T2" "http://b/" "B" ]} [] None.

Example both_are_s_1 :
  let r1 := net_observe (tab_params "t1") s1 in
  let r2 := net_observe (tab_params "t2") r1.1.2 in
  (r1.1.1, r2.1.1) = (Ok (JObj [("subscription_id", JStr "s_1")]), Ok (JObj [("subscription_id", JStr "s_1")])) /\
  BrokerSession.durable_network_observe <$> entry r2.1.2 = Some [BrokerSession.mkObserve "s_1" "t2" None].
Proof. vm_compute. done. Qed.
(** A port that is no port is cut to sixteen bits. *)
Example port_cut :
  parse_proxy (JObj [("scheme", JStr "http"); ("host", JStr "h"); ("port", JNum 65537)]) = Ok (mkProxy "http" "h" 1 None None).
Proof. vm_compute. done. Qed.
(** When the browser refuses the patterns, the handler stays and its id is lost. *)
Example handler_left_behind :
  let r := net_mock (JObj [("tab_id", JStr "t1"); ("url_pattern", JStr "*")]) s1 in
  r.1.1 = Err (internal "net.mock: Fetch.enable") /\
  (fun p => map fst (map_to_list (Network.handlers (np_net p)))) <$> pages r.1.2 !! "t1" = Some ["m_1"].
Proof. vm_compute. done. Qed.
Definition e1 : BrokerSession.SessionEntry :=
  BrokerSession.upsert_durable_network_observe (BrokerSession.entry_new "s1" 0) (BrokerSession.mkObserve "s_1" "t1" (Some "api")).
(** The page is found by its target, or by its URL when only one page has it. *)
Example replayed : 
  let st := replay_network_observe_subscriptions [page_of "t9" "T9" "http://a/" "A"; page_of "t8" "T8" "http://b/" "B"]
              [mkIdentity "t1" "T1" "http://a/" "A"] (e1, []) in
  BrokerSession.durable_network_observe (fst st) = [BrokerSession.mkObserve "s_1" "t9" (Some "api")] /\
  snd st = [FwObserve "t9" "s_1" (Some "api")].
Proof. vm_compute. done. Qed.

End NetToolsExamples.
