(* ===== verification/PageSpec.v ===== *)
(** * PageSpec: what the page tools guarantee

    Theorems on the tools of [PageTools]: which of them a session may not use
    without a capability, what an input tool does to the browser's devices and
    which element it acts on, how stale refs are refused, and what the tools
    that run a script make of its result. *)
From S2P Require Import Prelude Json Text F64 AxMerge Input Actions BrokerSession Wire Router PageTools.
Import JsonTree Input Prog AxMerge Actions Wire Router PageTools.

Module PageSpec.
Section Spec.
Context `{Env : PageEnv} `{Serde : PageSerde}.

(** The page tools of [dispatch], by the name of their function. *)
Definition page_handlers : list (string * (json -> tool json)) := [
  ("page::page_snapshot", page_snapshot); ("page::page_screenshot", page_screenshot); ("page::page_read_text", page_read_text);
  ("page::page_click", page_click); ("page::page_type", page_type); ("page::page_keypress", page_keypress);
  ("page::page_scroll", page_scroll); ("page::page_hover", page_hover); ("page::page_drag", page_drag);
  ("page::page_touch_tap", page_touch_tap); ("page::page_touch_swipe", page_touch_swipe);
  ("page::page_touch_pinch", page_touch_pinch); ("page::page_touch_rotate", page_touch_rotate);
  ("page::page_pointer_press", page_pointer_press); ("page::page_pointer_move", page_pointer_move);
  ("page::page_pointer_release", page_pointer_release); ("page::page_gesture_pinch", page_gesture_pinch);
  ("page::page_gesture_rotate", page_gesture_rotate); ("page::page_gesture_longpress", page_gesture_longpress);
  ("page::page_drag_file_drop", page_drag_file_drop); ("page::page_keyboard_shortcut", page_keyboard_shortcut);
  ("page::page_keyboard_ime", page_keyboard_ime); ("page::page_dead_key", page_dead_key);
  ("page::page_scroll_precise", page_scroll_precise); ("page::page_tab_traversal", page_tab_traversal);
  ("page::page_right_click_menu_navigate", page_right_click_menu_navigate); ("page::page_eval", page_eval);
  ("page::page_cookies", page_cookies); ("page::page_cookies_deep_set", page_cookies_deep_set);
  ("page::page_storage", page_storage); ("page::page_localstorage_get", page_localstorage_get);
  ("page::page_localstorage_set", page_localstorage_set); ("page::page_localstorage_delete", page_localstorage_delete);
  ("page::page_localstorage_clear", page_localstorage_clear); ("page::page_localstorage_cas", page_localstorage_cas);
  ("page::page_sessionstorage_get", page_sessionstorage_get); ("page::page_sessionstorage_set", page_sessionstorage_set);
  ("page::page_sessionstorage_delete", page_sessionstorage_delete); ("page::page_sessionstorage_clear", page_sessionstorage_clear);
  ("page::page_sessionstorage_cas", page_sessionstorage_cas); ("page::page_indexeddb_list_databases", page_indexeddb_list_databases);
  ("page::page_indexeddb_list_stores", page_indexeddb_list_stores); ("page::page_indexeddb_query", page_indexeddb_query);
  ("page::page_indexeddb_put", page_indexeddb_put); ("page::page_indexeddb_delete", page_indexeddb_delete);
  ("page::page_indexeddb_delete_database", page_indexeddb_delete_database); ("page::page_cache_api_list", page_cache_api_list);
  ("page::page_cache_api_inspect", page_cache_api_inspect); ("page::page_cache_api_delete", page_cache_api_delete);
  ("page::page_permissions_query", page_permissions_query); ("page::page_permissions_grant", page_permissions_grant);
  ("page::page_permissions_revoke", page_permissions_revoke); ("page::page_storage_quota", page_storage_quota);
  ("page::page_viewport", page_viewport); ("page::page_user_agent", page_user_agent); ("page::page_geo", page_geo);
  ("page::page_dark_mode", page_dark_mode); ("page::page_network_conditions", page_network_conditions);
  ("page::page_emulate", page_emulate)].
(** The tool a method is dispatched to. *)
Definition handler (name : string) : option (json -> tool json) :=
  option_map snd (List.find (fun h => bool_decide (fst h = name)) page_handlers).
Definition page_tool (method : string) : option (json -> tool json) := name ← route method; handler name.

(** ** Capabilities *)

(** The capability a method needs. *)
Definition capability (method : string) : option string :=
  if bool_decide (method = "page.eval") then Some "eval"
  else if bool_decide (method ∈ ["page.cookies.deep_set"; "page.storage"; "page.storage.quota"])
          || existsb (fun p => String.prefix p method)
               ["page.localstorage."; "page.sessionstorage."; "page.indexeddb."; "page.cache_api."; "page.permissions."]
  then Some "storage_state" else None.

(** What is seen: the answer on capabilities, or that something else was asked. *)
Inductive seen : Type := Caps (c : option (list string)) | Other.
Definition asked (X : Type) (e : tev X) : X -> list seen :=
  match e in tev X return X -> list seen with
  | SessionCapabilities => fun c => [Caps c]
  | _ => fun _ => [Other]
  end.
Definition gate (cap : string) (tr : list seen) (r : result json RouterError) : Prop :=
  (exists l tr', tr = Caps (Some l) :: tr' /\ cap ∈ l) \/
  (exists c e, tr = [Caps c] /\ (forall l, c = Some l -> cap ∉ l) /\ r = Err e /\ re_code e = PermissionDenied).

Lemma gate_storage method (k : unit -> tool json) :
  post asked (bind_ok (require_storage_state_capability method) k) (gate "storage_state").
Proof.
  apply post_vis. intros [l|]; cbn.
  - case_bool_decide as H; cbn.
    + intros tr r _. left. eauto.
    + apply post_ret. right. eexists (Some l), _. split; [done|]. split; [now intros l' [= <-]|done].
  - apply post_ret. right. eexists None, _. split; [done|]. split; [discriminate|done].
Qed.
Lemma gate_eval params : post asked (page_eval params) (gate "eval").
Proof.
  apply post_vis. intros [l|]; cbn.
  - case_bool_decide as H; cbn.
    + intros tr r _. left. eauto.
    + apply post_ret. right. eexists (Some l), _. split; [done|]. split; [now intros l' [= <-]|done].
  - apply post_ret. right. eexists None, _. split; [done|]. split; [discriminate|done].
Qed.

(** The functions behind those methods. *)
Definition gate_of (name : string) : option string :=
  option_map snd (List.find (fun p => bool_decide (fst p = name))
    (routes ≫= fun arm => omap (fun m => option_map (pair (snd arm)) (capability m)) (fst arm))).
Lemma gate_of_capability method name cap : route method = Some name -> capability method = Some cap -> gate_of name = Some cap.
Proof.
  assert (forallb (fun arm => forallb (fun m => match capability m with
    | Some c => bool_decide (gate_of (snd arm) = Some c) | None => true end) (fst arm)) routes = true) as H by (vm_compute; reflexivity).
  unfold route. destruct (List.find _ routes) as [arm|] eqn:F; [|discriminate]. intros [= <-] C.
  apply List.find_some in F as [F1 F2%bool_decide_eq_true%list_elem_of_In]. rewrite forallb_forall in H. specialize (H _ F1).
  rewrite forallb_forall in H. specialize (H _ F2). rewrite C in H. now apply bool_decide_eq_true in H.
Qed.
Lemma handlers_gated : Forall (fun h => match gate_of (fst h) with
  | Some cap => forall params, post asked (snd h params) (gate cap)
  | None => True
  end) page_handlers.
Proof.
  unfold page_handlers. for_all; cbn [fst snd];
    (lazymatch goal with |- context [gate_of ?n] => let x := eval vm_compute in (gate_of n) in
       replace (gate_of n) with x by (vm_compute; reflexivity) end);
    lazymatch goal with
    | |- True => exact I
    | |- forall _, post _ (page_eval _) _ => exact gate_eval
    | |- _ => intros params; apply gate_storage
    end.
Qed.
Lemma handler_in name f : handler name = Some f -> In (name, f) page_handlers.
Proof.
  unfold handler. destruct (List.find _ _) as [[n g]|] eqn:F; [|discriminate]. intros [= <-].
  apply List.find_some in F as [F1 F2%bool_decide_eq_true]. cbn in F2. now subst n.
Qed.

(** C10: Access to scripts and stored state is gated: the first thing a tool of
    [page.eval], of the storage, database, cache and permission tools or of
    [page.cookies.deep_set] does is ask for the capabilities of the session it
    serves.  Unless the one it needs is among them nothing else is asked of the
    page, the browser or the file system, and the call is refused with
    PermissionDenied.  Since the question comes before anything that suspends
    the call, the thread-local session it reads is the one [dispatch] has set. *)
Theorem gated_tools_denied method cap f params tr r :
  capability method = Some cap -> page_tool method = Some f -> runs asked (f params) tr r -> gate cap tr r.
Proof.
  unfold page_tool. destruct (route method) as [name|] eqn:R; [|discriminate]. cbn. intros C H%handler_in.
  pose proof handlers_gated as G. rewrite List.Forall_forall in G. specialize (G _ H). cbn in G.
  rewrite (gate_of_capability _ _ _ R C) in G. apply G.
Qed.

(** ** Input tools *)

(** What is seen of an input tool: the commands it sends and the snapshots it takes. *)
Inductive step_seen : Type := Sent (c : cmd) | Saw (s : Snap) | Seq (current : Z).
Definition did (X : Type) (e : tev X) : X -> list step_seen :=
  match e in tev X return X -> list step_seen with
  | @OnPage Y e => fun x => map Sent (sends Y e x)
  | TakeSnapshot => fun r => match r with Ok s => [Saw s] | Err _ => [] end
  | SnapshotSeq => fun n => [Seq n]
  | _ => fun _ => []
  end.
Definition commands (tr : list step_seen) : list cmd := omap (fun o => match o with Sent c => Some c | _ => None end) tr.
(** The elements an action is performed on. *)
Definition targets (a : action) : list PageElement :=
  match a with
  | Click e _ _ _ _ | TypeText e _ _ _ _ | Hover e | Menu e _ => [e]
  | Scroll e _ _ _ _ => option_list e
  | Drag from to _ => [from; to]
  | _ => []
  end.
Definition refs (params : json) : list string :=
  omap (fun k => vget_str k params) ["ref"; "from_ref"; "to_ref"; "target_ref"].
(** An element of a snapshot that was taken, with a ref of the arguments. *)
Definition named (params : json) (tr : list step_seen) (e : PageElement) : Prop :=
  exists s, Saw s ∈ tr /\ e ∈ sn_elements s /\ element_ref e ∈ refs params.
Definition acted (params : json) (tr : list step_seen) (r : result json RouterError) : Prop :=
  (commands tr = [] /\ is_ok r = false) \/
  exists a, (if is_ok r then commands tr = script a else commands tr `prefix_of` script a) /\ Forall (named params tr) (targets a).

Lemma commands_app t1 t2 : commands (t1 ++ t2) = commands t1 ++ commands t2.
Proof. apply omap_app. Qed.
Lemma commands_sent l : commands (map Sent l) = l.
Proof. induction l as [|c l IH]; cbn; [done|]. f_equal. exact IH. Qed.
Lemma named_grow params t0 t e : named params t e -> named params (t0 ++ t) e.
Proof. intros (s & H & H'). exists s. rewrite elem_of_app. eauto. Qed.
Lemma named_app params t1 t2 e : named params t1 e -> named params (t1 ++ t2) e.
Proof. intros (s & H & H'). exists s. rewrite elem_of_app. eauto. Qed.

(** An action on the page is seen through the tool. *)
Lemma runs_embed {E F O P A} (obs : forall X, E X -> X -> list O) (obs' : forall X, F X -> X -> list P) (s : O -> P)
    (h : forall X, E X -> F X) (p : prog E A) : (forall X e x, obs' X (h X e) x = map s (obs X e x)) ->
  forall tr r, runs obs' (embed h p) tr r -> exists tr', tr = map s tr' /\ runs obs p tr' r.
Proof.
  intros H. induction p as [a|X e k IH]; intros tr r; cbn.
  - intros [-> ->]. now exists [].
  - intros (x & t & -> & R). apply IH in R as (t' & -> & R). exists (obs X e x ++ t'). rewrite map_app, H. eauto.
Qed.
Lemma runs_on_page {A} (p : act A) tr r : runs did (embed (@OnPage) p) tr r -> exists tr', tr = map Sent tr' /\ runs sends p tr' r.
Proof. now apply runs_embed. Qed.
(** A part of a tool that sends nothing, with what is known when it succeeds. *)
Definition quiet {A} (p : tool A) (Q : list step_seen -> A -> Prop) : Prop :=
  post did p (fun tr r => commands tr = [] /\ match r with Ok a => Q tr a | Err _ => True end).
Definition acting (params : json) (t : list step_seen) (p : tool json) : Prop := post did p (fun tr => acted params (t ++ tr)).
Lemma acting_quiet {A} params t (p : tool A) (f : A -> tool json) Q : quiet p Q -> commands t = [] ->
  (forall t' a, commands (t ++ t') = [] -> Q t' a -> acting params (t ++ t') (f a)) -> acting params t (bind_ok p f).
Proof.
  intros Hp Ht Hf. eapply post_bind; [exact Hp|]. intros t' [a|e] [C H].
  - eapply post_conseq; [apply (Hf t' a); [now rewrite commands_app, Ht|done]|]. intros tr r. now rewrite (assoc_L (++)).
  - apply post_ret. left. now rewrite app_nil_r, commands_app, Ht, C.
Qed.
Lemma acting_done {A} a params t (g : string -> RouterError) (p : act A) (f : A -> json) :
  scripted p (script a) -> commands t = [] -> Forall (named params t) (targets a) ->
  acting params t (bind_ok (on_page g p) (fun x => ok (f x))).
Proof.
  intros Hs Ht Hn tr r R. apply runs_bind in R as (t1 & t2 & x & -> & R1 & R2).
  apply runs_bind in R1 as (t3 & t4 & y & -> & R3 & [-> ->]). apply runs_on_page in R3 as (tr' & -> & R3).
  apply Hs in R3. right. exists a. split; [|eapply Forall_impl; [exact Hn|intros e; apply named_app]].
  rewrite app_nil_r, !commands_app, Ht, commands_sent. destruct y; destruct R2 as [-> ->]; cbn in *; now rewrite app_nil_r.
Qed.

Lemma quiet_lift {A} (x : result A RouterError) : quiet (lift x) (fun _ a => x = Ok a).
Proof. apply post_ret. split; [done|]. now destruct x. Qed.
Lemma quiet_ask {X A} (e : tev X) (k : X -> tool A) Q : (forall x, commands (did X e x) = []) ->
  (forall x, quiet (k x) (fun tr => Q (did X e x ++ tr))) -> quiet (bind (want e) k) Q.
Proof.
  intros He Hk. apply post_vis. intros x. eapply post_conseq; [apply Hk|]. intros tr r [C H]. split; [|exact H].
  now rewrite commands_app, He.
Qed.
Lemma quiet_bind {A B} (p : tool A) (f : A -> tool B) P Q : quiet p P ->
  (forall t a, P t a -> quiet (f a) (fun tr => Q (t ++ tr))) -> quiet (bind_ok p f) Q.
Proof.
  intros Hp Hf. eapply post_bind; [exact Hp|]. intros t [a|e] [C H].
  - eapply post_conseq; [apply Hf, H|]. intros tr r [C' H']. split; [now rewrite commands_app, C|exact H'].
  - apply post_ret. split; [now rewrite app_nil_r|done].
Qed.
Lemma quiet_weaken {A} (p : tool A) (P Q : list step_seen -> A -> Prop) : quiet p P -> (forall t a, P t a -> Q t a) -> quiet p Q.
Proof. intros H HPQ. eapply post_conseq; [exact H|]. intros tr [a|e] [C H']; eauto. Qed.
Lemma quiet_locate params : quiet (locate_page params) (fun _ _ => True).
Proof.
  eapply quiet_bind; [apply quiet_lift|]. intros t id _. apply quiet_ask; [done|]. intros [|]; now apply post_ret.
Qed.
Lemma quiet_validate params : quiet (validate_snapshot_seq params) (fun _ _ => True).
Proof.
  unfold validate_snapshot_seq. destruct (vget _ _) as [raw|]; [|now apply post_ret]. destruct (as_u64 raw); [|now apply post_ret].
  apply quiet_ask; [done|]. intros cur. destruct (_ <? _); now apply post_ret.
Qed.
Lemma quiet_snapshot what params : quiet (pre_snapshot what params) (fun tr s => Saw s ∈ tr).
Proof.
  eapply quiet_bind; [apply quiet_validate|]. intros t _ _. apply quiet_ask; [now intros []|].
  intros [s|e]; apply post_ret; cbn; [|done]. split; [done|]. rewrite elem_of_app, list_elem_of_singleton. auto.
Qed.

Lemma resolve_in l r e : resolve_ref_str dbg l r = Ok e -> e ∈ l /\ element_ref e = r.
Proof.
  unfold resolve_ref_str. destruct (List.find _ _) as [x|] eqn:F; [|discriminate]. intros [= ->].
  apply List.find_some in F as [F1 F2%bool_decide_eq_true]. now apply list_elem_of_In in F1.
Qed.
Lemma refs_in k x params : In k ["ref"; "from_ref"; "to_ref"; "target_ref"] -> vget_str k params = Some x -> x ∈ refs params.
Proof. intros H E. apply list_elem_of_omap. exists k. split; [now apply list_elem_of_In|done]. Qed.
Lemma named_str k x params t s e : Saw s ∈ t -> In k ["ref"; "from_ref"; "to_ref"; "target_ref"] -> vget_str k params = Some x ->
  resolve_ref_str dbg (sn_elements s) x = Ok e -> named params t e.
Proof. intros H K E [R1 R2]%resolve_in. exists s. split; [done|]. split; [done|]. rewrite R2. eapply refs_in; eassumption. Qed.
Lemma named_ref params t s e : Saw s ∈ t -> resolve_ref dbg (sn_elements s) params = Ok e -> named params t e.
Proof.
  intros H. unfold resolve_ref. destruct (vget_str "ref" params) as [x|] eqn:E; [|discriminate]. intros R.
  eapply (named_str "ref"); [exact H|now left|exact E|exact R].
Qed.
Lemma quiet_optional what params :
  quiet (optional_ref what params) (fun tr o => Forall (named params tr) (option_list o)).
Proof.
  unfold optional_ref. destruct (vget "ref" params); [|apply post_ret; done].
  eapply quiet_bind; [apply quiet_snapshot|]. intros t s Hs. eapply quiet_bind; [apply quiet_lift|]. intros t' e He.
  apply post_ret. split; [done|]. cbn. apply List.Forall_cons; [|done]. rewrite app_nil_r. apply named_app.
  exact (named_ref _ _ _ _ Hs He).
Qed.

(** The steps a tool takes before it acts. *)
Lemma acting_lift {A} params t (x : result A RouterError) f : commands t = [] ->
  (forall a, x = Ok a -> acting params t (f a)) -> acting params t (bind_ok (lift x) f).
Proof. intros Ht H. destruct x as [a|e]; [now apply H|]. apply post_ret. left. now rewrite app_nil_r. Qed.
Lemma acting_locate params p : (forall t, commands t = [] -> acting params t p) -> acting params [] (locate_page params ;;! p).
Proof. intros H. eapply acting_quiet; [apply quiet_locate|done|]. intros t _ C _. now apply H. Qed.
Lemma acting_snapshot what params t f : commands t = [] ->
  (forall t' s, commands t' = [] -> Saw s ∈ t' -> acting params t' (f s)) -> acting params t (bind_ok (pre_snapshot what params) f).
Proof.
  intros Ht H. eapply acting_quiet; [apply quiet_snapshot|done|]. intros t' s C E. apply H; [done|]. rewrite elem_of_app. now right.
Qed.
Lemma acting_optional what params t f : commands t = [] ->
  (forall t' o, commands t' = [] -> Forall (named params t') (option_list o) -> acting params t' (f o)) ->
  acting params t (bind_ok (optional_ref what params) f).
Proof.
  intros Ht H. eapply acting_quiet; [apply quiet_optional|done|]. intros t' o C E. apply H; [done|].
  eapply Forall_impl; [exact E|]. intros e. apply named_grow.
Qed.
Lemma quiet_paths l : quiet (existing_paths l) (fun _ _ => True).
Proof.
  induction l as [|v l IH]; [now apply post_ret|]. cbn [existing_paths]. eapply quiet_bind; [apply quiet_lift|]. intros t p _.
  apply quiet_ask; [done|]. intros [|]; [|now apply post_ret]. eapply quiet_bind; [exact IH|]. intros; now apply post_ret.
Qed.
Lemma acting_paths l params t f : commands t = [] -> (forall t' o, commands t' = [] -> acting params t' (f o)) ->
  acting params t (bind_ok (existing_paths l) f).
Proof. intros Ht H. eapply acting_quiet; [apply quiet_paths|done|]. intros t' o C _. now apply H. Qed.
(** [realistic], given or the browser's. *)
Lemma acting_realistic params t (o : option bool) f : (forall b, acting params t (f b)) ->
  acting params t (bind (match o with Some b => Ret b | None => want DefaultRealistic end) f).
Proof. intros H. destruct o as [b|]; [apply H|]. apply post_vis. intros b. apply H. Qed.

Lemma void_follows {A} (p : act A) l : scripted (void p) l -> scripted p l.
Proof.
  intros H tr r R. specialize (H tr (match r with Ok _ => Ok tt | Err e => Err e end)). destruct r; apply H; apply runs_bind;
    exists tr, []; eexists; (split; [now rewrite app_nil_r|]; split; [exact R|done]).
Qed.

Definition input_tools : list (json -> tool json) := [
  page_click; page_type; page_keypress; page_scroll; page_hover; page_drag; page_touch_tap; page_touch_swipe;
  page_touch_pinch; page_touch_rotate; page_gesture_pinch; page_gesture_rotate; page_gesture_longpress;
  page_drag_file_drop; page_keyboard_shortcut; page_keyboard_ime; page_dead_key; page_scroll_precise;
  page_tab_traversal; page_right_click_menu_navigate].

Ltac tool_step :=
  cbv zeta;
  lazymatch goal with
  | |- acting _ _ (bind_ok (lift _) _) => apply acting_lift; [assumption|intros ? ?]
  | |- acting _ _ (bind_ok (pre_snapshot _ _) _) => apply acting_snapshot; [assumption|intros ? ? ? ?]
  | |- acting _ _ (bind_ok (optional_ref _ _) _) => apply acting_optional; [assumption|intros ? ? ? ?]
  | |- acting _ _ (bind_ok (existing_paths _) _) => apply acting_paths; [assumption|intros ? ? ?]
  | |- acting _ _ (bind (match _ with Some _ => _ | None => _ end) _) => apply acting_realistic; intros ?
  end.
Lemma ok_some {A E} (o : option A) (e : E) a : match o with Some x => Ok x | None => Err e end = Ok a -> o = Some a.
Proof. destruct o; [now intros [= ->]|discriminate]. Qed.
(** The tool's action is [a], on elements found in the snapshot. *)
Tactic Notation "acts" uconstr(a) :=
  eapply (acting_done a);
  [first [eapply (actions_follow a)|eapply void_follows, (actions_follow a)]|assumption|
   cbn [targets option_list]; try assumption; repeat (first [apply List.Forall_nil|apply List.Forall_cons]); eauto using named_ref].

Lemma tools_act : Forall (fun f => forall params, acting params [] (f params)) input_tools.
Proof.
  unfold input_tools. for_all; intros params; apply acting_locate; intros t C; repeat tool_step; cbv zeta.
  - acts (Click _ _ _ _ _).
  - acts (TypeText _ _ _ _ _).
  - acts (KeypressWith _ _).
  - acts (Scroll _ _ _ _ _).
  - acts (Hover _).
  - acts (Drag _ _ _); 
      [eapply (named_str "from_ref")|eapply (named_str "to_ref")]; cbn; eauto using ok_some.
  - acts (Tap _ _ _ _).
  - acts (Swipe _ _ _ _).
  - acts (Pinch _ _ _ _ _ _).
  - acts (Rotate _ _ _ _ _ _).
  - acts (GesturePinch _ _ _ _ _ _).
  - acts (GestureRotate _ _ _ _ _ _).
  - acts (Longpress _ _ _).
  - acts (FileDrop _ _ _).
  - acts (Shortcut _).
  - acts (Ime _ _).
  - acts (DeadKey _ _).
  - acts (Scroll _ _ _ _ _).
  - acts (Tabs _ _).
  - acts (Menu _ _).
Qed.


(** ** Stale refs *)

(** The tools that resolve a ref. *)
Definition ref_tools : list (json -> tool json) :=
  [page_click; page_type; page_hover; page_drag; page_drag_file_drop; page_right_click_menu_navigate].
Definition fresh_or_refused (v : json) (tr : list step_seen) (r : result json RouterError) : Prop :=
  (exists n current, as_u64 v = Some n /\ Seq current ∈ tr /\ current <= n) \/
  (commands tr = [] /\ (forall s, Saw s ∉ tr) /\
   exists e, r = Err e /\ (re_code e = InvalidParams \/ re_code e = TabNotFound \/
     re_code e = ElementStale /\ exists n current, as_u64 v = Some n /\ Seq current ∈ tr /\ n < current)).

Lemma refused_at v e : (re_code e = InvalidParams \/ re_code e = TabNotFound) -> fresh_or_refused v [] (Err e).
Proof. intros H. right. split; [done|]. split; [intros s; apply not_elem_of_nil|]. exists e. split; [done|]. destruct H; auto. Qed.
Lemma stale_guard what params v (f : Snap -> tool json) : vget "snapshot_seq" params = Some v ->
  post did (bind_ok (pre_snapshot what params) f) (fresh_or_refused v).
Proof.
  intros E. unfold pre_snapshot, validate_snapshot_seq. rewrite E. destruct (as_u64 v) as [n|] eqn:N.
  - apply post_vis. intros cur. cbn [did]. destruct (n <? cur) eqn:L; cbn.
    + apply post_ret. right. apply Z.ltb_lt in L. split; [done|]. split.
      * intros s [=]%list_elem_of_singleton.
      * eexists. split; [done|]. right. right. split; [done|]. exists n, cur. split; [done|]. split; [now apply list_elem_of_singleton|done].
    + apply Z.ltb_ge in L. intros tr r _. left. exists n, cur. split; [done|]. split; [left|done].
  - apply post_ret. apply refused_at. now left.
Qed.
Lemma located_guard what params v (f : Snap -> tool json) : vget "snapshot_seq" params = Some v ->
  post did (locate_page params ;;! bind_ok (pre_snapshot what params) f) (fresh_or_refused v).
Proof.
  intros E. unfold locate_page, required_str. destruct (vget_str "tab_id" params); cbn; [|apply post_ret, refused_at; now left].
  apply post_vis. intros [|]; cbn [did]; [|apply post_ret, refused_at; now right]. cbn [bind bind_ok lift ok app]. now apply stale_guard.
Qed.


(** ** Results of scripts *)

(** The members of a RemoteObject, the type of the result of Runtime.evaluate. *)
Definition remote_fields : list string :=
  ["type"; "subtype"; "className"; "value"; "unserializableValue"; "description"; "deepSerializedValue"; "objectId";
   "preview"; "customPreview"].
Definition remote_object (v : json) : Prop :=
  exists kvs, v = JObj kvs /\ Forall (fun kv => fst kv ∈ remote_fields) kvs.
Definition evaluates (X : Type) (e : ev X) : X -> list (result (json * option json) string) :=
  match e in ev X return X -> _ with Evaluate _ => fun r => [r] | _ => fun _ => [] end.
Definition evaluated (X : Type) (e : tev X) : X -> list (result (json * option json) string) :=
  match e in tev X return X -> _ with
  | @OnPage Y e => evaluates Y e
  | _ => fun _ => []
  end.
Definition conforms (a : result (json * option json) string) : Prop :=
  match a with Ok (v, _) => remote_object v | Err _ => True end.

Lemma remote_lacks k v : remote_object v -> k ∉ remote_fields -> vget k v = None.
Proof.
  intros (kvs & -> & H) N. cbn. induction H as [|[k' x] kvs Hx _ IH]; [done|]. cbn.
  rewrite bool_decide_eq_false_2; [exact IH|]. now intros ->.
Qed.
Lemma runs_eval expr tr r : runs evaluated (embed (@OnPage) (eval expr true)) tr r -> exists a, tr = [a] /\ r = eval_outcome a.
Proof. cbn. intros (a & tr' & -> & -> & ->). now exists a. Qed.

(** A program that does not succeed on such answers. *)
Definition fails {E A Er} (obs : forall X, E X -> X -> list (result (json * option json) string)) (p : prog E (result A Er)) : Prop :=
  post obs p (fun tr r => Forall conforms tr -> is_ok r = false).
Lemma fails_after {E A B Er} obs (p : prog E (result A Er)) (f : A -> prog E (result B Er)) :
  (forall a, fails obs (f a)) -> fails obs (bind_ok p f).
Proof.
  intros H tr r R C. apply runs_bind in R as (t1 & t2 & [a|e] & -> & _ & R); [|now destruct R as [-> ->]].
  apply Forall_app in C as [_ C]. exact (H a _ _ R C).
Qed.
Lemma fails_first {E A B Er} obs (p : prog E (result A Er)) (f : A -> prog E (result B Er)) : fails obs p -> fails obs (bind_ok p f).
Proof.
  intros H tr r R C. apply runs_bind in R as (t1 & t2 & a & -> & R & R'). apply Forall_app in C as [C _].
  pose proof (H _ _ R C). destruct a; [done|now destruct R' as [-> ->]].
Qed.
Lemma menu_fails params : fails evaluated (page_right_click_menu_navigate params).
Proof.
  unfold page_right_click_menu_navigate. do 4 (apply fails_after; intros ?). apply fails_first.
  intros tr r R C. apply runs_bind in R as (t1 & t2 & x & -> & R & [-> ->]). rewrite app_nil_r in C.
  apply (runs_embed evaluates evaluated id) in R as (tr' & -> & R); [|intros; now rewrite map_id]. rewrite map_id in C.
  enough (fails evaluates (right_click_menu_navigate a1 a2)) as F by (specialize (F _ _ R C); now destruct x).
  unfold right_click_menu_navigate. apply fails_after. intros _. destruct (center a1) as [cx cy]. do 5 (apply fails_after; intros ?).
  clear. intros tr r R C. apply runs_bind in R as (t1 & t2 & y & -> & (x & t & -> & -> & ->) & R).
  apply Forall_app in C as [C _]. apply Forall_cons_1 in C as [C _].
  destruct x as [[v [exc|]]|e]; cbn in R; [now destruct R as [-> ->]| |now destruct R as [-> ->]].
  pose proof (remote_lacks "ok" v C) as L. destruct C as (kvs & -> & _). cbn in L, R. rewrite L in R by set_solver.
  now destruct R as [-> ->].
Qed.

(** Nothing is learnt from a script's result: the answer to Runtime.evaluate is a
    RemoteObject, and the code reads it as if it were the value.  The tools that
    expect JSON text return the RemoteObject unparsed, so an error the script has
    caught and reported is never turned into an error of the tool; and a
    context-menu navigation never succeeds, also when its script has clicked the
    item. *)
Theorem script_results_unread expression context data params tr r : Forall conforms tr ->
  (runs evaluated (run_json_eval expression context data) tr r ->
     exists a, tr = [a] /\ r = match eval_outcome a with
                              | Ok v => Ok v
                              | Err m => Err (protocol_error (context +:+ ": " +:+ m) data)
                              end) /\
  (runs evaluated (page_right_click_menu_navigate params) tr r -> is_ok r = false).
Proof.
  intros H. split.
  - intros R. apply runs_bind in R as (t1 & t2 & y & -> & R1 & R2).
    apply runs_bind in R1 as (t3 & t4 & z & -> & R3 & [-> ->]). apply runs_eval in R3 as (a & -> & ->).
    exists a. apply Forall_app in H as [H _]. rewrite app_nil_r in H. apply Forall_cons_1 in H as [H _]. rewrite app_nil_r.
    destruct a as [[v [exc|]]|e]; cbn in R2; [now destruct R2 as [-> ->]| |now destruct R2 as [-> ->]].
    pose proof (remote_lacks "error" v H) as L. destruct H as (kvs & -> & _). cbn in L, R2. rewrite L in R2 by set_solver.
    now destruct R2 as [-> ->].
  - intros R. revert H. exact (menu_fails params tr r R).
Qed.

End Spec.
End PageSpec.

Module PageSpecExamples.
Import ActionsExamples PageSpec.

#[export] Instance toy_serde : PageSerde := {
  json_text _ := "1"; parse_json _ := Ok JNull; de_cookie _ := None; de_deep_cookie _ := Err "missing field"
}.
(** A page with one element, at sequence number [seq], and a session with [caps]. *)
Definition answers (caps : option (list string)) (seq : Z) (remote : json) (X : Type) (e : tev X) : X :=
  match e in tev X return X with
  | OnPage e => match e in ev X return X with
                | Evaluate _ => Ok (remote, None)
                | Send _ => Ok tt | CaptureScreenshot _ => Ok "" | Sleep _ => tt | TraceSink => false | SavePng _ _ => Ok ""
                | RecordScreenshot _ _ => tt | NavSubscribe => tt | NavRecv _ => None
                end
  | GetTab _ => true
  | SnapshotSeq => seq
  | TakeSnapshot => Ok (mkSnap (seq + 1) "https://example.org/" [box 0])
  | SnapshotValue _ => Ok JNull
  | DefaultRealistic => false
  | PathExists _ => true
  | SessionCapabilities => caps
  | PageUrl => "https://example.org/"
  | CdpCall _ _ => Ok JNull
  | RootSend _ _ => Ok JNull
  | EvaluateWithin _ _ => None
  end.
Notation called obs caps seq remote p := (exec obs (fun _ => answers caps seq remote) [] p).
Definition click_args (minted : Z) : json := JObj [("tab_id", JStr "t1"); ("ref", JStr "e0"); ("snapshot_seq", JNum minted)].
(** What a script that has caught an error answers. *)
Definition failed_script : json :=
  JObj [("type", JStr "string"); ("value", JStr ("{" +:+ quoted "error" +:+ ":" +:+ quoted "SecurityError" +:+ "}"))].

Notation get_args := (JObj [("tab_id", JStr "t1"); ("key", JStr "k")]).
Lemma gated_tools_denied_witness : exists tr r,
  runs asked (page_localstorage_get get_args) tr r /\ tr = [Caps (Some ["eval"])] /\ gate "storage_state" tr r.
Proof.
  pose proof (exec_runs asked (fun _ => answers (Some ["eval"]) 4 JNull) (page_localstorage_get get_args) []) as R.
  eexists _, _. split; [exact R|]. split; [vm_compute; reflexivity|].
  refine (gated_tools_denied "page.localstorage.get" "storage_state" page_localstorage_get _ _ _ _ _ R); vm_compute; reflexivity.
Defined.



Lemma script_results_unread_witness : exists a : result (json * option json) string, a = Ok (failed_script, None) /\
  snd (called evaluated (Some ["storage_state"]) 4 failed_script (run_json_eval "s" "page.localstorage.get" JNull)) = Ok failed_script.
Proof.
  pose proof (exec_runs evaluated (fun _ => answers (Some ["storage_state"]) 4 failed_script)
    (run_json_eval "s" "page.localstorage.get" JNull) []) as R.
  assert (Forall conforms (fst (called evaluated (Some ["storage_state"]) 4 failed_script
    (run_json_eval "s" "page.localstorage.get" JNull)))) as C.
  { apply List.Forall_cons; [|apply List.Forall_nil]. eexists. split; [reflexivity|].
    apply List.Forall_cons; [|apply List.Forall_cons; [|apply List.Forall_nil]]; apply (bool_decide_unpack _); vm_compute; exact I. }
  destruct (proj1 (script_results_unread _ _ _ JNull _ _ C) R) as (a & T & E).
  assert (a = Ok (failed_script, None)) as -> by (apply (f_equal (fun l => hd a l)) in T; cbn in T; symmetry; exact T).
  eexists. split; [reflexivity|exact E].
Defined.

(** The page reports an error and the tool succeeds with the raw object. *)
Example storage_error_is_success :
  snd (called evaluated (Some ["storage_state"]) 4 failed_script (page_localstorage_get get_args)) = Ok failed_script.
Proof. vm_compute. reflexivity. Qed.
(** An optional argument that is null is refused. *)
Example null_pressure_refused : is_ok (ranged_f64 (JObj [("pressure", JNull)]) "pressure" 0 1) = false.
Proof. reflexivity. Qed.
(** Without a ref in the arguments, null is not absent. *)
Example null_ref_refused : is_ok (snd (called did None 4 JNull (page_scroll (JObj [("tab_id", JStr "t1"); ("ref", JNull)])))) = false.
Proof. vm_compute. reflexivity. Qed.
(** A cookie that cannot be read is skipped, and the call succeeds. *)
Example unread_cookie_skipped :
  snd (called did None 4 JNull (page_cookies (JObj [("tab_id", JStr "t1"); ("action", JStr "set");
    ("cookies", JArr [JObj [("name", JStr "a"); ("value", JStr "b")]])])))
  = Ok (JObj [("ok", JBool true); ("set_count", JNum 0)]).
Proof. vm_compute. reflexivity. Qed.

End PageSpecExamples.
