(* ===== verification/Schema.v ===== *)
(** * Schema: the argument types of the tools

    Models [mcp-server/src/schema.rs].  A type of the schema is a value of the
    universe [ty]; [fits] says which JSON values serde's derived deserializers
    take for it. *)
From S2P Require Import Prelude Json F64.
Import JsonTree.

Module Schema.

(** The types that occur.  A field is marked when it has a default. *)
Inductive ty : Type :=
| TString | TBool | TF64 | TValue
| TUint (bits : Z) | TInt (bits : Z)
| TOption (t : ty) | TVec (t : ty) | TMap (t : ty)
| TStruct (fields : list (string * (bool * ty)))
| TEnum (names : list string)                (* unit variants, by their serialized names *)
| TUntagged (variants : list ty).
Definition req (name : string) (t : ty) : string * (bool * ty) := (name, (false, t)).
Definition opt (name : string) (t : ty) : string * (bool * ty) := (name, (true, TOption t)).

Definition is_option (t : ty) : bool := match t with TOption _ => true | _ => false end.
(** A value of the type.  Fields that the struct does not have are ignored. *)
Fixpoint fits (t : ty) (v : json) {struct t} : bool :=
  match t with
  | TString => match v with JStr _ => true | _ => false end
  | TBool => match v with JBool _ => true | _ => false end
  | TF64 => match v with JNum _ | JFloat _ => true | _ => false end
  | TValue => true
  | TUint bits => match v with JNum z => (0 <=? z) && (z <? 2 ^ bits) | _ => false end
  | TInt bits => match v with JNum z => (- 2 ^ (bits - 1) <=? z) && (z <? 2 ^ (bits - 1)) | _ => false end
  | TOption t => match v with JNull => true | _ => fits t v end
  | TVec t => match v with JArr l => forallb (fits t) l | _ => false end
  | TMap t => match v with JObj kvs => forallb (fun kv => fits t (snd kv)) kvs | _ => false end
  | TStruct fields =>
      match v with
      | JObj kvs =>
          (fix go fields := match fields with
           | [] => true
           | (k, (d, t)) :: fields =>
               match assoc k kvs with Some x => fits t x | None => d || is_option t end && go fields
           end) fields
      | _ => false
      end
  | TEnum names => match v with JStr s => bool_decide (s ∈ names) | _ => false end
  | TUntagged variants => (fix go l := match l with [] => false | t :: l => fits t v || go l end) variants
  end.

(** ** [browser.context.*], [tab.*] *)

Definition BrowserContextCreate : ty := TStruct [opt "label" TString; opt "persist" TBool; opt "stealth" TBool;
  opt "trace" TBool; opt "vision" TString; opt "fps" (TUint 32); opt "idle_fps" (TUint 32)].
Definition BrowserContextList : ty := TStruct [].
Definition BrowserContextDestroy : ty := TStruct [req "context_id" TString].
Definition WaitUntil : ty := TEnum ["load"; "domcontentloaded"; "networkidle"].
Definition TabOpen : ty := TStruct [req "url" TString; opt "wait_until" WaitUntil; opt "timeout_ms" (TUint 64)].
Definition TabList : ty := TStruct [].
Definition TabClose : ty := TStruct [req "tab_id" TString].
Definition TabFocus : ty := TStruct [req "tab_id" TString].
Definition TabNavigate : ty := TStruct [req "tab_id" TString; req "url" TString; opt "wait_until" WaitUntil;
  opt "timeout_ms" (TUint 64)].
Definition TabWaitPredicate : ty := TUntagged [TString; TValue].
Definition TabWait : ty := TStruct [req "tab_id" TString; req "predicate" TabWaitPredicate; opt "timeout_ms" (TUint 64)].

(** ** [page.*]: snapshots and input *)

Definition PageSnapshot : ty := TStruct [req "tab_id" TString; opt "since_seq" (TUint 64)].
Definition ImageFormat : ty := TEnum ["png"; "jpeg"].
Definition PageScreenshot : ty := TStruct [req "tab_id" TString; opt "format" ImageFormat; opt "quality" (TUint 8);
  opt "capture_beyond_viewport" TBool; opt "ref" TString].
Definition PageReadText : ty := TStruct [req "tab_id" TString; opt "ref" TString].
Definition MouseButton : ty := TEnum ["left"; "right"; "middle"].
Definition PageClick : ty := TStruct [req "tab_id" TString; req "ref" TString; opt "button" MouseButton;
  opt "click_count" (TUint 8); opt "realistic" TBool].
Definition PageType : ty := TStruct [req "tab_id" TString; req "ref" TString; req "text" TString;
  opt "delay_ms" (TUint 32); opt "clear_first" TBool].
Definition PageDirection : ty := TEnum ["forward"; "backward"].
Definition PageScrollEasing : ty := TEnum ["linear"; "ease_out"; "ease_in_out"].
Definition PageTouchTap : ty := TStruct [req "tab_id" TString; req "x" TF64; req "y" TF64; opt "duration_ms" (TUint 64);
  opt "tap_count" (TUint 32)].
Definition PageTouchSwipe : ty := TStruct [req "tab_id" TString; req "start_x" TF64; req "start_y" TF64; req "end_x" TF64;
  req "end_y" TF64; opt "steps" (TUint 32); opt "duration_ms" (TUint 64)].
Definition PageTouchPinch : ty := TStruct [req "tab_id" TString; req "center_x" TF64; req "center_y" TF64;
  req "start_radius" TF64; req "end_radius" TF64; opt "steps" (TUint 32); opt "duration_ms" (TUint 64)].
Definition PageTouchRotate : ty := TStruct [req "tab_id" TString; req "center_x" TF64; req "center_y" TF64;
  req "radius" TF64; req "angle_deg" TF64; opt "steps" (TUint 32); opt "duration_ms" (TUint 64)].
Definition PagePointerPress : ty := TStruct [req "tab_id" TString; req "x" TF64; req "y" TF64; opt "button" MouseButton;
  opt "click_count" (TUint 32); opt "pressure" TF64; opt "tangential_pressure" TF64; opt "tilt_x" TF64; opt "tilt_y" TF64;
  opt "twist" (TInt 64)].
Definition PagePointerMove : ty := TStruct [req "tab_id" TString; req "x" TF64; req "y" TF64; opt "buttons" (TInt 64);
  opt "pressure" TF64; opt "tangential_pressure" TF64; opt "tilt_x" TF64; opt "tilt_y" TF64; opt "twist" (TInt 64)].
Definition PagePointerRelease : ty := TStruct [req "tab_id" TString; req "x" TF64; req "y" TF64; opt "button" MouseButton;
  opt "click_count" (TUint 32); opt "pressure" TF64; opt "tangential_pressure" TF64; opt "tilt_x" TF64; opt "tilt_y" TF64;
  opt "twist" (TInt 64)].
Definition PageGesturePinch : ty := TStruct [req "tab_id" TString; req "center_x" TF64; req "center_y" TF64;
  req "start_radius" TF64; req "scale_factor" TF64; opt "steps" (TUint 32); opt "duration_ms" (TUint 64)].
Definition PageGestureRotate : ty := TStruct [req "tab_id" TString; req "center_x" TF64; req "center_y" TF64;
  req "radius" TF64; req "angle_deg" TF64; opt "steps" (TUint 32); opt "duration_ms" (TUint 64)].
Definition PageGestureLongpress : ty := TStruct [req "tab_id" TString; req "x" TF64; req "y" TF64;
  opt "duration_ms" (TUint 64)].
Definition PageDragFileDrop : ty := TStruct [req "tab_id" TString; req "target_ref" TString; req "file_paths" (TVec TString)].
Definition PageKeyboardShortcut : ty := TStruct [req "tab_id" TString; req "accel" TString].
Definition PageKeyboardIme : ty := TStruct [req "tab_id" TString; req "composition_string" TString; opt "commit" TString].
Definition PageDeadKey : ty := TStruct [req "tab_id" TString; req "accent" TString; req "base" TString].
Definition PageScrollPrecise : ty := TStruct [req "tab_id" TString; opt "ref" TString; req "dx" TF64; req "dy" TF64;
  opt "momentum" TBool; opt "easing" PageScrollEasing].
Definition PageTabTraversal : ty := TStruct [req "tab_id" TString; req "direction" PageDirection; opt "count" (TUint 32)].
Definition PageRightClickMenuNavigate : ty := TStruct [req "tab_id" TString; req "ref" TString;
  req "item_path" (TVec TString)].
Definition PageKeypress : ty := TStruct [req "tab_id" TString; req "key" TString; opt "modifiers" (TVec TString)].
Definition PageScroll : ty := TStruct [req "tab_id" TString; opt "ref" TString; req "dx" TF64; req "dy" TF64].
Definition PageHover : ty := TStruct [req "tab_id" TString; req "ref" TString].
Definition PageDrag : ty := TStruct [req "tab_id" TString; req "from_ref" TString; req "to_ref" TString].
Definition PageEval : ty := TStruct [req "tab_id" TString; req "expression" TString; opt "ref" TString;
  opt "return_by_value" TBool].

(** ** [page.*]: storage and emulation *)

Definition CookieAction : ty := TEnum ["get"; "set"; "clear"].
Definition PageCookies : ty := TStruct [req "tab_id" TString; req "action" CookieAction; opt "cookies" TValue;
  opt "domain" TString; opt "name" TString].
Definition StorageKind : ty := TEnum ["local"; "session"; "indexeddb"].
Definition PageStorage : ty := TStruct [req "tab_id" TString; req "kind" StorageKind; req "action" TString;
  opt "args" TValue].
Definition PageStorageGet : ty := TStruct [req "tab_id" TString; opt "key" TString].
Definition PageStorageSet : ty := TStruct [req "tab_id" TString; req "key" TString; req "value" TString].
Definition PageStorageDelete : ty := TStruct [req "tab_id" TString; req "key" TString].
Definition PageStorageClear : ty := TStruct [req "tab_id" TString].
Definition PageStorageCas : ty := TStruct [req "tab_id" TString; req "key" TString; opt "expected" TString;
  req "value" TString].
Definition CookiePartitionKey : ty := TStruct [req "top_level_site" TString; req "has_cross_site_ancestor" TBool].
Definition PageCookieDeepSetCookie : ty := TStruct [req "name" TString; req "value" TString; opt "url" TString;
  opt "domain" TString; opt "path" TString; opt "secure" TBool; opt "http_only" TBool; opt "same_site" TString;
  opt "expires" TF64; opt "priority" TString; opt "source_scheme" TString; opt "source_port" (TInt 64);
  opt "partition_key" CookiePartitionKey].
Definition PageCookiesDeepSet : ty := TStruct [req "tab_id" TString; req "cookie" PageCookieDeepSetCookie].
Definition PageStorageQuota : ty := TStruct [req "tab_id" TString].
Definition PagePermissionsQuery : ty := TStruct [req "tab_id" TString; req "permission" TValue; opt "origin" TString;
  opt "embedded_origin" TString].
Definition PagePermissionsGrant : ty := TStruct [req "tab_id" TString; req "permission" TValue; opt "origin" TString;
  opt "embedded_origin" TString].
Definition PagePermissionsRevoke : ty := TStruct [req "tab_id" TString; opt "permission" TValue; opt "origin" TString;
  opt "embedded_origin" TString].
Definition PageIndexeddbListDatabases : ty := TStruct [req "tab_id" TString].
Definition PageIndexeddbListStores : ty := TStruct [req "tab_id" TString; req "database_name" TString].
Definition PageIndexeddbQuery : ty := TStruct [req "tab_id" TString; req "database_name" TString;
  req "object_store_name" TString; opt "index_name" TString; opt "skip_count" (TUint 32); opt "page_size" (TUint 32);
  opt "key_range" TValue].
Definition PageIndexeddbPut : ty := TStruct [req "tab_id" TString; req "database_name" TString;
  req "object_store_name" TString; req "key" TValue; req "value" TValue; opt "database_version" (TUint 64)].
Definition PageIndexeddbDelete : ty := TStruct [req "tab_id" TString; req "database_name" TString;
  req "object_store_name" TString; req "key_range" TValue].
Definition PageIndexeddbDeleteDatabase : ty := TStruct [req "tab_id" TString; req "database_name" TString].
Definition PageCacheApiList : ty := TStruct [req "tab_id" TString; opt "filter" TString].
Definition PageCacheApiInspect : ty := TStruct [req "tab_id" TString; req "cache_id" TString; opt "request_url" TString;
  opt "request_headers" TValue; opt "skip_count" (TUint 32); opt "page_size" (TUint 32); opt "path_filter" TString].
Definition PageCacheApiDelete : ty := TStruct [req "tab_id" TString; req "cache_id" TString; opt "request_url" TString].
Definition PageViewport : ty := TStruct [req "tab_id" TString; req "width" (TUint 32); req "height" (TUint 32);
  opt "device_scale_factor" TF64; opt "mobile" TBool].
Definition PageUserAgent : ty := TStruct [req "tab_id" TString; opt "user_agent" TString; opt "accept_language" TString;
  opt "platform" TString].
Definition PageGeo : ty := TStruct [req "tab_id" TString; req "latitude" TF64; req "longitude" TF64; opt "accuracy" TF64].
Definition PageDarkMode : ty := TStruct [req "tab_id" TString; req "enabled" TBool].
Definition PageNetworkConditions : ty := TStruct [req "tab_id" TString; opt "offline" TBool; opt "latency_ms" (TUint 32);
  opt "download_bps" (TUint 64); opt "upload_bps" (TUint 64)].
Definition PageEmulate : ty := TStruct [req "tab_id" TString; opt "locale" TString; opt "timezone" TString;
  opt "cpu_throttle" TF64].
Definition PagePerformanceTimelineStart : ty := TStruct [req "tab_id" TString; opt "categories" TString].
Definition PagePerformanceTimelineStop : ty := TStruct [req "tab_id" TString].
Definition PagePerformanceMetrics : ty := TStruct [req "tab_id" TString].
Definition PageCoverageJsStart : ty := TStruct [req "tab_id" TString; opt "call_count" TBool; opt "detailed" TBool].
Definition PageCoverageJsTake : ty := TStruct [req "tab_id" TString].
Definition PageCoverageCssStart : ty := TStruct [req "tab_id" TString].
Definition PageCoverageCssTake : ty := TStruct [req "tab_id" TString].
Definition PageHeapSnapshot : ty := TStruct [req "tab_id" TString].
Definition PageHeapSampleAlloc : ty := TStruct [req "tab_id" TString; req "duration_ms" (TUint 64);
  opt "sampling_interval_bytes" (TUint 64)].
Definition PageCpuProfile : ty := TStruct [req "tab_id" TString; req "duration_ms" (TUint 64)].
Definition PageLayoutMetrics : ty := TStruct [req "tab_id" TString].
Definition PagePaintFlash : ty := TStruct [req "tab_id" TString; req "enable" TBool].
Definition PagePdf : ty := TStruct [req "tab_id" TString; opt "landscape" TBool; opt "display_header_footer" TBool;
  opt "print_background" TBool; opt "scale" TF64; opt "paper_width" TF64; opt "paper_height" TF64; opt "margin_top" TF64;
  opt "margin_bottom" TF64; opt "margin_left" TF64; opt "margin_right" TF64; opt "page_ranges" TString;
  opt "header_template" TString; opt "footer_template" TString; opt "prefer_css_page_size" TBool;
  opt "generate_tagged_pdf" TBool; opt "generate_document_outline" TBool; opt "force_stream" TBool].
Definition PagePrintPreview : ty := TStruct [req "tab_id" TString; opt "format" TString; opt "capture_beyond_viewport" TBool].

(** ** [net.*] *)

Definition InterceptAction : ty := TEnum ["continue"; "fulfill"; "fail"].
Definition NetIntercept : ty := TStruct [req "tab_id" TString; req "pattern" TString; req "action" InterceptAction;
  opt "overrides" TValue].
Definition NetMockResponse : ty := TStruct [req "status" (TUint 16); opt "headers" TValue; opt "body_base64" TString].
Definition NetMock : ty := TStruct [req "tab_id" TString; req "url_pattern" TString; req "response" NetMockResponse].
Definition NetObserve : ty := TStruct [req "tab_id" TString; opt "filter" TString].
Definition NetInterceptFulfillWithBody : ty := TStruct [req "tab_id" TString; req "pattern" TString;
  req "response" NetMockResponse].
Definition NetRequestOverrides : ty := TStruct [opt "url" TString; opt "method" TString; opt "headers" TValue;
  opt "post_data_base64" TString].
Definition NetInterceptModifyRequest : ty := TStruct [req "tab_id" TString; req "pattern" TString;
  req "overrides" NetRequestOverrides].
Definition NetInterceptFail : ty := TStruct [req "tab_id" TString; req "pattern" TString; req "error_reason" TString].
Definition NetReplay : ty := TStruct [req "tab_id" TString; req "request_id" TString].
Definition NetWebsocketObserve : ty := TStruct [req "tab_id" TString].
Definition NetWebsocketInjectFrame : ty := TStruct [req "tab_id" TString; req "url_substring" TString;
  req "payload_base64" TString].
Definition NetEventsourceObserve : ty := TStruct [req "tab_id" TString].
Definition NetHarExport : ty := TStruct [req "tab_id" TString; opt "since_ts" TF64].
Definition NetProxyAuth : ty := TStruct [req "user" TString; req "pass" TString].
Definition NetProxy : ty := TStruct [req "scheme" TString; req "host" TString; req "port" (TUint 16);
  opt "auth" NetProxyAuth; opt "bypass" TString].
Definition NetMitmCertInstall : ty := TStruct [req "ca_pem" TString].

(** ** [vision.*] *)

Definition Bbox : ty := TStruct [req "x" (TUint 32); req "y" (TUint 32); req "w" (TUint 32); req "h" (TUint 32)].
Definition VisionReadText : ty := TStruct [req "tab_id" TString; opt "region" Bbox].
Definition VisionFindText : ty := TStruct [req "tab_id" TString; req "query" TString; opt "is_regex" TBool;
  opt "region" Bbox].
Definition VisionCompare : ty := TStruct [req "tab_id" TString; req "ref_image_path" TString].
Definition VisionFps : ty := TStruct [req "tab_id" TString; req "fps" (TUint 32); opt "idle_fps" (TUint 32)].
Definition VisionStability : ty := TStruct [req "tab_id" TString].
Definition VisionChangedSince : ty := TStruct [req "tab_id" TString; req "since_us" (TUint 64)].
Definition VisionVerifyAction : ty := TStruct [req "tab_id" TString; req "action" TValue].
Definition VisionPixel : ty := TStruct [req "tab_id" TString; req "x" (TUint 32); req "y" (TUint 32)].
Definition VisionRegionClassify : ty := TStruct [req "tab_id" TString; req "region" Bbox].
Definition VisionColorPalette : ty := TStruct [req "tab_id" TString; opt "region" Bbox; req "k" (TUint 32)].
Definition VisionTextStyle : ty := TStruct [req "tab_id" TString; req "region" Bbox].
Definition VisionLayoutSegments : ty := TStruct [req "tab_id" TString].
Definition VisionIconRecognize : ty := TStruct [req "tab_id" TString; req "region" Bbox].
Definition VisionQrBarcode : ty := TStruct [req "tab_id" TString; opt "region" Bbox].
Definition VisionScrollbarPosition : ty := TStruct [req "tab_id" TString; opt "region" Bbox].
Definition VisionLoadingDetect : ty := TStruct [req "tab_id" TString].
Definition VisionTooltipDetect : ty := TStruct [req "tab_id" TString].
Definition VisionModalDetect : ty := TStruct [req "tab_id" TString].
Definition VisionFrameRef : ty := TStruct [req "seq" (TUint 64)].
Definition VisionDiffSemantic : ty := TStruct [req "tab_id" TString; req "prev" VisionFrameRef; req "next" VisionFrameRef;
  req "action_context" TValue].
Definition VisionAnimationFrames : ty := TStruct [req "tab_id" TString; req "duration_ms" (TUint 32)].
Definition VisionFaceBlur : ty := TStruct [req "tab_id" TString; opt "region" Bbox; req "output" TString].

(** ** [system.*] *)

Definition SystemAudioOutput : ty := TStruct [].
Definition SystemAudioInput : ty := TStruct [].
Definition SystemAudioDirection : ty := TEnum ["input"; "output"].
Definition SystemAudioSelect : ty := TStruct [req "direction" SystemAudioDirection; req "uid" TString].
Definition SystemAudioVolume : ty := TStruct [opt "level" (TUint 8)].
Definition SystemAudioMute : ty := TStruct [opt "value" TBool].
Definition SystemAudioCaptureToFile : ty := TStruct [req "path" TString; req "duration_ms" (TUint 64)].
Definition SystemMicCapture : ty := TStruct [req "path" TString; req "duration_ms" (TUint 64)].
Definition SystemCameraSnapshot : ty := TStruct [req "path" TString; opt "device_id" TString].
Definition SystemScreenCaptureRegion : ty := TStruct [req "path" TString; req "x" (TInt 64); req "y" (TInt 64);
  req "width" (TUint 64); req "height" (TUint 64); opt "display_id" (TUint 32)].
Definition SystemScreenListDisplays : ty := TStruct [].
Definition SystemBluetoothScan : ty := TStruct [opt "timeout_ms" (TUint 64)].
Definition SystemBluetoothConnect : ty := TStruct [req "address" TString].
Definition SystemBluetoothDisconnect : ty := TStruct [req "address" TString].
Definition SystemUsbDevices : ty := TStruct [].
Definition SystemBattery : ty := TStruct [].
Definition SystemNetworkInterfaces : ty := TStruct [].
Definition SystemNetworkRoutes : ty := TStruct [].
Definition SystemNetworkConnections : ty := TStruct [].
Definition SystemProcessList : ty := TStruct [].
Definition SystemProcessInfo : ty := TStruct [req "pid" (TInt 32)].
Definition SystemProcessSignal : ty := TStruct [req "pid" (TInt 32); req "signal" (TInt 32)].
Definition SystemFseventsWatch : ty := TStruct [req "paths" (TVec TString); opt "events" (TVec TString)].
Definition SystemSpotlightQuery : ty := TStruct [req "q" TString].
Definition SystemMetadata : ty := TStruct [req "path" TString].

(** ** [term.*], [app.*] *)

Definition TermSpawn : ty := TStruct [req "shell" TString; opt "cwd" TString; opt "env" (TMap TString);
  opt "cols" (TUint 16); opt "rows" (TUint 16)].
Definition TermWrite : ty := TStruct [req "session_id" TString; opt "text" TString; opt "data_base64" TString].
Definition TermRead : ty := TStruct [req "session_id" TString; opt "max_bytes" (TUint 64)].
Definition TermSnapshot : ty := TStruct [req "session_id" TString].
Definition TermResize : ty := TStruct [req "session_id" TString; req "cols" (TUint 16); req "rows" (TUint 16)].
Definition TermClose : ty := TStruct [req "session_id" TString].
Definition TermSendSignal : ty := TStruct [req "session_id" TString; req "signal" TString].
Definition TermScrollback : ty := TStruct [req "session_id" TString; req "n_lines" (TUint 64)].
Definition TermAltScreenActive : ty := TStruct [req "session_id" TString].
Definition TermMouseEventKind : ty := TEnum ["press"; "release"; "move"; "scroll_up"; "scroll_down"].
Definition TermMouseButton : ty := TEnum ["left"; "middle"; "right"; "none"].
Definition TermMouseEvent : ty := TStruct [req "session_id" TString; req "row" (TUint 16); req "col" (TUint 16);
  req "kind" TermMouseEventKind; opt "button" TermMouseButton; opt "shift" TBool; opt "alt" TBool; opt "ctrl" TBool].
Definition AppList : ty := TStruct [].
Definition AppSnapshot : ty := TStruct [req "app_id" TString].
Definition AppClick : ty := TStruct [req "app_id" TString; req "ref" TString].
Definition AppType : ty := TStruct [req "app_id" TString; req "ref" TString; req "text" TString; opt "clear_first" TBool].
Definition AppScroll : ty := TStruct [req "app_id" TString; opt "ref" TString; req "dx" TF64; req "dy" TF64].
Definition AppEval : ty := TStruct [req "app_id" TString; req "applescript" TString].

(** A struct has its fields. *)
Lemma fits_field fields kvs k d t : fits (TStruct fields) (JObj kvs) = true -> In (k, (d, t)) fields ->
  match assoc k kvs with Some x => fits t x = true | None => d || is_option t = true end.
Proof.
  cbn. induction fields as [|[k' [d' t']] fields IH]; [done|]. intros [H H']%andb_true_iff [[= -> -> ->]|I].
  - destruct (assoc k kvs); exact H.
  - now apply IH.
Qed.

End Schema.
