(* ===== verification/Tools.v ===== *)
(** * Tools: the tool table of the MCP server

    Models [mcp-server/src/tools.rs]: the published names, the descriptors, the
    validation of arguments against [Schema], the time a call may take, and
    [dispatch] over the broker client of [Wire].  serde_json's reader for the
    schema types is a parameter; the descriptions and the JSON Schema that
    schemars derives from a type are not modelled. *)
From S2P Require Import Prelude Json F64 Text AxMerge Input Actions BrokerSession Wire Router PageTools PageSpec Schema.
Import JsonTree Prog Wire Router Schema.

Module Tools.

(** ** The table *)

Definition TOOL_NAMES : list string := [
  "browser.context.create"; "browser.context.list"; "browser.context.destroy"; "tab.open"; "tab.list";
  "tab.close"; "tab.focus"; "tab.navigate"; "tab.wait"; "page.snapshot"; "page.screenshot"; "page.read_text";
  "page.click"; "page.type"; "page.keypress"; "page.scroll"; "page.hover"; "page.drag"; "page.touch.tap";
  "page.touch.swipe"; "page.touch.pinch"; "page.touch.rotate"; "page.pointer.press"; "page.pointer.move";
  "page.pointer.release"; "page.gesture.pinch"; "page.gesture.rotate"; "page.gesture.longpress";
  "page.drag.file_drop"; "page.keyboard.shortcut"; "page.keyboard.ime"; "page.dead_key";
  "page.scroll.precise"; "page.tab_traversal"; "page.right_click_menu_navigate"; "page.eval"; "page.cookies";
  "page.cookies.deep_set"; "page.storage"; "page.localstorage.get"; "page.localstorage.set";
  "page.localstorage.delete"; "page.localstorage.clear"; "page.localstorage.cas"; "page.sessionstorage.get";
  "page.sessionstorage.set"; "page.sessionstorage.delete"; "page.sessionstorage.clear";
  "page.sessionstorage.cas"; "page.indexeddb.list_databases"; "page.indexeddb.list_stores";
  "page.indexeddb.query"; "page.indexeddb.put"; "page.indexeddb.delete"; "page.indexeddb.delete_database";
  "page.cache_api.list"; "page.cache_api.inspect"; "page.cache_api.delete"; "page.permissions.query";
  "page.permissions.grant"; "page.permissions.revoke"; "page.storage.quota"; "page.viewport";
  "page.user_agent"; "page.geo"; "page.dark_mode"; "page.network_conditions"; "page.emulate";
  "page.performance_timeline_start"; "page.performance_timeline_stop"; "page.performance_metrics";
  "page.coverage_js_start"; "page.coverage_js_take"; "page.coverage_css_start"; "page.coverage_css_take";
  "page.heap_snapshot"; "page.heap_sample_alloc"; "page.cpu_profile"; "page.layout_metrics";
  "page.paint_flash"; "page.pdf"; "page.print_preview"; "net.intercept"; "net.mock"; "net.observe";
  "net.intercept.fulfill_with_body"; "net.intercept.modify_request"; "net.intercept.fail"; "net.replay";
  "net.websocket.observe"; "net.websocket.inject_frame"; "net.eventsource.observe"; "net.har.export";
  "net.proxy"; "net.mitm_cert.install"; "vision.read_text"; "vision.find_text"; "vision.compare";
  "vision.fps"; "vision.stability"; "vision.changed_since"; "vision.verify_action"; "vision.pixel";
  "vision.region.classify"; "vision.color.palette"; "vision.text.style"; "vision.layout.segments";
  "vision.icon.recognize"; "vision.qr_barcode"; "vision.scrollbar.position"; "vision.loading.detect";
  "vision.tooltip.detect"; "vision.modal.detect"; "vision.diff.semantic"; "vision.animation.frames";
  "vision.face_blur"; "term.spawn"; "term.write"; "term.read"; "term.snapshot"; "term.resize"; "term.close";
  "term.send_signal"; "term.scrollback"; "term.alt_screen_active"; "term.mouse_event"; "system.audio.output";
  "system.audio.input"; "system.audio.select"; "system.audio.volume"; "system.audio.mute";
  "system.audio.capture_to_file"; "system.mic.capture"; "system.camera.snapshot";
  "system.screen.capture_region"; "system.screen.list_displays"; "system.bluetooth.scan";
  "system.bluetooth.connect"; "system.bluetooth.disconnect"; "system.usb.devices"; "system.battery";
  "system.network.interfaces"; "system.network.routes"; "system.network.connections"; "system.process.list";
  "system.process.info"; "system.process.signal"; "system.fsevents.watch"; "system.spotlight.query";
  "system.metadata"; "app.list"; "app.snapshot"; "app.click"; "app.type"; "app.scroll"; "app.eval"].

(** A descriptor: the schema it publishes is the one derived from [d_input]. *)
Record ToolDescriptor := mkDesc { d_name : string; d_input : ty }.
Definition build_list : list ToolDescriptor := [mkDesc "browser.context.create" BrowserContextCreate;
  mkDesc "browser.context.list" BrowserContextList; mkDesc "browser.context.destroy" BrowserContextDestroy;
  mkDesc "tab.open" TabOpen; mkDesc "tab.list" TabList; mkDesc "tab.close" TabClose; mkDesc "tab.focus" TabFocus;
  mkDesc "tab.navigate" TabNavigate; mkDesc "tab.wait" TabWait; mkDesc "page.snapshot" PageSnapshot;
  mkDesc "page.screenshot" PageScreenshot; mkDesc "page.read_text" PageReadText; mkDesc "page.click" PageClick;
  mkDesc "page.type" PageType; mkDesc "page.keypress" PageKeypress; mkDesc "page.scroll" PageScroll;
  mkDesc "page.hover" PageHover; mkDesc "page.drag" PageDrag; mkDesc "page.touch.tap" PageTouchTap;
  mkDesc "page.touch.swipe" PageTouchSwipe; mkDesc "page.touch.pinch" PageTouchPinch;
  mkDesc "page.touch.rotate" PageTouchRotate; mkDesc "page.pointer.press" PagePointerPress;
  mkDesc "page.pointer.move" PagePointerMove; mkDesc "page.pointer.release" PagePointerRelease;
  mkDesc "page.gesture.pinch" PageGesturePinch; mkDesc "page.gesture.rotate" PageGestureRotate;
  mkDesc "page.gesture.longpress" PageGestureLongpress; mkDesc "page.drag.file_drop" PageDragFileDrop;
  mkDesc "page.keyboard.shortcut" PageKeyboardShortcut; mkDesc "page.keyboard.ime" PageKeyboardIme;
  mkDesc "page.dead_key" PageDeadKey; mkDesc "page.scroll.precise" PageScrollPrecise;
  mkDesc "page.tab_traversal" PageTabTraversal; mkDesc "page.right_click_menu_navigate" PageRightClickMenuNavigate;
  mkDesc "page.eval" PageEval; mkDesc "page.cookies" PageCookies; mkDesc "page.cookies.deep_set" PageCookiesDeepSet;
  mkDesc "page.storage" PageStorage; mkDesc "page.localstorage.get" PageStorageGet;
  mkDesc "page.localstorage.set" PageStorageSet; mkDesc "page.localstorage.delete" PageStorageDelete;
  mkDesc "page.localstorage.clear" PageStorageClear; mkDesc "page.localstorage.cas" PageStorageCas;
  mkDesc "page.sessionstorage.get" PageStorageGet; mkDesc "page.sessionstorage.set" PageStorageSet;
  mkDesc "page.sessionstorage.delete" PageStorageDelete; mkDesc "page.sessionstorage.clear" PageStorageClear;
  mkDesc "page.sessionstorage.cas" PageStorageCas; mkDesc "page.indexeddb.list_databases" PageIndexeddbListDatabases;
  mkDesc "page.indexeddb.list_stores" PageIndexeddbListStores; mkDesc "page.indexeddb.query" PageIndexeddbQuery;
  mkDesc "page.indexeddb.put" PageIndexeddbPut; mkDesc "page.indexeddb.delete" PageIndexeddbDelete;
  mkDesc "page.indexeddb.delete_database" PageIndexeddbDeleteDatabase; mkDesc "page.cache_api.list" PageCacheApiList;
  mkDesc "page.cache_api.inspect" PageCacheApiInspect; mkDesc "page.cache_api.delete" PageCacheApiDelete;
  mkDesc "page.permissions.query" PagePermissionsQuery; mkDesc "page.permissions.grant" PagePermissionsGrant;
  mkDesc "page.permissions.revoke" PagePermissionsRevoke; mkDesc "page.storage.quota" PageStorageQuota;
  mkDesc "page.viewport" PageViewport; mkDesc "page.user_agent" PageUserAgent; mkDesc "page.geo" PageGeo;
  mkDesc "page.dark_mode" PageDarkMode; mkDesc "page.network_conditions" PageNetworkConditions;
  mkDesc "page.emulate" PageEmulate; mkDesc "page.performance_timeline_start" PagePerformanceTimelineStart;
  mkDesc "page.performance_timeline_stop" PagePerformanceTimelineStop;
  mkDesc "page.performance_metrics" PagePerformanceMetrics; mkDesc "page.coverage_js_start" PageCoverageJsStart;
  mkDesc "page.coverage_js_take" PageCoverageJsTake; mkDesc "page.coverage_css_start" PageCoverageCssStart;
  mkDesc "page.coverage_css_take" PageCoverageCssTake; mkDesc "page.heap_snapshot" PageHeapSnapshot;
  mkDesc "page.heap_sample_alloc" PageHeapSampleAlloc; mkDesc "page.cpu_profile" PageCpuProfile;
  mkDesc "page.layout_metrics" PageLayoutMetrics; mkDesc "page.paint_flash" PagePaintFlash; mkDesc "page.pdf" PagePdf;
  mkDesc "page.print_preview" PagePrintPreview; mkDesc "net.intercept" NetIntercept; mkDesc "net.mock" NetMock;
  mkDesc "net.observe" NetObserve; mkDesc "net.intercept.fulfill_with_body" NetInterceptFulfillWithBody;
  mkDesc "net.intercept.modify_request" NetInterceptModifyRequest; mkDesc "net.intercept.fail" NetInterceptFail;
  mkDesc "net.replay" NetReplay; mkDesc "net.websocket.observe" NetWebsocketObserve;
  mkDesc "net.websocket.inject_frame" NetWebsocketInjectFrame; mkDesc "net.eventsource.observe" NetEventsourceObserve;
  mkDesc "net.har.export" NetHarExport; mkDesc "net.proxy" NetProxy; mkDesc "net.mitm_cert.install" NetMitmCertInstall;
  mkDesc "vision.read_text" VisionReadText; mkDesc "vision.find_text" VisionFindText;
  mkDesc "vision.compare" VisionCompare; mkDesc "vision.fps" VisionFps; mkDesc "vision.stability" VisionStability;
  mkDesc "vision.changed_since" VisionChangedSince; mkDesc "vision.verify_action" VisionVerifyAction;
  mkDesc "vision.pixel" VisionPixel; mkDesc "vision.region.classify" VisionRegionClassify;
  mkDesc "vision.color.palette" VisionColorPalette; mkDesc "vision.text.style" VisionTextStyle;
  mkDesc "vision.layout.segments" VisionLayoutSegments; mkDesc "vision.icon.recognize" VisionIconRecognize;
  mkDesc "vision.qr_barcode" VisionQrBarcode; mkDesc "vision.scrollbar.position" VisionScrollbarPosition;
  mkDesc "vision.loading.detect" VisionLoadingDetect; mkDesc "vision.tooltip.detect" VisionTooltipDetect;
  mkDesc "vision.modal.detect" VisionModalDetect; mkDesc "vision.diff.semantic" VisionDiffSemantic;
  mkDesc "vision.animation.frames" VisionAnimationFrames; mkDesc "vision.face_blur" VisionFaceBlur;
  mkDesc "term.spawn" TermSpawn; mkDesc "term.write" TermWrite; mkDesc "term.read" TermRead;
  mkDesc "term.snapshot" TermSnapshot; mkDesc "term.resize" TermResize; mkDesc "term.close" TermClose;
  mkDesc "term.send_signal" TermSendSignal; mkDesc "term.scrollback" TermScrollback;
  mkDesc "term.alt_screen_active" TermAltScreenActive; mkDesc "term.mouse_event" TermMouseEvent;
  mkDesc "system.audio.output" SystemAudioOutput; mkDesc "system.audio.input" SystemAudioInput;
  mkDesc "system.audio.select" SystemAudioSelect; mkDesc "system.audio.volume" SystemAudioVolume;
  mkDesc "system.audio.mute" SystemAudioMute; mkDesc "system.audio.capture_to_file" SystemAudioCaptureToFile;
  mkDesc "system.mic.capture" SystemMicCapture; mkDesc "system.camera.snapshot" SystemCameraSnapshot;
  mkDesc "system.screen.capture_region" SystemScreenCaptureRegion;
  mkDesc "system.screen.list_displays" SystemScreenListDisplays; mkDesc "system.bluetooth.scan" SystemBluetoothScan;
  mkDesc "system.bluetooth.connect" SystemBluetoothConnect; mkDesc "system.bluetooth.disconnect" SystemBluetoothDisconnect;
  mkDesc "system.usb.devices" SystemUsbDevices; mkDesc "system.battery" SystemBattery;
  mkDesc "system.network.interfaces" SystemNetworkInterfaces; mkDesc "system.network.routes" SystemNetworkRoutes;
  mkDesc "system.network.connections" SystemNetworkConnections; mkDesc "system.process.list" SystemProcessList;
  mkDesc "system.process.info" SystemProcessInfo; mkDesc "system.process.signal" SystemProcessSignal;
  mkDesc "system.fsevents.watch" SystemFseventsWatch; mkDesc "system.spotlight.query" SystemSpotlightQuery;
  mkDesc "system.metadata" SystemMetadata; mkDesc "app.list" AppList; mkDesc "app.snapshot" AppSnapshot;
  mkDesc "app.click" AppClick; mkDesc "app.type" AppType; mkDesc "app.scroll" AppScroll; mkDesc "app.eval" AppEval].
Definition find (name : string) : option ToolDescriptor := List.find (fun t => bool_decide (d_name t = name)) build_list.

(** In milliseconds. *)
Definition call_options_for (tool : string) : Z :=
  if bool_decide (tool = "tab.wait") then 60000
  else if bool_decide (tool ∈ ["tab.open"; "tab.navigate"; "term.spawn"]) then 45000
  else if bool_decide (tool ∈ ["page.snapshot"; "page.screenshot"; "term.read"; "term.snapshot"]) then 30000
  else if bool_decide (tool ∈ ["system.audio.capture_to_file"; "system.mic.capture"; "system.bluetooth.scan"]) then 60000
  else if bool_decide (tool ∈ ["page.pdf"; "page.heap_snapshot"; "page.performance_timeline_stop"]) then 120000
  else if bool_decide (tool ∈ ["page.cpu_profile"; "page.heap_sample_alloc"]) then 180000
  else 30000.

Definition name_static (name : string) : string :=
  default "<unknown>" (List.find (fun n => bool_decide (n = name)) TOOL_NAMES).

(** The arms of [validate_args]. *)
Definition validators : list (string * ty) := [("browser.context.create", BrowserContextCreate);
  ("browser.context.list", BrowserContextList); ("browser.context.destroy", BrowserContextDestroy); ("tab.open", TabOpen);
  ("tab.list", TabList); ("tab.close", TabClose); ("tab.focus", TabFocus); ("tab.navigate", TabNavigate);
  ("tab.wait", TabWait); ("page.snapshot", PageSnapshot); ("page.screenshot", PageScreenshot);
  ("page.read_text", PageReadText); ("page.click", PageClick); ("page.type", PageType); ("page.keypress", PageKeypress);
  ("page.scroll", PageScroll); ("page.hover", PageHover); ("page.drag", PageDrag); ("page.touch.tap", PageTouchTap);
  ("page.touch.swipe", PageTouchSwipe); ("page.touch.pinch", PageTouchPinch); ("page.touch.rotate", PageTouchRotate);
  ("page.pointer.press", PagePointerPress); ("page.pointer.move", PagePointerMove);
  ("page.pointer.release", PagePointerRelease); ("page.gesture.pinch", PageGesturePinch);
  ("page.gesture.rotate", PageGestureRotate); ("page.gesture.longpress", PageGestureLongpress);
  ("page.drag.file_drop", PageDragFileDrop); ("page.keyboard.shortcut", PageKeyboardShortcut);
  ("page.keyboard.ime", PageKeyboardIme); ("page.dead_key", PageDeadKey); ("page.scroll.precise", PageScrollPrecise);
  ("page.tab_traversal", PageTabTraversal); ("page.right_click_menu_navigate", PageRightClickMenuNavigate);
  ("page.eval", PageEval); ("page.cookies", PageCookies); ("page.cookies.deep_set", PageCookiesDeepSet);
  ("page.storage", PageStorage); ("page.localstorage.get", PageStorageGet); ("page.localstorage.set", PageStorageSet);
  ("page.localstorage.delete", PageStorageDelete); ("page.localstorage.clear", PageStorageClear);
  ("page.localstorage.cas", PageStorageCas); ("page.sessionstorage.get", PageStorageGet);
  ("page.sessionstorage.set", PageStorageSet); ("page.sessionstorage.delete", PageStorageDelete);
  ("page.sessionstorage.clear", PageStorageClear); ("page.sessionstorage.cas", PageStorageCas);
  ("page.indexeddb.list_databases", PageIndexeddbListDatabases); ("page.indexeddb.list_stores", PageIndexeddbListStores);
  ("page.indexeddb.query", PageIndexeddbQuery); ("page.indexeddb.put", PageIndexeddbPut);
  ("page.indexeddb.delete", PageIndexeddbDelete); ("page.indexeddb.delete_database", PageIndexeddbDeleteDatabase);
  ("page.cache_api.list", PageCacheApiList); ("page.cache_api.inspect", PageCacheApiInspect);
  ("page.cache_api.delete", PageCacheApiDelete); ("page.permissions.query", PagePermissionsQuery);
  ("page.permissions.grant", PagePermissionsGrant); ("page.permissions.revoke", PagePermissionsRevoke);
  ("page.storage.quota", PageStorageQuota); ("page.viewport", PageViewport); ("page.user_agent", PageUserAgent);
  ("page.geo", PageGeo); ("page.dark_mode", PageDarkMode); ("page.network_conditions", PageNetworkConditions);
  ("page.emulate", PageEmulate); ("page.performance_timeline_start", PagePerformanceTimelineStart);
  ("page.performance_timeline_stop", PagePerformanceTimelineStop); ("page.performance_metrics", PagePerformanceMetrics);
  ("page.coverage_js_start", PageCoverageJsStart); ("page.coverage_js_take", PageCoverageJsTake);
  ("page.coverage_css_start", PageCoverageCssStart); ("page.coverage_css_take", PageCoverageCssTake);
  ("page.heap_snapshot", PageHeapSnapshot); ("page.heap_sample_alloc", PageHeapSampleAlloc);
  ("page.cpu_profile", PageCpuProfile); ("page.layout_metrics", PageLayoutMetrics); ("page.paint_flash", PagePaintFlash);
  ("page.pdf", PagePdf); ("page.print_preview", PagePrintPreview); ("net.intercept", NetIntercept); ("net.mock", NetMock);
  ("net.observe", NetObserve); ("net.intercept.fulfill_with_body", NetInterceptFulfillWithBody);
  ("net.intercept.modify_request", NetInterceptModifyRequest); ("net.intercept.fail", NetInterceptFail);
  ("net.replay", NetReplay); ("net.websocket.observe", NetWebsocketObserve);
  ("net.websocket.inject_frame", NetWebsocketInjectFrame); ("net.eventsource.observe", NetEventsourceObserve);
  ("net.har.export", NetHarExport); ("net.proxy", NetProxy); ("net.mitm_cert.install", NetMitmCertInstall);
  ("vision.read_text", VisionReadText); ("vision.find_text", VisionFindText); ("vision.compare", VisionCompare);
  ("vision.fps", VisionFps); ("vision.stability", VisionStability); ("vision.changed_since", VisionChangedSince);
  ("vision.verify_action", VisionVerifyAction); ("vision.pixel", VisionPixel);
  ("vision.region.classify", VisionRegionClassify); ("vision.color.palette", VisionColorPalette);
  ("vision.text.style", VisionTextStyle); ("vision.layout.segments", VisionLayoutSegments);
  ("vision.icon.recognize", VisionIconRecognize); ("vision.qr_barcode", VisionQrBarcode);
  ("vision.scrollbar.position", VisionScrollbarPosition); ("vision.loading.detect", VisionLoadingDetect);
  ("vision.tooltip.detect", VisionTooltipDetect); ("vision.modal.detect", VisionModalDetect);
  ("vision.diff.semantic", VisionDiffSemantic); ("vision.animation.frames", VisionAnimationFrames);
  ("vision.face_blur", VisionFaceBlur); ("term.spawn", TermSpawn); ("term.write", TermWrite); ("term.read", TermRead);
  ("term.snapshot", TermSnapshot); ("term.resize", TermResize); ("term.close", TermClose);
  ("term.send_signal", TermSendSignal); ("term.scrollback", TermScrollback);
  ("term.alt_screen_active", TermAltScreenActive); ("term.mouse_event", TermMouseEvent);
  ("system.audio.output", SystemAudioOutput); ("system.audio.input", SystemAudioInput);
  ("system.audio.select", SystemAudioSelect); ("system.audio.volume", SystemAudioVolume);
  ("system.audio.mute", SystemAudioMute); ("system.audio.capture_to_file", SystemAudioCaptureToFile);
  ("system.mic.capture", SystemMicCapture); ("system.camera.snapshot", SystemCameraSnapshot);
  ("system.screen.capture_region", SystemScreenCaptureRegion); ("system.screen.list_displays", SystemScreenListDisplays);
  ("system.bluetooth.scan", SystemBluetoothScan); ("system.bluetooth.connect", SystemBluetoothConnect);
  ("system.bluetooth.disconnect", SystemBluetoothDisconnect); ("system.usb.devices", SystemUsbDevices);
  ("system.battery", SystemBattery); ("system.network.interfaces", SystemNetworkInterfaces);
  ("system.network.routes", SystemNetworkRoutes); ("system.network.connections", SystemNetworkConnections);
  ("system.process.list", SystemProcessList); ("system.process.info", SystemProcessInfo);
  ("system.process.signal", SystemProcessSignal); ("system.fsevents.watch", SystemFseventsWatch);
  ("system.spotlight.query", SystemSpotlightQuery); ("system.metadata", SystemMetadata); ("app.list", AppList);
  ("app.snapshot", AppSnapshot); ("app.click", AppClick); ("app.type", AppType); ("app.scroll", AppScroll);
  ("app.eval", AppEval)].

(** ** Validation and dispatch *)

(** serde's reader at the schema types. *)
Class SchemaSerde := from_value : ty -> json -> result unit string.
(** What derived readers do: they take the values of the type, and of a struct
    they refuse an object that lacks a field without default or whose field is
    not of its string, boolean or number type. *)
Definition is_scalar (t : ty) : bool :=
  match t with TString | TBool | TF64 | TUint _ | TInt _ => true | _ => false end.
Class SchemaSerdeLaws `{SchemaSerde} := {
  fits_taken t v : fits t v = true -> is_ok (from_value t v) = true;
  misfit_refused fields kvs k t : (k, (false, t)) ∈ fields -> is_scalar t = true ->
    match assoc k kvs with Some x => fits t x = false | None => True end ->
    is_ok (from_value (TStruct fields) (JObj kvs)) = false
}.

Section Dispatch.
Context `{Json : WireCodec} `{Schemas : SchemaSerde}.

Definition check (t : ty) (method : string) (v : json) : result unit BridgeError :=
  match from_value t v with Ok _ => Ok tt | Err reason => Err (InvalidParamsErr method reason) end.
Definition validate_args (name : string) (args : json) : result unit BridgeError :=
  match List.find (fun arm => bool_decide (fst arm = name)) validators with
  | Some (_, t) => check t (name_static name) args
  | None => Err (Protocol ("unknown tool: " +:+ name))
  end.
Definition dispatch (env0 env1 : attempt_env) (name : string) (args : json) (s : Inner) : Inner * result json BridgeError :=
  match find name with
  | None => (s, Err (Protocol ("unknown tool: " +:+ name)))
  | Some descriptor =>
      match validate_args name args with
      | Err e => (s, Err e)
      | Ok _ => send_with_timeout env0 env1 (d_name descriptor) args (call_options_for name) s
      end
  end.

(** ** The table is consistent *)

Definition consistent (name : string) : bool :=
  match find name, List.find (fun arm => bool_decide (fst arm = name)) validators, route name with
  | Some d, Some (_, t), Some _ =>
      bool_decide (d_name d = name) && bool_decide (name_static name = name) && negb (bool_decide (name ∈ control_methods))
  | _, _, _ => false
  end.
Lemma names_consistent name : name ∈ TOOL_NAMES -> consistent name = true.
Proof.
  assert (forallb consistent TOOL_NAMES = true) as H by (vm_compute; reflexivity). rewrite forallb_forall in H.
  intros N. now apply H, list_elem_of_In.
Qed.
Lemma build_list_names : map d_name build_list = TOOL_NAMES /\ map fst validators = TOOL_NAMES /\ NoDup TOOL_NAMES.
Proof. split; [reflexivity|]. split; [reflexivity|]. apply (bool_decide_unpack _). vm_compute. exact I. Qed.
(** Both tables pair a name with the same type. *)
Lemma types_agree : map (fun d => (d_name d, d_input d)) build_list = validators.
Proof. reflexivity. Qed.
Lemma find_pairs name : List.find (fun arm => bool_decide (fst arm = name)) validators
  = option_map (fun d => (d_name d, d_input d)) (find name).
Proof.
  rewrite <- types_agree. unfold find. induction build_list as [|d l IH]; cbn; [done|]. case_bool_decide; [done|exact IH].
Qed.
Lemma find_unknown name : name ∉ TOOL_NAMES -> find name = None.
Proof.
  intros N. unfold find. destruct (List.find _ _) as [d|] eqn:F; [|done]. apply List.find_some in F as [F1 F2%bool_decide_eq_true].
  exfalso. apply N. destruct build_list_names as [<- _]. apply list_elem_of_In, in_map_iff. eauto.
Qed.

Lemma dispatched_as env0 env1 name args s : name ∈ TOOL_NAMES -> exists d tool, find name = Some d /\
  dispatch env0 env1 name args s =
    match from_value (d_input d) args with
    | Ok _ => send_with_timeout env0 env1 name args (call_options_for name) s
    | Err reason => (s, Err (InvalidParamsErr name reason))
    end /\
  forall req id, rq_id req = Some id -> rq_method req = name ->
    dispatch_begin true req = DTool id name tool (default JNull (rq_params req)).
Proof.
  unfold dispatch. intros N.
  pose proof (names_consistent _ N) as C. unfold consistent, validate_args in *. rewrite find_pairs in *.
  destruct (find name) as [d|]; [|discriminate]. cbn in *. destruct (route name) as [tool|] eqn:R; [|discriminate].
  apply andb_true_iff in C as [[D%bool_decide_eq_true S%bool_decide_eq_true]%andb_true_iff K%negb_true_iff%bool_decide_eq_false].
  exists d, tool. split; [done|]. split.
  - rewrite D. unfold check. rewrite S. now destruct (from_value _ _).
  - intros req id I M. unfold dispatch_begin. rewrite I, M, R.
    unfold control_methods in K. rewrite !not_elem_of_cons in K. destruct K as (K1 & K2 & K3).
    rewrite (bool_decide_eq_false_2 (name = _)), (bool_decide_eq_false_2 (name = _)) by done.
    rewrite bool_decide_eq_false_2; [done|]. now rewrite !not_elem_of_cons.
Qed.

(** A tool call is sent exactly as it came, or not at all.  A name that is not
    published is refused with a protocol error and arguments that do not read as
    the type published for the tool with InvalidParams, both without a change of
    the connection; any other call is sent once under the tool's own name, with
    its arguments unchanged and its own time limit, and the broker's router,
    given that request in a session, hands it to a tool. *)
Theorem dispatch_forwards env0 env1 name args s :
  (name ∉ TOOL_NAMES -> dispatch env0 env1 name args s = (s, Err (Protocol ("unknown tool: " +:+ name)))) /\
  (name ∈ TOOL_NAMES -> exists d tool, find name = Some d /\
     dispatch env0 env1 name args s =
       match from_value (d_input d) args with
       | Ok _ => send_with_timeout env0 env1 name args (call_options_for name) s
       | Err reason => (s, Err (InvalidParamsErr name reason))
       end /\
     forall req id, rq_id req = Some id -> rq_method req = name ->
       dispatch_begin true req = DTool id name tool (default JNull (rq_params req))).
Proof.
  split; intros N; [|now apply dispatched_as]. unfold dispatch. now rewrite (find_unknown _ N).
Qed.

(** What a caller can rely on: arguments of the published type are sent, and an
    object without a required string, boolean or number is refused. *)
Lemma dispatch_validates `{Laws : !SchemaSerdeLaws} env0 env1 name d args s : name ∈ TOOL_NAMES -> find name = Some d ->
  (fits (d_input d) args = true ->
     dispatch env0 env1 name args s = send_with_timeout env0 env1 name args (call_options_for name) s) /\
  (forall fields kvs k t, d_input d = TStruct fields -> args = JObj kvs -> (k, (false, t)) ∈ fields -> is_scalar t = true ->
     assoc k kvs = None -> exists reason, dispatch env0 env1 name args s = (s, Err (InvalidParamsErr name reason))).
Proof.
  intros N F. destruct (dispatched_as env0 env1 name args s N) as (d' & tool & F' & E & _). rewrite F in F'. injection F' as <-.
  rewrite E. split.
  - intros T%fits_taken. revert T. destruct (from_value _ _); [done|discriminate].
  - intros fields kvs k t D -> I S M. assert (is_ok (from_value (TStruct fields) (JObj kvs)) = false) as X
      by (eapply misfit_refused; [exact I|exact S|now rewrite M]). rewrite D. destruct (from_value (TStruct fields) (JObj kvs)) as [u|e] eqn:Y; cbn in X; [congruence|eauto].
Qed.

End Dispatch.
End Tools.

Module ToolsExamples.
Import Tools.

(** A reader that takes exactly the values of the type. *)
Definition read_fits : SchemaSerde := fun t v => if fits t v then Ok tt else Err "type mismatch".
Lemma read_fits_laws : @SchemaSerdeLaws read_fits.
Proof.
  constructor; unfold from_value, read_fits.
  - now intros t v ->.
  - intros fields kvs k t I S M. destruct (fits (TStruct fields) (JObj kvs)) eqn:F; [|done].
    pose proof (fits_field _ _ _ _ _ F (proj1 (list_elem_of_In _ _) I)) as H. destruct (assoc k kvs); [congruence|]. now destruct t.
Qed.

Existing Instance WireExamples.demo_codec.
Existing Instance read_fits.
(** A broker that answers nothing. *)
Definition lost : attempt_env := mkEnv None (fun _ s => (s, RxElapsed)) (fun s => (s, None)) 0.
Lemma dispatch_forwards_witness : exists d tool, find "page.click" = Some d /\
  dispatch lost lost "page.click" (JObj [("tab_id", JStr "t1")]) inner_new
  = (inner_new, Err (InvalidParamsErr "page.click" "type mismatch")) /\
  dispatch_begin true (mkRequest "2.0" (Some (JNum 1)) "page.click" None) = DTool (JNum 1) "page.click" tool JNull.
Proof.
  assert ("page.click" ∈ TOOL_NAMES) as M by (apply (bool_decide_unpack _); vm_compute; exact I).
  destruct (proj2 (dispatch_forwards lost lost "page.click" (JObj [("tab_id", JStr "t1")]) inner_new) M) as (d & tool & F & E & R).
  exists d, tool. split; [exact F|]. split; [|exact (R (mkRequest "2.0" (Some (JNum 1)) "page.click" None) (JNum 1) eq_refl eq_refl)].
  rewrite E. apply (f_equal (option_map d_input)) in F. injection F as <-. vm_compute. reflexivity.
Defined.
Example unknown_tool_refused : dispatch lost lost "tab.opne" JNull inner_new = (inner_new, Err (Protocol "unknown tool: tab.opne")).
Proof. vm_compute. reflexivity. Qed.

End ToolsExamples.
