(* ===== verification/ToolArgs.v ===== *)
(** * ToolArgs: the broker takes what the schema promises

    Composes the schemas the MCP server publishes ([Schema], [Tools]) with the
    page tools of the broker ([PageTools]): arguments that read as the published
    type, have no null and no other member are never refused as invalid. *)
From S2P Require Import Prelude Json F64 Text AxMerge Input Actions BrokerSession Wire Router PageTools PageSpec Schema Tools.
Import JsonTree Input Prog AxMerge Actions Wire Router PageTools PageSpec Schema Tools.

Module ToolArgs.

(** ** Arguments of a type, without nulls and other members *)

Definition exact_args (t : ty) (v : json) : bool :=
  fits t v &&
  match t, v with
  | TStruct fields, JObj kvs =>
      forallb (fun kv => match snd kv with JNull => false | _ => bool_decide (fst kv ∈ map fst fields) end) kvs
  | _, _ => false
  end.

Lemma assoc_in k kvs x : assoc k kvs = Some x -> In (k, x) kvs.
Proof.
  induction kvs as [|[k' y] kvs IH]; [done|]. cbn. case_bool_decide as E; [intros [= ->]; subst; now left|]. right. now apply IH.
Qed.

Lemma all_strings_ok err l : forallb (fits TString) l = true -> exists ss, all_strings err l = Ok ss.
Proof.
  induction l as [|y l IH]; [now exists []|]. intros [F1 F2]%andb_true_iff. destruct (IH F2) as [ss E].
  destruct y as [| | | |s| |]; try discriminate. exists (s :: ss). unfold all_strings in *. cbn [collect].
  change (as_str (JStr s)) with (Some s). now rewrite E.
Qed.

Section Fields.
Context (fields : list (string * (bool * ty))) (args : json) (A : exact_args (TStruct fields) args = true).

Lemma exact_object : exists kvs, args = JObj kvs.
Proof. unfold exact_args in A. apply andb_true_iff in A as [_ B]. destruct args; try discriminate. eauto. Qed.
Lemma exact_known k x : vget k args = Some x -> x <> JNull /\ In k (map fst fields).
Proof.
  destruct exact_object as [kvs ->]. cbn. intros H%assoc_in. unfold exact_args in A. apply andb_true_iff in A as [_ B].
  rewrite forallb_forall in B. specialize (B _ H). cbn in B. destruct x; try discriminate; split; try done;
    now apply list_elem_of_In, (bool_decide_eq_true_1 _ B).
Qed.
Lemma exact_req k t : In (k, (false, t)) fields -> is_option t = false -> exists x, vget k args = Some x /\ fits t x = true.
Proof.
  destruct exact_object as [kvs E]. intros I O. pose proof A as A'. unfold exact_args in A'. rewrite E in A' |- *. apply andb_true_iff in A' as [F _].
  pose proof (fits_field _ _ _ _ _ F I) as H. cbn. destruct (assoc k kvs) as [x|]; [eauto|]. rewrite O in H. discriminate.
Qed.
Lemma exact_opt k t x : In (k, (true, TOption t)) fields -> vget k args = Some x -> fits t x = true.
Proof.
  destruct exact_object as [kvs E]. intros I V. pose proof (exact_known _ _ V) as [N _]. pose proof A as A'. unfold exact_args in A'.
  rewrite E in A', V. apply andb_true_iff in A' as [F _].
  pose proof (fits_field _ _ _ _ _ F I) as H. cbn in V. rewrite V in H. cbn in H. now destruct x.
Qed.
Lemma exact_str k : In (k, (false, TString)) fields -> exists s, vget_str k args = Some s.
Proof.
  intros I. destruct (exact_req _ _ I eq_refl) as (x & V & F). unfold vget_str. rewrite V. destruct x; try discriminate. cbn. eauto.
Qed.
Lemma exact_f64 k : In (k, (false, TF64)) fields -> exists x, get_f64 k args = Some x.
Proof.
  intros I. destruct (exact_req _ _ I eq_refl) as (x & V & F). unfold get_f64. rewrite V. destruct x; try discriminate; cbn; eauto.
Qed.
Lemma exact_enum k names : In (k, (false, TEnum names)) fields -> exists s, vget_str k args = Some s /\ s ∈ names.
Proof.
  intros I. destruct (exact_req _ _ I eq_refl) as (x & V & F). unfold vget_str. rewrite V. destruct x; try discriminate. cbn in *.
  apply bool_decide_eq_true in F. eauto.
Qed.
Lemma exact_opt_enum k names : In (k, (true, TOption (TEnum names))) fields -> vget k args = None \/ exists s, vget_str k args = Some s /\ s ∈ names.
Proof.
  intros I. destruct (vget k args) as [x|] eqn:V; [|now left]. right. pose proof (exact_opt _ _ _ I V) as F. unfold vget_str. rewrite V.
  destruct x; try discriminate. cbn in *. apply bool_decide_eq_true in F. eauto.
Qed.
Lemma exact_strings k err : In (k, (false, TVec TString)) fields ->
  exists l ss, (vget k args ≫= as_array) = Some l /\ all_strings err l = Ok ss.
Proof.
  intros I. destruct (exact_req _ _ I eq_refl) as (x & V & F). rewrite V. destruct x as [| | | | |l|]; try discriminate.
  destruct (all_strings_ok err l F) as [ss E]. cbn. eauto.
Qed.
Lemma exact_absent k : ~ In k (map fst fields) -> vget k args = None.
Proof. intros N. destruct (vget k args) as [x|] eqn:V; [|done]. now apply exact_known in V as [_ I]. Qed.
End Fields.

(** ** Programs that never call their arguments invalid *)

Definition silent (X : Type) (e : tev X) (_ : X) : list unit := [].
Definition accepted {A} (r : result A RouterError) : Prop := match r with Err e => re_code e <> InvalidParams | Ok _ => True end.
Definition valid {A} (p : tool A) : Prop := post silent p (fun _ r => accepted r).

Lemma valid_ret {A} (r : result A RouterError) : accepted r -> valid (Ret r).
Proof. intros H. now apply post_ret. Qed.
Lemma valid_ask {X A} (e : tev X) (k : X -> tool A) : (forall x, valid (k x)) -> valid (bind (want e) k).
Proof. intros H. apply post_vis. intros x. apply H. Qed.
Lemma valid_bind {A B} (p : tool A) (f : A -> tool B) : valid p -> (forall a, valid (f a)) -> valid (bind_ok p f).
Proof. intros Hp Hf. eapply post_bind; [exact Hp|]. intros t [a|e] H; [apply Hf|now apply post_ret]. Qed.
Lemma valid_map_err {A} (g : string -> RouterError) (p : prog tev (result A string)) : (forall e, re_code (g e) <> InvalidParams) ->
  valid (map_err g p).
Proof. intros H. eapply (post_bind _ _ _ (fun _ _ => True)); [done|]. intros t [a|e] _; apply post_ret; [done|apply H]. Qed.
Lemma valid_on_page {A} (g : string -> RouterError) (p : act A) : (forall e, re_code (g e) <> InvalidParams) -> valid (on_page g p).
Proof. apply valid_map_err. Qed.
(** A step whose result is known. *)
Lemma valid_known {A B} (x : result A RouterError) a (f : A -> tool B) : x = Ok a -> valid (f a) -> valid (bind_ok (lift x) f).
Proof. now intros ->. Qed.
Lemma valid_lift {A B} (x : result A RouterError) (f : A -> tool B) : accepted x -> (forall a, valid (f a)) -> valid (bind_ok (lift x) f).
Proof. intros H Hf. apply valid_bind; [now apply valid_ret|exact Hf]. Qed.
Lemma zero_area_code what e : re_code (zero_area what e) <> InvalidParams.
Proof. unfold zero_area. now destruct (contains _ _). Qed.

Section Steps.
Context `{Env : PageEnv} `{Serde : PageSerde}.
Context (fields : list (string * (bool * ty))) (args : json) (A : exact_args (TStruct fields) args = true).

Lemma valid_str {B} k (f : string -> tool B) : In (k, (false, TString)) fields -> (forall s, valid (f s)) ->
  valid (bind_ok (lift (required_str args k)) f).
Proof. intros I H. destruct (exact_str _ _ A _ I) as [s E]. unfold required_str. rewrite E. apply H. Qed.
Lemma valid_get {B} k e (f : string -> tool B) : In (k, (false, TString)) fields -> (forall s, valid (f s)) ->
  valid (bind_ok (lift (match vget_str k args with Some s => Ok s | None => Err e end)) f).
Proof. intros I H. destruct (exact_str _ _ A _ I) as [s E]. rewrite E. apply H. Qed.
Lemma valid_f64 {B} k (f : f64 -> tool B) : In (k, (false, TF64)) fields -> (forall s, valid (f s)) ->
  valid (bind_ok (lift (required_f64 args k)) f).
Proof. intros I H. destruct (exact_f64 _ _ A _ I) as [s E]. unfold required_f64. rewrite E. apply H. Qed.
Lemma valid_locate p : In ("tab_id", (false, TString)) fields -> valid p -> valid (A := json) (locate_page args ;;! p).
Proof.
  intros I H. apply valid_bind; [|done]. unfold locate_page. apply valid_str; [exact I|]. intros s. apply valid_ask.
  intros [|]; now apply valid_ret.
Qed.
Lemma valid_resolve s l : accepted (resolve_ref_str dbg l s).
Proof. unfold resolve_ref_str. now destruct (List.find _ _). Qed.
Lemma valid_ref l : In ("ref", (false, TString)) fields -> accepted (resolve_ref dbg l args).
Proof. intros I. destruct (exact_str _ _ A _ I) as [s E]. unfold resolve_ref. rewrite E. apply valid_resolve. Qed.
Lemma valid_snapshot what : ~ In "snapshot_seq" (map fst fields) -> valid (pre_snapshot what args).
Proof.
  intros N. unfold pre_snapshot, validate_snapshot_seq. rewrite (exact_absent _ _ A _ N). apply valid_bind; [now apply valid_ret|].
  intros _. now apply valid_map_err.
Qed.
Lemma valid_optional what : ~ In "snapshot_seq" (map fst fields) -> In ("ref", (true, TOption TString)) fields ->
  valid (optional_ref what args).
Proof.
  intros N I. unfold optional_ref. destruct (vget "ref" args) as [x|] eqn:V; [|now apply valid_ret].
  apply valid_bind; [now apply valid_snapshot|]. intros s. apply valid_lift; [|intros e; now apply valid_ret].
  unfold resolve_ref, vget_str. rewrite V. pose proof (exact_opt _ _ A _ _ _ I V) as F. destruct x; try discriminate. apply valid_resolve.
Qed.
Lemma valid_gate method (p : tool json) : valid p -> valid (require_storage_state_capability method ;;! p).
Proof.
  intros H. apply valid_bind; [|done]. apply valid_ask. intros [l|]; apply valid_ret; [|discriminate]. case_bool_decide; [done|discriminate].
Qed.
Lemma valid_origin (f : string -> tool json) : (forall o, valid (f o)) -> valid (bind_ok page_origin f).
Proof. intros H. apply valid_bind; [|exact H]. apply valid_ask. intros u. destruct (parse_http_origin u); now apply valid_ret. Qed.
Lemma valid_json_eval js c d : valid (run_json_eval js c d).
Proof.
  apply valid_bind; [now apply valid_on_page|]. intros raw. apply valid_lift.
  - destruct (as_str raw); [|done]. now destruct (parse_json s).
  - intros v. destruct (vget_str "error" v); now apply valid_ret.
Qed.
Lemma valid_present k t (f : json -> tool json) : In (k, (false, t)) fields -> is_option t = false -> (forall v, valid (f v)) ->
  valid (bind_ok (lift (present args k)) f).
Proof. intros I O H. destruct (exact_req _ _ A _ _ I O) as (x & E & _). unfold present. rewrite E. apply H. Qed.
Lemma valid_cdp c d m ps : valid (cdp_or c d m ps).
Proof. now apply valid_map_err. Qed.

(** The steps of single tools. *)
Lemma valid_easing : In ("easing", (true, TOption PageScrollEasing)) fields -> accepted (scroll_easing args).
Proof.
  intros I. unfold scroll_easing. destruct (exact_opt_enum _ _ A _ _ I) as [V|(s & V & H)].
  - unfold vget_str. now rewrite V.
  - rewrite V. cbn [default]. rewrite !elem_of_cons in H. destruct H as [->|[->|[->|[]%not_elem_of_nil]]]; done.
Qed.
Lemma valid_direction {B} (f : string -> tool B) : In ("direction", (false, PageDirection)) fields -> (forall s, valid (f s)) ->
  valid (bind_ok (lift (let d := default "forward" (vget_str "direction" args) in
    if bool_decide (d = "forward") then Ok "forward" else if bool_decide (d = "backward") then Ok "backward"
    else Err (invalid_params ("unsupported direction " +:+ dbg d)))) f).
Proof.
  intros I H. destruct (exact_enum _ _ A _ _ I) as (s & V & E). rewrite V. cbn [default]. rewrite !elem_of_cons in E.
  destruct E as [->|[->|[]%not_elem_of_nil]]; apply H.
Qed.
Lemma valid_strings {B} k err e (f : list string -> tool B) : In (k, (false, TVec TString)) fields -> (forall l, valid (f l)) ->
  valid (bind_ok (lift (match vget k args ≫= as_array with Some l => all_strings err l | None => Err e end)) f).
Proof. intros I H. destruct (exact_strings _ _ A k err I) as (l & ss & E & E'). rewrite E, E'. apply H. Qed.
Lemma valid_delete domain name l : forall n (f : Z -> tool json), (forall n, valid (f n)) -> valid (bind (delete_matching domain name l n) f).
Proof.
  induction l as [|v l IH]; intros n f H; [apply H|]. cbn [delete_matching]. destruct (_ || _); [now apply IH|].
  apply valid_ask. intros x. now apply IH.
Qed.
Lemma valid_cookies : In ("tab_id", (false, TString)) fields -> In ("action", (false, CookieAction)) fields -> valid (page_cookies args).
Proof.
  intros I J. unfold page_cookies. apply valid_locate; [exact I|]. destruct (exact_enum _ _ A _ _ J) as (s & V & E).
  unfold required_str. rewrite V. cbn [bind_ok lift bind]. rewrite !elem_of_cons in E.
  destruct E as [->|[->|[->|[]%not_elem_of_nil]]].
  - apply valid_bind; [now apply valid_map_err|]. intros. now apply valid_ret.
  - apply valid_bind; [now apply valid_map_err|]. intros. now apply valid_ret.
  - change (bool_decide ("clear" ∈ ["get"; "list"])) with false. change (bool_decide ("clear" = "set")) with false.
    change (bool_decide ("clear" = "clear")) with true. cbv iota zeta. destruct (_ || _); (apply valid_bind; [now apply valid_map_err|]; intros x); [|now apply valid_ret].
    apply valid_delete. intros n. now apply valid_ret.
Qed.
Lemma valid_storage scope action method : In ("tab_id", (false, TString)) fields -> In scope ["local"; "session"] ->
  In action ["get"; "clear"] \/ In ("key", (false, TString)) fields /\
    (action = "delete" \/ In ("value", (false, TString)) fields /\ In action ["set"; "cas"]) ->
  valid (page_storage_call args scope action method).
Proof.
  intros I S J. unfold page_storage_call. apply valid_gate.
  assert (exists g, (if bool_decide (scope = "local") then Ok "localStorage"
    else if bool_decide (scope = "session") then Ok "sessionStorage" else Err (invalid_params ("unknown storage scope: " +:+ scope))) = Ok g)
    as [g ->] by (destruct S as [<-|[<-|[]]]; eexists; reflexivity).
  cbn [bind_ok lift bind]. apply valid_locate; [exact I|]. apply valid_lift; [|intros js; apply valid_json_eval].
  destruct J as [[<-|[<-|[]]]|(K & [->|(V & [<-|[<-|[]]])])]; try done; destruct (exact_str _ _ A _ K) as [k EK];
    unfold required_str; rewrite EK; try done; destruct (exact_str _ _ A _ V) as [x EV]; now rewrite EV.
Qed.

End Steps.

(** ** The tools *)

Section Tools.
Context `{Env : PageEnv} `{Serde : PageSerde}.

(** The methods whose arguments say all the tool asks of them.  Not among them:
    tools that check a range, a name or the file system beyond the type. *)
Definition plain_methods : list string := [
  "page.snapshot"; "page.screenshot"; "page.read_text"; "page.click"; "page.type"; "page.scroll"; "page.hover"; "page.drag";
  "page.touch.tap"; "page.touch.swipe"; "page.touch.pinch"; "page.touch.rotate"; "page.gesture.pinch"; "page.gesture.rotate";
  "page.gesture.longpress"; "page.keyboard.shortcut"; "page.keyboard.ime"; "page.scroll.precise"; "page.tab_traversal";
  "page.right_click_menu_navigate"; "page.cookies"; "page.localstorage.get"; "page.localstorage.set";
  "page.localstorage.delete"; "page.localstorage.clear"; "page.localstorage.cas"; "page.sessionstorage.get";
  "page.sessionstorage.set"; "page.sessionstorage.delete"; "page.sessionstorage.clear"; "page.sessionstorage.cas";
  "page.indexeddb.list_databases"; "page.indexeddb.list_stores"; "page.indexeddb.query"; "page.indexeddb.put";
  "page.indexeddb.delete"; "page.indexeddb.delete_database"; "page.cache_api.list"; "page.cache_api.inspect";
  "page.cache_api.delete"; "page.storage.quota"; "page.viewport"; "page.geo"; "page.dark_mode"; "page.network_conditions";
  "page.emulate"].
(** The fields of the type published for the method that a function serves. *)
Definition fields_of (method : string) : option (list (string * (bool * ty))) :=
  match find method with Some (mkDesc _ (TStruct fields)) => Some fields | _ => None end.
Definition schema_of (name : string) : option (list (string * (bool * ty))) :=
  m ← List.find (fun m => bool_decide (route m = Some name)) plain_methods; fields_of m.

Ltac field := cbn; solve [repeat (first [left; reflexivity|right])].
Ltac absent := cbn; intuition discriminate.
Ltac valid_step A :=
  cbv zeta;
  lazymatch goal with
  | |- valid (bind_ok (locate_page _) _) => apply (valid_locate _ _ A); [field|]
  | |- valid (bind_ok (require_storage_state_capability _) _) => apply valid_gate
  | |- valid (bind_ok page_origin _) => apply valid_origin; intros ?
  | |- valid (bind_ok (pre_snapshot _ _) _) => apply valid_bind; [apply (valid_snapshot _ _ A); absent|intros ?]
  | |- valid (bind_ok (optional_ref _ _) _) => apply valid_bind; [apply (valid_optional _ _ A); [absent|field]|intros ?]
  | |- valid (bind_ok (lift (required_str _ _)) _) => apply (valid_str _ _ A); [field|intros ?]
  | |- valid (bind_ok (lift (required_f64 _ _)) _) => apply (valid_f64 _ _ A); [field|intros ?]
  | |- valid (bind_ok (lift (resolve_ref _ _ _)) _) => apply valid_lift; [apply (valid_ref _ _ A); field|intros ?]
  | |- valid (bind_ok (lift (resolve_ref_str _ _ _)) _) => apply valid_lift; [apply valid_resolve|intros ?]
  | |- valid (bind_ok (lift (present _ _)) _) => eapply (valid_present _ _ A); [field|reflexivity|intros ?]
  | |- valid (bind_ok (on_page _ _) _) => apply valid_bind; [apply valid_on_page; first [done|apply zero_area_code]|intros ?]
  | |- valid (bind_ok (cdp_or _ _ _ _) _) => apply valid_bind; [apply valid_cdp|intros ?]
  | |- valid (bind_ok (map_err _ _) _) => apply valid_bind; [now apply valid_map_err|intros ?]
  | |- valid (map_err _ _) => now apply valid_map_err
  | |- valid (cdp_or _ _ _ _) => apply valid_cdp
  | |- valid (run_json_eval _ _ _) => apply valid_json_eval
  | |- valid (ok _) => now apply valid_ret
  | |- valid (page_storage_call _ _ _ _) =>
      apply (valid_storage _ _ A); [field|field|first [left; field|right; split; [field|first [left; reflexivity|right; split; field]]]]
  | |- valid (page_cookies _) => apply (valid_cookies _ _ A); field
  | |- valid (bind_ok (lift (scroll_easing _)) _) => apply valid_lift; [apply (valid_easing _ _ A); field|intros ?]
  | |- valid (bind_ok (lift (if bool_decide (default "forward" _ = _) then _ else _)) _) => apply (valid_direction _ _ A); [field|intros ?]
  | |- valid (bind_ok (lift (match vget _ _ ≫= as_array with Some _ => _ | None => _ end)) _) => apply (valid_strings _ _ A); [field|intros ?]
  | |- valid (bind_ok (lift (match vget_str _ _ with Some s => Ok s | None => Err _ end)) _) => apply (valid_get _ _ A); [field|intros ?]
  | |- valid (match ?o with Some _ => _ | None => _ end) => destruct o
  | |- valid (bind (match ?o with Some _ => _ | None => _ end) _) => destruct o; [cbn [bind]|apply valid_ask; intros ?]
  | |- valid (bind_ok (match ?o with Some _ => _ | None => _ end) _) => destruct o
  end.

Ltac head_of f := lazymatch f with ?g _ => head_of g | _ => f end.

Lemma handlers_valid : Forall (fun h => match schema_of (fst h) with
  | Some fields => forall args, exact_args (TStruct fields) args = true -> valid (snd h args)
  | None => True
  end) page_handlers.
Proof.
  unfold page_handlers. for_all; cbn [fst snd];
    (lazymatch goal with |- context [schema_of ?n] => let x := eval vm_compute in (schema_of n) in
       replace (schema_of n) with x by (vm_compute; reflexivity) end);
    lazymatch goal with
    | |- True => exact I
    | |- forall args, _ -> valid (?f args) => intros args A; first [valid_step A|let h := head_of f in unfold h; repeat valid_step A]
    end.
Qed.

Lemma plain_served method : method ∈ plain_methods -> exists name d fields f,
  route method = Some name /\ find method = Some d /\ d_input d = TStruct fields /\ schema_of name = Some fields /\ handler name = Some f.
Proof.
  assert (forallb (fun m => match route m with
    | Some name => bool_decide (List.find (fun m' => bool_decide (route m' = Some name)) plain_methods = Some m) &&
        match fields_of m, handler name with Some _, Some _ => true | _, _ => false end
    | None => false
    end) plain_methods = true) as H by (vm_compute; reflexivity).
  intros M%list_elem_of_In. rewrite forallb_forall in H. specialize (H _ M).
  destruct (route method) as [name|]; [|discriminate]. apply andb_true_iff in H as [E%bool_decide_eq_true G].
  assert (schema_of name = fields_of method) as S by (unfold schema_of; now rewrite E). unfold fields_of in *. destruct (find method) as [[n t]|]; [|discriminate]. destruct t as [| | | | | | | | |fields| |]; try discriminate.
  destruct (handler name) as [g|] eqn:HN; [|discriminate]. exists name, (mkDesc n (TStruct fields)), fields, g. repeat (split; [done|]). done.
Qed.

(** C19: The broker takes what the server publishes: for the tools listed, arguments
    that read as the published type, have no null and no further member are
    never refused as invalid parameters, whatever the page, the session and the
    browser answer. *)
Theorem published_args_accepted method : method ∈ plain_methods -> exists d f,
  find method = Some d /\ page_tool method = Some f /\
  forall args tr r, exact_args (d_input d) args = true -> runs silent (f args) tr r -> accepted r.
Proof.
  intros M. destruct (plain_served _ M) as (name & d & fields & f & R & F & D & S & H). exists d, f.
  split; [exact F|]. split; [unfold page_tool; rewrite R; exact H|]. intros args tr r A.
  pose proof handlers_valid as V. rewrite List.Forall_forall in V. specialize (V _ (handler_in _ _ H)). cbn [fst snd] in V. rewrite S in V.
  apply V. now rewrite <- D.
Qed.

End Tools.
End ToolArgs.

Module ToolArgsExamples.
Import ActionsExamples PageSpecExamples ToolArgs.

Notation click_call := (JObj [("tab_id", JStr "t1"); ("ref", JStr "e0"); ("click_count", JNum 2)]).
Lemma published_args_accepted_witness : exists d f, find "page.click" = Some d /\ page_tool "page.click" = Some f /\
  accepted (snd (exec silent (fun _ => PageSpecExamples.answers None 4 JNull) [] (f click_call))).
Proof.
  assert ("page.click" ∈ plain_methods) as M by (apply (bool_decide_unpack _); vm_compute; exact I).
  destruct (published_args_accepted "page.click" M) as (d & f & F & T & V). exists d, f. split; [exact F|]. split; [exact T|].
  refine (V click_call _ _ _ (exec_runs _ _ _ _)). apply (f_equal (option_map d_input)) in F. injection F as <-. vm_compute. reflexivity.
Defined.

(** The published type makes the user agent optional; the tool requires it. *)
Example user_agent_optional : exists args, exact_args PageUserAgent args = true /\
  snd (exec silent (fun _ => PageSpecExamples.answers None 4 JNull) [] (page_user_agent args))
  = Err (invalid_params "missing user_agent").
Proof. exists (JObj [("tab_id", JStr "t1"); ("platform", JStr "MacIntel")]). split; vm_compute; reflexivity. Qed.
(** A script may run for longer than the server waits for its tool. *)
Example eval_outlives_call : call_options_for "page.eval" < MAX_EVAL_TIMEOUT_MS.
Proof. reflexivity. Qed.

End ToolArgsExamples.
