(* ===== verification/Server.v ===== *)
(** * Server: connections, registration and session lifetime in the broker

    Models [broker/src/server.rs] ([handle_conn]), the registration and
    unregistration handlers of [broker/src/router/session.rs] and the frame of
    [dispatch], together with the lifecycle task of [lifecycle.rs], as one state
    machine.  A connection task runs from one await point to the next in one
    step; an [event] says which task runs and what it finds: the line read, how
    the download, the sandbox preparation and the browser launch ended, what the
    tool returned.  Entries are shared objects: the registry, the connections
    and the lifecycle tasks hold references to them. *)
From S2P Require Import Prelude Json Text BrokerSession Wire Router.
Import JsonTree Wire Router BrokerSession.

Module Server.

Definition LINE_CAP_BYTES : Z := 16 * 1024 * 1024.
Definition DEFAULT_MAX_SESSIONS : Z := 16.

(** ** State *)

Record SessionRegisterParams := mkParams {
  p_client_name : string; p_client_version : string; p_session_id : option string;
  p_capabilities : list string; p_inherit : option (list string); p_network_outbound : option bool;
  p_trace : bool; p_redact_patterns : list string; p_trace_hmac_key : option string;
  p_app_blocklist : list string
}.

(** A session entry: the fields of [BrokerSession.SessionEntry], the privacy
    policy of its app controller, whether it has a sandbox, whether it is traced,
    its lifecycle task, the connection its events go to, and whether its
    terminals, watches and browser were shut down. *)
Record Entry := mkE {
  base : SessionEntry; privacy : list string * list string; sandboxed : bool; trace_enabled : bool;
  lifecycle : option nat; conn : option nat; shut : bool
}.

(** A lifecycle task: running, past its loop, or finished. *)
Inductive task_state : Type := Running | Closing | Done.
Record LifeTask := mkTask {
  t_entry : nat; t_life : life; t_queue : list LifecycleMessage; t_state : task_state
}.

(** What a connection task waits for. *)
Inductive work : Type :=
| Reading
| Resolving (id : json) (p : SessionRegisterParams) (sid : string)
| Launching (id : json) (p : SessionRegisterParams) (sid : string) (sb : bool)
| Tooling (id : json) (method : string) (params : json) (r : nat)
| Unregistering (id : json) (r : nat)
| Gone.

Record Conn := mkConn {
  bound_session : option nat; bound_lifecycle : option nat; c_work : work; c_out : list JsonRpcResponse
}.
Definition conn_new : Conn := mkConn None None Reading [].

Record Broker := mkBroker {
  registry : gmap string nat; entries : gmap nat Entry; tasks : gmap nat LifeTask; conns : gmap nat Conn;
  session_counter : Z; chromium_binary : option string; traces : gset string; counters : Counters;
  session_register_rejected_cap : Z; max_sessions : Z
}.
(** [State::new_with_caps]; the id counter is a static that starts at 1. *)
Definition state_new (cap : Z) : Broker :=
  mkBroker ∅ ∅ ∅ ∅ 1 None ∅ (mkCounters 0 0) 0 (Z.max cap 1).

Definition with_registry (b : Broker) (m : gmap string nat) : Broker :=
  mkBroker m (entries b) (tasks b) (conns b) (session_counter b) (chromium_binary b) (traces b) (counters b)
    (session_register_rejected_cap b) (max_sessions b).
Definition with_entry (b : Broker) (r : nat) (e : Entry) : Broker :=
  mkBroker (registry b) (<[r := e]> (entries b)) (tasks b) (conns b) (session_counter b) (chromium_binary b)
    (traces b) (counters b) (session_register_rejected_cap b) (max_sessions b).
Definition with_task (b : Broker) (t : nat) (k : LifeTask) : Broker :=
  mkBroker (registry b) (entries b) (<[t := k]> (tasks b)) (conns b) (session_counter b) (chromium_binary b)
    (traces b) (counters b) (session_register_rejected_cap b) (max_sessions b).
Definition with_conn (b : Broker) (c : nat) (k : Conn) : Broker :=
  mkBroker (registry b) (entries b) (tasks b) (<[c := k]> (conns b)) (session_counter b) (chromium_binary b)
    (traces b) (counters b) (session_register_rejected_cap b) (max_sessions b).
Definition with_counters (b : Broker) (k : Counters) : Broker :=
  mkBroker (registry b) (entries b) (tasks b) (conns b) (session_counter b) (chromium_binary b)
    (traces b) k (session_register_rejected_cap b) (max_sessions b).
Definition with_binary (b : Broker) (p : option string) : Broker :=
  mkBroker (registry b) (entries b) (tasks b) (conns b) (session_counter b) p
    (traces b) (counters b) (session_register_rejected_cap b) (max_sessions b).
Definition with_traces (b : Broker) (s : gset string) : Broker :=
  mkBroker (registry b) (entries b) (tasks b) (conns b) (session_counter b) (chromium_binary b)
    s (counters b) (session_register_rejected_cap b) (max_sessions b).
Definition reject_cap (b : Broker) : Broker :=
  mkBroker (registry b) (entries b) (tasks b) (conns b) (session_counter b) (chromium_binary b)
    (traces b) (counters b) (wrap_add u64_max (session_register_rejected_cap b) 1) (max_sessions b).
Definition upd_entry (f : Entry -> Entry) (r : nat) (b : Broker) : Broker :=
  match entries b !! r with Some e => with_entry b r (f e) | None => b end.
Definition on_base (f : SessionEntry -> SessionEntry) (e : Entry) : Entry :=
  mkE (f (base e)) (privacy e) (sandboxed e) (trace_enabled e) (lifecycle e) (conn e) (shut e).
Definition set_lifecycle (l : option nat) (e : Entry) : Entry :=
  mkE (base e) (privacy e) (sandboxed e) (trace_enabled e) l (conn e) (shut e).
Definition shut_down (e : Entry) : Entry :=
  mkE (base e) (privacy e) (sandboxed e) (trace_enabled e) (lifecycle e) (conn e) true.

(** [bind_conn] and [unbind_conn]: the channel of a connection. *)
Definition bind_to (c : nat) (e : Entry) : Entry :=
  mkE (bind_conn (base e)) (privacy e) (sandboxed e) (trace_enabled e) (lifecycle e) (Some c) (shut e).
Definition unbind (e : Entry) : Entry :=
  mkE (unbind_conn (base e)) (privacy e) (sandboxed e) (trace_enabled e) (lifecycle e) None (shut e).

(** How many values of a map satisfy [P]. *)
Definition count {A} (P : A -> bool) (m : gmap nat A) : Z :=
  map_fold (fun _ v n => (if P v then 1 else 0) + n) 0 m.
Lemma count_fresh {A} (P : A -> bool) (m : gmap nat A) i x : m !! i = None ->
  count P (<[i := x]> m) = (if P x then 1 else 0) + count P m.
Proof.
  intros H. unfold count. rewrite map_fold_insert_L; [done| |done].
  intros j1 j2 z1 z2 y _ _ _. destruct (P z1), (P z2); lia.
Qed.
Lemma count_replace {A} (P : A -> bool) (m : gmap nat A) i x y : m !! i = Some x ->
  count P (<[i := y]> m) = count P m - (if P x then 1 else 0) + (if P y then 1 else 0).
Proof.
  intros H. rewrite <- (insert_delete_eq m i y), count_fresh by apply lookup_delete_eq.
  pose proof (count_fresh P (delete i m) i x (lookup_delete_eq m i)) as E. rewrite (insert_delete_id m i x H) in E. lia.
Qed.
Lemma count_bound {A} (P : A -> bool) (m : gmap nat A) : 0 <= count P m.
Proof.
  induction m as [|i x m Hi IH] using map_ind; [done|]. rewrite count_fresh by done. destruct (P x); lia.
Qed.
Lemma count_sub {A} (P Q : A -> bool) (m : gmap nat A) : (forall x, P x = true -> Q x = true) -> count P m <= count Q m.
Proof.
  intros HPQ. induction m as [|i x m Hi IH] using map_ind; [done|]. rewrite !count_fresh by done.
  specialize (HPQ x). destruct (P x); [rewrite HPQ by done|destruct (Q x)]; lia.
Qed.

(** A fresh reference. *)
Definition fresh_ref {A} (m : gmap nat A) : nat := fresh (dom m).

(** ** Lifecycle tasks *)

(** [tx.send]: lost when the task no longer receives. *)
Definition notify (t : nat) (m : LifecycleMessage) (b : Broker) : Broker :=
  match tasks b !! t with
  | Some k => match t_state k with
              | Running => with_task b t (mkTask (t_entry k) (t_life k) (t_queue k ++ [m]) Running)
              | Closing | Done => b
              end
  | None => b
  end.
Definition spawn_lifecycle (r : nat) (b : Broker) : nat * Broker :=
  let t := fresh_ref (tasks b) in
  (t, upd_entry (set_lifecycle (Some t)) r (with_task b t (mkTask r (mkLife 0 None) [] Running))).

(** ** Registration *)

(** [format!("s_{n:x}")] of the counter before it is advanced. *)
Definition session_id_of (n : Z) : string := "s_" +:+ String.string_of_list_byte (Text.fmt_hex n).
Definition allocate_session_id (b : Broker) : string * Broker :=
  (session_id_of (session_counter b),
   mkBroker (registry b) (entries b) (tasks b) (conns b) (wrap_add u64_max (session_counter b) 1)
     (chromium_binary b) (traces b) (counters b) (session_register_rejected_cap b) (max_sessions b)).

Definition strings (l : list string) : json := JArr (map JStr l).
Definition register_result (version sid : string) : json :=
  JObj [("session_id", JStr sid); ("broker_version", JStr version);
        ("supported_methods", strings supported_methods); ("supported_events", strings supported_events)].

Inductive SandboxPrepError : Type := Disabled (reason : string) | Fatal (e : string).

(** [set_capabilities] and [install_privacy]. *)
Definition install (p : SessionRegisterParams) (e : Entry) : Entry :=
  mkE (set_capabilities (base e) (p_capabilities p)) (p_app_blocklist p, p_redact_patterns p) (sandboxed e)
    (trace_enabled e) (lifecycle e) (conn e) (shut e).

Section Handlers.
(** serde_json's readers, the crate version, the answers of the three
    [_internal] methods, and when a drain starts to elapse. *)
Variable de_request : list byte -> result JsonRpcRequest string.
Variable de_params : json -> result SessionRegisterParams string.
Variable version : string.
Variable internal_answer : string -> Broker -> json.
Variable drain_after : Z.

(** The reply of a request that waits no longer. *)
Definition finish (c : nat) (resp : JsonRpcResponse) (b : Broker) : Broker :=
  match conns b !! c with
  | Some k => with_conn b c (mkConn (bound_session k) (bound_lifecycle k) Reading (c_out k ++ [resp]))
  | None => b
  end.
Definition wait_on (c : nat) (w : work) (b : Broker) : Broker :=
  match conns b !! c with
  | Some k => with_conn b c (mkConn (bound_session k) (bound_lifecycle k) w (c_out k))
  | None => b
  end.

(** The end of [handle_conn]. *)
Definition disconnect (c : nat) (b : Broker) : Broker :=
  match conns b !! c with
  | Some k =>
      let b := match bound_session k with Some r => upd_entry unbind r b | None => b end in
      let b := match bound_lifecycle k with Some t => notify t Disconnected b | None => b end in
      with_conn b c (mkConn (bound_session k) None Gone (c_out k))
  | None => b
  end.

(** After [session.register] was answered with a session that is registered. *)
Definition bind_registered (c : nat) (resp : JsonRpcResponse) (b : Broker) : Broker :=
  match rs_result resp ≫= vget_str "session_id" with
  | Some sid =>
      match registry b !! sid with
      | Some r =>
          match entries b !! r, conns b !! c with
          | Some e, Some k =>
              let '(t, b) := match lifecycle e with Some t => (t, b) | None => spawn_lifecycle r b end in
              let b := upd_entry (bind_to c) r (notify t Connected b) in
              with_conn b c (mkConn (Some r) (Some t) (c_work k) (c_out k))
          | _, _ => b
          end
      | None => b
      end
  | None => b
  end.
Definition finish_register (c : nat) (resp : JsonRpcResponse) (b : Broker) : Broker :=
  finish c resp (bind_registered c resp b).

Definition session_limit (id : json) (max : Z) : JsonRpcResponse :=
  response_err id SessionLimitExceeded
    ("session cap reached (" +:+ String.string_of_list_byte (Text.fmt_dec max) +:+ " active)")
    (Some (JObj [("max_sessions", JNum max)])).
Definition session_missing (id : json) (sid : string) : JsonRpcResponse :=
  response_err id SessionNotFound ("requested session_id " +:+ sid +:+ " not found")
    (Some (JObj [("session_id", JStr sid)])).

(** [handle_session_register] up to its first await. *)
Definition handle_session_register (c : nat) (id : json) (params : option json) (b : Broker) : Broker :=
  match params with
  | None => finish_register c (response_err id InvalidParams "session.register requires params" None) b
  | Some v =>
      match de_params v with
      | Err e => finish_register c (response_err id InvalidParams ("session.register params: " +:+ e) None) b
      | Ok p =>
          match p_session_id p with
          | Some sid =>
              match registry b !! sid with
              | None => finish_register c (session_missing id sid) b
              | Some r => finish_register c (response_ok id (register_result version sid)) (upd_entry (install p) r b)
              end
          | None =>
              if max_sessions b <=? Z.of_nat (size (registry b))
              then finish_register c (session_limit id (max_sessions b)) (reject_cap b)
              else let '(sid, b) := allocate_session_id b in wait_on c (Resolving id p sid) b
          end
      end
  end.

(** [resolve_chromium] and [prepare_session_sandbox] have returned. *)
Definition resolved (c : nat) (fetched : result string string) (sandbox : result unit SandboxPrepError)
    (b : Broker) : Broker :=
  match option_map c_work (conns b !! c) with
  | Some (Resolving id p sid) =>
      let binary := match chromium_binary b with Some q => Ok q | None => fetched end in
      match binary with
      | Err e => finish_register c
                   (response_err id ChromiumLaunchFailed ("chromium binary not available: " +:+ e) None) b
      | Ok q =>
          let b := with_binary b (Some q) in
          match sandbox with
          | Err (Fatal e) => finish_register c
                               (response_err id ChromiumLaunchFailed ("session sandbox prep: " +:+ e) None) b
          | Err (Disabled _) => wait_on c (Launching id p sid false) b
          | Ok _ => wait_on c (Launching id p sid true) b
          end
      end
  | _ => b
  end.

(** [Browser::launch] has returned: the rest of [handle_session_register].
    [trace_ok]: whether the trace writer starts. *)
Definition launched (c : nat) (launch : result unit string) (trace_ok : bool) (now : Z) (b : Broker) : Broker :=
  match option_map c_work (conns b !! c) with
  | Some (Launching id p sid sb) =>
      match launch with
      | Err e => finish_register c (response_err id ChromiumLaunchFailed ("Browser::launch: " +:+ e) None) b
      | Ok _ =>
          let r := fresh_ref (entries b) in
          let traced := p_trace p && trace_ok in
          let e := install p (mkE (entry_new sid now) ([], []) sb traced None None false) in
          let b := with_registry (with_entry b r e) (<[sid := r]> (registry b)) in
          let b := if traced then with_traces b (traces b ∪ {[sid]}) else b in
          finish_register c (response_ok id (register_result version sid)) b
      end
  | _ => b
  end.

(** ** Unregistration *)

Definition handle_session_unregister (c : nat) (id : json) (s : option nat) (b : Broker) : Broker :=
  match s with
  | None => finish c (response_ok id (JObj [("closed", JBool true)])) b
  | Some r =>
      let b := match entries b !! r with
               | Some e =>
                   match lifecycle e with
                   | Some t => notify t Shutdown (upd_entry (set_lifecycle None) r b)
                   | None => b
                   end
               | None => b
               end in
      wait_on c (Unregistering id r) b
  end.
(** The terminals, the trace writer and the browser have shut down. *)
Definition unregistered (c : nat) (b : Broker) : Broker :=
  match option_map c_work (conns b !! c) with
  | Some (Unregistering id r) =>
      let b := match entries b !! r with
               | Some e =>
                   let sid := session_id (base e) in
                   let b := with_traces (with_entry b r (shut_down e)) (traces b ∖ {[sid]}) in
                   with_registry b (delete sid (registry b))
               | None => b
               end in
      finish c (response_ok id (JObj [("closed", JBool true)])) b
  | _ => b
  end.

(** ** Tools *)

(** A tool has returned. *)
Definition tool_done (c : nat) (r : result json RouterError) (now : Z) (b : Broker) : Broker :=
  match option_map c_work (conns b !! c) with
  | Some (Tooling id m params s) =>
      let '(resp, k) := dispatch_end id r (counters b) in
      let b := with_counters b k in
      let b := match r with Ok _ => upd_entry (on_base (fun e => touch e now)) s b | Err _ => b end in
      finish c resp b
  | _ => b
  end.

(** ** Reading *)

(** [trim_end_matches('\n').trim_end_matches('\r')] *)
Fixpoint trim_end (x : byte) (l : list byte) : list byte :=
  match l with
  | [] => []
  | y :: l => match trim_end x l with
              | [] => if bool_decide (x = y) then [] else [y]
              | l' => y :: l'
              end
  end.
Definition trim_line (l : list byte) : list byte := trim_end Byte.x0d (trim_end Byte.x0a l).

Definition parse_err (msg : string) : JsonRpcResponse := response_err JNull ParseError msg None.

(** One line, up to the next await. *)
Definition on_request (c : nat) (k : Conn) (req : JsonRpcRequest) (now : Z) (b : Broker) : Broker :=
  match dispatch_begin (bool_decide (is_Some (bound_session k))) req with
  | DNone => b
  | DRegister id params => handle_session_register c id params b
  | DUnregister id => handle_session_unregister c id (bound_session k) b
  | DInternal id m => finish c (response_ok id (internal_answer m b)) b
  | DNoSession resp => finish c resp b
  | DTool id m tool params =>
      match bound_session k with
      | Some r => wait_on c (Tooling id m params r) (upd_entry (on_base (fun e => touch e now)) r b)
      | None => b
      end
  | DUnknown id e =>
      let b := match bound_session k with
               | Some r => upd_entry (on_base (fun e => touch e now)) r b
               | None => b
               end in
      let '(resp, cs) := dispatch_end id (Err e) (counters b) in
      finish c resp (with_counters b cs)
  end.
Definition on_line (c : nat) (k : Conn) (line : list byte) (now : Z) (b : Broker) : Broker :=
  if LINE_CAP_BYTES <? zlen line then
    finish c (parse_err ("line " +:+ String.string_of_list_byte (Text.fmt_dec (zlen line)) +:+ " bytes exceeds 16 MB cap")) b
  else
    match trim_line line with
    | [] => b
    | trimmed =>
        match de_request trimmed with
        | Err e => finish c (parse_err ("parse error: " +:+ e)) b
        | Ok req => on_request c k req now b
        end
    end.

(** ** The machine *)

Inductive event : Type :=
| Accept
| Line (c : nat) (line : list byte) (now : Z)      (* the connection reads a line *)
| Eof (c : nat)                                    (* or finds the end, or its writer closed *)
| ReadError (c : nat)                              (* or an error: not UTF-8, or the socket's *)
| Resolved (c : nat) (fetched : result string string) (sandbox : result unit SandboxPrepError)
| Launched (c : nat) (launch : result unit string) (trace_ok : bool) (now : Z)
| ToolDone (c : nat) (r : result json RouterError) (now : Z)
| Unregistered (c : nat)
| LifeMessage (t : nat) (now : Z)                  (* the task receives the next message *)
| LifeDrain (t : nat) (now : Z)                    (* its deadline has passed *)
| LifeExit (t : nat).                              (* its shutdowns are done *)

(** The loop of the lifecycle task is left. *)
Definition close_task (t : nat) (k : LifeTask) (b : Broker) : Broker :=
  upd_entry (set_lifecycle None) (t_entry k) (with_task b t (mkTask (t_entry k) (t_life k) (t_queue k) Closing)).

Definition step (ev : event) (b : Broker) : Broker :=
  match ev with
  | Accept => with_conn b (fresh_ref (conns b)) conn_new
  | Line c line now =>
      match conns b !! c with
      | Some k => match c_work k with Reading => on_line c k line now b | _ => b end
      | None => b
      end
  | Eof c =>
      match conns b !! c with
      | Some k => match c_work k with Reading => disconnect c b | _ => b end
      | None => b
      end
  | ReadError c =>
      match conns b !! c with
      | Some k => match c_work k with
                  | Reading => with_conn b c (mkConn (bound_session k) (bound_lifecycle k) Gone (c_out k))
                  | _ => b
                  end
      | None => b
      end
  | Resolved c fetched sandbox => resolved c fetched sandbox b
  | Launched c launch trace_ok now => launched c launch trace_ok now b
  | ToolDone c r now => tool_done c r now b
  | Unregistered c => unregistered c b
  | LifeMessage t now =>
      match tasks b !! t with
      | Some k =>
          match t_state k, t_queue k with
          | Running, m :: q =>
              match on_message drain_after (t_life k) now m with
              | Some l => with_task b t (mkTask (t_entry k) l q Running)
              | None => close_task t k b
              end
          | _, _ => b
          end
      | None => b
      end
  | LifeDrain t now =>
      match tasks b !! t with
      | Some k =>
          match t_state k, drain_deadline (t_life k) with
          | Running, Some d => if d <=? now then close_task t k b else b
          | _, _ => b
          end
      | None => b
      end
  | LifeExit t =>
      match tasks b !! t with
      | Some k =>
          match t_state k with
          | Closing =>
              let b := with_task b t (mkTask (t_entry k) (t_life k) (t_queue k) Done) in
              match entries b !! t_entry k with
              | Some e => with_registry (with_entry b (t_entry k) (shut_down e))
                            (delete (session_id (base e)) (registry b))
              | None => b
              end
          | _ => b
          end
      | None => b
      end
  end.
Definition run (cap : Z) (evs : list event) : Broker := foldl (fun b ev => step ev b) (state_new cap) evs.

(** ** What the primitives leave alone *)

Lemma upd_entry_frame f r b :
  registry (upd_entry f r b) = registry b /\ conns (upd_entry f r b) = conns b /\
  tasks (upd_entry f r b) = tasks b /\ max_sessions (upd_entry f r b) = max_sessions b /\
  session_counter (upd_entry f r b) = session_counter b.
Proof. unfold upd_entry. now destruct (entries b !! r). Qed.
Lemma notify_frame t m b :
  registry (notify t m b) = registry b /\ conns (notify t m b) = conns b /\
  entries (notify t m b) = entries b /\ max_sessions (notify t m b) = max_sessions b /\
  session_counter (notify t m b) = session_counter b.
Proof. unfold notify. destruct (tasks b !! t) as [k|]; [|done]. now destruct (t_state k). Qed.
Lemma spawn_frame r b t b' : spawn_lifecycle r b = (t, b') ->
  registry b' = registry b /\ conns b' = conns b /\ max_sessions b' = max_sessions b /\
  session_counter b' = session_counter b.
Proof.
  unfold spawn_lifecycle. intros E. injection E as _ <-.
  destruct (upd_entry_frame (set_lifecycle (Some (fresh_ref (tasks b)))) r
    (with_task b (fresh_ref (tasks b)) (mkTask r (mkLife 0 None) [] Running))) as (-> & -> & _ & -> & ->). done.
Qed.

(** A connection bound: its work and what it has sent stay. *)
Lemma bind_frame c resp b :
  let b' := bind_registered c resp b in
  registry b' = registry b /\ max_sessions b' = max_sessions b /\ session_counter b' = session_counter b /\
  (conns b' = conns b \/ exists k k', conns b !! c = Some k /\ conns b' = <[c := k']> (conns b) /\
     c_work k' = c_work k /\ c_out k' = c_out k).
Proof.
  cbv zeta. unfold bind_registered. destruct (rs_result resp ≫= vget_str "session_id") as [sid|]; [|auto].
  destruct (registry b !! sid) as [r|]; [|auto]. destruct (entries b !! r) as [e|]; [|auto].
  destruct (conns b !! c) as [k|] eqn:Ek; [|auto].
  destruct (match lifecycle e with Some t => (t, b) | None => spawn_lifecycle r b end) as [t b1] eqn:E1.
  assert (registry b1 = registry b /\ conns b1 = conns b /\ max_sessions b1 = max_sessions b /\
          session_counter b1 = session_counter b) as (R & C & M & S).
  { destruct (lifecycle e); [injection E1 as _ <-; auto|now apply spawn_frame in E1]. }
  destruct (upd_entry_frame (bind_to c) r (notify t Connected b1)) as (R2 & C2 & _ & M2 & S2).
  destruct (notify_frame t Connected b1) as (R1 & C1 & _ & M1 & S1). cbn.
  rewrite R2, R1, R, C2, C1, C, M2, M1, M, S2, S1, S. split_and!; try done. right. eauto 10.
Qed.

(** ** Replies *)

(** The id that a line asks to be answered with. *)
Definition reply_id (line : list byte) : option json :=
  if LINE_CAP_BYTES <? zlen line then Some JNull
  else match trim_line line with
       | [] => None
       | trimmed => match de_request trimmed with Err _ => Some JNull | Ok req => rq_id req end
       end.
Definition awaiting (w : work) : list json :=
  match w with
  | Resolving id _ _ | Launching id _ _ _ | Tooling id _ _ _ | Unregistering id _ => [id]
  | Reading | Gone => []
  end.
(** The ids answered, and the one being worked on. *)
Definition ids (k : Conn) : list json := map rs_id (c_out k) ++ awaiting (c_work k).

(** The lines connection [c] reads in a run. *)
Definition read_by (c : nat) (ev : event) (b : Broker) : list (list byte) :=
  match ev with
  | Line c' line _ =>
      if bool_decide (c' = c)
      then match option_map c_work (conns b !! c) with Some Reading => [line] | _ => [] end
      else []
  | _ => []
  end.
Fixpoint reads (c : nat) (b : Broker) (evs : list event) : list (list byte) :=
  match evs with
  | [] => []
  | ev :: evs => read_by c ev b ++ reads c (step ev b) evs
  end.

(** [b'] differs from [b] at connection [c] only, where [k'] now is. *)
Definition moves (c : nat) (k' : Conn) (b b' : Broker) : Prop :=
  forall c', conns b' !! c' = if bool_decide (c' = c) then Some k' else conns b !! c'.

Lemma moves_insert c k' b b' : conns b' = <[c := k']> (conns b) -> moves c k' b b'.
Proof.
  intros E c'. rewrite E. case_bool_decide as H; [subst; now rewrite lookup_insert_eq|now rewrite lookup_insert_ne by auto].
Qed.
Lemma moves_frame c k' b b0 b' : conns b0 = conns b -> moves c k' b0 b' -> moves c k' b b'.
Proof. intros E M c'. rewrite (M c'). now rewrite E. Qed.
Lemma moves_trans c k1 k2 b b1 b2 : moves c k1 b b1 -> moves c k2 b1 b2 -> moves c k2 b b2.
Proof. intros M1 M2 c'. rewrite (M2 c'), (M1 c'). now case_bool_decide. Qed.

Lemma finish_moves c resp b k : conns b !! c = Some k ->
  exists k', moves c k' b (finish c resp b) /\ c_work k' = Reading /\ ids k' = map rs_id (c_out k) ++ [rs_id resp].
Proof.
  intros E. unfold finish. rewrite E. eexists. split; [now apply moves_insert|]. split; [done|].
  unfold ids. cbn. now rewrite map_app, app_nil_r.
Qed.
Lemma wait_moves c w b k : conns b !! c = Some k ->
  exists k', moves c k' b (wait_on c w b) /\ c_work k' = w /\ ids k' = map rs_id (c_out k) ++ awaiting w.
Proof. intros E. unfold wait_on. rewrite E. eexists. split; [now apply moves_insert|]. done. Qed.
Lemma finish_register_moves c resp b k : conns b !! c = Some k ->
  exists k', moves c k' b (finish_register c resp b) /\ c_work k' = Reading /\ ids k' = map rs_id (c_out k) ++ [rs_id resp].
Proof.
  intros E. unfold finish_register. destruct (bind_frame c resp b) as (_ & _ & _ & [C|(k0 & k1 & Hk & C & _ & O)]).
  - destruct (finish_moves c resp (bind_registered c resp b) k) as (k' & M & W & I); [congruence|].
    exists k'. split; [now apply (moves_frame c k' b _ _ C)|done].
  - rewrite E in Hk. injection Hk as <-.
    destruct (finish_moves c resp (bind_registered c resp b) k1) as (k' & M & W & I); [rewrite C; apply lookup_insert_eq|].
    exists k'. split; [exact (moves_trans c k1 k' _ _ _ (moves_insert _ _ _ _ C) M)|]. now rewrite O in I.
Qed.

(** A request of id [i] at connection [c] is answered or waits. *)
Definition takes (c : nat) (i : json) (k : Conn) (b b' : Broker) : Prop :=
  exists k', moves c k' b b' /\ ids k' = map rs_id (c_out k) ++ [i].
Lemma takes_finish c i k b0 b resp : conns b0 = conns b -> conns b !! c = Some k -> rs_id resp = i ->
  takes c i k b (finish c resp b0).
Proof.
  intros C E <-. rewrite <- C in E. destruct (finish_moves c resp b0 k E) as (k' & M & _ & I).
  exists k'. split; [exact (moves_frame c k' b b0 _ C M)|done].
Qed.
Lemma takes_register c i k b0 b resp : conns b0 = conns b -> conns b !! c = Some k -> rs_id resp = i ->
  takes c i k b (finish_register c resp b0).
Proof.
  intros C E <-. rewrite <- C in E. destruct (finish_register_moves c resp b0 k E) as (k' & M & _ & I).
  exists k'. split; [exact (moves_frame c k' b b0 _ C M)|done].
Qed.
Lemma takes_wait c i k b0 b w : conns b0 = conns b -> conns b !! c = Some k -> awaiting w = [i] ->
  takes c i k b (wait_on c w b0).
Proof.
  intros C E A. rewrite <- C in E. destruct (wait_moves c w b0 k E) as (k' & M & _ & I).
  exists k'. split; [exact (moves_frame c k' b b0 _ C M)|now rewrite <- A].
Qed.

Lemma register_takes c i params k b : conns b !! c = Some k -> takes c i k b (handle_session_register c i params b).
Proof.
  intros E. unfold handle_session_register. destruct params as [v|]; [|now apply takes_register].
  destruct (de_params v) as [p|e]; [|now apply takes_register].
  destruct (p_session_id p) as [sid|].
  - destruct (registry b !! sid) as [r|]; [|now apply takes_register].
    apply takes_register; [apply upd_entry_frame|done|done].
  - case_match; [now apply takes_register|]. cbn. now apply takes_wait.
Qed.
Lemma unregister_takes c i s k b : conns b !! c = Some k -> takes c i k b (handle_session_unregister c i s b).
Proof.
  intros E. unfold handle_session_unregister. destruct s as [r|]; [|now apply takes_finish].
  apply takes_wait; [|done|done]. destruct (entries b !! r) as [e|]; [|done]. destruct (lifecycle e) as [t|]; [|done].
  destruct (notify_frame t Shutdown (upd_entry (set_lifecycle None) r b)) as (_ & -> & _). apply upd_entry_frame.
Qed.

(** What is being worked on is answered by what runs next, or goes on. *)
Lemma resolved_takes c f sb b : resolved c f sb b = b \/
  exists k i, conns b !! c = Some k /\ awaiting (c_work k) = [i] /\ takes c i k b (resolved c f sb b).
Proof.
  unfold resolved. destruct (conns b !! c) as [k|] eqn:E; [|now left]. cbn.
  destruct (c_work k) as [| i p sid| | | |] eqn:W; try now left. right. exists k, i. rewrite W.
  split; [done|]. split; [done|]. repeat case_match; first [now apply takes_register | now apply takes_wait].
Qed.
Lemma launched_takes c l tr now b : launched c l tr now b = b \/
  exists k i, conns b !! c = Some k /\ awaiting (c_work k) = [i] /\ takes c i k b (launched c l tr now b).
Proof.
  unfold launched. destruct (conns b !! c) as [k|] eqn:E; [|now left]. cbn.
  destruct (c_work k) as [| | i p sid sb| | |] eqn:W; try now left. right. exists k, i. rewrite W.
  split; [done|]. split; [done|]. cbv zeta. repeat case_match; now apply takes_register.
Qed.
Lemma tool_done_takes c r now b : tool_done c r now b = b \/
  exists k i, conns b !! c = Some k /\ awaiting (c_work k) = [i] /\ takes c i k b (tool_done c r now b).
Proof.
  unfold tool_done. destruct (conns b !! c) as [k|] eqn:E; [|now left]. cbn.
  destruct (c_work k) as [| | |i m ps s| |] eqn:W; try now left. right. exists k, i. rewrite W.
  split; [done|]. split; [done|]. destruct r as [v|e]; cbn.
  - apply takes_finish; [|done|done]. exact (proj1 (proj2 (upd_entry_frame _ s _))).
  - now apply takes_finish.
Qed.
Lemma unregistered_takes c b : unregistered c b = b \/
  exists k i, conns b !! c = Some k /\ awaiting (c_work k) = [i] /\ takes c i k b (unregistered c b).
Proof.
  unfold unregistered. destruct (conns b !! c) as [k|] eqn:E; [|now left]. cbn.
  destruct (c_work k) as [| | | |i s|] eqn:W; try now left. right. exists k, i. rewrite W.
  split; [done|]. split; [done|]. apply takes_finish; [|done|done]. now destruct (entries b !! s).
Qed.

(** A line that asks for no reply changes nothing; any other is taken. *)
Lemma line_takes c k line now b : conns b !! c = Some k -> c_work k = Reading ->
  match reply_id line with
  | None => on_line c k line now b = b
  | Some i => takes c i k b (on_line c k line now b)
  end.
Proof.
  intros E W. unfold reply_id, on_line. destruct (LINE_CAP_BYTES <? zlen line); [now apply takes_finish|].
  destruct (trim_line line) as [|x l] eqn:T; [done|]. destruct (de_request (x :: l)) as [req|e]; [|now apply takes_finish].
  unfold on_request. destruct (rq_id req) as [i|] eqn:I; [|unfold dispatch_begin; now rewrite I].
  set (has := bool_decide (is_Some (bound_session k))). pose proof (dispatch_begin_cases has req i I) as C.
  destruct (dispatch_begin has req) as [| j ps | j | j m | resp | j m t ps | j er].
  - done.
  - destruct C as (-> & _). now apply register_takes.
  - destruct C as (-> & _). now apply unregister_takes.
  - destruct C as (-> & _). now apply takes_finish.
  - destruct C as (_ & R & _). now apply takes_finish.
  - destruct C as (Hh & -> & _). unfold has in Hh. apply bool_decide_eq_true in Hh as [r Hr]. rewrite Hr.
    apply takes_wait; [apply upd_entry_frame|done|done].
  - destruct C as (_ & -> & _). cbn. apply takes_finish; [|done|done].
    destruct (bound_session k) as [r|]; [|done]. apply (upd_entry_frame _ r b).
Qed.

(** [x] shows connection [c] with [l] more answers than [b] does. *)
Definition grows (c : nat) (l : list json) (b x : Broker) : Prop :=
  match conns b !! c with
  | Some k => exists k', conns x !! c = Some k' /\ ids k' = ids k ++ l
  | None => l = [] /\ forall k', conns x !! c = Some k' -> ids k' = []
  end.

Lemma grows_same c b x : conns x = conns b -> grows c [] b x.
Proof.
  intros C. unfold grows. rewrite C. destruct (conns b !! c) as [k|]; [exists k; now rewrite app_nil_r|].
  split; [done|]. discriminate.
Qed.
Lemma grows_move c c0 k0 k1 b x l : conns b !! c0 = Some k0 -> moves c0 k1 b x ->
  (c0 = c -> ids k1 = ids k0 ++ l) -> (c0 <> c -> l = []) -> grows c l b x.
Proof.
  intros E M Hi Hn. unfold grows. rewrite (M c). case_bool_decide as D.
  - subst c0. rewrite E. exists k1. split; [done|]. now apply Hi.
  - rewrite Hn by auto. destruct (conns b !! c) as [k|]; [exists k; now rewrite app_nil_r|]. split; [done|]. discriminate.
Qed.
Lemma grows_takes c c0 b x : x = b \/ (exists k i, conns b !! c0 = Some k /\ awaiting (c_work k) = [i] /\ takes c0 i k b x) ->
  grows c [] b x.
Proof.
  intros [->|(k & i & E & A & k1 & M & I)]; [now apply grows_same|].
  apply (grows_move c c0 k k1); [done|done| |done]. intros _. rewrite I, app_nil_r. unfold ids. now rewrite A.
Qed.
Lemma grows_line c c0 k line now b : conns b !! c0 = Some k -> c_work k = Reading ->
  grows c (omap reply_id (read_by c (Line c0 line now) b)) b (on_line c0 k line now b).
Proof.
  intros E W. pose proof (line_takes c0 k line now b E W) as T. cbn [read_by]. case_bool_decide as D.
  - subst c0. rewrite E. cbn [option_map]. rewrite W. cbn. destruct (reply_id line) as [i|]; [|rewrite T; now apply grows_same].
    destruct T as (k1 & M & I). apply (grows_move c c k k1); [done|done| |done].
    intros _. rewrite I. unfold ids. rewrite W. cbn. now rewrite app_nil_r.
  - cbn. destruct (reply_id line) as [i|]; [|rewrite T; now apply grows_same].
    destruct T as (k1 & M & I). now apply (grows_move c c0 k k1).
Qed.
Lemma grows_gone c c0 k k' b b0 : conns b !! c0 = Some k -> c_work k = Reading -> conns b0 = conns b ->
  c_work k' = Gone -> c_out k' = c_out k -> grows c [] b (with_conn b0 c0 k').
Proof.
  intros E W C Wk O. apply (grows_move c c0 k k'); [done| | |done].
  - apply (moves_frame c0 k' b b0 _ C). now apply moves_insert.
  - intros _. unfold ids. now rewrite W, Wk, O, !app_nil_r.
Qed.

Lemma disconnect_conns c k b : conns b !! c = Some k -> exists b0, conns b0 = conns b /\
  disconnect c b = with_conn b0 c (mkConn (bound_session k) None Gone (c_out k)).
Proof.
  intros E. unfold disconnect. rewrite E. cbv zeta. eexists. split; [|reflexivity].
  destruct (bound_lifecycle k) as [t|]; [destruct (notify_frame t Disconnected
    (match bound_session k with Some r => upd_entry unbind r b | None => b end)) as (_ & -> & _)|];
    (destruct (bound_session k); [apply upd_entry_frame|done]).
Qed.
Lemma close_task_frame t k b : conns (close_task t k b) = conns b /\ registry (close_task t k b) = registry b /\
  max_sessions (close_task t k b) = max_sessions b /\ session_counter (close_task t k b) = session_counter b.
Proof.
  unfold close_task. destruct (upd_entry_frame (set_lifecycle None) (t_entry k)
    (with_task b t (mkTask (t_entry k) (t_life k) (t_queue k) Closing))) as (-> & -> & _ & -> & ->). done.
Qed.
(** The lifecycle tasks touch no connection and only take sessions away. *)
Definition life_event (ev : event) : bool :=
  match ev with LifeMessage _ _ | LifeDrain _ _ | LifeExit _ => true | _ => false end.
Lemma life_frame ev b : life_event ev = true ->
  conns (step ev b) = conns b /\ max_sessions (step ev b) = max_sessions b /\
  session_counter (step ev b) = session_counter b /\ registry (step ev b) ⊆ registry b.
Proof.
  destruct ev as [| | | | | | | |t now|t now|t]; try discriminate; intros _; cbn [step];
    (destruct (tasks b !! t) as [k|]; [|done]); (destruct (t_state k); try done).
  - destruct (t_queue k) as [|m q]; [done|]. destruct (on_message _ _ _ _); [done|].
    destruct (close_task_frame t k b) as (-> & -> & -> & ->). done.
  - destruct (drain_deadline (t_life k)) as [d|]; [|done]. destruct (d <=? now); [|done].
    destruct (close_task_frame t k b) as (-> & -> & -> & ->). done.
  - cbn. destruct (entries b !! t_entry k) as [e|]; [|done]. cbn. split_and!; try done. apply delete_subseteq.
Qed.

Lemma grows_accept c b : grows c [] b (step Accept b).
Proof.
  unfold grows. cbn. unfold fresh_ref. destruct (decide (fresh (dom (conns b)) = c)) as [<-|N].
  - assert (conns b !! fresh (dom (conns b)) = None) as -> by (apply not_elem_of_dom, is_fresh).
    split; [done|]. intros k' H. rewrite lookup_insert_eq in H. now injection H as <-.
  - rewrite lookup_insert_ne by done. destruct (conns b !! c) as [k|]; [exists k; now rewrite app_nil_r|].
    split; [done|]. discriminate.
Qed.

(** How one step changes what a connection has answered. *)
Lemma step_grows ev b c : grows c (omap reply_id (read_by c ev b)) b (step ev b).
Proof.
  destruct ev as [|c0 line now|c0|c0|c0 f sb|c0 l tr now|c0 r now|c0|t now|t now|t].
  - apply grows_accept.
  - cbn [step]. destruct (conns b !! c0) as [k|] eqn:E.
    2:{ cbn. case_bool_decide as D; [subst; rewrite E|]; now apply grows_same. }
    destruct (c_work k) eqn:W; try (cbn; case_bool_decide as D; [subst; rewrite E; cbn; rewrite W|]; now apply grows_same).
    now apply grows_line.
  - cbn. destruct (conns b !! c0) as [k|] eqn:E; [|now apply grows_same]. destruct (c_work k) eqn:W; try now apply grows_same.
    destruct (disconnect_conns c0 k b E) as (b0 & C & ->). now apply (grows_gone c c0 k).
  - cbn. destruct (conns b !! c0) as [k|] eqn:E; [|now apply grows_same]. destruct (c_work k) eqn:W; try now apply grows_same.
    now apply (grows_gone c c0 k).
  - apply (grows_takes c c0), resolved_takes.
  - apply (grows_takes c c0), launched_takes.
  - apply (grows_takes c c0), tool_done_takes.
  - apply (grows_takes c c0), unregistered_takes.
  - now apply grows_same, life_frame.
  - now apply grows_same, life_frame.
  - now apply grows_same, life_frame.
Qed.

Lemma run_ids evs c : forall b k', conns (foldl (fun b ev => step ev b) b evs) !! c = Some k' ->
  ids k' = default [] (ids <$> conns b !! c) ++ omap reply_id (reads c b evs).
Proof.
  induction evs as [|ev evs IH]; intros b k' H; cbn [reads foldl] in *.
  - rewrite H. cbn. now rewrite app_nil_r.
  - rewrite (IH _ _ H), omap_app, (assoc_L (++)). f_equal. pose proof (step_grows ev b c) as S. unfold grows in S.
    destruct (conns b !! c) as [k|]; cbn.
    + destruct S as (k1 & -> & I). exact I.
    + destruct S as [-> S]. destruct (conns (step ev b) !! c) as [k1|]; [|done]. cbn. now apply S.
Qed.

(** C7: every request is answered once, in order: whatever lines any number of
    connections send and however registrations, tools, shutdowns and drains
    interleave, the ids of the replies queued on a connection, followed by the
    id of the request it is working on, are exactly the ids of the lines it has
    read that ask for an answer: the id of each request that has one, and null
    for each line that is too long or does not parse; blank lines and requests
    without an id (even [session.register]) get none. *)
Theorem replies_in_order cap evs c k : conns (run cap evs) !! c = Some k ->
  map rs_id (c_out k) ++ awaiting (c_work k) = omap reply_id (reads c (state_new cap) evs).
Proof.
  intros H. pose proof (run_ids evs c (state_new cap) k H) as E. cbn [state_new conns] in E.
  now rewrite lookup_empty in E.
Qed.

(** ** The session cap *)

Definition registering (k : Conn) : bool :=
  match c_work k with Resolving _ _ _ | Launching _ _ _ _ => true | _ => false end.
Definition alive (k : Conn) : bool := match c_work k with Gone => false | _ => true end.
Definition pending (b : Broker) : Z := count registering (conns b).
Definition live (b : Broker) : Z := count alive (conns b).
(** The most connections alive at one moment of a run. *)
Fixpoint peak (b : Broker) (evs : list event) : Z :=
  match evs with [] => live b | ev :: evs => Z.max (live b) (peak (step ev b) evs) end.

(** A step of a task of connection [c] from [k] to [k'], of [n] more sessions. *)
Definition turns (n : Z) (c : nat) (k : Conn) (w : work) (b b' : Broker) : Prop :=
  max_sessions b' = max_sessions b /\ Z.of_nat (size (registry b')) <= Z.of_nat (size (registry b)) + n /\
  exists k', moves c k' b b' /\ c_work k' = w.

Lemma moves_count P c k k' b b' : conns b !! c = Some k -> moves c k' b b' ->
  count P (conns b') = count P (conns b) - (if P k then 1 else 0) + (if P k' then 1 else 0).
Proof.
  intros E M. rewrite <- (count_replace P (conns b) c k k' E). f_equal. apply map_eq. intros c'. rewrite (M c').
  case_bool_decide as D; [subst; now rewrite lookup_insert_eq|now rewrite lookup_insert_ne by auto].
Qed.

Lemma finish_register_turns c resp b0 b k n : conns b !! c = Some k -> conns b0 = conns b ->
  max_sessions b0 = max_sessions b -> Z.of_nat (size (registry b0)) <= Z.of_nat (size (registry b)) + n ->
  turns n c k Reading b (finish_register c resp b0).
Proof.
  intros E C M R. assert (conns b0 !! c = Some k) as E0 by congruence.
  destruct (finish_register_moves c resp b0 k E0) as (k' & Mv & W & _).
  destruct (bind_frame c resp b0) as (Rb & Mb & _ & _). unfold turns.
  assert (forall x, registry (finish c resp x) = registry x /\ max_sessions (finish c resp x) = max_sessions x) as F
    by (intros x; unfold finish; now destruct (conns x !! c)).
  destruct (F (bind_registered c resp b0)) as [F1 F2]. unfold finish_register at 1 2. rewrite F1, F2, Mb, Rb.
  split; [congruence|]. split; [done|]. exists k'. split; [exact (moves_frame c k' b b0 _ C Mv)|done].
Qed.
Lemma finish_turns c resp b0 b k n : conns b !! c = Some k -> conns b0 = conns b ->
  max_sessions b0 = max_sessions b -> Z.of_nat (size (registry b0)) <= Z.of_nat (size (registry b)) + n ->
  turns n c k Reading b (finish c resp b0).
Proof.
  intros E C M R. assert (conns b0 !! c = Some k) as E0 by congruence.
  destruct (finish_moves c resp b0 k E0) as (k' & Mv & W & _). unfold turns.
  unfold finish at 1 2. rewrite E0. split; [done|]. split; [done|].
  exists k'. split; [exact (moves_frame c k' b b0 _ C Mv)|done].
Qed.
Lemma wait_turns c w b0 b k n : conns b !! c = Some k -> conns b0 = conns b ->
  max_sessions b0 = max_sessions b -> Z.of_nat (size (registry b0)) <= Z.of_nat (size (registry b)) + n ->
  turns n c k w b (wait_on c w b0).
Proof.
  intros E C M R. assert (conns b0 !! c = Some k) as E0 by congruence.
  destruct (wait_moves c w b0 k E0) as (k' & Mv & W & _). unfold turns.
  unfold wait_on at 1 2. rewrite E0. split; [done|]. split; [done|].
  exists k'. split; [exact (moves_frame c k' b b0 _ C Mv)|done].
Qed.

(** Sessions and registrations under way, against the cap and a number of connections. *)
Definition capped (n : Z * Z) (b : Broker) : Prop :=
  max_sessions b = fst n /\ Z.of_nat (size (registry b)) + pending b <= fst n - 1 + snd n.
Definition reg_w (w : work) : Z := match w with Resolving _ _ _ | Launching _ _ _ _ => 1 | _ => 0 end.
Lemma registering_w k : (if registering k then 1 else 0) = reg_w (c_work k).
Proof. unfold registering. now destruct (c_work k). Qed.

Lemma turns_capped a c k w n b b' : conns b !! c = Some k -> turns a c k w b b' ->
  a + reg_w w <= reg_w (c_work k) -> capped n b -> capped n b'.
Proof.
  intros E (M & R & k' & Mv & W) A [H1 H2]. split; [lia|]. unfold pending in *.
  rewrite (moves_count registering c k k' b b' E Mv), !registering_w, W. lia.
Qed.
Lemma same_capped n b b' : conns b' = conns b -> max_sessions b' = max_sessions b ->
  (size (registry b') <= size (registry b))%nat -> capped n b -> capped n b'.
Proof. intros C M R [H1 H2]. unfold capped, pending in *. rewrite C, M. lia. Qed.

(** A connection that reads is not registering: there is room for it. *)
Lemma reading_room c k b : conns b !! c = Some k -> c_work k = Reading -> pending b + 1 <= live b.
Proof.
  intros E W. unfold pending, live. set (g := mkConn None None Gone []).
  pose proof (count_replace registering (conns b) c k g E) as P. pose proof (count_replace alive (conns b) c k g E) as L.
  assert (registering k = false) as Rk by (unfold registering; now rewrite W).
  assert (alive k = true) as Ak by (unfold alive; now rewrite W). rewrite Rk in P. rewrite Ak in L. cbn in P, L.
  assert (count registering (<[c := g]> (conns b)) <= count alive (<[c := g]> (conns b))) as S; [|lia].
  apply count_sub. intros x. unfold registering, alive. now destruct (c_work x).
Qed.
Lemma register_capped c i params k n b : conns b !! c = Some k -> c_work k = Reading -> live b <= snd n ->
  capped n b -> capped n (handle_session_register c i params b).
Proof.
  intros E W L H. assert (forall resp b0, conns b0 = conns b -> max_sessions b0 = max_sessions b -> registry b0 = registry b ->
    capped n (finish_register c resp b0)) as F.
  { intros resp b0 C M R. apply (turns_capped 0 c k Reading n b); [done|apply finish_register_turns|rewrite W; cbn; lia|done];
      try done. rewrite R. lia. }
  unfold handle_session_register. destruct params as [v|]; [|now apply F]. destruct (de_params v) as [p|e]; [|now apply F].
  destruct (p_session_id p) as [sid|].
  { destruct (registry b !! sid) as [r|]; [|now apply F]. apply F; apply upd_entry_frame. }
  destruct (max_sessions b <=? Z.of_nat (size (registry b))) eqn:G; [now apply F|]. apply Z.leb_gt in G. cbn.
  destruct (wait_turns c (Resolving i p (session_id_of (session_counter b))) (snd (allocate_session_id b)) b k 0 E)
    as (M & R & k' & Mv & Wk); try done. { cbn. lia. }
  destruct H as [H1 H2]. cbn in M, R, Mv. split; [cbn; lia|]. unfold pending.
  rewrite (moves_count registering c k k' b _ E Mv), !registering_w, W, Wk. cbn.
  pose proof (reading_room c k b E W) as Room. unfold pending in *. lia.
Qed.

Lemma disconnect_capped c k n b : conns b !! c = Some k -> c_work k = Reading -> capped n b -> capped n (disconnect c b).
Proof.
  intros E W H. unfold disconnect. rewrite E. cbv zeta.
  set (b1 := match bound_session k with Some r => upd_entry unbind r b | None => b end).
  set (b2 := match bound_lifecycle k with Some t => notify t Disconnected b1 | None => b1 end).
  assert (conns b1 = conns b /\ max_sessions b1 = max_sessions b /\ registry b1 = registry b) as (C1 & M1 & R1).
  { unfold b1. destruct (bound_session k) as [r|]; [|done]. now destruct (upd_entry_frame unbind r b) as (? & ? & _ & ? & _). }
  assert (conns b2 = conns b1 /\ max_sessions b2 = max_sessions b1 /\ registry b2 = registry b1) as (C2 & M2 & R2).
  { unfold b2. destruct (bound_lifecycle k) as [t|]; [|done]. now destruct (notify_frame t Disconnected b1) as (? & ? & _ & ? & _). }
  apply (turns_capped 0 c k Gone n b); [done| |rewrite W; cbn; lia|done]. split; [cbn; congruence|].
  split; [cbn; rewrite R2, R1; lia|]. eexists. split; [apply moves_insert; cbn; now rewrite C2, C1|done].
Qed.
Lemma line_capped c k line now n b : conns b !! c = Some k -> c_work k = Reading -> live b <= snd n ->
  capped n b -> capped n (on_line c k line now b).
Proof.
  intros E W L H.
  assert (forall w b0, conns b0 = conns b -> max_sessions b0 = max_sessions b -> registry b0 = registry b -> reg_w w = 0 ->
    (forall resp, capped n (finish c resp b0)) /\ capped n (wait_on c w b0)) as F.
  { intros w b0 C M R Hw. split; [intros resp; apply (turns_capped 0 c k Reading n b)|apply (turns_capped 0 c k w n b)];
      try done; [apply finish_turns|rewrite W; cbn; lia|apply wait_turns|rewrite W, Hw; cbn; lia]; try done; rewrite R; lia. }
  unfold on_line. destruct (_ <? _); [now apply (F Reading)|]. destruct (trim_line line) as [|x l]; [done|].
  destruct (de_request (x :: l)) as [req|e]; [|now apply (F Reading)]. unfold on_request.
  destruct (dispatch_begin _ req) as [| j ps | j | j m | resp | j m t ps | j er]; try done; try now apply (F Reading).
  - now apply (register_capped c j ps k).
  - unfold handle_session_unregister. destruct (bound_session k) as [r|]; [|now apply (F Reading)].
    apply (F (Unregistering j r)); try done; destruct (entries b !! r) as [e|]; try done; destruct (lifecycle e) as [t|]; try done;
      destruct (notify_frame t Shutdown (upd_entry (set_lifecycle None) r b)) as (R & C & _ & M & _);
      destruct (upd_entry_frame (set_lifecycle None) r b) as (R' & C' & _ & M' & _); congruence.
  - destruct (bound_session k) as [r|]; [|done]. apply (F (Tooling j m ps r)); try done; apply upd_entry_frame.
  - cbn. destruct (bound_session k) as [r|]; apply (F Reading); try done; apply (upd_entry_frame _ r b).
Qed.

Lemma resolved_capped c f sb n b : capped n b -> capped n (resolved c f sb b).
Proof.
  intros H. unfold resolved. destruct (conns b !! c) as [k|] eqn:E; [|done]. cbn [option_map].
  destruct (c_work k) as [| i p sid| | | |] eqn:W; try done.
  repeat case_match; (eapply (turns_capped 0 c k _ n b); [done|first [apply finish_register_turns|apply wait_turns]| |done]);
    try done; try (cbn; lia); rewrite W; cbn; lia.
Qed.
Lemma launched_capped c l tr now n b : capped n b -> capped n (launched c l tr now b).
Proof.
  intros H. unfold launched. destruct (conns b !! c) as [k|] eqn:E; [|done]. cbn [option_map].
  destruct (c_work k) as [| | i p sid sb| | |] eqn:W; try done.
  apply (turns_capped 1 c k Reading n b); [done| |rewrite W; cbn; lia|done].
  destruct l as [u|e]; [|apply finish_register_turns; try done; lia]. cbv zeta.
  assert (size (<[sid := fresh_ref (entries b)]> (registry b)) <= size (registry b) + 1)%nat as Sz.
  { rewrite map_size_insert. destruct (registry b !! sid); cbn; lia. }
  destruct (p_trace p && tr); apply finish_register_turns; try done; cbn; lia.
Qed.
Lemma tool_done_capped c r now n b : capped n b -> capped n (tool_done c r now b).
Proof.
  intros H. unfold tool_done. destruct (conns b !! c) as [k|] eqn:E; [|done]. cbn [option_map].
  destruct (c_work k) as [| | |i m ps s| |] eqn:W; try done.
  apply (turns_capped 0 c k Reading n b); [done| |rewrite W; cbn; lia|done].
  destruct r as [v|e]; cbn; [|apply finish_turns; try done; cbn; lia].
  destruct (upd_entry_frame (on_base (fun e => touch e now)) s (with_counters b
    (mkCounters (wrap_add u64_max (request_counter (counters b)) 1) (error_counter (counters b))))) as (R & C & _ & M & _).
  apply finish_turns; try done. rewrite R. cbn. lia.
Qed.
Lemma unregistered_capped c n b : capped n b -> capped n (unregistered c b).
Proof.
  intros H. unfold unregistered. destruct (conns b !! c) as [k|] eqn:E; [|done]. cbn [option_map].
  destruct (c_work k) as [| | | |i s|] eqn:W; try done.
  apply (turns_capped 0 c k Reading n b); [done| |rewrite W; cbn; lia|done].
  destruct (entries b !! s) as [e|]; apply finish_turns; try done; cbn; [|lia].
  rewrite Z.add_0_r. apply Nat2Z.inj_le. rewrite map_size_delete. destruct (registry b !! _); cbn; lia.
Qed.

Lemma step_capped ev n b : live b <= snd n -> capped n b -> capped n (step ev b).
Proof.
  intros L H. destruct (life_event ev) eqn:Le.
  { destruct (life_frame ev b Le) as (C & M & _ & R). apply (same_capped n b); [done|done| |done].
    now apply map_subseteq_size. }
  destruct ev as [|c line now|c|c|c f sb|c l tr now|c r now|c|t now|t now|t]; try discriminate; cbn [step].
  - destruct H as [H1 H2]. split; [done|]. unfold pending in *. cbn. unfold fresh_ref.
    rewrite count_fresh by (apply not_elem_of_dom, is_fresh). cbn. lia.
  - destruct (conns b !! c) as [k|] eqn:E; [|done]. destruct (c_work k) eqn:W; try done. now apply line_capped.
  - destruct (conns b !! c) as [k|] eqn:E; [|done]. destruct (c_work k) eqn:W; try done. now apply (disconnect_capped c k).
  - destruct (conns b !! c) as [k|] eqn:E; [|done]. destruct (c_work k) eqn:W; try done.
    apply (turns_capped 0 c k Gone n b); [done| |rewrite W; cbn; lia|done]. split; [done|]. split; [cbn; lia|].
    eexists. split; [now apply moves_insert|done].
  - now apply resolved_capped.
  - now apply launched_capped.
  - now apply tool_done_capped.
  - now apply unregistered_capped.
Qed.

Lemma run_capped evs n : forall b, peak b evs <= snd n -> capped n b -> capped n (foldl (fun b ev => step ev b) b evs).
Proof.
  induction evs as [|ev evs IH]; intros b L H; cbn in *; [done|]. apply IH; [lia|]. apply step_capped; [lia|done].
Qed.
(** C8: the session cap, and how far it can be passed.  The check and the
    insertion are not one step: the gate is released before the browser is
    launched, so at any moment the sessions and the registrations under way are
    at most [max_sessions - 1] plus the largest number of connections that were
    open at the same time; with one connection the cap is kept. *)
Theorem session_cap_bound cap evs :
  let b := run cap evs in
  Z.of_nat (size (registry b)) + pending b <= Z.max cap 1 - 1 + peak (state_new cap) evs.
Proof.
  cbv zeta. destruct (run_capped evs (Z.max cap 1, peak (state_new cap) evs) (state_new cap)) as [_ H]; [cbn; lia| |exact H].
  - split; [done|]. unfold pending. cbn. rewrite map_size_empty. cbn.
    assert (0 <= peak (state_new cap) evs); [|unfold count; rewrite map_fold_empty; lia].
    destruct evs; cbn; unfold live; pose proof (count_bound alive (conns (state_new cap))); cbn in *; lia.
Qed.

(** ** Draining *)

Definition bound_to (t : nat) (k : Conn) : bool := bool_decide (bound_lifecycle k = Some t).
(** The connections bound to task [t]. *)
Definition bnd (t : nat) (b : Broker) : Z := count (bound_to t) (conns b).
(** What the messages of a queue add to the count. *)
Definition delta1 (m : LifecycleMessage) : Z := match m with Connected => 1 | Disconnected => -1 | Shutdown => 0 end.
Definition delta (q : list LifecycleMessage) : Z := foldr (fun m n => delta1 m + n) 0 q.
Lemma delta_app p q : delta (p ++ q) = delta p + delta q.
Proof. induction p as [|m p IH]; cbn; [done|]. unfold delta in *. lia. Qed.

(** A task whose count, with the messages on their way, covers [w] connections;
    [n] bounds what it was sent. *)
Record running_ok (n w : Z) (l : life) (q : list LifecycleMessage) : Prop := mkOk {
  ok_count : 0 <= connected_count l;
  ok_bound : connected_count l + zlen q <= n;
  ok_deadline : is_Some (drain_deadline l) -> connected_count l = 0;
  ok_prefix : forall p s, q = p ++ s -> Shutdown ∉ p -> 0 <= connected_count l + delta p;
  ok_cover : Shutdown ∉ q -> w <= connected_count l + delta q
}.
Definition task_ok (n w : Z) (k : LifeTask) : Prop :=
  match t_state k with Running => running_ok n w (t_life k) (t_queue k) | _ => True end.
Definition life_ok (n : Z) (b : Broker) : Prop :=
  forall t, match tasks b !! t with Some k => task_ok n (bnd t b) k | None => bnd t b = 0 end.

Lemma running_ok_send n w l q m : running_ok n w l q -> (m = Disconnected -> 1 <= w) ->
  running_ok (n + 1) (w + delta1 m) l (q ++ [m]).
Proof.
  intros [C B D P V] Hm. split; [done|rewrite zlen_app; cbn; unfold zlen at 2; cbn; lia|done| |].
  - intros p s E N. destruct s as [|x s' _] using rev_ind.
    + rewrite app_nil_r in E. subst p. rewrite delta_app. apply not_elem_of_app in N as [N1 N2].
      specialize (V N1). pose proof (P q [] (eq_sym (app_nil_r q)) N1) as P1. destruct m; cbn in *; try lia.
      specialize (Hm eq_refl). lia.
    + rewrite (assoc_L (++)) in E. apply app_inj_tail in E as [-> ->]. now apply (P p s').
  - intros N. apply not_elem_of_app in N as [N1 N2]. rewrite delta_app. specialize (V N1). cbn. lia.
Qed.
Lemma running_ok_weaken n n' w w' l q : n <= n' -> w' <= w -> running_ok n w l q -> running_ok n' w' l q.
Proof. intros Hn Hw [C B D P V]. split; try done; [lia|]. intros N. specialize (V N). lia. Qed.
Lemma running_ok_receive n w l m q now l' : n <= u64_max -> running_ok n w l (m :: q) ->
  on_message drain_after l now m = Some l' -> running_ok n w l' q.
Proof.
  intros Hn [C B D P V] E. rewrite zlen_cons in B. pose proof (zlen_nonneg q) as Zq.
  destruct m; cbn in E; [| |discriminate]; injection E as <-.
  - assert (sat_add u64_max (connected_count l) 1 = connected_count l + 1) as S by (unfold sat_add; lia).
    split; cbn; rewrite ?S; [lia|lia|intros [? ?]; discriminate| |].
    + intros p s -> N. specialize (P (Connected :: p) s eq_refl). cbn in P. unfold delta in *.
      assert (Shutdown ∉ Connected :: p) as N' by (intros [?|?]%elem_of_cons; [discriminate|done]). specialize (P N'). lia.
    + intros N. specialize (V ltac:(intros [?|?]%elem_of_cons; [discriminate|done])). cbn in V. unfold delta in *. lia.
  - assert (1 <= connected_count l) as C1.
    { specialize (P [Disconnected] q eq_refl ltac:(intros [?|?]%elem_of_cons; [discriminate|set_solver])). cbn in P. lia. }
    assert (sat_sub (connected_count l) 1 = connected_count l - 1) as S by (unfold sat_sub; lia).
    split; cbn; rewrite ?S; [lia|lia| | |].
    + destruct (connected_count l - 1 =? 0) eqn:Z0; [apply Z.eqb_eq in Z0; lia|]. intros H. specialize (D H). lia.
    + intros p s -> N. specialize (P (Disconnected :: p) s eq_refl). cbn in P. unfold delta in *.
      assert (Shutdown ∉ Disconnected :: p) as N' by (intros [?|?]%elem_of_cons; [discriminate|done]). specialize (P N'). lia.
    + intros N. specialize (V ltac:(intros [?|?]%elem_of_cons; [discriminate|done])). cbn in V. unfold delta in *. lia.
Qed.

(** The task of an entry exists. *)
Definition refs_ok (b : Broker) : Prop :=
  forall r e t, entries b !! r = Some e -> lifecycle e = Some t -> is_Some (tasks b !! t).
Definition inv (n : Z) (b : Broker) : Prop := life_ok n b /\ refs_ok b.

(** A change that sends nothing and binds nothing. *)
Record quiet (b b' : Broker) : Prop := mkQuiet {
  q_tasks : tasks b' = tasks b;
  q_bnd : forall t, bnd t b' <= bnd t b;
  q_refs : forall r e t, entries b' !! r = Some e -> lifecycle e = Some t ->
             exists r0 e0, entries b !! r0 = Some e0 /\ lifecycle e0 = Some t
}.
Lemma quiet_refl b : quiet b b.
Proof. split; [done|done|eauto]. Qed.
Lemma quiet_trans b1 b2 b3 : quiet b1 b2 -> quiet b2 b3 -> quiet b1 b3.
Proof.
  intros [T1 B1 R1] [T2 B2 R2]. split; [congruence| |].
  - intros t. specialize (B1 t). specialize (B2 t). lia.
  - intros r e t E L. destruct (R2 r e t E L) as (r0 & e0 & E0 & L0). eauto.
Qed.
Lemma quiet_frame b b' : tasks b' = tasks b -> conns b' = conns b -> entries b' = entries b -> quiet b b'.
Proof. intros T C E. split; [done| |rewrite E; eauto]. intros t. unfold bnd. rewrite C. done. Qed.
Lemma quiet_inv n b b' : quiet b b' -> inv n b -> inv n b'.
Proof.
  intros [T B R] [L F]. split.
  - intros t. specialize (L t). specialize (B t). rewrite T. destruct (tasks b !! t) as [k|].
    + unfold task_ok in *. destruct (t_state k); [|done|done]. now apply (running_ok_weaken n n (bnd t b)).
    + pose proof (count_bound (bound_to t) (conns b')). unfold bnd in *. lia.
  - intros r e t E Hl. destruct (R r e t E Hl) as (r0 & e0 & E0 & L0). rewrite T. eauto.
Qed.
Lemma held_weaken n n' b : n <= n' -> inv n b -> inv n' b.
Proof.
  intros Hn [L F]. split; [|done]. intros t. specialize (L t). destruct (tasks b !! t) as [k|]; [|done].
  unfold task_ok in *. destruct (t_state k); [|done|done]. now apply (running_ok_weaken n n' (bnd t b) (bnd t b)).
Qed.

(** A message sent to [t]; the connections bound to it change by as much. *)
Lemma notify_inv n t m b b' : inv n b -> (m = Disconnected -> 1 <= bnd t b) -> is_Some (tasks b !! t) ->
  tasks b' = tasks (notify t m b) -> bnd t b' <= bnd t b + delta1 m -> (forall u, u <> t -> bnd u b' <= bnd u b) ->
  (forall r e u, entries b' !! r = Some e -> lifecycle e = Some u ->
     exists r0 e0, entries b !! r0 = Some e0 /\ lifecycle e0 = Some u) -> inv (n + 1) b'.
Proof.
  intros [L F] Hm [k Hk] T Bt Bu R. assert (forall u, u <> t -> tasks b' !! u = tasks b !! u) as Tu.
  { intros u N. rewrite T. unfold notify. rewrite Hk. destruct (t_state k); [|done|done]. cbn. now rewrite lookup_insert_ne. }
  assert (exists k', tasks b' !! t = Some k' /\ task_ok (n + 1) (bnd t b') k') as (k' & Ek' & Ok').
  { specialize (L t). rewrite Hk in L. unfold task_ok in L. rewrite T. unfold notify. rewrite Hk.
    destruct (t_state k) eqn:Es; [|exists k; unfold task_ok; now rewrite Es|exists k; unfold task_ok; now rewrite Es].
    cbn. rewrite lookup_insert_eq. eexists. split; [done|]. unfold task_ok. cbn.
    apply (running_ok_weaken (n + 1) (n + 1) (bnd t b + delta1 m)); [lia|done|]. now apply running_ok_send. }
  split.
  - intros u. destruct (decide (u = t)) as [->|N]; [now rewrite Ek'|]. rewrite Tu by done.
    specialize (L u). specialize (Bu u N). destruct (tasks b !! u) as [ku|].
    + unfold task_ok in *. destruct (t_state ku); [|done|done]. apply (running_ok_weaken n (n + 1) (bnd u b)); [lia|done|done].
    + pose proof (count_bound (bound_to u) (conns b')). unfold bnd in *. lia.
  - intros r e u E Hl. destruct (R r e u E Hl) as (r0 & e0 & E0 & L0). destruct (decide (u = t)) as [->|N]; [rewrite Ek'; eauto|].
    rewrite Tu by done. eauto.
Qed.

Lemma quiet_finish c resp b : quiet b (finish c resp b).
Proof.
  unfold finish. destruct (conns b !! c) as [k|] eqn:E; [|apply quiet_refl]. split; [done| |cbn; eauto].
  intros t. unfold bnd. cbn. rewrite (count_replace _ _ _ k) by done. unfold bound_to at 2 3. cbn. lia.
Qed.
Lemma quiet_wait c w b : quiet b (wait_on c w b).
Proof.
  unfold wait_on. destruct (conns b !! c) as [k|] eqn:E; [|apply quiet_refl]. split; [done| |cbn; eauto].
  intros t. unfold bnd. cbn. rewrite (count_replace _ _ _ k) by done. unfold bound_to at 2 3. cbn. lia.
Qed.
Lemma quiet_entry f r b : (forall e, lifecycle (f e) = lifecycle e \/ lifecycle (f e) = None) -> quiet b (upd_entry f r b).
Proof.
  intros Hf. unfold upd_entry. destruct (entries b !! r) as [e|] eqn:E; [|apply quiet_refl]. split; [done|done|]. cbn.
  intros r' e' t E' L'. destruct (decide (r' = r)) as [->|N].
  - rewrite lookup_insert_eq in E'. injection E' as <-. destruct (Hf e) as [H|H]; [|congruence].
    exists r, e. split; [done|congruence].
  - rewrite lookup_insert_ne in E' by done. eauto.
Qed.

Lemma spawn_inv n r b t b' : 0 <= n -> inv n b -> spawn_lifecycle r b = (t, b') ->
  inv n b' /\ is_Some (tasks b' !! t) /\ conns b' = conns b.
Proof.
  intros Hn [L F] E. unfold spawn_lifecycle in E. injection E as <- <-. set (t := fresh_ref (tasks b)).
  set (b0 := with_task b t (mkTask r (mkLife 0 None) [] Running)).
  destruct (upd_entry_frame (set_lifecycle (Some t)) r b0) as (_ & C & T & _). rewrite C, T.
  assert (tasks b !! t = None) as Ht by (apply not_elem_of_dom, is_fresh). pose proof (L t) as Lt. rewrite Ht in Lt.
  split; [|split; [exists (mkTask r (mkLife 0 None) [] Running); apply lookup_insert_eq|done]]. split.
  - intros u. rewrite T. unfold bnd. rewrite C. cbn. destruct (decide (u = t)) as [->|N].
    + rewrite lookup_insert_eq. unfold task_ok. cbn. unfold bnd in Lt. rewrite Lt.
      split; cbn; [lia|unfold zlen; cbn; lia|intros [? ?]; discriminate| |intros _; lia].
      intros p s Ep _. symmetry in Ep. apply app_eq_nil in Ep as [-> _]. cbn. lia.
    + rewrite lookup_insert_ne by done. exact (L u).
  - intros r' e' u E' L'. rewrite T. cbn. destruct (decide (u = t)) as [->|N]; [rewrite lookup_insert_eq; eauto|].
    rewrite lookup_insert_ne by done. revert E'. unfold upd_entry. cbn. destruct (entries b !! r) as [e0|]; [|intros ?; eauto]. cbn.
    intros E'. destruct (decide (r' = r)) as [->|Nr].
    + rewrite lookup_insert_eq in E'. injection E' as <-. cbn in L'. congruence.
    + rewrite lookup_insert_ne in E' by done. eauto.
Qed.

Lemma bind_inv n c resp b : 0 <= n -> inv n b -> inv (n + 1) (bind_registered c resp b).
Proof.
  intros Hn H. assert (inv (n + 1) b) as W by (apply (held_weaken n); [lia|done]). unfold bind_registered.
  destruct (rs_result resp ≫= vget_str "session_id") as [sid|]; [|done]. destruct (registry b !! sid) as [r|]; [|done].
  destruct (entries b !! r) as [e|] eqn:Ee; [|done]. destruct (conns b !! c) as [k|] eqn:Ek; [|done].
  destruct (match lifecycle e with Some t => (t, b) | None => spawn_lifecycle r b end) as [t b1] eqn:E1.
  assert (inv n b1 /\ is_Some (tasks b1 !! t) /\ conns b1 = conns b) as (H1 & T1 & C1).
  { destruct (lifecycle e) as [t'|] eqn:El; [|now apply (spawn_inv n r b)]. injection E1 as -> ->.
    split; [done|]. split; [|done]. destruct H as [_ F]. now apply (F r e). }
  pose proof (quiet_entry (bind_to c) r (notify t Connected b1) (fun e => or_introl eq_refl)) as Q.
  destruct (notify_frame t Connected b1) as (_ & Cn & En & _).
  apply (notify_inv n t Connected b1); [done|discriminate|done|exact (q_tasks _ _ Q)| | |].
  - unfold bnd. cbn. destruct (upd_entry_frame (bind_to c) r (notify t Connected b1)) as (_ & -> & _). rewrite Cn, C1.
    rewrite (count_replace _ _ _ k) by done. unfold bound_to at 2 3. cbn. rewrite (bool_decide_eq_true_2 (Some t = Some t)) by done.
    case_bool_decide; lia.
  - intros u N. unfold bnd. cbn. destruct (upd_entry_frame (bind_to c) r (notify t Connected b1)) as (_ & -> & _). rewrite Cn, C1.
    rewrite (count_replace _ _ _ k) by done. unfold bound_to at 2 3. cbn. rewrite (bool_decide_eq_false_2 (Some t = Some u)) by congruence.
    case_bool_decide; lia.
  - intros r' e' u E' L'. cbn in E'. destruct (q_refs _ _ Q r' e' u E' L') as (r0 & e0 & E0 & L0). rewrite En in E0. eauto.
Qed.
Lemma finish_register_inv n c resp b : 0 <= n -> inv n b -> inv (n + 1) (finish_register c resp b).
Proof. intros Hn H. apply (quiet_inv _ (bind_registered c resp b)); [apply quiet_finish|now apply bind_inv]. Qed.

Lemma disconnect_inv n c b k : conns b !! c = Some k -> inv n b -> inv (n + 1) (disconnect c b).
Proof.
  intros E H. unfold disconnect. rewrite E. cbv zeta.
  set (b1 := match bound_session k with Some r => upd_entry unbind r b | None => b end).
  assert (quiet b b1) as Q. { unfold b1. destruct (bound_session k); [apply quiet_entry; now left|apply quiet_refl]. }
  assert (conns b1 = conns b) as C1. { unfold b1. destruct (bound_session k); [apply upd_entry_frame|done]. }
  pose proof (quiet_inv n b b1 Q H) as H1. set (k' := mkConn (bound_session k) None Gone (c_out k)).
  assert (forall t b2, conns b2 = conns b -> bnd t (with_conn b2 c k') = bnd t b - (if bound_to t k then 1 else 0)) as Bn.
  { intros t b2 C2. unfold bnd. cbn. rewrite C2, (count_replace _ _ _ k) by done. unfold bound_to at 3. cbn.
    rewrite bool_decide_eq_false_2 by done. lia. }
  destruct (bound_lifecycle k) as [t|] eqn:El.
  - destruct (notify_frame t Disconnected b1) as (_ & Cn & En & _).
    assert (bound_to t k = true) as Bt by (unfold bound_to; now rewrite El, bool_decide_eq_true_2).
    assert (1 <= bnd t b1) as B1.
    { unfold bnd. rewrite C1. pose proof (Bn t b eq_refl) as X. rewrite Bt in X. unfold bnd in X.
      pose proof (count_bound (bound_to t) (conns (with_conn b c k'))). cbn in *. lia. }
    destruct (tasks b1 !! t) as [kt|] eqn:Et.
    2:{ destruct H1 as [L _]. specialize (L t). rewrite Et in L. lia. }
    apply (notify_inv n t Disconnected b1); [done|done|eauto|done| | |cbn; rewrite En; eauto].
    + rewrite Bn, Bt by congruence. unfold bnd at 2. rewrite C1. unfold bnd. cbn. lia.
    + intros u _. rewrite Bn by congruence. unfold bnd. rewrite C1. destruct (bound_to u k); lia.
  - apply (held_weaken n); [lia|]. apply (quiet_inv n b1); [|done]. split; [done| |cbn; eauto].
    intros t. rewrite Bn by done. unfold bnd. rewrite C1. destruct (bound_to t k); lia.
Qed.

Lemma register_inv n c i params b : 0 <= n -> inv n b -> inv (n + 1) (handle_session_register c i params b).
Proof.
  intros Hn H. unfold handle_session_register. destruct params as [v|]; [|now apply finish_register_inv].
  destruct (de_params v) as [p|e]; [|now apply finish_register_inv]. destruct (p_session_id p) as [sid|].
  - destruct (registry b !! sid) as [r|]; [|now apply finish_register_inv].
    apply finish_register_inv; [done|]. apply (quiet_inv n b); [apply quiet_entry; now left|done].
  - destruct (_ <=? _); [apply finish_register_inv; [done|]; now apply (quiet_inv n b); [apply quiet_frame|]|]. cbn.
    apply (held_weaken n); [lia|]. eapply quiet_inv; [apply quiet_wait|]. now apply (quiet_inv n b); [apply quiet_frame|].
Qed.
Lemma unregister_inv n c i s b : inv n b -> inv (n + 1) (handle_session_unregister c i s b).
Proof.
  intros H. unfold handle_session_unregister.
  destruct s as [r|]; [|apply (held_weaken n); [lia|]; now apply (quiet_inv n b); [apply quiet_finish|]].
  eapply quiet_inv; [apply quiet_wait|]. destruct (entries b !! r) as [e|] eqn:Ee; [|now apply (held_weaken n); [lia|]].
  destruct (lifecycle e) as [t|] eqn:El; [|now apply (held_weaken n); [lia|]].
  pose proof (quiet_entry (set_lifecycle None) r b (fun e => or_intror eq_refl)) as Q.
  pose proof (quiet_inv n b _ Q H) as H1. destruct (notify_frame t Shutdown (upd_entry (set_lifecycle None) r b)) as (_ & Cn & En & _).
  apply (notify_inv n t Shutdown (upd_entry (set_lifecycle None) r b)); [done|discriminate| |done| | |rewrite En; eauto].
  - rewrite (q_tasks _ _ Q). destruct H as [_ F]. now apply (F r e).
  - unfold bnd. rewrite Cn. cbn. lia.
  - intros u _. unfold bnd. now rewrite Cn.
Qed.
Lemma line_inv n c k line now b : 0 <= n -> inv n b -> inv (n + 1) (on_line c k line now b).
Proof.
  intros Hn H. assert (forall b0, quiet b b0 -> inv (n + 1) b0) as Q.
  { intros b0 Q. apply (held_weaken n); [lia|]. now apply (quiet_inv n b). }
  unfold on_line. destruct (_ <? _); [apply Q, quiet_finish|]. destruct (trim_line line) as [|x l]; [apply Q, quiet_refl|].
  destruct (de_request (x :: l)) as [req|e]; [|apply Q, quiet_finish]. unfold on_request.
  destruct (dispatch_begin _ req) as [| j ps | j | j m | resp | j m t ps | j er].
  - apply Q, quiet_refl.
  - now apply register_inv.
  - now apply unregister_inv.
  - apply Q, quiet_finish.
  - apply Q, quiet_finish.
  - destruct (bound_session k) as [r|]; [|apply Q, quiet_refl].
    apply Q. eapply quiet_trans; [apply (quiet_entry (on_base (fun e => touch e now)) r); now left|apply quiet_wait].
  - cbn. apply Q. eapply quiet_trans; [|apply quiet_finish].
    destruct (bound_session k) as [r|]; [|now apply quiet_frame].
    eapply quiet_trans; [apply (quiet_entry (on_base (fun e => touch e now)) r); now left|now apply quiet_frame].
Qed.

(** A task that leaves [Running] is under no obligation. *)
Lemma task_inv n t k k' b : tasks b !! t = Some k -> task_ok n (bnd t b) k' -> inv n b -> inv n (with_task b t k').
Proof.
  intros Ht Hk [L F]. split.
  - intros u. cbn. destruct (decide (u = t)) as [->|N]; [rewrite lookup_insert_eq; exact Hk|].
    rewrite lookup_insert_ne by done. exact (L u).
  - intros r e u E Hl. cbn in *. destruct (decide (u = t)) as [->|N]; [rewrite lookup_insert_eq; eauto|].
    rewrite lookup_insert_ne by done. eauto.
Qed.
Lemma close_task_inv n t k b : tasks b !! t = Some k -> inv n b -> inv n (close_task t k b).
Proof.
  intros E H. unfold close_task. eapply quiet_inv; [apply quiet_entry; now right|]. now apply (task_inv n t k).
Qed.

Lemma life_inv ev n b : n <= u64_max -> life_event ev = true -> inv n b -> inv n (step ev b).
Proof.
  intros Hn Le H. destruct ev as [| | | | | | | |t now|t now|t]; try discriminate; cbn [step];
    (destruct (tasks b !! t) as [k|] eqn:Et; [|done]); (destruct (t_state k) eqn:Es; try done).
  - destruct (t_queue k) as [|m q] eqn:Eq; [done|]. destruct (on_message _ _ _ _) as [l|] eqn:Em; [|now apply close_task_inv].
    apply (task_inv n t k); [done| |done]. destruct H as [L _]. specialize (L t). rewrite Et in L.
    unfold task_ok in *. rewrite Es, Eq in L. cbn. now apply (running_ok_receive n _ (t_life k) m q now).
  - destruct (drain_deadline (t_life k)) as [d|]; [|done]. destruct (d <=? now); [|done]. now apply close_task_inv.
  - set (b1 := with_task b t (mkTask (t_entry k) (t_life k) (t_queue k) Done)).
    assert (inv n b1) as H1 by now apply (task_inv n t k). destruct (entries b1 !! t_entry k) as [e|] eqn:Ee; [|done].
    apply (quiet_inv n b1); [|done]. pose proof (quiet_entry shut_down (t_entry k) b1 (fun e => or_introl eq_refl)) as Q.
    unfold upd_entry in Q. rewrite Ee in Q. eapply quiet_trans; [exact Q|]. now apply quiet_frame.
Qed.

Lemma launched_inv n c l tr now b : 0 <= n -> inv n b -> inv (n + 1) (launched c l tr now b).
Proof.
  intros Hn H. assert (inv (n + 1) b) as W by (apply (held_weaken n); [lia|done]). unfold launched.
  destruct (conns b !! c) as [k|]; [|done]. cbn [option_map]. destruct (c_work k) as [| |i p sid sb| | |]; try done.
  destruct l as [u|e]; [|now apply finish_register_inv]. cbv zeta. apply finish_register_inv; [done|].
  set (r := fresh_ref (entries b)). set (e0 := install p _).
  assert (quiet b (with_registry (with_entry b r e0) (<[sid := r]> (registry b)))) as Q.
  { split; [done|done|]. cbn. intros r' e' t E' L'. destruct (decide (r' = r)) as [->|N].
    - rewrite lookup_insert_eq in E'. injection E' as <-. discriminate.
    - rewrite lookup_insert_ne in E' by done. eauto. }
  destruct (p_trace p && tr); [|now apply (quiet_inv n b)].
  apply (quiet_inv n b); [|done]. eapply quiet_trans; [exact Q|]. now apply quiet_frame.
Qed.
Lemma work_inv ev n b : 0 <= n -> inv n b ->
  match ev with Resolved _ _ _ | ToolDone _ _ _ | Unregistered _ => inv (n + 1) (step ev b) | _ => True end.
Proof.
  intros Hn H. assert (inv (n + 1) b) as W by (apply (held_weaken n); [lia|done]).
  destruct ev as [| | | |c f sb| |c r now|c| | |]; try done; cbn [step].
  - unfold resolved. destruct (conns b !! c) as [k|]; [|done]. cbn [option_map].
    destruct (c_work k) as [| i p sid| | | |]; try done.
    destruct (match chromium_binary b with Some q => Ok q | None => f end) as [q|e]; [|now apply finish_register_inv].
    destruct sb as [u|[x|x]]; [| |apply finish_register_inv; [done|]; now apply (quiet_inv n b); [apply quiet_frame|]];
      (eapply quiet_inv; [apply quiet_wait|]; now apply (quiet_inv _ b); [apply quiet_frame|]).
  - unfold tool_done. destruct (conns b !! c) as [k|]; [|done]. cbn [option_map].
    destruct (c_work k) as [| | |i m ps s| |]; try done. destruct r as [v|e]; cbn; (eapply quiet_inv; [apply quiet_finish|]).
    + eapply quiet_inv; [apply (quiet_entry (on_base (fun e => touch e now)) s); now left|].
      now apply (quiet_inv _ b); [apply quiet_frame|].
    + now apply (quiet_inv _ b); [apply quiet_frame|].
  - unfold unregistered. destruct (conns b !! c) as [k|]; [|done]. cbn [option_map].
    destruct (c_work k) as [| | | |i s|]; try done. eapply quiet_inv; [apply quiet_finish|].
    destruct (entries b !! s) as [e|] eqn:Ee; [|done].
    pose proof (quiet_entry shut_down s b (fun e => or_introl eq_refl)) as Q. unfold upd_entry in Q. rewrite Ee in Q.
    apply (quiet_inv _ b); [|done]. eapply quiet_trans; [exact Q|]. now apply quiet_frame.
Qed.

Lemma step_held ev n b : 0 <= n <= u64_max -> inv n b -> inv (n + 1) (step ev b).
Proof.
  intros Hn H. assert (inv (n + 1) b) as W by (apply (held_weaken n); [lia|done]). destruct (life_event ev) eqn:Le.
  { apply (held_weaken n); [lia|]. now apply life_inv. }
  pose proof (work_inv ev n b ltac:(lia) H) as Wk.
  destruct ev as [|c line now|c|c|c f sb|c l tr now|c r now|c|t now|t now|t]; try discriminate; try exact Wk; cbn [step].
  - apply (quiet_inv _ b); [|done]. split; [done| |cbn; eauto]. intros t. unfold bnd. cbn. unfold fresh_ref.
    rewrite count_fresh by (apply not_elem_of_dom, is_fresh). unfold bound_to at 1. cbn. rewrite bool_decide_eq_false_2 by done. lia.
  - destruct (conns b !! c) as [k|] eqn:E; [|done]. destruct (c_work k); try done. apply line_inv; [lia|done].
  - destruct (conns b !! c) as [k|] eqn:E; [|done]. destruct (c_work k); try done. now apply (disconnect_inv n c b k).
  - destruct (conns b !! c) as [k|] eqn:E; [|done]. destruct (c_work k); try done.
    apply (quiet_inv _ b); [|done]. split; [done| |cbn; eauto]. intros t. unfold bnd. cbn.
    rewrite (count_replace _ _ _ k) by done. unfold bound_to at 2 3. cbn. lia.
  - apply launched_inv; [lia|done].
Qed.
Lemma run_inv evs : forall n b, 0 <= n -> n + zlen evs <= u64_max -> inv n b ->
  inv (n + zlen evs) (foldl (fun b ev => step ev b) b evs).
Proof.
  induction evs as [|ev evs IH]; intros n b Hn Hl H; cbn [foldl]; [unfold zlen; cbn; now rewrite Z.add_0_r|].
  rewrite zlen_cons in *. pose proof (zlen_nonneg evs). replace (n + (1 + zlen evs)) with (n + 1 + zlen evs) by lia.
  apply IH; [lia|lia|]. apply step_held; [lia|done].
Qed.
Lemma init_inv cap : inv 0 (state_new cap).
Proof.
  split; [|intros r e t E; discriminate]. intros t. cbn. rewrite lookup_empty. unfold bnd. cbn. unfold count. now rewrite map_fold_empty.
Qed.
Lemma count_zero {A} (P : A -> bool) (m : gmap nat A) i x : count P m <= 0 -> m !! i = Some x -> P x = false.
Proof.
  intros H E. pose proof (count_bound P (delete i m)) as B. pose proof (count_fresh P (delete i m) i x (lookup_delete_eq m i)) as F.
  rewrite (insert_delete_id m i x E) in F. destruct (P x); [lia|done].
Qed.

(** a session that a connection is bound to is not counted down to a drain:
    in every run (of fewer than 2^64 steps), when a lifecycle task has handled
    its messages and a drain is pending, no connection holds that task, however
    connections registered, registered again, ended or failed.  The converse
    does not hold: see [reregister_never_drains]. *)
Theorem drain_spares_bound cap evs t k c kc :
  let b := run cap evs in
  zlen evs <= u64_max -> tasks b !! t = Some k -> t_state k = Running -> t_queue k = [] ->
  is_Some (drain_deadline (t_life k)) -> conns b !! c = Some kc -> bound_lifecycle kc <> Some t.
Proof.
  cbv zeta. intros Hn Et Es Eq Hd Ec Hb. pose proof (run_inv evs 0 (state_new cap) ltac:(lia) Hn (init_inv cap)) as [L _].
  specialize (L t). unfold run in *. rewrite Et in L. unfold task_ok in L. rewrite Es, Eq in L. destruct L as [_ _ D _ V].
  specialize (D Hd). specialize (V ltac:(set_solver)). rewrite D in V. cbn in V.
  pose proof (count_zero (bound_to t) _ c kc V Ec) as Z0. unfold bound_to in Z0. now apply bool_decide_eq_false in Z0.
Qed.

End Handlers.

End Server.

Module ServerExamples.
Import Server.

(** A reader for four requests, each one byte long: registration of a new
    session and of an existing one, a ping, unregistration. *)
Definition toy_request (l : list byte) : result JsonRpcRequest string :=
  match l with
  | [Byte.x61] => Ok (mkRequest "2.0" (Some (JNum 1)) "session.register" (Some JNull))
  | [Byte.x62] => Ok (mkRequest "2.0" (Some (JNum 2)) "session.register" (Some (JStr "s_1")))
  | [Byte.x63] => Ok (mkRequest "2.0" (Some (JNum 3)) "_internal.ping" None)
  | [Byte.x64] => Ok (mkRequest "2.0" (Some (JNum 4)) "session.unregister" None)
  | [Byte.x65] => Ok (mkRequest "2.0" (Some (JNum 5)) "tab.list" None)
  | _ => Err "expected value"
  end.
Definition toy_params (v : json) : result SessionRegisterParams string :=
  let p s := mkParams "client" "1" s [] None None false [] None [] in
  match v with JNull => Ok (p None) | JStr s => Ok (p (Some s)) | _ => Err "invalid type" end.
Definition pong (_ : string) (_ : Broker) : json := JStr "pong".
Notation go := (run toy_request toy_params "0.1.0" pong 1000).

(** The connections of a run, in the order they were accepted. *)
Definition c0 : nat := fresh_ref (conns (go 1 [])).
Definition c1 : nat := fresh_ref (conns (go 1 [Accept])).
Definition c2 : nat := fresh_ref (conns (go 1 [Accept; Accept])).
Definition t0 : nat := fresh_ref (tasks (go 1 [])).

Definition say (c : nat) (x : byte) : event := Line c [x; Byte.x0a] 0.
Definition up (c : nat) : list event := [Resolved c (Ok "/chromium") (Ok tt); Launched c (Ok tt) true 0].
Definition ids (b : Broker) (c : nat) : option (list json) := option_map (fun k => map rs_id (c_out k)) (conns b !! c).

(** Two connections at work at the same time; the second has a bad line, an
    empty one and a request that waits. *)
Definition busy : list event :=
  [Accept; Accept; say c0 Byte.x61; say c1 Byte.x00; say c1 Byte.x63; Line c1 [Byte.x0d; Byte.x0a] 0] ++ up c0 ++
  [say c0 Byte.x65; say c1 Byte.x65; ToolDone c0 (Ok JNull) 1; say c0 Byte.x64].

Lemma replies_in_order_witness :
  exists k, conns (go 4 busy) !! c0 = Some k /\ map rs_id (c_out k) ++ awaiting (c_work k) = [JNum 1; JNum 5; JNum 4].
Proof.
  assert (is_Some (conns (go 4 busy) !! c0)) as [k E] by (apply (bool_decide_unpack _); vm_compute; exact I).
  assert (omap (reply_id toy_request) (reads toy_request toy_params "0.1.0" pong 1000 c0 (state_new 4) busy)
    = [JNum 1; JNum 5; JNum 4]) as R by (vm_compute; reflexivity).
  exists k. split; [exact E|]. rewrite <- R.
  exact (replies_in_order toy_request toy_params "0.1.0" pong 1000 4 busy c0 k E).
Defined.
Example second_replies : ids (go 4 busy) c1 = Some [JNull; JNum 3; JNum 5].
Proof. vm_compute. reflexivity. Qed.

(** A session whose connection has ended drains. *)
Definition ended : list event := [Accept; Accept; say c0 Byte.x61] ++ up c0 ++ [Eof c0; LifeMessage t0 1; LifeMessage t0 2].
Lemma drain_spares_bound_witness :
  exists k kc, tasks (go 4 ended) !! t0 = Some k /\ is_Some (drain_deadline (t_life k)) /\
    conns (go 4 ended) !! c1 = Some kc /\ bound_lifecycle kc <> Some t0.
Proof.
  assert (is_Some (tasks (go 4 ended) !! t0)) as [k E] by (apply (bool_decide_unpack _); vm_compute; exact I).
  assert (is_Some (conns (go 4 ended) !! c1)) as [kc Ec] by (apply (bool_decide_unpack _); vm_compute; exact I).
  assert (option_map (fun k => (t_state k, t_queue k, t_life k)) (tasks (go 4 ended) !! t0)
    = Some (Running, [], mkLife 0 (Some 1002))) as F by (vm_compute; reflexivity).
  assert (zlen ended <= u64_max) as L by (vm_compute; discriminate).
  rewrite E in F. injection F as Hs Hq Hl.
  assert (is_Some (drain_deadline (t_life k))) as Hd by (rewrite Hl; eexists; reflexivity).
  exists k, kc. split; [exact E|]. split; [exact Hd|]. split; [exact Ec|].
  exact (drain_spares_bound toy_request toy_params "0.1.0" pong 1000 4 ended t0 k c1 kc L E Hs Hq Hd Ec).
Defined.

(** Three connections that register before any browser is up get three sessions
    past a cap of one. *)
Example cap_overshoot :
  let b := go 1 ([Accept; Accept; Accept] ++ map (fun c => say c Byte.x61) [c0; c1; c2] ++ up c0 ++ up c1 ++ up c2) in
  size (registry b) = 3%nat /\ max_sessions b = 1 /\ session_register_rejected_cap b = 0.
Proof. vm_compute. done. Qed.
(** One after the other, the second is refused. *)
Example cap_kept :
  let b := go 1 ([Accept; Accept; say c0 Byte.x61] ++ up c0 ++ [say c1 Byte.x61]) in
  size (registry b) = 1%nat /\ session_register_rejected_cap b = 1.
Proof. vm_compute. done. Qed.

(** A connection that registers its own session again is counted twice and
    leaves once: when it has ended the task still counts one client, and no
    drain is pending. *)
Example reregister_never_drains :
  let b := go 4 ([Accept; say c0 Byte.x61] ++ up c0 ++ [say c0 Byte.x62; Eof c0] ++ replicate 3 (LifeMessage t0 1)) in
  option_map t_life (tasks b !! t0) = Some (mkLife 1 None) /\ option_map t_queue (tasks b !! t0) = Some [] /\
  option_map c_work (conns b !! c0) = Some Gone /\ size (registry b) = 1%nat.
Proof. vm_compute. done. Qed.
(** The same after a read error (a line that is not UTF-8): the task is not told. *)
Example read_error_never_drains :
  let b := go 4 ([Accept; say c0 Byte.x61] ++ up c0 ++ [ReadError c0; LifeMessage t0 1]) in
  option_map t_life (tasks b !! t0) = Some (mkLife 1 None) /\ option_map t_queue (tasks b !! t0) = Some [] /\
  option_map c_work (conns b !! c0) = Some Gone.
Proof. vm_compute. done. Qed.
(** The end of an older connection unbinds the newer one from the session. *)
Example unbind_clears_newer :
  let evs := [Accept; Accept; say c0 Byte.x61] ++ up c0 ++ [say c1 Byte.x62] in
  map conn (map snd (map_to_list (entries (go 4 evs)))) = [Some c1] /\
  map conn (map snd (map_to_list (entries (go 4 (evs ++ [Eof c0]))))) = [None] /\
  option_map bound_session (conns (go 4 (evs ++ [Eof c0])) !! c1) = Some (Some (fresh_ref (entries (go 4 [])))).
Proof. vm_compute. done. Qed.
(** After unregistering, the connection is still bound: a tool call on the closed
    session is taken on. *)
Example unregister_stays_bound :
  let b := go 4 ([Accept; say c0 Byte.x61] ++ up c0 ++ [say c0 Byte.x64; Unregistered c0; say c0 Byte.x65]) in
  size (registry b) = 0%nat /\ option_map (fun k => awaiting (c_work k)) (conns b !! c0) = Some [JNum 5].
Proof. vm_compute. done. Qed.

End ServerExamples.
