(* ===== verification/Mcp.v ===== *)
(** * Mcp: the MCP stdio server

    Models [mcp-server/src/mcp.rs] (the framed stdin loop, request and
    notification handling, cancellation, response and notification framing),
    [mcp-server/src/error.rs] (error values), the capability list of
    [broker_client.rs] and the fallback loop of [main.rs].

    Text is a list of scalar values where the code works on [&str].  The tool
    table ([tools::dispatch], [tools::list]) and serde_json are parameters
    ([McpEnv]). *)
From S2P Require Import Prelude Json Text Wire.
Import JsonTree Wire.

Module Mcp.

(** ** Framing *)

Definition MAX_BODY_BYTES : Z := 16 * 1024 * 1024.
Definition CRLF2 : list byte := [Byte.x0d; Byte.x0a; Byte.x0d; Byte.x0a].

Definition bytes_of (s : string) : list byte := String.list_byte_of_string s.
(** The text of a literal. *)
Definition text (s : string) : list Z := map byte_val (bytes_of s).

(** [slice::ends_with] *)
Definition ends_with (l k : list byte) : bool := bool_decide (k `suffix_of` l).

Inductive header_read : Type :=
| HEof
| HTooLong
| HDone (header rest : list byte).

Fixpoint read_header (header input : list byte) : header_read :=
  match input with
  | [] => HEof
  | b :: input =>
      let header := header ++ [b] in
      if (4 <=? zlen header) && ends_with header CRLF2 then HDone header input
      else if 8 * 1024 <? zlen header then HTooLong
      else read_header header input
  end.

(** [std::str::from_utf8]: valid UTF-8 is what the lossy conversion keeps. *)
Definition from_utf8 (l : list byte) : option (list Z) :=
  if decide (Text.from_utf8_lossy l = l) then Some (Text.lossy_chars l) else None.

(** [str::split] on a carriage return and newline. *)
Fixpoint split_crlf (acc l : list Z) : list (list Z) :=
  match l with
  | [] => [acc]
  | c :: l' =>
      match l' with
      | d :: l'' => if (c =? 13) && (d =? 10) then acc :: split_crlf [] l'' else split_crlf (acc ++ [c]) l'
      | [] => [acc ++ [c]]
      end
  end.

(** [str::split_once] on a colon. *)
Fixpoint split_colon (acc l : list Z) : option (list Z * list Z) :=
  match l with
  | [] => None
  | c :: l => if c =? 58 then Some (acc, l) else split_colon (acc ++ [c]) l
  end.

Definition to_ascii_lowercase (c : Z) : Z := if Text.between 65 90 c then c + 32 else c.
Definition eq_ignore_ascii_case (a b : list Z) : bool :=
  bool_decide (map to_ascii_lowercase a = map to_ascii_lowercase b).

(** [str::parse::<usize>]: an optional plus sign, at least one digit, no overflow. *)
Definition is_digit (c : Z) : bool := Text.between 48 57 c.
Definition parse_usize (l : list Z) : option Z :=
  let ds := match l with c :: ((_ :: _) as r) => if c =? 43 then r else l | _ => l end in
  match ds with
  | [] => None
  | _ =>
      if forallb is_digit ds then
        let n := Text.undigits 10 (map (fun c => c - 48) ds) in
        if n <=? u64_max then Some n else None
      else None
  end.

Inductive lsp_error : Type :=
| HeaderTooLong | HeaderNotUtf8 | BadContentLength | MissingContentLength
| BodyTooLong (len : Z) | UnexpectedEof.

(** The header lines in order; the last [Content-Length] counts. *)
Fixpoint content_length (lines : list (list Z)) (found : option Z) : result (option Z) lsp_error :=
  match lines with
  | [] => Ok found
  | line :: lines =>
      let line := Text.trim line in
      if bool_decide (line = []) then content_length lines found
      else
        match split_colon [] line with
        | Some (k, v) =>
            if eq_ignore_ascii_case (Text.trim k) (text "content-length") then
              match parse_usize (Text.trim v) with
              | Some n => content_length lines (Some n)
              | None => Err BadContentLength
              end
            else content_length lines found
        | None => content_length lines found
        end
  end.

(** [read_exact] of [len] bytes. *)
Definition read_exact (len : Z) (input : list byte) : result (list byte * list byte) lsp_error :=
  if len <=? zlen input then Ok (take (Z.to_nat len) input, drop (Z.to_nat len) input)
  else Err UnexpectedEof.

(** The body and the unread input; [None] at the end of the input. *)
Definition read_lsp_frame (input : list byte) : result (option (list byte * list byte)) lsp_error :=
  match read_header [] input with
  | HEof => Ok None
  | HTooLong => Err HeaderTooLong
  | HDone header rest =>
      match from_utf8 header with
      | None => Err HeaderNotUtf8
      | Some header_str =>
          found <-? content_length (split_crlf [] header_str) None ;;
          match found with
          | None => Err MissingContentLength
          | Some len =>
              if MAX_BODY_BYTES <? len then Err (BodyTooLong len)
              else body <-? read_exact len rest ;; Ok (Some body)
          end
      end
  end.

(** [main.rs], [run_brokerless]: lines are not trimmed, a missing length is
    zero, and the body is not bounded. *)
Fixpoint content_length_brokerless (lines : list (list Z)) (len : Z) : result Z lsp_error :=
  match lines with
  | [] => Ok len
  | line :: lines =>
      match split_colon [] line with
      | Some (k, v) =>
          if eq_ignore_ascii_case (Text.trim k) (text "content-length") then
            match parse_usize (Text.trim v) with
            | Some n => content_length_brokerless lines n
            | None => Err BadContentLength
            end
          else content_length_brokerless lines len
      | None => content_length_brokerless lines len
      end
  end.
Definition read_frame_brokerless (input : list byte)
    : result (option (list byte * list byte)) lsp_error :=
  match read_header [] input with
  | HEof => Ok None
  | HTooLong => Err HeaderTooLong
  | HDone header rest =>
      match from_utf8 header with
      | None => Err HeaderNotUtf8
      | Some h =>
          len <-? content_length_brokerless (split_crlf [] h) 0 ;;
          body <-? read_exact len rest ;; Ok (Some body)
      end
  end.

(** The header and body [write_response] and [frame_notify_bytes] emit. *)
Definition lsp_header (n : Z) : list byte := bytes_of "Content-Length: " ++ Text.fmt_dec n ++ CRLF2.
Definition lsp_frame (body : list byte) : list byte := lsp_header (zlen body) ++ body.

(** All bodies of an input, in order, and how reading ends. The input shrinks
    with every frame, so its length is enough fuel. *)
Fixpoint read_bodies (read : list byte -> result (option (list byte * list byte)) lsp_error)
    (fuel : nat) (input : list byte) : list (list byte) * result () lsp_error :=
  match fuel with
  | O => ([], Ok ())
  | S fuel =>
      match read input with
      | Err e => ([], Err e)
      | Ok None => ([], Ok ())
      | Ok (Some (body, rest)) =>
          let '(bs, r) := read_bodies read fuel rest in (body :: bs, r)
      end
  end.
Definition stdin_bodies (read : list byte -> result (option (list byte * list byte)) lsp_error)
    (input : list byte) : list (list byte) * result () lsp_error :=
  read_bodies read (S (length input)) input.

(** ** Errors *)

Definition REQUEST_CANCELLED : Z := -32800.

(** What the server takes from elsewhere: the tool table, serde_json at the
    types used here and the debug form of a duration. *)
Class McpEnv := {
  tools_list : json;
  call_params : json -> result (string * json) string;
  cancel_params : json -> option json;
  de_mcp_frame : list byte -> option (option json * option string * option json);
  ser_ok : json -> json -> result (list byte) string;
  ser_err : json -> JsonRpcError -> result (list byte) string;
  ser_value : json -> result (list byte) string;
  to_string_pretty : json -> result string string;
  json_to_string : json -> string;
  fmt_duration : Z -> string;
  server_version : string
}.

Section Server.
Context `{McpEnv}.

Definition to_jsonrpc_error (e : BridgeError) : JsonRpcError :=
  match e with
  | BrokerUnavailable msg =>
      mkRpcError (code_i64 BrokerUnavailableCode) ("BrokerUnavailable: " +:+ msg) None
  | BrokerError code message data => mkRpcError code message data
  | Cancelled => mkRpcError REQUEST_CANCELLED "request cancelled" None
  | Timeout d =>
      mkRpcError (code_i64 TimeoutCode) ("Timeout after " +:+ fmt_duration d)
        (Some (JObj [("millis", JNum d)]))
  | InvalidParamsErr method reason =>
      mkRpcError (code_i64 InvalidParams) ("invalid params for " +:+ method +:+ ": " +:+ reason)
        (Some (JObj [("method", JStr method)]))
  | Protocol msg => mkRpcError (code_i64 ProtocolError) ("ProtocolError: " +:+ msg) None
  | Internal msg => mkRpcError (code_i64 InternalError) msg None
  end.

(** ** Cancellation *)

(** The map from request ids to cancel senders, the senders made so far and
    those whose receiver has completed (sent to, or dropped). *)
Record Cancellations := mkCancel { senders : gmap string nat; next_tx : nat; fired : gset nat }.

Definition id_str (id : json) : string := match id with JStr s => s | other => json_to_string other end.

(** The sender a map operation displaces is dropped, which completes its receiver. *)
Definition drop_tx (old : option nat) (f : gset nat) : gset nat :=
  match old with Some k => {[ k ]} ∪ f | None => f end.
Definition insert_tx (id : string) (c : Cancellations) : nat * Cancellations :=
  (next_tx c, mkCancel (<[id := next_tx c]> (senders c)) (S (next_tx c))
                (drop_tx (senders c !! id) (fired c))).
Definition remove_tx (id : string) (c : Cancellations) : Cancellations :=
  mkCancel (delete id (senders c)) (next_tx c) (drop_tx (senders c !! id) (fired c)).

(** [handle_tools_call] up to the [select!]: the cancel channel, tool and arguments. *)
Definition tools_call_begin (params id : json) (c : Cancellations)
    : result (nat * string * json) BridgeError * Cancellations :=
  match call_params params with
  | Err e => (Err (InvalidParamsErr "<unknown>" e), c)
  | Ok (name, arguments) => let '(k, c) := insert_tx (id_str id) c in (Ok (k, name, arguments), c)
  end.

Definition IMAGE_TOOLS : list string :=
  ["page.screenshot"; "system.camera.snapshot"; "system.screen.capture_region"].

Definition into_tool_result (tool : string) (raw : json) : json :=
  if bool_decide (tool ∈ IMAGE_TOOLS) then
    let format := default "png" (vget_str "format" raw) in
    let data := default "" (vget_str "data_base64" raw) in
    JObj [("content", JArr [JObj [("type", JStr "image"); ("data", JStr data);
                                  ("mimeType", JStr ("image/" +:+ format))]])]
  else
    let pretty := match to_string_pretty raw with Ok s => s | Err _ => json_to_string raw end in
    JObj [("content", JArr [JObj [("type", JStr "text"); ("text", JStr pretty)]])].

(** The rest, when the [select!] is polled with the tool's result available:
    the cancel branch is taken first. *)
Definition tools_call_end (k : nat) (name : string) (id : json) (done_ : result json BridgeError)
    (c : Cancellations) : result json BridgeError * Cancellations :=
  let c' := remove_tx (id_str id) c in
  if decide (k ∈ fired c) then (Err Cancelled, c')
  else (match done_ with Ok raw => Ok (into_tool_result name raw) | Err e => Err e end, c').

(** Requests other than [tools/call]. *)
Definition handle_request_simple (method : string) : result json BridgeError :=
  if decide (method = "initialize") then
    Ok (JObj [("protocolVersion", JStr "2024-11-05");
              ("serverInfo", JObj [("name", JStr "one-for-all"); ("version", JStr server_version)]);
              ("capabilities", JObj [("tools", JObj [("listChanged", JBool false)])])])
  else if decide (method = "ping") then Ok (JObj [])
  else if decide (method = "tools/list") then Ok (JObj [("tools", tools_list)])
  else Err (Protocol ("unknown method: " +:+ method)).

(** [dispatch]: the tool table; [during]: what other tasks do to the map while
    the tool runs. *)
Definition handle_request (dispatch : string -> json -> result json BridgeError)
    (during : Cancellations -> Cancellations) (method : string) (params id : json) (c : Cancellations)
    : result json BridgeError * Cancellations :=
  if decide (method = "tools/call") then
    match tools_call_begin params id c with
    | (Err e, c) => (Err e, c)
    | (Ok (k, name, arguments), c) =>
        tools_call_end k name id (dispatch name arguments) (during c)
    end
  else (handle_request_simple method, c).

Definition handle_notification (method : string) (params : json) (c : Cancellations) : Cancellations :=
  if decide (method = "notifications/cancelled") then
    match cancel_params params with
    | Some request_id => remove_tx (id_str request_id) c
    | None => c
    end
  else c.

(** ** Output *)

(** Whole frames go out under the stdout lock, so the stream is the frames in
    the order the lock was taken. *)
Inductive output : Type :=
| OResponse (id : json) (r : result json BridgeError)
| ONotify (method : string) (params : json).

Definition output_body (o : output) : result (list byte) string :=
  match o with
  | OResponse id (Ok v) => ser_ok id v
  | OResponse id (Err e) => ser_err id (to_jsonrpc_error e)
  | ONotify m ps => ser_value (JObj [("jsonrpc", JStr "2.0"); ("method", JStr m); ("params", ps)])
  end.
Definition frame_notify_bytes (m : string) (ps : json) : result (list byte) string :=
  body <-? output_body (ONotify m ps) ;; Ok (lsp_frame body).
Definition write_output (stdout : list byte) (o : output) : list byte :=
  match output_body o with Ok body => stdout ++ lsp_frame body | Err _ => stdout end.

(** ** Input *)

Inductive task : Type :=
| TNotification (method : string) (params : json)
| TRequest (method : string) (params id : json).

(** The tasks spawned for the bodies read; a body that does not parse is skipped. *)
Definition spawn (body : list byte) : list task :=
  match de_mcp_frame body with
  | None => []
  | Some (id, method, params) =>
      let method := default "" method in
      let params := default JNull params in
      [match id with None => TNotification method params | Some id => TRequest method params id end]
  end.
Definition run (input : list byte) : list task * result () lsp_error :=
  let '(bodies, r) := stdin_bodies read_lsp_frame input in (bodies ≫= spawn, r).

End Server.

(** [broker_client.rs]: the capabilities a session registers with. *)
Definition DEFAULT_REGISTER_CAPABILITIES : list (list Z) :=
  [text "tools"; text "events"; text "binary-topics"; text "storage_state"].
Fixpoint split_comma (acc l : list Z) : list (list Z) :=
  match l with
  | [] => [acc]
  | c :: l => if c =? 44 then acc :: split_comma [] l else split_comma (acc ++ [c]) l
  end.
Definition push_cap (caps : list (list Z)) (cap : list Z) : list (list Z) :=
  if bool_decide (cap ∈ caps) then caps else caps ++ [cap].
Definition register_capabilities_from (raw : option (list Z)) : list (list Z) :=
  match raw with
  | None => DEFAULT_REGISTER_CAPABILITIES
  | Some raw =>
      foldl push_cap DEFAULT_REGISTER_CAPABILITIES
        (base.filter (fun cap => cap <> []) (map Text.trim (split_comma [] raw)))
  end.

(** ** Reading back a frame *)

Lemma crlf2_suffix_cr l c : CRLF2 `suffix_of` l ++ [c] -> c = Byte.x0a /\ Byte.x0d ∈ l.
Proof.
  intros P. change CRLF2 with ([Byte.x0d; Byte.x0a; Byte.x0d] ++ [Byte.x0a]) in P.
  split; [symmetry; eapply suffix_snoc_inv_1, P|].
  apply suffix_snoc_inv_2 in P as [k ->]. set_solver.
Qed.

Lemma read_header_plain acc pre rest :
  Byte.x0d ∉ acc -> Byte.x0d ∉ pre -> zlen acc + zlen pre + 4 <= 8 * 1024 ->
  read_header acc (pre ++ CRLF2 ++ rest) = HDone (acc ++ pre ++ CRLF2) rest.
Proof.
  revert acc. induction pre as [|b pre IH]; intros acc Ha Hp L.
  - cbn [app CRLF2 read_header]. rewrite <- !(assoc_L (++)). cbn [app].
    assert (forall k, Byte.x0d ∉ k -> ends_with (k ++ [Byte.x0d]) CRLF2 = false) as N1.
    { intros k _. apply bool_decide_eq_false_2. now intros [? _]%crlf2_suffix_cr. }
    rewrite (N1 acc Ha), andb_false_r.
    assert (ends_with (acc ++ [Byte.x0d; Byte.x0a]) CRLF2 = false) as N2.
    { apply bool_decide_eq_false_2. intros P.
      change CRLF2 with (([Byte.x0d; Byte.x0a] ++ [Byte.x0d]) ++ [Byte.x0a]) in P.
      change [Byte.x0d; Byte.x0a] with ([Byte.x0d] ++ [Byte.x0a]) in P at 2.
      rewrite (assoc_L (++) acc) in P. apply suffix_snoc_inv_2, suffix_snoc_inv_2 in P as [k E].
      set_solver. }
    assert (ends_with (acc ++ [Byte.x0d; Byte.x0a; Byte.x0d]) CRLF2 = false) as N3.
    { apply bool_decide_eq_false_2.
      change [Byte.x0d; Byte.x0a; Byte.x0d] with ([Byte.x0d; Byte.x0a] ++ [Byte.x0d]).
      rewrite (assoc_L (++)). now intros [? _]%crlf2_suffix_cr. }
    rewrite N2, N3, !andb_false_r.
    assert (ends_with (acc ++ CRLF2) CRLF2 = true) as Y by (apply bool_decide_eq_true_2; now exists acc).
    unfold CRLF2 in Y at 1. rewrite Y. rewrite !zlen_app, !zlen_cons, !zlen_nil.
    rewrite zlen_nil in L. pose proof (zlen_nonneg acc).
    repeat (rewrite (proj2 (Z.ltb_ge _ _)) by lia).
    rewrite (proj2 (Z.leb_le _ _)) by lia. reflexivity.
  - cbn [app read_header]. apply not_elem_of_cons in Hp as [Hb Hp].
    assert (ends_with (acc ++ [b]) CRLF2 = false) as ->.
    { apply bool_decide_eq_false_2. now intros [_ ?]%crlf2_suffix_cr. }
    rewrite andb_false_r, zlen_app, zlen_cons, zlen_nil. rewrite zlen_cons in L.
    pose proof (zlen_nonneg pre). rewrite (proj2 (Z.ltb_ge _ _)) by lia.
    rewrite IH; [now rewrite <- (assoc_L (++))|set_solver|done|].
    rewrite zlen_app, zlen_cons, zlen_nil. lia.
Qed.

Definition ascii (l : list byte) : Prop := Forall (fun b => byte_val b < 128) l.

Lemma from_utf8_ascii l : ascii l -> from_utf8 l = Some (map byte_val l).
Proof.
  intros A.
  assert (Text.utf8_bytes (map byte_val l) = l) as E.
  { unfold Text.utf8_bytes. induction A as [|b l Hb A IH]; [reflexivity|].
    cbn [map mbind list_bind]. rewrite IH. unfold Text.encode_utf8.
    destruct (Z.ltb_spec (byte_val b) 0x80); [|lia]. now rewrite byte_of_val. }
  assert (Text.lossy_chars l = map byte_val l) as C.
  { rewrite <- E at 1. apply Text.lossy_chars_bytes. apply Forall_map.
    eapply Forall_impl; [exact A|]. intros b Hb. pose proof (byte_val_range b).
    unfold Text.is_scalar. lia. }
  unfold from_utf8, Text.from_utf8_lossy. rewrite C, E. now rewrite decide_True.
Qed.

Lemma split_crlf_line acc l r : 13 ∉ l -> split_crlf acc (l ++ 13 :: 10 :: r) = (acc ++ l) :: split_crlf [] r.
Proof.
  revert acc. induction l as [|c l IH]; intros acc N.
  - cbn. now rewrite app_nil_r.
  - apply not_elem_of_cons in N as [Nc N]. cbn [app].
    assert (exists d l'', l ++ 13 :: 10 :: r = d :: l'') as (d & l'' & E) by (destruct l; eauto).
    cbn [split_crlf]. specialize (IH (acc ++ [c]) N). rewrite E in *.
    rewrite (proj2 (Z.eqb_neq c 13)) by congruence. cbn [andb]. rewrite IH.
    now rewrite <- (assoc_L (++)).
Qed.

Lemma split_colon_at acc k v : 58 ∉ k -> split_colon acc (k ++ 58 :: v) = Some (acc ++ k, v).
Proof.
  revert acc. induction k as [|c k IH]; intros acc N; [cbn; now rewrite app_nil_r|].
  apply not_elem_of_cons in N as [Nc N]. cbn [app split_colon].
  rewrite (proj2 (Z.eqb_neq c 58)) by congruence. rewrite IH by done. now rewrite <- (assoc_L (++)).
Qed.

Lemma trim_start_id l : (match l with c :: _ => Text.is_whitespace c = false | [] => True end) ->
  Text.trim_start l = l.
Proof. destruct l as [|c l]; simpl; [done|]. now intros ->. Qed.

Lemma trim_id c l d : Text.is_whitespace c = false -> Text.is_whitespace d = false ->
  Text.trim (c :: l ++ [d]) = c :: l ++ [d].
Proof.
  intros Hc Hd. unfold Text.trim. rewrite (trim_start_id (c :: l ++ [d])) by done.
  rewrite app_comm_cons, reverse_snoc, trim_start_id by done.
  now rewrite <- reverse_snoc, reverse_involutive.
Qed.

Lemma fmt_dec_length n : zlen (Text.fmt_dec n) <= 1 + Z.max 0 (Z.log2 n).
Proof.
  assert (forall fuel m acc, (length (Text.digits_fuel fuel 10 m acc) <= fuel + length acc)%nat) as G.
  { induction fuel as [|fuel IH]; intros m acc; cbn [Text.digits_fuel]; [lia|].
    case_match; [simpl; lia|]. etrans; [apply IH|]. simpl. lia. }
  unfold Text.fmt_dec, Text.fmt_radix, zlen. rewrite length_map. unfold Text.digits.
  pose proof (G (S (Z.to_nat (Z.log2 n))) n []) as L. rewrite Nat.add_0_r in L. lia.
Qed.

Definition dec_text (n : Z) : list Z := map byte_val (Text.fmt_dec n).

Lemma dec_text_digits n : 0 <= n -> Forall (fun c => 48 <= c <= 57) (dec_text n).
Proof.
  intros Hn. unfold dec_text. apply Forall_map. eapply Forall_impl; [now apply Text.fmt_dec_is_dec|].
  intros b Hb. unfold Text.is_dec in Hb. simpl. lia.
Qed.

Lemma dec_text_snoc n : exists ds d, dec_text n = ds ++ [d].
Proof.
  unfold dec_text. destruct (exists_last (Text.digits_nonempty n)) as (l & d & ->).
  rewrite map_app. simpl. eauto.
Qed.

Lemma parse_dec n : 0 <= n <= u64_max -> parse_usize (dec_text n) = Some n.
Proof.
  intros Hn. pose proof (dec_text_digits n ltac:(lia)) as F.
  assert (dec_text n <> []) as Hne by (destruct (dec_text_snoc n) as (ds & d & ->); destruct ds; discriminate).
  assert (Text.undigits 10 (map (fun c => c - 48) (dec_text n)) = n) as U.
  { unfold dec_text. rewrite map_map. erewrite map_ext_in; [apply (Text.fmt_radix_roundtrip 10); lia|].
    intros b Hb. pose proof (Text.fmt_dec_is_dec n ltac:(lia)) as D. rewrite Forall_forall in D.
    specialize (D b (proj2 (list_elem_of_In _ _) Hb)). unfold Text.is_dec, Text.byte_digit in *.
    cbv zeta. destruct (byte_val b <? 58) eqn:E; [reflexivity|lia]. }
  assert (forallb is_digit (dec_text n) = true) as D.
  { apply forallb_forall. intros c Hc%list_elem_of_In. rewrite Forall_forall in F. specialize (F c Hc).
    unfold is_digit, Text.between. lia. }
  revert F Hne U D. generalize (dec_text n). intros l F Hne U D. unfold parse_usize.
  destruct l as [|c l]; [done|]. apply Forall_cons in F as [Hc _].
  assert ((match c :: l with c :: ((_ :: _) as r) => if c =? 43 then r else c :: l | _ => c :: l end) = c :: l) as ->.
  { destruct l; [done|]. now rewrite (proj2 (Z.eqb_neq c 43)) by lia. }
  rewrite D, U. now rewrite (proj2 (Z.leb_le _ _)) by lia.
Qed.

Lemma read_header_lsp n rest : 0 <= n <= u64_max ->
  read_header [] (lsp_header n ++ rest) = HDone (lsp_header n) rest.
Proof.
  intros Hn. unfold lsp_header. rewrite <- !(assoc_L (++)), (assoc_L (++) (bytes_of _)).
  rewrite read_header_plain; [now rewrite <- (assoc_L (++))|apply not_elem_of_nil| |].
  - rewrite not_elem_of_app. split; [apply (bool_decide_unpack _); vm_compute; exact I|].
    intros E. pose proof (Text.fmt_dec_is_dec n ltac:(lia)) as D. rewrite Forall_forall in D.
    specialize (D _ E). discriminate.
  - rewrite zlen_nil, zlen_app. pose proof (fmt_dec_length n).
    assert (Z.log2 n <= 64) by (transitivity (Z.log2 u64_max); [apply Z.log2_le_mono; lia|discriminate]).
    assert (zlen (bytes_of "Content-Length: ") = 16) by reflexivity. lia.
Qed.

Lemma lsp_header_ascii n : 0 <= n -> ascii (lsp_header n).
Proof.
  intros Hn. unfold lsp_header, ascii. rewrite !Forall_app. repeat split.
  - apply (bool_decide_unpack _). vm_compute. exact I.
  - eapply Forall_impl; [now apply Text.fmt_dec_is_dec|]. intros b Hb. unfold Text.is_dec in Hb. simpl. lia.
  - apply (bool_decide_unpack _). vm_compute. exact I.
Qed.

Lemma header_lines n : 0 <= n ->
  split_crlf [] (map byte_val (lsp_header n)) = [text "Content-Length: " ++ dec_text n; []; []].
Proof.
  intros Hn. unfold lsp_header. rewrite !map_app.
  change (map byte_val CRLF2) with ([] ++ 13 :: 10 :: [] ++ 13 :: 10 :: ([] : list Z)).
  rewrite (assoc_L (++)). cbn [app]. rewrite split_crlf_line; [reflexivity|].
  rewrite not_elem_of_app. split; [apply (bool_decide_unpack _); vm_compute; exact I|].
  intros E. pose proof (dec_text_digits n Hn) as D. rewrite Forall_forall in D. specialize (D _ E). lia.
Qed.

Lemma digit_not_space c : 48 <= c <= 57 -> Text.is_whitespace c = false.
Proof. intros. unfold Text.is_whitespace, Text.between. lia. Qed.

Lemma dec_text_trim n : 0 <= n -> Text.trim (32 :: dec_text n) = dec_text n /\
  Text.trim (text "Content-Length: " ++ dec_text n) = text "Content-Length: " ++ dec_text n.
Proof.
  intros Hn. pose proof (dec_text_digits n Hn) as D. destruct (dec_text_snoc n) as (ds & d & E).
  rewrite E in *. apply Forall_app in D as [D1 D2]. apply Forall_cons in D2 as [D2 _].
  apply digit_not_space in D2 as W. split.
  - transitivity (Text.trim (ds ++ [d])); [reflexivity|].
    destruct ds as [|c ds]; [unfold Text.trim; simpl; now rewrite W; simpl; rewrite W|].
    apply trim_id; [|done]. apply Forall_cons in D1 as [D1 _]. now apply digit_not_space.
  - change (text "Content-Length: ") with (67 :: text "ontent-Length: ").
    cbn [app]. rewrite (assoc_L (++)). now apply trim_id.
Qed.

Lemma content_length_header n : 0 <= n <= u64_max ->
  content_length (split_crlf [] (map byte_val (lsp_header n))) None = Ok (Some n) /\
  content_length_brokerless (split_crlf [] (map byte_val (lsp_header n))) 0 = Ok n.
Proof.
  intros Hn. rewrite header_lines by lia. destruct (dec_text_trim n ltac:(lia)) as [T1 T2].
  assert (split_colon [] (text "Content-Length: " ++ dec_text n)
          = Some (text "Content-Length", 32 :: dec_text n)) as C.
  { change (text "Content-Length: ") with (text "Content-Length" ++ [58; 32]).
    rewrite <- (assoc_L (++)). cbn [app]. rewrite split_colon_at; [reflexivity|].
    apply (bool_decide_unpack _). vm_compute. exact I. }
  cbn [content_length content_length_brokerless]. rewrite T2, C, T1, (parse_dec n Hn).
  rewrite bool_decide_eq_false_2 by (intros [E _]%app_eq_nil; discriminate). split; reflexivity.
Qed.

Lemma read_exact_app n (body rest : list byte) : zlen body = n -> read_exact n (body ++ rest) = Ok (body, rest).
Proof.
  intros <-. unfold read_exact. rewrite zlen_app, (proj2 (Z.leb_le _ _)) by (pose proof (zlen_nonneg rest); lia).
  unfold zlen. now rewrite Nat2Z.id, take_app_length, drop_app_length.
Qed.

Lemma read_lsp_frame_app body rest : zlen body <= MAX_BODY_BYTES ->
  read_lsp_frame (lsp_frame body ++ rest) = Ok (Some (body, rest)) /\
  read_frame_brokerless (lsp_frame body ++ rest) = Ok (Some (body, rest)).
Proof.
  intros L. pose proof (zlen_nonneg body).
  assert (0 <= zlen body <= u64_max) as U by (unfold MAX_BODY_BYTES, u64_max in *; lia).
  unfold read_lsp_frame, read_frame_brokerless, lsp_frame. rewrite <- (assoc_L (++)), read_header_lsp by done.
  rewrite from_utf8_ascii by (apply lsp_header_ascii; lia).
  destruct (content_length_header (zlen body) U) as [-> ->].
  rewrite (proj2 (Z.ltb_ge _ _)) by done. now rewrite read_exact_app.
Qed.

Lemma read_header_shrinks header input header' rest :
  read_header header input = HDone header' rest -> (length rest < length input)%nat.
Proof.
  revert header. induction input as [|b input IH]; intros header; cbn [read_header]; [discriminate|].
  cbn [length]. repeat case_match; intros E; try discriminate; [simplify_eq; lia|].
  apply IH in E. lia.
Qed.

Lemma read_exact_shrinks len input body rest :
  read_exact len input = Ok (body, rest) -> (length rest <= length input)%nat.
Proof.
  unfold read_exact. case_match; [|discriminate]. intros [= _ <-]. rewrite length_drop. lia.
Qed.

Lemma read_lsp_frame_shrinks input body rest :
  read_lsp_frame input = Ok (Some (body, rest)) -> (length rest < length input)%nat.
Proof.
  unfold read_lsp_frame. destruct (read_header [] input) eqn:E; try discriminate.
  apply read_header_shrinks in E. repeat case_match; try discriminate. intros [= ->].
  match goal with H : read_exact _ _ = _ |- _ => apply read_exact_shrinks in H; lia end.
Qed.

(** The fuel of [stdin_bodies] is enough: more makes no difference. *)
Lemma stdin_bodies_fuel input fuel : (length input < fuel)%nat ->
  read_bodies read_lsp_frame fuel input = stdin_bodies read_lsp_frame input.
Proof.
  unfold stdin_bodies. assert (length input < S (length input))%nat as L by lia. revert L.
  generalize (S (length input)) as fuel'. revert input.
  induction fuel as [|fuel IH]; intros input [|fuel'] L L'; try lia. cbn [read_bodies].
  destruct (read_lsp_frame input) as [[[body rest]|]|] eqn:E; try reflexivity.
  apply read_lsp_frame_shrinks in E. now rewrite (IH rest fuel') by lia.
Qed.

(** The registered capabilities start with the defaults and repeat nothing. *)
Lemma register_capabilities_spec raw :
  DEFAULT_REGISTER_CAPABILITIES `prefix_of` register_capabilities_from raw /\
  NoDup (register_capabilities_from raw).
Proof.
  assert (forall l caps, NoDup caps -> caps `prefix_of` foldl push_cap caps l /\ NoDup (foldl push_cap caps l)) as G.
  { induction l as [|cap l IH]; intros caps N; [done|]. cbn [foldl]. unfold push_cap at 2 4.
    case_bool_decide; [now apply IH|].
    destruct (IH (caps ++ [cap])) as [P Q].
    - apply NoDup_app. repeat split; [done| |apply NoDup_singleton]. set_solver.
    - split; [|done]. etrans; [|exact P]. now exists [cap]. }
  assert (NoDup DEFAULT_REGISTER_CAPABILITIES) by (apply (bool_decide_unpack _); vm_compute; exact I).
  unfold register_capabilities_from. destruct raw; [now apply G|done].
Qed.

Lemma lsp_frame_nonempty body : (0 < length (lsp_frame body))%nat.
Proof. unfold lsp_frame, lsp_header. rewrite !length_app. simpl. lia. Qed.

Lemma bodies_length bodies : (length bodies <= length (concat (map lsp_frame bodies)))%nat.
Proof.
  induction bodies as [|b bodies IH]; simpl; [lia|]. rewrite length_app.
  pose proof (lsp_frame_nonempty b). lia.
Qed.

Lemma read_bodies_frames read bodies fuel :
  (forall body rest, zlen body <= MAX_BODY_BYTES -> read (lsp_frame body ++ rest) = Ok (Some (body, rest))) ->
  read [] = Ok None -> (length bodies < fuel)%nat ->
  Forall (fun body => zlen body <= MAX_BODY_BYTES) bodies ->
  read_bodies read fuel (concat (map lsp_frame bodies)) = (bodies, Ok ()).
Proof.
  intros R R0 Hf F. revert fuel Hf. induction F as [|b bodies Hb F IH]; intros [|fuel] Hf; simpl in Hf; try lia.
  - simpl. now rewrite R0.
  - cbn [map concat read_bodies]. rewrite R by done. now rewrite IH by lia.
Qed.

Section Roundtrip.
Context `{McpEnv}.

Lemma write_outputs outs stdout :
  foldl write_output stdout outs
  = stdout ++ concat (map lsp_frame (outs ≫= fun o => match output_body o with Ok b => [b] | Err _ => [] end)).
Proof.
  revert stdout. induction outs as [|o outs IH]; intros stdout; [simpl; now rewrite app_nil_r|].
  cbn [foldl mbind list_bind]. rewrite IH, map_app, concat_app. unfold write_output.
  destruct (output_body o); [|reflexivity]. simpl. now rewrite app_nil_r, <- (assoc_L (++)).
Qed.

(** The framing of the stdio transport is a code: whatever responses and
    notifications are written, in whatever order their tasks take the output
    lock, a reader with the server's own framing gets back exactly their bodies
    in that order and then a clean end of input; this holds for the reader of
    the main loop and for the reader of the fallback loop.  Outputs that fail
    to serialize write nothing. *)
Theorem lsp_stream outs bodies :
  bodies = (outs ≫= fun o => match output_body o with Ok b => [b] | Err _ => [] end) ->
  Forall (fun body => zlen body <= MAX_BODY_BYTES) bodies ->
  stdin_bodies read_lsp_frame (foldl write_output [] outs) = (bodies, Ok ()) /\
  stdin_bodies read_frame_brokerless (foldl write_output [] outs) = (bodies, Ok ()).
Proof.
  intros E F. rewrite write_outputs, <- E. cbn [app]. unfold stdin_bodies.
  pose proof (bodies_length bodies).
  split; apply read_bodies_frames; try done; try lia; intros; now apply read_lsp_frame_app.
Qed.

(** ** Cancellation *)

(** A cancel notification completes the channel registered under its id and no other. *)
Lemma cancel_fires params rid c :
  cancel_params params = Some rid ->
  fired (handle_notification "notifications/cancelled" params c)
  = drop_tx (senders c !! id_str rid) (fired c).
Proof. intros E. unfold handle_notification. simpl. now rewrite E. Qed.

(** Senders are numbered below the counter. *)
Definition cancel_wf (c : Cancellations) : Prop :=
  (forall id k, senders c !! id = Some k -> (k < next_tx c)%nat) /\
  (forall k, k ∈ fired c -> (k < next_tx c)%nat).

Lemma insert_tx_wf id c : cancel_wf c -> cancel_wf (snd (insert_tx id c)).
Proof.
  intros [S F]. split; cbn [insert_tx snd senders next_tx fired].
  - intros id' k. rewrite lookup_insert_Some. intros [[_ <-]|[_ Hk]]; [lia|]. apply S in Hk. lia.
  - intros k. unfold drop_tx. destruct (senders c !! id) eqn:E.
    + rewrite elem_of_union, elem_of_singleton. intros [->|Hk]; [apply S in E|apply F in Hk]; lia.
    + intros Hk%F. lia.
Qed.

(** A call nobody interferes with answers with its tool's result, and leaves
    the map without its id. *)
Lemma undisturbed_call dispatch params id name args c :
  cancel_wf c -> call_params params = Ok (name, args) ->
  let '(r, c') := handle_request dispatch (fun c => c) "tools/call" params id c in
  r = match dispatch name args with Ok raw => Ok (into_tool_result name raw) | Err e => Err e end /\
  senders c' = delete (id_str id) (senders c).
Proof.
  intros [S F] E. unfold handle_request, tools_call_begin. rewrite decide_True by done. rewrite E. cbn.
  unfold tools_call_end. cbn [fired senders next_tx remove_tx].
  rewrite decide_False.
  - split; [done|]. apply delete_insert_eq.
  - unfold drop_tx. destruct (senders c !! id_str id) eqn:El.
    + rewrite elem_of_union, elem_of_singleton. intros [Hk|Hk]; [apply S in El|apply F in Hk]; lia.
    + intros Hk%F. lia.
Qed.

(** Ids are compared by their text: a call whose id prints like that of a call
    in progress completes that call's cancel channel, and the call in progress
    answers that it was cancelled. *)
Lemma same_text_cancels params1 id1 params2 id2 c c1 c2 k1 name1 args1 out2 done_ :
  id_str id1 = id_str id2 ->
  tools_call_begin params1 id1 c = (Ok (k1, name1, args1), c1) ->
  tools_call_begin params2 id2 c1 = (Ok out2, c2) ->
  fst (tools_call_end k1 name1 id1 done_ c2) = Err Cancelled.
Proof.
  intros E. unfold tools_call_begin, insert_tx.
  destruct (call_params params1) as [[n1 a1]|]; [|discriminate]. intros [= <- <- <- <-].
  destruct (call_params params2) as [[n2 a2]|]; [|discriminate]. intros [= <- <-].
  unfold tools_call_end. cbn [fired senders]. rewrite E, lookup_insert_eq. cbn [drop_tx].
  now rewrite decide_True by set_solver.
Qed.

End Roundtrip.

End Mcp.

Module McpExamples.
Import Mcp.

(** Bodies are the printed results, so that the example runs. *)
#[local] Instance demo_env : McpEnv := {
  tools_list := JArr [];
  call_params v := match vget_str "name" v with
                   | Some n => Ok (n, default JNull (vget "arguments" v))
                   | None => Err "missing field name" end;
  cancel_params v := vget "requestId" v;
  de_mcp_frame b := if decide (b = bytes_of "ping") then Some (Some (JNum 1), Some "ping", None) else None;
  ser_ok _ _ := Ok (bytes_of "ok");
  ser_err _ _ := Ok (bytes_of "err");
  ser_value _ := Ok (bytes_of "notify");
  to_string_pretty _ := Ok "pretty";
  json_to_string v := match v with JNum z => dec z | _ => "null" end;
  fmt_duration _ := "1s";
  server_version := "0"
}.

Definition demo_outputs : list output :=
  [OResponse (JNum 1) (handle_request_simple "ping"); ONotify "event/notify" (JObj []);
   OResponse (JNum 2) (handle_request_simple "nope")].

Lemma lsp_stream_witness :
  stdin_bodies read_lsp_frame (foldl write_output [] demo_outputs)
  = ([bytes_of "ok"; bytes_of "notify"; bytes_of "err"], Ok ()) /\
  stdin_bodies read_frame_brokerless (foldl write_output [] demo_outputs)
  = ([bytes_of "ok"; bytes_of "notify"; bytes_of "err"], Ok ()).
Proof.
  apply (lsp_stream demo_outputs); [reflexivity|].
  repeat (apply Forall_cons; split; [vm_compute; discriminate|]). apply Forall_nil. exact I.
Defined.

(** The bytes themselves, and a frame with a lower-case header and another field. *)
Example framing_run :
  lsp_frame (bytes_of "ping")
    = bytes_of "Content-Length: 4" ++ CRLF2 ++ bytes_of "ping" /\
  run (bytes_of "X: y" ++ [Byte.x0d; Byte.x0a] ++ bytes_of "content-length:+4" ++ CRLF2 ++ bytes_of "ping")
    = ([TRequest "ping" JNull (JNum 1)], Ok ()) /\
  run (bytes_of "Content-Length: x" ++ CRLF2) = ([], Err BadContentLength) /\
  run (bytes_of "Content-Length: 5" ++ CRLF2 ++ bytes_of "ping") = ([], Err UnexpectedEof) /\
  run (bytes_of "Content-Le") = ([], Ok ()) /\
  stdin_bodies read_frame_brokerless (bytes_of "X: y" ++ CRLF2) = ([[]], Ok ()).
Proof. vm_compute. auto 10. Qed.

(** The request ids 1 and the string of the same digit share one entry: the
    second call cancels the first. *)
Example number_and_string_ids_collide :
  let params := JObj [("name", JStr "tab.list")] in
  let c0 := mkCancel ∅ 0 ∅ in
  let '(r1, c1) := tools_call_begin params (JNum 1) c0 in
  let '(r2, c2) := tools_call_begin params (JStr "1") c1 in
  r1 = Ok (0%nat, "tab.list", JNull) /\
  fst (tools_call_end 0 "tab.list" (JNum 1) (Ok JNull) c2) = Err Cancelled /\
  fst (tools_call_end 0 "tab.list" (JNum 1) (Ok JNull) c1) <> Err Cancelled.
Proof. vm_compute. repeat split. discriminate. Qed.

Example capabilities_run :
  register_capabilities_from (Some (text "native, eval,events,,system"))
  = DEFAULT_REGISTER_CAPABILITIES ++ [text "native"; text "eval"; text "system"].
Proof. vm_compute. reflexivity. Qed.

End McpExamples.
